(* ===== verification/_CoqProject ===== *)
-Q . S2P
Prelude.v
PyStr.v
PyVal.v
PyJson.v
PyTime.v
Crypto.v
PyText.v
PyIso.v
PyJsonRead.v
Models.v
SeqExpr.v
SeqRule.v
SeqEval.v
AuditChain.v
RateLimit.v
Rollout.v
Scoping.v
Jobs.v
Commands.v
Fleet.v
DnsBlock.v
Devices.v
Allowlist.v
Routing.v
Playbooks.v
Uploads.v
Terminal.v
Gateway.v
Enrollment.v
Honeytokens.v
Attestation.v
Dedup.v
Response.v
Detector.v
Incidents.v
Cron.v
Hunt.v
SeqWorker.v
ProcGraph.v
Cases.v
Triage.v
Investigate.v
Webhooks.v
Accounts.v
Oidc.v
Auth.v
Scim.v
