(* ===== verification/Prelude.v ===== *)
(** * Vigil: verification of the manager's detection and response core

    Vigil is an endpoint detection and response system.  Agents on the hosts send
    telemetry to a manager (backend/app, Python), which matches it against rules,
    opens alerts, groups them into incidents, notifies people, runs playbooks, sends
    commands, policies and jobs back to the agents, rolls out agent updates, and
    keeps an audit log; operators drive it through an HTTP API.  This library is a
    shallow embedding of the part of the manager that decides: what matches, who may
    do what, what is written and what is sent.

    ** Parts and files

    The foundations:
    - Prelude: results that may raise ([res], a monad), list and option lemmas,
      tactics and hint databases shared by all files;
    - PyStr, PyVal, PyJson, PyJsonRead, PyTime, PyIso, PyText, Crypto: the Python
      strings, dynamic values with IEEE doubles, [json.dumps] and [json.loads], UUIDs,
      UTC datetimes and [fromisoformat], UTF-8 and base64, SHA-256, HMAC and BLAKE2b that the code uses, all
      executable;
    - Models: the enumerations, transition tables and rows of app/models that
      several services share.

    Detection, with the code under src/backend/app that each file models:
    - SeqExpr, SeqRule, SeqEval (services/sequence.py): the expression language of
      sequence rules, the parser of rule bodies, and the evaluator that follows
      sequences of events per host;
    - SeqWorker (workers/sequence_detector.py, api/sequence_rules.py): the worker that
      compiles the stored rules, feeds the evaluator and raises alerts, and the routes;
    - Dedup (services/alert_dedup.py): coalescing of repeated alerts;
    - Response (services/response.py): the commands a match queues, through Jobs;
    - Detector (services/detector.py, workers/detector.py, the tenant resolution of
      services/host_cache.py): from an event to matches, alerts (Dedup) and commands
      (Response);
    - Incidents (services/incident_grouping.py): grouping alerts into incidents;
    - Cron, Hunt (services/hunt.py, workers/hunt_scheduler.py, api/hunt.py,
      services/sigma.py): saved hunts, their cron schedules, runs and routes;
    - ProcGraph (workers/process_chain_indexer.py, services/process_graph.py,
      api/process_chain.py): the table of processes and its ancestor queries;
    - Attestation (services/attestation.py, api/attestation.py): boot measurements
      against a baseline.

    Reaction:
    - Jobs (services/jobs.py, api/jobs.py): jobs, their runs and commands.  It uses
      Scoping for the targets, Rollout for update jobs and AuditChain for the log;
    - Commands (api/commands.py, services/isolation_guard.py, the queue and the
      translation of commands in grpc/services.py): from a command row to the message
      an agent receives;
    - Routing (services/routing.py, workers/alert_router.py, api/notifications.py,
      api/routing.py): notification channels, routing rules, delivery with retries;
    - Playbooks (services/playbooks.py, workers/playbook_executor.py,
      api/playbooks.py): response chains, through Commands and Routing.

    Triage:
    - Cases (services/case_management.py, services/case, services/encryption.py,
      workers/case_sync.py, api/case_destinations.py): mirrors of alerts in Jira and
      ServiceNow;
    - Triage (api/alerts.py, api/incidents.py, services/sorting.py,
      services/event_bus.py): lists, charts, state changes and assignment; its runs
      interleave them with the Detector's alerts and the passes of Incidents, and a
      state change runs the hook of Cases;
    - Investigate (the rest of api/alerts.py, the queries of services/opensearch.py):
      the context of an alert, the process chain (ProcGraph first, the index
      otherwise) and the panels of a process;
    - Webhooks (services/webhook_dispatcher.py, workers/webhook_dispatcher.py,
      api/webhooks.py, the encoding of services/kafka.py): the events that Triage
      publishes, signed and delivered to subscribers.

    The fleet and its policies, which share the interface [WireSync] of Fleet (what a
    policy promises about the last command an agent was sent):
    - Fleet (api/host_groups.py and the tables of the policies);
    - DnsBlock, Devices, Allowlist, Honeytokens (services, routes and workers of the
      same names): lists and policies pushed to the agents;
    - Rollout (services/rollout.py, workers/rollout_monitor.py, part of
      api/rollouts.py): update cohorts and the circuit breaker;
    - Gateway (grpc/services.py): streams of the agents, admission, results, progress,
      artifacts and rule synchronisation;
    - Enrollment (services/enrollment.py, api/enrollment.py): tokens and enrolment;
    - Uploads (services/uploads.py, api/uploads.py) and Terminal (services/terminal.py,
      api/host_terminal.py): signed upload grants and remote terminals.

    Access and accountability:
    - AuditChain (services/audit.py, services/audit_verifier.py): the HMAC chain of
      the audit log and its verifier;
    - RateLimit (core/rate_limit.py): the in-memory and the Redis rate limiter;
    - Scoping (services/scoping.py, the roles of core/deps.py): which hosts an actor
      may see;
    - Accounts (api/users.py, api/api_tokens.py, api/scim_tokens.py, api/tenants.py, the
      formats of core/security.py): users, tenants and their tokens, with the
      constraints and cascades of their tables;
    - Oidc (services/oidc.py): the OpenID Connect client and its caches;
    - Auth (api/auth.py, services/auth.py, services/totp.py, core/deps.py): passwords
      with their throttle ([Throttle], an interface with an in-memory and a Redis
      instance), sessions, second factors, single sign-on through Oidc, and the actor
      behind a request;
    - Scim (api/scim.py, services/scim.py): provisioning by an identity provider; it
      also joins the routes of Accounts, Auth and Scim into one system of steps.

    ** How the code is rendered

    A function of the source is a definition with its name.  Code that raises
    returns [py A], a value or the exception that escapes; code that updates tables
    takes and returns a record of tables, a table being a list of rows.  Where rows
    added before an exception matter, the state is kept beside the exception (the
    monad [hs] of Hunt, the evaluator of SeqEval, the links of Cases).  An ORM object
    is its row, found by its primary key, except in SeqWorker, where the objects the
    worker keeps between sessions are detached from their rows; a query without an order is an arbitrary order, given as an
    argument or universally quantified.  Identifiers drawn by [uuid4], the clock and
    the environment are arguments ([env]).  Requests that share a database, the two
    ends of a terminal and the polls of a worker are sequences of steps.

    Code outside the repository is an argument with its documented behaviour as
    hypotheses: the YAML loader, the Redis script ([RedisCounter], a type class with
    an instance), PyJWT, argon2, pyotp, the identity provider, pySigma, OpenSearch, Fernet, X.509, the HTTP and
    SMTP sessions, the object store, the name resolver, the order PostgreSQL delivers.  Strings hold the code points
    U+0000 to U+00FF.  Where a value would leave that range, or a regular expression
    the modelled class, the result is the exception [Unmodelled], which no theorem
    counts as a success.

    ** What is proved

    - Sequences: the parser accepts exactly its grammar, with the grammar's meaning;
      accepted rules are well formed and the errors are delimited; the evaluator
      returns exactly the matches of a declarative meaning of sequences, does not
      raise in reachable states, and its garbage collection cannot be observed.
    - Audit: what is recorded verifies; tables that verify and end in the same HMAC
      have the same rows or show a collision; what the chain does not detect.
    - Rate limits: the store refines an abstract sliding window; bounds for both
      backends.
    - Access and jobs: the three host gates agree; jobs of non-administrators stay
      within them; a job reaches its host and the host's report settles it; cancelling
      stops a job; object keys stay in their directory; where tenants are not kept
      apart.
    - Accounts and sign-in: the account tables stay well formed under all routes of
      Accounts, Auth and Scim; a tenant keeps an enabled administrator over the
      console, but not against its identity provider; requests stay in their tenant;
      an actor is backed by an enabled user; nobody gets a session of a user with a
      second factor without a valid code; wrong passwords are bounded per window, wrong
      codes are not; API tokens work from creation to expiry or revocation; a sign-on
      is bound to the browser that began it; deprovisioning ends access at once; a SCIM
      user reads back as shown and creations can be repeated; which deletions always
      fail.
    - Sequence alerts: the worker raises an alert exactly for the sequences an event
      completes; a rule the API accepts compiles; what the cached rules lose.
    - Triage: the history of every alert is a path of the transition table, closed
      alerts stay closed, the pages of a list are the rows the actor may open, the
      chart counts them; trackers never block a state change; an alert is opened at
      most once per tracker, and a synchronisation records what became of each
      request; which destinations and links are starved.
    - Webhooks: a delivery verifies with the secret the API has shown; an event goes
      once to each enabled subscription of its type; attempts are bounded; the tables
      stay well formed under all routes, and the worker disables a subscription only
      after the configured failures in a row; a state change in Triage is read back
      by the worker as published; which event an unreadable secret loses.
    - Process lineage: the ancestor query returns the lineage when pids are not
      reused, redelivered events collapse, and the chain of an alert is a lineage.
    - Rollout: the breaker trips exactly the failing policies, and once tripped no
      update is dispatched.
    - Detection: commands stay within the operator's ceiling; every match is
      represented by an alert; bursts coalesce; dedup keys are injective up to a
      SHA-256 collision; boot drift raises its alert.
    - Incidents: a pass groups every eligible alert, is idempotent, and splits at
      gaps; which incidents keep a stale severity.
    - Hunts: the cron matcher computes the meaning of cron expressions; the host
      filter is exact; a completed hunt does not run twice in a minute, a failing one
      does; the routes keep their gates; what one hit on a deleted host does.
    - Commands: the queue delivers every command once; isolation keeps the manager
      reachable; which commands block the queue or slip past the guards.
    - Notifications: an alert fires exactly the channels its rules select, once, and a
      stored configuration reads back as given; the router dispatches every alert it
      can see once; references stay inside a tenant, alerts do not.
    - Playbooks: an accepted body is bounded; a run queues exactly the commands of the
      steps that no false guard holds back and records its outcome; where guards,
      records, messages and tenants are lost.
    - Fleet policies: after any edit the agents concerned have last been told exactly
      the state in force; where they are not told.
    - Enrolment, uploads, terminals: a token enrols one host, which is then admitted
      with its certificate alone; a grant authorises its upload; the log of a terminal
      accounts for every byte; what the shared signing key and the missing checks
      allow.

    A theorem with hypotheses is followed by a witness that applies it to concrete
    data.

    ** Bounds and fuel

    Fuel occurs where the recursion is not structural: the tokenizer has one step per
    character and the parser four nested calls per token, and both are proved never to
    run out ([tokenize_go_total], [or_expr_fuel], [parse_iff_grammar]); the JSON reader
    has two steps per character ([json_loads_no_fuel]); BLAKE2b has one step per byte,
    of which each block consumes 128 ([blake_blocks_fuel]); the digits of a float are
    searched up to 17 places, which identify every double; the walks over process
    ancestors take the depth limits of the source itself.  SHA-256 and BLAKE2b words
    wrap at 32 and 64 bits; process ids are checked against 32 bits where the agent's
    message holds them; all other integers are Python's.

    ** What is not modelled

    Transport and storage clients (Kafka, gRPC, OpenSearch, MinIO, SMTP, HTTP), the
    schema validation of request bodies beyond the fields the routes read, most listing
    and reporting routes, concurrency of transactions beyond the sequences of steps above,
    NUL characters in the answers of trackers, and these components: the telemetry
    normalizer, CEF export, version matching of vulnerabilities, identity and cloud
    detectors, the certificate authority.  The agents (Rust, C), the web console and the deployment are outside the
    manager. *)

From stdpp Require Export base tactics decidable option list list_numbers
  gmap sets strings pretty.
From Stdlib Require Export ZArith Lia.

(** ** Results of code that may raise

    [res E A] is the outcome of a Python call: a value, or the exception that
    escaped.  It is a monad; stdpp's [x ← m; k] is the source's statement
    sequencing. *)

Inductive res (E A : Type) : Type :=
| Ok (a : A)
| Err (e : E).
Global Arguments Ok {E A} a.
Global Arguments Err {E A} e.

Global Instance res_ret E : MRet (res E) := λ A a, Ok a.
Global Instance res_bind E : MBind (res E) := λ A B f m,
  match m with Ok a => f a | Err e => Err e end.
Global Instance res_fmap E : FMap (res E) := λ A B f m,
  match m with Ok a => Ok (f a) | Err e => Err e end.

Definition is_ok {E A} (m : res E A) : bool :=
  match m with Ok _ => true | Err _ => false end.

Definition of_option {E A} (e : E) (o : option A) : res E A :=
  match o with Some a => Ok a | None => Err e end.

Definition to_option {E A} (m : res E A) : option A :=
  match m with Ok a => Some a | Err _ => None end.

Lemma Ok_inj {E A} (a b : A) : Ok (E := E) a = Ok b → a = b.
Proof. congruence. Qed.

(** Laws used to rearrange monadic code. *)
Lemma res_bind_ok {E A B} (m : res E A) (f : A → res E B) b :
  m ≫= f = Ok b ↔ ∃ a, m = Ok a ∧ f a = Ok b.
Proof. destruct m; cbn; naive_solver. Qed.

Lemma res_bind_err {E A B} (m : res E A) (f : A → res E B) e :
  m ≫= f = Err e ↔ m = Err e ∨ ∃ a, m = Ok a ∧ f a = Err e.
Proof. destruct m; cbn; naive_solver. Qed.

Lemma res_bind_assoc {E A B C} (m : res E A) (f : A → res E B) (g : B → res E C) :
  (m ≫= f) ≫= g = m ≫= (λ a, f a ≫= g).
Proof. by destruct m. Qed.

(** ** Tactics *)

(** Split the monadic hypotheses [m ≫= f = Ok b]. *)
Ltac res_inv :=
  repeat match goal with
  | H : mbind _ _ = Ok _ |- _ => apply res_bind_ok in H as (? & ? & H)
  | H : Ok _ = Ok _ |- _ => injection H as H
  | H : Ok _ = Err _ |- _ => discriminate H
  | H : Err _ = Ok _ |- _ => discriminate H
  | H : Err _ = Err _ |- _ => injection H as H
  end.

(** Case analysis on the first [match] or [if] of the goal or of a
    hypothesis, keeping the equation. *)
Ltac split_match :=
  match goal with
  | |- context [match ?x with _ => _ end] =>
      match x with context [match _ with _ => _ end] => fail 1 | _ => idtac end;
      let H := fresh "Hm" in destruct x eqn:H
  end.
Ltac split_match_in H :=
  match type of H with
  | context [match ?x with _ => _ end] =>
      match x with context [match _ with _ => _ end] => fail 1 | _ => idtac end;
      let E := fresh "Hm" in destruct x eqn:E
  end.

(** Turn boolean tests into propositions. *)
Create HintDb vigil_bool.
#[export] Hint Rewrite andb_true_iff andb_false_iff orb_true_iff orb_false_iff
  negb_true_iff negb_false_iff Z.ltb_lt Z.ltb_ge Z.leb_le Z.leb_gt Z.eqb_eq Z.eqb_neq
  Nat.eqb_eq Nat.eqb_neq Nat.ltb_lt Nat.ltb_ge Nat.leb_le Nat.leb_gt
  bool_decide_eq_true bool_decide_eq_false String.eqb_eq String.eqb_neq : vigil_bool.
Ltac breflect := autorewrite with vigil_bool in *.

(** The database the components add their invariant lemmas to. *)
Create HintDb vigil.

(** Rewriting of string concatenation. *)
Create HintDb vigil_str.

(** ** Lists *)

(** [seen]-set loops of the source: keep the first occurrence of each element,
    in order. *)
Fixpoint dedup_go {A} `{EqDecision A} (seen : list A) (l : list A) : list A :=
  match l with
  | [] => []
  | x :: l => if decide (x ∈ seen) then dedup_go seen l else x :: dedup_go (x :: seen) l
  end.
Definition dedup {A} `{EqDecision A} (l : list A) : list A := dedup_go [] l.

Section dedup.
Context {A : Type} `{EqDecision A}.
Implicit Types (l seen : list A) (x : A).

Lemma elem_of_dedup_go l seen x : x ∈ dedup_go seen l ↔ x ∈ l ∧ x ∉ seen.
Proof.
  revert seen; induction l as [|y l IH]; intros seen; simpl; [set_solver|].
  case_decide; [rewrite IH; set_solver|].
  rewrite elem_of_cons, IH. destruct (decide (x = y)); set_solver.
Qed.

Lemma elem_of_dedup l x : x ∈ dedup l ↔ x ∈ l.
Proof. unfold dedup. rewrite elem_of_dedup_go. set_solver. Qed.

Lemma NoDup_dedup_go l seen : NoDup (dedup_go seen l).
Proof.
  revert seen; induction l as [|y l IH]; intros seen; simpl; [constructor|].
  case_decide; [done|]. constructor; [|done].
  rewrite elem_of_dedup_go. set_solver.
Qed.

Lemma NoDup_dedup l : NoDup (dedup l).
Proof. apply NoDup_dedup_go. Qed.

Lemma dedup_go_sublist l seen : dedup_go seen l `sublist_of` l.
Proof.
  revert seen; induction l as [|y l IH]; intros seen; simpl; [done|].
  case_decide; [by apply sublist_cons|by apply sublist_skip].
Qed.

Lemma dedup_sublist l : dedup l `sublist_of` l.
Proof. apply dedup_go_sublist. Qed.
End dedup.
#[export] Hint Resolve NoDup_dedup dedup_sublist : vigil.

Lemma if_cond_eq {A} (b c : bool) (x y : A) : (b = true ↔ c = true) → (if b then x else y) = (if c then x else y).
Proof. destruct b, c; naive_solver. Qed.

Lemma elem_of_filterb {A} (p : A → bool) (l : list A) (x : A) :
  x ∈ List.filter p l ↔ x ∈ l ∧ p x = true.
Proof. by rewrite !list_elem_of_In, filter_In. Qed.

Lemma NoDup_filterb {A} (p : A → bool) (l : list A) : NoDup l → NoDup (List.filter p l).
Proof. rewrite !NoDup_ListNoDup. apply List.NoDup_filter. Qed.

Lemma filter_none {A} (p : A → bool) l : (∀ x, x ∈ l → p x = false) → List.filter p l = [].
Proof.
  induction l as [|x l IH]; intros H; [done|]. simpl. rewrite (H x) by by left.
  apply IH. intros y Hy. apply H. by right.
Qed.

Lemma filter_or_disjoint {A} (p q : A → bool) l :
  (∀ x, p x = true → q x = false) →
  List.filter (λ x, p x || q x) l ≡ₚ List.filter p l ++ List.filter q l.
Proof.
  intros Hd. induction l as [|x l IH]; [done|]. simpl. specialize (Hd x).
  destruct (p x) eqn:Hp; simpl.
  - rewrite Hd by done. simpl. by rewrite IH.
  - destruct (q x); [|done]. by rewrite IH, Permutation_middle.
Qed.

Lemma filter_all {A} (p : A → bool) l : (∀ x, x ∈ l → p x = true) → List.filter p l = l.
Proof.
  induction l as [|x l IH]; intros H; [done|]. simpl. rewrite (H x) by by left. f_equal.
  apply IH. intros y Hy. apply H. by right.
Qed.

(** Updating rows in place, when the selection does not depend on the update. *)
Lemma filter_map_key {A} (p : A → bool) (f : A → A) l :
  (∀ x, p (f x) = p x) → List.filter p (map f l) = map f (List.filter p l).
Proof.
  intros Hp. induction l as [|x l IH]; [done|]. simpl. rewrite Hp. destruct (p x); simpl; by rewrite IH.
Qed.

Lemma Permutation_filterb {A} (p : A → bool) l l' : l ≡ₚ l' → List.filter p l ≡ₚ List.filter p l'.
Proof.
  induction 1 as [|x l l' _ IH|x y l|]; simpl; [done|by destruct (p x); rewrite IH| |by etrans].
  destruct (p x), (p y); try done. constructor.
Qed.

Lemma find_map_key {A} (p : A → bool) (f : A → A) l :
  (∀ x, p (f x) = p x) → List.find p (map f l) = f <$> List.find p l.
Proof.
  intros Hp. induction l as [|x l IH]; [done|]. simpl. rewrite Hp. by destruct (p x).
Qed.

Lemma existsb_map_key {A} (p : A → bool) (f : A → A) l :
  (∀ x, p (f x) = p x) → existsb p (map f l) = existsb p l.
Proof. intros Hp. induction l as [|x l IH]; [done|]. simpl. by rewrite Hp, IH. Qed.

Lemma NoDup_map_filterb {A B} (f : A → B) (p : A → bool) l :
  NoDup (map f l) → NoDup (map f (List.filter p l)).
Proof.
  induction l as [|x l IH]; simpl; intros Hnd; [done|]. apply NoDup_cons in Hnd as [Hx Hnd].
  destruct (p x); [|auto]. simpl. apply NoDup_cons. split; [|auto].
  intros (y & Hy & Hin)%list_elem_of_fmap. apply Hx. rewrite Hy. apply list_elem_of_fmap_2.
  by apply elem_of_filterb in Hin as [? _].
Qed.

(** Rows with distinct keys are determined by their key. *)
Lemma NoDup_key_inj {A B} (f : A → B) (l : list A) x y :
  NoDup (map f l) → x ∈ l → y ∈ l → f x = f y → x = y.
Proof.
  induction l as [|z l IH]; simpl; intros Hnd Hx Hy Hf; [by apply not_elem_of_nil in Hx|].
  apply NoDup_cons in Hnd as [Hz Hnd].
  assert (Hin : ∀ w, w ∈ l → f w ∈ map f l) by (intros w Hw; by apply list_elem_of_fmap_2).
  apply elem_of_cons in Hx as [->|Hx]; apply elem_of_cons in Hy as [->|Hy]; auto.
  - exfalso. apply Hz. rewrite Hf. auto.
  - exfalso. apply Hz. rewrite <-Hf. auto.
Qed.

(** The number of elements satisfying a boolean test. *)
Definition countb {A} (p : A → bool) (l : list A) : nat := length (List.filter p l).

Section countb.
Context {A : Type}.
Implicit Types (p q : A → bool) (l k : list A).

Lemma countb_nil p : countb p [] = 0.
Proof. done. Qed.

Lemma countb_cons p x l : countb p (x :: l) = (if p x then 1 else 0) + countb p l.
Proof. unfold countb. simpl. by destruct (p x). Qed.

Lemma countb_app p l k : countb p (l ++ k) = countb p l + countb p k.
Proof. unfold countb. by rewrite List.filter_app, length_app. Qed.

Lemma countb_length p l : countb p l ≤ length l.
Proof. induction l as [|x l IH]; [done|]. rewrite countb_cons. simpl. destruct (p x); lia. Qed.

Lemma countb_mono p q l :
  (∀ x, x ∈ l → p x = true → q x = true) → countb p l ≤ countb q l.
Proof.
  induction l as [|x l IH]; intros Hpq; [done|]. rewrite !countb_cons.
  assert (countb p l ≤ countb q l) by (apply IH; intros; apply Hpq; [by right|done]).
  specialize (Hpq x (list_elem_of_here _ _)). destruct (p x), (q x); naive_solver lia.
Qed.

Lemma countb_complement p l : countb p l + countb (λ x, negb (p x)) l = length l.
Proof. induction l as [|x l IH]; [done|]. rewrite !countb_cons. simpl. destruct (p x); simpl; lia. Qed.

Lemma countb_true_iff p l : 0 < countb p l ↔ ∃ x, x ∈ l ∧ p x = true.
Proof.
  unfold countb. split.
  - destruct (List.filter p l) as [|x k] eqn:E; simpl; [lia|]. intros _. exists x.
    rewrite list_elem_of_In. apply List.filter_In. rewrite E. by left.
  - intros (x & Hx & Hp). apply list_elem_of_In in Hx.
    assert (In x (List.filter p l)) as Hf by (by apply List.filter_In).
    destruct (List.filter p l); [done|simpl; lia].
Qed.
End countb.

(** [ORDER BY key]: a stable insertion sort. *)
Section sort_by.
Context {A : Type} (key : A → Z).

Fixpoint insert_by (x : A) (l : list A) : list A :=
  match l with
  | [] => [x]
  | y :: l => if (key x <=? key y)%Z then x :: y :: l else y :: insert_by x l
  end.
Fixpoint sort_by (l : list A) : list A :=
  match l with [] => [] | x :: l => insert_by x (sort_by l) end.

Lemma insert_by_perm x l : insert_by x l ≡ₚ x :: l.
Proof. induction l as [|y l IH]; [done|]. simpl. case_match; [done|]. rewrite IH. constructor. Qed.

Lemma sort_by_perm l : sort_by l ≡ₚ l.
Proof. induction l as [|x l IH]; [done|]. simpl. by rewrite insert_by_perm, IH. Qed.

(** Adjacent elements are in order. *)
Fixpoint ascending (l : list A) : Prop :=
  match l with
  | x :: (y :: _) as l' => (key x <= key y)%Z ∧ ascending l'
  | _ => True
  end.

Lemma insert_by_ascending x l : ascending l → ascending (insert_by x l).
Proof.
  induction l as [|y l IH]; intros Ha; [done|]. simpl. destruct (Z.leb_spec (key x) (key y)) as [Hle|Hgt].
  - by split.
  - destruct l as [|z l]; simpl in *; [split; [lia|done]|]. destruct Ha as [Hyz Ha]. specialize (IH Ha).
    destruct (key x <=? key z)%Z; split; try done; lia.
Qed.

Lemma sort_by_ascending l : ascending (sort_by l).
Proof. induction l as [|x l IH]; [done|]. simpl. by apply insert_by_ascending. Qed.

(** The first row by [ORDER BY] is one with a key below all the others. *)
Lemma head_sort_by_last x l : (∀ y, y ∈ l → (key x < key y)%Z) → head (sort_by (l ++ [x])) = Some x.
Proof.
  induction l as [|y l IH]; intros Hlt; [done|]. simpl.
  assert (head (sort_by (l ++ [x])) = Some x) as Hh by (apply IH; set_solver).
  destruct (sort_by (l ++ [x])) as [|z s]; [done|]. injection Hh as ->. simpl.
  assert (key x < key y)%Z by (apply Hlt; set_solver). by rewrite (proj2 (Z.leb_gt _ _)).
Qed.
End sort_by.

(** A lookup that found nothing finds the row that is added. *)
Lemma find_snoc {A} (p : A → bool) l x : List.find p l = None → p x = true → List.find p (l ++ [x]) = Some x.
Proof. induction l as [|y l IH]; simpl; intros Hn Hp; [by rewrite Hp|]. destruct (p y); [done|auto]. Qed.
