(* ===== verification/PyStr.v ===== *)
(** * Python strings

    A [str] is modelled by a [string] whose characters are the code points
    U+0000 to U+00FF; on that range the operations below are exact (Unicode
    case mapping, [str.isspace], [str.isdigit] and the [\w] and [\s] classes of
    [re] included).  This file holds the methods of [str] the manager uses and
    the lemmas about them that the components share. *)

From Stdlib Require Import Ascii String.
From S2P Require Import Prelude.
Local Open Scope string_scope.
Local Open Scope list_scope.

Abbreviation str := string (only parsing).
Abbreviation length := List.length.

(** ** Characters *)

Definition code (c : ascii) : N := N_of_ascii c.

(** [str.isspace] on one character; also [\s] of [re]. *)
Definition is_space (c : ascii) : bool :=
  let n := code c in
  ((9 <=? n) && (n <=? 13) || (28 <=? n) && (n <=? 32) || (n =? 133) || (n =? 160))%N.

(** [\d] of [re]: decimal digits. *)
Definition is_decimal (c : ascii) : bool := let n := code c in ((48 <=? n) && (n <=? 57))%N.

(** [str.isdigit] on one character: decimal digits and the superscripts. *)
Definition is_digit (c : ascii) : bool :=
  let n := code c in
  (is_decimal c || (n =? 178) || (n =? 179) || (n =? 185))%N.

Definition is_upper_ascii (c : ascii) : bool := let n := code c in ((65 <=? n) && (n <=? 90))%N.
Definition is_lower_ascii (c : ascii) : bool := let n := code c in ((97 <=? n) && (n <=? 122))%N.
Definition is_alpha_ascii (c : ascii) : bool := is_upper_ascii c || is_lower_ascii c.

(** [\w] of [re]: alphanumeric characters and the underscore. *)
Definition is_word (c : ascii) : bool :=
  let n := code c in
  (is_decimal c || is_alpha_ascii c || (n =? 95) || (n =? 170) || (n =? 178) || (n =? 179)
   || (n =? 181) || (n =? 185) || (n =? 186) || (n =? 188) || (n =? 189) || (n =? 190)
   || (192 <=? n) && negb (n =? 215) && negb (n =? 247))%N.

(** [str.lower] on one character. *)
Definition lower_char (c : ascii) : ascii :=
  let n := code c in
  if (is_upper_ascii c || (192 <=? n) && (n <=? 222) && negb (n =? 215))%N
  then ascii_of_N (n + 32) else c.

Definition digit_value (c : ascii) : Z := Z.of_N (code c) - 48.

Definition hex_value (c : ascii) : option Z :=
  let n := Z.of_N (code c) in
  if is_decimal c then Some (n - 48)%Z
  else if ((97 <=? n) && (n <=? 102))%Z then Some (n - 87)%Z
  else if ((65 <=? n) && (n <=? 70))%Z then Some (n - 55)%Z
  else None.

(** ** Strings *)

Fixpoint string_forallb (p : ascii → bool) (s : str) : bool :=
  match s with "" => true | String c s => p c && string_forallb p s end.
Fixpoint string_existsb (p : ascii → bool) (s : str) : bool :=
  match s with "" => false | String c s => p c || string_existsb p s end.
Fixpoint string_map (f : ascii → ascii) (s : str) : str :=
  match s with "" => "" | String c s => String (f c) (string_map f s) end.
Fixpoint string_flat_map (f : ascii → str) (s : str) : str :=
  match s with "" => "" | String c s => f c +:+ string_flat_map f s end.

Definition lower (s : str) : str := string_map lower_char s.

(** [s.isdigit()]: non-empty and all digits. *)
Definition isdigit (s : str) : bool :=
  match s with "" => false | _ => string_forallb is_digit s end.

(** Truthiness of a string. *)
Definition nonempty (s : str) : bool := match s with "" => false | _ => true end.

(** [str.strip()] *)
Fixpoint lstrip_by (p : ascii → bool) (s : str) : str :=
  match s with String c s' => if p c then lstrip_by p s' else s | "" => "" end.
Fixpoint rstrip_by (p : ascii → bool) (s : str) : str :=
  match s with
  | "" => ""
  | String c s' =>
      match rstrip_by p s' with
      | "" => if p c then "" else String c ""
      | r => String c r
      end
  end.
Definition strip_by (p : ascii → bool) (s : str) : str := rstrip_by p (lstrip_by p s).
Definition strip : str → str := strip_by is_space.

(** [s.startswith(p)] *)
Definition starts_with (p s : str) : bool := String.prefix p s.

(** [needle in hay] *)
Fixpoint contains (needle hay : str) : bool :=
  starts_with needle hay ||
  match hay with "" => false | String _ hay => contains needle hay end.

Definition has_char (c : ascii) (s : str) : bool := string_existsb (Ascii.eqb c) s.

(** [s.replace(old, new)] where [old] is one character. *)
Definition replace_char (old : ascii) (new : str) (s : str) : str :=
  string_flat_map (λ c, if Ascii.eqb c old then new else String c "") s.

(** [s.replace(old, new)] in general: leftmost, non-overlapping occurrences. *)
Fixpoint replace_go (skip : nat) (old new s : str) : str :=
  match s with
  | "" => ""
  | String c s' =>
      match skip with
      | S k => replace_go k old new s'
      | O => if starts_with old s then new +:+ replace_go (String.length old - 1) old new s'
             else String c (replace_go 0 old new s')
      end
  end.
Definition replace (old new s : str) : str := replace_go 0 old new s.

(** [s.split(sep)] where [sep] is one character. *)
Fixpoint split_on (sep : ascii) (s : str) : list str :=
  match s with
  | "" => [""]
  | String c s =>
      if Ascii.eqb c sep then "" :: split_on sep s
      else match split_on sep s with
           | [] => [String c ""]
           | p :: ps => String c p :: ps
           end
  end.

(** [s.split(sep, 1)] as a pair; [None] when [sep] does not occur. *)
Fixpoint split_first (sep : ascii) (s : str) : option (str * str) :=
  match s with
  | "" => None
  | String c s =>
      if Ascii.eqb c sep then Some ("", s)
      else match split_first sep s with
           | Some (a, b) => Some (String c a, b)
           | None => None
           end
  end.

(** [s.rpartition(sep)]: the parts before and after the last [sep]. *)
Fixpoint split_last (sep : ascii) (s : str) : option (str * str) :=
  match s with
  | "" => None
  | String c s =>
      match split_last sep s with
      | Some (a, b) => Some (String c a, b)
      | None => if Ascii.eqb c sep then Some ("", s) else None
      end
  end.

(** [s.rsplit(sep, 1)[-1]] *)
Definition after_last (sep : ascii) (s : str) : str :=
  match split_last sep s with Some (_, b) => b | None => s end.

(** [s.split()]: on runs of white space, without empty parts. *)
Fixpoint split_ws_go (cur : str) (s : str) : list str :=
  match s with
  | "" => match cur with "" => [] | _ => [cur] end
  | String c s =>
      if is_space c
      then match cur with "" => split_ws_go "" s | _ => cur :: split_ws_go "" s end
      else split_ws_go (cur +:+ String c "") s
  end.
Definition split_ws (s : str) : list str := split_ws_go "" s.

(** [sep.join(l)] *)
Definition join (sep : str) (l : list str) : str := String.concat sep l.

(** [s[:n]] *)
Definition take_str (n : nat) (s : str) : str := String.substring 0 n s.

(** [s[n:]] *)
Fixpoint drop_str (n : nat) (s : str) : str :=
  match n, s with O, _ => s | S n, String _ s => drop_str n s | S _, "" => "" end.

(** [int(s)] on a decimal literal: surrounding white space, one sign, digits
    with single underscores between them. *)
Fixpoint digits_go (acc : Z) (after_digit : bool) (s : str) : option Z :=
  match s with
  | "" => if after_digit then Some acc else None
  | String c s =>
      if is_decimal c then digits_go (acc * 10 + digit_value c) true s
      else if (Ascii.eqb c "_" && after_digit)%char then
        match s with
        | String d s' => if is_decimal d then digits_go (acc * 10 + digit_value d) true s' else None
        | "" => None
        end
      else None
  end.
Definition py_int (s : str) : option Z :=
  match strip s with
  | String "-" s => Z.opp <$> digits_go 0 false s
  | String "+" s => digits_go 0 false s
  | s => digits_go 0 false s
  end.

(** [str(n)] of an integer. *)
Definition str_of_Z (z : Z) : str := pretty z.
Definition str_of_nat (n : nat) : str := pretty (Z.of_nat n).

Definition newline : ascii := Ascii.ascii_of_nat 10.
Definition carriage_return : ascii := Ascii.ascii_of_nat 13.
Definition tab : ascii := Ascii.ascii_of_nat 9.
Definition dquote : ascii := Ascii.ascii_of_nat 34.
Definition squote : ascii := Ascii.ascii_of_nat 39.
Definition backslash : ascii := Ascii.ascii_of_nat 92.

(** [s.encode("utf-8")]: the bytes, as characters. *)
Definition utf8_char (c : ascii) : str :=
  let n := code c in
  if (n <? 128)%N then String c ""
  else String (ascii_of_N (192 + n / 64)) (String (ascii_of_N (128 + n mod 64)) "").
Definition utf8 (s : str) : str := string_flat_map utf8_char s.

(** ** Concatenation *)

Lemma append_cons c (a b : str) : String c a +:+ b = String c (a +:+ b).
Proof. done. Qed.
Lemma append_nil_l (a : str) : "" +:+ a = a.
Proof. done. Qed.
#[export] Hint Rewrite append_cons append_nil_l : vigil_str.

Lemma append_nil_r (a : str) : a +:+ "" = a.
Proof. induction a as [|x a IH]; [done|]. by rewrite append_cons, IH. Qed.

Lemma append_assoc (a b c : str) : (a +:+ b) +:+ c = a +:+ (b +:+ c).
Proof. induction a as [|x a IH]; [done|]. by rewrite !append_cons, IH. Qed.

Lemma string_forallb_app p s t :
  string_forallb p (s +:+ t) = string_forallb p s && string_forallb p t.
Proof. induction s as [|a s IH]; [done|]. rewrite append_cons. simpl. by rewrite IH, andb_assoc. Qed.

Lemma string_existsb_app p s t :
  string_existsb p (s +:+ t) = string_existsb p s || string_existsb p t.
Proof. induction s as [|a s IH]; [done|]. rewrite append_cons. simpl. by rewrite IH, orb_assoc. Qed.

Lemma append_length (a b : str) :
  String.length (a +:+ b) = (String.length a + String.length b)%nat.
Proof. induction a as [|x a IH]; [done|]. rewrite append_cons. simpl. lia. Qed.
#[export] Hint Rewrite append_nil_r append_assoc append_length : vigil_str.
Ltac str_simpl := autorewrite with vigil_str in *.

(** ** Prefixes *)

Lemma take_drop_str n s : take_str n s +:+ drop_str n s = s.
Proof.
  revert s. induction n as [|n IH]; intros s; [by destruct s|].
  destruct s as [|c s]; [done|]. unfold take_str in *. simpl. by rewrite append_cons, IH.
Qed.

Lemma prefix_drop a s : starts_with a s = true → s = a +:+ drop_str (String.length a) s.
Proof.
  unfold starts_with. revert s. induction a as [|c a IH]; intros s; [done|].
  destruct s as [|d s]; simpl; [done|]. destruct (ascii_dec c d) as [->|]; [|done].
  intros H. by rewrite append_cons, <- IH.
Qed.

(** ** UTF-8 *)

Lemma utf8_char_split c c' t t' : utf8_char c +:+ t = utf8_char c' +:+ t' → c = c' ∧ t = t'.
Proof.
  pose proof (N_ascii_bounded c) as Hc. pose proof (N_ascii_bounded c') as Hc'.
  assert (Hd : ∀ a, (a < 256 → a / 64 < 4)%N) by (intros a Ha; by apply N.Div0.div_lt_upper_bound).
  assert (Hm : ∀ a, (a mod 64 < 64)%N) by (intros a; by apply N.mod_lt).
  unfold utf8_char, code. destruct (N.ltb_spec (N_of_ascii c) 128), (N.ltb_spec (N_of_ascii c') 128);
    rewrite !append_cons, ?append_nil_l.
  - by intros [= -> ->].
  - intros He. injection He as H1 _. apply (f_equal N_of_ascii) in H1. specialize (Hd _ Hc').
    rewrite N_ascii_embedding in H1 by lia. exfalso. clear Hd.
    generalize dependent (N_of_ascii c' / 64)%N. intros q ?. lia.
  - intros He. injection He as H1 _. apply (f_equal N_of_ascii) in H1. specialize (Hd _ Hc).
    rewrite N_ascii_embedding in H1 by lia. exfalso. clear Hd.
    generalize dependent (N_of_ascii c / 64)%N. intros q ?. lia.
  - intros He. injection He as H1 H2 Ht. split; [|done].
    apply (f_equal N_of_ascii) in H1, H2. specialize (Hd _ Hc) as Hd1. specialize (Hd _ Hc') as Hd2.
    pose proof (Hm (N_of_ascii c)). pose proof (Hm (N_of_ascii c')).
    rewrite !N_ascii_embedding in H1, H2 by lia. apply N.add_cancel_l in H1, H2.
    rewrite <-(ascii_N_embedding c), <-(ascii_N_embedding c'). f_equal.
    rewrite (N.div_mod (N_of_ascii c) 64), (N.div_mod (N_of_ascii c') 64) by done. congruence.
Qed.

Lemma utf8_char_cons c : utf8_char c ≠ "".
Proof. unfold utf8_char. by case_match. Qed.

Lemma utf8_inj s s' : utf8 s = utf8 s' → s = s'.
Proof.
  unfold utf8. revert s'. induction s as [|c s IH]; intros [|c' s'] H; simpl in H; [done|..].
  - exfalso. destruct (utf8_char c') eqn:E; [by apply utf8_char_cons in E|by rewrite append_cons in H].
  - exfalso. destruct (utf8_char c) eqn:E; [by apply utf8_char_cons in E|by rewrite append_cons in H].
  - apply utf8_char_split in H as [-> H]. f_equal. by apply IH.
Qed.
