(* ===== verification/PyVal.v ===== *)
(** * Python values

    The dynamically typed data the manager passes around: decoded JSON (ECS
    documents, alert details, command payloads) and loaded YAML.  Floats are
    IEEE 754 binary64 values of the Standard Library's [SpecFloat] with its
    executable operations; integers are unbounded; dictionaries are association
    lists in insertion order.  Exceptions are the constructors of [pyexc]. *)

From Stdlib Require Import Ascii String SpecFloat.
From S2P Require Import Prelude PyStr.
Local Open Scope string_scope.
Local Open Scope list_scope.

(** ** Exceptions *)

(** [OutOfFuel] is no Python exception: it marks a loop of the model that ran
    out of fuel, and is proved unreachable where fuel is used.  [Unmodelled]
    marks inputs outside the model (a code point above U+00FF, a non-string
    dictionary key). *)
Inductive pyexc :=
| AttributeError | TypeError | KeyError | IndexError | ValueError
| UnicodeDecodeError | OverflowError | ZeroDivisionError | AssertionError
| RuntimeError (msg : str)
| SequenceParseError | PlaybookParseError (msg : str) | HuntCompileError (msg : str)
| OidcError (msg : str) | InvalidCredentials (reason : str) (user_id : option str)
| ChannelConfigError (msg : str) | ChannelDispatchError (msg : str) | CaseSyncError (msg : str) (transient : bool)
| IntegrityError | MultipleResultsFound | PendingRollbackError | DataError | HTTPException (status : Z) | RpcAbort (code : str)
| OutOfFuel | Unmodelled.

Global Instance pyexc_eq_dec : EqDecision pyexc.
Proof. solve_decision. Defined.

Abbreviation py := (res pyexc).

(** [errors_in P m]: the only exceptions that can escape from [m] satisfy [P]. *)
Definition errors_in {A} (P : pyexc → Prop) (m : py A) : Prop :=
  match m with Ok _ => True | Err e => P e end.

Lemma errors_bind {A B} P (m : py A) (k : A → py B) :
  errors_in P m → (∀ a, m = Ok a → errors_in P (k a)) → errors_in P (m ≫= k).
Proof. destruct m; simpl; auto. Qed.

Lemma errors_weaken {A} (P Q : pyexc → Prop) (m : py A) :
  (∀ e, P e → Q e) → errors_in P m → errors_in Q m.
Proof. destruct m; simpl; auto. Qed.

(** Follow the control flow of monadic code down to its [Err]s. *)
Ltac errors_step :=
  match goal with
  | |- errors_in _ (mbind _ _) => apply errors_bind; [|intros]
  | |- errors_in _ (Ok _) => exact I
  | |- errors_in _ (match ?x with _ => _ end) => destruct x eqn:?
  | |- errors_in _ (let _ := _ in _) => cbv zeta
  end.

(** ** Floats *)

Abbreviation float := spec_float.
Global Instance float_eq_dec : EqDecision float.
Proof. solve_decision. Defined.

Definition fadd (x y : float) : float := SFadd 53 1024 x y.
Definition fsub (x y : float) : float := SFsub 53 1024 x y.
Definition fmul (x y : float) : float := SFmul 53 1024 x y.
Definition fdiv (x y : float) : float := SFdiv 53 1024 x y.
Definition flt (x y : float) : bool := SFltb x y.
Definition fle (x y : float) : bool := SFleb x y.
Definition feq (x y : float) : bool := SFeqb x y.

(** [min(x, y)] of two floats: the first unless the second is smaller. *)
Definition fmin (x y : float) : float := if flt y x then y else x.
Definition fmax (x y : float) : float := if flt x y then y else x.

(** Nearest float of an integer, ties to even. *)
Definition float_of_Z (z : Z) : float := binary_normalize 53 1024 z 0 false.

(** [float(n)] *)
Definition py_float_of_int (z : Z) : py float :=
  match float_of_Z z with
  | S754_infinity _ => Err OverflowError
  | f => Ok f
  end.

(** Nearest float of the positive ratio [n/d], with a sign. *)
Definition float_of_ratio (neg : bool) (n : Z) (d : positive) : float :=
  match n with
  | Zpos m =>
      let '(mz, ez, lz) := SFdiv_core_binary 53 1024 (Zpos m) 0 (Zpos d) 0 in
      binary_round_aux 53 1024 neg mz ez lz
  | _ => S754_zero neg
  end.

(** [int(f)]: truncation toward zero. *)
Definition py_int_of_float (f : float) : py Z :=
  match f with
  | S754_zero _ => Ok 0%Z
  | S754_infinity _ => Err OverflowError
  | S754_nan => Err ValueError
  | S754_finite s m e =>
      let a := if (0 <=? e)%Z then (Zpos m * 2 ^ e)%Z else (Zpos m / 2 ^ (- e))%Z in
      Ok (if s then (- a)%Z else a)
  end.

(** Exact comparison of a float with an integer. *)
Definition float_cmp_Z (f : float) (z : Z) : option comparison :=
  match f with
  | S754_nan => None
  | S754_zero _ => Some (0 ?= z)%Z
  | S754_infinity s => Some (if s then Lt else Gt)
  | S754_finite s m e =>
      let sm := if s then Zneg m else Zpos m in
      Some (if (0 <=? e)%Z then (sm * 2 ^ e ?= z)%Z else (sm ?= z * 2 ^ (- e))%Z)
  end.

(** *** [repr] of a float: the shortest digit string that reads back *)

Fixpoint find_exp10 (fuel : nat) (j : Z) (num den : Z) : Z :=
  match fuel with
  | O => j
  | S fuel => if (den <=? num * 10 ^ j)%Z then j else find_exp10 fuel (j + 1) num den
  end.
(** The [k] with [10^(k-1) <= num/den < 10^k]. *)
Definition dec_exponent (num den : Z) : Z :=
  if (den <=? num)%Z then Z.of_nat (String.length (str_of_Z (num / den)))
  else (1 - find_exp10 400 0 num den)%Z.

Definition dec_to_float (c p : Z) : float :=
  if (0 <=? p)%Z then float_of_ratio false (c * 10 ^ p) 1
  else float_of_ratio false c (Z.to_pos (10 ^ (- p))).

Definition try_digits (f : float) (num den k n : Z) : option Z :=
  let up := (if (0 <=? n - k)%Z then num * 10 ^ (n - k) else num)%Z in
  let dn := (if (0 <=? n - k)%Z then den else den * 10 ^ (k - n))%Z in
  let q := (up / dn)%Z in
  let r := (up mod dn)%Z in
  let lo := if decide (dec_to_float q (k - n) = f) then Some q else None in
  let hi := if decide (dec_to_float (q + 1) (k - n) = f) then Some (q + 1)%Z else None in
  match lo, hi with
  | Some a, Some b =>
      match (2 * r ?= dn)%Z with
      | Lt => Some a | Gt => Some b | Eq => Some (if Z.even a then a else b)
      end
  | Some a, None => Some a
  | None, o => o
  end.
Fixpoint shortest_digits (fuel : nat) (n : Z) (f : float) (num den k : Z) : Z * Z :=
  match fuel with
  | O => (0, 0)%Z
  | S fuel =>
      match try_digits f num den k n with
      | Some c => (c, (k - n)%Z)
      | None => shortest_digits fuel (n + 1) f num den k
      end
  end.

Fixpoint zeros (n : nat) : str := match n with O => "" | S n => String "0" (zeros n) end.
Definition rstrip_zeros (s : str) : str := rstrip_by (Ascii.eqb "0") s.

Definition format_repr (digits : str) (decpt : Z) : str :=
  let n := Z.of_nat (String.length digits) in
  if ((-4 <? decpt) && (decpt <=? 16))%Z then
    if (decpt <=? 0)%Z then "0." +:+ zeros (Z.to_nat (- decpt)) +:+ digits
    else if (n <=? decpt)%Z then digits +:+ zeros (Z.to_nat (decpt - n)) +:+ ".0"
    else take_str (Z.to_nat decpt) digits +:+ "." +:+
         String.substring (Z.to_nat decpt) (String.length digits) digits
  else
    let e := (decpt - 1)%Z in
    let ea := str_of_Z (Z.abs e) in
    take_str 1 digits +:+ (if (1 <? n)%Z then "." +:+ String.substring 1 (String.length digits) digits else "")
    +:+ "e" +:+ (if (e <? 0)%Z then "-" else "+") +:+ (if (Z.abs e <? 10)%Z then "0" else "") +:+ ea.

Definition float_repr (f : float) : str :=
  match f with
  | S754_nan => "nan"
  | S754_infinity s => if s then "-inf" else "inf"
  | S754_zero s => if s then "-0.0" else "0.0"
  | S754_finite s m e =>
      let num := (if (0 <=? e)%Z then Zpos m * 2 ^ e else Zpos m)%Z in
      let den := (if (0 <=? e)%Z then 1 else 2 ^ (- e))%Z in
      let k := dec_exponent num den in
      let '(c, p) := shortest_digits 17 1 (S754_finite false m e) num den k in
      let cs := str_of_Z c in
      let decpt := (Z.of_nat (String.length cs) + p)%Z in
      (if s then "-" else "") +:+ format_repr (rstrip_zeros cs) decpt
  end.

(** *** Order facts about floats *)

(** The order of finite floats is lexicographic on exponent and mantissa, so it
    is transitive without assuming the operands canonical. *)
Ltac float_order_cases :=
  repeat match goal with
  | x : float |- _ => destruct x as [[]|[]| |[] ? ?]
  end;
  unfold flt, fle, SFltb, SFleb, SFcompare;
  repeat match goal with
  | |- context [PosDef.Pos.compare_cont Eq ?a ?b] =>
      change (PosDef.Pos.compare_cont Eq a b) with (Pos.compare a b)
  end; try done;
  repeat match goal with
  | |- context [Z.compare ?a ?b] =>
      destruct (Z.compare_spec a b); subst; cbn [CompOpp]; try done; try lia
  | |- context [Pos.compare ?a ?b] =>
      destruct (Pos.compare_spec a b); subst; cbn [CompOpp]; try done; try lia
  end.

Lemma flt_irrefl x : flt x x = false.
Proof. float_order_cases. Qed.

Lemma flt_fle_trans x y z : flt x y = true → fle y z = true → flt x z = true.
Proof. float_order_cases. Qed.

Lemma flt_fle x y : flt x y = true → fle x y = true.
Proof. float_order_cases. Qed.

Lemma fle_trans x y z : fle x y = true → fle y z = true → fle x z = true.
Proof. float_order_cases. Qed.
Lemma fle_flt_trans x y z : fle x y = true → flt y z = true → flt x z = true.
Proof. float_order_cases. Qed.
#[export] Hint Resolve flt_fle_trans flt_fle fle_trans fle_flt_trans : vigil.

(** ** Values *)

Inductive pyval :=
| PNone
| PBool (b : bool)
| PInt (z : Z)
| PFloat (f : float)
| PStr (s : str)
| PList (l : list pyval)
| PDict (d : list (str * pyval)).

Abbreviation dict := (list (str * pyval)).

(** Induction through the nested lists. *)
Section pyval_ind.
Variable P : pyval → Prop.
Hypothesis HNone : P PNone.
Hypothesis HBool : ∀ b, P (PBool b).
Hypothesis HInt : ∀ z, P (PInt z).
Hypothesis HFloat : ∀ f, P (PFloat f).
Hypothesis HStr : ∀ s, P (PStr s).
Hypothesis HList : ∀ l, Forall P l → P (PList l).
Hypothesis HDict : ∀ d, Forall (λ kv, P kv.2) d → P (PDict d).

Fixpoint pyval_rect' (v : pyval) : P v :=
  match v with
  | PNone => HNone | PBool b => HBool b | PInt z => HInt z | PFloat f => HFloat f
  | PStr s => HStr s
  | PList l =>
      HList l ((fix go l : Forall P l :=
        match l with
        | [] => Forall_nil_2 _
        | x :: l => Forall_cons_2 _ _ _ (pyval_rect' x) (go l)
        end) l)
  | PDict d =>
      HDict d ((fix go d : Forall (λ kv, P kv.2) d :=
        match d with
        | [] => Forall_nil_2 _
        | kv :: d => Forall_cons_2 _ _ _ (pyval_rect' kv.2) (go d)
        end) d)
  end.
End pyval_ind.

(** [bool(v)] *)
Definition truthy (v : pyval) : bool :=
  match v with
  | PNone => false
  | PBool b => b
  | PInt z => negb (z =? 0)%Z
  | PFloat (S754_zero _) => false
  | PFloat _ => true
  | PStr s => nonempty s
  | PList [] => false | PList _ => true
  | PDict [] => false | PDict _ => true
  end.

(** [a or b] *)
Definition py_or (a b : pyval) : pyval := if truthy a then a else b.

(** *** Dictionaries with string keys *)

Section dict.
Context {A : Type}.
Implicit Types (d e : list (str * A)) (k : str) (v : A).

Fixpoint dict_get k d : option A :=
  match d with
  | [] => None
  | (k', v) :: d => if String.eqb k k' then Some v else dict_get k d
  end.

Definition dict_has k d : bool :=
  match dict_get k d with Some _ => true | None => false end.

(** [d[k] = v]: in place when the key is there, else at the end. *)
Fixpoint dict_set k v d : list (str * A) :=
  match d with
  | [] => [(k, v)]
  | (k', w) :: d => if String.eqb k k' then (k, v) :: d else (k', w) :: dict_set k v d
  end.

(** [d.pop(k, None)] *)
Fixpoint dict_pop k d : list (str * A) :=
  match d with
  | [] => []
  | (k', w) :: d => if String.eqb k k' then d else (k', w) :: dict_pop k d
  end.

(** [d.update(e)] *)
Definition dict_update d e : list (str * A) :=
  fold_left (λ acc kv, dict_set kv.1 kv.2 acc) e d.

Lemma dict_get_set k k' v d :
  dict_get k (dict_set k' v d) = if String.eqb k k' then Some v else dict_get k d.
Proof.
  induction d as [|[j w] d IH]; simpl; [done|].
  destruct (String.eqb_spec k' j) as [->|Hj]; simpl; [by destruct (String.eqb k j)|].
  rewrite IH. destruct (String.eqb_spec k j) as [->|]; [|done].
  by destruct (String.eqb_spec j k') as [->|].
Qed.

Lemma dict_get_set_eq k v d : dict_get k (dict_set k v d) = Some v.
Proof. by rewrite dict_get_set, String.eqb_refl. Qed.

Lemma dict_get_set_ne k k' v d : k ≠ k' → dict_get k (dict_set k' v d) = dict_get k d.
Proof. intros. rewrite dict_get_set. by destruct (String.eqb_spec k k'). Qed.

Lemma dict_get_app k d1 d2 :
  dict_get k (d1 ++ d2) =
  match dict_get k d1 with Some v => Some v | None => dict_get k d2 end.
Proof. induction d1 as [|[j v] d1 IH]; simpl; [done|]. by destruct (String.eqb k j). Qed.

Lemma dict_get_elem k v d : dict_get k d = Some v → (k, v) ∈ d.
Proof.
  induction d as [|[j w] d IH]; simpl; [done|].
  destruct (String.eqb_spec k j) as [->|]; intros H; [simplify_eq; by left|right; auto].
Qed.

Lemma dict_get_None k d : dict_get k d = None ↔ k ∉ d.*1.
Proof.
  induction d as [|[j w] d IH]; simpl; [set_solver|].
  destruct (String.eqb_spec k j) as [->|]; set_solver.
Qed.

Lemma dict_elem_get k v d : NoDup d.*1 → (k, v) ∈ d → dict_get k d = Some v.
Proof.
  induction d as [|[j w] d IH]; simpl; [set_solver|]. intros [Hj Hd]%NoDup_cons Hin.
  apply elem_of_cons in Hin as [?|Hin]; [simplify_eq; by rewrite String.eqb_refl|].
  destruct (String.eqb_spec k j) as [->|]; [|by apply IH].
  destruct Hj. apply list_elem_of_fmap. by exists (j, v).
Qed.

Lemma dict_set_keys k v d j : j ∈ (dict_set k v d).*1 ↔ j = k ∨ j ∈ d.*1.
Proof.
  induction d as [|[i w] d IH]; simpl; [set_solver|].
  destruct (String.eqb_spec k i) as [->|]; simpl; set_solver.
Qed.

Lemma dict_set_NoDup k v d : NoDup d.*1 → NoDup (dict_set k v d).*1.
Proof.
  induction d as [|[i w] d IH]; simpl; [intros; constructor; [set_solver|done]|].
  intros [Hi Hd]%NoDup_cons. destruct (String.eqb_spec k i) as [->|]; simpl; constructor; auto.
  rewrite dict_set_keys. naive_solver.
Qed.

Lemma dict_get_pop k k' d :
  NoDup d.*1 → dict_get k (dict_pop k' d) = if String.eqb k k' then None else dict_get k d.
Proof.
  induction d as [|[j w] d IH]; simpl; [by destruct (String.eqb k k')|].
  intros [Hj Hd]%NoDup_cons. destruct (String.eqb_spec k' j) as [->|Hk].
  - destruct (String.eqb_spec k j) as [->|]; [|done]. by apply dict_get_None.
  - simpl. rewrite (IH Hd). destruct (String.eqb_spec k j) as [->|]; [|done].
    by destruct (String.eqb_spec j k') as [->|].
Qed.
End dict.
#[export] Hint Rewrite @dict_get_set_eq : vigil.
#[export] Hint Resolve dict_set_NoDup : vigil.

(** [v.get(k)], which only a dictionary has. *)
Definition py_get (k : str) (v : pyval) : py pyval :=
  match v with
  | PDict d => Ok (default PNone (dict_get k d))
  | _ => Err AttributeError
  end.

(** [v.get(k) or {}] *)
Definition py_get_dict (k : str) (v : pyval) : py pyval :=
  x ← py_get k v; Ok (py_or x (PDict [])).

Definition is_dict (v : pyval) : bool := match v with PDict _ => true | _ => false end.
Definition is_str (v : pyval) : bool := match v with PStr _ => true | _ => false end.
Definition is_list (v : pyval) : bool := match v with PList _ => true | _ => false end.

(** [isinstance(v, int)]: booleans are integers. *)
Definition as_int (v : pyval) : option Z :=
  match v with PInt z => Some z | PBool b => Some (Z.b2z b) | _ => None end.
Definition as_str (v : pyval) : option str :=
  match v with PStr s => Some s | _ => None end.
Definition as_dict (v : pyval) : option dict :=
  match v with PDict d => Some d | _ => None end.
Definition as_list (v : pyval) : option (list pyval) :=
  match v with PList l => Some l | _ => None end.

(** [d.get(k, default)] *)
Definition get_default (k : str) (d : dict) (dflt : pyval) : pyval := default dflt (dict_get k d).
Definition get_none (k : str) (d : dict) : pyval := get_default k d PNone.

(** [d.get(k) or {}] for a dictionary [d]. *)
Definition sub (k : str) (d : dict) : pyval := py_or (get_none k d) (PDict []).

(** [int(v)] *)
Definition py_int_of (v : pyval) : py Z :=
  match v with
  | PInt z => Ok z
  | PBool b => Ok (Z.b2z b)
  | PFloat f => py_int_of_float f
  | PStr s => of_option ValueError (py_int s)
  | _ => Err TypeError
  end.

(** [for x in v] *)
Definition iterate (v : pyval) : py (list pyval) :=
  match v with
  | PList l => Ok l
  | PDict d => Ok (map (λ kv, PStr kv.1) d)
  | PStr s => Ok (map (λ c, PStr (String c "")) (list_ascii_of_string s))
  | _ => Err TypeError
  end.

Definition str_in (s : str) (l : list str) : bool := bool_decide (s ∈ l).

(** *** Equality and order *)

(** A number: an integer (booleans included) or a float. *)
Definition as_num (v : pyval) : option (Z + float) :=
  match v with
  | PInt z => Some (inl z)
  | PBool b => Some (inl (Z.b2z b))
  | PFloat f => Some (inr f)
  | _ => None
  end.

Definition num_cmp (a b : Z + float) : option comparison :=
  match a, b with
  | inl x, inl y => Some (x ?= y)%Z
  | inr f, inl z => float_cmp_Z f z
  | inl z, inr f => CompOpp <$> float_cmp_Z f z
  | inr f, inr g => SFcompare f g
  end.

(** [a == b] *)
Fixpoint py_eq (a b : pyval) {struct a} : bool :=
  match a, b with
  | PNone, PNone => true
  | PStr s, PStr t => String.eqb s t
  | PList l, PList k =>
      (fix go l k : bool :=
         match l, k with
         | [], [] => true
         | x :: l, y :: k => py_eq x y && go l k
         | _, _ => false
         end) l k
  | PDict d, PDict e =>
      (length d =? length e)%nat &&
      (fix go d : bool :=
         match d with
         | [] => true
         | (k, v) :: d => match dict_get k e with Some w => py_eq v w | None => false end && go d
         end) d
  | _, _ =>
      match as_num a, as_num b with
      | Some x, Some y => match num_cmp x y with Some Eq => true | _ => false end
      | _, _ => false
      end
  end.

(** The order behind [<], [<=], [>], [>=] on scalars.  Values of different
    kinds, [None] and containers raise [TypeError] (the code only compares
    with string and number literals); [Ok None] is an unordered pair (NaN). *)
Definition py_cmp (a b : pyval) : py (option comparison) :=
  match a, b with
  | PStr s, PStr t => Ok (Some (String.compare s t))
  | _, _ =>
      match as_num a, as_num b with
      | Some x, Some y => Ok (num_cmp x y)
      | _, _ => Err TypeError
      end
  end.

Definition cmp_lt (c : option comparison) : bool := match c with Some Lt => true | _ => false end.
Definition cmp_le (c : option comparison) : bool := match c with Some (Lt | Eq) => true | _ => false end.
Definition cmp_gt (c : option comparison) : bool := match c with Some Gt => true | _ => false end.
Definition cmp_ge (c : option comparison) : bool := match c with Some (Gt | Eq) => true | _ => false end.

(** [v in l] *)
Definition py_in (v : pyval) (l : list pyval) : bool := existsb (py_eq v) l.

(** *** [str] and [repr] *)

Definition hex_digit (n : N) : ascii := ascii_of_N (if (n <? 10)%N then n + 48 else n + 87).
Definition hex2 (c : ascii) : str :=
  String (hex_digit (code c / 16)) (String (hex_digit (code c mod 16)) "").

Definition is_printable (c : ascii) : bool :=
  let n := code c in ((32 <=? n) && (n <=? 126) || (161 <=? n) && negb (n =? 173))%N.

Definition repr_char (quote c : ascii) : str :=
  if Ascii.eqb c quote || Ascii.eqb c backslash then String backslash (String c "")
  else if Ascii.eqb c newline then String backslash "n"
  else if Ascii.eqb c carriage_return then String backslash "r"
  else if Ascii.eqb c tab then String backslash "t"
  else if is_printable c then String c ""
  else String backslash ("x" +:+ hex2 c).

Definition str_repr (s : str) : str :=
  let q := if has_char squote s && negb (has_char dquote s) then dquote else squote in
  String q (string_flat_map (repr_char q) s +:+ String q "").

Definition bool_repr (b : bool) : str := if b then "True" else "False".

Fixpoint py_repr (v : pyval) : str :=
  match v with
  | PNone => "None"
  | PBool b => bool_repr b
  | PInt z => str_of_Z z
  | PFloat f => float_repr f
  | PStr s => str_repr s
  | PList l => "[" +:+ join ", " (map py_repr l) +:+ "]"
  | PDict d => "{" +:+ join ", " (map (λ kv, str_repr kv.1 +:+ ": " +:+ py_repr kv.2) d) +:+ "}"
  end.

(** [str(v)] *)
Definition py_str (v : pyval) : str :=
  match v with PStr s => s | _ => py_repr v end.
