(* ===== verification/PyJson.v ===== *)
(** * [json.dumps]

    The serialiser of the Python standard library as the manager uses it: ASCII
    output ([ensure_ascii]), optional key sorting and separators.  The main
    result is that the sorted compact form, which the audit chain signs,
    determines the value up to the order of dictionary keys. *)

From Stdlib Require Import Ascii String SpecFloat.
From S2P Require Import Prelude PyStr PyVal.
Local Open Scope string_scope.
Local Open Scope list_scope.

(** ** Strings *)

(** [\uXXXX] for a character below U+0100. *)
Definition u_escape (c : ascii) : str := String backslash ("u00" +:+ hex2 c).

Definition json_char (c : ascii) : str :=
  if Ascii.eqb c dquote || Ascii.eqb c backslash then String backslash (String c "")
  else if Ascii.eqb c newline then String backslash "n"
  else if Ascii.eqb c carriage_return then String backslash "r"
  else if Ascii.eqb c tab then String backslash "t"
  else if Ascii.eqb c (ascii_of_nat 8) then String backslash "b"
  else if Ascii.eqb c (ascii_of_nat 12) then String backslash "f"
  else if ((32 <=? code c) && (code c <=? 126))%N then String c ""
  else u_escape c.

Definition json_str_body (s : str) : str := string_flat_map json_char s.
Definition json_str (s : str) : str := String dquote (json_str_body s +:+ String dquote "").

(** ** Values *)

Definition json_float (f : float) : str :=
  match f with
  | S754_nan => "NaN"
  | S754_infinity s => if s then "-Infinity" else "Infinity"
  | _ => float_repr f
  end.

(** [json.dumps(v, separators=(isep, ksep))] *)
Section dumps.
Context (isep ksep : str).

Fixpoint json_enc (v : pyval) : str :=
  match v with
  | PNone => "null"
  | PBool b => if b then "true" else "false"
  | PInt z => str_of_Z z
  | PFloat f => json_float f
  | PStr s => json_str s
  | PList l => "[" +:+ join isep (map json_enc l) +:+ "]"
  | PDict d => "{" +:+ join isep (map (λ kv, json_str kv.1 +:+ ksep +:+ json_enc kv.2) d) +:+ "}"
  end.
End dumps.

(** [sorted(d.items())]: the keys of a dictionary are distinct. *)
Fixpoint insert_key {A} (k : str) (v : A) (d : list (str * A)) : list (str * A) :=
  match d with
  | [] => [(k, v)]
  | (k', w) :: d' => if String.leb k k' then (k, v) :: d else (k', w) :: insert_key k v d'
  end.
Definition sort_items {A} (d : list (str * A)) : list (str * A) :=
  foldr (λ kv acc, insert_key kv.1 kv.2 acc) [] d.

(** [sort_keys=True] on every level. *)
Fixpoint sort_keys (v : pyval) : pyval :=
  match v with
  | PList l => PList (map sort_keys l)
  | PDict d => PDict (sort_items (map (λ kv, (kv.1, sort_keys kv.2)) d))
  | _ => v
  end.

Definition json_dumps (v : pyval) : str := json_enc ", " ": " v.
Definition json_canonical (v : pyval) : str := json_enc "," ":" (sort_keys v).

(** ** Escaped strings can be read back *)

(** One character of a string literal, and the rest. *)
Definition json_unescape (s : str) : option (ascii * str) :=
  match s with
  | "" => None
  | String c s =>
      if Ascii.eqb c backslash then
        match s with
        | "" => None
        | String e s =>
            if Ascii.eqb e "n" then Some (newline, s)
            else if Ascii.eqb e "r" then Some (carriage_return, s)
            else if Ascii.eqb e "t" then Some (tab, s)
            else if Ascii.eqb e "b" then Some (ascii_of_nat 8, s)
            else if Ascii.eqb e "f" then Some (ascii_of_nat 12, s)
            else if Ascii.eqb e "u" then
              match s with
              | String _ (String _ (String a (String b s))) =>
                  match hex_value a, hex_value b with
                  | Some x, Some y => Some (ascii_of_N (Z.to_N (16 * x + y)), s)
                  | _, _ => None
                  end
              | _ => None
              end
            else Some (e, s)
        end
      else if Ascii.eqb c dquote then None
      else Some (c, s)
  end.

Lemma json_unescape_char c x : json_unescape (json_char c +:+ x) = Some (c, x).
Proof. by destruct c as [[] [] [] [] [] [] [] []]. Qed.

Lemma json_unescape_quote x : json_unescape (String dquote x) = None.
Proof. done. Qed.

Lemma json_str_body_cons c s : json_str_body (String c s) = json_char c +:+ json_str_body s.
Proof. done. Qed.

Lemma json_str_inj s t x y :
  json_str_body s +:+ String dquote x = json_str_body t +:+ String dquote y → s = t ∧ x = y.
Proof.
  revert t. induction s as [|c s IH]; intros [|d t]; rewrite ?json_str_body_cons, ?append_assoc;
    intros H.
  - by injection H.
  - apply (f_equal json_unescape) in H. by rewrite json_unescape_char in H.
  - apply (f_equal json_unescape) in H. by rewrite json_unescape_char in H.
  - apply (f_equal json_unescape) in H. rewrite !json_unescape_char in H.
    injection H as -> H. by apply IH in H as [-> ->].
Qed.

(** ** Integers *)

Definition is_num_char (c : ascii) : bool := is_decimal c || Ascii.eqb c "-".

Lemma pretty_go_num n s :
  string_forallb is_num_char s = true → string_forallb is_num_char (pretty_N_go n s) = true.
Proof.
  revert s. induction (N.lt_wf_0 n) as [n _ IH]; intros s Hs.
  destruct (decide (n = 0)%N) as [->|Hn]; [done|].
  rewrite pretty_N_go_step by lia. apply IH; [apply N.div_lt; lia|]. simpl.
  rewrite Hs, andb_true_r. unfold pretty_N_char. by repeat case_match.
Qed.

Lemma str_of_Z_num z : string_forallb is_num_char (str_of_Z z) = true.
Proof.
  assert (∀ p, string_forallb is_num_char (pretty (N.pos p)) = true) as Hp.
  { intros p. unfold pretty, pretty_N. case_decide; [done|]. by apply pretty_go_num. }
  unfold str_of_Z. destruct z as [|p|p]; [done|apply Hp|]. exact (Hp p).
Qed.

Lemma str_of_Z_inj a b : str_of_Z a = str_of_Z b → a = b.
Proof. apply (inj pretty). Qed.

Lemma str_of_Z_nonempty z : ∃ c s, str_of_Z z = String c s ∧ is_num_char c = true.
Proof.
  pose proof (str_of_Z_num z) as Hz. destruct (str_of_Z z) as [|c s] eqn:Hs.
  - exfalso. destruct (decide (z = 0)%Z) as [->|Hz0]; [done|].
    destruct z as [|p|p]; [done| |done]. unfold str_of_Z, pretty, pretty_Z in Hs.
    unfold pretty, pretty_positive, pretty, pretty_N in Hs. case_decide; [done|].
    assert (∀ n s, (0 < String.length s)%nat ∨ (0 < n)%N → pretty_N_go n s ≠ "") as Hne.
    { clear. intros n. induction (N.lt_wf_0 n) as [n _ IH]; intros s Hs.
      destruct (decide (n = 0)%N) as [->|Hn].
      - rewrite pretty_N_go_0. destruct s; simpl in *; [lia|done].
      - rewrite pretty_N_go_step by lia. apply IH; [apply N.div_lt; lia|]. left. simpl. lia. }
    by apply (Hne (N.pos p) ""); [right; lia|].
  - exists c, s. split; [done|]. simpl in Hz. by apply andb_true_iff in Hz as [? _].
Qed.

(** ** The compact form determines the value *)

(** The characters that can follow a value. *)
Definition is_term (c : ascii) : bool :=
  Ascii.eqb c "," || Ascii.eqb c "]" || Ascii.eqb c "}".
Definition terminated (s : str) : Prop :=
  match s with "" => True | String c _ => is_term c = true end.

Lemma num_not_term c : is_num_char c = true → is_term c = false.
Proof. by destruct c as [[] [] [] [] [] [] [] []]. Qed.

Lemma num_prefix_inj a b x y :
  string_forallb is_num_char a = true → string_forallb is_num_char b = true →
  terminated x → terminated y → a +:+ x = b +:+ y → a = b ∧ x = y.
Proof.
  revert b. induction a as [|c a IH]; intros [|d b] Ha Hb Hx Hy H;
    rewrite ?append_nil_l, ?append_cons in H.
  - done.
  - simpl in Hb. apply andb_true_iff in Hb as [Hd _]. subst x. simpl in Hx.
    by rewrite (num_not_term d Hd) in Hx.
  - simpl in Ha. apply andb_true_iff in Ha as [Hc _]. subst y. simpl in Hy.
    by rewrite (num_not_term c Hc) in Hy.
  - simpl in Ha, Hb. apply andb_true_iff in Ha as [_ Ha], Hb as [_ Hb].
    injection H as -> H. by apply IH in H as [-> ->].
Qed.

(** Values without floats, whose textual form is not analysed. *)
Fixpoint no_float (v : pyval) : bool :=
  match v with
  | PFloat _ => false
  | PList l => forallb no_float l
  | PDict d => forallb (λ kv, no_float kv.2) d
  | _ => true
  end.

(** The first character tells the kind of value. *)
Definition char_tag (c : ascii) : nat :=
  if Ascii.eqb c "n" then 0 else if Ascii.eqb c "t" then 1 else if Ascii.eqb c "f" then 2
  else if is_num_char c then 3 else if Ascii.eqb c dquote then 4
  else if Ascii.eqb c "[" then 5 else if Ascii.eqb c "{" then 6 else 7.
Definition value_tag (v : pyval) : nat :=
  match v with
  | PNone => 0 | PBool b => if b then 1 else 2 | PInt _ | PFloat _ => 3
  | PStr _ => 4 | PList _ => 5 | PDict _ => 6
  end.

Abbreviation enc := (json_enc "," ":").

Lemma num_tag c : is_num_char c = true → char_tag c = 3.
Proof. by destruct c as [[] [] [] [] [] [] [] []]. Qed.

Lemma enc_head v : no_float v = true → ∃ c s, enc v = String c s ∧ char_tag c = value_tag v.
Proof.
  destruct v as [|[]|z|f|s|l|d]; intros Hf; try (eexists _, _; split; reflexivity); try done.
  destruct (str_of_Z_nonempty z) as (c & s & Hs & Hc). exists c, s. simpl.
  split; [done|]. by apply num_tag.
Qed.

Lemma enc_tag v w x y :
  no_float v = true → no_float w = true → enc v +:+ x = enc w +:+ y → value_tag v = value_tag w.
Proof.
  intros Hv Hw H. destruct (enc_head v Hv) as (c & s & Hc & <-), (enc_head w Hw) as (d & t & Hd & <-).
  rewrite Hc, Hd, !append_cons in H. by injection H as ->.
Qed.

(** Comma-separated items, up to a closing character. *)
Section items.
Context {A : Type} (item : A → str) (close : ascii).
Hypothesis Hclose : is_term close = true ∧ close ≠ ","%char.
Context (P : A → Prop).
Hypothesis Hhead : ∀ a, P a → ∃ c s, item a = String c s ∧ is_term c = false.

Lemma join_inj l k x y :
  Forall P l → Forall P k →
  (∀ a b x y, a ∈ l → P b → terminated x → terminated y →
     item a +:+ x = item b +:+ y → a = b ∧ x = y) →
  join "," (map item l) +:+ String close x = join "," (map item k) +:+ String close y →
  l = k ∧ x = y.
Proof.
  destruct Hclose as [Hterm Hcomma]. unfold join.
  intros Hl Hk Hinj. revert k Hk. induction Hl as [|a l Ha Hl IH]; intros k Hk H.
  { destruct Hk as [|b k Hb Hk]; [by injection H|]. exfalso.
    destruct (Hhead b Hb) as (c & s & Hc & Hct).
    destruct k; simpl in H; rewrite Hc in H; injection H as -> H; congruence. }
  destruct Hk as [|b k Hb Hk].
  { exfalso. destruct (Hhead a Ha) as (c & s & Hc & Hct).
    destruct l; simpl in H; rewrite Hc in H; injection H as -> H; congruence. }
  assert (∀ a b x y, a ∈ l → P b → terminated x → terminated y →
     item a +:+ x = item b +:+ y → a = b ∧ x = y) as Hinj'.
  { intros a' b' x' y' Hin. apply Hinj. by right. }
  assert (∀ u, terminated (String close u)) as Htc by (intros; exact Hterm).
  assert (∀ u, terminated ("," +:+ u)) as Htk by done.
  pose proof (λ x y, Hinj a b x y (list_elem_of_here _ _) Hb) as Hab.
  destruct l as [|a' l], k as [|b' k]; cbn [map String.concat] in H; rewrite ?append_assoc in H.
  - apply Hab in H as [-> H]; [|done..]. by injection H as ->.
  - apply Hab in H as [_ H]; [|done..]. by injection H.
  - apply Hab in H as [_ H]; [|done..]. by injection H.
  - apply Hab in H as [-> H]; [|done..]. rewrite !append_cons, !append_nil_l in H.
    injection H as H. destruct (IH Hinj' (b' :: k) Hk H) as [-> ->]. done.
Qed.
End items.

Lemma tag_not_term c : char_tag c < 7 → is_term c = false.
Proof. destruct c as [[] [] [] [] [] [] [] []]; try done; unfold char_tag; simpl; lia. Qed.

Lemma enc_head_term v : no_float v = true → ∃ c s, enc v = String c s ∧ is_term c = false.
Proof.
  intros Hv. destruct (enc_head v Hv) as (c & s & Hs & Hc). exists c, s. split; [done|].
  apply tag_not_term. rewrite Hc. destruct v as [|[]| | | | |]; simpl; lia.
Qed.

Definition enc_item (kv : str * pyval) : str := json_str kv.1 +:+ ":" +:+ enc kv.2.

Lemma forallb_Forall' {A} (p : A → bool) l : forallb p l = true ↔ Forall (λ x, p x = true) l.
Proof. rewrite forallb_forall, Forall_forall. by setoid_rewrite list_elem_of_In. Qed.

Lemma enc_list l : enc (PList l) = String "[" (join "," (map enc l) +:+ "]").
Proof. done. Qed.
Lemma enc_dict d : enc (PDict d) = String "{" (join "," (map enc_item d) +:+ "}").
Proof. done. Qed.

Lemma enc_inj v : ∀ w x y,
  no_float v = true → no_float w = true → terminated x → terminated y →
  enc v +:+ x = enc w +:+ y → v = w ∧ x = y.
Proof.
  induction v as [|b|z|f|s|l IH|d IH] using pyval_rect'; intros w x y Hv Hw Hx Hy H;
    pose proof (enc_tag _ _ _ _ Hv Hw H) as Ht;
    destruct w as [|b'|z'|f'|s'|l'|d']; try done; try (by destruct b); try (by destruct b').
  - simpl in H. rewrite !append_cons, !append_nil_l in H. by injection H.
  - destruct b, b'; try done; simpl in H; rewrite !append_cons, !append_nil_l in H; by injection H.
  - apply num_prefix_inj in H as [->%str_of_Z_inj ->];
      [done|apply str_of_Z_num|apply str_of_Z_num|done|done].
  - simpl in H. unfold json_str in H. rewrite !append_cons, !append_assoc in H.
    injection H as H. by apply json_str_inj in H as [-> ->].
  - rewrite !enc_list, !append_cons, !append_assoc in H. injection H as H.
    eapply (join_inj enc "]" ltac:(done) (λ v, no_float v = true)) in H as [-> ->];
      [done|apply enc_head_term|by apply forallb_Forall'..|].
    intros a b x' y' Ha Hb. rewrite Forall_forall in IH. simpl in Hv.
    rewrite forallb_Forall', Forall_forall in Hv. apply IH; auto.
  - rewrite !enc_dict, !append_cons, !append_assoc in H. injection H as H.
    eapply (join_inj enc_item "}" ltac:(done) (λ kv, no_float kv.2 = true)) in H as [-> ->];
      [done|by eexists _, _|by apply forallb_Forall'..|].
    intros [ka va] [kb vb] x' y' Ha Hb Hx' Hy'. unfold enc_item, json_str. simpl in *.
    rewrite !append_cons, !append_assoc. intros E. injection E as E.
    apply json_str_inj in E as [-> E]. rewrite !append_cons, !append_nil_l in E. injection E as E.
    rewrite Forall_forall in IH. rewrite forallb_Forall', Forall_forall in Hv.
    destruct (IH (kb, va) Ha vb x' y' (Hv _ Ha) Hb Hx' Hy' E) as [Heq ->].
    simpl in Heq. by subst.
Qed.

Lemma no_float_sort v : no_float v = true → no_float (sort_keys v) = true.
Proof.
  induction v as [|b|z|f|s|l IH|d IH] using pyval_rect'; simpl; try done.
  - rewrite !forallb_Forall', Forall_map. intros H. rewrite Forall_forall in *. naive_solver.
  - intros H. unfold sort_items. induction d as [|[k v] d IHd]; [done|]. simpl in *.
    apply andb_true_iff in H as [Hv Hd]. apply Forall_cons in IH as [Hk IH].
    specialize (IHd IH Hd). specialize (Hk Hv). simpl in Hk. revert IHd.
    generalize (foldr (λ kv acc, insert_key kv.1 kv.2 acc) []
      (map (λ kv : str * pyval, (kv.1, sort_keys kv.2)) d)) as e.
    intros e. induction e as [|[k' w] e IHe]; simpl; [by rewrite Hk|].
    intros [Hw He]%andb_true_iff. destruct (String.leb k k'); simpl; rewrite ?Hk, ?Hw; simpl; auto.
Qed.

(** The canonical text determines a value up to the order of its keys. *)
Lemma json_canonical_inj v w :
  no_float v = true → no_float w = true → json_canonical v = json_canonical w →
  sort_keys v = sort_keys w.
Proof.
  intros Hv Hw H. apply (enc_inj (sort_keys v) (sort_keys w) "" ""); auto using no_float_sort.
  - done.
  - done.
  - by rewrite !append_nil_r.
Qed.
