(* ===== verification/PyTime.v ===== *)
(** * UUIDs and UTC datetimes

    A [UUID] is its 128-bit integer; a timezone-aware [datetime] in UTC is the
    number of microseconds since the epoch.  This file holds their textual forms
    ([str(uuid)], [datetime.isoformat()]) and the proofs that the text
    determines the value, over the whole range of each type. *)

From Stdlib Require Import Ascii String.
From S2P Require Import Prelude PyStr PyVal.
Local Open Scope string_scope.
Local Open Scope list_scope.
Local Open Scope Z_scope.

(** ** Fixed-width numerals *)

(** The [w] low digits of [z] in a base up to 16, most significant first. *)
Fixpoint digits_fixed (base : Z) (w : nat) (z : Z) : str :=
  match w with
  | O => ""
  | S w => digits_fixed base w (z / base) +:+ String (hex_digit (Z.to_N (z mod base))) ""
  end.

Lemma append_inj (a b x y : str) :
  String.length a = String.length b → a +:+ x = b +:+ y → a = b ∧ x = y.
Proof.
  revert b. induction a as [|c a IH]; intros [|d b] Hl H; simpl in Hl; try lia.
  - done.
  - rewrite !append_cons in H. injection H as -> H. by destruct (IH b ltac:(lia) H) as [-> ->].
Qed.

Lemma digits_length base w z : String.length (digits_fixed base w z) = w.
Proof. revert z. induction w as [|w IH]; intros z; [done|]. simpl. rewrite append_length, IH. simpl. lia. Qed.

Lemma hex_digit_inj a b : (a < 16)%N → (b < 16)%N → hex_digit a = hex_digit b → a = b.
Proof.
  unfold hex_digit. intros Ha Hb H. apply (f_equal N_of_ascii) in H.
  destruct (N.ltb_spec a 10), (N.ltb_spec b 10);
    rewrite !N_ascii_embedding in H by lia; lia.
Qed.

Lemma digits_inj base w a b :
  1 < base ≤ 16 → 0 ≤ a < base ^ Z.of_nat w → 0 ≤ b < base ^ Z.of_nat w →
  digits_fixed base w a = digits_fixed base w b → a = b.
Proof.
  intros Hbase. revert a b. induction w as [|w IH]; intros a b Ha Hb H; [simpl in *; lia|].
  simpl in H. apply append_inj in H as [Hq Hr]; [|by rewrite !digits_length].
  rewrite Nat2Z.inj_succ, Z.pow_succ_r in Ha, Hb by lia.
  apply IH in Hq; [|split; [apply Z.div_pos; lia|apply Z.div_lt_upper_bound; lia]..].
  injection Hr as Hr.
  pose proof (Z.mod_pos_bound a base ltac:(lia)). pose proof (Z.mod_pos_bound b base ltac:(lia)).
  apply hex_digit_inj in Hr; [|lia..]. apply Z2N.inj in Hr; [|lia..].
  rewrite (Z.div_mod a base), (Z.div_mod b base) by lia. congruence.
Qed.

(** ** UUIDs *)

Definition uuid_ok (u : Z) : Prop := 0 ≤ u < 2 ^ 128.

(** [str(u)] *)
Definition uuid_str (u : Z) : str :=
  digits_fixed 16 8 (u / 2 ^ 96) +:+ "-" +:+ digits_fixed 16 4 (u / 2 ^ 80 mod 2 ^ 16) +:+ "-" +:+
  digits_fixed 16 4 (u / 2 ^ 64 mod 2 ^ 16) +:+ "-" +:+ digits_fixed 16 4 (u / 2 ^ 48 mod 2 ^ 16)
  +:+ "-" +:+ digits_fixed 16 12 (u mod 2 ^ 48).

(** [u.bytes]: 16 bytes, big-endian. *)
Fixpoint be_bytes (w : nat) (z : Z) : str :=
  match w with
  | O => ""
  | S w => be_bytes w (z / 256) +:+ String (ascii_of_N (Z.to_N (z mod 256))) ""
  end.
Definition uuid_bytes (u : Z) : str := be_bytes 16 u.

(** [int.from_bytes(b, "big")] *)
Definition int_of_bytes (b : str) : Z :=
  fold_left (λ acc c, acc * 256 + Z.of_N (code c)) (list_ascii_of_string b) 0.

(** Split two concatenations whose first parts have the same length. *)
Ltac append_split H :=
  apply append_inj in H as [? H]; [|by rewrite ?append_length, ?digits_length].

Lemma uuid_str_length u : String.length (uuid_str u) = 36%nat.
Proof. unfold uuid_str. by rewrite !append_length, !digits_length. Qed.

Lemma uuid_str_inj a b : uuid_ok a → uuid_ok b → uuid_str a = uuid_str b → a = b.
Proof.
  unfold uuid_ok, uuid_str. intros Ha Hb H.
  append_split H. append_split H. append_split H. append_split H.
  append_split H. append_split H. append_split H. append_split H.
  assert (∀ z k, 0 < k → 0 ≤ z mod 2 ^ k < 2 ^ k) as Hmod.
  { intros z k Hk. apply Z.mod_pos_bound, Z.pow_pos_nonneg; lia. }
  repeat match goal with
  | E : digits_fixed 16 _ _ = digits_fixed 16 _ _ |- _ =>
      apply digits_inj in E; [|lia|first [apply (Hmod _ 16)|apply (Hmod _ 48)|split;
        [apply Z.div_pos; lia|apply Z.div_lt_upper_bound; lia]]; lia..]
  end.
  assert (∀ z k, 0 ≤ k → z / 2 ^ k = z / 2 ^ (k + 16) * 2 ^ 16 + z / 2 ^ k mod 2 ^ 16) as Hstep.
  { intros z k Hk. rewrite Z.pow_add_r, <- Z.div_div by (try apply Z.pow_nonzero; lia).
    pose proof (Z.div_mod (z / 2 ^ k) (2 ^ 16) ltac:(lia)). lia. }
  assert (∀ k k', k' = k + 16 → 0 ≤ k → a / 2 ^ k' = b / 2 ^ k' →
    a / 2 ^ k mod 2 ^ 16 = b / 2 ^ k mod 2 ^ 16 → a / 2 ^ k = b / 2 ^ k) as Hjoin.
  { intros k k' -> Hk Hq Hr. rewrite (Hstep a k), (Hstep b k) by done. congruence. }
  assert (a / 2 ^ 80 = b / 2 ^ 80) by (by apply (Hjoin 80 96)).
  assert (a / 2 ^ 64 = b / 2 ^ 64) by (by apply (Hjoin 64 80)).
  assert (a / 2 ^ 48 = b / 2 ^ 48) by (by apply (Hjoin 48 64)).
  rewrite (Z.div_mod a (2 ^ 48)), (Z.div_mod b (2 ^ 48)) by lia. congruence.
Qed.

(** ** Datetimes *)

Definition MINYEAR_us : Z := -62135596800000000.
Definition MAXYEAR_us : Z := 253402300799999999.
Definition datetime_ok (t : Z) : Prop := MINYEAR_us ≤ t ≤ MAXYEAR_us.

(** Year, month and day of a day counted from 1970-01-01, by eras of 400 years
    that start on March 1st. *)
Definition civil_of_doe (doe : Z) : Z * Z * Z :=
  let yoe := (doe - doe / 1460 + doe / 36524 - doe / 146096) / 365 in
  let doy := doe - (365 * yoe + yoe / 4 - yoe / 100) in
  let mp := (5 * doy + 2) / 153 in
  let d := doy - (153 * mp + 2) / 5 + 1 in
  let m := if mp <? 10 then mp + 3 else mp - 9 in
  (if m <=? 2 then yoe + 1 else yoe, m, d).
Definition civil_of_days (days : Z) : Z * Z * Z :=
  let z := days + 719468 in
  let '(y, m, d) := civil_of_doe (z mod 146097) in (z / 146097 * 400 + y, m, d).

Definition us_per_day : Z := 86400000000.

(** [t.isoformat()] of an aware datetime in UTC. *)
Definition isoformat (t : Z) : str :=
  let '(y, m, d) := civil_of_days (t / us_per_day) in
  let us := t mod us_per_day in
  let s := us / 1000000 in
  let frac := us mod 1000000 in
  digits_fixed 10 4 y +:+ "-" +:+ digits_fixed 10 2 m +:+ "-" +:+ digits_fixed 10 2 d +:+ "T" +:+
  digits_fixed 10 2 (s / 3600) +:+ ":" +:+ digits_fixed 10 2 (s / 60 mod 60) +:+ ":" +:+
  digits_fixed 10 2 (s mod 60) +:+
  (if frac =? 0 then "" else "." +:+ digits_fixed 10 6 frac) +:+ "+00:00".

Example isoformat_example : isoformat 1700000000123456 = "2023-11-14T22:13:20.123456+00:00".
Proof. reflexivity. Qed.

(** Day of the era of a civil date whose year is relative to the era. *)
Definition doe_of_civil (c : Z * Z * Z) : Z :=
  let '(y, m, d) := c in
  let y := if m <=? 2 then y - 1 else y in
  let mp := if 2 <? m then m - 3 else m + 9 in
  y * 365 + y / 4 - y / 100 + ((153 * mp + 2) / 5 + d - 1).

Lemma civil_of_doe_spec doe :
  0 ≤ doe < 146097 →
  let '(y, m, d) := civil_of_doe doe in
  doe_of_civil (y, m, d) = doe ∧ 0 ≤ y ≤ 400 ∧ 1 ≤ m ≤ 12 ∧ 1 ≤ d ≤ 31 ∧
  0 ≤ (if m <=? 2 then y - 1 else y) < 400.
Proof.
  intros Hdoe. unfold civil_of_doe, doe_of_civil.
  remember ((doe - doe / 1460 + doe / 36524 - doe / 146096) / 365) as yoe eqn:Hyoe.
  assert (0 ≤ yoe < 400 ∧ 0 ≤ doe - (365 * yoe + yoe / 4 - yoe / 100) ≤ 366) as [Hy Hd]
    by (subst yoe; Z.to_euclidean_division_equations; lia).
  remember (doe - (365 * yoe + yoe / 4 - yoe / 100)) as doy eqn:Hdoy.
  assert (0 ≤ (5 * doy + 2) / 153 ≤ 11) as Hmp
    by (clear Hdoy Hyoe; Z.to_euclidean_division_equations; lia).
  assert (1 ≤ doy - (153 * ((5 * doy + 2) / 153) + 2) / 5 + 1 ≤ 31)
    by (clear Hdoy Hyoe; Z.to_euclidean_division_equations; lia).
  remember ((5 * doy + 2) / 153) as mp eqn:Hmpe.
  destruct (Z.ltb_spec mp 10).
  - destruct (Z.leb_spec (mp + 3) 2); [lia|]. destruct (Z.leb_spec (mp + 3) 2); [lia|].
    destruct (Z.ltb_spec 2 (mp + 3)); [|lia].
    split_and!; try lia. replace (mp + 3 - 3) with mp by lia. lia.
  - destruct (Z.leb_spec (mp - 9) 2); [|lia]. destruct (Z.leb_spec (mp - 9) 2); [|lia].
    destruct (Z.ltb_spec 2 (mp - 9)); [lia|].
    split_and!; try lia. replace (mp - 9 + 9) with mp by lia.
    replace (yoe + 1 - 1) with yoe by lia. lia.
Qed.

Lemma civil_of_days_inj a b : civil_of_days a = civil_of_days b → a = b.
Proof.
  unfold civil_of_days. intros H.
  pose proof (Z.mod_pos_bound (a + 719468) 146097 ltac:(lia)) as Ha.
  pose proof (Z.mod_pos_bound (b + 719468) 146097 ltac:(lia)) as Hb.
  pose proof (civil_of_doe_spec _ Ha) as Sa. pose proof (civil_of_doe_spec _ Hb) as Sb.
  destruct (civil_of_doe ((a + 719468) mod 146097)) as [[ya ma] da].
  destruct (civil_of_doe ((b + 719468) mod 146097)) as [[yb mb] db].
  injection H as Hy -> ->. destruct Sa as (Ea & _ & _ & _ & Ra), Sb as (Eb & _ & _ & _ & Rb).
  set (qa := (a + 719468) / 146097) in *. set (qb := (b + 719468) / 146097) in *.
  assert (qa = qb ∧ ya = yb) as [Hq ->] by (destruct (mb <=? 2); lia).
  rewrite Ea in Eb. pose proof (Z.div_mod (a + 719468) 146097 ltac:(lia)).
  pose proof (Z.div_mod (b + 719468) 146097 ltac:(lia)). lia.
Qed.

Lemma civil_range t :
  datetime_ok t →
  let '(y, m, d) := civil_of_days (t / us_per_day) in 0 ≤ y < 10000 ∧ 1 ≤ m ≤ 12 ∧ 1 ≤ d ≤ 31.
Proof.
  unfold datetime_ok, civil_of_days, MINYEAR_us, MAXYEAR_us, us_per_day. intros Ht.
  set (z := t / 86400000000 + 719468).
  assert (0 ≤ z / 146097 ≤ 23 ∨ (z / 146097 = 24 ∧ z mod 146097 ≤ 146036)) as Hz
    by (unfold z; Z.to_euclidean_division_equations; lia).
  pose proof (civil_of_doe_spec _ (Z.mod_pos_bound z 146097 ltac:(lia))) as Hs.
  destruct (civil_of_doe (z mod 146097)) as [[y m] d].
  destruct Hs as (Hdoe & Hy & Hm & Hd & Hr). split_and!; try lia.
  destruct Hz as [Hz|[Hz Hle]]; [lia|]. rewrite Hz. revert Hdoe Hr. unfold doe_of_civil.
  destruct (Z.leb_spec m 2); [|lia]. destruct (Z.ltb_spec 2 m); [lia|]. intros Hdoe Hr.
  assert (y = 400 ∨ y < 400) as [->|] by lia; [|lia].
  exfalso. Z.to_euclidean_division_equations; lia.
Qed.

Lemma isoformat_inj a b : datetime_ok a → datetime_ok b → isoformat a = isoformat b → a = b.
Proof.
  intros Ha Hb H. unfold isoformat in H.
  pose proof (civil_range a Ha) as Ra. pose proof (civil_range b Hb) as Rb.
  destruct (civil_of_days (a / us_per_day)) as [[ya ma] da] eqn:Ea.
  destruct (civil_of_days (b / us_per_day)) as [[yb mb] db] eqn:Eb.
  pose proof (Z.mod_pos_bound a us_per_day ltac:(done)) as Ma.
  pose proof (Z.mod_pos_bound b us_per_day ltac:(done)) as Mb.
  append_split H. append_split H. append_split H. append_split H. append_split H. append_split H.
  append_split H. append_split H. append_split H. append_split H. append_split H.
  remember (a mod us_per_day) as ua eqn:Hua. remember (b mod us_per_day) as ub eqn:Hub.
  unfold us_per_day in Ma, Mb.
  repeat match goal with
  | E : digits_fixed 10 _ _ = digits_fixed 10 _ _ |- _ =>
      apply digits_inj in E; [|lia|Z.to_euclidean_division_equations; lia..]
  end. subst ya ma da.
  assert (a / us_per_day = b / us_per_day) as Hday by (apply civil_of_days_inj; congruence).
  assert (ua mod 1000000 = ub mod 1000000) as Hf.
  { destruct (Z.eqb_spec (ua mod 1000000) 0), (Z.eqb_spec (ub mod 1000000) 0);
      rewrite ?append_assoc in H; [congruence|discriminate H|discriminate H|].
    append_split H. append_split H.
    match goal with E : digits_fixed _ _ _ = _ |- _ =>
      apply digits_inj in E; [done|lia|Z.to_euclidean_division_equations; lia..] end. }
  assert (ua = ub) as Hu by (clear Hua Hub Hday; Z.to_euclidean_division_equations; lia).
  rewrite (Z.div_mod a us_per_day), (Z.div_mod b us_per_day) by done. congruence.
Qed.

(** ** Parsing UUIDs *)

(** [int(s, 16)]: as [int(s)], with an optional [0x] prefix. *)
Fixpoint hexs_go (acc : Z) (after_digit : bool) (s : str) : option Z :=
  match s with
  | "" => if after_digit then Some acc else None
  | String c s =>
      match hex_value c with
      | Some v => hexs_go (acc * 16 + v) true s
      | None =>
          if (Ascii.eqb c "_" && after_digit)%char then
            match s with
            | String d s' =>
                match hex_value d with Some v => hexs_go (acc * 16 + v) true s' | None => None end
            | "" => None
            end
          else None
      end
  end.
Definition hex_body (s : str) : option Z :=
  match s with
  | String "0" (String ("x" | "X") (String "_" r)) => hexs_go 0 false r
  | String "0" (String ("x" | "X") r) => hexs_go 0 false r
  | _ => hexs_go 0 false s
  end.
Definition py_int_hex (s : str) : option Z :=
  match strip s with
  | String "-" s => Z.opp <$> hex_body s
  | String "+" s => hex_body s
  | s => hex_body s
  end.

(** [UUID(s)], [None] for a ValueError. *)
Definition is_brace (c : ascii) : bool := Ascii.eqb c "{" || Ascii.eqb c "}".
Definition uuid_of_str (s : str) : option Z :=
  let hex := replace "uuid:" "" (replace "urn:" "" s) in
  let hex := replace_char "-" "" (strip_by is_brace hex) in
  if (String.length hex =? 32)%nat then
    z ← py_int_hex hex; if (0 <=? z) && (z <? 2 ^ 128) then Some z else None
  else None.

(** A lower-case hexadecimal digit, as [str(uuid)] writes them. *)
Definition is_hex (c : ascii) : bool := is_decimal c || ((97 <=? code c) && (code c <=? 102))%N.

Lemma is_hex_digit n : (n < 16)%N → is_hex (hex_digit n) = true ∧ hex_value (hex_digit n) = Some (Z.of_N n).
Proof.
  intros Hn. assert (In n (map N.of_nat (seq 0 16))) as Hin.
  { apply in_map_iff. exists (N.to_nat n). rewrite in_seq. lia. }
  assert (Forall (λ n, is_hex (hex_digit n) = true ∧ hex_value (hex_digit n) = Some (Z.of_N n))
    (map N.of_nat (seq 0 16))) as H by (repeat constructor).
  rewrite List.Forall_forall in H. by apply H.
Qed.

Lemma digits_hex w z : string_forallb is_hex (digits_fixed 16 w z) = true.
Proof.
  revert z. induction w as [|w IH]; intros z; [done|]. simpl. rewrite string_forallb_app, IH. simpl.
  pose proof (Z.mod_pos_bound z 16 ltac:(lia)).
  by rewrite (proj1 (is_hex_digit (Z.to_N (z mod 16)) ltac:(lia))).
Qed.

Lemma hexs_go_digits w z acc b t :
  0 ≤ z < 16 ^ Z.of_nat w →
  hexs_go acc b (digits_fixed 16 w z +:+ t) = hexs_go (acc * 16 ^ Z.of_nat w + z) (b || (0 <? w)%nat) t.
Proof.
  revert z acc b t. induction w as [|w IH]; intros z acc b t Hz.
  { simpl in *. rewrite append_nil_l, orb_false_r. f_equal. lia. }
  rewrite Nat2Z.inj_succ, Z.pow_succ_r in * by lia. simpl digits_fixed. rewrite append_assoc, append_cons, append_nil_l.
  rewrite IH by (split; [apply Z.div_pos; lia|apply Z.div_lt_upper_bound; lia]). cbn [hexs_go].
  pose proof (Z.mod_pos_bound z 16 ltac:(lia)).
  rewrite (proj2 (is_hex_digit (Z.to_N (z mod 16)) ltac:(lia))). f_equal; [|by destruct b].
  rewrite Z2N.id by lia. pose proof (Z.div_mod z 16 ltac:(lia)). nia.
Qed.

Lemma replace_head_absent c old new s :
  string_forallb (λ a, negb (Ascii.eqb a c)) s = true → replace (String c old) new s = s.
Proof.
  unfold replace. induction s as [|a s IH]; [done|]. simpl. rewrite andb_true_iff, negb_true_iff.
  intros [Ha Hs]. cbn [starts_with String.prefix]. destruct (ascii_dec c a) as [->|_].
  - by rewrite Ascii.eqb_refl in Ha.
  - by rewrite IH.
Qed.

Lemma strip_by_absent p s : string_forallb (λ a, negb (p a)) s = true → strip_by p s = s.
Proof.
  intros H. unfold strip_by.
  assert (lstrip_by p s = s) as ->.
  { destruct s as [|a s]; [done|]. simpl in *. by destruct (p a). }
  induction s as [|a s IH]; [done|]. simpl in *. apply andb_true_iff in H as [Ha Hs].
  rewrite IH by done. destruct s; [|done]. by destruct (p a).
Qed.

Lemma replace_char_id c s :
  string_forallb (λ a, negb (Ascii.eqb a c)) s = true → replace_char c "" s = s.
Proof.
  unfold replace_char. induction s as [|a s IH]; [done|]. simpl. rewrite andb_true_iff, negb_true_iff.
  intros [-> Hs]. by rewrite IH, append_cons, append_nil_l.
Qed.

Lemma replace_char_app c n s t : replace_char c n (s +:+ t) = replace_char c n s +:+ replace_char c n t.
Proof.
  unfold replace_char. induction s as [|a s IH]; [by rewrite append_nil_l|]. rewrite append_cons. simpl.
  by rewrite IH, append_assoc.
Qed.

Lemma string_forallb_impl (p q : ascii → bool) s :
  (∀ a, p a = true → q a = true) → string_forallb p s = true → string_forallb q s = true.
Proof.
  intros Hpq. induction s as [|a s IH]; [done|]. simpl. rewrite !andb_true_iff. naive_solver.
Qed.

(** The 32 hexadecimal digits of a UUID, without the dashes. *)
Definition uuid_hex (u : Z) : str :=
  digits_fixed 16 8 (u / 2 ^ 96) +:+ digits_fixed 16 4 (u / 2 ^ 80 mod 2 ^ 16) +:+
  digits_fixed 16 4 (u / 2 ^ 64 mod 2 ^ 16) +:+ digits_fixed 16 4 (u / 2 ^ 48 mod 2 ^ 16) +:+
  digits_fixed 16 12 (u mod 2 ^ 48).

Lemma is_hex_not c a : is_hex c = false → is_hex a = true → negb (Ascii.eqb a c) = true.
Proof. intros Hc Ha. destruct (Ascii.eqb_spec a c); [congruence|done]. Qed.

Lemma uuid_hex_chars u : string_forallb is_hex (uuid_hex u) = true.
Proof. unfold uuid_hex. by rewrite !string_forallb_app, !digits_hex. Qed.

Lemma uuid_str_chars u : string_forallb (λ a, is_hex a || Ascii.eqb a "-") (uuid_str u) = true.
Proof.
  assert (∀ w z, string_forallb (λ a, is_hex a || Ascii.eqb a "-") (digits_fixed 16 w z) = true) as H.
  { intros w z. eapply string_forallb_impl; [|apply digits_hex]. by intros a ->. }
  unfold uuid_str. rewrite !string_forallb_app, !H. done.
Qed.

Lemma uuid_str_avoids p u :
  p "-"%char = false → (∀ a, is_hex a = true → p a = false) →
  string_forallb (λ a, negb (p a)) (uuid_str u) = true.
Proof.
  intros Hd Hp. eapply string_forallb_impl; [|apply uuid_str_chars].
  intros a [Ha| ->%Ascii.eqb_eq]%orb_true_iff; [by rewrite Hp|by rewrite Hd].
Qed.

Lemma uuid_str_dashes u : replace_char "-" "" (uuid_str u) = uuid_hex u.
Proof.
  assert (∀ w z, replace_char "-" "" (digits_fixed 16 w z) = digits_fixed 16 w z) as H.
  { intros w z. apply replace_char_id. eapply string_forallb_impl; [|apply digits_hex].
    intros a. by apply is_hex_not. }
  unfold uuid_str, uuid_hex. rewrite !replace_char_app, !H. done.
Qed.

Lemma uuid_hex_value u : uuid_ok u → hexs_go 0 false (uuid_hex u) = Some u.
Proof.
  unfold uuid_ok, uuid_hex. intros Hu.
  assert (∀ z k, 0 < k → 0 ≤ z mod 2 ^ k < 2 ^ k) as Hmod.
  { intros z k Hk. apply Z.mod_pos_bound, Z.pow_pos_nonneg; lia. }
  rewrite <-(append_nil_r (digits_fixed 16 12 _)).
  rewrite hexs_go_digits by (split; [apply Z.div_pos; lia|apply Z.div_lt_upper_bound; lia]).
  do 3 rewrite hexs_go_digits by apply (Hmod _ 16 ltac:(lia)).
  rewrite hexs_go_digits by apply (Hmod _ 48 ltac:(lia)). cbn [hexs_go]. simpl orb. f_equal.
  assert (∀ k, 0 ≤ k → u / 2 ^ k = u / 2 ^ (k + 16) * 2 ^ 16 + u / 2 ^ k mod 2 ^ 16) as Hstep.
  { intros k Hk. rewrite Z.pow_add_r, <-Z.div_div by (try apply Z.pow_nonzero; lia).
    pose proof (Z.div_mod (u / 2 ^ k) (2 ^ 16) ltac:(lia)). lia. }
  pose proof (Hstep 80 ltac:(lia)). pose proof (Hstep 64 ltac:(lia)). pose proof (Hstep 48 ltac:(lia)).
  pose proof (Z.div_mod u (2 ^ 48) ltac:(lia)).
  change (80 + 16) with 96 in *. change (64 + 16) with 80 in *. change (48 + 16) with 64 in *.
  change (16 ^ Z.of_nat 8) with (2 ^ 32). change (16 ^ Z.of_nat 4) with (2 ^ 16).
  change (16 ^ Z.of_nat 12) with (2 ^ 48). lia.
Qed.

Lemma hex_body_plain s : string_forallb is_hex s = true → hex_body s = hexs_go 0 false s.
Proof.
  destruct s as [|c [|d s]]; [done|..]; simpl; rewrite ?andb_true_iff; intros H.
  - by destruct c as [[] [] [] [] [] [] [] []].
  - destruct H as (_ & Hd & _). destruct c as [[] [] [] [] [] [] [] []]; try reflexivity.
    destruct d as [[] [] [] [] [] [] [] []]; try discriminate Hd; reflexivity.
Qed.

Lemma py_int_hex_plain s : string_forallb is_hex s = true → py_int_hex s = hexs_go 0 false s.
Proof.
  intros H. unfold py_int_hex, strip. rewrite strip_by_absent.
  2:{ eapply string_forallb_impl; [|exact H]. intros a Ha. apply negb_true_iff.
      by destruct a as [[] [] [] [] [] [] [] []]. }
  rewrite <-(hex_body_plain s) by done. destruct s as [|c s]; [done|]. simpl in H.
  apply andb_true_iff in H as [Hc _]. by destruct c as [[] [] [] [] [] [] [] []].
Qed.

(** Parsing undoes printing. *)
Lemma uuid_of_str_uuid_str u : uuid_ok u → uuid_of_str (uuid_str u) = Some u.
Proof.
  intros Hu. unfold uuid_of_str.
  assert (Hav : ∀ c a, is_hex c = false → is_hex a = true → Ascii.eqb a c = false).
  { intros c a Hc Ha. apply negb_true_iff. by apply is_hex_not. }
  assert (Hrep : ∀ o, replace (String "u" o) "" (uuid_str u) = uuid_str u).
  { intros o. apply replace_head_absent. apply (uuid_str_avoids (λ a, Ascii.eqb a "u")); [done|].
    intros a. by apply Hav. }
  rewrite !Hrep, strip_by_absent.
  2:{ apply uuid_str_avoids; [done|]. intros a Ha. unfold is_brace. by rewrite !Hav. }
  rewrite uuid_str_dashes.
  assert (String.length (uuid_hex u) = 32%nat) as ->
    by (unfold uuid_hex; by rewrite !append_length, !digits_length).
  rewrite py_int_hex_plain by apply uuid_hex_chars. rewrite uuid_hex_value by done. simpl.
  unfold uuid_ok in Hu. rewrite (proj2 (Z.leb_le _ _)), (proj2 (Z.ltb_lt _ _)) by lia. done.
Qed.
