(* ===== verification/Crypto.v ===== *)
(** * Digests of the Python standard library

    Executable SHA-256, HMAC-SHA256 and BLAKE2b ([hashlib.sha256], [hmac.new],
    [hashlib.blake2b]) on byte strings, used by the audit chain, alert
    deduplication, signed tokens and the rollout cohorts.  A [bytes] object is a
    [string] of its bytes.  Integers are machine words kept in range by [w32] and
    [w64].  The test vectors of FIPS 180-4, RFC 4231 and RFC 7693 are checked by
    computation. *)

From Stdlib Require Import Ascii String.
From S2P Require Import Prelude PyStr PyVal.
Local Open Scope string_scope.
Local Open Scope list_scope.
Local Open Scope Z_scope.

Abbreviation bytes := string (only parsing).

(** ** 32-bit words *)

Definition w32 (z : Z) : Z := Z.land z 4294967295.
Definition add32 (a b : Z) : Z := w32 (a + b).
Definition rotr (n x : Z) : Z := Z.lor (Z.shiftr x n) (w32 (Z.shiftl x (32 - n))).
Definition not32 (x : Z) : Z := 4294967295 - x.

Definition byte_of_Z (z : Z) : ascii := ascii_of_N (Z.to_N (Z.land z 255)).
Definition Z_of_byte (c : ascii) : Z := Z.of_N (N_of_ascii c).

(** Big-endian. *)
Definition word_bytes (w : Z) : list ascii :=
  [byte_of_Z (Z.shiftr w 24); byte_of_Z (Z.shiftr w 16); byte_of_Z (Z.shiftr w 8); byte_of_Z w].
Fixpoint words_of (l : list ascii) : list Z :=
  match l with
  | a :: b :: c :: d :: l =>
      (Z.shiftl (Z_of_byte a) 24 + Z.shiftl (Z_of_byte b) 16
       + Z.shiftl (Z_of_byte c) 8 + Z_of_byte d) :: words_of l
  | _ => []
  end.

(** ** SHA-256 *)

(** Fractional parts of the cube roots of the first 64 primes. *)
Definition sha_K : list Z :=
  [1116352408; 1899447441; 3049323471; 3921009573; 961987163; 1508970993; 2453635748; 2870763221;
   3624381080; 310598401; 607225278; 1426881987; 1925078388; 2162078206; 2614888103; 3248222580;
   3835390401; 4022224774; 264347078; 604807628; 770255983; 1249150122; 1555081692; 1996064986;
   2554220882; 2821834349; 2952996808; 3210313671; 3336571891; 3584528711; 113926993; 338241895;
   666307205; 773529912; 1294757372; 1396182291; 1695183700; 1986661051; 2177026350; 2456956037;
   2730485921; 2820302411; 3259730800; 3345764771; 3516065817; 3600352804; 4094571909; 275423344;
   430227734; 506948616; 659060556; 883997877; 958139571; 1322822218; 1537002063; 1747873779;
   1955562222; 2024104815; 2227730452; 2361852424; 2428436474; 2756734187; 3204031479; 3329325298].

(** The chaining value: eight words. *)
Record sha_state := mkSha { sa : Z; sb : Z; sc : Z; sd : Z; se : Z; sf : Z; sg : Z; sh : Z }.
Definition sha_init : sha_state :=
  mkSha 1779033703 3144134277 1013904242 2773480762 1359893119 2600822924 528734635 1541459225.

Definition big_sigma0 (x : Z) : Z := Z.lxor (rotr 2 x) (Z.lxor (rotr 13 x) (rotr 22 x)).
Definition big_sigma1 (x : Z) : Z := Z.lxor (rotr 6 x) (Z.lxor (rotr 11 x) (rotr 25 x)).
Definition small_sigma0 (x : Z) : Z := Z.lxor (rotr 7 x) (Z.lxor (rotr 18 x) (Z.shiftr x 3)).
Definition small_sigma1 (x : Z) : Z := Z.lxor (rotr 17 x) (Z.lxor (rotr 19 x) (Z.shiftr x 10)).
Definition sha_ch (x y z : Z) : Z := Z.lxor (Z.land x y) (Z.land (not32 x) z).
Definition sha_maj (x y z : Z) : Z := Z.lxor (Z.land x y) (Z.lxor (Z.land x z) (Z.land y z)).

(** The message schedule, latest word first. *)
Fixpoint schedule (n : nat) (rev_w : list Z) : list Z :=
  match n with
  | O => rev_w
  | S n =>
      let at_ i := nth i rev_w 0 in
      let w := add32 (add32 (small_sigma1 (at_ 1%nat)) (at_ 6%nat))
                 (add32 (small_sigma0 (at_ 14%nat)) (at_ 15%nat)) in
      schedule n (w :: rev_w)
  end.

Definition sha_round (s : sha_state) (kw : Z * Z) : sha_state :=
  let t1 := add32 (add32 (sh s) (big_sigma1 (se s)))
              (add32 (sha_ch (se s) (sf s) (sg s)) (add32 (fst kw) (snd kw))) in
  let t2 := add32 (big_sigma0 (sa s)) (sha_maj (sa s) (sb s) (sc s)) in
  mkSha (add32 t1 t2) (sa s) (sb s) (sc s) (add32 (sd s) t1) (se s) (sf s) (sg s).

Definition sha_block (s : sha_state) (block : list Z) : sha_state :=
  let w := rev (schedule 48 (rev block)) in
  let r := fold_left sha_round (combine sha_K w) s in
  mkSha (add32 (sa s) (sa r)) (add32 (sb s) (sb r)) (add32 (sc s) (sc r)) (add32 (sd s) (sd r))
    (add32 (se s) (se r)) (add32 (sf s) (sf r)) (add32 (sg s) (sg r)) (add32 (sh s) (sh r)).

(** Padding to a multiple of 64 bytes. *)
Definition sha_pad (l : list ascii) : list ascii :=
  let n := Z.of_nat (length l) in
  let zeros := Z.to_nat ((55 - n) mod 64) in
  l ++ ["128"%char] ++ repeat "000"%char zeros
    ++ word_bytes (w32 (Z.shiftr (8 * n) 32)) ++ word_bytes (w32 (8 * n)).

Fixpoint sha_blocks (n : nat) (ws : list Z) (s : sha_state) : sha_state :=
  match n with
  | O => s
  | S n => match ws with
           | [] => s
           | _ => sha_blocks n (drop 16 ws) (sha_block s (take 16 ws))
           end
  end.

Definition sha_digest (s : sha_state) : list ascii :=
  concat (map word_bytes [sa s; sb s; sc s; sd s; se s; sf s; sg s; sh s]).

(** [hashlib.sha256(b).digest()] *)
Definition sha256_list (l : list ascii) : list ascii :=
  let ws := words_of (sha_pad l) in sha_digest (sha_blocks (length ws) ws sha_init).
Definition sha256 (b : bytes) : bytes :=
  string_of_list_ascii (sha256_list (list_ascii_of_string b)).

(** [.hexdigest()] of a digest. *)
Definition hexdigest (b : bytes) : str := string_flat_map hex2 b.

(** ** HMAC *)

Definition xor_byte (n : Z) (c : ascii) : ascii := byte_of_Z (Z.lxor n (Z_of_byte c)).

(** [hmac.new(key, msg, hashlib.sha256).digest()] *)
Definition hmac_sha256 (key msg : bytes) : bytes :=
  let k := list_ascii_of_string key in
  let k := if (64 <? length k)%nat then sha256_list k else k in
  let k := k ++ repeat "000"%char (64 - length k) in
  let inner := sha256_list (map (xor_byte 54) k ++ list_ascii_of_string msg) in
  string_of_list_ascii (sha256_list (map (xor_byte 92) k ++ inner)).

(** ** BLAKE2b *)

Definition w64 (z : Z) : Z := Z.land z 18446744073709551615.
Definition add64 (a b : Z) : Z := w64 (a + b).
Definition rotr64 (n x : Z) : Z := Z.lor (Z.shiftr x n) (w64 (Z.shiftl x (64 - n))).

Definition blake_IV : list Z :=
  [7640891576956012808; 13503953896175478587; 4354685564936845355; 11912009170470909681;
   5840696475078001361; 11170449401992604703; 2270897969802886507; 6620516959819538809].

(** The message schedule: one permutation per round, reused after the tenth. *)
Definition blake_sigma : list (list nat) :=
  ([[0; 1; 2; 3; 4; 5; 6; 7; 8; 9; 10; 11; 12; 13; 14; 15];
   [14; 10; 4; 8; 9; 15; 13; 6; 1; 12; 0; 2; 11; 7; 5; 3];
   [11; 8; 12; 0; 5; 2; 15; 13; 10; 14; 3; 6; 7; 1; 9; 4];
   [7; 9; 3; 1; 13; 12; 11; 14; 2; 6; 5; 10; 4; 0; 15; 8];
   [9; 0; 5; 7; 2; 4; 10; 15; 14; 1; 11; 12; 6; 8; 3; 13];
   [2; 12; 6; 10; 0; 11; 8; 3; 4; 13; 7; 5; 15; 14; 1; 9];
   [12; 5; 1; 15; 14; 13; 4; 10; 0; 7; 6; 3; 9; 2; 8; 11];
   [13; 11; 7; 14; 12; 1; 3; 9; 5; 0; 15; 4; 8; 6; 2; 10];
   [6; 15; 14; 9; 11; 3; 0; 8; 12; 2; 13; 7; 1; 4; 10; 5];
   [10; 2; 8; 4; 7; 6; 1; 5; 15; 11; 9; 14; 3; 12; 13; 0]]%nat).

Definition at64 (v : list Z) (i : nat) : Z := nth i v 0.

(** One quarter round on the working vector. *)
Definition blake_G (a b c d : nat) (x y : Z) (v : list Z) : list Z :=
  let va := add64 (add64 (at64 v a) (at64 v b)) x in
  let vd := rotr64 32 (Z.lxor (at64 v d) va) in
  let vc := add64 (at64 v c) vd in
  let vb := rotr64 24 (Z.lxor (at64 v b) vc) in
  let va := add64 (add64 va vb) y in
  let vd := rotr64 16 (Z.lxor vd va) in
  let vc := add64 vc vd in
  let vb := rotr64 63 (Z.lxor vb vc) in
  <[a := va]> (<[b := vb]> (<[c := vc]> (<[d := vd]> v))).

Definition blake_round (m : list Z) (v : list Z) (s : list nat) : list Z :=
  let x i := at64 m (nth i s 0%nat) in
  let v := blake_G 0 4 8 12 (x 0%nat) (x 1%nat) v in
  let v := blake_G 1 5 9 13 (x 2%nat) (x 3%nat) v in
  let v := blake_G 2 6 10 14 (x 4%nat) (x 5%nat) v in
  let v := blake_G 3 7 11 15 (x 6%nat) (x 7%nat) v in
  let v := blake_G 0 5 10 15 (x 8%nat) (x 9%nat) v in
  let v := blake_G 1 6 11 12 (x 10%nat) (x 11%nat) v in
  let v := blake_G 2 7 8 13 (x 12%nat) (x 13%nat) v in
  blake_G 3 4 9 14 (x 14%nat) (x 15%nat) v.

(** Compression: [t] bytes absorbed so far, [last] on the final block. *)
Definition blake_F (h m : list Z) (t : Z) (last : bool) : list Z :=
  let v := h ++ blake_IV in
  let v := <[12%nat := Z.lxor (at64 v 12) (w64 t)]> v in
  let v := <[13%nat := Z.lxor (at64 v 13) (w64 (Z.shiftr t 64))]> v in
  let v := if last then <[14%nat := Z.lxor (at64 v 14) (w64 (-1))]> v else v in
  let v := foldl (blake_round m) v (blake_sigma ++ take 2 blake_sigma) in
  zip_with Z.lxor h (zip_with Z.lxor (take 8 v) (drop 8 v)).

(** Little-endian 64-bit words. *)
Fixpoint le_Z (l : list ascii) : Z :=
  match l with [] => 0 | c :: l => Z_of_byte c + 256 * le_Z l end.
Definition blake_words (block : list ascii) : list Z :=
  map (λ i, le_Z (take 8 (drop (8 * i) block))) (seq 0 16).
Definition le_bytes64 (w : Z) : list ascii :=
  map (λ i, byte_of_Z (Z.shiftr w (8 * Z.of_nat i))) (seq 0 8).

(** All the blocks: a message of exactly one block is a single, final block. *)
Fixpoint blake_blocks (fuel : nat) (h : list Z) (t : Z) (l : list ascii) : list Z :=
  match fuel with
  | O => h
  | S fuel =>
      if (length l <=? 128)%nat then
        let block := l ++ repeat "000"%char (128 - length l) in
        blake_F h (blake_words block) (t + Z.of_nat (length l)) true
      else
        blake_blocks fuel (blake_F h (blake_words (take 128 l)) (t + 128) false) (t + 128)
          (drop 128 l)
  end.

(** [hashlib.blake2b(msg, digest_size=n).digest()], without a key.  Each step
    consumes 128 bytes, so the length of the message is fuel enough. *)
Definition blake2b (n : nat) (msg : bytes) : bytes :=
  let l := list_ascii_of_string msg in
  let h := <[0%nat := Z.lxor (at64 blake_IV 0) (Z.lxor 16842752 (Z.of_nat n))]> blake_IV in
  let h := blake_blocks (S (length l)) h 0 l in
  string_of_list_ascii (take n (flat_map le_bytes64 h)).

(** ** Facts *)

(** More fuel than the length of the message does not change the digest. *)
Lemma blake_blocks_fuel fuel fuel' h t l :
  (length l < fuel)%nat → (length l < fuel')%nat →
  blake_blocks fuel h t l = blake_blocks fuel' h t l.
Proof.
  revert fuel' h t l. induction fuel as [|fuel IH]; intros [|fuel'] h t l H H'; try lia.
  simpl. destruct (Nat.leb_spec (length l) 128) as [|Hl]; [done|].
  assert (length (drop 128 l) < length l)%nat by (rewrite length_drop; lia).
  apply IH; lia.
Qed.

Lemma sha_digest_length s : length (sha_digest s) = 32%nat.
Proof. done. Qed.

Lemma string_of_list_length l : String.length (string_of_list_ascii l) = length l.
Proof. induction l; simpl; auto. Qed.

Lemma sha256_length b : String.length (sha256 b) = 32%nat.
Proof. unfold sha256. by rewrite string_of_list_length. Qed.

Lemma hmac_length key msg : String.length (hmac_sha256 key msg) = 32%nat.
Proof. unfold hmac_sha256. by rewrite string_of_list_length. Qed.

(** FIPS 180-4, the messages of one and of two blocks. *)
Example sha256_abc :
  hexdigest (sha256 "abc") = "ba7816bf8f01cfea414140de5dae2223b00361a396177a9cb410ff61f20015ad".
Proof. vm_compute. reflexivity. Qed.

Example sha256_two_blocks :
  hexdigest (sha256 "abcdbcdecdefdefgefghfghighijhijkijkljklmklmnlmnomnopnopq")
  = "248d6a61d20638b8e5c026930c3e6039a33ce45964ff2167f6ecedd419db06c1".
Proof. vm_compute. reflexivity. Qed.

(** RFC 4231, test case 2. *)
Example hmac_jefe :
  hexdigest (hmac_sha256 "Jefe" "what do ya want for nothing?")
  = "5bdcc146bf60754e6a042426089575c75a003f089d2739839dec58b964ec3843".
Proof. vm_compute. reflexivity. Qed.

(** RFC 7693, appendix A, and messages of one full and of two blocks. *)
Example blake2b_abc :
  hexdigest (take_str 16 (blake2b 64 "abc")) = "ba80a53f981c4d0d6a2797b69f12f6e9".
Proof. vm_compute. reflexivity. Qed.

Example blake2b_8_abc : hexdigest (blake2b 8 "abc") = "d8bb14d833d59559".
Proof. vm_compute. reflexivity. Qed.

Example blake2b_8_full_block :
  hexdigest (blake2b 8 (string_of_list_ascii (repeat "a"%char 128))) = "f06643fe9c7e18da".
Proof. vm_compute. reflexivity. Qed.

Example blake2b_8_two_blocks :
  hexdigest (blake2b 8 (string_of_list_ascii (repeat "b"%char 200))) = "19a4bd9f148d0894".
Proof. vm_compute. reflexivity. Qed.
