(* ===== verification/PyText.v ===== *)
(** * Text encodings of the Python standard library

    Decimal numbers and separated fields read back from what printed them,
    [str.split] with a limit, strict UTF-8 decoding, and the [base64] module:
    the URL-safe encoder and CPython's lenient decoder, with the round trips the
    signed tokens rely on. *)

From Stdlib Require Import Ascii String.
From S2P Require Import Prelude PyStr PyVal PyTime Crypto.
Local Open Scope string_scope.
Local Open Scope list_scope.
Local Open Scope Z_scope.

(** ** Reading back decimal numbers *)

Lemma pretty_N_char_decimal n :
  (n < 10)%N → is_decimal (pretty_N_char n) = true ∧ digit_value (pretty_N_char n) = Z.of_N n.
Proof.
  intros Hn. assert (n = 0 ∨ n = 1 ∨ n = 2 ∨ n = 3 ∨ n = 4 ∨ n = 5 ∨ n = 6 ∨ n = 7 ∨ n = 8 ∨ n = 9)%N
    as Hc by lia. by repeat destruct Hc as [->|Hc]; subst.
Qed.

Lemma digits_go_pretty n b s :
  (0 < n)%N → digits_go 0 b (pretty_N_go n s) = digits_go (Z.of_N n) true s.
Proof.
  revert b s. induction (N.lt_wf_0 n) as [n _ IH]; intros b s Hn.
  rewrite pretty_N_go_step by done.
  destruct (pretty_N_char_decimal (n mod 10)) as [Hd Hv]; [by apply N.mod_lt|].
  pose proof (N.div_mod n 10 ltac:(done)) as Hdm.
  destruct (decide (n / 10 = 0)%N) as [Hz|Hz].
  - rewrite Hz in *. rewrite pretty_N_go_0. cbn [digits_go]. rewrite Hd, Hv. f_equal. lia.
  - rewrite IH; [|by apply N.div_lt|by apply N.neq_0_lt_0]. cbn [digits_go]. rewrite Hd, Hv. f_equal. lia.
Qed.

Lemma pretty_go_decimal n s :
  string_forallb is_decimal s = true → string_forallb is_decimal (pretty_N_go n s) = true.
Proof.
  revert s. induction (N.lt_wf_0 n) as [n _ IH]; intros s Hs.
  destruct (decide (n = 0)%N) as [->|Hn]; [done|].
  rewrite pretty_N_go_step by lia. apply IH; [apply N.div_lt; lia|]. simpl.
  rewrite Hs, andb_true_r. by apply pretty_N_char_decimal, N.mod_lt.
Qed.

Lemma str_of_Z_decimal z : 0 ≤ z → string_forallb is_decimal (str_of_Z z) = true.
Proof.
  intros Hz. destruct z as [|p|p]; [done| |lia].
  unfold str_of_Z, pretty, pretty_Z, pretty, pretty_positive, pretty, pretty_N.
  case_decide; [done|]. by apply pretty_go_decimal.
Qed.

Lemma py_int_str_of_Z z : 0 ≤ z → py_int (str_of_Z z) = Some z.
Proof.
  intros Hz. pose proof (str_of_Z_decimal z Hz) as Hd. unfold py_int, strip.
  rewrite strip_by_absent; cycle 1.
  { eapply string_forallb_impl; [|exact Hd]. by intros [[] [] [] [] [] [] [] []]. }
  assert (digits_go 0 false (str_of_Z z) = Some z) as Hg.
  { destruct z as [|p|p]; [done| |lia].
    unfold str_of_Z, pretty, pretty_Z, pretty, pretty_positive, pretty, pretty_N.
    case_decide; [done|]. by rewrite digits_go_pretty. }
  destruct (str_of_Z z) as [|c s]; [done|]. simpl in Hd. apply andb_true_iff in Hd as [Hc _].
  destruct c as [[] [] [] [] [] [] [] []]; done.
Qed.

(** ** Splitting what was joined *)

Definition lacks (c : ascii) (s : str) : bool := string_forallb (λ a, negb (Ascii.eqb a c)) s.

Lemma lacks_app c s t : lacks c (s +:+ t) = lacks c s && lacks c t.
Proof. apply string_forallb_app. Qed.

Lemma split_first_at sep s t : lacks sep s = true → split_first sep (s +:+ String sep t) = Some (s, t).
Proof.
  induction s as [|c s IH]; cbn [lacks string_forallb].
  - intros _. rewrite append_nil_l. simpl. by rewrite Ascii.eqb_refl.
  - unfold lacks. simpl. rewrite andb_true_iff, negb_true_iff. intros [Hc Hs].
    rewrite ?append_cons. simpl. by rewrite Hc, IH.
Qed.

Lemma split_first_absent sep s : lacks sep s = true → split_first sep s = None.
Proof.
  induction s as [|c s IH]; [done|]. unfold lacks. simpl. rewrite andb_true_iff, negb_true_iff.
  intros [-> Hs]. by rewrite IH.
Qed.

Lemma split_on_absent sep s : lacks sep s = true → split_on sep s = [s].
Proof.
  induction s as [|c s IH]; [done|]. unfold lacks. simpl. rewrite andb_true_iff, negb_true_iff.
  intros [-> Hs]. by rewrite IH.
Qed.

Lemma split_on_at sep s t : lacks sep s = true → split_on sep (s +:+ String sep t) = s :: split_on sep t.
Proof.
  induction s as [|c s IH].
  - intros _. rewrite append_nil_l. simpl. by rewrite Ascii.eqb_refl.
  - unfold lacks. simpl. rewrite andb_true_iff, negb_true_iff. intros [Hc Hs].
    rewrite ?append_cons. simpl. by rewrite Hc, IH.
Qed.

Lemma split_on_join (sep : ascii) (l : list str) :
  l ≠ [] → Forall (λ s, lacks sep s = true) l → split_on sep (join (String sep "") l) = l.
Proof.
  intros Hne Hl. induction Hl as [|s l Hs Hl IH]; [done|]. unfold join in *.
  destruct l as [|t l]; [by apply split_on_absent|].
  change (String.concat (String sep "") (s :: t :: l))
    with (s +:+ String sep "" +:+ String.concat (String sep "") (t :: l)).
  rewrite append_cons, append_nil_l, split_on_at by done. by rewrite IH.
Qed.

Definition word (s : str) : bool := nonempty s && string_forallb (λ a, negb (is_space a)) s.

Lemma split_ws_go_word cur s t :
  string_forallb (λ a, negb (is_space a)) s = true → nonempty (cur +:+ s) = true →
  split_ws_go cur (s +:+ String " " t) = (cur +:+ s) :: split_ws_go "" t.
Proof.
  revert cur. induction s as [|c s IH]; intros cur Hs Hne.
  - rewrite append_nil_l, append_nil_r in *. simpl. by destruct cur.
  - simpl in Hs. rewrite andb_true_iff, negb_true_iff in Hs. destruct Hs as [Hc Hs].
    rewrite ?append_cons. simpl. rewrite Hc, IH, append_assoc, append_cons, append_nil_l; try done.
    destruct cur; by rewrite ?append_assoc, ?append_cons.
Qed.

Lemma split_ws_go_last cur s :
  string_forallb (λ a, negb (is_space a)) s = true → nonempty (cur +:+ s) = true →
  split_ws_go cur s = [cur +:+ s].
Proof.
  revert cur. induction s as [|c s IH]; intros cur Hs Hne.
  - rewrite append_nil_r in *. simpl. by destruct cur.
  - simpl in Hs. rewrite andb_true_iff, negb_true_iff in Hs. destruct Hs as [Hc Hs].
    simpl. rewrite Hc, IH, append_assoc, append_cons, append_nil_l; try done.
    destruct cur; by rewrite ?append_assoc, ?append_cons.
Qed.

Lemma split_ws_join (l : list str) :
  Forall (λ s, word s = true) l → split_ws (join " " l) = l.
Proof.
  intros Hl. unfold split_ws, join. induction Hl as [|s l Hs Hl IH]; [done|].
  unfold word in Hs. rewrite andb_true_iff in Hs. destruct Hs as [Hne Hs].
  destruct l as [|t l]; [by apply split_ws_go_last|].
  change (String.concat " " (s :: t :: l)) with (s +:+ " " +:+ String.concat " " (t :: l)).
  rewrite append_cons, append_nil_l, split_ws_go_word by done. by rewrite IH.
Qed.

(** ** [s.split(sep, n)] *)

Fixpoint split_max (n : nat) (sep : ascii) (s : str) : list str :=
  match n with
  | O => [s]
  | S n => match split_first sep s with
           | Some (a, b) => a :: split_max n sep b
           | None => [s]
           end
  end.

(** ** UTF-8 *)

(** [b.decode("utf-8")], strict.  Lead bytes of code points above U+00FF are
    outside the model. *)
Fixpoint utf8_decode (b : bytes) : py str :=
  match b with
  | "" => Ok ""
  | String c b =>
      if (code c <? 128)%N then s ← utf8_decode b; Ok (String c s)
      else if (code c <? 194)%N || (244 <? code c)%N then Err UnicodeDecodeError
      else if (195 <? code c)%N then Err Unmodelled
      else match b with
           | String d b =>
               if (128 <=? code d)%N && (code d <? 192)%N then
                 s ← utf8_decode b;
                 Ok (String (ascii_of_N ((code c - 192) * 64 + (code d - 128))) s)
               else Err UnicodeDecodeError
           | "" => Err UnicodeDecodeError
           end
  end.

Lemma utf8_decode_char c b : utf8_decode (utf8_char c +:+ b) = (s ← utf8_decode b; Ok (String c s)).
Proof.
  destruct c as [[] [] [] [] [] [] [] []]; cbn; reflexivity.
Qed.

Lemma utf8_decode_utf8 s : utf8_decode (utf8 s) = Ok s.
Proof.
  induction s as [|c s IH]; [done|]. change (utf8 (String c s)) with (utf8_char c +:+ utf8 s).
  by rewrite utf8_decode_char, IH.
Qed.

(** ** Base64 *)

(** The URL-safe alphabet ([-] and [_] for 62 and 63). *)
Definition b64_char (v : Z) : ascii :=
  byte_of_Z (if v <? 26 then 65 + v else if v <? 52 then 97 + (v - 26)
             else if v <? 62 then 48 + (v - 52) else if v =? 62 then 45 else 95).

(** [base64.urlsafe_b64encode]: three bytes to four characters, the last group
    padded. *)
Fixpoint urlsafe_b64encode (b : bytes) : str :=
  match b with
  | "" => ""
  | String x "" =>
      let x := Z_of_byte x in
      String (b64_char (x / 4)) (String (b64_char (x mod 4 * 16)) "==")
  | String x (String y "") =>
      let x := Z_of_byte x in let y := Z_of_byte y in
      String (b64_char (x / 4)) (String (b64_char (x mod 4 * 16 + y / 16))
        (String (b64_char (y mod 16 * 4)) "="))
  | String x (String y (String z b)) =>
      let x := Z_of_byte x in let y := Z_of_byte y in let z := Z_of_byte z in
      String (b64_char (x / 4)) (String (b64_char (x mod 4 * 16 + y / 16))
        (String (b64_char (y mod 16 * 4 + z / 64)) (String (b64_char (z mod 64))
          (urlsafe_b64encode b))))
  end.

(** The decoder's table.  [urlsafe_b64decode] first maps [-] and [_] to [+] and
    [/], so both spellings are accepted. *)
Definition b64_value (c : ascii) : option Z :=
  let n := Z_of_byte c in
  if (65 <=? n) && (n <=? 90) then Some (n - 65)
  else if (97 <=? n) && (n <=? 122) then Some (n - 97 + 26)
  else if (48 <=? n) && (n <=? 57) then Some (n - 48 + 52)
  else if (n =? 43) || (n =? 45) then Some 62
  else if (n =? 47) || (n =? 95) then Some 63
  else None.

(** [binascii.a2b_base64] in its default, non-strict mode: [quad] characters of
    the current group have been read, [left] are the bits left over from them,
    [pads] counts padding characters.  Characters outside the alphabet are
    skipped, a complete group followed by padding ends the input, and an
    incomplete last group raises [binascii.Error], a [ValueError]. *)
Fixpoint a2b_base64 (quad : nat) (left_ : Z) (pads : nat) (s : str) : py bytes :=
  match s with
  | "" => if (quad =? 0)%nat then Ok "" else Err ValueError
  | String c s =>
      if Ascii.eqb c "=" then
        if (2 <=? quad)%nat then
          if (4 <=? quad + Datatypes.S pads)%nat then Ok "" else a2b_base64 quad left_ (Datatypes.S pads) s
        else a2b_base64 quad left_ pads s
      else match b64_value c with
           | None => a2b_base64 quad left_ pads s
           | Some v =>
               match quad with
               | 0%nat => a2b_base64 1 v 0 s
               | 1%nat => r ← a2b_base64 2 (v mod 16) 0 s; Ok (String (byte_of_Z (left_ * 4 + v / 16)) r)
               | 2%nat => r ← a2b_base64 3 (v mod 4) 0 s; Ok (String (byte_of_Z (left_ * 16 + v / 4)) r)
               | _ => r ← a2b_base64 0 0 0 s; Ok (String (byte_of_Z (left_ * 64 + v)) r)
               end
           end
  end.

(** [base64.urlsafe_b64decode] of a [str], which must be ASCII. *)
Definition urlsafe_b64decode (s : str) : py bytes :=
  if string_forallb (λ c, (code c <? 128)%N) s then a2b_base64 0 0 0 s else Err ValueError.

(** [rstrip("=")] *)
Definition is_eq_char (c : ascii) : bool := Ascii.eqb c "=".
Definition rstrip_pad (s : str) : str := rstrip_by is_eq_char s.

(** ["=" * n] *)
Fixpoint repeat_char (n : nat) (c : ascii) : str :=
  match n with O => "" | S n => String c (repeat_char n c) end.

(** The repository's two spellings of unpadded URL-safe base64
    ([_b64]/[b64encode_urlsafe] and their inverses). *)
Definition b64encode_urlsafe (b : bytes) : str := rstrip_pad (urlsafe_b64encode b).
Definition b64decode_urlsafe (s : str) : py bytes :=
  let pad := repeat_char (Z.to_nat ((- Z.of_nat (String.length s)) mod 4)) "=" in
  urlsafe_b64decode (s +:+ pad).

(** *** Round trip *)

Lemma Z_of_byte_range c : 0 ≤ Z_of_byte c < 256.
Proof. unfold Z_of_byte. pose proof (N_ascii_bounded c). lia. Qed.

Lemma byte_of_Z_of_byte c : byte_of_Z (Z_of_byte c) = c.
Proof. by destruct c as [[] [] [] [] [] [] [] []]. Qed.

Definition in_alphabet (c : ascii) : bool :=
  negb (is_eq_char c) && (code c <? 128)%N && negb (Ascii.eqb c ".").

Lemma b64_char_spec v : 0 ≤ v < 64 → b64_value (b64_char v) = Some v ∧ in_alphabet (b64_char v) = true.
Proof.
  intros Hv. assert (v ∈ seqZ 0 64) as Hin by (apply elem_of_seqZ; lia).
  assert (forallb (λ v, bool_decide (b64_value (b64_char v) = Some v) && in_alphabet (b64_char v)) (seqZ 0 64) = true)
    as HF by (vm_compute; done).
  rewrite forallb_forall in HF. specialize (HF v). rewrite <- list_elem_of_In in HF.
  specialize (HF Hin). by rewrite andb_true_iff, bool_decide_eq_true in HF.
Qed.

Lemma bytes3_ind (P : bytes → Prop) :
  P "" → (∀ x, P (String x "")) → (∀ x y, P (String x (String y ""))) →
  (∀ x y z b, P b → P (String x (String y (String z b)))) → ∀ b, P b.
Proof. intros H0 H1 H2 H3. fix IH 1. intros [|x [|y [|z b]]]; [exact H0|apply H1|apply H2|apply H3, IH].
Qed.

Lemma in_alphabet_eq c : in_alphabet c = true → Ascii.eqb c "=" = false.
Proof. unfold in_alphabet, is_eq_char. destruct (Ascii.eqb c "="); done. Qed.

(** One character of the alphabet read by the decoder. *)
Lemma a2b_step quad left_ pads v s :
  0 ≤ v < 64 →
  a2b_base64 quad left_ pads (String (b64_char v) s) =
    match quad with
    | 0%nat => a2b_base64 1 v 0 s
    | 1%nat => r ← a2b_base64 2 (v mod 16) 0 s; Ok (String (byte_of_Z (left_ * 4 + v / 16)) r)
    | 2%nat => r ← a2b_base64 3 (v mod 4) 0 s; Ok (String (byte_of_Z (left_ * 16 + v / 4)) r)
    | _ => r ← a2b_base64 0 0 0 s; Ok (String (byte_of_Z (left_ * 64 + v)) r)
    end.
Proof.
  intros Hv. destruct (b64_char_spec v Hv) as [H1 H2]. cbn [a2b_base64].
  by rewrite (in_alphabet_eq _ H2), H1.
Qed.

Lemma byte_eq (z : Z) (c : ascii) : z = Z_of_byte c → byte_of_Z z = c.
Proof. intros ->. apply byte_of_Z_of_byte. Qed.

Ltac b64_arith :=
  repeat match goal with
  | c : ascii |- _ =>
      let H := fresh in pose proof (Z_of_byte_range c) as H; revert H; generalize (Z_of_byte c);
      clear c; intros
  end; Z.to_euclidean_division_equations; lia.

Lemma a2b_encode b : a2b_base64 0 0 0 (urlsafe_b64encode b) = Ok b.
Proof.
  induction b as [|x|x y|x y z b IH] using bytes3_ind; [done|..]; cbn [urlsafe_b64encode];
    rewrite !a2b_step by b64_arith; cbn [a2b_base64 mbind res_bind]; rewrite ?IH; cbn;
    repeat f_equal; apply byte_eq; b64_arith.
Qed.

(** The encoder's output is characters of the alphabet, then the padding that
    completes the last group. *)
Lemma encode_shape b :
  ∃ body, urlsafe_b64encode b =
            body +:+ repeat_char (Z.to_nat ((- Z.of_nat (String.length body)) mod 4)) "=" ∧
          string_forallb in_alphabet body = true.
Proof.
  assert (∀ v s, 0 ≤ v < 64 → string_forallb in_alphabet s = true →
            string_forallb in_alphabet (String (b64_char v) s) = true) as Hcons.
  { intros v s Hv Hs. cbn [string_forallb]. by rewrite (proj2 (b64_char_spec v Hv)). }
  induction b as [|x|x y|x y z b (body & IH & Hb)] using bytes3_ind; cbn [urlsafe_b64encode].
  - by exists "".
  - eexists (String _ (String _ "")). split; [reflexivity|]. apply Hcons; [|apply Hcons; [|done]]; b64_arith.
  - eexists (String _ (String _ (String _ ""))). split; [reflexivity|].
    apply Hcons; [|apply Hcons; [|apply Hcons; [|done]]]; b64_arith.
  - eexists (String _ (String _ (String _ (String _ body)))). split.
    + rewrite !append_cons, IH. cbn [String.length].
      assert (∀ n, (- Z.of_nat (Datatypes.S (Datatypes.S (Datatypes.S (Datatypes.S n))))) mod 4 =
                   (- Z.of_nat n) mod 4) as -> by (intros n; Z.to_euclidean_division_equations; lia).
      done.
    + apply Hcons; [|apply Hcons; [|apply Hcons; [|apply Hcons; [|done]]]]; b64_arith.
Qed.

Lemma rstrip_by_repeat p c n s :
  p c = true → string_forallb (λ a, negb (p a)) s = true → rstrip_by p (s +:+ repeat_char n c) = s.
Proof.
  intros Hc Hs. induction s as [|a s IH].
  - rewrite append_nil_l. induction n as [|n IHn]; [done|]. simpl. by rewrite IHn, Hc.
  - simpl in Hs. rewrite andb_true_iff, negb_true_iff in Hs. destruct Hs as [Ha Hs].
    rewrite append_cons. simpl. rewrite IH by done. by destruct s; rewrite ?Ha.
Qed.

(** What [b64encode_urlsafe] prints holds no padding, no dot and no separator. *)
Lemma b64_chars b : string_forallb in_alphabet (b64encode_urlsafe b) = true.
Proof.
  destruct (encode_shape b) as (body & He & Hb). unfold b64encode_urlsafe, rstrip_pad.
  rewrite He, rstrip_by_repeat; [done|done|]. eapply string_forallb_impl, Hb.
  intros c Hc. unfold in_alphabet in Hc. by destruct (is_eq_char c).
Qed.

Lemma b64_roundtrip b : b64decode_urlsafe (b64encode_urlsafe b) = Ok b.
Proof.
  destruct (encode_shape b) as (body & He & Hb).
  assert (b64encode_urlsafe b = body) as ->.
  { unfold b64encode_urlsafe, rstrip_pad. rewrite He. apply rstrip_by_repeat; [done|].
    eapply string_forallb_impl, Hb. intros c Hc. unfold in_alphabet in Hc. by destruct (is_eq_char c). }
  unfold b64decode_urlsafe, urlsafe_b64decode. rewrite <- He, a2b_encode.
  rewrite He, string_forallb_app. rewrite (string_forallb_impl in_alphabet _ body); [|..|done]; cycle 1.
  { intros c. unfold in_alphabet. by destruct (code c <? 128)%N; rewrite ?andb_false_r. }
  assert (∀ n, string_forallb (λ c, (code c <? 128)%N) (repeat_char n "=") = true) as ->; [|done].
  intros n. by induction n.
Qed.

Lemma b64_lacks_dot b : lacks "." (b64encode_urlsafe b) = true.
Proof.
  eapply string_forallb_impl, b64_chars. intros c. unfold in_alphabet.
  by destruct (Ascii.eqb c "."); rewrite ?andb_false_r.
Qed.
(** A number has no other characters than digits and underscores. *)
Lemma digits_go_chars s acc b z :
  digits_go acc b s = Some z → string_forallb (λ c, is_decimal c || Ascii.eqb c "_") s = true.
Proof.
  revert s acc b z. fix IH 1. intros [|c s] acc b z H; [done|]. cbn [digits_go string_forallb] in *.
  destruct (is_decimal c); [exact (IH s _ _ _ H)|]. simpl.
  destruct (Ascii.eqb c "_"); [|done]. destruct b; [|done].
  destruct s as [|d s]; [done|]. cbn [string_forallb]. destruct (is_decimal d); [|done]. exact (IH s _ _ _ H).
Qed.

Lemma lstrip_existsb p q s :
  (∀ c, q c = true → p c = false) → string_existsb q (lstrip_by p s) = string_existsb q s.
Proof.
  intros H. induction s as [|c s IH]; [done|]. cbn [lstrip_by].
  destruct (p c) eqn:Hp; [|done]. rewrite IH. cbn [string_existsb].
  destruct (q c) eqn:Hq; [|done]. specialize (H c Hq). congruence.
Qed.

Lemma rstrip_existsb p q s :
  (∀ c, q c = true → p c = false) → string_existsb q (rstrip_by p s) = string_existsb q s.
Proof.
  intros H. induction s as [|c s IH]; [done|]. cbn [rstrip_by string_existsb]. rewrite <- IH.
  destruct (rstrip_by p s); [|done]. destruct (p c) eqn:Hp; [|done].
  simpl. destruct (q c) eqn:Hq; [|done]. specialize (H c Hq). congruence.
Qed.

Lemma py_int_rejects c s :
  has_char c s = true → is_space c = false → is_decimal c || Ascii.eqb c "_" = false →
  Ascii.eqb c "-" || Ascii.eqb c "+" = false → py_int s = None.
Proof.
  intros Hc Hsp Hd Hs. unfold py_int.
  assert (has_char c (strip s) = true) as Hc'.
  { unfold has_char, strip, strip_by in *.
    rewrite rstrip_existsb, lstrip_existsb; [done|..]; by intros a <-%Ascii.eqb_eq. }
  assert (∀ t, has_char c t = true → digits_go 0 false t = None) as Hg.
  { intros t Ht. destruct (digits_go 0 false t) eqn:He; [|done]. apply digits_go_chars in He.
    unfold has_char in Ht. exfalso. clear -He Ht Hd. induction t as [|a t IH]; [done|].
    simpl in *. apply andb_true_iff in He as [He1 He2]. apply orb_true_iff in Ht as [<-%Ascii.eqb_eq|Ht]; auto.
    congruence. }
  assert (∀ a t, has_char c (String a t) = true → Ascii.eqb c a = false → has_char c t = true) as Ht.
  { intros a t. unfold has_char. simpl. intros H1 H2. by rewrite H2 in H1. }
  apply orb_false_iff in Hs as [Hm Hp]. revert Hc'. generalize (strip s). intros [|a t] Hc'; [done|].
  destruct (Ascii.eqb_spec a "-") as [->|Hn1]; [by rewrite Hg by eauto|].
  destruct (Ascii.eqb_spec a "+") as [->|Hn2]; [by rewrite Hg by eauto|].
  rewrite <- (Hg (String a t) Hc'). destruct a as [[] [] [] [] [] [] [] []]; done.
Qed.

Lemma utf8_pair c d :
  (code c <? 194)%N || (244 <? code c)%N = false → (195 <? code c)%N = false →
  (128 <=? code d)%N && (code d <? 192)%N = true →
  utf8_char (ascii_of_N ((code c - 192) * 64 + (code d - 128))) = String c (String d "").
Proof.
  intros Hc1 Hc2 Hd. assert (c = ascii_of_N 194 ∨ c = ascii_of_N 195) as Hc.
  { rewrite <- (ascii_N_embedding c). fold (code c). assert (code c = 194 ∨ code c = 195)%N as [-> | ->]; auto.
    rewrite orb_false_iff, N.ltb_ge in Hc1. rewrite N.ltb_ge in Hc2. lia. }
  destruct Hc as [-> | ->]; destruct d as [[] [] [] [] [] [] [] []]; vm_compute in Hd; done.
Qed.

(** Strict decoding is inverse to encoding: no other bytes decode to [s]. *)
Lemma utf8_decode_inv b s : utf8_decode b = Ok s → b = utf8 s.
Proof.
  revert b s. fix IH 1. intros [|c b] s; cbn [utf8_decode]; [by intros [= <-]|].
  destruct (code c <? 128)%N eqn:Hc.
  { intros (t & Ht & [= <-])%res_bind_ok. rewrite (IH b t Ht).
    change (utf8 (String c t)) with (utf8_char c +:+ utf8 t). unfold utf8_char. by rewrite Hc. }
  destruct ((code c <? 194)%N || (244 <? code c)%N) eqn:Hc1; [done|].
  destruct (195 <? code c)%N eqn:Hc2; [done|]. destruct b as [|d b]; [done|].
  destruct ((128 <=? code d)%N && (code d <? 192)%N) eqn:Hd; [|done].
  intros (t & Ht & [= <-])%res_bind_ok. rewrite (IH b t Ht). clear IH Ht.
  change (utf8 (String ?x t)) with (utf8_char x +:+ utf8 t). by rewrite (utf8_pair c d).
Qed.

(** Surrounding white space is gone after one [strip]. *)
Lemma rstrip_idem p s : rstrip_by p (rstrip_by p s) = rstrip_by p s.
Proof.
  induction s as [|c s IH]; [done|]. cbn [rstrip_by]. destruct (rstrip_by p s) eqn:Hr.
  - destruct (p c) eqn:Hc; [done|]. cbn [rstrip_by]. by rewrite Hc.
  - rewrite <- Hr in *. cbn [rstrip_by]. rewrite IH, Hr. done.
Qed.

Definition head_ok (p : ascii → bool) (s : str) : bool :=
  match s with "" => true | String c _ => negb (p c) end.
Lemma lstrip_head p s : head_ok p (lstrip_by p s) = true.
Proof. induction s as [|c s IH]; [done|]. simpl. destruct (p c) eqn:Hc; [done|]. simpl. by rewrite Hc. Qed.
Lemma lstrip_ok p s : head_ok p s = true → lstrip_by p s = s.
Proof. destruct s as [|c s]; [done|]. simpl. by destruct (p c). Qed.
Lemma rstrip_head p s : head_ok p s = true → head_ok p (rstrip_by p s) = true.
Proof.
  destruct s as [|c s]; [done|]. simpl. intros Hc. destruct (rstrip_by p s); [|done].
  destruct (p c) eqn:Hp; [done|]. simpl. by rewrite Hp.
Qed.

Lemma strip_strip s : strip (strip s) = strip s.
Proof.
  unfold strip, strip_by. rewrite lstrip_ok; [apply rstrip_idem|]. apply rstrip_head, lstrip_head.
Qed.
