(* ===== verification/PyIso.v ===== *)
(** * [datetime.fromisoformat]

    The extended format of the Python standard library, [YYYY-MM-DD] with an
    optional time [HH[:MM[:SS[.f]]]] and an optional offset [+HH:MM], and that it
    reads back what [isoformat] writes.  The basic format without separators, week
    dates and offsets of other shapes are outside the model. *)

From Stdlib Require Import Ascii String.
From S2P Require Import Prelude PyStr PyVal PyTime.
Local Open Scope string_scope.
Local Open Scope Z_scope.

(** ** Days of a civil date *)

Definition is_leap (y : Z) : bool := (y mod 4 =? 0) && (negb (y mod 100 =? 0) || (y mod 400 =? 0)).
Definition days_in_month (y m : Z) : Z :=
  if m =? 2 then if is_leap y then 29 else 28
  else if (m =? 4) || (m =? 6) || (m =? 9) || (m =? 11) then 30 else 31.

(** Days since 1970-01-01. *)
Definition days_of_civil (y m d : Z) : Z :=
  let y' := if m <=? 2 then y - 1 else y in
  let era := y' / 400 in
  era * 146097 + doe_of_civil (y - era * 400, m, d) - 719468.

(** ** Scanning *)

Fixpoint read_digits (n : nat) (acc : Z) (s : str) : option (Z * str) :=
  match n with
  | O => Some (acc, s)
  | S n =>
      match s with
      | String c s => if is_decimal c then read_digits n (acc * 10 + digit_value c) s else None
      | "" => None
      end
  end.

(** The text before the first sign, and the rest with the sign. *)
Fixpoint split_sign (s : str) : str * str :=
  match s with
  | "" => ("", "")
  | String c r =>
      if Ascii.eqb c "+" || Ascii.eqb c "-" then ("", s) else let '(a, b) := split_sign r in (String c a, b)
  end.

(** A fraction of a second: at most six digits count. *)
Fixpoint fraction (weight : Z) (s : str) : option Z :=
  match s with
  | "" => Some 0
  | String c r => if is_decimal c then f ← fraction (weight / 10) r; Some (digit_value c * weight + f) else None
  end.

(** Microseconds since midnight. *)
Definition iso_time (s : str) : py Z :=
  match read_digits 2 0 s with
  | None => Err ValueError
  | Some (h, r) =>
      '(m, sec, us) ←
        (match r with
         | "" => Ok (0, 0, 0)
         | String ":" r =>
             match read_digits 2 0 r with
             | None => Err Unmodelled
             | Some (m, "") => Ok (m, 0, 0)
             | Some (m, String ":" r) =>
                 match read_digits 2 0 r with
                 | None => Err Unmodelled
                 | Some (sec, "") => Ok (m, sec, 0)
                 | Some (sec, String c r) =>
                     if (Ascii.eqb c "." || Ascii.eqb c ",") && nonempty r
                     then of_option Unmodelled (us ← fraction 100000 r; Some (m, sec, us))
                     else Err Unmodelled
                 end
             | Some _ => Err Unmodelled
             end
         | _ => Err Unmodelled
         end);
      if (h <? 24) && (m <? 60) && (sec <? 60) then Ok (((h * 60 + m) * 60 + sec) * 1000000 + us)
      else Err ValueError
  end.

(** The offset from UTC in microseconds, [None] for a naive datetime. *)
Definition iso_offset (s : str) : py (option Z) :=
  match s with
  | "" => Ok None
  | String sign r =>
      match read_digits 2 0 r with
      | Some (h, String ":" r) =>
          match read_digits 2 0 r with
          | Some (m, "") =>
              let off := (h * 60 + m) * 60 * 1000000 in
              if off <? us_per_day then Ok (Some (if Ascii.eqb sign "-" then - off else off)) else Err ValueError
          | _ => Err Unmodelled
          end
      | _ => Err Unmodelled
      end
  end.

Definition iso_date (s : str) : py (Z * str) :=
  match read_digits 4 0 s with
  | None => Err ValueError
  | Some (y, String "-" r) =>
      if starts_with "W" r then Err Unmodelled
      else
        match read_digits 2 0 r with
        | Some (m, String "-" r) =>
            match read_digits 2 0 r with
            | Some (d, r) =>
                if (1 <=? y) && (1 <=? m) && (m <=? 12) && (1 <=? d) && (d <=? days_in_month y m)
                then Ok (days_of_civil y m d, r) else Err ValueError
            | None => Err ValueError
            end
        | _ => Err ValueError
        end
  | Some _ => Err Unmodelled
  end.

(** The instant, as if a naive datetime were in UTC, and whether it is aware. *)
Definition fromisoformat (s : str) : py (Z * bool) :=
  '(days, r) ← iso_date s;
  match r with
  | "" | String _ "" => Ok (days * us_per_day, false)
  | String _ r =>
      let '(time, rest) := split_sign r in
      t ← iso_time time;
      off ← iso_offset rest;
      Ok (match off with
          | None => (days * us_per_day + t, false)
          | Some off => (days * us_per_day + t - off, true)
          end)
  end.

Example fromisoformat_example :
  fromisoformat "2023-11-14T23:13:20.5+01:00" = Ok (1700000000500000, true) ∧
  fromisoformat "2024-02-29" = Ok (1709164800000000, false) ∧ fromisoformat "2023-02-29" = Err ValueError.
Proof. split_and!; reflexivity. Qed.

(** ** Reading back what is printed *)

Lemma read_digits_plus n m acc s :
  read_digits (n + m) acc s = '(a, r) ← read_digits n acc s; read_digits m a r.
Proof.
  revert acc s. induction n as [|n IH]; intros acc s; [done|]. simpl. destruct s as [|c s]; [done|].
  by destruct (is_decimal c).
Qed.

Lemma decimal_digit n : 0 ≤ n < 10 → is_decimal (hex_digit (Z.to_N n)) = true ∧ digit_value (hex_digit (Z.to_N n)) = n.
Proof.
  intros Hn. unfold is_decimal, digit_value, code, hex_digit. destruct (N.ltb_spec (Z.to_N n) 10); [|lia].
  rewrite N_ascii_embedding by lia. split; [|lia]. apply andb_true_iff. split; apply N.leb_le; lia.
Qed.

Lemma read_digits_app w z acc t :
  0 ≤ z < 10 ^ Z.of_nat w →
  read_digits w acc (digits_fixed 10 w z +:+ t) = Some (acc * 10 ^ Z.of_nat w + z, t).
Proof.
  revert acc z t. induction w as [|w IH]; intros acc z t Hz.
  { simpl in *. rewrite append_nil_l. do 2 f_equal. lia. }
  rewrite Nat2Z.inj_succ, Z.pow_succ_r in * by lia. replace (S w) with (w + 1)%nat at 1 by lia.
  rewrite read_digits_plus. simpl digits_fixed. rewrite append_assoc, append_cons, append_nil_l, IH.
  - cbn [mbind option_bind read_digits]. destruct (decimal_digit (z mod 10)) as [-> ->]; [apply Z.mod_pos_bound; lia|].
    do 2 f_equal. rewrite (Z.div_mod z 10) at 3 by lia. lia.
  - split; [apply Z.div_pos; lia|apply Z.div_lt_upper_bound; lia].
Qed.

Lemma is_leap_shift y k : is_leap (y + k * 400) = is_leap y.
Proof.
  unfold is_leap. rewrite <- (Z.mod_add y (k * 100) 4), <- (Z.mod_add y (k * 4) 100), <- (Z.mod_add y k 400) by lia.
  replace (k * 100 * 4) with (k * 400) by lia. by replace (k * 4 * 100) with (k * 400) by lia.
Qed.

(** The last day of a year that starts on March 1st exists only before a leap
    day. *)
Lemma last_day_leap yoe doe :
  0 ≤ doe < 146097 → yoe = (doe - doe / 1460 + doe / 36524 - doe / 146096) / 365 →
  doe - (365 * yoe + yoe / 4 - yoe / 100) ≤ (if is_leap (yoe + 1) then 365 else 364).
Proof.
  intros Hd Hy. unfold is_leap.
  destruct (Z.eqb_spec ((yoe + 1) mod 4) 0), (Z.eqb_spec ((yoe + 1) mod 100) 0), (Z.eqb_spec ((yoe + 1) mod 400) 0);
    cbn [andb orb negb]; Z.to_euclidean_division_equations; lia.
Qed.

Lemma civil_of_doe_day doe :
  0 ≤ doe < 146097 → let '(y, m, d) := civil_of_doe doe in d ≤ days_in_month y m.
Proof.
  intros Hdoe. unfold civil_of_doe, days_in_month.
  remember ((doe - doe / 1460 + doe / 36524 - doe / 146096) / 365) as yoe eqn:Hyoe.
  pose proof (last_day_leap yoe doe Hdoe Hyoe) as Hlast.
  assert (0 ≤ doe - (365 * yoe + yoe / 4 - yoe / 100)) as Hd by (clear Hlast; subst yoe; Z.to_euclidean_division_equations; lia).
  remember (doe - (365 * yoe + yoe / 4 - yoe / 100)) as doy eqn:Hdoy. clear Hdoy Hyoe Hdoe doe.
  assert (doy ≤ 365) as Hle by (destruct (is_leap (yoe + 1)); lia).
  remember ((5 * doy + 2) / 153) as mp eqn:Hmp.
  assert (0 ≤ mp ≤ 11 ∧ 153 * mp ≤ 5 * doy + 2 < 153 * mp + 153) as [Hr Hb]
    by (subst mp; Z.to_euclidean_division_equations; lia). clear Hmp.
  assert (mp = 0 ∨ mp = 1 ∨ mp = 2 ∨ mp = 3 ∨ mp = 4 ∨ mp = 5 ∨ mp = 6 ∨ mp = 7 ∨ mp = 8 ∨ mp = 9 ∨ mp = 10 ∨ mp = 11) as Hm by lia.
  repeat destruct Hm as [-> |Hm]; try subst mp; simpl;
    [Z.to_euclidean_division_equations; lia..|]. destruct (is_leap (yoe + 1)); Z.to_euclidean_division_equations; lia.
Qed.

Lemma civil_of_days_valid n :
  let '(y, m, d) := civil_of_days n in
  1 ≤ m ≤ 12 ∧ 1 ≤ d ≤ days_in_month y m ∧ days_of_civil y m d = n.
Proof.
  unfold civil_of_days. pose proof (Z.mod_pos_bound (n + 719468) 146097 ltac:(lia)) as Hb.
  pose proof (civil_of_doe_spec _ Hb) as Hs. pose proof (civil_of_doe_day _ Hb) as Hd.
  destruct (civil_of_doe _) as [[y m] d]. destruct Hs as (Hdoe & _ & Hm & Hd1 & Hy).
  set (q := (n + 719468) / 146097) in *. split_and!; try lia.
  - unfold days_in_month in *. rewrite Z.add_comm, is_leap_shift. done.
  - unfold days_of_civil. assert ((if m <=? 2 then q * 400 + y - 1 else q * 400 + y) / 400 = q) as ->.
    { destruct (m <=? 2); [replace (q * 400 + y - 1) with (y - 1 + q * 400) by lia|rewrite Z.add_comm];
        rewrite Z.div_add, Z.div_small by lia; lia. }
    replace (q * 400 + y - q * 400) with y by lia. rewrite Hdoe.
    pose proof (Z.div_mod (n + 719468) 146097 ltac:(lia)). fold q in H. lia.
Qed.

Lemma split_sign_plain a b :
  string_forallb (λ c, negb (Ascii.eqb c "+" || Ascii.eqb c "-")) a = true →
  split_sign (a +:+ String "+" b) = (a, String "+" b).
Proof.
  induction a as [|c a IH]; intros H; [by rewrite append_nil_l|]. rewrite append_cons. simpl in *.
  apply andb_true_iff in H as [Hc H]. apply negb_true_iff in Hc. by rewrite Hc, IH.
Qed.

Lemma digits_unsigned w z : string_forallb (λ c, negb (Ascii.eqb c "+" || Ascii.eqb c "-")) (digits_fixed 10 w z) = true.
Proof.
  revert z. induction w as [|w IH]; intros z; [done|]. simpl. rewrite string_forallb_app, IH. simpl. rewrite andb_true_r.
  pose proof (Z.mod_pos_bound z 10 ltac:(lia)) as Hb. remember (z mod 10) as n.
  assert (n = 0 ∨ n = 1 ∨ n = 2 ∨ n = 3 ∨ n = 4 ∨ n = 5 ∨ n = 6 ∨ n = 7 ∨ n = 8 ∨ n = 9) as Hn by lia. clear Heqn Hb.
  repeat destruct Hn as [-> |Hn]; try subst; reflexivity.
Qed.

Lemma fraction_digits z : 0 ≤ z < 1000000 → fraction 100000 (digits_fixed 10 6 z) = Some z.
Proof.
  intros Hz. cbn [digits_fixed]. rewrite !append_nil_l, !append_assoc, !append_cons, !append_nil_l.
  assert (∀ n, is_decimal (hex_digit (Z.to_N (n mod 10))) = true ∧ digit_value (hex_digit (Z.to_N (n mod 10))) = n mod 10)
    as Hd by (intros n; apply decimal_digit, Z.mod_pos_bound; lia).
  cbn [fraction]. rewrite !(proj1 (Hd _)), !(proj2 (Hd _)). cbn [mbind option_bind]. f_equal.
  change (100000 / 10) with 10000. change (10000 / 10) with 1000. change (1000 / 10) with 100.
  change (100 / 10) with 10. change (10 / 10) with 1. clear Hd. Z.to_euclidean_division_equations; lia.
Qed.

Lemma read_digits_0 w z t : 0 ≤ z < 10 ^ Z.of_nat w → read_digits w 0 (digits_fixed 10 w z +:+ t) = Some (z, t).
Proof. intros Hz. by rewrite read_digits_app by done. Qed.

Lemma first_year n y m d :
  days_of_civil y m d = n → 1 ≤ m ≤ 12 → 1 ≤ d ≤ 31 → 0 ≤ y → -719162 ≤ n → 1 ≤ y.
Proof.
  intros Hn Hm Hd Hy Hlo. assert (y = 0 ∨ 1 ≤ y) as [-> |] by lia; [|done]. exfalso. revert Hn.
  unfold days_of_civil, doe_of_civil. destruct (Z.leb_spec m 2), (Z.ltb_spec 2 m); try lia;
    Z.to_euclidean_division_equations; lia.
Qed.

Ltac app_cons := rewrite ?append_assoc, ?append_cons, ?append_nil_l.

Lemma iso_date_digits y m d t :
  1 ≤ y < 10000 → 1 ≤ m ≤ 12 → 1 ≤ d ≤ days_in_month y m →
  iso_date (digits_fixed 10 4 y +:+ "-" +:+ digits_fixed 10 2 m +:+ "-" +:+ digits_fixed 10 2 d +:+ t)
  = Ok (days_of_civil y m d, t).
Proof.
  intros Hy Hm Hd. assert (days_in_month y m ≤ 31) as H31.
  { unfold days_in_month. destruct (m =? 2); [destruct (is_leap y); lia|]. destruct (_ || _); lia. }
  unfold iso_date. rewrite read_digits_0 by lia. app_cons.
  assert (starts_with "W" (digits_fixed 10 2 m +:+ String "-" (digits_fixed 10 2 d +:+ t)) = false) as ->.
  { assert (m = 1 ∨ m = 2 ∨ m = 3 ∨ m = 4 ∨ m = 5 ∨ m = 6 ∨ m = 7 ∨ m = 8 ∨ m = 9 ∨ m = 10 ∨ m = 11 ∨ m = 12) as Hc by lia.
    repeat destruct Hc as [-> |Hc]; try subst m; reflexivity. }
  rewrite read_digits_0 by lia. rewrite read_digits_0 by lia.
  rewrite !(proj2 (Z.leb_le _ _)) by lia. done.
Qed.

Lemma iso_time_digits us :
  0 ≤ us < us_per_day →
  let s := us / 1000000 in let frac := us mod 1000000 in
  iso_time (digits_fixed 10 2 (s / 3600) +:+ ":" +:+ digits_fixed 10 2 (s / 60 mod 60) +:+ ":" +:+
    digits_fixed 10 2 (s mod 60) +:+ (if frac =? 0 then "" else "." +:+ digits_fixed 10 6 frac)) = Ok us.
Proof.
  intros Hus s frac. unfold us_per_day in Hus.
  assert (0 ≤ s < 86400 ∧ 0 ≤ frac < 1000000 ∧ us = s * 1000000 + frac) as (Hs & Hf & Heq)
    by (unfold s, frac; Z.to_euclidean_division_equations; lia). clearbody s frac.
  assert (0 ≤ s / 3600 < 24 ∧ 0 ≤ s / 60 mod 60 < 60 ∧ 0 ≤ s mod 60 < 60 ∧ s = (s / 3600 * 60 + s / 60 mod 60) * 60 + s mod 60)
    as (H1 & H2 & H3 & H4) by (Z.to_euclidean_division_equations; lia).
  remember (s / 3600) as h. remember (s / 60 mod 60) as m. remember (s mod 60) as sec.
  unfold iso_time. rewrite read_digits_0 by lia. app_cons. rewrite read_digits_0 by lia.
  rewrite read_digits_0 by lia.
  destruct (Z.eqb_spec frac 0) as [->|Hne].
  - cbn [mbind res_bind]. rewrite !(proj2 (Z.ltb_lt _ _)) by lia. cbn [andb]. f_equal. lia.
  - app_cons. cbn [Ascii.eqb Bool.eqb orb andb]. rewrite <- (append_nil_r (digits_fixed 10 6 frac)) at 1.
    assert (nonempty (digits_fixed 10 6 frac) = true) as Hn.
    { pose proof (digits_length 10 6 frac). by destruct (digits_fixed 10 6 frac). }
    rewrite append_nil_r, Hn, fraction_digits by lia. cbn [mbind res_bind option_bind of_option].
    rewrite !(proj2 (Z.ltb_lt _ _)) by lia. cbn [andb]. f_equal. lia.
Qed.

(** What [isoformat] writes is read back as the same instant. *)
Theorem fromisoformat_isoformat t : datetime_ok t → fromisoformat (isoformat t) = Ok (t, true).
Proof.
  intros Ht. unfold isoformat. pose proof (civil_range t Ht) as Hr. pose proof (civil_of_days_valid (t / us_per_day)) as Hv.
  destruct (civil_of_days _) as [[y m] d]. destruct Hr as (Hy & _ & Hd31), Hv as (Hm & Hd & Hdays).
  pose proof (Z.mod_pos_bound t us_per_day ltac:(done)) as Hus. pose proof (iso_time_digits (t mod us_per_day) Hus) as Htime.
  assert (1 ≤ y) as Hy1.
  { eapply first_year; [done|lia|lia|lia|]. unfold datetime_ok, MINYEAR_us, us_per_day in *. Z.to_euclidean_division_equations; lia. }
  unfold fromisoformat. rewrite iso_date_digits by lia. cbn [mbind res_bind]. rewrite append_cons, append_nil_l.
  cbv zeta in Htime. set (time := digits_fixed 10 2 _ +:+ _) in Htime.
  match goal with |- context [split_sign ?x] => assert (x = time +:+ "+00:00") as -> end.
  { unfold time. by app_cons. }
  assert (split_sign (time +:+ "+00:00") = (time, "+00:00")) as Hsplit.
  { apply (split_sign_plain time "00:00"). unfold time. destruct (_ =? 0); by rewrite !string_forallb_app, !digits_unsigned. }
  destruct (time +:+ "+00:00") as [|c r] eqn:Hx; [by apply (f_equal String.length) in Hx; rewrite append_length in Hx; simpl in Hx; lia|].
  rewrite Hsplit, Htime. cbn [mbind res_bind]. simpl iso_offset. cbn [mbind res_bind]. f_equal. f_equal.
  rewrite Hdays. change (digit_value "0") with 0. pose proof (Z.div_mod t us_per_day ltac:(done)). lia.
Qed.
