(* ===== verification/PyJsonRead.v ===== *)
(** * [json.loads]

    The scanner of the Python standard library, and that it reads back what
    [json.dumps] writes: the configuration of a notification channel is stored
    as the encrypted text of a dictionary and read when an alert is sent.

    The scanner is written with fuel, one unit for a value and one for an item of
    a list or a dictionary.  Twice the length of the text is enough, and
    [json_loads_no_fuel] shows that [json_loads] never runs out. *)

From Stdlib Require Import Ascii String SpecFloat.
From S2P Require Import Prelude PyStr PyVal PyJson Crypto PyText.
Local Open Scope string_scope.
Local Open Scope list_scope.

(** What follows a leading character. *)
Definition cut (c : ascii) (s : str) : option str :=
  match s with String a r => if Ascii.eqb a c then Some r else None | "" => None end.

(** ** Strings *)

Definition escape_char (e : ascii) : option ascii :=
  if Ascii.eqb e dquote || Ascii.eqb e backslash || Ascii.eqb e "/" then Some e
  else if Ascii.eqb e "n" then Some newline
  else if Ascii.eqb e "r" then Some carriage_return
  else if Ascii.eqb e "t" then Some tab
  else if Ascii.eqb e "b" then Some (ascii_of_nat 8)
  else if Ascii.eqb e "f" then Some (ascii_of_nat 12)
  else None.

(** After the opening quote: the string and what follows its closing quote. *)
Fixpoint scanstring (s : str) : py (str * str) :=
  match s with
  | "" => Err ValueError
  | String c s =>
      if Ascii.eqb c dquote then Ok ("", s)
      else if Ascii.eqb c backslash then
        match s with
        | "" => Err ValueError
        | String e s =>
            if Ascii.eqb e "u" then
              match s with
              | String h3 (String h2 (String h1 (String h0 s))) =>
                  match hex_value h3, hex_value h2, hex_value h1, hex_value h0 with
                  | Some d3, Some d2, Some d1, Some d0 =>
                      if (16 * d3 + d2 =? 0)%Z then
                        '(t, r) ← scanstring s; Ok (String (ascii_of_N (Z.to_N (16 * d1 + d0))) t, r)
                      else Err Unmodelled
                  | _, _, _, _ => Err ValueError
                  end
              | _ => Err ValueError
              end
            else
              match escape_char e with
              | Some c => '(t, r) ← scanstring s; Ok (String c t, r)
              | None => Err ValueError
              end
        end
      else if (code c <? 32)%N then Err ValueError
      else '(t, r) ← scanstring s; Ok (String c t, r)
  end.

(** ** Numbers *)

(** The longest prefix of decimal digits. *)
Fixpoint span_digits (s : str) : str * str :=
  match s with
  | "" => ("", "")
  | String c r => if is_decimal c then let '(d, t) := span_digits r in (String c d, t) else ("", s)
  end.

(** The optional fraction and exponent: their digits, and what follows. *)
Definition scan_frac (s : str) : option (str * str) :=
  match cut "." s with
  | Some r => let '(d, t) := span_digits r in if nonempty d then Some (d, t) else None
  | None => None
  end.
Definition scan_exp (s : str) : option (Z * str) :=
  match s with
  | String e r =>
      if Ascii.eqb e "e" || Ascii.eqb e "E" then
        let '(neg, r) := match cut "-" r with
                         | Some r => (true, r) | None => (false, default r (cut "+" r)) end in
        let '(d, t) := span_digits r in
        match digits_go 0 false d with
        | Some n => Some (if neg then (- n)%Z else n, t)
        | None => None
        end
      else None
  | "" => None
  end.

Definition scan_number (s : str) : py (pyval * str) :=
  let '(neg, s) := match cut "-" s with Some r => (true, r) | None => (false, s) end in
  let '(i, r) := match cut "0" s with Some r => ("0", r) | None => span_digits s end in
  if negb (nonempty i) then
    if neg && starts_with "Infinity" s then Ok (PFloat (S754_infinity true), drop_str 8 s)
    else Err ValueError
  else
    let '(frac, r1) := match scan_frac r with Some (d, t) => (Some d, t) | None => (None, r) end in
    let '(ex, r2) := match scan_exp r1 with Some (n, t) => (Some n, t) | None => (None, r1) end in
    match frac, ex with
    | None, None =>
        n ← of_option ValueError (py_int i); Ok (PInt (if neg then (- n)%Z else n), r2)
    | _, _ =>
        n ← of_option ValueError (py_int (i +:+ default "" frac));
        let f := dec_to_float n (default 0 ex - Z.of_nat (String.length (default "" frac)))%Z in
        Ok (PFloat (if neg then SFopp f else f), r2)
    end.

(** ** Values *)

Definition is_json_ws (c : ascii) : bool :=
  Ascii.eqb c " " || Ascii.eqb c tab || Ascii.eqb c newline || Ascii.eqb c carriage_return.
Definition skip_ws (s : str) : str := lstrip_by is_json_ws s.

Definition scan_word (s : str) : py (pyval * str) :=
  if starts_with "null" s then Ok (PNone, drop_str 4 s)
  else if starts_with "true" s then Ok (PBool true, drop_str 4 s)
  else if starts_with "false" s then Ok (PBool false, drop_str 5 s)
  else if starts_with "NaN" s then Ok (PFloat S754_nan, drop_str 3 s)
  else if starts_with "Infinity" s then Ok (PFloat (S754_infinity false), drop_str 8 s)
  else scan_number s.

Fixpoint scan_value (fuel : nat) (s : str) : py (pyval * str) :=
  match fuel with
  | O => Err OutOfFuel
  | S fuel =>
      match s with
      | "" => Err ValueError
      | String c r =>
          if Ascii.eqb c dquote then '(t, r) ← scanstring r; Ok (PStr t, r)
          else if Ascii.eqb c "{" then
            match cut "}" (skip_ws r) with
            | Some r => Ok (PDict [], r)
            | None => '(d, r) ← scan_members fuel [] (skip_ws r); Ok (PDict d, r)
            end
          else if Ascii.eqb c "[" then
            match cut "]" (skip_ws r) with
            | Some r => Ok (PList [], r)
            | None => '(l, r) ← scan_items fuel (skip_ws r); Ok (PList l, r)
            end
          else scan_word s
      end
  end
with scan_items (fuel : nat) (s : str) : py (list pyval * str) :=
  match fuel with
  | O => Err OutOfFuel
  | S fuel =>
      '(v, r) ← scan_value fuel s;
      match cut "]" (skip_ws r), cut "," (skip_ws r) with
      | Some r, _ => Ok ([v], r)
      | None, Some r => '(l, r) ← scan_items fuel (skip_ws r); Ok (v :: l, r)
      | None, None => Err ValueError
      end
  end
with scan_members (fuel : nat) (acc : dict) (s : str) : py (dict * str) :=
  match fuel with
  | O => Err OutOfFuel
  | S fuel =>
      match cut dquote s with
      | None => Err ValueError
      | Some r =>
          '(k, r) ← scanstring r;
          match cut ":" (skip_ws r) with
          | None => Err ValueError
          | Some r =>
              '(v, r) ← scan_value fuel (skip_ws r);
              let acc := dict_set k v acc in
              match cut "}" (skip_ws r), cut "," (skip_ws r) with
              | Some r, _ => Ok (acc, r)
              | None, Some r => scan_members fuel acc (skip_ws r)
              | None, None => Err ValueError
              end
          end
      end
  end.

Definition scan_fuel (s : str) : nat := 2 * String.length s + 2.

Definition json_loads (s : str) : py pyval :=
  let s := skip_ws s in
  '(v, r) ← scan_value (scan_fuel s) s;
  if nonempty (skip_ws r) then Err ValueError else Ok v.

(** On bytes: the encoding is UTF-8 unless a byte-order mark or a zero byte says
    otherwise, which is outside the model. *)
Definition other_encoding (b : bytes) : bool :=
  match b with
  | String a (String b _) =>
      (code a =? 0)%N || (code b =? 0)%N || (254 <=? code a)%N || ((code a =? 239) && (code b =? 187))%N
  | _ => false
  end.
Definition json_loads_bytes (b : bytes) : py pyval :=
  if other_encoding b then Err Unmodelled else utf8_decode b ≫= json_loads.

Local Open Scope nat_scope.

(** ** The scanner consumes its text *)

Lemma lstrip_length p s : String.length (lstrip_by p s) ≤ String.length s.
Proof. induction s as [|c s IH]; simpl; [done|]. destruct (p c); simpl; lia. Qed.
Lemma skip_ws_length s : String.length (skip_ws s) ≤ String.length s.
Proof. apply lstrip_length. Qed.

Lemma cut_length c s r : cut c s = Some r → String.length s = S (String.length r).
Proof. destruct s as [|a s]; simpl; [done|]. destruct (Ascii.eqb a c); [|done]. by intros [= ->]. Qed.

Lemma drop_str_length n s : String.length (drop_str n s) = String.length s - n.
Proof. revert n. induction s as [|c s IH]; intros [|n]; simpl; rewrite ?IH; lia. Qed.

Lemma span_digits_app s : s = (span_digits s).1 +:+ (span_digits s).2.
Proof.
  induction s as [|c s IH]; simpl; [done|]. destruct (is_decimal c); [|done].
  destruct (span_digits s) as [d t]. simpl in *. by rewrite append_cons, <-IH.
Qed.
Lemma span_digits_length s d t :
  span_digits s = (d, t) → String.length t + String.length d = String.length s.
Proof.
  intros H. pose proof (span_digits_app s) as Hs. rewrite H in Hs. simpl in Hs.
  rewrite Hs, append_length. lia.
Qed.

Lemma starts_with_length p s : starts_with p s = true → String.length p ≤ String.length s.
Proof.
  revert s. induction p as [|c p IH]; intros [|d s]; simpl; try (lia || done).
  destruct (ascii_dec c d); [|done]. intros H%IH. lia.
Qed.

Lemma scanstring_length s t r : scanstring s = Ok (t, r) → String.length r < String.length s.
Proof.
  remember (String.length s) as n eqn:Hn. revert s Hn t r.
  induction (lt_wf n) as [n _ IH]. intros s Hn t r.
  assert (∀ s', String.length s' < n → ∀ c, ('(t, r) ← scanstring s'; Ok (String c t, r)) = Ok (t, r) →
    String.length r < n) as Hrec.
  { intros s' Hs c. destruct (scanstring s') as [[t' r']|] eqn:E; simpl; [|done].
    intros [= <- <-]. specialize (IH _ Hs s' eq_refl t' r' E). lia. }
  destruct s as [|c s]; simpl; [done|]. simpl in Hn.
  destruct (Ascii.eqb c dquote); [intros [= <- <-]; lia|].
  destruct (Ascii.eqb c backslash); [|destruct (code c <? 32)%N; [done|apply Hrec; lia]].
  destruct s as [|e s]; [done|]. simpl in Hn. destruct (Ascii.eqb e "u").
  - destruct s as [|? [|? [|? [|? s]]]]; try done. simpl in Hn. repeat case_match; try done. apply Hrec. lia.
  - destruct (escape_char e); [apply Hrec; lia|done].
Qed.

(** Case analysis on the scanners of a goal about lengths. *)
Ltac lens :=
  repeat case_match; simplify_eq; simpl in *;
  repeat match goal with
  | H : cut _ _ = Some _ |- _ => apply cut_length in H; simpl in H
  | H : span_digits _ = _ |- _ => apply span_digits_length in H
  | H : context [default _ (cut ?c ?s)] |- _ => destruct (cut c s) eqn:?; simpl in H
  end; try lia.

Lemma scan_number_length s v r : scan_number s = Ok (v, r) → String.length r < String.length s.
Proof.
  unfold scan_number. intros H.
  destruct (match cut "-" s with Some r => (true, r) | None => (false, s) end) as [neg s1] eqn:E1.
  assert (String.length s1 ≤ String.length s) as L1 by lens.
  destruct (match cut "0" s1 with Some r => ("0", r) | None => span_digits s1 end) as [i r0] eqn:E2.
  assert (String.length r0 + String.length i = String.length s1) as L2 by lens.
  destruct (nonempty i) eqn:Hi; cbn [negb] in H.
  2:{ destruct (neg && starts_with "Infinity" s1) eqn:Ei; [|done]. apply andb_true_iff in Ei as [_ Hs].
      apply starts_with_length in Hs. simpl in Hs. assert (r = drop_str 8 s1) as -> by congruence. rewrite drop_str_length. lia. }
  assert (0 < String.length i) as Li by (by destruct i; simpl in *; [done|lia]).
  destruct (match scan_frac r0 with Some (d, t) => (Some d, t) | None => (None, r0) end) as [frac r1] eqn:E3.
  assert (String.length r1 ≤ String.length r0) as L3.
  { unfold scan_frac in E3. lens. }
  destruct (match scan_exp r1 with Some (n, t) => (Some n, t) | None => (None, r1) end) as [ex r2] eqn:E4.
  assert (String.length r2 ≤ String.length r1) as L4.
  { unfold scan_exp in E4. lens. }
  destruct frac, ex; simpl in H;
    match type of H with context [of_option _ ?o] => destruct o; simpl in H; [|done] end;
    simplify_eq; lia.
Qed.

Lemma scan_word_length s v r : scan_word s = Ok (v, r) → String.length r < String.length s.
Proof.
  unfold scan_word. intros H.
  repeat match type of H with
  | (if starts_with ?w s then _ else _) = _ =>
      destruct (starts_with w s) eqn:Hs;
        [apply starts_with_length in Hs; simpl in Hs;
         match type of H with Ok (_, ?d) = _ => assert (r = d) as -> by congruence end;
         rewrite drop_str_length; lia|clear Hs]
  end.
  by apply scan_number_length in H.
Qed.

Lemma scan_length fuel : ∀ s,
  (∀ v r, scan_value fuel s = Ok (v, r) → String.length r < String.length s) ∧
  (∀ l r, scan_items fuel s = Ok (l, r) → String.length r < String.length s) ∧
  (∀ acc d r, scan_members fuel acc s = Ok (d, r) → String.length r < String.length s).
Proof.
  induction fuel as [|fuel IH]; intros s; [done|].
  split; [|split].
  - intros v r. cbn [scan_value]. destruct s as [|c s]; [done|].
    pose proof (skip_ws_length s).
    destruct (Ascii.eqb c dquote).
    { destruct (scanstring s) as [[t r']|] eqn:E; simpl; [|done]. intros [= <- <-].
      apply scanstring_length in E. lia. }
    destruct (Ascii.eqb c "{").
    { destruct (cut "}" (skip_ws s)) eqn:E; [intros [= <- <-]; apply cut_length in E; simpl; lia|].
      destruct (scan_members fuel [] (skip_ws s)) as [[d r']|] eqn:E2; simpl; [|done]. intros [= <- <-].
      apply IH in E2. lia. }
    destruct (Ascii.eqb c "[").
    { destruct (cut "]" (skip_ws s)) eqn:E; [intros [= <- <-]; apply cut_length in E; simpl; lia|].
      destruct (scan_items fuel (skip_ws s)) as [[d r']|] eqn:E2; simpl; [|done]. intros [= <- <-].
      apply IH in E2. lia. }
    apply scan_word_length.
  - intros l r. cbn [scan_items]. destruct (scan_value fuel s) as [[v r1]|] eqn:E; simpl; [|done].
    apply IH in E. pose proof (skip_ws_length r1).
    destruct (cut "]" (skip_ws r1)) as [r2|] eqn:E1; [intros [= <- <-]; apply cut_length in E1; lia|].
    destruct (cut "," (skip_ws r1)) as [r2|] eqn:E2; [|done]. apply cut_length in E2.
    pose proof (skip_ws_length r2).
    destruct (scan_items fuel (skip_ws r2)) as [[l' r3]|] eqn:E3; simpl; [|done]. intros [= <- <-].
    apply IH in E3. lia.
  - intros acc d r. cbn [scan_members]. destruct (cut dquote s) as [r0|] eqn:E0; [|done]. apply cut_length in E0.
    destruct (scanstring r0) as [[k r1]|] eqn:E1; simpl; [|done]. apply scanstring_length in E1.
    pose proof (skip_ws_length r1). destruct (cut ":" (skip_ws r1)) as [r2|] eqn:E2; [|done]. apply cut_length in E2.
    pose proof (skip_ws_length r2).
    destruct (scan_value fuel (skip_ws r2)) as [[v r3]|] eqn:E3; simpl; [|done]. apply IH in E3.
    pose proof (skip_ws_length r3).
    destruct (cut "}" (skip_ws r3)) as [r4|] eqn:E4; [intros [= <- <-]; apply cut_length in E4; lia|].
    destruct (cut "," (skip_ws r3)) as [r4|] eqn:E5; [|done]. apply cut_length in E5.
    pose proof (skip_ws_length r4). intros E6. apply IH in E6. lia.
Qed.

(** ** The fuel is enough *)

Definition not_fuel (e : pyexc) : Prop := e ≠ OutOfFuel.

Lemma scanstring_errors s : errors_in not_fuel (scanstring s).
Proof.
  remember (String.length s) as n eqn:Hn. revert s Hn.
  induction (lt_wf n) as [n _ IH]. intros s Hn.
  assert (∀ s' c, String.length s' < n → errors_in not_fuel ('(t, r) ← scanstring s'; Ok (String c t, r))) as Hrec.
  { intros s' c Hs. apply errors_bind; [by eapply IH|]. by intros []. }
  destruct s as [|c s]; simpl; [done|]. simpl in Hn.
  destruct (Ascii.eqb c dquote); [done|].
  destruct (Ascii.eqb c backslash); [|destruct (code c <? 32)%N; [done|apply Hrec; lia]].
  destruct s as [|e s]; [done|]. simpl in Hn. destruct (Ascii.eqb e "u").
  - destruct s as [|? [|? [|? [|? s]]]]; try done. simpl in Hn. repeat case_match; try done. apply Hrec. lia.
  - destruct (escape_char e); [apply Hrec; lia|done].
Qed.

Lemma scan_word_errors s : errors_in not_fuel (scan_word s).
Proof.
  unfold scan_word, scan_number. repeat case_match; simplify_eq; try done;
    match goal with |- errors_in _ (of_option _ ?o ≫= _) => by destruct o end.
Qed.

Lemma scan_errors fuel : ∀ s,
  (2 * String.length s < fuel → errors_in not_fuel (scan_value fuel s)) ∧
  (2 * String.length s + 1 < fuel → errors_in not_fuel (scan_items fuel s)) ∧
  (∀ acc, 2 * String.length s + 1 < fuel → errors_in not_fuel (scan_members fuel acc s)).
Proof.
  induction fuel as [|fuel IH]; intros s; [split; [|split]; intros; lia|].
  split; [|split].
  - intros Hf. cbn [scan_value]. destruct s as [|c s]; [done|]. pose proof (skip_ws_length s). simpl in Hf.
    destruct (Ascii.eqb c dquote); [apply errors_bind; [apply scanstring_errors|by intros []]|].
    destruct (Ascii.eqb c "{").
    { destruct (cut "}" (skip_ws s)); [done|]. apply errors_bind; [apply IH; lia|by intros []]. }
    destruct (Ascii.eqb c "[").
    { destruct (cut "]" (skip_ws s)); [done|]. apply errors_bind; [apply IH; lia|by intros []]. }
    apply scan_word_errors.
  - intros Hf. cbn [scan_items]. apply errors_bind; [apply IH; lia|]. intros [v r1] E. apply scan_length in E.
    pose proof (skip_ws_length r1).
    destruct (cut "]" (skip_ws r1)); [done|]. destruct (cut "," (skip_ws r1)) as [r2|] eqn:E2; [|done].
    apply cut_length in E2. pose proof (skip_ws_length r2). apply errors_bind; [apply IH; lia|by intros []].
  - intros acc Hf. cbn [scan_members]. destruct (cut dquote s) as [r0|] eqn:E0; [|done]. apply cut_length in E0.
    apply errors_bind; [apply scanstring_errors|]. intros [k r1] E1. apply scanstring_length in E1.
    pose proof (skip_ws_length r1). destruct (cut ":" (skip_ws r1)) as [r2|] eqn:E2; [|done]. apply cut_length in E2.
    pose proof (skip_ws_length r2). apply errors_bind; [apply IH; lia|]. intros [v r3] E3. apply scan_length in E3.
    pose proof (skip_ws_length r3). destruct (cut "}" (skip_ws r3)); [done|].
    destruct (cut "," (skip_ws r3)) as [r4|] eqn:E5; [|done]. apply cut_length in E5.
    pose proof (skip_ws_length r4). apply IH. lia.
Qed.

Lemma json_loads_no_fuel s : json_loads s ≠ Err OutOfFuel.
Proof.
  enough (errors_in not_fuel (json_loads s)) as H by (intros E; by rewrite E in H).
  unfold json_loads. apply errors_bind; [apply scan_errors; unfold scan_fuel; lia|].
  intros [v r] _. by destruct (nonempty _).
Qed.

(** ** Reading back what [json.dumps] writes *)

Lemma scanstring_char c x : scanstring (json_char c +:+ x) = ('(t, r) ← scanstring x; Ok (String c t, r)).
Proof. by destruct c as [[] [] [] [] [] [] [] []]. Qed.

Lemma scanstring_body s x : scanstring (json_str_body s +:+ String dquote x) = Ok (s, x).
Proof.
  induction s as [|c s IH]; [done|]. by rewrite json_str_body_cons, append_assoc, scanstring_char, IH.
Qed.

Lemma span_digits_all d x :
  string_forallb is_decimal d = true → terminated x → span_digits (d +:+ x) = (d, x).
Proof.
  intros Hd Hx. induction d as [|c d IH].
  - destruct x as [|c x]; [done|]. rewrite append_nil_l. simpl in *.
    assert (is_decimal c = false) as -> by (by destruct c as [[] [] [] [] [] [] [] []]). done.
  - rewrite append_cons. simpl in *. apply andb_true_iff in Hd as [-> Hd]. by rewrite IH.
Qed.

Lemma pretty_N_char_0 n : (0 < n < 10)%N → Ascii.eqb (pretty_N_char n) "0" = false.
Proof. intros Hn. unfold pretty_N_char. by repeat (case_match; try lia; try done). Qed.

Lemma pretty_go_head n s : (0 < n)%N → ∃ c r, pretty_N_go n s = String c r ∧ Ascii.eqb c "0" = false.
Proof.
  revert s. induction (N.lt_wf_0 n) as [n _ IH]; intros s Hn. rewrite pretty_N_go_step by done.
  destruct (decide (n / 10 = 0)%N) as [H0|H0].
  - rewrite H0, pretty_N_go_0. eexists _, _. split; [done|].
    assert (n < 10)%N by (apply N.div_small_iff in H0; lia). rewrite N.mod_small by done. by apply pretty_N_char_0.
  - apply IH; [apply N.div_lt; lia|by apply N.neq_0_lt_0].
Qed.

Lemma decimal_num d : string_forallb is_decimal d = true → string_forallb is_num_char d = true.
Proof.
  induction d as [|c d IH]; [done|]. simpl. intros [Hc Hd]%andb_true_iff. unfold is_num_char at 1.
  by rewrite Hc, IH.
Qed.

Lemma scan_tail x : terminated x → scan_frac x = None ∧ scan_exp x = None.
Proof.
  destruct x as [|c x]; [done|]. simpl. intros Hc. unfold scan_frac, scan_exp. simpl.
  by destruct c as [[] [] [] [] [] [] [] []].
Qed.

(** A non-negative integer, up to the sign. *)
Lemma scan_digits z x :
  (0 ≤ z)%Z → terminated x →
  ∃ c d, str_of_Z z = String c d ∧ is_decimal c = true ∧
  match cut "0" (str_of_Z z +:+ x) with Some r => ("0", r) | None => span_digits (str_of_Z z +:+ x) end
  = (str_of_Z z, x).
Proof.
  intros Hz Hx. pose proof (str_of_Z_decimal z Hz) as Hd.
  destruct (decide (z = 0)%Z) as [->|Hz0]; [by exists "0"%char, ""|].
  assert (∃ c d, str_of_Z z = String c d ∧ Ascii.eqb c "0" = false) as (c & d & Hs & Hc).
  { destruct z as [|p|p]; [done| |lia].
    unfold str_of_Z, pretty, pretty_Z, pretty, pretty_positive, pretty, pretty_N. case_decide; [done|].
    by apply pretty_go_head. }
  exists c, d. split; [done|]. pose proof Hd as Hd'. rewrite Hs in Hd'. simpl in Hd'.
  apply andb_true_iff in Hd' as [Hcd _]. split; [done|].
  assert (cut "0" (str_of_Z z +:+ x) = None) as -> by (rewrite Hs, append_cons; simpl; by rewrite Hc).
  by apply span_digits_all.
Qed.

Lemma scan_number_int z x : terminated x → scan_number (str_of_Z z +:+ x) = Ok (PInt z, x).
Proof.
  intros Hx. destruct (scan_tail x Hx) as [Hfr Hex]. unfold scan_number.
  destruct (decide (0 ≤ z)%Z) as [Hz|Hz].
  - destruct (scan_digits z x Hz Hx) as (c & d & Hs & Hc & Hcut).
    assert (cut "-" (str_of_Z z +:+ x) = None) as ->.
    { rewrite Hs, append_cons. simpl. by destruct c as [[] [] [] [] [] [] [] []]. }
    rewrite Hcut, Hfr, Hex. rewrite (py_int_str_of_Z z) by done. by rewrite Hs.
  - destruct (scan_digits (- z) x ltac:(lia) Hx) as (c & d & Hs & Hc & Hcut).
    assert (str_of_Z z = String "-" (str_of_Z (- z))) as ->.
    { destruct z as [|p|p]; [lia|lia|]. reflexivity. }
    rewrite append_cons.
    change (cut "-" (String "-" ?s)) with (Some s). cbn match. rewrite Hcut, Hfr, Hex.
    rewrite (py_int_str_of_Z (- z)) by lia. rewrite Hs. cbn. do 2 f_equal. f_equal. lia.
Qed.

Lemma scan_word_int z x : terminated x → scan_word (str_of_Z z +:+ x) = Ok (PInt z, x).
Proof.
  intros Hx. rewrite <-scan_number_int by done. unfold scan_word.
  destruct (str_of_Z_nonempty z) as (c & s & -> & Hc). rewrite append_cons. unfold starts_with.
  by destruct c as [[] [] [] [] [] [] [] []].
Qed.

(** The keys of every dictionary are distinct. *)
Fixpoint distinct_keys (v : pyval) : bool :=
  match v with
  | PList l => forallb distinct_keys l
  | PDict d => bool_decide (NoDup d.*1) && forallb (λ kv, distinct_keys kv.2) d
  | _ => true
  end.

(** The values that read back exactly. *)
Definition plain (v : pyval) : Prop := no_float v = true ∧ distinct_keys v = true.

Lemma plain_list l : plain (PList l) → Forall plain l.
Proof.
  intros [Hf Hk]. simpl in *. rewrite forallb_Forall', Forall_forall in *. unfold plain. auto.
Qed.
Lemma plain_dict d : plain (PDict d) → NoDup d.*1 ∧ Forall (λ kv, plain kv.2) d.
Proof.
  intros [Hf Hk]. simpl in *. apply andb_true_iff in Hk as [Hn Hk]. apply bool_decide_eq_true in Hn.
  split; [done|]. rewrite forallb_Forall', Forall_forall in *. unfold plain. auto.
Qed.

Lemma skip_ws_id c s : is_json_ws c = false → skip_ws (String c s) = String c s.
Proof. intros H. unfold skip_ws. simpl. by rewrite H. Qed.
Lemma tag_not_ws c : char_tag c < 7 → is_json_ws c = false.
Proof. destruct c as [[] [] [] [] [] [] [] []]; try done; unfold char_tag; simpl; lia. Qed.
Lemma enc_skip v x : no_float v = true → skip_ws (enc v +:+ x) = enc v +:+ x.
Proof.
  intros Hv. destruct (enc_head v Hv) as (c & s & -> & Hc). rewrite append_cons. apply skip_ws_id, tag_not_ws.
  rewrite Hc. destruct v as [|[]| | | | |]; simpl; lia.
Qed.
Lemma enc_cut v c x : no_float v = true → is_term c = true → cut c (enc v +:+ x) = None.
Proof.
  intros Hv Hc. destruct (enc_head_term v Hv) as (a & s & -> & Ha). rewrite append_cons. simpl.
  destruct (Ascii.eqb_spec a c) as [->|]; [congruence|done].
Qed.
Lemma enc_item_app kv x : enc_item kv +:+ x = String dquote (json_str_body kv.1 +:+ String dquote (String ":" (enc kv.2 +:+ x))).
Proof. unfold enc_item, json_str. by rewrite !append_cons, !append_assoc. Qed.

(** [v] is read back whatever follows it. *)
Definition reads_back (v : pyval) : Prop :=
  ∀ fuel x, terminated x → 2 * String.length (enc v +:+ x) < fuel → scan_value fuel (enc v +:+ x) = Ok (v, x).

Lemma concat_cons2 (a b : str) l : String.concat "," (a :: b :: l) = a +:+ "," +:+ String.concat "," (b :: l).
Proof. done. Qed.

Lemma scan_items_back l x fuel :
  l ≠ [] → Forall plain l → Forall reads_back l →
  2 * String.length (join "," (map enc l) +:+ String "]" x) + 1 < fuel →
  scan_items fuel (join "," (map enc l) +:+ String "]" x) = Ok (l, x).
Proof.
  unfold join. revert fuel. induction l as [|v l IH]; intros fuel Hne Hp Hr Hf; [done|].
  apply Forall_cons in Hp as [[Hv _] Hp], Hr as [Hrv Hr].
  destruct fuel as [|fuel]; [lia|]. cbn [scan_items]. destruct l as [|w l].
  - cbn [map String.concat] in *. rewrite Hrv by (done || lia). done.
  - cbn [map] in *. rewrite concat_cons2, !append_assoc in *. rewrite !append_length in Hf.
    rewrite Hrv by (done || rewrite !append_length; lia). cbn [mbind res_bind].
    rewrite append_cons, append_nil_l. change (skip_ws (String "," ?s)) with (String "," s).
    change (cut "]" (String "," ?s)) with (@None str). change (cut "," (String "," ?s)) with (Some s). cbn match.
    assert (skip_ws (String.concat "," (enc w :: map enc l) +:+ String "]" x) =
            String.concat "," (enc w :: map enc l) +:+ String "]" x) as ->.
    { apply Forall_cons in Hp as [[Hw _] _]. cbn [String.concat]. destruct (map enc l); rewrite ?append_assoc; by apply enc_skip. }
    rewrite IH; [done|done..|]. rewrite !append_length. cbn [String.length] in *. lia.
Qed.

Lemma dict_set_new {A} k (v : A) d : k ∉ d.*1 → dict_set k v d = d ++ [(k, v)].
Proof.
  induction d as [|[j w] d IH]; [done|]. simpl. intros [Hj Hd]%not_elem_of_cons.
  destruct (String.eqb_spec k j); [done|]. by rewrite IH.
Qed.

Lemma skip_ws_item kv d y :
  skip_ws (String.concat "," (enc_item kv :: d) +:+ y) = String.concat "," (enc_item kv :: d) +:+ y.
Proof. by destruct d. Qed.

Lemma scan_members_back d x fuel acc :
  d ≠ [] → NoDup (acc ++ d).*1 → Forall (λ kv, plain kv.2) d → Forall (λ kv, reads_back kv.2) d →
  2 * String.length (join "," (map enc_item d) +:+ String "}" x) + 1 < fuel →
  scan_members fuel acc (join "," (map enc_item d) +:+ String "}" x) = Ok (acc ++ d, x).
Proof.
  unfold join. revert fuel acc. induction d as [|[k v] d IH]; intros fuel acc Hne Hnd Hp Hr Hf; [done|].
  apply Forall_cons in Hp as [[Hv _] Hp], Hr as [Hrv Hr]. simpl in Hv, Hrv.
  assert (k ∉ acc.*1) as Hk.
  { rewrite fmap_app in Hnd. apply NoDup_app in Hnd as (_ & Hd & _). intros Hin. apply (Hd k Hin). by left. }
  destruct fuel as [|fuel]; [lia|]. cbn [scan_members]. destruct d as [|kv d]; cbn [map] in *.
  - cbn [String.concat] in *. rewrite enc_item_app in *. cbn [fst snd String.length] in Hf |- *. rewrite !append_length in Hf. cbn [String.length] in Hf.
    rewrite ?append_length in Hf. cbn [String.length] in Hf.
    change (cut dquote (String dquote ?s)) with (Some s). cbn match. rewrite scanstring_body. cbn [mbind res_bind fst snd].
    change (cut ":" (skip_ws (String ":" ?s))) with (Some s). cbn match. rewrite enc_skip, Hrv by (done || rewrite !append_length; cbn [String.length]; lia).
    cbn. by rewrite dict_set_new.
  - rewrite concat_cons2, !append_assoc in *. rewrite enc_item_app in *. cbn [fst snd String.length] in Hf |- *. rewrite append_length in Hf.
    cbn [String.length] in Hf. rewrite !append_length in Hf.
    change (cut dquote (String dquote ?s)) with (Some s). cbn match. rewrite scanstring_body. cbn [mbind res_bind fst snd].
    change (cut ":" (skip_ws (String ":" ?s))) with (Some s). cbn match.
    rewrite enc_skip, Hrv by (done || rewrite !append_length; cbn [String.length] in *; lia). cbn [mbind res_bind].
    rewrite append_cons, append_nil_l. change (skip_ws (String "," ?s)) with (String "," s).
    change (cut "}" (String "," ?s)) with (@None str). change (cut "," (String "," ?s)) with (Some s). cbn match.
    rewrite dict_set_new by done.
    rewrite skip_ws_item.
    rewrite IH; [by rewrite <-app_assoc|done|by rewrite <-app_assoc|done..|].
    rewrite !append_length. cbn [String.length] in *. lia.
Qed.

Lemma enc_reads_back v : plain v → reads_back v.
Proof.
  induction v as [|b|z|f|s|l IH|d IH] using pyval_rect'; intros Hp [|fuel] x Hx Hf; try lia.
  - cbn [json_enc]. rewrite !append_cons, append_nil_l. by destruct x.
  - destruct b; cbn [json_enc]; rewrite !append_cons, append_nil_l; by destruct x.
  - cbn [scan_value json_enc]. rewrite <-scan_word_int by done.
    destruct (str_of_Z_nonempty z) as (c & s & -> & Hc). rewrite append_cons.
    by destruct c as [[] [] [] [] [] [] [] []].
  - by destruct Hp.
  - cbn [scan_value json_enc]. unfold json_str. rewrite append_cons, append_assoc.
    change (Ascii.eqb dquote dquote) with true. cbn match. by rewrite append_cons, append_nil_l, scanstring_body.
  - apply plain_list in Hp. rewrite enc_list, append_cons, append_assoc in *. cbn [scan_value].
    change (Ascii.eqb "[" dquote) with false. change (Ascii.eqb "[" "{") with false.
    change (Ascii.eqb "[" "[") with true. cbn match. rewrite append_cons, append_nil_l in *.
    destruct l as [|v l]; [done|].
    assert (reads : Forall reads_back (v :: l)).
    { rewrite Forall_forall in *. auto. }
    assert (no_float v = true) as Hv by (by apply Forall_cons in Hp as [[? _] _]).
    assert (∃ y, join "," (map enc (v :: l)) +:+ String "]" x = enc v +:+ y) as [y Hy].
    { unfold join. destruct l; cbn [map]; [by eexists|]. rewrite concat_cons2, append_assoc. by eexists. }
    rewrite Hy, enc_skip, enc_cut by done. rewrite <-Hy.
    rewrite scan_items_back; [done|done..|]. cbn [String.length] in Hf. lia.
  - apply plain_dict in Hp as [Hnd Hp]. rewrite enc_dict, append_cons, append_assoc in *. cbn [scan_value].
    change (Ascii.eqb "{" dquote) with false. change (Ascii.eqb "{" "{") with true. cbn match.
    rewrite append_cons, append_nil_l in *. destruct d as [|kv d]; [done|].
    assert (reads : Forall (λ kv, reads_back kv.2) (kv :: d)).
    { rewrite Forall_forall in *. auto. }
    unfold join. cbn [map]. rewrite skip_ws_item.
    assert (cut "}" (String.concat "," (enc_item kv :: map enc_item d) +:+ String "}" x) = None) as ->
      by (by destruct d).
    pose proof (scan_members_back (kv :: d) x fuel []) as Hback. unfold join in *. cbn [map] in *.
    rewrite Hback; [done|done..|]. cbn [String.length] in Hf. lia.
Qed.

Lemma insert_key_perm {A} k (v : A) d : insert_key k v d ≡ₚ (k, v) :: d.
Proof.
  induction d as [|[j w] d IH]; simpl; [done|]. destruct (String.leb k j); [done|]. rewrite IH. apply Permutation_swap.
Qed.
Lemma sort_items_perm {A} (d : list (str * A)) : sort_items d ≡ₚ d.
Proof. induction d as [|[k v] d IH]; simpl; [done|]. by rewrite insert_key_perm, IH. Qed.

Lemma distinct_keys_sort v : distinct_keys v = true → distinct_keys (sort_keys v) = true.
Proof.
  induction v as [|b|z|f|s|l IH|d IH] using pyval_rect'; simpl; try done.
  - rewrite !forallb_Forall', Forall_map. rewrite !Forall_forall in *. naive_solver.
  - rewrite !andb_true_iff, !bool_decide_eq_true, !forallb_Forall'. intros [Hn Hd].
    assert (Hmap : (map (λ kv : str * pyval, (kv.1, sort_keys kv.2)) d).*1 = d.*1).
    { clear. induction d as [|[k v] d IHd]; simpl; f_equal; auto. }
    rewrite sort_items_perm. split; [by rewrite Hmap|]. rewrite Forall_map. rewrite Forall_forall in *. naive_solver.
Qed.

Lemma plain_sort v : plain v → plain (sort_keys v).
Proof. intros [Hf Hk]. split; [by apply no_float_sort|by apply distinct_keys_sort]. Qed.

Lemma json_loads_canonical v : plain v → json_loads (json_canonical v) = Ok (sort_keys v).
Proof.
  intros Hp. apply plain_sort in Hp as Hs. unfold json_loads, json_canonical, scan_fuel.
  rewrite <-(append_nil_r (enc (sort_keys v))). rewrite enc_skip by apply Hs.
  rewrite enc_reads_back by (done || lia). done.
Qed.

(** The stored text of a dictionary reads back as the dictionary, keys sorted. *)
Lemma json_bytes_roundtrip d : plain (PDict d) → json_loads_bytes (utf8 (json_canonical (PDict d))) = Ok (sort_keys (PDict d)).
Proof.
  intros Hp. unfold json_loads_bytes.
  assert (other_encoding (utf8 (json_canonical (PDict d))) = false) as ->.
  { unfold json_canonical. simpl. destruct (sort_items _) as [|kv [|kv' e]]; reflexivity. }
  by rewrite utf8_decode_utf8; cbn [mbind res_bind]; apply json_loads_canonical.
Qed.
