(* ===== verification/Models.v ===== *)
(** * Models: the shared tables and enumerations (app/models)

    The enumerations and the rows that several services read and write:
    severities, rule actions and the rule-group ceiling ([clamp_action]), rules,
    alerts with their triage state machine, incidents, hosts, policies and
    response commands.  A table is a list of rows; a column that the database
    fills in when the source does not pass it (the tenant, the counters, the
    states) is a default of the [new_*] constructor of its row.  Identifiers
    drawn by [uuid4] and the clock are arguments of the operations that use
    them. *)

From stdpp Require Import base list strings decidable.
From Stdlib Require Import ZArith Lia.
From S2P Require Import Prelude PyStr PyVal PyTime.
Local Open Scope string_scope.
Local Open Scope Z_scope.

Abbreviation uuid := Z (only parsing).
Abbreviation datetime := Z (only parsing).

(** The tenant seeded by the migrations, 00000000-0000-0000-0000-000000000001. *)
Definition DEFAULT_TENANT_ID : uuid := 1.

(** What an operation draws from outside the program: [env_uuid4 n] is the
    identifier drawn for the [n]-th row of a table, [env_now] the clock, and
    [env_audit_key] the key of the audit chain. *)
Record env := mkEnv {
  env_uuid4 : nat → uuid;
  env_now : datetime;
  env_audit_key : option str
}.

(** ** Users and actors *)

Inductive UserRole := ADMIN | ANALYST | VIEWER.
#[global] Instance UserRole_eq_dec : EqDecision UserRole.
Proof. solve_decision. Defined.

(** The authenticated identity of a request; [actor_auth] is its [kind], one of
    user, api_token and scim_token, and the fields of [actor.user] that the
    modelled code reads are inlined. *)
Record Actor := mkActor {
  actor_user_id : uuid;
  actor_role : UserRole;
  actor_auth : str;
  actor_token_id : option uuid;
  actor_scopes : list str;
  actor_tenant_id : uuid;
  actor_is_super_admin : bool
}.

Definition has_role (a : Actor) (roles : list UserRole) : bool :=
  bool_decide (actor_role a ∈ roles).

(** ** Rules *)

Inductive RuleKind := YARA | SIGMA | IOC.
Inductive RuleAction := ALERT | BLOCK | QUARANTINE.
Inductive Severity := INFO | LOW | MEDIUM | HIGH | CRITICAL.
Inductive IocKind := HASH_SHA256 | HASH_MD5 | HASH_SHA1 | FILENAME | FILEPATH.

#[global] Instance RuleKind_eq_dec : EqDecision RuleKind.
Proof. solve_decision. Defined.
#[global] Instance RuleAction_eq_dec : EqDecision RuleAction.
Proof. solve_decision. Defined.
#[global] Instance Severity_eq_dec : EqDecision Severity.
Proof. solve_decision. Defined.
#[global] Instance IocKind_eq_dec : EqDecision IocKind.
Proof. solve_decision. Defined.

Definition RuleKind_value (k : RuleKind) : str :=
  match k with YARA => "yara" | SIGMA => "sigma" | IOC => "ioc" end.
Definition RuleAction_value (a : RuleAction) : str :=
  match a with ALERT => "alert" | BLOCK => "block" | QUARANTINE => "quarantine" end.
Definition Severity_value (s : Severity) : str :=
  match s with
  | INFO => "info" | LOW => "low" | MEDIUM => "medium" | HIGH => "high"
  | CRITICAL => "critical"
  end.
Definition IocKind_value (k : IocKind) : str :=
  match k with
  | HASH_SHA256 => "hash_sha256" | HASH_MD5 => "hash_md5" | HASH_SHA1 => "hash_sha1"
  | FILENAME => "filename" | FILEPATH => "filepath"
  end.

(** [Severity(value)]: the member with that value, [None] for a ValueError. *)
Definition Severity_of (s : str) : option Severity :=
  List.find (λ x, String.eqb (Severity_value x) s) [INFO; LOW; MEDIUM; HIGH; CRITICAL].

Definition ACTION_ORDER (a : RuleAction) : Z :=
  match a with ALERT => 0 | BLOCK => 1 | QUARANTINE => 2 end.

Definition clamp_action (rule_action : RuleAction) (ceiling : option RuleAction) : RuleAction :=
  match ceiling with
  | None => rule_action
  | Some c => if ACTION_ORDER rule_action <=? ACTION_ORDER c then rule_action else c
  end.

Record RuleGroup := mkRuleGroup {
  rg_id : uuid;
  rg_tenant_id : uuid;
  rg_kind : RuleKind;
  rg_name : str;
  rg_description : option str;
  rg_max_action : RuleAction
}.

Record Rule := mkRule {
  rule_id : uuid;
  rule_tenant_id : uuid;
  rule_kind : RuleKind;
  rule_name : str;
  rule_description : option str;
  rule_severity : Severity;
  rule_action : RuleAction;
  rule_enabled : bool;
  rule_group_id : option uuid;
  rule_body : option str;
  rule_revision : Z;
  rule_mitre : option (list str);
  rule_auto_memory_scan : bool
}.

Record IocEntry := mkIocEntry {
  ioc_id : uuid;
  ioc_tenant_id : uuid;
  ioc_rule_id : uuid;
  ioc_kind : IocKind;
  ioc_value : str;
  ioc_value_normalized : str;
  ioc_source_id : option uuid
}.

(** ** Alerts *)

Inductive AlertState := NEW | INVESTIGATING | FALSE_POSITIVE | TRUE_POSITIVE.
#[global] Instance AlertState_eq_dec : EqDecision AlertState.
Proof. solve_decision. Defined.

Definition AlertState_value (s : AlertState) : str :=
  match s with
  | NEW => "new" | INVESTIGATING => "investigating" | FALSE_POSITIVE => "false_positive"
  | TRUE_POSITIVE => "true_positive"
  end.

Definition ALERT_STATE_TRANSITIONS (s : AlertState) : list AlertState :=
  match s with
  | NEW => [INVESTIGATING; FALSE_POSITIVE; TRUE_POSITIVE]
  | INVESTIGATING => [FALSE_POSITIVE; TRUE_POSITIVE; NEW]
  | FALSE_POSITIVE => []
  | TRUE_POSITIVE => []
  end.

Record Alert := mkAlert {
  al_id : uuid;
  al_tenant_id : uuid;
  al_host_id : option uuid;
  al_rule_id : uuid;
  al_severity : Severity;
  al_action_taken : RuleAction;
  al_state : AlertState;
  al_summary : str;
  al_details : option dict;
  al_telemetry_index : option str;
  al_telemetry_doc_ids : option (list str);
  al_mitre : option (list str);
  al_opened_at : datetime;
  al_closed_at : option datetime;
  al_assignee_id : option uuid;
  al_incident_id : option uuid;
  al_dedup_key : option str;
  al_occurrence_count : Z;
  al_last_occurred_at : datetime
}.

Definition set_incident (i : uuid) (a : Alert) : Alert :=
  mkAlert (al_id a) (al_tenant_id a) (al_host_id a) (al_rule_id a) (al_severity a)
    (al_action_taken a) (al_state a) (al_summary a) (al_details a) (al_telemetry_index a)
    (al_telemetry_doc_ids a) (al_mitre a) (al_opened_at a) (al_closed_at a)
    (al_assignee_id a) (Some i) (al_dedup_key a) (al_occurrence_count a)
    (al_last_occurred_at a).

(** alert_dedup.py, [bump_occurrence] *)
Definition bump_occurrence (seen_at : datetime) (a : Alert) : Alert :=
  mkAlert (al_id a) (al_tenant_id a) (al_host_id a) (al_rule_id a) (al_severity a)
    (al_action_taken a) (al_state a) (al_summary a) (al_details a) (al_telemetry_index a)
    (al_telemetry_doc_ids a) (al_mitre a) (al_opened_at a) (al_closed_at a)
    (al_assignee_id a) (al_incident_id a) (al_dedup_key a)
    ((if al_occurrence_count a =? 0 then 1 else al_occurrence_count a) + 1) seen_at.

(** ** Incidents *)

Inductive IncidentStatus := IOPEN | IINVESTIGATING | IRESOLVED | ICLOSED.
Inductive IncidentGroupingReason := WINDOW | PROCESS_TREE | RULE_CLUSTER.
#[global] Instance IncidentStatus_eq_dec : EqDecision IncidentStatus.
Proof. solve_decision. Defined.
#[global] Instance IncidentGroupingReason_eq_dec : EqDecision IncidentGroupingReason.
Proof. solve_decision. Defined.

Definition INCIDENT_STATUS_TRANSITIONS (s : IncidentStatus) : list IncidentStatus :=
  match s with
  | IOPEN => [IINVESTIGATING; IRESOLVED; ICLOSED]
  | IINVESTIGATING => [IRESOLVED; ICLOSED; IOPEN]
  | IRESOLVED => [IINVESTIGATING; ICLOSED]
  | ICLOSED => []
  end.

Record Incident := mkIncident {
  inc_id : uuid;
  inc_tenant_id : uuid;
  inc_host_id : option uuid;
  inc_title : str;
  inc_summary : option str;
  inc_severity : Severity;
  inc_status : IncidentStatus;
  inc_opened_at : datetime;
  inc_closed_at : option datetime;
  inc_assignee_id : option uuid;
  inc_reason : IncidentGroupingReason
}.

(** ** Hosts and policies *)

Inductive HostStatus := H_PENDING | H_ONLINE | H_OFFLINE | H_ISOLATED | H_DECOMMISSIONED.
Inductive OsFamily := WINDOWS | LINUX | MACOS.
#[global] Instance HostStatus_eq_dec : EqDecision HostStatus.
Proof. solve_decision. Defined.
#[global] Instance OsFamily_eq_dec : EqDecision OsFamily.
Proof. solve_decision. Defined.

Record Host := mkHost {
  host_id : uuid;
  host_tenant_id : uuid;
  host_hostname : str;
  host_os_family : OsFamily;
  host_agent_version : option str;
  host_last_seen_at : option datetime;
  host_status : HostStatus;
  host_policy_id : option uuid;
  host_os_version : option str;
  host_os_platform : option str;
  host_os_arch : option str;
  host_cert_fingerprint : option str;
  host_enrolled_at : option datetime;
  host_capabilities : option str
}.

Definition set_host (agent_version : option str) (last_seen_at : option datetime) (status : HostStatus)
    (policy_id : option uuid) (cert_fingerprint capabilities : option str) (h : Host) : Host :=
  mkHost (host_id h) (host_tenant_id h) (host_hostname h) (host_os_family h) agent_version
    last_seen_at status policy_id (host_os_version h) (host_os_platform h) (host_os_arch h)
    cert_fingerprint (host_enrolled_at h) capabilities.
Definition set_host_status (s : HostStatus) (h : Host) : Host :=
  set_host (host_agent_version h) (host_last_seen_at h) s (host_policy_id h)
    (host_cert_fingerprint h) (host_capabilities h) h.
Definition set_host_seen (at_ : datetime) (h : Host) : Host :=
  set_host (host_agent_version h) (Some at_) (host_status h) (host_policy_id h)
    (host_cert_fingerprint h) (host_capabilities h) h.
Definition set_host_capabilities (caps : str) (h : Host) : Host :=
  set_host (host_agent_version h) (host_last_seen_at h) (host_status h) (host_policy_id h)
    (host_cert_fingerprint h) (Some caps) h.
Definition set_host_policy (p : uuid) (h : Host) : Host :=
  set_host (host_agent_version h) (host_last_seen_at h) (host_status h) (Some p)
    (host_cert_fingerprint h) (host_capabilities h) h.
Definition set_host_fingerprint (f : str) (h : Host) : Host :=
  set_host (host_agent_version h) (host_last_seen_at h) (host_status h) (host_policy_id h)
    (Some f) (host_capabilities h) h.

Record Policy := mkPolicy {
  pol_id : uuid;
  pol_tenant_id : uuid;
  pol_name : str;
  pol_version : Z;
  pol_sweep_interval_hours : Z;
  pol_sweep_categories : list str;
  pol_rollout_cohort : option str;
  pol_cohort_target_version : option str;
  pol_cohort_rolled_out_pct : Z
}.

Definition set_rolled_out_pct (pct : Z) (p : Policy) : Policy :=
  mkPolicy (pol_id p) (pol_tenant_id p) (pol_name p) (pol_version p)
    (pol_sweep_interval_hours p) (pol_sweep_categories p) (pol_rollout_cohort p)
    (pol_cohort_target_version p) pct.

(** ** Commands *)

Inductive CommandKind :=
  | KILL_PROCESS | BLOCK_PROCESS | BLOCK_FILE | UNBLOCK_PROCESS | UNBLOCK_FILE | ISOLATE
  | QUARANTINE_FILE | RELEASE_QUARANTINE | RUN_JOB | ALLOWLIST_SYNC | DNS_BLOCK_SYNC
  | DEVICE_CONTROL_SYNC | REQUEST_ATTESTATION | DEPLOY_HONEYTOKEN.
Inductive CommandStatus := C_PENDING | C_DISPATCHED | C_SUCCEEDED | C_FAILED.
#[global] Instance CommandKind_eq_dec : EqDecision CommandKind.
Proof. solve_decision. Defined.
#[global] Instance CommandStatus_eq_dec : EqDecision CommandStatus.
Proof. solve_decision. Defined.

Definition CommandKind_value (k : CommandKind) : str :=
  match k with
  | KILL_PROCESS => "kill_process" | BLOCK_PROCESS => "block_process"
  | BLOCK_FILE => "block_file" | UNBLOCK_PROCESS => "unblock_process"
  | UNBLOCK_FILE => "unblock_file" | ISOLATE => "isolate"
  | QUARANTINE_FILE => "quarantine_file" | RELEASE_QUARANTINE => "release_quarantine"
  | RUN_JOB => "run_job" | ALLOWLIST_SYNC => "allowlist_sync"
  | DNS_BLOCK_SYNC => "dns_block_sync" | DEVICE_CONTROL_SYNC => "device_control_sync"
  | REQUEST_ATTESTATION => "request_attestation" | DEPLOY_HONEYTOKEN => "deploy_honeytoken"
  end.

Record Command := mkCommand {
  cmd_id : uuid;
  cmd_tenant_id : uuid;
  cmd_host_id : uuid;
  cmd_kind : CommandKind;
  cmd_status : CommandStatus;
  cmd_payload : dict;
  cmd_alert_id : option uuid;
  cmd_rule_id : option uuid;
  cmd_user_id : option uuid;
  cmd_created_at : datetime;
  cmd_dispatched_at : option datetime;
  cmd_completed_at : option datetime;
  cmd_error : option str
}.

(** [Command(host_id=…, kind=…, payload=…, …)]: a pending row, never dispatched,
    in the default tenant unless one is passed. *)
Definition new_command (id tenant host : uuid) (kind : CommandKind) (payload : dict)
    (alert rule user : option uuid) (now : datetime) : Command :=
  mkCommand id tenant host kind C_PENDING payload alert rule user now None None None.

(** ** The rule-group ceiling and the state machines *)

(** The clamped action is the lesser of the rule's action and the ceiling, in
    the escalation order. *)
Lemma clamp_action_min (a : RuleAction) (c : RuleAction) :
  ACTION_ORDER (clamp_action a (Some c)) = Z.min (ACTION_ORDER a) (ACTION_ORDER c).
Proof. by destruct a, c. Qed.

Lemma ACTION_ORDER_inj a b : ACTION_ORDER a = ACTION_ORDER b → a = b.
Proof. by destruct a, b. Qed.

Lemma clamp_action_idem a c : clamp_action (clamp_action a c) c = clamp_action a c.
Proof. destruct c as [c|]; [by destruct a, c|done]. Qed.

Lemma Severity_of_value s : Severity_of (Severity_value s) = Some s.
Proof. by destruct s. Qed.

Lemma Severity_of_Some v s : Severity_of v = Some s → v = Severity_value s.
Proof.
  unfold Severity_of. intros H%List.find_some. destruct H as [_ H].
  symmetry. by apply String.eqb_eq.
Qed.

(** A triage path that goes through the transition table. *)
Inductive alert_reach : AlertState → AlertState → Prop :=
  | alert_here s : alert_reach s s
  | alert_step s t u : t ∈ ALERT_STATE_TRANSITIONS s → alert_reach t u → alert_reach s u.

Lemma closed_terminal s t :
  s = FALSE_POSITIVE ∨ s = TRUE_POSITIVE → alert_reach s t → t = s.
Proof.
  intros Hs Hr. destruct Hr as [|s' t u Ht _]; [done|].
  destruct Hs as [-> | ->]; simpl in Ht; by apply not_elem_of_nil in Ht.
Qed.
