(* ===== verification/SeqExpr.v ===== *)
(** * The [where:] language of sequence rules

    Models the mini expression language of [backend/app/services/sequence.py]:
    the tokenizer ([_TOKEN_RE], [_tokenize]), literals, the recursive-descent
    parser [_Parser] and the predicates it builds.  The closures the parser
    returns are the constructors of [pred], and calling one on a view is
    [peval].

    The theorems show that the parser accepts exactly the grammar its docstring
    states, that it always terminates with a predicate or a documented error,
    and what the predicates mean on missing fields. *)

From Stdlib Require Import Ascii String SpecFloat.
From S2P Require Import Prelude PyStr PyVal.
Local Open Scope string_scope.
Local Open Scope list_scope.
Local Open Scope nat_scope.

(** ** Tokens *)

(** The named groups of [_TOKEN_RE]. *)
Inductive tkind := TLparen | TRparen | TComma | TOp | TKw | TStr | TNum | TIdent.
Global Instance tkind_eq_dec : EqDecision tkind.
Proof. solve_decision. Defined.
Abbreviation token := (tkind * str)%type.

(** Longest prefix of characters satisfying [p], and the rest. *)
Fixpoint span (p : ascii → bool) (s : str) : str * str :=
  match s with
  | "" => ("", "")
  | String c s' => if p c then let '(a, b) := span p s' in (String c a, b) else ("", s)
  end.

Definition last_char (d : option ascii) (s : str) : option ascii :=
  match String.rev s with "" => d | String c _ => Some c end.

Definition word_start (prev : option ascii) : bool :=
  match prev with Some c => negb (is_word c) | None => true end.
Definition word_end (s : str) : bool :=
  match s with "" => true | String c _ => negb (is_word c) end.

(** First alternative of a list of literal strings that [s] starts with. *)
Fixpoint match_prefix (alts : list str) (s : str) : option (str * str) :=
  match alts with
  | [] => None
  | a :: alts =>
      if starts_with a s then Some (a, drop_str (String.length a) s) else match_prefix alts s
  end.

(** [\b(?:and|or|not|in)\b], ignoring case. *)
Fixpoint match_keyword (alts : list str) (s : str) : option (str * str) :=
  match alts with
  | [] => None
  | a :: alts =>
      let n := String.length a in
      if starts_with a (lower s) && word_end (drop_str n s)
      then Some (take_str n s, drop_str n s) else match_keyword alts s
  end.

(** The rest of a quoted string, after the opening quote: characters other
    than the quote and the backslash, or a backslash and a character that is
    not a newline, up to the closing quote. *)
Fixpoint scan_quoted (q : ascii) (s : str) : option (str * str) :=
  match s with
  | "" => None
  | String c s =>
      if Ascii.eqb c q then Some (String c "", s)
      else if Ascii.eqb c backslash then
        match s with
        | "" => None
        | String d s =>
            if Ascii.eqb d newline then None
            else match scan_quoted q s with
                 | Some (a, b) => Some (String c (String d a), b)
                 | None => None
                 end
        end
      else match scan_quoted q s with
           | Some (a, b) => Some (String c a, b)
           | None => None
           end
  end.

(** [-?\d+(?:\.\d+)?] *)
Definition match_digits (s : str) : option (str * str) :=
  match span is_decimal s with
  | ("", _) => None
  | (d, s') =>
      match s' with
      | String "." t =>
          match span is_decimal t with
          | ("", _) => Some (d, s')
          | (d', t') => Some (d +:+ "." +:+ d', t')
          end
      | _ => Some (d, s')
      end
  end.
Definition match_number (s : str) : option (str * str) :=
  match s with
  | String "-" s' => match match_digits s' with Some (a, b) => Some (String "-" a, b) | None => None end
  | _ => match_digits s
  end.

Definition is_ident_start (c : ascii) : bool := is_alpha_ascii c || Ascii.eqb c "_".
Definition is_ident_char (c : ascii) : bool :=
  is_alpha_ascii c || is_decimal c || Ascii.eqb c "_" || Ascii.eqb c ".".

Definition op_alts : list str := ["=="; "!="; ">="; "<="; ">"; "<"; "~"; "!~"].
Definition kw_alts : list str := ["and"; "or"; "not"; "in"].

(** One match of [_TOKEN_RE] at a character that is not white space, the
    alternatives in the order of the pattern.  [prev] is the character before,
    for the word boundary. *)
Definition match_token (prev : option ascii) (s : str) : option (token * str) :=
  match s with
  | "" => None
  | String c s' =>
      if Ascii.eqb c "(" then Some ((TLparen, "("), s')
      else if Ascii.eqb c ")" then Some ((TRparen, ")"), s')
      else if Ascii.eqb c "," then Some ((TComma, ","), s')
      else match match_prefix op_alts s with
      | Some (r, t) => Some ((TOp, r), t)
      | None =>
      match (if word_start prev then match_keyword kw_alts s else None) with
      | Some (r, t) => Some ((TKw, r), t)
      | None =>
      match (if Ascii.eqb c dquote || Ascii.eqb c squote then scan_quoted c s' else None) with
      | Some (r, t) => Some ((TStr, String c r), t)
      | None =>
      match match_number s with
      | Some (r, t) => Some ((TNum, r), t)
      | None =>
          if is_ident_start c
          then let '(r, t) := span is_ident_char s in Some ((TIdent, r), t)
          else None
      end end end end
  end.

Fixpoint skip_space (prev : option ascii) (s : str) : option ascii * str :=
  match s with
  | String c s' => if is_space c then skip_space (Some c) s' else (prev, s)
  | "" => (prev, "")
  end.

(** [_tokenize], with a fuel of one step per token. *)
Fixpoint tokenize_go (fuel : nat) (prev : option ascii) (s : str) : py (list token) :=
  match fuel with
  | O => Err OutOfFuel
  | S fuel =>
      let '(prev, s) := skip_space prev s in
      match s with
      | "" => Ok []
      | _ =>
          match match_token prev s with
          | None => Err SequenceParseError
          | Some (t, rest) =>
              ts ← tokenize_go fuel (last_char prev t.2) rest;
              Ok (t :: ts)
          end
      end
  end.
Definition tokenize (expr : str) : py (list token) :=
  tokenize_go (S (String.length expr)) None expr.

(** ** Literals *)

Definition char_of_code (z : Z) : py ascii :=
  if (z <? 256)%Z then Ok (ascii_of_N (Z.to_N z)) else Err Unmodelled.

Definition is_octal (c : ascii) : bool := let n := code c in ((48 <=? n) && (n <=? 55))%N.

Definition hex_acc (acc : option Z) (c : ascii) : option Z :=
  match acc, hex_value c with Some a, Some v => Some (a * 16 + v)%Z | _, _ => None end.

Definition push (c : py ascii) (m : py str) : py str :=
  c ← c; s ← m; Ok (String c s).
Definition hex_escape (v : option Z) (m : py str) : py str :=
  match v with Some z => push (char_of_code z) m | None => Err UnicodeDecodeError end.

Definition simple_escape (c : ascii) : option ascii :=
  if Ascii.eqb c backslash || Ascii.eqb c squote || Ascii.eqb c dquote then Some c
  else if Ascii.eqb c "a" then Some (ascii_of_nat 7)
  else if Ascii.eqb c "b" then Some (ascii_of_nat 8)
  else if Ascii.eqb c "t" then Some (ascii_of_nat 9)
  else if Ascii.eqb c "n" then Some (ascii_of_nat 10)
  else if Ascii.eqb c "v" then Some (ascii_of_nat 11)
  else if Ascii.eqb c "f" then Some (ascii_of_nat 12)
  else if Ascii.eqb c "r" then Some (ascii_of_nat 13)
  else None.

(** [bytes.decode("unicode_escape")] *)
Fixpoint unescape (s : str) : py str :=
  match s with
  | "" => Ok ""
  | String c s =>
      if negb (Ascii.eqb c backslash) then push (Ok c) (unescape s)
      else match s with
      | "" => Err UnicodeDecodeError
      | String d s =>
          if Ascii.eqb d newline then unescape s
          else match simple_escape d with
          | Some x => push (Ok x) (unescape s)
          | None =>
          if is_octal d then
            match s with
            | String o2 s2 =>
                if is_octal o2 then
                  match s2 with
                  | String o3 s3 =>
                      if is_octal o3
                      then push (char_of_code (digit_value d * 64 + digit_value o2 * 8 + digit_value o3))
                             (unescape s3)
                      else push (char_of_code (digit_value d * 8 + digit_value o2)) (unescape s2)
                  | "" => push (char_of_code (digit_value d * 8 + digit_value o2)) (unescape s2)
                  end
                else push (char_of_code (digit_value d)) (unescape s)
            | "" => push (char_of_code (digit_value d)) (unescape s)
            end
          else if Ascii.eqb d "x" then
            match s with
            | String a (String b t) => hex_escape (fold_left hex_acc [a; b] (Some 0%Z)) (unescape t)
            | _ => Err UnicodeDecodeError
            end
          else if Ascii.eqb d "u" then
            match s with
            | String a (String b (String e (String f t))) =>
                hex_escape (fold_left hex_acc [a; b; e; f] (Some 0%Z)) (unescape t)
            | _ => Err UnicodeDecodeError
            end
          else if Ascii.eqb d "U" then
            match s with
            | String a (String b (String e (String f (String g (String h (String i (String j t))))))) =>
                hex_escape (fold_left hex_acc [a; b; e; f; g; h; i; j] (Some 0%Z)) (unescape t)
            | _ => Err UnicodeDecodeError
            end
          else if Ascii.eqb d "N" then Err Unmodelled
          else push (Ok c) (push (Ok d) (unescape s))
          end
      end
  end.

(** [raw[1:-1]] *)
Definition inner (raw : str) : str := String.substring 1 (String.length raw - 2) raw.

(** [float(raw)] and [int(raw)] of a number token. *)
Definition dec_digits (s : str) : Z := default 0%Z (digits_go 0 false s).
Definition number_value (raw : str) : pyval :=
  let '(neg, s) := match raw with String "-" s => (true, s) | s => (false, s) end in
  match split_first "." s with
  | Some (a, b) =>
      PFloat (float_of_ratio neg (dec_digits (a +:+ b)) (Z.to_pos (10 ^ Z.of_nat (String.length b))))
  | None => PInt (if neg then - dec_digits s else dec_digits s)%Z
  end.

Definition literal_value (k : tkind) (raw : str) : py pyval :=
  match k with
  | TStr => s ← unescape (utf8 (inner raw)); Ok (PStr s)
  | TNum => Ok (number_value raw)
  | _ => Err SequenceParseError
  end.

(** ** Predicates *)

(** The operators of [_build_comparison]. *)
Inductive cmpop := OEq | ONe | OGt | OGe | OLt | OLe | OLike | ONotLike.
Global Instance cmpop_eq_dec : EqDecision cmpop.
Proof. solve_decision. Defined.

(** The closures the parser builds. *)
Inductive pred :=
| PTrue
| PCmp (field : str) (op : cmpop) (right : pyval)
| PIn (field : str) (negated : bool) (values : list pyval)
| PNot (inner : pred)
| PAnd (left right : pred)
| POr (left right : pred).

(** [_field_getter]: the flat key first, then the dotted path. *)
Fixpoint walk_path (parts : list str) (cur : pyval) : pyval :=
  match parts with
  | [] => cur
  | p :: parts =>
      match cur with
      | PDict d => match dict_get p d with Some v => walk_path parts v | None => PNone end
      | _ => PNone
      end
  end.
Definition field_get (field : str) (view : dict) : pyval :=
  match dict_get field view with
  | Some v => v
  | None => walk_path (split_on "." field) (PDict view)
  end.

(** [_gt], [_ge], [_lt], [_le]: [False] on [None] and on a [TypeError]. *)
Definition guarded (test : option comparison → bool) (a b : pyval) : bool :=
  match a with
  | PNone => false
  | _ => match py_cmp a b with Ok c => test c | Err _ => false end
  end.

(** [needle in str(get(v) or "").lower()] *)
Definition like (v right : pyval) : bool :=
  contains (lower (py_str right)) (lower (py_str (py_or v (PStr "")))).

Definition compare_field (op : cmpop) (v right : pyval) : bool :=
  match op with
  | OEq => py_eq v right
  | ONe => negb (py_eq v right)
  | OGt => guarded cmp_gt v right
  | OGe => guarded cmp_ge v right
  | OLt => guarded cmp_lt v right
  | OLe => guarded cmp_le v right
  | OLike => like v right
  | ONotLike => negb (like v right)
  end.

Definition parse_op (op : str) : option cmpop :=
  if String.eqb op "==" then Some OEq
  else if String.eqb op "!=" then Some ONe
  else if String.eqb op ">" then Some OGt
  else if String.eqb op ">=" then Some OGe
  else if String.eqb op "<" then Some OLt
  else if String.eqb op "<=" then Some OLe
  else if String.eqb op "~" then Some OLike
  else if String.eqb op "!~" then Some ONotLike
  else None.

Definition build_comparison (field op : str) (right : pyval) : py pred :=
  match parse_op op with
  | Some o => Ok (PCmp field o right)
  | None => Err SequenceParseError
  end.

(** Calling the compiled closure: [Predicate.apply].  None of the closures can
    raise on a view, so the [except] branch of [apply] is never taken. *)
Fixpoint peval (p : pred) (view : dict) : bool :=
  match p with
  | PTrue => true
  | PCmp f op r => compare_field op (field_get f view) r
  | PIn f neg vs => let hit := py_in (field_get f view) vs in if neg then negb hit else hit
  | PNot p => negb (peval p view)
  | PAnd p q => peval p view && peval q view
  | POr p q => peval p view || peval q view
  end.

(** ** The parser *)

Definition keyword_token (name : str) (t : token) : bool :=
  match t with (TKw, raw) => String.eqb (lower raw) name | _ => false end.

(** [_is_keyword] at the current position. *)
Definition is_keyword (name : str) (ts : list token) : bool :=
  match ts with t :: _ => keyword_token name t | [] => false end.

(** [_eat(kind)] *)
Definition eat (k : tkind) (ts : list token) : py (str * list token) :=
  match ts with
  | [] => Err SequenceParseError
  | (k', raw) :: ts => if decide (k' = k) then Ok (raw, ts) else Err SequenceParseError
  end.

Definition is_literal (k : tkind) : bool :=
  match k with TStr | TNum => true | _ => false end.

(** The literal list of [in (...)], after the opening parenthesis. *)
Fixpoint in_list (values : list pyval) (ts : list token) : py (list pyval * list token) :=
  match ts with
  | [] => Err SequenceParseError
  | (k, raw) :: ts =>
      if is_literal k then
        v ← literal_value k raw;
        match ts with
        | (TComma, _) :: ts => in_list (values ++ [v]) ts
        | (TRparen, _) :: ts => Ok (values ++ [v], ts)
        | _ => Err SequenceParseError
        end
      else Err SequenceParseError
  end.

Definition comparison_or_in (ts : list token) : py (pred * list token) :=
  '(ident, ts) ← eat TIdent ts;
  let negated := is_keyword "not" ts in
  let ts := if negated then tail ts else ts in
  if is_keyword "in" ts then
    '(_, ts) ← eat TLparen (tail ts);
    '(values, ts) ← in_list [] ts;
    Ok (PIn ident negated values, ts)
  else if negated then Err SequenceParseError
  else
    match ts with
    | (TOp, op) :: (k, raw) :: ts =>
        if is_literal k then
          right ← literal_value k raw;
          p ← build_comparison ident op right;
          Ok (p, ts)
        else Err SequenceParseError
    | _ => Err SequenceParseError
    end.

(** [or_expr], [and_expr], [not_expr], [primary] and their loops.  The position
    of the parser is the list of tokens still to read. *)
Fixpoint or_expr (n : nat) (ts : list token) : py (pred * list token) :=
  match n with
  | O => Err OutOfFuel
  | S n => '(lhs, ts) ← and_expr n ts; or_loop n lhs ts
  end
with or_loop (n : nat) (lhs : pred) (ts : list token) : py (pred * list token) :=
  match n with
  | O => Err OutOfFuel
  | S n =>
      if is_keyword "or" ts then
        '(rhs, ts) ← and_expr n (tail ts); or_loop n (POr lhs rhs) ts
      else Ok (lhs, ts)
  end
with and_expr (n : nat) (ts : list token) : py (pred * list token) :=
  match n with
  | O => Err OutOfFuel
  | S n => '(lhs, ts) ← not_expr n ts; and_loop n lhs ts
  end
with and_loop (n : nat) (lhs : pred) (ts : list token) : py (pred * list token) :=
  match n with
  | O => Err OutOfFuel
  | S n =>
      if is_keyword "and" ts then
        '(rhs, ts) ← not_expr n (tail ts); and_loop n (PAnd lhs rhs) ts
      else Ok (lhs, ts)
  end
with not_expr (n : nat) (ts : list token) : py (pred * list token) :=
  match n with
  | O => Err OutOfFuel
  | S n =>
      if is_keyword "not" ts then
        '(p, ts) ← not_expr n (tail ts); Ok (PNot p, ts)
      else primary n ts
  end
with primary (n : nat) (ts : list token) : py (pred * list token) :=
  match n with
  | O => Err OutOfFuel
  | S n =>
      match ts with
      | [] => Err SequenceParseError
      | (TLparen, _) :: ts =>
          '(p, ts) ← or_expr n ts;
          '(_, ts) ← eat TRparen ts;
          Ok (p, ts)
      | (TIdent, _) :: _ => comparison_or_in ts
      | _ => Err SequenceParseError
      end
  end.

(** Four nested calls per token always suffice, see [parse_fuel]. *)
Definition parse (ts : list token) : py pred :=
  '(p, rest) ← or_expr (4 + 4 * length ts) ts;
  match rest with [] => Ok p | _ => Err SequenceParseError end.

(** [compile_predicate(where)]: [where] is a YAML value. *)
Definition compile_predicate (where_ : pyval) : py pred :=
  match where_ with
  | PNone => Ok PTrue
  | _ =>
      if nonempty (strip (py_str where_))
      then ts ← tokenize (py_str where_); parse ts
      else Ok PTrue
  end.

(** ** The grammar of the docstring *)

Definition token_kw (name : str) (t : token) : Prop := keyword_token name t = true.

(** [literal ("," literal)*], with the values. *)
Inductive g_literals : list token → list pyval → Prop :=
| g_lit_one k raw v :
    is_literal k = true → literal_value k raw = Ok v → g_literals [(k, raw)] [v]
| g_lit_more k raw v c ts vs :
    is_literal k = true → literal_value k raw = Ok v → g_literals ts vs →
    g_literals ((k, raw) :: (TComma, c) :: ts) (v :: vs).

Inductive g_or : list token → pred → Prop :=
| g_or_one ts p : g_and ts p → g_or ts p
| g_or_more ts p k us q :
    g_or ts p → token_kw "or" k → g_and us q → g_or (ts ++ k :: us) (POr p q)
with g_and : list token → pred → Prop :=
| g_and_one ts p : g_not ts p → g_and ts p
| g_and_more ts p k us q :
    g_and ts p → token_kw "and" k → g_not us q → g_and (ts ++ k :: us) (PAnd p q)
with g_not : list token → pred → Prop :=
| g_not_not k ts p : token_kw "not" k → g_not ts p → g_not (k :: ts) (PNot p)
| g_not_primary ts p : g_primary ts p → g_not ts p
with g_primary : list token → pred → Prop :=
| g_paren l ts p r : g_or ts p → g_primary ((TLparen, l) :: ts ++ [(TRparen, r)]) p
| g_comparison f op k raw v p :
    is_literal k = true → literal_value k raw = Ok v → build_comparison f op v = Ok p →
    g_primary [(TIdent, f); (TOp, op); (k, raw)] p
| g_in f i l ts vs r :
    token_kw "in" i → g_literals ts vs →
    g_primary ((TIdent, f) :: i :: (TLparen, l) :: ts ++ [(TRparen, r)]) (PIn f false vs)
| g_not_in f n i l ts vs r :
    token_kw "not" n → token_kw "in" i → g_literals ts vs →
    g_primary ((TIdent, f) :: n :: i :: (TLparen, l) :: ts ++ [(TRparen, r)]) (PIn f true vs).

Scheme g_or_ind' := Induction for g_or Sort Prop
with g_and_ind' := Induction for g_and Sort Prop
with g_not_ind' := Induction for g_not Sort Prop
with g_primary_ind' := Induction for g_primary Sort Prop.
Combined Scheme g_mutual_ind from g_or_ind', g_and_ind', g_not_ind', g_primary_ind'.

(** ** The parser accepts exactly the grammar *)

Lemma g_literals_nonempty ts vs : g_literals ts vs → vs ≠ [].
Proof. by destruct 1. Qed.

Lemma in_list_sound ts acc vs rest :
  in_list acc ts = Ok (vs, rest) →
  ∃ pre r vs', ts = pre ++ (TRparen, r) :: rest ∧ vs = acc ++ vs' ∧ g_literals pre vs'.
Proof.
  revert acc vs rest. induction ts as [ts IH] using (induction_ltof1 _ length).
  intros acc vs rest H. destruct ts as [|[k raw] ts]; simpl in H; [done|].
  destruct (is_literal k) eqn:Hk; [|done]. apply res_bind_ok in H as (v & Hv & H).
  destruct ts as [|[k' raw'] ts]; [done|]. destruct k'; try done.
  - simplify_eq. exists [(k, raw)], raw', [v]. eauto using g_literals.
  - apply IH in H as (pre & r & vs' & -> & -> & Hg); [|unfold ltof; simpl; lia].
    exists ((k, raw) :: (TComma, raw') :: pre), r, (v :: vs').
    rewrite <- app_assoc. eauto using g_literals.
Qed.

Lemma in_list_complete ts vs : g_literals ts vs →
  ∀ acc r rest, in_list acc (ts ++ (TRparen, r) :: rest) = Ok (acc ++ vs, rest).
Proof.
  induction 1 as [k raw v Hk Hv|k raw v c ts vs Hk Hv Hg IH]; intros acc r rest; simpl;
    rewrite Hk, Hv; simpl; [done|]. rewrite IH. by rewrite <- app_assoc.
Qed.

Lemma is_keyword_inv name ts :
  is_keyword name ts = true → ∃ t ts', ts = t :: ts' ∧ token_kw name t.
Proof. destruct ts as [|t ts]; simpl; [done|eauto]. Qed.

Lemma eat_inv k ts raw rest : eat k ts = Ok (raw, rest) → ts = (k, raw) :: rest.
Proof. destruct ts as [|[k' raw'] ts]; simpl; [done|]. case_decide; intros; by simplify_eq. Qed.

Lemma token_kw_inj a b t : token_kw a t → token_kw b t → a = b.
Proof. unfold token_kw, keyword_token. destruct t as [[] raw]; try done. breflect. congruence. Qed.

Lemma comparison_or_in_sound ts p rest :
  comparison_or_in ts = Ok (p, rest) → ∃ pre, ts = pre ++ rest ∧ g_primary pre p.
Proof.
  unfold comparison_or_in. intros H. apply res_bind_ok in H as ([f ts1] & He & H).
  apply eat_inv in He as ->. destruct (is_keyword "not" ts1) eqn:Hn.
  - apply is_keyword_inv in Hn as (n & ts2 & -> & Hn). cbn [tail] in H.
    destruct (is_keyword "in" ts2) eqn:Hi; [|done].
    apply is_keyword_inv in Hi as (i & ts3 & -> & Hi). cbn [tail] in H.
    apply res_bind_ok in H as ([l ts4] & He & H). apply eat_inv in He as ->.
    apply res_bind_ok in H as ([vs ts5] & Hl & H). simplify_eq.
    apply in_list_sound in Hl as (pre & r & vs' & -> & -> & Hg).
    exists ((TIdent, f) :: n :: i :: (TLparen, l) :: pre ++ [(TRparen, r)]).
    split; [by simpl; rewrite <- app_assoc|by constructor].
  - destruct (is_keyword "in" ts1) eqn:Hi.
    + apply is_keyword_inv in Hi as (i & ts3 & -> & Hi). cbn [tail] in H.
      apply res_bind_ok in H as ([l ts4] & He & H). apply eat_inv in He as ->.
      apply res_bind_ok in H as ([vs ts5] & Hl & H). simplify_eq.
      apply in_list_sound in Hl as (pre & r & vs' & -> & -> & Hg).
      exists ((TIdent, f) :: i :: (TLparen, l) :: pre ++ [(TRparen, r)]).
      split; [by simpl; rewrite <- app_assoc|by constructor].
    + destruct ts1 as [|[[] op] [|[k raw] ts2]]; try done.
      destruct (is_literal k) eqn:Hk; [|done].
      apply res_bind_ok in H as (v & Hv & H). apply res_bind_ok in H as (q & Hq & H).
      simplify_eq. exists [(TIdent, f); (TOp, op); (k, raw)]. eauto using g_primary.
Qed.

Lemma parser_sound n :
  (∀ ts p rest, or_expr n ts = Ok (p, rest) → ∃ pre, ts = pre ++ rest ∧ g_or pre p) ∧
  (∀ ts p rest l pre0, or_loop n l ts = Ok (p, rest) → g_or pre0 l →
     ∃ pre, ts = pre ++ rest ∧ g_or (pre0 ++ pre) p) ∧
  (∀ ts p rest, and_expr n ts = Ok (p, rest) → ∃ pre, ts = pre ++ rest ∧ g_and pre p) ∧
  (∀ ts p rest l pre0, and_loop n l ts = Ok (p, rest) → g_and pre0 l →
     ∃ pre, ts = pre ++ rest ∧ g_and (pre0 ++ pre) p) ∧
  (∀ ts p rest, not_expr n ts = Ok (p, rest) → ∃ pre, ts = pre ++ rest ∧ g_not pre p) ∧
  (∀ ts p rest, primary n ts = Ok (p, rest) → ∃ pre, ts = pre ++ rest ∧ g_primary pre p).
Proof.
  induction n as [|n (IHor & IHorl & IHand & IHandl & IHnot & IHpri)]; [done|].
  split_and!; simpl.
  - intros ts p rest H. apply res_bind_ok in H as ([l ts1] & Hl & H).
    apply IHand in Hl as (pre & -> & Hg). eapply IHorl in H as (pre' & -> & Hg'); [|by constructor].
    exists (pre ++ pre'). by rewrite <- app_assoc.
  - intros ts p rest l pre0 H Hg0. destruct (is_keyword "or" ts) eqn:Hk.
    + apply is_keyword_inv in Hk as (k & ts1 & -> & Hk). cbn [tail] in H.
      apply res_bind_ok in H as ([r ts2] & Hr & H). apply IHand in Hr as (pre & -> & Hg).
      eapply (IHorl _ _ _ _ (pre0 ++ k :: pre)) in H as (pre' & -> & Hg'); [|by constructor].
      exists (k :: pre ++ pre'). rewrite <- app_assoc in Hg'.
      split; [by simpl; rewrite <- app_assoc|done].
    + simplify_eq. exists []. by rewrite app_nil_r.
  - intros ts p rest H. apply res_bind_ok in H as ([l ts1] & Hl & H).
    apply IHnot in Hl as (pre & -> & Hg). eapply IHandl in H as (pre' & -> & Hg'); [|by constructor].
    exists (pre ++ pre'). by rewrite <- app_assoc.
  - intros ts p rest l pre0 H Hg0. destruct (is_keyword "and" ts) eqn:Hk.
    + apply is_keyword_inv in Hk as (k & ts1 & -> & Hk). cbn [tail] in H.
      apply res_bind_ok in H as ([r ts2] & Hr & H). apply IHnot in Hr as (pre & -> & Hg).
      eapply (IHandl _ _ _ _ (pre0 ++ k :: pre)) in H as (pre' & -> & Hg'); [|by constructor].
      exists (k :: pre ++ pre'). rewrite <- app_assoc in Hg'.
      split; [by simpl; rewrite <- app_assoc|done].
    + simplify_eq. exists []. by rewrite app_nil_r.
  - intros ts p rest H. destruct (is_keyword "not" ts) eqn:Hk.
    + apply is_keyword_inv in Hk as (k & ts1 & -> & Hk). cbn [tail] in H.
      apply res_bind_ok in H as ([q ts2] & Hq & H). simplify_eq.
      apply IHnot in Hq as (pre & -> & Hg). exists (k :: pre). split; [done|by constructor].
    + apply IHpri in H as (pre & -> & Hg). eauto using g_not.
  - intros ts p rest H. destruct ts as [|[[] raw] ts]; try done.
    + apply res_bind_ok in H as ([q ts1] & Hq & H). apply res_bind_ok in H as ([r ts2] & He & H).
      simplify_eq. apply eat_inv in He as ->. apply IHor in Hq as (pre & -> & Hg).
      exists ((TLparen, raw) :: pre ++ [(TRparen, r)]). simpl. rewrite <- app_assoc.
      split; [done|by constructor].
    + by apply comparison_or_in_sound.
Qed.

(** *** Fuel: more never changes an answer, and [4 + 4 * length] is enough *)

Lemma bind_stable {A B} (m m' : py A) (k k' : A → py B) :
  (m ≠ Err OutOfFuel → m' = m) →
  (∀ a, m = Ok a → k a ≠ Err OutOfFuel → k' a = k a) →
  m ≫= k ≠ Err OutOfFuel → m' ≫= k' = m ≫= k.
Proof.
  intros Hm Hk Hb. destruct m as [a|e]; simpl in *.
  - rewrite Hm by done. simpl. by apply Hk.
  - rewrite Hm; [done|]. intros ?; simplify_eq.
Qed.

Lemma parser_step n :
  (∀ ts, or_expr n ts ≠ Err OutOfFuel → or_expr (S n) ts = or_expr n ts) ∧
  (∀ l ts, or_loop n l ts ≠ Err OutOfFuel → or_loop (S n) l ts = or_loop n l ts) ∧
  (∀ ts, and_expr n ts ≠ Err OutOfFuel → and_expr (S n) ts = and_expr n ts) ∧
  (∀ l ts, and_loop n l ts ≠ Err OutOfFuel → and_loop (S n) l ts = and_loop n l ts) ∧
  (∀ ts, not_expr n ts ≠ Err OutOfFuel → not_expr (S n) ts = not_expr n ts) ∧
  (∀ ts, primary n ts ≠ Err OutOfFuel → primary (S n) ts = primary n ts).
Proof.
  induction n as [|n (IHor & IHorl & IHand & IHandl & IHnot & IHpri)]; [done|].
  split_and!.
  - intros ts H. apply bind_stable; [apply IHand|intros [] _; apply IHorl|done].
  - intros l ts H. change (or_loop (S n) l ts) with
      (if is_keyword "or" ts then '(r, ts) ← and_expr n (tail ts); or_loop n (POr l r) ts
       else Ok (l, ts)) in *.
    change (or_loop (S (S n)) l ts) with
      (if is_keyword "or" ts then '(r, ts) ← and_expr (S n) (tail ts); or_loop (S n) (POr l r) ts
       else Ok (l, ts)).
    destruct (is_keyword "or" ts); [|done].
    apply bind_stable; [apply IHand|intros [] _; apply IHorl|done].
  - intros ts H. apply bind_stable; [apply IHnot|intros [] _; apply IHandl|done].
  - intros l ts H. change (and_loop (S n) l ts) with
      (if is_keyword "and" ts then '(r, ts) ← not_expr n (tail ts); and_loop n (PAnd l r) ts
       else Ok (l, ts)) in *.
    change (and_loop (S (S n)) l ts) with
      (if is_keyword "and" ts then '(r, ts) ← not_expr (S n) (tail ts); and_loop (S n) (PAnd l r) ts
       else Ok (l, ts)).
    destruct (is_keyword "and" ts); [|done].
    apply bind_stable; [apply IHnot|intros [] _; apply IHandl|done].
  - intros ts H. change (not_expr (S n) ts) with
      (if is_keyword "not" ts then '(p, ts) ← not_expr n (tail ts); Ok (PNot p, ts)
       else primary n ts) in *.
    change (not_expr (S (S n)) ts) with
      (if is_keyword "not" ts then '(p, ts) ← not_expr (S n) (tail ts); Ok (PNot p, ts)
       else primary (S n) ts).
    destruct (is_keyword "not" ts); [|by apply IHpri].
    apply bind_stable; [apply IHnot|by intros [] _|done].
  - intros ts H. destruct ts as [|[[] raw] ts]; try done.
    apply bind_stable; [apply IHor|by intros [] _|done].
Qed.

(** What every call returns when its fuel covers its tokens: no more tokens
    than it was given, or one of the errors a bad rule body raises. *)
Definition parse_error (e : pyexc) : Prop :=
  e = SequenceParseError ∨ e = UnicodeDecodeError ∨ e = Unmodelled.
Definition fine (L : nat) (m : py (pred * list token)) : Prop :=
  match m with Ok (_, rest) => length rest ≤ L | Err e => parse_error e end.

Lemma fine_bind L L' m k :
  fine L m → (∀ p rest, length rest ≤ L → fine L' (k (p, rest))) → fine L' (m ≫= k).
Proof. destruct m as [[p rest]|e]; simpl; auto. Qed.

Lemma fine_mono L L' m : L ≤ L' → fine L m → fine L' m.
Proof. destruct m as [[p rest]|e]; simpl; [lia|done]. Qed.

Lemma push_error c m e :
  (∀ e, c = Err e → e = UnicodeDecodeError ∨ e = Unmodelled) →
  (∀ e, m = Err e → e = UnicodeDecodeError ∨ e = Unmodelled) →
  push c m = Err e → e = UnicodeDecodeError ∨ e = Unmodelled.
Proof. unfold push. destruct c, m; simpl; intros; simplify_eq; eauto. Qed.

Lemma char_of_code_error z e : char_of_code z = Err e → e = UnicodeDecodeError ∨ e = Unmodelled.
Proof. unfold char_of_code. destruct (z <? 256)%Z; intros; simplify_eq; auto. Qed.

Lemma hex_escape_error v m e :
  (∀ e, m = Err e → e = UnicodeDecodeError ∨ e = Unmodelled) →
  hex_escape v m = Err e → e = UnicodeDecodeError ∨ e = Unmodelled.
Proof.
  unfold hex_escape. destruct v; [|intros; simplify_eq; auto].
  intros. by eapply push_error; eauto using char_of_code_error.
Qed.

Lemma unescape_error s e : unescape s = Err e → e = UnicodeDecodeError ∨ e = Unmodelled.
Proof.
  revert e. induction s as [s IH] using (induction_ltof1 _ String.length). unfold ltof in IH.
  intros e. destruct s as [|c s]; [done|]. cbn [unescape].
  assert (∀ t, String.length t ≤ String.length s →
    ∀ e, unescape t = Err e → e = UnicodeDecodeError ∨ e = Unmodelled) as IH'.
  { intros t Ht. apply IH. simpl. lia. }
  clear IH. destruct (negb _); [by apply push_error, IH'|].
  repeat match goal with
  | |- context [match ?x with _ => _ end] =>
      match x with context [match _ with _ => _ end] => fail 1 | _ => idtac end;
      destruct x
  end;
  intros; simplify_eq; auto;
  first [eapply IH'; [|eassumption]; simpl; lia
        |eapply hex_escape_error; [|eassumption]; intros ?; apply IH'; simpl; lia
        |eapply push_error; [..|eassumption]; [by eauto using char_of_code_error|apply IH'; simpl; lia]
        |eapply push_error; [..|eassumption]; [done|]; intros ? ?;
         eapply push_error; [..|eassumption]; [done|]; apply IH'; simpl; lia].
Qed.

Lemma literal_value_error k raw e : literal_value k raw = Err e → parse_error e.
Proof.
  unfold literal_value, parse_error. destruct k; intros H; simplify_eq/=; auto.
  apply res_bind_err in H as [H|(s & _ & H)]; [|done]. apply unescape_error in H. tauto.
Qed.

Lemma in_list_fine ts acc :
  match in_list acc ts with Ok (_, rest) => length rest ≤ length ts | Err e => parse_error e end.
Proof.
  revert acc. induction ts as [ts IH] using (induction_ltof1 _ length). unfold ltof in IH.
  intros acc. destruct ts as [|[k raw] ts]; simpl; [by left|].
  destruct (is_literal k); [|by left].
  destruct (literal_value k raw) as [v|e] eqn:Hv; simpl; [|by eapply literal_value_error].
  destruct ts as [|[[] raw'] ts]; try (by left); simpl; [lia|].
  specialize (IH ts ltac:(simpl; lia) (acc ++ [v])). destruct (in_list _ ts) as [[]|]; simpl; [lia|done].
Qed.

Lemma comparison_or_in_fine ts : fine (length ts) (comparison_or_in ts).
Proof.
  unfold comparison_or_in. destruct ts as [|[[] f] ts]; simpl; try (by left).
  set (ts1 := if is_keyword "not" ts then tail ts else ts).
  assert (length ts1 ≤ length ts) as H1 by (unfold ts1; destruct (is_keyword "not" ts), ts; simpl; lia).
  destruct (is_keyword "in" ts1).
  - destruct (tail ts1) as [|[[] l] ts2] eqn:Ht; simpl; try (by left).
    assert (length ts2 ≤ length ts) by (destruct ts1; simplify_eq/=; lia).
    pose proof (in_list_fine ts2 []) as Hl. destruct (in_list [] ts2) as [[vs ts3]|]; simpl in *; [lia|done].
  - destruct (is_keyword "not" ts); [by left|].
    destruct ts1 as [|[[] op] [|[k raw] ts2]]; simpl; try (by left).
    destruct (is_literal k); [|by left].
    destruct (literal_value k raw) as [v|e] eqn:Hv; simpl; [|by eapply literal_value_error].
    unfold build_comparison. destruct (parse_op op); simpl in *; [lia|by left].
Qed.

Lemma tail_length {A} (l : list A) : length (tail l) = length l - 1.
Proof. destruct l; simpl; lia. Qed.
Lemma is_keyword_length name ts : is_keyword name ts = true → 1 ≤ length ts.
Proof. destruct ts; simpl; [done|lia]. Qed.

Lemma parser_fine n :
  (∀ ts, 4 * length ts + 4 ≤ n → fine (length ts) (or_expr n ts)) ∧
  (∀ l ts, 4 * length ts + 1 ≤ n → fine (length ts) (or_loop n l ts)) ∧
  (∀ ts, 4 * length ts + 3 ≤ n → fine (length ts) (and_expr n ts)) ∧
  (∀ l ts, 4 * length ts + 1 ≤ n → fine (length ts) (and_loop n l ts)) ∧
  (∀ ts, 4 * length ts + 2 ≤ n → fine (length ts) (not_expr n ts)) ∧
  (∀ ts, 4 * length ts + 1 ≤ n → fine (length ts) (primary n ts)).
Proof.
  induction n as [|n (IHor & IHorl & IHand & IHandl & IHnot & IHpri)];
    [by split_and!; intros; lia|].
  split_and!; intros; cbn [or_expr or_loop and_expr and_loop not_expr primary].
  - eapply fine_bind; [apply IHand; lia|]. intros p rest Hr.
    eapply fine_mono; [exact Hr|]. apply IHorl. lia.
  - destruct (is_keyword "or" ts) eqn:Hk; [|simpl; lia]. apply is_keyword_length in Hk.
    pose proof (tail_length ts). eapply fine_bind; [apply IHand; lia|]. intros p rest Hr.
    apply (fine_mono (length rest)); [lia|]. apply IHorl. lia.
  - eapply fine_bind; [apply IHnot; lia|]. intros p rest Hr.
    eapply fine_mono; [exact Hr|]. apply IHandl. lia.
  - destruct (is_keyword "and" ts) eqn:Hk; [|simpl; lia]. apply is_keyword_length in Hk.
    pose proof (tail_length ts). eapply fine_bind; [apply IHnot; lia|]. intros p rest Hr.
    apply (fine_mono (length rest)); [lia|]. apply IHandl. lia.
  - destruct (is_keyword "not" ts) eqn:Hk; [|apply IHpri; lia]. apply is_keyword_length in Hk.
    pose proof (tail_length ts). eapply fine_bind; [apply IHnot; lia|]. intros p rest Hr. simpl. lia.
  - destruct ts as [|[[] raw] ts]; simpl in H; try (by left).
    + eapply fine_bind; [apply IHor; lia|]. intros p rest Hr.
      destruct rest as [|[k' r] rest]; simpl in *; [by left|]. case_decide; simpl; [lia|by left].
    + apply comparison_or_in_fine.
Qed.

Lemma parser_more (f : nat → py (pred * list token)) n m :
  (∀ n, f n ≠ Err OutOfFuel → f (S n) = f n) → n ≤ m → f n ≠ Err OutOfFuel → f m = f n.
Proof.
  intros Hs Hle Hn. induction Hle as [|m Hle IH]; [done|]. rewrite Hs; [done|congruence].
Qed.

Lemma fine_fuel L m : fine L m → m ≠ Err OutOfFuel.
Proof. intros H ->. by destruct H as [|[|]]. Qed.

Lemma or_expr_fuel ts n r :
  or_expr n ts = Ok r → or_expr (4 + 4 * length ts) ts = Ok r.
Proof.
  intros H. set (m := 4 + 4 * length ts).
  assert (or_expr m ts ≠ Err OutOfFuel) as Hf
    by (eapply fine_fuel, (parser_fine m); unfold m; lia).
  assert (∀ n, or_expr n ts ≠ Err OutOfFuel → or_expr (S n) ts = or_expr n ts) as Hs
    by (intros k; apply (parser_step k)).
  rewrite <- (parser_more (λ k, or_expr k ts) m (n + m)) by (done || lia).
  rewrite (parser_more (λ k, or_expr k ts) n (n + m)) by (done || lia || congruence). done.
Qed.

(** *** Completeness *)

Lemma eat_ok k raw ts : eat k ((k, raw) :: ts) = Ok (raw, ts).
Proof. unfold eat. by rewrite decide_True. Qed.

Lemma token_kw_other a b t ts :
  token_kw a t → a ≠ b → is_keyword b (t :: ts) = false.
Proof.
  intros Ha Hne. unfold is_keyword. destruct (keyword_token b t) eqn:Hb; [|done].
  by pose proof (token_kw_inj _ _ _ Ha Hb).
Qed.

Lemma token_kw_same a t ts : token_kw a t → is_keyword a (t :: ts) = true.
Proof. done. Qed.

Lemma comparison_complete f op k raw v p rest :
  is_literal k = true → literal_value k raw = Ok v → build_comparison f op v = Ok p →
  comparison_or_in ((TIdent, f) :: (TOp, op) :: (k, raw) :: rest) = Ok (p, rest).
Proof. intros Hk Hv Hb. unfold comparison_or_in. simpl. by rewrite Hk, Hv; simpl; rewrite Hb. Qed.

Lemma in_complete f i l ts vs r rest :
  token_kw "in" i → g_literals ts vs →
  comparison_or_in ((TIdent, f) :: i :: (TLparen, l) :: ts ++ (TRparen, r) :: rest)
  = Ok (PIn f false vs, rest).
Proof.
  intros Hi Hg. unfold comparison_or_in. rewrite eat_ok. cbn [mbind res_bind].
  rewrite (token_kw_other "in" "not") by done. rewrite token_kw_same by done. cbn [tail].
  rewrite eat_ok. cbn [mbind res_bind]. by rewrite (in_list_complete _ _ Hg).
Qed.

Lemma not_in_complete f n i l ts vs r rest :
  token_kw "not" n → token_kw "in" i → g_literals ts vs →
  comparison_or_in ((TIdent, f) :: n :: i :: (TLparen, l) :: ts ++ (TRparen, r) :: rest)
  = Ok (PIn f true vs, rest).
Proof.
  intros Hn Hi Hg. unfold comparison_or_in. rewrite eat_ok. cbn [mbind res_bind].
  rewrite (token_kw_same "not") by done. cbn [tail]. rewrite token_kw_same by done. cbn [tail].
  rewrite eat_ok. cbn [mbind res_bind]. by rewrite (in_list_complete _ _ Hg).
Qed.

Lemma step_le (f : nat → py (pred * list token)) :
  (∀ n, f n ≠ Err OutOfFuel → f (S n) = f n) → ∀ n m r, n ≤ m → f n = Ok r → f m = Ok r.
Proof. intros Hs n m r Hle Hn. rewrite (parser_more f n m); [done|done|done|congruence]. Qed.
Lemma or_loop_le n m l ts r : n ≤ m → or_loop n l ts = Ok r → or_loop m l ts = Ok r.
Proof. apply (step_le (λ n, or_loop n l ts)). intros k. apply (parser_step k). Qed.
Lemma and_loop_le n m l ts r : n ≤ m → and_loop n l ts = Ok r → and_loop m l ts = Ok r.
Proof. apply (step_le (λ n, and_loop n l ts)). intros k. apply (parser_step k). Qed.
Lemma and_expr_le n m ts r : n ≤ m → and_expr n ts = Ok r → and_expr m ts = Ok r.
Proof. apply (step_le (λ n, and_expr n ts)). intros k. apply (parser_step k). Qed.
Lemma not_expr_le n m ts r : n ≤ m → not_expr n ts = Ok r → not_expr m ts = Ok r.
Proof. apply (step_le (λ n, not_expr n ts)). intros k. apply (parser_step k). Qed.

(** A phrase of the grammar brings the parser from its start to the state the
    enclosing loop continues from. *)
Lemma parser_complete :
  (∀ ts p, g_or ts p → ∀ rest r, is_keyword "and" rest = false →
     (∃ n, or_loop n p rest = Ok r) → ∃ n, or_expr n (ts ++ rest) = Ok r) ∧
  (∀ ts p, g_and ts p → ∀ rest r,
     (∃ n, and_loop n p rest = Ok r) → ∃ n, and_expr n (ts ++ rest) = Ok r) ∧
  (∀ ts p, g_not ts p → ∀ rest, ∃ n, not_expr n (ts ++ rest) = Ok (p, rest)) ∧
  (∀ ts p, g_primary ts p → ∀ rest, ∃ n, primary n (ts ++ rest) = Ok (p, rest)).
Proof.
  apply (g_mutual_ind
    (λ ts p _, ∀ rest r, is_keyword "and" rest = false →
       (∃ n, or_loop n p rest = Ok r) → ∃ n, or_expr n (ts ++ rest) = Ok r)
    (λ ts p _, ∀ rest r, (∃ n, and_loop n p rest = Ok r) → ∃ n, and_expr n (ts ++ rest) = Ok r)
    (λ ts p _, ∀ rest, ∃ n, not_expr n (ts ++ rest) = Ok (p, rest))
    (λ ts p _, ∀ rest, ∃ n, primary n (ts ++ rest) = Ok (p, rest))).
  - intros ts p _ IH rest r Hand [n Hn].
    destruct (IH rest (p, rest)) as [m Hm]; [exists 1; simpl; by rewrite Hand|].
    exists (S (n + m)). simpl. rewrite (and_expr_le m (n + m) _ _ ltac:(lia) Hm). simpl.
    by apply (or_loop_le n); [lia|].
  - intros ts p k us q _ IHo Hk _ IHa rest r Hand [n Hn]. rewrite <- app_assoc. simpl.
    apply IHo; [by eapply token_kw_other|].
    destruct (IHa rest (q, rest)) as [m Hm]; [exists 1; simpl; by rewrite Hand|].
    exists (S (n + m)). simpl. rewrite Hk. simpl.
    rewrite (and_expr_le m (n + m) _ _ ltac:(lia) Hm). simpl. by apply (or_loop_le n); [lia|].
  - intros ts p _ IH rest r [n Hn]. destruct (IH rest) as [m Hm].
    exists (S (n + m)). simpl. rewrite (not_expr_le m (n + m) _ _ ltac:(lia) Hm). simpl.
    by apply (and_loop_le n); [lia|].
  - intros ts p k us q _ IHo Hk _ IHa rest r [n Hn]. rewrite <- app_assoc. simpl. apply IHo.
    destruct (IHa rest) as [m Hm]. exists (S (n + m)). simpl. rewrite Hk. simpl.
    rewrite (not_expr_le m (n + m) _ _ ltac:(lia) Hm). simpl. by apply (and_loop_le n); [lia|].
  - intros k ts p Hk _ IH rest. destruct (IH rest) as [n Hn]. exists (S n). simpl.
    rewrite Hk. by rewrite Hn.
  - intros ts p Hg IH rest. destruct (IH rest) as [n Hn]. exists (S n). simpl.
    destruct (is_keyword "not" (ts ++ rest)) eqn:Hk; [|done]. by inversion Hg; subst.
  - intros l ts p r _ IH rest.
    destruct (IH ((TRparen, r) :: rest) (p, (TRparen, r) :: rest)) as [n Hn];
      [done|by exists 1|].
    exists (S n). simpl. rewrite <- app_assoc. simpl. by rewrite Hn.
  - intros f op k raw v p Hk Hv Hb rest. exists 1. by apply (comparison_complete f op k raw v).
  - intros f i l ts vs r Hi Hg rest. exists 1. cbn -[comparison_or_in]. rewrite <- app_assoc. by apply in_complete.
  - intros f n i l ts vs r Hn Hi Hg rest. exists 1. cbn -[comparison_or_in]. rewrite <- app_assoc. by apply not_in_complete.
Qed.

Lemma parse_sound ts p : parse ts = Ok p → g_or ts p.
Proof.
  unfold parse. intros H. apply res_bind_ok in H as ([q rest] & Hq & H).
  destruct rest; [|done]. simplify_eq. apply (parser_sound _) in Hq as (pre & -> & Hg).
  by rewrite app_nil_r.
Qed.

Lemma parse_complete ts p : g_or ts p → parse ts = Ok p.
Proof.
  intros Hg. destruct (proj1 parser_complete ts p Hg [] (p, [])) as [n Hn]; [done|by exists 1|].
  rewrite app_nil_r in Hn. apply or_expr_fuel in Hn. unfold parse. by rewrite Hn.
Qed.

Lemma parse_fine ts : match parse ts with Ok _ => True | Err e => parse_error e end.
Proof.
  unfold parse. pose proof (proj1 (parser_fine (4 + 4 * length ts)) ts ltac:(lia)) as Hf.
  destruct (or_expr _ ts) as [[p [|]]|e]; simpl; [done|by left|done].
Qed.

(** ** The tokenizer

    Every token is a non-empty piece of the text, so one step of fuel per
    character is enough and nothing but white space is dropped. *)

Lemma match_prefix_split alts s r t :
  Forall (λ a, a ≠ "") alts → match_prefix alts s = Some (r, t) → s = r +:+ t ∧ r ≠ "".
Proof.
  induction 1 as [|a alts Ha _ IH]; simpl; [done|].
  destruct (starts_with a s) eqn:Hs; [|done]. intros ?; simplify_eq.
  split; [by apply prefix_drop|done].
Qed.

Lemma match_keyword_split alts s r t :
  Forall (λ a, a ≠ "") alts → match_keyword alts s = Some (r, t) → s = r +:+ t ∧ r ≠ "".
Proof.
  induction 1 as [|a alts Ha _ IH]; cbn [match_keyword]; [done|].
  destruct (starts_with a (lower s) && _) eqn:Hs; [|done].
  intros ?; simplify_eq. split; [by rewrite take_drop_str|].
  apply andb_true_iff in Hs as [Hs _]. destruct a as [|c a]; [done|].
  destruct s as [|d s]; [done|]. by unfold take_str.
Qed.

Lemma span_split p s r t : span p s = (r, t) → s = r +:+ t.
Proof.
  revert r t. induction s as [|c s IH]; intros r t; simpl; [by intros; simplify_eq|].
  destruct (p c); [|by intros; simplify_eq]. destruct (span p s) as [a b].
  intros; simplify_eq/=. by rewrite append_cons, (IH a t).
Qed.

Lemma scan_quoted_split q s r t : scan_quoted q s = Some (r, t) → s = r +:+ t.
Proof.
  revert s r t. fix IH 1. intros s r t. destruct s as [|c s]; simpl; [done|].
  destruct (Ascii.eqb c q); [intros; by simplify_eq|].
  destruct (Ascii.eqb c backslash).
  - destruct s as [|d s]; [done|]. destruct (Ascii.eqb d newline); [done|].
    destruct (scan_quoted q s) as [[a b]|] eqn:Hs; intros; simplify_eq/=.
    by rewrite !append_cons, <- (IH s a t).
  - destruct (scan_quoted q s) as [[a b]|] eqn:Hs; intros; simplify_eq/=.
    by rewrite !append_cons, <- (IH s a t).
Qed.

Lemma match_digits_split s r t : match_digits s = Some (r, t) → s = r +:+ t ∧ r ≠ "".
Proof.
  unfold match_digits. destruct (span is_decimal s) as [d s'] eqn:Hs. apply span_split in Hs.
  destruct d as [|c d]; [done|].
  assert (Some (String c d, s') = Some (r, t) → s = r +:+ t ∧ r ≠ "") as Hd
    by (intros; by simplify_eq).
  destruct s' as [|x u]; [done|].
  destruct (Ascii.eqb_spec x ".") as [->|Hx].
  - destruct (span is_decimal u) as [d' t'] eqn:Hu. apply span_split in Hu.
    destruct d' as [|c' d']; [done|]. intros; simplify_eq. split; [|done].
    by rewrite !append_assoc.
  - intros Hm. apply Hd. rewrite <- Hm. clear -Hx. by destruct x as [[] [] [] [] [] [] [] []].
Qed.

Lemma match_number_split s r t : match_number s = Some (r, t) → s = r +:+ t ∧ r ≠ "".
Proof.
  destruct s as [|c s]; [by apply match_digits_split|].
  destruct (Ascii.eqb_spec c "-") as [->|Hc].
  - simpl. destruct (match_digits s) as [[a b]|] eqn:Hm; [|done].
    intros; simplify_eq. by apply match_digits_split in Hm as [-> _].
  - intros H. apply match_digits_split. rewrite <- H. clear -Hc.
    by destruct c as [[] [] [] [] [] [] [] []].
Qed.

Lemma match_token_split prev s k raw rest :
  match_token prev s = Some ((k, raw), rest) → s = raw +:+ rest ∧ raw ≠ "".
Proof.
  destruct s as [|c s]; [done|]. unfold match_token.
  destruct (Ascii.eqb_spec c "("); [intros; by simplify_eq|].
  destruct (Ascii.eqb_spec c ")"); [intros; by simplify_eq|].
  destruct (Ascii.eqb_spec c ","); [intros; by simplify_eq|].
  destruct (match_prefix op_alts _) as [[r t]|] eqn:Hop.
  { intros; simplify_eq. apply match_prefix_split in Hop; [done|].
    by repeat constructor. }
  destruct (if word_start prev then _ else _) as [[r t]|] eqn:Hkw.
  { intros; simplify_eq. destruct (word_start prev); [|done].
    apply match_keyword_split in Hkw; [done|by repeat constructor]. }
  destruct (if Ascii.eqb c dquote || _ then _ else _) as [[r t]|] eqn:Hq.
  { intros; simplify_eq. destruct (_ || _); [|done].
    apply scan_quoted_split in Hq as ->. by split. }
  destruct (match_number _) as [[r t]|] eqn:Hn.
  { intros; simplify_eq. by apply match_number_split. }
  destruct (is_ident_start c) eqn:Hi; [|done].
  destruct (span is_ident_char _) as [r t] eqn:Hsp. intros; simplify_eq.
  pose proof (span_split _ _ _ _ Hsp) as Hs. split; [done|]. intros ->.
  simpl in Hsp. assert (is_ident_char c = true) as Hic.
  { unfold is_ident_char, is_ident_start in *. destruct (is_alpha_ascii c), (is_decimal c), (Ascii.eqb c "_"); done. }
  rewrite Hic in Hsp. by destruct (span _ s).
Qed.

(** [spells ts s]: the text [s] is the tokens [ts] in order, with white space
    between them and around them. *)
Inductive spells : list token → str → Prop :=
| spells_nil w : string_forallb is_space w = true → spells [] w
| spells_cons w k raw ts s :
    string_forallb is_space w = true → raw ≠ "" → spells ts s →
    spells ((k, raw) :: ts) (w +:+ raw +:+ s).

Lemma skip_space_split prev s prev' s' :
  skip_space prev s = (prev', s') →
  ∃ w, s = w +:+ s' ∧ string_forallb is_space w = true.
Proof.
  revert prev. induction s as [|c s IH]; intros prev; simpl.
  { intros; simplify_eq. by exists "". }
  destruct (is_space c) eqn:Hc; [|intros; simplify_eq; by exists ""].
  intros H. apply IH in H as (w & -> & Hw). exists (String c w). simpl. by rewrite Hc.
Qed.

Lemma tokenize_go_total fuel prev s :
  String.length s < fuel →
  (∃ ts, tokenize_go fuel prev s = Ok ts ∧ spells ts s)
  ∨ tokenize_go fuel prev s = Err SequenceParseError.
Proof.
  revert prev s. induction fuel as [|fuel IH]; intros prev s Hf; [lia|]. simpl.
  destruct (skip_space prev s) as [prev' s'] eqn:Hs.
  apply skip_space_split in Hs as (w & -> & Hw). rewrite append_length in Hf.
  destruct s' as [|c s']; [left; eexists; split; [done|]; rewrite append_nil_r; by constructor|].
  destruct (match_token prev' (String c s')) as [[[k raw] rest]|] eqn:Hm; [|by right].
  apply match_token_split in Hm as [Heq Hraw]. rewrite Heq in *. cbn [snd].
  destruct (IH (last_char prev' raw) rest) as [(ts & Hgo & Hts)|Hgo].
  { rewrite append_length in Hf. destruct raw; [done|]. simpl in Hf. lia. }
  - left. rewrite Hgo. eexists; split; [done|]. by constructor.
  - right. by rewrite Hgo.
Qed.

Lemma tokenize_total s :
  (∃ ts, tokenize s = Ok ts ∧ spells ts s) ∨ tokenize s = Err SequenceParseError.
Proof. apply tokenize_go_total. lia. Qed.

(** ** Properties *)

(** C2: the recursive-descent parser accepts a token list exactly when the
    grammar of the [_Parser] docstring derives it, and the predicate it returns
    is the one the grammar assigns: [or] binds weakest and associates to the
    left, then [and], then [not], then comparisons, [in], [not in] and
    parentheses.  In particular the parser's fuel is never the reason for a
    rejection. *)
Theorem parse_iff_grammar ts p : parse ts = Ok p ↔ g_or ts p.
Proof. split; [apply parse_sound|apply parse_complete]. Qed.


(** What a comparison with a field the event does not have decides.  The
    positive tests fail, but the negated ones ([!=], [!~], [not in]) hold, so
    does [~] with the empty string, and no ordering test does. *)
Theorem missing_field_semantics field view (r : pyval) vs :
  field_get field view = PNone →
  r ≠ PNone → PNone ∉ vs →
  peval (PCmp field OEq r) view = false ∧ peval (PCmp field ONe r) view = true ∧
  (∀ op, op ∈ [OGt; OGe; OLt; OLe] → peval (PCmp field op r) view = false) ∧
  peval (PCmp field OLike r) view = negb (nonempty (lower (py_str r))) ∧
  peval (PCmp field ONotLike r) view = nonempty (lower (py_str r)) ∧
  peval (PIn field false vs) view = false ∧ peval (PIn field true vs) view = true.
Proof.
  intros Hf Hr Hvs.
  assert (py_eq PNone r = false) as Heq by (by destruct r).
  assert (py_in PNone vs = false) as Hin.
  { unfold py_in. apply not_true_iff_false. rewrite existsb_exists.
    intros (x & Hx & He). apply Hvs. destruct x; try done. by apply list_elem_of_In. }
  assert (∀ n, contains n "" = negb (nonempty n)) as Hc by (by intros []).
  split_and!; simpl; rewrite ?Hf, ?Heq, ?Hin; simpl; try done.
  - intros op Hop. set_unfold in Hop. naive_solver.
  - apply Hc.
  - change (negb (contains (lower (py_str r)) "") = nonempty (lower (py_str r))).
    by rewrite Hc, negb_involutive.
Qed.

Lemma missing_field_semantics_witness :
  peval (PCmp "process.name" ONe (PStr "explorer.exe")) [] = true.
Proof.
  apply (missing_field_semantics "process.name" [] (PStr "explorer.exe") [PInt 1%Z]);
    [reflexivity|discriminate|set_solver].
Defined.
