(* ===== verification/SeqRule.v ===== *)
(** * Sequence rules: YAML bodies and event views

    Models the rest of the front end of [backend/app/services/sequence.py]:
    durations, the validation of a rule body ([parse_yaml]) and the mapping of
    an ECS document to the flat view predicates read ([flatten_event],
    [classify_event_kind]).

    [yaml.safe_load] is third-party code, so it is an argument of [parse_yaml];
    the theorems hold for any loader.  The theorems show which errors can
    escape, and that a rule that was accepted is well formed in the sense the
    evaluator relies on. *)

From Stdlib Require Import Ascii String SpecFloat Btauto.
From S2P Require Import Prelude PyStr PyVal SeqExpr.
Local Open Scope string_scope.
Local Open Scope list_scope.
Local Open Scope nat_scope.

(** ** Rules *)

Record TriggerSpec := mkTrigger { t_event_kind : str; t_where : pred }.
Record FollowedBySpec := mkLeg { f_event_kind : str; f_where : pred; within_s : float }.
(** [severity] is whatever the YAML holds. *)
Record EmitSpec := mkEmit { e_severity : pyval; e_message : str }.
Record ParsedSequence := mkParsed {
  trigger : TriggerSpec;
  legs : list FollowedBySpec;
  emit : EmitSpec;
  window_s : Z }.

(** [_KNOWN_EVENT_KINDS], and [all_event_kinds()], which sorts them. *)
Definition KNOWN_EVENT_KINDS : list str :=
  ["process_started"; "file_created"; "file_modified"; "file_deleted";
   "network_connection"; "image_loaded"; "registry_set"; "any"].
Definition all_event_kinds : list str :=
  ["any"; "file_created"; "file_deleted"; "file_modified"; "image_loaded";
   "network_connection"; "process_started"; "registry_set"].

(** ** Durations *)

Definition one_thousand : float := float_of_Z 1000.
Definition sixty : float := float_of_Z 60.
Definition thirty_six_hundred : float := float_of_Z 3600.

(** [float(s)] of a string [\d+(?:\.\d+)?]. *)
Definition float_of_decimal (s : str) : float :=
  match split_first "." s with
  | Some (a, b) =>
      float_of_ratio false (dec_digits (a +:+ b)) (Z.to_pos (10 ^ Z.of_nat (String.length b)))
  | None => float_of_ratio false (dec_digits s) 1
  end.

(** [_DURATION_RE.match]: the number and the unit, when there is one. *)
Definition match_duration (s : str) : option (str * option str) :=
  match match_digits (lstrip_by is_space s) with
  | None => None
  | Some (num, rest) =>
      let rest := lstrip_by is_space rest in
      match match_prefix ["ms"; "s"; "m"; "h"] rest with
      | Some (unit, rest) =>
          if string_forallb is_space rest then Some (num, Some unit) else None
      | None => if string_forallb is_space rest then Some (num, None) else None
      end
  end.

Definition parse_duration (raw : pyval) : py float :=
  match raw with
  | PInt z => if (z <? 0)%Z then Err SequenceParseError else py_float_of_int z
  | PBool b => py_float_of_int (Z.b2z b)
  | PFloat f => if flt f (S754_zero false) then Err SequenceParseError else Ok f
  | _ =>
      match match_duration (py_str raw) with
      | None => Err SequenceParseError
      | Some (num, unit) =>
          let value := float_of_decimal num in
          let unit := lower (default "s" unit) in
          if String.eqb unit "ms" then Ok (fdiv value one_thousand)
          else if String.eqb unit "s" then Ok value
          else if String.eqb unit "m" then Ok (fmul value sixty)
          else if String.eqb unit "h" then Ok (fmul value thirty_six_hundred)
          else Err SequenceParseError
      end
  end.

(** ** Rule bodies *)

(** What [yaml.safe_load] does: returns a document, raises a [YAMLError], or
    raises something else (a timestamp that is no date raises [ValueError]). *)
Inductive yaml_result := YDoc (v : pyval) | YError | YRaise (e : pyexc).

(** [x in _KNOWN_EVENT_KINDS]: a list or a dictionary is not hashable. *)
Definition known_kind (x : pyval) : py bool :=
  match x with
  | PStr s => Ok (bool_decide (s ∈ KNOWN_EVENT_KINDS))
  | PList _ | PDict _ => Err TypeError
  | _ => Ok false
  end.

(** The value of [VIGIL_SEQUENCE_RULE_DEFAULT_WINDOW_S] is [env]. *)
Definition default_window_s (env : option str) : py Z :=
  match env with
  | Some raw => if nonempty raw && isdigit raw then of_option ValueError (py_int raw) else Ok 60%Z
  | None => Ok 60%Z
  end.

Definition parse_trigger (raw : dict) : py TriggerSpec :=
  let kind := get_default "event_kind" raw (PStr "any") in
  known ← known_kind kind;
  if negb known then Err SequenceParseError
  else w ← compile_predicate (get_none "where" raw); Ok (mkTrigger (py_str kind) w).

(** One round of the loop over [followed_by]. *)
Definition parse_leg (fallback : float) (raw : pyval) : py FollowedBySpec :=
  match raw with
  | PDict leg =>
      let kind := get_default "event_kind" leg (PStr "any") in
      known ← known_kind kind;
      if negb known then Err SequenceParseError
      else
        within ← (match get_none "within" leg with
                  | PNone => Ok fallback
                  | w => parse_duration w
                  end);
        w ← compile_predicate (get_none "where" leg);
        Ok (mkLeg (py_str kind) w within)
  | _ => Err SequenceParseError
  end.

Fixpoint parse_legs (fallback : float) (raws : list pyval) : py (list FollowedBySpec) :=
  match raws with
  | [] => Ok []
  | r :: raws => l ← parse_leg fallback r; ls ← parse_legs fallback raws; Ok (l :: ls)
  end.

(** [max(leg.within_s for leg in legs)] *)
Definition max_within (l : FollowedBySpec) (ls : list FollowedBySpec) : float :=
  fold_left (λ m l, fmax m (within_s l)) ls (within_s l).

Definition parse_emit (doc : dict) : py EmitSpec :=
  match py_or (get_none "then" doc) (PDict []) with
  | PDict then_ =>
      match py_or (get_none "emit_alert" then_) (PDict []) with
      | PDict emit_ =>
          Ok (mkEmit (get_none "severity" emit_)
                (py_str (py_or (get_none "message" emit_) (PStr "sequence rule matched"))))
      | _ => Err SequenceParseError
      end
  | _ => Err SequenceParseError
  end.

Section yaml.
Context (safe_load : str → yaml_result) (env : option str).

Definition parse_yaml (body : str) (default_window : option Z) : py ParsedSequence :=
  if negb (nonempty body) || negb (nonempty (strip body)) then Err SequenceParseError
  else
    match safe_load body with
    | YError => Err SequenceParseError
    | YRaise e => Err e
    | YDoc (PDict doc) =>
        match get_none "trigger" doc with
        | PDict trigger_raw =>
            trigger ← parse_trigger trigger_raw;
            legs_raw ← (match get_none "followed_by" doc with
                        | PNone => Err SequenceParseError
                        | PDict leg => Ok [PDict leg]
                        | PList l => Ok l
                        | _ => Err SequenceParseError
                        end);
            match legs_raw with
            | [] => Err SequenceParseError
            | _ =>
                fallback ← (match default_window with
                            | Some w => py_float_of_int w
                            | None => w ← default_window_s env; py_float_of_int w
                            end);
                legs ← parse_legs fallback legs_raw;
                emit ← parse_emit doc;
                outer ← (match get_none "window_s" doc with
                         | PNone =>
                             match default_window with
                             | Some w => Ok w
                             | None =>
                                 match legs with
                                 | [] => Err ValueError
                                 | l :: ls => py_int_of_float (max_within l ls)
                                 end
                             end
                         | v => py_int_of v
                         end);
                Ok (mkParsed trigger legs emit outer)
            end
        | _ => Err SequenceParseError
        end
    | YDoc _ => Err SequenceParseError
    end.
End yaml.

(** ** Event views *)

Definition classify_event_kind (ecs : dict) : py str :=
  action ← py_get "action" (sub "event" ecs);
  action ← (match py_or action (PStr "") with
            | PStr s => Ok (lower s)
            | _ => Err AttributeError
            end);
  categories ← py_get "category" (sub "event" ecs);
  categories ← (match py_or categories (PList []) with
                | PStr s => Ok [PStr s]
                | v => iterate v
                end);
  let cats := map (λ c, lower (py_str c)) categories in
  let has k := truthy (get_none k ecs) in
  Ok (if has "process" && str_in "process" cats
         && str_in action [""; "start"; "process_started"; "started"]
      then "process_started"
      else if has "network" || str_in "network" cats then "network_connection"
      else if has "file" && (str_in "file" cats || bool_decide (cats = [])) then
        if str_in action ["create"; "creation"; "created"; "file_created"] then "file_created"
        else if str_in action ["delete"; "deletion"; "deleted"; "file_deleted"] then "file_deleted"
        else if str_in action ["modify"; "modification"; "modified"; "file_modified"; "write"]
        then "file_modified"
        else if str_in action ["image_load"; "image_loaded"; "loaded"; "load"] then "image_loaded"
        else "file_modified"
      else if has "registry" || str_in "registry" cats then "registry_set"
      else "any").

(** [out[name] = v.get(key)] *)
Definition put (name key : str) (v : pyval) (out : dict) : py dict :=
  x ← py_get key v; Ok (dict_set name x out).

(** [str(path).replace(backslash, "/").rsplit("/", 1)[-1]] *)
Definition path_basename (v : pyval) : str :=
  after_last "/" (replace_char backslash "/" (py_str v)).

(** [if out[from]: out[to] = basename] *)
Definition put_basename (to from : str) (out : dict) : dict :=
  let v := get_none from out in
  if truthy v then dict_set to (PStr (path_basename v)) out else out.

(** [v = d.get(key) or {}; if v: out[name] = v.get(k)], for a value [d]. *)
Definition put_sub (key name k : str) (d : pyval) (out : dict) : py dict :=
  x ← py_get key d;
  let v := py_or x (PDict []) in
  if truthy v then put name k v out else Ok out.

Definition flatten_process (proc : pyval) (out : dict) : py dict :=
  out ← put "pid" "pid" proc out;
  out ← put "executable" "executable" proc out;
  let out := put_basename "executable_basename" "executable" out in
  out ← put "command_line" "command_line" proc out;
  out ← put "working_directory" "working_directory" proc out;
  out ← put_sub "parent" "parent_pid" "pid" proc out;
  out ← put_sub "user" "user_name" "name" proc out;
  out ← put "integrity_level" "integrity_level" proc out;
  put_sub "hash" "process_sha256" "sha256" proc out.

Definition flatten_file (fil : pyval) (out : dict) : py dict :=
  out ← put "file_path" "path" fil out;
  out ← put "file_name" "name" fil out;
  let out := put_basename "file_basename" "file_path" out in
  fhash ← py_get "hash" fil;
  put "file_sha256" "sha256" (py_or fhash (PDict [])) out.

(** [x = ecs.get(key) or {}; if x: ...] *)
Definition when_present (key : str) (ecs : dict) (k : pyval → dict → py dict) (out : dict)
    : py dict :=
  let v := sub key ecs in if truthy v then k v out else Ok out.

Definition flatten_event (ecs : dict) : py dict :=
  let event := sub "event" ecs in
  out ← put "event_id" "id" event [];
  out ← put "event_action" "action" event out;
  kind ← classify_event_kind ecs;
  let out := dict_set "event_kind_label" (PStr kind) out in
  out ← put "host_id" "id" (sub "host" ecs) out;
  out ← when_present "process" ecs flatten_process out;
  out ← when_present "file" ecs flatten_file out;
  out ← when_present "destination" ecs
          (λ d out, out ← put "dst_ip" "ip" d out; put "dst_port" "port" d out) out;
  out ← when_present "source" ecs
          (λ s out, out ← put "src_ip" "ip" s out; put "src_port" "port" s out) out;
  out ← when_present "network" ecs
          (λ n out, out ← put "transport" "transport" n out;
                    put "direction" "direction" n out) out;
  when_present "registry" ecs
    (λ r out, out ← put "registry_path" "path" r out;
              out ← put "registry_value" "value" r out;
              put "registry_data" "data" r out) out.

(** ** Lemmas: durations are never negative *)

Definition nonneg (f : float) : bool := negb (flt f (S754_zero false)).

(** Rounding keeps the sign. *)
Lemma round_aux_nonneg m e l : nonneg (binary_round_aux 53 1024 false m e l) = true.
Proof.
  unfold binary_round_aux. destruct (shr_fexp 53 1024 m e l) as [mrs e'].
  destruct (shr_fexp 53 1024 _ e' loc_Exact) as [mrs' e'']. destruct (shr_m mrs'); [done| |done].
  by destruct (Z.leb e'' (1024 - 53)).
Qed.

Lemma ratio_nonneg n d : nonneg (float_of_ratio false n d) = true.
Proof.
  unfold float_of_ratio. destruct n; [done| |done].
  destruct (SFdiv_core_binary _ _ _ _ _ _) as [[mz ez] lz]. apply round_aux_nonneg.
Qed.

Lemma decimal_nonneg s : nonneg (float_of_decimal s) = true.
Proof. unfold float_of_decimal. destruct (split_first _ s) as [[]|]; apply ratio_nonneg. Qed.

Lemma int_nonneg z f : (0 ≤ z)%Z → py_float_of_int z = Ok f → nonneg f = true.
Proof.
  unfold py_float_of_int, float_of_Z. intros Hz H.
  assert (nonneg (binary_normalize 53 1024 z 0 false) = true) as Hn.
  { destruct z; [done| |lia]. simpl. unfold binary_round.
    destruct (shl_align _ _ _) as [mz ez]. apply round_aux_nonneg. }
  destruct (binary_normalize _ _ _ _ _); by simplify_eq.
Qed.

Lemma fmul_nonneg x m e : nonneg x = true → nonneg (fmul x (S754_finite false m e)) = true.
Proof. destruct x as [[]|[]| |[]]; try done. intros _. apply round_aux_nonneg. Qed.

Lemma fdiv_nonneg x m e : nonneg x = true → nonneg (fdiv x (S754_finite false m e)) = true.
Proof.
  destruct x as [[]|[]| |[]]; try done. intros _. unfold fdiv, SFdiv.
  destruct (SFdiv_core_binary _ _ _ _ _ _) as [[mz ez] lz]. apply round_aux_nonneg.
Qed.

Lemma parse_duration_nonneg raw f : parse_duration raw = Ok f → nonneg f = true.
Proof.
  assert (∀ o, match o with
    | None => Err SequenceParseError
    | Some (num, unit) =>
        let value := float_of_decimal num in
        let unit := lower (default "s" unit) in
        if String.eqb unit "ms" then Ok (fdiv value one_thousand)
        else if String.eqb unit "s" then Ok value
        else if String.eqb unit "m" then Ok (fmul value sixty)
        else if String.eqb unit "h" then Ok (fmul value thirty_six_hundred)
        else Err SequenceParseError
    end = Ok f → nonneg f = true) as Hs.
  { intros [[num unit]|]; [|done]. intros H. pose proof (decimal_nonneg num) as Hd.
    cbv zeta in H. repeat (case_match; simplify_eq); [|done|..].
    - by apply fdiv_nonneg.
    - by apply fmul_nonneg.
    - by apply fmul_nonneg. }
  destruct raw; unfold parse_duration; try (apply Hs).
  - apply int_nonneg. by destruct b.
  - destruct (Z.ltb_spec z 0); [done|]. by apply int_nonneg.
  - destruct (flt f0 (S754_zero false)) eqn:Hf; [done|]. intros; simplify_eq.
    unfold nonneg. by rewrite Hf.
Qed.

(** ** Lemmas: errors *)

(** The exceptions [parse_yaml] itself raises, whatever the loader does. *)
Definition rule_error (e : pyexc) : Prop :=
  e ∈ [SequenceParseError; UnicodeDecodeError; TypeError; ValueError; OverflowError; Unmodelled].

Lemma rule_error_elem e :
  rule_error e ↔ e = SequenceParseError ∨ e = UnicodeDecodeError ∨ e = TypeError ∨
    e = ValueError ∨ e = OverflowError ∨ e = Unmodelled.
Proof. unfold rule_error. set_solver. Qed.

Create HintDb rule_errors.
Ltac rule_errors :=
  repeat (first [errors_step | solve [eauto 2 with rule_errors]
                | solve [simpl; rewrite ?rule_error_elem; naive_solver]]).

Lemma tokenize_errors u : errors_in rule_error (tokenize u).
Proof. destruct (tokenize_total u) as [(ts & -> & _)| ->]; simpl; set_solver. Qed.
Lemma parse_errors ts : errors_in rule_error (parse ts).
Proof.
  pose proof (parse_fine ts) as H. destruct (parse ts); [done|]. simpl.
  rewrite rule_error_elem. unfold parse_error in H. naive_solver.
Qed.
#[local] Hint Resolve tokenize_errors parse_errors : rule_errors.
Lemma compile_predicate_errors w : errors_in rule_error (compile_predicate w).
Proof. destruct w; unfold compile_predicate; rule_errors. Qed.
#[local] Hint Resolve compile_predicate_errors : rule_errors.

Lemma known_kind_errors k : errors_in rule_error (known_kind k).
Proof. destruct k; rule_errors. Qed.
Lemma float_of_int_errors z : errors_in rule_error (py_float_of_int z).
Proof. unfold py_float_of_int. rule_errors. Qed.
Lemma int_of_float_errors f : errors_in rule_error (py_int_of_float f).
Proof. destruct f; rule_errors. Qed.
#[local] Hint Resolve known_kind_errors float_of_int_errors int_of_float_errors : rule_errors.

Lemma int_of_errors v : errors_in rule_error (py_int_of v).
Proof. destruct v; simpl; rule_errors. unfold of_option. rule_errors. Qed.
Lemma default_window_errors env : errors_in rule_error (default_window_s env).
Proof. unfold default_window_s, of_option. rule_errors. Qed.
Lemma parse_duration_errors v : errors_in rule_error (parse_duration v).
Proof. destruct v; unfold parse_duration; rule_errors. Qed.
#[local] Hint Resolve int_of_errors default_window_errors parse_duration_errors : rule_errors.

Lemma parse_leg_errors fb raw : errors_in rule_error (parse_leg fb raw).
Proof. unfold parse_leg. rule_errors. Qed.
#[local] Hint Resolve parse_leg_errors : rule_errors.
Lemma parse_legs_errors fb raws : errors_in rule_error (parse_legs fb raws).
Proof. induction raws; simpl; rule_errors. Qed.
#[local] Hint Resolve parse_legs_errors : rule_errors.

Lemma parse_yaml_errors_aux safe_load env body dw :
  errors_in (λ e, rule_error e ∨ safe_load body = YRaise e) (parse_yaml safe_load env body dw).
Proof.
  unfold parse_yaml. destruct (_ || _); [by left; set_solver|].
  destruct (safe_load body) as [v| |e] eqn:Hl; [|by left; set_solver|by right].
  apply (errors_weaken rule_error); [auto|].
  unfold parse_trigger, parse_emit. rule_errors.
Qed.

(** ** Lemmas: accepted rules *)

Definition known (k : str) : Prop := k ∈ KNOWN_EVENT_KINDS.

Lemma known_kind_ok v : known_kind v = Ok true → known (py_str v).
Proof. destruct v; simpl; intros H; simplify_eq. by apply bool_decide_eq_true in H. Qed.

Lemma parse_trigger_ok raw t : parse_trigger raw = Ok t → known (t_event_kind t).
Proof.
  unfold parse_trigger. intros H. res_inv. destruct x; cbn [negb] in H; [|done]. res_inv.
  subst t. by apply known_kind_ok.
Qed.

Lemma parse_leg_ok fb raw l :
  parse_leg fb raw = Ok l → known (f_event_kind l) ∧ (within_s l = fb ∨ nonneg (within_s l) = true).
Proof.
  unfold parse_leg. destruct raw; try done. intros H. res_inv.
  destruct x; cbn [negb] in H; [|done]. res_inv. subst l. cbn [f_event_kind within_s].
  split; [by apply known_kind_ok|].
  destruct (get_none "within" d) eqn:Hw; [left; congruence|..];
    right; by eapply parse_duration_nonneg.
Qed.

Lemma parse_legs_ok fb raws ls :
  parse_legs fb raws = Ok ls →
  length ls = length raws ∧
  Forall (λ l, known (f_event_kind l) ∧ (within_s l = fb ∨ nonneg (within_s l) = true)) ls.
Proof.
  revert ls. induction raws as [|r raws IH]; intros ls H; simpl in H; [by simplify_eq|].
  res_inv. subst ls. apply IH in H1 as [Hl Hf]. apply parse_leg_ok in H0.
  split; [simpl; lia|by constructor].
Qed.

Lemma digits_nonneg s acc b z : (0 ≤ acc)%Z → digits_go acc b s = Some z → (0 ≤ z)%Z.
Proof.
  assert (∀ c, is_decimal c = true → (0 ≤ digit_value c)%Z) as Hd.
  { intros c. unfold is_decimal, digit_value. rewrite andb_true_iff, !N.leb_le. lia. }
  revert s acc b z. fix IH 1. intros s acc b z Hacc. destruct s as [|c s]; simpl.
  { destruct b; intros; by simplify_eq. }
  destruct (is_decimal c) eqn:Hc; [apply IH; specialize (Hd c Hc); lia|].
  destruct (_ && b); [|done]. destruct s as [|d s]; [done|].
  destruct (is_decimal d) eqn:Hd'; [|done]. apply IH. specialize (Hd d Hd'). lia.
Qed.

Lemma forallb_strip p q s : string_forallb p s = true → string_forallb p (strip_by q s) = true.
Proof.
  intros H. unfold strip_by. assert (string_forallb p (lstrip_by q s) = true) as Hl.
  { induction s as [|c s IH]; [done|]. simpl in *. apply andb_true_iff in H as [Hc H].
    destruct (q c); [auto|]. simpl. by rewrite Hc. }
  induction (lstrip_by q s) as [|c l IH]; [done|]. simpl in *.
  apply andb_true_iff in Hl as [Hc Hl]. specialize (IH Hl).
  destruct (rstrip_by q l); [destruct (q c)|]; simpl in *; by rewrite ?Hc.
Qed.

Lemma default_window_nonneg env w : default_window_s env = Ok w → (0 ≤ w)%Z.
Proof.
  unfold default_window_s. destruct env as [raw|]; [|intros; by simplify_eq].
  destruct (nonempty raw && isdigit raw) eqn:Hraw; [|intros; by simplify_eq].
  unfold py_int. apply andb_true_iff in Hraw as [_ Hdig].
  assert (∀ s, of_option ValueError (digits_go 0 false s) = Ok w → (0 ≤ w)%Z) as Hpos.
  { intros s H. destruct (digits_go 0 false s) eqn:Hs; simplify_eq/=.
    by eapply digits_nonneg in Hs. }
  assert (string_forallb is_digit (strip raw) = true) as Hst
    by (apply forallb_strip; by destruct raw).
  destruct (strip raw) as [|c s]; [done|]. apply andb_true_iff in Hst as [Hc _].
  destruct c as [[] [] [] [] [] [] [] []]; try done; apply Hpos.
Qed.

Lemma fallback_nonneg env dw f :
  match dw with Some w => (0 ≤ w)%Z | None => True end →
  (match dw with
   | Some w => py_float_of_int w
   | None => w ← default_window_s env; py_float_of_int w
   end) = Ok f → nonneg f = true.
Proof.
  intros Hdw H. destruct dw as [w|]; [by eapply int_nonneg|].
  res_inv. eapply int_nonneg; [|done]. by eapply default_window_nonneg.
Qed.

(** ** Properties *)

(** A rule body that [parse_yaml] accepts is well formed, whatever the YAML
    loader: it has at least one leg, every event kind it names is one of the
    known kinds, and no leg's window is negative as long as the default window
    is not.  The evaluator relies on all three. *)
Theorem parse_yaml_wf safe_load env body dw r :
  parse_yaml safe_load env body dw = Ok r →
  legs r ≠ [] ∧
  t_event_kind (trigger r) ∈ KNOWN_EVENT_KINDS ∧
  Forall (λ l, f_event_kind l ∈ KNOWN_EVENT_KINDS) (legs r) ∧
  (match dw with Some w => (0 ≤ w)%Z | None => True end →
   Forall (λ l, flt (within_s l) (S754_zero false) = false) (legs r)).
Proof.
  unfold parse_yaml. intros H. destruct (_ || _); [done|].
  destruct (safe_load body) as [[]| |]; try done.
  destruct (get_none "trigger" d) eqn:Htr; try done. res_inv.
  destruct x0 as [|raw raws]; [done|]. res_inv. subst r. cbn [legs trigger].
  apply parse_legs_ok in H3 as [Hlen Hlegs].
  split_and!; [by intros ->|by eapply parse_trigger_ok| |].
  - by eapply Forall_impl; [exact Hlegs|]; intros l [? _].
  - intros Hdw. eapply Forall_impl; [exact Hlegs|]. intros l [_ Hl].
    apply negb_true_iff. destruct Hl as [-> |]; [|done]. by eapply fallback_nonneg.
Qed.

Lemma parse_yaml_wf_witness :
  let body := "a rule" in
  let doc := PDict [("trigger", PDict []); ("followed_by", PDict [("within", PStr "200ms")])] in
  ∃ r, parse_yaml (λ _, YDoc doc) None body None = Ok r ∧ legs r ≠ [].
Proof.
  intros body doc. destruct (parse_yaml (λ _, YDoc doc) None body None) as [r|] eqn:Hr.
  - exists r. split; [done|]. exact (proj1 (parse_yaml_wf (λ _, YDoc doc) None body None r Hr)).
  - vm_compute in Hr. discriminate Hr.
Defined.



(** ** Which documents flatten *)

(** A section [x.get(k) or {}] that [.get] can be called on. *)
Definition section_ok (k : str) (d : dict) : bool := is_dict (sub k d).
Definition sections_ok (ks : list str) (d : dict) : bool := forallb (λ k, section_ok k d) ks.

(** The fields of a section, none when it is not a dictionary. *)
Definition fields (v : pyval) : dict := match v with PDict d => d | _ => [] end.

Definition wf_ecs (ecs : dict) : bool :=
  sections_ok ["event"; "host"; "process"; "file"; "destination"; "source"; "network"; "registry"] ecs
  && is_str (py_or (get_none "action" (fields (sub "event" ecs))) (PStr ""))
  && match py_or (get_none "category" (fields (sub "event" ecs))) (PList []) with
     | PStr _ | PList _ | PDict _ => true | _ => false end
  && sections_ok ["parent"; "user"; "hash"] (fields (sub "process" ecs))
  && sections_ok ["hash"] (fields (sub "file" ecs)).

Lemma is_ok_bind {A B} (m : py A) (k : A → py B) b :
  (∀ a, m = Ok a → is_ok (k a) = b) → is_ok (m ≫= k) = is_ok m && b.
Proof. destruct m; simpl; auto. Qed.

Lemma is_ok_put name key v out : is_ok (put name key v out) = is_dict v.
Proof. by destruct v. Qed.

Lemma is_ok_put_sub key name k d out :
  is_ok (put_sub key name k (PDict d) out) = section_ok key d.
Proof.
  unfold put_sub, section_ok, sub. cbn [py_get mbind res_bind].
  change (default PNone (dict_get key d)) with (get_none key d).
  destruct (truthy (py_or _ _)) eqn:Ht; [by rewrite is_ok_put|].
  unfold py_or in *. by destruct (truthy (get_none key d)) eqn:Hg; [rewrite Hg in Ht|].
Qed.

Lemma is_ok_classify ecs :
  is_ok (classify_event_kind ecs) =
  section_ok "event" ecs
  && is_str (py_or (get_none "action" (fields (sub "event" ecs))) (PStr ""))
  && match py_or (get_none "category" (fields (sub "event" ecs))) (PList []) with
     | PStr _ | PList _ | PDict _ => true | _ => false end.
Proof.
  unfold classify_event_kind, section_ok. destruct (sub "event" ecs); try done.
  cbn [py_get mbind res_bind is_dict fields].
  change (default PNone (dict_get "action" d)) with (get_none "action" d).
  destruct (py_or (get_none "action" d) (PStr "")); try done.
  cbn [py_get mbind res_bind is_str].
  change (default PNone (dict_get "category" d)) with (get_none "category" d).
  by destruct (py_or (get_none "category" d) (PList [])).
Qed.

Lemma is_ok_flatten_process proc out :
  is_ok (flatten_process proc out)
  = is_dict proc && sections_ok ["parent"; "user"; "hash"] (fields proc).
Proof.
  unfold flatten_process. destruct proc; try done. simpl.
  erewrite is_ok_bind; [|intros; erewrite is_ok_bind; [|intros; simpl; apply is_ok_put_sub];
    rewrite is_ok_put_sub; reflexivity].
  by rewrite is_ok_put_sub, andb_true_r.
Qed.

Lemma is_ok_flatten_file fil out :
  is_ok (flatten_file fil out) = is_dict fil && sections_ok ["hash"] (fields fil).
Proof.
  unfold flatten_file. destruct fil; try done. cbn -[py_or].
  by rewrite is_ok_put, andb_true_r.
Qed.

Lemma is_ok_when P key ecs k out :
  (∀ v out, is_ok (k v out) = P v) → P (PDict []) = true →
  is_ok (when_present key ecs k out) = P (sub key ecs).
Proof.
  intros Hk HP. unfold when_present, sub, py_or.
  destruct (truthy (get_none key ecs)) eqn:Ht; [by rewrite Ht, Hk|by rewrite HP].
Qed.

Lemma is_ok_seq {A B} (m : py A) (k : A → py B) b c :
  is_ok m = b → (∀ a, is_ok (k a) = c) → is_ok (m ≫= k) = b && c.
Proof. destruct m; simpl; intros <- Hc; auto. Qed.

(** A section whose fields are copied without looking inside them. *)
Lemma is_ok_when_plain key ecs k out :
  (∀ v out, is_ok (k v out) = is_dict v) →
  is_ok (when_present key ecs k out) = section_ok key ecs.
Proof. intros Hk. by apply (is_ok_when is_dict). Qed.

Lemma is_ok_flatten ecs : is_ok (flatten_event ecs) = wf_ecs ecs.
Proof.
  unfold flatten_event. etransitivity.
  - eapply is_ok_seq; [apply is_ok_put|intros ?].
    eapply is_ok_seq; [apply is_ok_put|intros ?].
    eapply is_ok_seq; [apply is_ok_classify|intros ?].
    eapply is_ok_seq; [apply is_ok_put|intros ?].
    eapply is_ok_seq; [by eapply is_ok_when; [apply is_ok_flatten_process|]|intros ?].
    eapply is_ok_seq; [by eapply is_ok_when; [apply is_ok_flatten_file|]|intros ?].
    do 3 (eapply is_ok_seq; [apply is_ok_when_plain; by intros [] ?|intros ?]).
    apply is_ok_when_plain. by intros [] ?.
  - unfold wf_ecs, sections_ok, section_ok. cbn [forallb].
    btauto.
Qed.

Lemma classify_known ecs kind : classify_event_kind ecs = Ok kind → known kind.
Proof.
  unfold classify_event_kind. intros H. res_inv. subst kind. unfold known, KNOWN_EVENT_KINDS.
  repeat match goal with |- context [if ?b then _ else _] => destruct b end;
    by apply (bool_decide_unpack _).
Qed.

(** Steps that leave one field of the view alone. *)
Definition keeps (name : str) (out : dict) (m : py dict) : Prop :=
  ∀ out', m = Ok out' → dict_get name out' = dict_get name out.

Lemma keeps_ok name out : keeps name out (Ok out).
Proof. by intros out' [= ->]. Qed.
Lemma keeps_bind name out m k :
  keeps name out m → (∀ out', keeps name out' (k out')) → keeps name out (m ≫= k).
Proof.
  intros Hm Hk out' H. res_inv. rewrite <- (Hm _ H0). by apply Hk.
Qed.
Lemma keeps_put name n key v out : name ≠ n → keeps name out (put n key v out).
Proof.
  intros Hn out' H. unfold put in H. res_inv. subst out'. by apply dict_get_set_ne.
Qed.
Lemma keeps_basename name to from out m :
  name ≠ to → (∀ out', keeps name out' (m out')) → keeps name out (m (put_basename to from out)).
Proof.
  intros Hn Hm out' H. rewrite (Hm _ _ H). unfold put_basename.
  destruct (truthy _); [by apply dict_get_set_ne|done].
Qed.
Lemma keeps_put_sub name key n k d out : name ≠ n → keeps name out (put_sub key n k d out).
Proof.
  intros Hn. unfold put_sub. intros out' H. res_inv.
  destruct (truthy _); [by eapply keeps_put|by simplify_eq].
Qed.
Lemma keeps_when name key ecs k out :
  (∀ v out, keeps name out (k v out)) → keeps name out (when_present key ecs k out).
Proof. intros Hk. unfold when_present. destruct (truthy _); [apply Hk|apply keeps_ok]. Qed.

Ltac keeps_tac :=
  repeat lazymatch goal with
  | |- keeps _ _ (mbind _ _) => apply keeps_bind; [|intros ?]
  | |- keeps _ _ (put _ _ _ _) => apply keeps_put; discriminate
  | |- keeps _ _ (put_sub _ _ _ _ _) => apply keeps_put_sub; discriminate
  | |- keeps _ _ (when_present _ _ _ _) => apply keeps_when; intros ? ?
  end.

Lemma keeps_process v out : keeps "event_kind_label" out (flatten_process v out).
Proof.
  unfold flatten_process. do 2 (apply keeps_bind; [keeps_tac|intros ?]).
  apply (keeps_basename _ _ _ _ (λ out, out ← put "command_line" _ _ out; _)); [done|intros ?].
  keeps_tac.
Qed.
Lemma keeps_file v out : keeps "event_kind_label" out (flatten_file v out).
Proof.
  unfold flatten_file. do 2 (apply keeps_bind; [keeps_tac|intros ?]).
  apply (keeps_basename _ _ _ _ (λ out, fhash ← py_get "hash" v; put _ _ _ out));
    [done|intros ? ? H]. res_inv. revert H. by apply keeps_put.
Qed.

(** [flatten_event] raises on a document exactly when a section that should
    be a mapping is a truthy value of another type, the action is a truthy
    non-string, or the categories cannot be iterated; on every other document
    it returns a view. *)
Theorem flatten_event_total ecs : (∃ view, flatten_event ecs = Ok view) ↔ wf_ecs ecs = true.
Proof. rewrite <- is_ok_flatten. destruct (flatten_event ecs); naive_solver. Qed.

(** The view's [event_kind_label] is the classification of the document,
    and one of the kinds a rule may name. *)
Theorem flatten_event_label ecs view :
  flatten_event ecs = Ok view →
  ∃ kind, classify_event_kind ecs = Ok kind ∧ kind ∈ KNOWN_EVENT_KINDS ∧
          dict_get "event_kind_label" view = Some (PStr kind).
Proof.
  unfold flatten_event. intros H. apply res_bind_ok in H as (? & _ & H).
  apply res_bind_ok in H as (out & _ & H). apply res_bind_ok in H as (kind & Hk & H).
  exists kind. split_and!; [done|by eapply classify_known|].
  rewrite <- (dict_get_set_eq "event_kind_label" (PStr kind) out).
  match type of H with ?m = Ok view =>
    enough (keeps "event_kind_label" (dict_set "event_kind_label" (PStr kind) out) m)
      as Hkeep by (by apply Hkeep)
  end.
  keeps_tac; [apply keeps_process|apply keeps_file].
Qed.
