(* ===== verification/SeqEval.v ===== *)
(** * The sequence evaluator

    Models [SequenceEvaluator] of [backend/app/services/sequence.py]: the
    in-memory state machine that advances partial matches per rule and host.

    The main theorem relates it to a specification without state: the matches
    an event completes are exactly the chains of earlier events of the same
    host that start with the rule's trigger and satisfy its legs in order, each
    leg by the first event that can, inside its window.  The others show the
    invariant that keeps the evaluator from raising, that collecting garbage
    cannot be observed, and two places where the code does not do what its
    comments say. *)

From Stdlib Require Import Ascii String SpecFloat.
From S2P Require Import Prelude PyStr PyVal SeqExpr SeqRule.
Local Open Scope string_scope.
Local Open Scope list_scope.
Local Open Scope nat_scope.

(** ** State *)

Record partial := mkPartial {
  leg_idx : nat;             (** the next leg expected, counted from 1 *)
  deadline_ts : float;
  matched_event_ids : list str }.

Record SequenceMatch := mkMatch {
  m_rule_id : str;
  m_host_id : str;
  m_severity : pyval;
  m_message : str;
  m_event_ids : list str }.

(** [_rules] in insertion order; [_partials] by rule and host. *)
Record evaluator := mkEval {
  rules : list (str * ParsedSequence);
  partials : gmap (str * str) (list partial) }.

Definition init_evaluator : evaluator := mkEval [] ∅.

Definition register_rule (rid : str) (parsed : ParsedSequence) (st : evaluator) : evaluator :=
  mkEval (dict_set rid parsed (rules st)) (partials st).

Definition forget_rule (rid : str) (st : evaluator) : evaluator :=
  mkEval (dict_pop rid (rules st)) (filter (λ kv, kv.1.1 ≠ rid) (partials st)).

(** ** Feeding events *)

Definition event_kind_matches (spec : str) (view : dict) : bool :=
  String.eqb spec "any" || py_eq (get_none "event_kind_label" view) (PStr spec).

(** An event as the loop over the rules sees it. *)
Record event := mkEvent { now : float; host : str; view : dict; event_id : str }.

Definition leg_matches (leg : FollowedBySpec) (e : event) : bool :=
  event_kind_matches (f_event_kind leg) (view e) && peval (f_where leg) (view e).
Definition trigger_matches (parsed : ParsedSequence) (e : event) : bool :=
  event_kind_matches (t_event_kind (trigger parsed)) (view e)
  && peval (t_where (trigger parsed)) (view e).

Definition lookup_leg (parsed : ParsedSequence) (i : nat) : py FollowedBySpec :=
  of_option IndexError (legs parsed !! i).

(** The loop over the pending partials of one rule and host: the survivors and
    the completed sequences. *)
Fixpoint advance (rid : str) (parsed : ParsedSequence) (e : event) (pending : list partial)
    : py (list partial * list SequenceMatch) :=
  match pending with
  | [] => Ok ([], [])
  | p :: pending =>
      if flt (deadline_ts p) (now e) then advance rid parsed e pending
      else
        leg ← lookup_leg parsed (leg_idx p - 1);
        if leg_matches leg e then
          let ids := matched_event_ids p ++ [event_id e] in
          if length (legs parsed) <=? leg_idx p then
            '(survivors, matches) ← advance rid parsed e pending;
            Ok (survivors,
                mkMatch rid (host e) (e_severity (emit parsed)) (e_message (emit parsed)) ids
                :: matches)
          else
            next_leg ← lookup_leg parsed (leg_idx p);
            '(survivors, matches) ← advance rid parsed e pending;
            Ok (mkPartial (leg_idx p + 1) (fadd (now e) (within_s next_leg)) ids :: survivors,
                matches)
        else
          '(survivors, matches) ← advance rid parsed e pending;
          Ok (p :: survivors, matches)
  end.

(** [self._partials[key] = survivors] when there are any, else [pop]. *)
Definition store (key : str * str) (l : list partial) (ps : gmap (str * str) (list partial))
    : gmap (str * str) (list partial) :=
  match l with [] => delete key ps | _ => <[key := l]> ps end.

Definition pending_of (key : str * str) (ps : gmap (str * str) (list partial)) : list partial :=
  default [] (ps !! key).

(** A fresh partial for a trigger event. *)
Definition fresh_partial (parsed : ParsedSequence) (e : event) : py partial :=
  first_leg ← lookup_leg parsed 0;
  window ← py_float_of_int (window_s parsed);
  Ok (mkPartial 1 (fadd (now e) (fmin (within_s first_leg) window)) [event_id e]).

(** The body of the loop over the rules.  The partials are returned also when it
    raises: what was stored before stays stored. *)
Definition feed_rule (rid : str) (parsed : ParsedSequence) (e : event)
    (ps : gmap (str * str) (list partial))
    : gmap (str * str) (list partial) * py (list SequenceMatch) :=
  let key := (rid, host e) in
  match advance rid parsed e (pending_of key ps) with
  | Err x => (ps, Err x)
  | Ok (survivors, matches) =>
      let ps := store key survivors ps in
      if trigger_matches parsed e then
        match fresh_partial parsed e with
        | Err x => (ps, Err x)
        | Ok p => (<[key := pending_of key ps ++ [p]]> ps, Ok matches)
        end
      else (ps, Ok matches)
  end.

Fixpoint feed_rules (rs : list (str * ParsedSequence)) (e : event)
    (ps : gmap (str * str) (list partial))
    : gmap (str * str) (list partial) * py (list SequenceMatch) :=
  match rs with
  | [] => (ps, Ok [])
  | (rid, parsed) :: rs =>
      let '(ps, r) := feed_rule rid parsed e ps in
      match r with
      | Err x => (ps, Err x)
      | Ok ms =>
          let '(ps, r) := feed_rules rs e ps in (ps, ms' ← r; Ok (ms ++ ms'))
      end
  end.

Definition feed (st : evaluator) (e : event) : evaluator * py (list SequenceMatch) :=
  let '(ps, r) := feed_rules (rules st) e (partials st) in (mkEval (rules st) ps, r).

(** The part of [feed_event] before the loop: [Ok None] when it returns early.
    A host id that is not a string is outside the model unless it makes the key
    unhashable. *)
Definition read_event (ecs : dict) (now_ts : float) : py (option event) :=
  id ← py_get "id" (sub "host" ecs);
  if negb (truthy id) then Ok None
  else
    v ← flatten_event ecs;
    match id with
    | PStr h =>
        Ok (Some (mkEvent now_ts h v (py_str (py_or (get_none "event_id" v) (PStr "")))))
    | PList _ | PDict _ => Err TypeError
    | _ => Err Unmodelled
    end.

Definition feed_event (st : evaluator) (ecs : dict) (now_ts : float)
    : evaluator * py (list SequenceMatch) :=
  match rules st with
  | [] => (st, Ok [])
  | _ =>
      match read_event ecs now_ts with
      | Err x => (st, Err x)
      | Ok None => (st, Ok [])
      | Ok (Some e) => feed st e
      end
  end.

(** ** Garbage collection *)

Definition keep_at (t : float) (l : list partial) : list partial :=
  List.filter (λ p, fle t (deadline_ts p)) l.

Definition gc (t : float) (st : evaluator) : evaluator * nat :=
  (mkEval (rules st)
     (omap (λ l, match keep_at t l with [] => None | kept => Some kept end) (partials st)),
   sum_list_with (λ kv, length kv.2 - length (keep_at t kv.2)) (map_to_list (partials st))).

Definition pending_count (st : evaluator) : nat :=
  sum_list_with (λ kv, length kv.2) (map_to_list (partials st)).

(** ** Specification: chains of events *)

Section chains.
Context (parsed : ParsedSequence).

Definition alive (d : float) (e : event) : bool := negb (flt d (now e)).

(** [waits leg d gap e]: [e] is the first event after [gap] that matches [leg],
    and neither it nor any event of [gap] comes after the deadline [d]. *)
Definition waits (leg : FollowedBySpec) (d : float) (gap : list event) (e : event) : Prop :=
  Forall (λ x, alive d x = true ∧ leg_matches leg x = false) gap ∧
  alive d e = true ∧ leg_matches leg e = true.

(** [chain ls d es ids]: the events [es] satisfy the legs [ls] in order, the
    last of them with the last event; the deadline of the first leg is [d],
    that of each later one counts from the event that matched its predecessor;
    [ids] are the ids of the matching events. *)
Inductive chain : list FollowedBySpec → float → list event → list str → Prop :=
| chain_last leg d gap e :
    waits leg d gap e → chain [leg] d (gap ++ [e]) [event_id e]
| chain_more leg leg' ls d gap e es ids :
    waits leg d gap e → chain (leg' :: ls) (fadd (now e) (within_s leg')) es ids →
    chain (leg :: leg' :: ls) d (gap ++ e :: es) (event_id e :: ids).

(** The deadline a trigger event sets. *)
Definition first_deadline (e : event) : float :=
  match legs parsed, py_float_of_int (window_s parsed) with
  | leg :: _, Ok w => fadd (now e) (fmin (within_s leg) w)
  | _, _ => S754_nan
  end.

(** A sequence of the rule, from its trigger [e0] to its last event. *)
Definition sequence (e0 : event) (es : list event) (ids : list str) : Prop :=
  trigger_matches parsed e0 = true ∧
  ∃ ids', chain (legs parsed) (first_deadline e0) es ids' ∧ ids = event_id e0 :: ids'.

Lemma chain_nonempty ls d es ids : chain ls d es ids → ls ≠ [] ∧ es ≠ [].
Proof. by destruct 1; split; [|destruct gap| |destruct gap]. Qed.

(** A chain read from its first event. *)
Lemma chain_cons leg ls d x es ids :
  chain (leg :: ls) d (x :: es) ids ↔
  alive d x = true ∧
  if leg_matches leg x then
    match ls with
    | [] => es = [] ∧ ids = [event_id x]
    | leg' :: _ =>
        ∃ ids', ids = event_id x :: ids' ∧ chain ls (fadd (now x) (within_s leg')) es ids'
    end
  else chain (leg :: ls) d es ids.
Proof.
  split.
  - inversion 1 as [leg0 d0 gap e Hw E1 E2 E3 E4|leg0 leg' ls' d0 gap e es' ids' Hw Hc E1 E2 E3 E4];
      subst; destruct Hw as (Hgap & He & Hm); destruct gap as [|y gap]; simplify_eq/=.
    + by rewrite He, Hm.
    + apply Forall_cons in Hgap as [[Hy Hyl] Hgap]. rewrite Hy, Hyl. split; [done|].
      by apply chain_last.
    + rewrite He, Hm. eauto.
    + apply Forall_cons in Hgap as [[Hy Hyl] Hgap]. rewrite Hy, Hyl. split; [done|].
      by apply chain_more.
  - intros [Hx Hrest]. destruct (leg_matches leg x) eqn:Hm.
    + destruct ls as [|leg' ls].
      * destruct Hrest as [-> ->]. by apply (chain_last leg d []).
      * destruct Hrest as (ids' & -> & Hc). by apply (chain_more leg leg' ls d []).
    + inversion Hrest as [leg0 d0 gap e Hw E1 E2 E3 E4|leg0 leg' ls' d0 gap e es' ids' Hw Hc E1 E2 E3 E4];
        subst; destruct Hw as (Hgap & He & Hl).
      * apply (chain_last leg d (x :: gap)). split_and!; [constructor|..]; done.
      * apply (chain_more leg leg' ls' d (x :: gap)); [|done]. split_and!; [constructor|..]; done.
Qed.

(** ** One partial *)

(** What one event does to a well-formed partial. *)
Inductive outcome := Dropped | Waiting (p : partial) | Completed (ids : list str).

Definition step_partial (e : event) (p : partial) : outcome :=
  if flt (deadline_ts p) (now e) then Dropped
  else match drop (leg_idx p - 1) (legs parsed) with
  | [] => Dropped
  | leg :: ls =>
      if leg_matches leg e then
        let ids := matched_event_ids p ++ [event_id e] in
        match ls with
        | [] => Completed ids
        | leg' :: _ => Waiting (mkPartial (leg_idx p + 1) (fadd (now e) (within_s leg')) ids)
        end
      else Waiting p
  end.
Definition waiting (o : outcome) : option partial :=
  match o with Waiting p => Some p | _ => None end.
Definition completed (o : outcome) : option (list str) :=
  match o with Completed ids => Some ids | _ => None end.

Definition partial_ok (p : partial) : Prop := 1 ≤ leg_idx p ≤ length (legs parsed).

Definition to_match (rid h : str) (ids : list str) : SequenceMatch :=
  mkMatch rid h (e_severity (emit parsed)) (e_message (emit parsed)) ids.

Lemma partial_leg p : partial_ok p →
  ∃ leg, legs parsed !! (leg_idx p - 1) = Some leg ∧
         drop (leg_idx p - 1) (legs parsed) = leg :: drop (leg_idx p) (legs parsed).
Proof.
  intros [H1 H2]. destruct (lookup_lt_is_Some_2 (legs parsed) (leg_idx p - 1)) as [leg Hleg]; [lia|].
  exists leg. split; [done|]. rewrite (drop_S _ _ _ Hleg). repeat f_equal. lia.
Qed.

Lemma step_partial_ok e p p' : partial_ok p → step_partial e p = Waiting p' → partial_ok p'.
Proof.
  intros Hp. unfold step_partial. destruct (flt _ _); [done|].
  destruct (partial_leg p Hp) as (leg & _ & ->).
  destruct (leg_matches leg e); [|intros; by simplify_eq].
  destruct (drop (leg_idx p) (legs parsed)) as [|leg' ls] eqn:Hd; [done|].
  intros [= <-]. assert (leg_idx p < length (legs parsed)).
  { apply (f_equal length) in Hd. rewrite length_drop in Hd. simpl in Hd. lia. }
  unfold partial_ok in *. simpl. lia.
Qed.

Definition survive (e : event) (p : partial) : option partial := waiting (step_partial e p).
Definition finish (e : event) (p : partial) : option (list str) := completed (step_partial e p).

(** The code's treatment of the first pending partial. *)
Lemma advance_cons rid e p l :
  partial_ok p →
  advance rid parsed e (p :: l) =
  '(survivors, matches) ← advance rid parsed e l;
  Ok (option_list (survive e p) ++ survivors,
      option_list (to_match rid (host e) <$> finish e p) ++ matches).
Proof.
  intros Hp. unfold survive, finish, step_partial. cbn [advance].
  destruct (flt (deadline_ts p) (now e)); [by destruct (advance _ _ _ l) as [[]|]|].
  destruct (partial_leg p Hp) as (leg & Hleg & ->). unfold lookup_leg. rewrite Hleg.
  cbn [of_option mbind res_bind].
  destruct (leg_matches leg e); [|by destruct (advance _ _ _ l) as [[]|]].
  destruct (drop (leg_idx p) (legs parsed)) as [|leg' ls] eqn:Hd.
  - assert (length (legs parsed) ≤ leg_idx p) as Hle%Nat.leb_le.
    { apply (f_equal length) in Hd. rewrite length_drop in Hd. simpl in Hd. lia. }
    rewrite Hle. by destruct (advance _ _ _ l) as [[]|].
  - assert (legs parsed !! leg_idx p = Some leg') as Hleg'.
    { rewrite <- (Nat.add_0_r (leg_idx p)), <- lookup_drop. by rewrite Hd. }
    assert (leg_idx p < length (legs parsed)) as Hlt by (by eapply lookup_lt_Some).
    rewrite (proj2 (Nat.leb_gt _ _) Hlt), Hleg'. by destruct (advance _ _ _ l) as [[]|].
Qed.

(** The loop of the code is one step of every partial. *)
Lemma advance_eq rid e l :
  Forall partial_ok l →
  advance rid parsed e l =
  Ok (omap (survive e) l, map (to_match rid (host e)) (omap (finish e) l)).
Proof.
  induction 1 as [|p l Hp _ IH]; [done|]. rewrite advance_cons, IH by done. simpl.
  by destruct (survive e p), (finish e p).
Qed.

Lemma survive_ok e l : Forall partial_ok l → Forall partial_ok (omap (survive e) l).
Proof.
  induction 1 as [|p l Hp _ IH]; [constructor|]. simpl. unfold survive at 1.
  destruct (step_partial e p) eqn:Hs; simpl; try done. constructor; [|done].
  by eapply step_partial_ok.
Qed.

(** ** The partials of one host *)

Definition fresh (e : event) : partial := mkPartial 1 (first_deadline e) [event_id e].
Definition born (e : event) : list partial :=
  if trigger_matches parsed e then [fresh e] else [].

(** A partial through the events that follow. *)
Fixpoint walk (p : partial) (es : list event) : option partial :=
  match es with
  | [] => Some p
  | e :: es => match survive e p with Some p => walk p es | None => None end
  end.

(** The partials alive after the events [es] of one host. *)
Fixpoint live (es : list event) : list partial :=
  match es with
  | [] => []
  | e :: es => omap (λ p, walk p es) (born e) ++ live es
  end.

Lemma walk_snoc p es e : walk p (es ++ [e]) = walk p es ≫= survive e.
Proof.
  revert p. induction es as [|x es IH]; intros p; simpl; [by destruct (survive e p)|].
  by destruct (survive x p).
Qed.

Lemma live_snoc es e : live (es ++ [e]) = omap (survive e) (live es) ++ born e.
Proof.
  induction es as [|x es IH]; simpl.
  - unfold born. by destruct (trigger_matches parsed e).
  - rewrite IH, omap_app, app_assoc. f_equal. f_equal.
    unfold born. destruct (trigger_matches parsed x); [|done]. simpl. rewrite walk_snoc.
    by destruct (walk (fresh x) es).
Qed.

Lemma live_elem es p :
  p ∈ live es ↔
  ∃ pre e0 mid, es = pre ++ e0 :: mid ∧ trigger_matches parsed e0 = true ∧
                walk (fresh e0) mid = Some p.
Proof.
  induction es as [|x es IH]; simpl.
  - split; [set_solver|]. by intros (pre & e0 & mid & He & _); destruct pre.
  - rewrite elem_of_app, IH, list_elem_of_omap. split.
    + intros [(q & Hq & Hw)|(pre & e0 & mid & -> & H)].
      * unfold born in Hq. destruct (trigger_matches parsed x) eqn:Ht; [|set_solver].
        apply list_elem_of_singleton in Hq as ->. by exists [], x, es.
      * exists (x :: pre), e0, mid. by split.
    + intros (pre & e0 & mid & He & Ht & Hw). destruct pre as [|y pre]; simplify_eq/=.
      * left. exists (fresh e0). unfold born. rewrite Ht. split; [by left|done].
      * right. by exists pre, e0, mid.
Qed.

Lemma no_chain_nil leg ls d ids : ¬ chain (leg :: ls) d [] ids.
Proof. intros H. by apply chain_nonempty in H as [_ ?]. Qed.

Lemma app_snoc_nil {A} (l : list A) x : l ++ [x] ≠ [].
Proof. by destruct l. Qed.

(** One event at the head of a chain is one step of the partial. *)
Lemma chain_step p x es ids' :
  partial_ok p → 
  chain (drop (leg_idx p - 1) (legs parsed)) (deadline_ts p) (x :: es) ids' ↔
  match step_partial x p with
  | Dropped => False
  | Completed ids => es = [] ∧ ids' = [event_id x]
  | Waiting p' =>
      ∃ ids'', matched_event_ids p ++ ids' = matched_event_ids p' ++ ids'' ∧
      chain (drop (leg_idx p' - 1) (legs parsed)) (deadline_ts p') es ids''
  end.
Proof.
  intros Hp. unfold step_partial. destruct (partial_leg p Hp) as (leg & _ & Hd). rewrite Hd.
  rewrite chain_cons. unfold alive. destruct (flt (deadline_ts p) (now x)); simpl; [naive_solver|].
  destruct (leg_matches leg x).
  - destruct (drop (leg_idx p) (legs parsed)) as [|leg' ls] eqn:Hl; [naive_solver|]. simpl.
    rewrite Nat.add_sub, Hl. split.
    + intros (_ & ids'' & -> & Hc). exists ids''. by rewrite <- app_assoc.
    + intros (ids'' & Heq & Hc). split; [done|]. exists ids''. split; [|done].
      rewrite <- app_assoc in Heq. by apply app_inv_head in Heq.
  - rewrite Hd. split; [|intros (ids'' & ->%app_inv_head & Hc); done].
    intros [_ Hc]. by exists ids'.
Qed.

Lemma walk_chain p es e ids :
  partial_ok p →
  (∃ p', walk p es = Some p' ∧ finish e p' = Some ids) ↔
  ∃ ids', chain (drop (leg_idx p - 1) (legs parsed)) (deadline_ts p) (es ++ [e]) ids' ∧
          ids = matched_event_ids p ++ ids'.
Proof.
  revert p. induction es as [|x es IH]; intros p Hp; simpl.
  - setoid_rewrite (chain_step p e [] _ Hp). unfold finish.
    trans (completed (step_partial e p) = Some ids); [naive_solver|].
    destruct (partial_leg p Hp) as (leg & _ & Hd).
    destruct (step_partial e p) as [|p'|ids0] eqn:Hs; simpl; [naive_solver|..].
    + split; [naive_solver|]. intros (ids' & (ids'' & _ & Hc) & _).
      destruct (partial_leg p') as (leg' & _ & Hd'); [by eapply step_partial_ok|].
      rewrite Hd' in Hc. by apply no_chain_nil in Hc.
    + assert (ids0 = matched_event_ids p ++ [event_id e]) as ->.
      { revert Hs. unfold step_partial. rewrite Hd. by repeat case_match; intros; simplify_eq. }
      naive_solver.
  - setoid_rewrite (chain_step p x (es ++ [e]) _ Hp). unfold survive.
    destruct (step_partial x p) as [|p'|ids0] eqn:Hs; simpl; [naive_solver| |].
    + rewrite IH by (by eapply step_partial_ok). split.
      * intros (ids'' & Hc & ->). assert (∃ k, matched_event_ids p' = matched_event_ids p ++ k) as [k Hk].
        { revert Hs. unfold step_partial. repeat case_match; intros; simplify_eq; eauto.
          exists []. by rewrite app_nil_r. }
        exists (k ++ ids''). rewrite Hk, <- app_assoc. split; [exists ids''; split; [by rewrite app_assoc|done]|done].
      * intros (ids' & (ids'' & Heq & Hc) & ->). by exists ids''.
    + split; [naive_solver|]. intros (ids' & [Hnil _] & _). by apply app_snoc_nil in Hnil.
Qed.

Hypothesis Hlegs : legs parsed ≠ [].

Lemma fresh_ok e : partial_ok (fresh e).
Proof. unfold partial_ok. simpl. destruct (legs parsed); [done|]. simpl. lia. Qed.

Lemma walk_ok p es p' : partial_ok p → walk p es = Some p' → partial_ok p'.
Proof.
  revert p. induction es as [|x es IH]; intros p Hp; simpl; [by intros [= <-]|].
  unfold survive. destruct (step_partial x p) eqn:Hs; simpl; try done.
  apply IH. by eapply step_partial_ok.
Qed.

Lemma live_ok es : Forall partial_ok (live es).
Proof.
  apply Forall_forall. intros p (pre & e0 & mid & _ & _ & Hw)%live_elem.
  eapply walk_ok; [apply fresh_ok|done].
Qed.

(** The sequences that [e] completes, after the events [es] of its host. *)
Lemma finish_sequence es e ids :
  ids ∈ omap (finish e) (live es) ↔
  ∃ pre e0 mid, es = pre ++ e0 :: mid ∧ sequence e0 (mid ++ [e]) ids.
Proof.
  rewrite list_elem_of_omap. unfold sequence. split.
  - intros (p & (pre & e0 & mid & -> & Ht & Hw)%live_elem & Hf).
    exists pre, e0, mid. split_and!; [done|done|].
    destruct (proj1 (walk_chain (fresh e0) mid e ids (fresh_ok e0))) as (ids' & Hc & ->); [eauto|].
    exists ids'. by split.
  - intros (pre & e0 & mid & -> & Ht & ids' & Hc & ->).
    destruct (proj2 (walk_chain (fresh e0) mid e (event_id e0 :: ids') (fresh_ok e0))) as (p & Hw & Hf);
      [by exists ids'|].
    exists p. split; [|done]. apply live_elem. by exists pre, e0, mid.
Qed.
End chains.

(** ** The evaluator implements the specification *)

(** What [parse_yaml] guarantees of a rule (see [parse_yaml_wf]), and a window
    that has a float. *)
Definition rule_ok (parsed : ParsedSequence) : Prop :=
  legs parsed ≠ [] ∧ is_ok (py_float_of_int (window_s parsed)) = true.
Definition rules_ok (rs : list (str * ParsedSequence)) : Prop :=
  NoDup rs.*1 ∧ Forall (λ r, rule_ok r.2) rs.

(** Every pending partial waits for a leg its rule has. *)
Definition pending_ok (rs : list (str * ParsedSequence)) (ps : gmap (str * str) (list partial))
    : Prop :=
  ∀ rid parsed h, (rid, parsed) ∈ rs → Forall (partial_ok parsed) (pending_of (rid, h) ps).
Definition no_orphans (rs : list (str * ParsedSequence)) (ps : gmap (str * str) (list partial))
    : Prop :=
  ∀ rid h, dict_get rid rs = None → pending_of (rid, h) ps = [].
Definition wf (st : evaluator) : Prop :=
  rules_ok (rules st) ∧ pending_ok (rules st) (partials st) ∧ no_orphans (rules st) (partials st).

Lemma fresh_partial_ok parsed e : rule_ok parsed → fresh_partial parsed e = Ok (fresh parsed e).
Proof.
  intros [Hl Hw]. unfold fresh_partial, lookup_leg, fresh, first_deadline.
  destruct (legs parsed); [done|]. simpl. by destruct (py_float_of_int _).
Qed.

Lemma pending_of_insert k k' l ps :
  pending_of k (<[k' := l]> ps) = if decide (k' = k) then l else pending_of k ps.
Proof. unfold pending_of. rewrite lookup_insert. by case_decide. Qed.

Lemma pending_of_store k k' l ps :
  pending_of k (store k' l ps) = if decide (k' = k) then l else pending_of k ps.
Proof.
  destruct l; simpl; [|apply pending_of_insert].
  unfold pending_of. rewrite lookup_delete. by case_decide.
Qed.

(** The pending partials of one rule and host after an event. *)
Definition next_pending (parsed : ParsedSequence) (e : event) (l : list partial) : list partial :=
  omap (survive parsed e) l ++ born parsed e.
Definition rule_matches (rid : str) (parsed : ParsedSequence) (e : event) (l : list partial)
    : list SequenceMatch :=
  map (to_match parsed rid (host e)) (omap (finish parsed e) l).

Lemma feed_rule_ok rid parsed e ps :
  rule_ok parsed → Forall (partial_ok parsed) (pending_of (rid, host e) ps) →
  ∃ ps', feed_rule rid parsed e ps
         = (ps', Ok (rule_matches rid parsed e (pending_of (rid, host e) ps))) ∧
    ∀ k, pending_of k ps' =
      if decide ((rid, host e) = k) then next_pending parsed e (pending_of k ps)
      else pending_of k ps.
Proof.
  intros Hr Hp. unfold feed_rule. rewrite advance_eq by done. fold (rule_matches rid parsed e (pending_of (rid, host e) ps)).
  unfold next_pending, born. destruct (trigger_matches parsed e).
  - rewrite fresh_partial_ok by done. eexists; split; [done|]. intros k.
    rewrite pending_of_insert, !pending_of_store, (decide_True (P := (rid, host e) = (rid, host e))) by done.
    by case_decide; subst.
  - eexists; split; [done|]. intros k. rewrite pending_of_store, app_nil_r.
    by case_decide; subst.
Qed.

Lemma feed_rules_ok rs e ps :
  rules_ok rs → pending_ok rs ps →
  ∃ ps', feed_rules rs e ps =
    (ps', Ok (concat (map (λ r, rule_matches r.1 r.2 e (pending_of (r.1, host e) ps)) rs))) ∧
    ∀ rid h, pending_of (rid, h) ps' =
      match dict_get rid rs with
      | Some parsed =>
          if decide (host e = h) then next_pending parsed e (pending_of (rid, h) ps)
          else pending_of (rid, h) ps
      | None => pending_of (rid, h) ps
      end.
Proof.
  revert ps. induction rs as [|[rid parsed] rs IH]; intros ps [Hnd Hok] Hps; [by eexists|].
  apply NoDup_cons in Hnd as [Hrid Hnd]. apply Forall_cons in Hok as [Hr Hok]. simpl.
  destruct (feed_rule_ok rid parsed e ps) as (ps1 & -> & Hps1);
    [done|apply (Hps rid parsed); by left|].
  assert (∀ rid' h, rid' ≠ rid → pending_of (rid', h) ps1 = pending_of (rid', h) ps) as Hother.
  { intros rid' h Hne. rewrite Hps1, decide_False; [done|naive_solver]. }
  assert (∀ r, r ∈ rs → r.1 ≠ rid) as Hrs.
  { intros r Hin <-. apply Hrid. simpl. apply list_elem_of_fmap. by exists r. }
  destruct (IH ps1) as (ps2 & -> & Hps2); [done| |].
  { intros rid' parsed' h Hin. rewrite Hother by (by apply (Hrs _ Hin)). apply (Hps rid').
    by right. }
  exists ps2. split.
  - cbn [mbind res_bind fst snd]. do 4 f_equal. apply map_ext_in. intros r Hin%list_elem_of_In.
    by rewrite Hother by (by apply Hrs).
  - intros rid' h. rewrite Hps2. destruct (String.eqb_spec rid' rid) as [->|Hne].
    + rewrite (proj2 (dict_get_None rid rs)) by done. rewrite Hps1.
      destruct (decide (host e = h)) as [->|]; [by rewrite decide_True|].
      rewrite decide_False by naive_solver. done.
    + by rewrite Hother.
Qed.

Lemma next_pending_ok parsed e l :
  rule_ok parsed → Forall (partial_ok parsed) l → Forall (partial_ok parsed) (next_pending parsed e l).
Proof.
  intros [Hl _] H. apply Forall_app. split; [by apply survive_ok|].
  unfold born. destruct (trigger_matches parsed e); repeat constructor; simpl.
  destruct (legs parsed); [done|simpl; lia].
Qed.

Lemma feed_ok st e :
  wf st →
  (feed st e).2 = Ok (concat (map (λ r, rule_matches r.1 r.2 e
                                (pending_of (r.1, host e) (partials st))) (rules st))) ∧
  rules (feed st e).1 = rules st ∧ wf (feed st e).1 ∧
  ∀ rid parsed h, (rid, parsed) ∈ rules st →
    pending_of (rid, h) (partials (feed st e).1) =
    if decide (host e = h) then next_pending parsed e (pending_of (rid, h) (partials st))
    else pending_of (rid, h) (partials st).
Proof.
  intros (Hr & Hp & Ho). unfold feed.
  destruct (feed_rules_ok (rules st) e (partials st) Hr Hp) as (ps' & -> & Hps). simpl.
  assert (∀ rid parsed h, (rid, parsed) ∈ rules st →
    pending_of (rid, h) ps' =
    if decide (host e = h) then next_pending parsed e (pending_of (rid, h) (partials st))
    else pending_of (rid, h) (partials st)) as Hnext.
  { intros rid parsed h Hin. rewrite Hps. destruct Hr as [Hnd _].
    by rewrite (dict_elem_get _ _ _ Hnd Hin). }
  split_and!; [done|done| |done]. split_and!; [done| |]; simpl; last first.
  { intros rid h Hn. rewrite Hps, Hn. by apply Ho. }
  intros rid parsed h Hin. rewrite (Hnext _ _ _ Hin). specialize (Hp rid parsed h Hin).
  case_decide; [|done]. apply next_pending_ok; [|done].
  destruct Hr as [_ Hr]. rewrite Forall_forall in Hr. apply (Hr _ Hin).
Qed.

(** The state after a list of events. *)
Definition run (st : evaluator) (es : list event) : evaluator :=
  fold_left (λ st e, (feed st e).1) es st.

(** The events of one host. *)
Definition of_host (h : str) (es : list event) : list event :=
  List.filter (λ e, String.eqb (host e) h) es.

Lemma run_pending rs es :
  rules_ok rs →
  wf (run (mkEval rs ∅) es) ∧ rules (run (mkEval rs ∅) es) = rs ∧
  ∀ rid parsed h, (rid, parsed) ∈ rs →
    pending_of (rid, h) (partials (run (mkEval rs ∅) es)) = live parsed (of_host h es).
Proof.
  intros Hrs. induction es as [|e es IH] using rev_ind.
  { split_and!; [|done|done]. split_and!; [done| |done]. intros rid parsed h _. constructor. }
  unfold run in *. rewrite fold_left_app. simpl. set (st := fold_left _ es _) in *.
  destruct IH as (Hwf & Hrules & Hlive). destruct (feed_ok st e Hwf) as (_ & Hr & Hwf' & Hnext).
  split_and!; [done|congruence|]. intros rid parsed h Hin.
  rewrite (Hnext _ parsed) by (by rewrite Hrules). rewrite (Hlive _ parsed) by done.
  unfold of_host. rewrite List.filter_app. simpl. destruct (String.eqb_spec (host e) h).
  - by rewrite decide_True, live_snoc.
  - by rewrite decide_False, app_nil_r.
Qed.

(** A feed of a reachable state, rule by rule. *)
Lemma feed_matches rs es e :
  rules_ok rs →
  (feed (run (mkEval rs ∅) es) e).2 =
  Ok (concat (map (λ r, rule_matches r.1 r.2 e (live r.2 (of_host (host e) es))) rs)).
Proof.
  intros Hrs. destruct (run_pending rs es Hrs) as (Hwf & Hr & Hlive).
  destruct (feed_ok _ e Hwf) as (-> & _). rewrite Hr. do 2 f_equal.
  apply map_ext_in. intros [rid parsed] Hin%list_elem_of_In. simpl.
  by rewrite (Hlive rid parsed).
Qed.

(** ** Operations other than feeding *)

Definition gc_list (t : float) (l : list partial) : option (list partial) :=
  match keep_at t l with [] => None | kept => Some kept end.

Lemma pending_of_gc t st k :
  pending_of k (partials (gc t st).1) = keep_at t (pending_of k (partials st)).
Proof.
  unfold pending_of. simpl. rewrite lookup_omap. destruct (partials st !! k) as [l|]; [|done].
  simpl. by destruct (keep_at t l).
Qed.

Lemma pending_of_forget rid k st :
  pending_of k (partials (forget_rule rid st)) =
  if decide (k.1 = rid) then [] else pending_of k (partials st).
Proof.
  unfold pending_of, forget_rule. simpl. rewrite map_lookup_filter.
  destruct (partials st !! k) as [l|]; simpl; [|by case_decide].
  case_guard; simpl; by case_decide.
Qed.

Lemma elem_of_dict_pop {A} rid k (v : A) d :
  NoDup d.*1 → (k, v) ∈ dict_pop rid d → k ≠ rid ∧ (k, v) ∈ d.
Proof.
  induction d as [|[j w] d IH]; simpl; [set_solver|]. intros [Hj Hd]%NoDup_cons.
  destruct (String.eqb_spec rid j) as [->|Hne]; [|set_solver].
  intros Hin. split; [|by right]. intros ->. apply Hj. apply list_elem_of_fmap. by exists (j, v).
Qed.

Lemma elem_of_dict_set {A} rid (p : A) k v d :
  NoDup d.*1 → (k, v) ∈ dict_set rid p d → (k = rid ∧ v = p) ∨ (k ≠ rid ∧ (k, v) ∈ d).
Proof.
  intros Hd Hin. apply dict_elem_get in Hin; [|by apply dict_set_NoDup].
  rewrite dict_get_set in Hin. destruct (String.eqb_spec k rid); [left; naive_solver|].
  right. split; [done|by apply dict_get_elem].
Qed.

Lemma dict_pop_keys {A} rid (d : list (str * A)) : (dict_pop rid d).*1 `sublist_of` d.*1.
Proof.
  induction d as [|[j w] d IH]; simpl; [done|].
  destruct (String.eqb rid j); [by apply sublist_cons|by apply sublist_skip].
Qed.

Lemma Forall_dict {A} (P : str * A → Prop) d : Forall P d ↔ ∀ k v, (k, v) ∈ d → P (k, v).
Proof. rewrite Forall_forall. split; [naive_solver|]. intros H [k v]. apply H. Qed.

Lemma wf_init : wf init_evaluator.
Proof. split_and!; [split; constructor|..]; by repeat intro. Qed.

(** Registering a rule is safe when an edit does not shorten it. *)
Definition no_shrink (rid : str) (parsed : ParsedSequence) (st : evaluator) : Prop :=
  match dict_get rid (rules st) with
  | Some old => length (legs old) ≤ length (legs parsed)
  | None => True
  end.

Lemma wf_register rid parsed st :
  wf st → rule_ok parsed → no_shrink rid parsed st → wf (register_rule rid parsed st).
Proof.
  intros ([Hnd Hok] & Hp & Ho) Hr Hs. split_and!; simpl.
  - split; [by apply dict_set_NoDup|]. apply Forall_dict. intros k v Hin.
    apply elem_of_dict_set in Hin as [[-> ->]|[_ Hin]]; [done| |done].
    rewrite Forall_dict in Hok. by apply Hok.
  - intros k v h Hin. apply elem_of_dict_set in Hin as [[-> ->]|[_ Hin]]; [|by apply Hp|done].
    unfold no_shrink in Hs. destruct (dict_get rid (rules st)) as [old|] eqn:Hold; [|by rewrite (Ho rid)].
    eapply Forall_impl; [by apply (Hp rid old), dict_get_elem|].
    unfold partial_ok. intros p. simpl. lia.
  - intros k h. rewrite dict_get_set. destruct (String.eqb_spec k rid); [done|]. apply Ho.
Qed.

Lemma wf_forget rid st : wf st → wf (forget_rule rid st).
Proof.
  intros ([Hnd Hok] & Hp & Ho). split_and!; simpl.
  - split; [eapply sublist_NoDup; [done|apply dict_pop_keys]|]. apply Forall_dict. intros k v Hin.
    apply elem_of_dict_pop in Hin as [_ Hin]; [|done]. rewrite Forall_dict in Hok. by apply Hok.
  - intros k v h Hin. apply elem_of_dict_pop in Hin as [Hne Hin]; [|done].
    pose proof (pending_of_forget rid (k, h) st) as E. simpl in E. rewrite E, decide_False by done.
    by apply Hp.
  - intros k h. rewrite dict_get_pop by done. intros Hn.
    pose proof (pending_of_forget rid (k, h) st) as E. simpl in E. rewrite E.
    destruct (String.eqb_spec k rid) as [->|]; [by rewrite decide_True|].
    rewrite decide_False by done. by apply Ho.
Qed.

Lemma wf_gc t st : wf st → wf (gc t st).1.
Proof.
  intros (Hr & Hp & Ho). split_and!; [done|..].
  - intros k v h Hin. rewrite pending_of_gc. apply Forall_forall. intros p Hpin.
    apply list_elem_of_In, List.filter_In in Hpin as [Hpin _].
    specialize (Hp k v h Hin). rewrite Forall_forall in Hp. by apply Hp, list_elem_of_In.
  - intros k h Hn. rewrite pending_of_gc. by rewrite Ho.
Qed.

(** The states the worker can reach. *)
Inductive reachable : evaluator → Prop :=
| reach_init : reachable init_evaluator
| reach_register rid parsed st :
    reachable st → rule_ok parsed → no_shrink rid parsed st → reachable (register_rule rid parsed st)
| reach_forget rid st : reachable st → reachable (forget_rule rid st)
| reach_feed e st : reachable st → reachable (feed st e).1
| reach_gc t st : reachable st → reachable (gc t st).1.

Lemma reachable_wf st : reachable st → wf st.
Proof.
  induction 1; [apply wf_init|by apply wf_register|by apply wf_forget| |by apply wf_gc].
  by apply feed_ok.
Qed.

(** ** Garbage collection cannot be observed *)

(** [trimmed t l k]: [k] is [l] without some partials whose deadline passed
    before [t]. *)
Inductive trimmed (t : float) : list partial → list partial → Prop :=
| trimmed_nil : trimmed t [] []
| trimmed_keep p l k : trimmed t l k → trimmed t (p :: l) (p :: k)
| trimmed_drop p l k : flt (deadline_ts p) t = true → trimmed t l k → trimmed t (p :: l) k.

Lemma trimmed_refl t l : trimmed t l l.
Proof. induction l; by constructor. Qed.
Lemma trimmed_app t l k l' k' : trimmed t l k → trimmed t l' k' → trimmed t (l ++ l') (k ++ k').
Proof. induction 1; intros; simpl; [done|constructor..]; auto. Qed.

(** A partial that was trimmed would have been dropped, silently, by any later
    event. *)
Lemma trimmed_feed t parsed e l k :
  fle t (now e) = true → trimmed t l k →
  omap (survive parsed e) l = omap (survive parsed e) k ∧
  omap (finish parsed e) l = omap (finish parsed e) k.
Proof.
  intros Ht. induction 1 as [|p l k _ [IH1 IH2]|p l k Hp _ [IH1 IH2]]; [done|..]; csimpl.
  - by rewrite IH1, IH2.
  - assert (step_partial parsed e p = Dropped) as Hs.
    { unfold step_partial. by rewrite (flt_fle_trans _ _ _ Hp Ht). }
    unfold survive at 1, finish at 1. by rewrite Hs.
Qed.

(** Two states that agree but for trimmed partials. *)
Definition same_but_trimmed (t : float) (st st' : evaluator) : Prop :=
  rules st = rules st' ∧ ∀ k, trimmed t (pending_of k (partials st)) (pending_of k (partials st')).

Lemma feed_same t e st st' :
  wf st → wf st' → fle t (now e) = true → same_but_trimmed t st st' →
  (feed st e).2 = (feed st' e).2 ∧ same_but_trimmed t (feed st e).1 (feed st' e).1.
Proof.
  intros Hwf Hwf' Ht [Hr Hk]. destruct (feed_ok st e Hwf) as (Hm & Hr1 & Hwf1 & Hn1).
  destruct (feed_ok st' e Hwf') as (Hm' & Hr1' & Hwf1' & Hn1'). split.
  - rewrite Hm, Hm', Hr. do 2 f_equal. apply map_ext. intros [rid parsed].
    unfold rule_matches. cbn [fst snd]. by rewrite (proj2 (trimmed_feed t parsed e _ _ Ht (Hk (rid, host e)))).
  - split; [congruence|]. intros [rid h]. destruct (dict_get rid (rules st)) as [parsed|] eqn:Hrid.
    + rewrite (Hn1 rid parsed h), (Hn1' rid parsed h)
        by (rewrite <- ?Hr; by apply dict_get_elem).
      case_decide; [|done]. unfold next_pending.
      rewrite (proj1 (trimmed_feed t parsed e _ _ Ht (Hk (rid, h)))). apply trimmed_refl.
    + destruct Hwf1 as (_ & _ & Ho1). destruct Hwf1' as (_ & _ & Ho1').
      rewrite Ho1, Ho1' by congruence. constructor.
Qed.

(** The matches of a list of events, one result per event. *)
Fixpoint outputs (st : evaluator) (es : list event) : list (py (list SequenceMatch)) :=
  match es with [] => [] | e :: es => (feed st e).2 :: outputs (feed st e).1 es end.

Lemma outputs_same t es st st' :
  wf st → wf st' → Forall (λ e, fle t (now e) = true) es → same_but_trimmed t st st' →
  outputs st es = outputs st' es.
Proof.
  revert st st'. induction es as [|e es IH]; intros st st' Hwf Hwf' Hes Hs; [done|].
  apply Forall_cons in Hes as [He Hes]. simpl.
  destruct (feed_same t e st st' Hwf Hwf' He Hs) as [-> Hs']. f_equal.
  apply IH; [by apply feed_ok..|done|done].
Qed.

Definition is_nan (f : float) : bool := match f with S754_nan => true | _ => false end.

Lemma not_fle x y : is_nan x = false → is_nan y = false → fle x y = false → flt y x = true.
Proof. float_order_cases. Qed.

Lemma keep_at_trimmed t l :
  is_nan t = false → Forall (λ p, is_nan (deadline_ts p) = false) l → trimmed t l (keep_at t l).
Proof.
  intros Ht. induction 1 as [|p l Hp _ IH]; [constructor|]. simpl.
  destruct (fle t (deadline_ts p)) eqn:Hle; constructor; auto using not_fle.
Qed.

Lemma sum_insert {A} (f : (str * str) * A → nat) (k : str * str) (x : A) (m : gmap (str * str) A) :
  m !! k = None →
  sum_list_with f (map_to_list (<[k := x]> m)) = f (k, x) + sum_list_with f (map_to_list m).
Proof. intros Hk. by rewrite map_to_list_insert by done. Qed.

Lemma gc_count t st : pending_count st = pending_count (gc t st).1 + (gc t st).2.
Proof.
  unfold pending_count, gc. simpl. generalize (partials st) as m.
  induction m as [|k l m Hk IH] using map_ind; [done|].
  rewrite !sum_insert by done. simpl.
  assert (length (keep_at t l) ≤ length l) by apply List.filter_length_le.
  destruct (keep_at t l) as [|p kept] eqn:Hkeep.
  - rewrite omap_insert_None by (by rewrite Hkeep). rewrite IH. rewrite delete_id; [simpl; lia|].
    by rewrite lookup_omap, Hk.
  - erewrite omap_insert_Some by (by rewrite Hkeep). rewrite sum_insert by (by rewrite lookup_omap, Hk).
    rewrite IH. simpl in *. lia.
Qed.

Lemma chain_prefix_free ls d es more ids ids' :
  chain ls d es ids → chain ls d (es ++ more) ids' → more = [].
Proof.
  revert ls d ids ids'. induction es as [|x es IH]; intros ls d ids ids' H1 H2.
  { by apply chain_nonempty in H1 as [_ ?]. }
  destruct ls as [|leg ls]; [by apply chain_nonempty in H1 as [? _]|].
  simpl in H2. apply chain_cons in H1 as [_ H1], H2 as [_ H2].
  destruct (leg_matches leg x); [|by eapply IH].
  destruct ls as [|leg' ls].
  - destruct H1 as [-> _]. by destruct H2.
  - destruct H1 as (k & _ & H1), H2 as (k' & _ & H2). by eapply IH.
Qed.

(** The matches of a feed, rule by rule, and the sequences they stand for. *)
Lemma matches_sequences rs es e m :
  rules_ok rs →
  m ∈ concat (map (λ r, rule_matches r.1 r.2 e (live r.2 (of_host (host e) es))) rs) ↔
  ∃ rid parsed pre e0 mid ids,
    (rid, parsed) ∈ rs ∧
    of_host (host e) es = pre ++ e0 :: mid ∧
    sequence parsed e0 (mid ++ [e]) ids ∧
    m = mkMatch rid (host e) (e_severity (emit parsed)) (e_message (emit parsed)) ids.
Proof.
  intros Hrs. rewrite list_elem_of_In, in_concat. setoid_rewrite in_map_iff. split.
  - intros (l & ([rid parsed] & <- & Hin) & Hm). simpl in Hm.
    apply in_map_iff in Hm as (ids & <- & Hids). apply list_elem_of_In in Hin, Hids.
    apply finish_sequence in Hids as (pre & e0 & mid & He & Hseq); [by exists rid, parsed, pre, e0, mid, ids|].
    destruct Hrs as [_ Hok]. rewrite Forall_forall in Hok. apply (Hok _ Hin).
  - intros (rid & parsed & pre & e0 & mid & ids & Hin & He & Hseq & ->).
    eexists; split; [exists (rid, parsed); split; [done|by apply list_elem_of_In]|]. simpl.
    apply in_map_iff. exists ids. split; [done|]. apply list_elem_of_In, finish_sequence.
    + destruct Hrs as [_ Hok]. rewrite Forall_forall in Hok. apply (Hok _ Hin).
    + by exists pre, e0, mid.
Qed.

(** ** Properties *)

(** C1: functional correctness of the evaluator.  After any events, feeding one
    more returns normally, and the matches it returns are exactly the sequences
    of the specification that end with this event: an earlier event of the same
    host matched the rule's trigger, and the events of that host since then
    satisfy the rule's legs in order, each leg with the first event that
    matches it, none after the leg's deadline. *)
Theorem feed_implements_spec rs es e :
  rules_ok rs →
  ∃ ms, (feed (run (mkEval rs ∅) es) e).2 = Ok ms ∧
  ∀ m, m ∈ ms ↔
    ∃ rid parsed pre e0 mid ids,
      (rid, parsed) ∈ rs ∧
      of_host (host e) es = pre ++ e0 :: mid ∧
      sequence parsed e0 (mid ++ [e]) ids ∧
      m = mkMatch rid (host e) (e_severity (emit parsed)) (e_message (emit parsed)) ids.
Proof.
  intros Hrs. eexists; split; [by apply feed_matches|]. intros m. by apply matches_sequences.
Qed.

(** A rule with two legs, and the events that complete it. *)
Definition demo_leg (k : str) (w : Z) : FollowedBySpec := mkLeg k PTrue (float_of_Z w).
Definition demo_rule : ParsedSequence :=
  mkParsed (mkTrigger "process_started" PTrue)
    [demo_leg "file_created" 5; demo_leg "network_connection" 10]
    (mkEmit (PStr "high") "dropper") 60.
Definition demo_event (t : Z) (kind id : str) : event :=
  mkEvent (float_of_Z t) "h1" [("event_kind_label", PStr kind)] id.

Lemma demo_rules_ok : rules_ok [("r1", demo_rule)].
Proof. split; [apply NoDup_singleton|repeat constructor]. done. Qed.

Lemma feed_implements_spec_witness :
  ∃ ms, (feed (run (mkEval [("r1", demo_rule)] ∅)
           [demo_event 0 "process_started" "a"; demo_event 4 "file_created" "b"])
         (demo_event 14 "network_connection" "c")).2 = Ok ms ∧
  mkMatch "r1" "h1" (PStr "high") "dropper" ["a"; "b"; "c"] ∈ ms.
Proof.
  destruct (feed_implements_spec [("r1", demo_rule)]
    [demo_event 0 "process_started" "a"; demo_event 4 "file_created" "b"]
    (demo_event 14 "network_connection" "c") demo_rules_ok) as (ms & Hms & _).
  exists ms. split; [done|]. vm_compute in Hms. injection Hms as <-. left.
Defined.

(** In every state reached by registering rules (an edit may not drop
    legs), forgetting rules, feeding events and collecting garbage, a document
    whose sections are mappings and whose host id is a string (or absent) is fed
    without an exception. *)
Theorem feed_event_safe st ecs t :
  reachable st → wf_ecs ecs = true →
  (let id := get_none "id" (fields (sub "host" ecs)) in is_str id || negb (truthy id)) = true →
  is_ok (feed_event st ecs t).2 = true.
Proof.
  intros Hst Hecs Hid. unfold feed_event. destruct (rules st) as [|r rs]; [done|].
  assert (∃ o, read_event ecs t = Ok o) as [o ->].
  { unfold read_event. pose proof (is_ok_flatten ecs) as Hf. rewrite Hecs in Hf.
    assert (section_ok "host" ecs = true) as Hh.
    { unfold wf_ecs, sections_ok in Hecs. cbn [forallb] in Hecs.
      rewrite !andb_true_iff in Hecs. naive_solver. }
    unfold section_ok in Hh. destruct (sub "host" ecs) as [| | | | | |d]; try done. simpl in *.
    change (default PNone (dict_get "id" d)) with (get_none "id" d).
    destruct (flatten_event ecs) as [v|]; [|done].
    destruct (get_none "id" d); simpl in *; rewrite ?Hid; eauto. destruct (negb _); eauto. }
  destruct o as [e|]; [|done].
  by destruct (feed_ok st e (reachable_wf st Hst)) as (-> & _).
Qed.

Lemma feed_event_safe_witness :
  is_ok (feed_event (forget_rule "r2" (register_rule "r1" demo_rule init_evaluator))
           [("host", PDict [("id", PStr "h1")]); ("process", PDict [("pid", PInt 4)])]
           (float_of_Z 0)).2 = true.
Proof.
  apply feed_event_safe; [|reflexivity|reflexivity].
  apply reach_forget, reach_register; [apply reach_init| |exact I].
  split; [discriminate|reflexivity].
Defined.

(** A trigger event completes at most one sequence: no sequence that starts
    with an event is a proper prefix of another that starts with it. *)
Theorem sequence_completes_once parsed e0 es more ids ids' :
  sequence parsed e0 es ids → sequence parsed e0 (es ++ more) ids' → more = [].
Proof.
  intros (_ & k & Hc & _) (_ & k' & Hc' & _). exact (chain_prefix_free _ _ _ _ _ _ Hc Hc').
Qed.

Lemma sequence_completes_once_witness :
  let e0 := demo_event 0 "process_started" "a" in
  let es := [demo_event 4 "file_created" "b"; demo_event 14 "network_connection" "c"] in
  sequence demo_rule e0 (es ++ []) ["a"; "b"; "c"] ∧ (@nil event = []).
Proof.
  intros e0 es.
  assert (sequence demo_rule e0 es ["a"; "b"; "c"]) as Hs.
  { split; [reflexivity|]. exists ["b"; "c"]. split; [|done]. unfold es.
    apply (chain_more _ _ _ _ []); [repeat constructor|].
    apply (chain_last _ _ []); repeat constructor. }
  split; [exact Hs|exact (sequence_completes_once demo_rule e0 es [] _ _ Hs Hs)].
Defined.

(** One event can complete the same rule several times on one host, once
    for each pending trigger, although the comment on [feed_event] bounds the
    matches of an event by the number of rules. *)
Theorem one_event_two_matches :
  let e0 := demo_event 0 "process_started" "a" in
  let e1 := demo_event 1 "process_started" "b" in
  let e2 := demo_event 2 "file_created" "c" in
  ∃ ms, (feed (run (mkEval [("r1", demo_rule)] ∅) [e0; e1; e2])
           (demo_event 3 "network_connection" "d")).2 = Ok ms ∧
        map m_rule_id ms = ["r1"; "r1"] ∧ map m_event_ids ms = [["a"; "c"; "d"]; ["b"; "c"; "d"]].
Proof.
  exists [mkMatch "r1" "h1" (PStr "high") "dropper" ["a"; "c"; "d"];
          mkMatch "r1" "h1" (PStr "high") "dropper" ["b"; "c"; "d"]].
  split; [vm_compute; reflexivity|by split].
Qed.

(** The restriction on edits is needed.  When a rule with two legs is
    replaced by one with a single leg while a partial waits for the second,
    the next event of that host makes [feed_event] raise [IndexError]. *)
Theorem shortening_edit_raises :
  let st := run (register_rule "r1" demo_rule init_evaluator)
              [demo_event 0 "process_started" "a"; demo_event 1 "file_created" "b"] in
  let shorter := mkParsed (trigger demo_rule) [demo_leg "file_created" 5] (emit demo_rule) 60 in
  (feed (register_rule "r1" shorter st) (demo_event 2 "registry_set" "c")).2 = Err IndexError.
Proof. vm_compute. reflexivity. Qed.

(** Collecting garbage at time [t] cannot be observed: as long as the later
    events are not earlier than [t], they produce the same matches, event by
    event, as they would have without the collection. *)
Theorem gc_transparent t st es :
  reachable st → is_nan t = false →
  (∀ k, Forall (λ p, is_nan (deadline_ts p) = false) (pending_of k (partials st))) →
  Forall (λ e, fle t (now e) = true) es →
  outputs (gc t st).1 es = outputs st es.
Proof.
  intros Hst Ht Hnan Hes. symmetry. apply (outputs_same t); [by apply reachable_wf| |done|].
  - by apply wf_gc, reachable_wf.
  - split; [done|]. intros k. rewrite pending_of_gc. by apply keep_at_trimmed.
Qed.

Lemma gc_transparent_witness :
  let st := (feed (register_rule "r1" demo_rule init_evaluator) (demo_event 0 "process_started" "a")).1 in
  let es := [demo_event 8 "file_created" "b"] in
  outputs (gc (float_of_Z 7) st).1 es = outputs st es.
Proof.
  intros st es. apply gc_transparent.
  - apply reach_feed, reach_register; [apply reach_init|split; [discriminate|reflexivity]|exact I].
  - reflexivity.
  - intros k. replace (partials st)
      with ({[("r1", "h1") := [mkPartial 1 (float_of_Z 5) ["a"]]]} : gmap (str * str) (list partial))
      by (vm_compute; reflexivity).
    unfold pending_of. rewrite lookup_singleton. case_decide; repeat constructor.
  - repeat constructor.
Defined.

(** [gc] returns the number of partials it removed, and leaves none whose
    deadline lies before its argument. *)
Theorem gc_sound t st :
  pending_count st = pending_count (gc t st).1 + (gc t st).2 ∧
  ∀ k p, p ∈ pending_of k (partials (gc t st).1) → fle t (deadline_ts p) = true.
Proof.
  split; [apply gc_count|]. intros k p. rewrite pending_of_gc, list_elem_of_In.
  unfold keep_at. by intros [_ ?]%List.filter_In.
Qed.
