(* ===== verification/AuditChain.v ===== *)
(** * The tamper-evident audit log

    Models [backend/app/services/audit.py] (key loading, canonical row bytes,
    the HMAC of a row, [record]) and [backend/app/services/audit_verifier.py]
    ([verify_chain]).  The state is the [audit_log] table and its sequence.

    The theorems: what [record] writes always verifies; two tables that verify
    and agree on the last HMAC of a tenant hold the same rows of that tenant, or
    a collision of HMAC-SHA256 is at hand; removing the newest rows of a tenant
    is not detected; setting a user id to NULL, as deleting the user does, is. *)

From Stdlib Require Import Ascii String Sorted.
From S2P Require Import Prelude PyStr PyVal PyJson PyTime Crypto Models.
Local Open Scope string_scope.
Local Open Scope list_scope.
Local Open Scope Z_scope.

(** ** Rows *)

Record AuditLog := mkRow {
  row_id : Z;
  seq : Z;
  ts : option Z;
  tenant_id : option Z;
  user_id : option Z;
  api_token_id : option Z;
  actor_kind : str;
  action : str;
  resource_type : option str;
  resource_id : option str;
  payload : option dict;
  ip : option str;
  prev_hmac : option bytes;
  row_hmac : option bytes }.

(** ** The key *)

(** [Py_ISSPACE], which [bytes.fromhex] skips between bytes. *)
Definition is_ascii_space (c : ascii) : bool :=
  let n := code c in ((9 <=? n) && (n <=? 13) || (n =? 32))%N.

(** [bytes.fromhex(s)]; [None] is the [ValueError]. *)
Fixpoint fromhex (s : str) : option bytes :=
  match s with
  | "" => Some ""
  | String c s' =>
      if is_ascii_space c then fromhex s'
      else match s' with
      | "" => None
      | String d s'' =>
          match hex_value c, hex_value d with
          | Some x, Some y => String (ascii_of_N (Z.to_N (16 * x + y))) <$> fromhex s''
          | _, _ => None
          end
      end
  end.

(** The value of [VIGIL_AUDIT_HMAC_KEY] is [env]. *)
Definition load_hmac_key (env : option str) : option bytes :=
  match env with
  | None => None
  | Some raw =>
      if negb (nonempty raw) then None
      else
        let fallback :=
          if (16 <=? String.length raw)%nat then Some (utf8 raw) else None in
        match fromhex raw with
        | Some decoded => if (16 <=? String.length decoded)%nat then Some decoded else fallback
        | None => fallback
        end
  end.

Definition hmac_key_fingerprint (key : option bytes) : option str :=
  match key with Some k => Some (take_str 8 (hexdigest (sha256 k))) | None => None end.

(** ** The HMAC of a row *)

Definition opt_str (o : option str) : pyval := match o with Some s => PStr s | None => PNone end.

(** The [obj] dictionary, in the order of the source. *)
Definition canonical_obj (seq : Z) (actor_kind : str) (user_id api_token_id : option str)
    (action : str) (resource_type resource_id : option str) (payload : option dict)
    (ip : option str) (ts_iso : str) (tenant_id : option str) : dict :=
  [("seq", PInt seq); ("actor_kind", PStr actor_kind); ("user_id", opt_str user_id);
   ("api_token_id", opt_str api_token_id); ("action", PStr action);
   ("resource_type", opt_str resource_type); ("resource_id", opt_str resource_id);
   ("payload", match payload with Some d => PDict d | None => PNone end);
   ("ip", opt_str ip); ("ts", PStr ts_iso)]
  ++ match tenant_id with Some t => [("tenant_id", PStr t)] | None => [] end.

Definition canonical_row_bytes (seq : Z) (actor_kind : str) (user_id api_token_id : option str)
    (action : str) (resource_type resource_id : option str) (payload : option dict)
    (ip : option str) (ts_iso : str) (tenant_id : option str) : bytes :=
  json_canonical (PDict (canonical_obj seq actor_kind user_id api_token_id action
                           resource_type resource_id payload ip ts_iso tenant_id)).

Definition compute_row_hmac (key : option bytes) (prev : option bytes) (canonical : bytes)
    : py bytes :=
  match key with
  | None => Err (RuntimeError "VIGIL_AUDIT_HMAC_KEY not set")
  | Some k => Ok (hmac_sha256 k (default "" prev +:+ canonical))
  end.

(** ** Writing *)

(** The table, oldest row first, and the next value of [audit_log_seq]. *)
Record audit_db := mkDb { log : list AuditLog; next_seq : Z }.
Definition empty_db : audit_db := mkDb [] 1.

(** [_stable_tenant_lock_key] and the advisory lock key of a tenant. *)
Definition stable_tenant_lock_key (tenant : Z) : Z :=
  Z.land (int_of_bytes (take_str 8 (sha256 (uuid_bytes tenant)))) (2 ^ 63 - 1).
Definition base_key : Z := 6841837422913824317.
Definition tenant_lock_key (tenant : Z) : Z := Z.lxor base_key (stable_tenant_lock_key tenant).

(** [SELECT row_hmac ... WHERE row_hmac IS NOT NULL AND tenant_id = t ORDER BY seq
    DESC LIMIT 1] *)
Definition in_chain (t : option Z) (r : AuditLog) : bool :=
  bool_decide (tenant_id r = t) && match row_hmac r with Some _ => true | None => false end.
Fixpoint max_seq_row (rows : list AuditLog) : option AuditLog :=
  match rows with
  | [] => None
  | r :: rows =>
      match max_seq_row rows with
      | Some r' => if seq r <? seq r' then Some r' else Some r
      | None => Some r
      end
  end.
Definition chain_head (t : Z) (rows : list AuditLog) : option bytes :=
  max_seq_row (List.filter (in_chain (Some t)) rows) ≫= row_hmac.

(** [record]: the lock makes it one step per tenant.  [now] is the clock, [new_id]
    the row's random id. *)
Definition record (key : option bytes) (actor : option Actor) (action : str)
    (resource_type resource_id : option str) (payload : option dict) (ip : option str)
    (tenant : option Z) (now new_id : Z) (db : audit_db) : audit_db :=
  let user_id :=
    match actor with
    | Some a => if String.eqb (actor_auth a) "scim_token" then None else Some (actor_user_id a)
    | None => None
    end in
  let api_token_id :=
    match actor with
    | Some a => if String.eqb (actor_auth a) "api_token" then actor_token_id a else None
    | None => None
    end in
  let actor_kind := match actor with Some a => actor_auth a | None => "system" end in
  let tenant :=
    match tenant with
    | Some t => t
    | None => match actor with Some a => actor_tenant_id a | None => DEFAULT_TENANT_ID end
    end in
  let seq := next_seq db in
  let row prev mac :=
    mkRow new_id seq (Some now) (Some tenant) user_id api_token_id actor_kind action
      resource_type resource_id payload ip prev mac in
  let hmacs :=
    match key with
    | None => (None, None)
    | Some _ =>
        let prev := chain_head tenant (log db) in
        let canonical :=
          canonical_row_bytes seq actor_kind (uuid_str <$> user_id) (uuid_str <$> api_token_id)
            action resource_type resource_id payload ip (isoformat now) (Some (uuid_str tenant)) in
        (prev, to_option (compute_row_hmac key prev canonical))
    end in
  mkDb (log db ++ [row hmacs.1 hmacs.2]) (seq + 1).

(** ** Verifying *)

Inductive break_reason := FirstHasPrev | PrevMismatch | ContentMismatch.
Record ChainBreak := mkBreak {
  b_seq : Z;
  b_row_id : str;
  b_reason : break_reason;
  b_expected : option bytes;
  b_actual : option bytes;
  b_tenant : option Z }.
Record VerifyResult := mkResult {
  rows_examined : nat;
  chain_rows : nat;
  breaks : list ChainBreak }.
Definition result_ok (r : VerifyResult) : bool :=
  match breaks r with [] => true | _ => false end.

(** [ORDER BY tenant_id ASC, seq ASC]; NULLs sort last. *)
Definition row_leb (a b : AuditLog) : bool :=
  match tenant_id a, tenant_id b with
  | Some x, Some y => (x <? y) || (x =? y) && (seq a <=? seq b)
  | Some _, None => true
  | None, Some _ => false
  | None, None => seq a <=? seq b
  end.
Fixpoint insert_row (r : AuditLog) (rows : list AuditLog) : list AuditLog :=
  match rows with
  | [] => [r]
  | r' :: rest => if row_leb r r' then r :: rows else r' :: insert_row r rest
  end.
Definition order_rows (rows : list AuditLog) : list AuditLog := foldr insert_row [] rows.

(** The arguments the verifier passes for a stored row. *)
Definition row_canonical (r : AuditLog) : bytes :=
  canonical_row_bytes (seq r) (actor_kind r) (uuid_str <$> user_id r)
    (uuid_str <$> api_token_id r) (action r) (resource_type r) (resource_id r) (payload r) (ip r)
    (match ts r with Some t => isoformat t | None => "" end) (uuid_str <$> tenant_id r).

(** The local variables of the loop. *)
Record walker := mkWalker {
  w_prev : option bytes;
  w_started : bool;
  w_tenant : option Z;
  w_result : VerifyResult }.
Definition walker_init : walker := mkWalker None false None (mkResult 0 0 []).

Definition make_break (r : AuditLog) (why : break_reason) (expected actual : option bytes)
    : ChainBreak :=
  mkBreak (seq r) (uuid_str (row_id r)) why expected actual (tenant_id r).

(** One row; [inl] is the early return when no key is loaded. *)
Definition walk_row (key : option bytes) (w : walker) (r : AuditLog) : VerifyResult + walker :=
  let w := if decide (tenant_id r = w_tenant w) then w
           else mkWalker None false (tenant_id r) (w_result w) in
  let res := w_result w in
  let examined := S (rows_examined res) in
  match row_hmac r with
  | None => inr (mkWalker (w_prev w) (w_started w) (w_tenant w)
                   (mkResult examined (chain_rows res) (breaks res)))
  | Some mac =>
      let n := S (chain_rows res) in
      let link :=
        if negb (w_started w) then
          match prev_hmac r with
          | Some p => [make_break r FirstHasPrev None (Some p)]
          | None => []
          end
        else if decide (prev_hmac r = w_prev w) then []
        else [make_break r PrevMismatch (w_prev w) (prev_hmac r)] in
      let brk := breaks res ++ link in
      match compute_row_hmac key (prev_hmac r) (row_canonical r) with
      | Err _ => inl (mkResult examined n brk)
      | Ok expected =>
          let content :=
            if decide (expected = mac) then []
            else [make_break r ContentMismatch (Some expected) (Some mac)] in
          inr (mkWalker (Some mac) true (w_tenant w) (mkResult examined n (brk ++ content)))
      end
  end.

Fixpoint walk_rows (key : option bytes) (w : walker) (rows : list AuditLog) : VerifyResult :=
  match rows with
  | [] => w_result w
  | r :: rows =>
      match walk_row key w r with
      | inl res => res
      | inr w => walk_rows key w rows
      end
  end.

Definition verify_chain (key : option bytes) (rows : list AuditLog) : VerifyResult :=
  walk_rows key walker_init (order_rows rows).

(** ** Chains of one tenant *)

(** What the HMAC of a row covers. *)
Definition signed_input (r : AuditLog) : bytes := default "" (prev_hmac r) +:+ row_canonical r.

(** [clean k prev rows]: the rows form a chain that continues [prev]. *)
Fixpoint clean (k : bytes) (prev : option bytes) (rows : list AuditLog) : Prop :=
  match rows with
  | [] => True
  | r :: rows =>
      prev_hmac r = prev ∧ row_hmac r = Some (hmac_sha256 k (signed_input r)) ∧
      clean k (row_hmac r) rows
  end.

Definition last_mac (prev : option bytes) (rows : list AuditLog) : option bytes :=
  match last rows with Some r => row_hmac r | None => prev end.

Lemma last_mac_cons prev r rows : last_mac prev (r :: rows) = last_mac (row_hmac r) rows.
Proof. unfold last_mac. rewrite last_cons. by destruct (last rows). Qed.

Lemma clean_app k prev l l' :
  clean k prev (l ++ l') ↔ clean k prev l ∧ clean k (last_mac prev l) l'.
Proof.
  revert prev. induction l as [|r l IH]; intros prev; simpl; [naive_solver|].
  rewrite IH, last_mac_cons. naive_solver.
Qed.

(** ** The verifier accepts exactly the tables whose tenants all have clean chains *)

(** The verdict of the loop from a given position. *)
Fixpoint walk_clean (k : bytes) (t : option Z) (prev : option bytes) (rows : list AuditLog) : Prop :=
  match rows with
  | [] => True
  | r :: rows =>
      let prev := if decide (tenant_id r = t) then prev else None in
      match row_hmac r with
      | None => walk_clean k (tenant_id r) prev rows
      | Some mac =>
          prev_hmac r = prev ∧ mac = hmac_sha256 k (signed_input r) ∧
          walk_clean k (tenant_id r) (Some mac) rows
      end
  end.

Definition walker_inv (w : walker) : Prop :=
  w_started w = match w_prev w with Some _ => true | None => false end.

Lemma walk_row_some k w r :
  walker_inv w →
  ∃ w', walk_row (Some k) w r = inr w' ∧ walker_inv w' ∧ w_tenant w' = tenant_id r ∧
    rows_examined (w_result w') = S (rows_examined (w_result w)) ∧
    chain_rows (w_result w') =
      ((match row_hmac r with Some _ => 1 | None => 0 end) + chain_rows (w_result w))%nat ∧
    let prev := if decide (tenant_id r = w_tenant w) then w_prev w else None in
    match row_hmac r with
    | None => w_prev w' = prev ∧ breaks (w_result w') = breaks (w_result w)
    | Some mac =>
        w_prev w' = Some mac ∧
        ∃ extra, breaks (w_result w') = breaks (w_result w) ++ extra ∧
          (extra = [] ↔ prev_hmac r = prev ∧ mac = hmac_sha256 k (signed_input r))
    end.
Proof.
  intros Hinv. unfold walk_row. set (w0 := if decide (tenant_id r = w_tenant w) then w else _).
  assert (walker_inv w0 ∧ w_prev w0 = (if decide (tenant_id r = w_tenant w) then w_prev w else None)
    ∧ w_result w0 = w_result w ∧ w_tenant w0 = tenant_id r) as (Hi0 & Hp0 & Hr0 & Ht0).
  { unfold w0. case_decide; [by rewrite <- H|done]. }
  rewrite <- Hp0, Hr0, Ht0. destruct (row_hmac r) as [mac|]; [|by eexists; split; [done|]].
  cbn [compute_row_hmac]. fold (signed_input r).
  eexists; split; [done|]. cbn [w_prev w_tenant w_result rows_examined chain_rows breaks].
  split_and!; [done|done|done|done|done|]. rewrite <- app_assoc. eexists; split; [done|].
  unfold walker_inv in Hi0. rewrite Hi0. destruct (w_prev w0) as [p|]; simpl.
  - destruct (decide (prev_hmac r = Some p)), (decide (_ = mac)); simpl; naive_solver.
  - destruct (prev_hmac r), (decide (_ = mac)); simpl; naive_solver.
Qed.

Lemma walk_rows_some k w rows :
  walker_inv w →
  let res := walk_rows (Some k) w rows in
  rows_examined res = (rows_examined (w_result w) + length rows)%nat ∧
  chain_rows res = (chain_rows (w_result w)
    + countb (λ r, match row_hmac r with Some _ => true | None => false end) rows)%nat ∧
  ∃ extra, breaks res = breaks (w_result w) ++ extra ∧
    (extra = [] ↔ walk_clean k (w_tenant w) (w_prev w) rows).
Proof.
  revert w. induction rows as [|r rows IH]; intros w Hinv; simpl.
  { rewrite !Nat.add_0_r. split_and!; [done|done|]. exists []. by rewrite app_nil_r. }
  destruct (walk_row_some k w r Hinv) as (w' & -> & Hinv' & Ht & He & Hc & Hrest).
  destruct (IH w' Hinv') as (He' & Hc' & extra & Hb & Hx). rewrite He', Hc', Hb, He, Hc, countb_cons.
  rewrite Ht in Hx. destruct (row_hmac r) as [mac|]; simpl in *.
  - destruct Hrest as (Hp & extra0 & -> & H0). split_and!; [lia|lia|].
    exists (extra0 ++ extra). rewrite app_assoc. split; [done|].
    rewrite app_nil, H0, Hx, Hp. naive_solver.
  - destruct Hrest as (Hp & ->). split_and!; [lia|lia|]. exists extra. by rewrite Hx, Hp.
Qed.

Lemma walk_rows_ok k rows :
  result_ok (walk_rows (Some k) walker_init rows) = true ↔ walk_clean k None None rows.
Proof.
  destruct (walk_rows_some k walker_init rows) as (_ & _ & extra & Hb & <-); [done|].
  unfold result_ok. rewrite Hb. simpl. by destruct extra.
Qed.

(** ** Sorting groups the rows by tenant *)

Definition tenant_le (a b : option Z) : Prop :=
  match a, b with
  | Some x, Some y => x ≤ y
  | _, None => True
  | None, Some _ => False
  end.
Definition row_le (a b : AuditLog) : Prop := row_leb a b = true.

Lemma row_le_iff a b :
  row_le a b ↔ tenant_le (tenant_id a) (tenant_id b) ∧
    (tenant_id a = tenant_id b → seq a ≤ seq b).
Proof.
  unfold row_le, row_leb, tenant_le. destruct (tenant_id a) as [x|], (tenant_id b) as [y|]; breflect.
  - split.
    + intros [H|[-> H]]; split; try lia. intros [= ->]. lia.
    + intros [H1 H2]. destruct (decide (x = y)) as [->|]; [right; split; [done|auto]|left; lia].
  - naive_solver.
  - naive_solver.
  - naive_solver.
Qed.

Lemma tenant_le_antisym a b : tenant_le a b → tenant_le b a → a = b.
Proof. destruct a, b; simpl; try done. intros. f_equal. lia. Qed.
Lemma tenant_le_trans a b c : tenant_le a b → tenant_le b c → tenant_le a c.
Proof. destruct a, b, c; simpl; try done; lia. Qed.
Lemma tenant_le_total a b : tenant_le a b ∨ tenant_le b a.
Proof. destruct a, b; simpl; auto. lia. Qed.

Lemma row_le_trans a b c : row_le a b → row_le b c → row_le a c.
Proof.
  rewrite !row_le_iff. intros [H1 H2] [H3 H4]. split; [by eapply tenant_le_trans|].
  intros Heq. assert (tenant_id a = tenant_id b) as Hab.
  { apply tenant_le_antisym; [done|]. by rewrite Heq. }
  specialize (H2 Hab). specialize (H4 ltac:(congruence)). lia.
Qed.

Lemma row_leb_false a b : row_leb a b = false → row_le b a.
Proof.
  intros H. destruct (row_leb b a) eqn:Hba; [done|]. exfalso.
  assert (¬ row_le a b ∧ ¬ row_le b a) as [Ha Hb] by (unfold row_le; rewrite H, Hba; done).
  rewrite row_le_iff in Ha, Hb. destruct (tenant_le_total (tenant_id a) (tenant_id b)) as [Ht|Ht].
  - apply Ha. split; [done|]. intros Heq. destruct (decide (seq a ≤ seq b)); [done|].
    destruct Hb. rewrite Heq. split; [|lia]. by destruct (tenant_id b); simpl.
  - apply Hb. split; [done|]. intros Heq. destruct (decide (seq b ≤ seq a)); [done|].
    destruct Ha. rewrite <- Heq. split; [|lia]. by destruct (tenant_id b); simpl.
Qed.

Lemma insert_row_elem r x rows : x ∈ insert_row r rows ↔ x = r ∨ x ∈ rows.
Proof. induction rows as [|r' rows IH]; simpl; [set_solver|]. destruct (row_leb r r'); set_solver. Qed.

Lemma insert_row_sorted r rows :
  StronglySorted row_le rows → StronglySorted row_le (insert_row r rows).
Proof.
  induction 1 as [|r' rows Hs IH Hall]; simpl; [by repeat constructor|].
  destruct (row_leb r r') eqn:Hr.
  - constructor; [by constructor|]. constructor; [done|].
    eapply Forall_impl; [exact Hall|]. intros x. by apply row_le_trans.
  - constructor; [done|]. apply Forall_forall. intros x [->|Hx]%insert_row_elem.
    + by apply row_leb_false.
    + rewrite Forall_forall in Hall. by apply Hall.
Qed.

Lemma order_rows_sorted rows : StronglySorted row_le (order_rows rows).
Proof. induction rows; simpl; [constructor|by apply insert_row_sorted]. Qed.

(** Filtering commutes with sorting. *)
Lemma filter_insert (p : AuditLog → bool) r rows :
  StronglySorted row_le rows →
  List.filter p (insert_row r rows) =
  if p r then insert_row r (List.filter p rows) else List.filter p rows.
Proof.
  induction 1 as [|r' rows Hs IH Hall]; simpl; [done|].
  destruct (row_leb r r') eqn:Hr; simpl.
  - destruct (p r) eqn:Hp; [|done]. destruct (p r') eqn:Hp'; simpl; [by rewrite Hr|].
    destruct (List.filter p rows) as [|x l] eqn:Hf; [done|]. simpl.
    assert (row_leb r x = true) as ->; [|done].
    assert (x ∈ rows) as Hx.
    { apply list_elem_of_In. eapply (proj1 (List.filter_In p x rows)). rewrite Hf. by left. }
    rewrite Forall_forall in Hall. eapply row_le_trans; [exact Hr|by apply Hall].
  - rewrite IH. destruct (p r') eqn:Hp', (p r) eqn:Hp; simpl; rewrite ?Hr; done.
Qed.

Lemma filter_order (p : AuditLog → bool) rows :
  List.filter p (order_rows rows) = order_rows (List.filter p rows).
Proof.
  induction rows as [|r rows IH]; simpl; [done|].
  rewrite filter_insert, IH by apply order_rows_sorted. by destruct (p r).
Qed.

(** A list that is in order already. *)
Lemma order_sorted rows : StronglySorted row_le rows → order_rows rows = rows.
Proof.
  induction 1 as [|r rows Hs IH Hall]; simpl; [done|]. rewrite IH.
  destruct Hall as [|r' rows Hr _]; [done|]. simpl. by rewrite Hr.
Qed.

(** The chain of one tenant: its rows that carry an HMAC, in sequence order. *)
Definition chain_of (t : option Z) (rows : list AuditLog) : list AuditLog :=
  List.filter (in_chain t) (order_rows rows).

Lemma in_chain_tenant t r : in_chain t r = true → t = tenant_id r.
Proof. unfold in_chain. by intros [->%bool_decide_eq_true _]%andb_true_iff. Qed.

(** Nothing of a tenant is left once a row of a later tenant has come. *)
Lemma earlier_tenant_gone t u rows :
  Forall (λ r, tenant_le u (tenant_id r)) rows → tenant_le t u → u ≠ t →
  List.filter (in_chain t) rows = [].
Proof.
  intros Hle Ht Hne. destruct (List.filter (in_chain t) rows) as [|x l] eqn:Hf; [done|]. exfalso.
  assert (In x rows ∧ in_chain t x = true) as [Hx%list_elem_of_In ->%in_chain_tenant].
  { apply List.filter_In. rewrite Hf. by left. }
  rewrite Forall_forall in Hle. by destruct (Hne (tenant_le_antisym _ _ (Hle x Hx) Ht)).
Qed.

Lemma walk_clean_iff k t prev rows :
  StronglySorted row_le rows →
  prev = None ∨ Forall (λ r, tenant_le t (tenant_id r)) rows →
  walk_clean k t prev rows ↔
  ∀ t', clean k (if decide (t' = t) then prev else None) (List.filter (in_chain t') rows).
Proof.
  intros Hs. revert t prev. induction Hs as [|r rows Hs IH Hall]; intros t prev Ht; [done|]. simpl.
  assert (Forall (λ r', tenant_le (tenant_id r) (tenant_id r')) rows) as Hle.
  { eapply Forall_impl; [exact Hall|]. intros x Hx. by apply row_le_iff in Hx as [? _]. }
  set (prev' := if decide (tenant_id r = t) then prev else None).
  assert (∀ t', t' ≠ tenant_id r →
    clean k (if decide (t' = t) then prev else None) (List.filter (in_chain t') rows) ↔
    clean k None (List.filter (in_chain t') rows)) as Hother.
  { intros t' Hne. destruct (decide (t' = t)) as [->|]; [|done].
    destruct Ht as [->|[Ht _]%Forall_cons]; [done|].
    by rewrite (earlier_tenant_gone t (tenant_id r)). }
  destruct (row_hmac r) as [mac|] eqn:Hmac.
  - assert (in_chain (tenant_id r) r = true) as Hr.
    { unfold in_chain. rewrite Hmac, bool_decide_true; done. }
    rewrite IH by (by right). split.
    + intros (Hp & Hm & Hrest) t'. destruct (in_chain t' r) eqn:Ht'.
      * apply in_chain_tenant in Ht' as ->. simpl. specialize (Hrest (tenant_id r)).
        rewrite decide_True in Hrest by done. rewrite Hmac, Hp, Hm in *. done.
      * destruct (decide (t' = tenant_id r)) as [->|Hne]; [congruence|].
        rewrite Hother by done. specialize (Hrest t'). by rewrite decide_False in Hrest.
    + intros H. pose proof (H (tenant_id r)) as Hself. rewrite Hr in Hself. simpl in Hself.
      destruct Hself as (Hp & Hm & Hc). rewrite Hmac in Hm, Hc. injection Hm as ->.
      split_and!; [done|done|]. intros t'. destruct (decide (t' = tenant_id r)) as [->|Hne]; [done|].
      rewrite <- Hother by done. specialize (H t'). destruct (in_chain t' r) eqn:Ht'; [|done].
      by apply in_chain_tenant in Ht'.
  - assert (∀ t', in_chain t' r = false) as Hr.
    { intros t'. unfold in_chain. rewrite Hmac. apply andb_false_r. }
    rewrite IH by (by right). split; intros H t'; specialize (H t').
    + rewrite Hr. destruct (decide (t' = tenant_id r)) as [->|Hne].
      * exact H.
      * by rewrite Hother.
    + rewrite Hr in H. destruct (decide (t' = tenant_id r)) as [->|Hne]; [exact H|].
      by rewrite Hother in H.
Qed.

Lemma verify_ok_iff k rows :
  result_ok (verify_chain (Some k) rows) = true ↔ ∀ t, clean k None (chain_of t rows).
Proof.
  unfold verify_chain. rewrite walk_rows_ok, walk_clean_iff; [|apply order_rows_sorted|by left].
  split; intros H t; specialize (H t); by case_decide.
Qed.

(** ** What [record] writes verifies *)

Definition seq_lt (a b : AuditLog) : Prop := seq a < seq b.

Lemma StronglySorted_filter {A} (R : A → A → Prop) (p : A → bool) l :
  StronglySorted R l → StronglySorted R (List.filter p l).
Proof.
  induction 1 as [|x l Hs IH Hall]; simpl; [constructor|]. destruct (p x); [|done].
  constructor; [done|]. rewrite Forall_forall in *. intros y Hy. apply Hall.
  apply list_elem_of_In in Hy. apply list_elem_of_In. by apply List.filter_In in Hy as [? _].
Qed.

Lemma StronglySorted_snoc {A} (R : A → A → Prop) l x :
  StronglySorted R l → Forall (λ y, R y x) l → StronglySorted R (l ++ [x]).
Proof.
  induction 1 as [|y l Hs IH Hall]; intros Hx; simpl; [by repeat constructor|].
  apply Forall_cons in Hx as [Hyx Hx]. constructor; [auto|].
  apply Forall_app. by repeat constructor.
Qed.

Lemma chain_of_sorted t rows :
  StronglySorted seq_lt rows → chain_of t rows = List.filter (in_chain t) rows.
Proof.
  intros Hs. unfold chain_of. rewrite filter_order. apply order_sorted.
  assert (Forall (λ r, tenant_id r = t) (List.filter (in_chain t) rows)) as Ht.
  { apply Forall_forall. intros r Hr%list_elem_of_In%List.filter_In.
    destruct Hr as [_ ->%in_chain_tenant]. done. }
  apply (StronglySorted_filter _ (in_chain t)) in Hs. revert Ht.
  induction Hs as [|r l Hs IH Hall]; intros Ht; [constructor|].
  apply Forall_cons in Ht as [Hr Ht]. constructor; [auto|].
  rewrite Forall_forall in *. intros x Hx. apply row_le_iff. rewrite Hr, (Ht x Hx).
  split; [destruct t; simpl; [lia|done]|]. intros _. specialize (Hall x Hx). unfold seq_lt in Hall. lia.
Qed.

Lemma max_seq_last rows : StronglySorted seq_lt rows → max_seq_row rows = last rows.
Proof.
  induction 1 as [|r rows Hs IH Hall]; [done|]. rewrite last_cons. simpl. rewrite IH.
  destruct (last rows) as [r'|] eqn:Hl; [|done].
  assert (seq_lt r r') as Hlt.
  { rewrite Forall_forall in Hall. apply Hall. by apply last_Some_elem_of. }
  unfold seq_lt in Hlt. by rewrite (proj2 (Z.ltb_lt _ _) Hlt).
Qed.

Lemma chain_head_last t rows :
  StronglySorted seq_lt rows →
  chain_head t rows = last_mac None (List.filter (in_chain (Some t)) rows).
Proof.
  intros Hs. unfold chain_head, last_mac.
  rewrite max_seq_last by (by apply StronglySorted_filter). by destruct (last _).
Qed.

(** The states that calls of [record] reach under one key.  A process without
    the key writes rows outside the chain; a transaction that is rolled back
    only consumes a sequence number. *)
Inductive written (k : bytes) : audit_db → Prop :=
| written_empty : written k empty_db
| written_record key actor action rt rid payload ip tenant now new_id db :
    written k db → key = None ∨ key = Some k →
    written k (record key actor action rt rid payload ip tenant now new_id db)
| written_rollback db : written k db → written k (mkDb (log db) (next_seq db + 1)).

Definition db_inv (k : bytes) (db : audit_db) : Prop :=
  StronglySorted seq_lt (log db) ∧ Forall (λ r, seq r < next_seq db) (log db) ∧
  ∀ t, clean k None (List.filter (in_chain t) (log db)).

(** The row [record] appends. *)
Lemma record_row key k actor action rt rid payload ip tenant now new_id db :
  db_inv k db → key = None ∨ key = Some k →
  ∃ r, record key actor action rt rid payload ip tenant now new_id db
       = mkDb (log db ++ [r]) (next_seq db + 1) ∧
    seq r = next_seq db ∧
    (row_hmac r = None ∨
     prev_hmac r = last_mac None (List.filter (in_chain (tenant_id r)) (log db)) ∧
     row_hmac r = Some (hmac_sha256 k (signed_input r))).
Proof.
  intros (Hs & _ & _) Hkey. unfold record. eexists; split; [reflexivity|]. split; [done|].
  destruct Hkey as [->| ->]; [by left|]. right. cbn [prev_hmac row_hmac tenant_id].
  split; [by apply chain_head_last|done].
Qed.

Lemma record_inv key k actor action rt rid payload ip tenant now new_id db :
  db_inv k db → key = None ∨ key = Some k →
  db_inv k (record key actor action rt rid payload ip tenant now new_id db).
Proof.
  intros Hinv Hkey. destruct (record_row key k actor action rt rid payload ip tenant now new_id db
    Hinv Hkey) as (r & -> & Hseq & Hr). destruct Hinv as (Hs & Hlt & Hc). split_and!; simpl.
  - apply StronglySorted_snoc; [done|]. eapply Forall_impl; [exact Hlt|].
    intros x. unfold seq_lt. by rewrite Hseq.
  - apply Forall_app. split; [|repeat constructor; lia].
    eapply Forall_impl; [exact Hlt|]. simpl. lia.
  - intros t. rewrite List.filter_app. apply clean_app. split; [apply Hc|]. simpl.
    destruct (in_chain t r) eqn:Ht; [|done].
    pose proof (in_chain_tenant _ _ Ht) as ->. unfold in_chain in Ht.
    destruct Hr as [Hr|[Hp Hm]]; [rewrite Hr in Ht; by destruct (bool_decide _)|].
    by split_and!.
Qed.

Lemma written_inv k db : written k db → db_inv k db.
Proof.
  induction 1 as [|key actor action rt rid payload ip tenant now new_id db _ IH Hkey|db _ IH].
  - split_and!; [constructor..|done].
  - by apply record_inv.
  - destruct IH as (Hs & Hlt & Hc). split_and!; simpl; [done| |done].
    eapply Forall_impl; [exact Hlt|]. simpl. lia.
Qed.

Lemma verify_counts k rows :
  rows_examined (verify_chain (Some k) rows) = length rows ∧
  chain_rows (verify_chain (Some k) rows) =
    countb (λ r, match row_hmac r with Some _ => true | None => false end) rows.
Proof.
  destruct (walk_rows_some k walker_init (order_rows rows)) as (He & Hc & _); [done|].
  unfold verify_chain. rewrite He, Hc. simpl. unfold countb. rewrite filter_order.
  assert (∀ l, length (order_rows l) = length l) as Hlen.
  { intros l. induction l as [|r l IHl]; [done|]. simpl. rewrite <- IHl.
    generalize (order_rows l) as m. intros m. induction m as [|x m IHm]; [done|]. simpl.
    destruct (row_leb r x); simpl; [done|]. by rewrite IHm. }
  by rewrite !Hlen.
Qed.

(** ** No canonical row is a digest followed by a canonical row

    The HMAC covers [prev || canonical] without a separator, so the first row of
    a chain must not be mistaken for a later one.  It cannot be: the text that
    opens a canonical row does not occur again near its start. *)

(** The canonical dictionary with its keys in order. *)
Definition sorted_obj (n : Z) (ak : str) (ui ati : option str) (act : str) (rt rid : option str)
    (pl : option dict) (i : option str) (tsi : str) (ten : option str) : dict :=
  [("action", PStr act); ("actor_kind", PStr ak); ("api_token_id", opt_str ati);
   ("ip", opt_str i); ("payload", sort_keys (match pl with Some d => PDict d | None => PNone end));
   ("resource_id", opt_str rid); ("resource_type", opt_str rt); ("seq", PInt n)]
  ++ match ten with Some t => [("tenant_id", PStr t)] | None => [] end
  ++ [("ts", PStr tsi); ("user_id", opt_str ui)].

Lemma sort_keys_opt o : sort_keys (opt_str o) = opt_str o.
Proof. by destruct o. Qed.

Lemma sort_canonical n ak ui ati act rt rid pl i tsi ten :
  sort_keys (PDict (canonical_obj n ak ui ati act rt rid pl i tsi ten))
  = PDict (sorted_obj n ak ui ati act rt rid pl i tsi ten).
Proof.
  unfold sorted_obj. rewrite <- (sort_keys_opt ui), <- (sort_keys_opt ati), <- (sort_keys_opt rt),
    <- (sort_keys_opt rid), <- (sort_keys_opt i). by destruct ten.
Qed.

Lemma json_str_unfold s x : json_str s +:+ x = String dquote (json_str_body s +:+ String dquote x).
Proof. unfold json_str. by rewrite append_cons, append_assoc. Qed.

Lemma canonical_text n ak ui ati act rt rid pl i tsi ten :
  ∃ rest, canonical_row_bytes n ak ui ati act rt rid pl i tsi ten =
    "{" +:+ json_str "action" +:+ ":" +:+ String dquote
      (json_str_body act +:+ String dquote ("," +:+ json_str "actor_kind" +:+ ":" +:+ String dquote
        (json_str_body ak +:+ String dquote ("," +:+ json_str "api_token_id" +:+ ":" +:+ rest)))).
Proof.
  unfold canonical_row_bytes, json_canonical. rewrite sort_canonical, enc_dict. unfold sorted_obj.
  cbn [app map]. unfold join. cbn [String.concat]. unfold enc_item at 1 2 3. cbn [fst snd].
  rewrite !append_assoc. cbn [json_enc].
  rewrite (json_str_unfold act), (json_str_unfold ak). eexists. reflexivity.
Qed.

(** The first characters of every canonical row: brace, quote, [a]. *)
Definition opening : str := String "{" (String dquote "a").

(** A text that does not go on with a quote and [a]. *)
Definition no_quote_a (x : str) : Prop := starts_with (String dquote "a") x = false.

Lemma body_no_quote_a s t :
  starts_with "a" t = false → no_quote_a (json_str_body s +:+ String dquote t).
Proof.
  unfold no_quote_a. intros Ht. destruct s as [|c s]; [exact Ht|].
  rewrite json_str_body_cons, append_assoc.
  by destruct c as [[] [] [] [] [] [] [] []].
Qed.

Lemma char_no_opening c x :
  no_quote_a x → contains opening (json_char c +:+ x) = contains opening x.
Proof.
  unfold no_quote_a, starts_with. intros Hx.
  destruct c as [[] [] [] [] [] [] [] []]; try reflexivity.
  change (String.prefix (String dquote "a") x || contains opening x = contains opening x).
  by rewrite Hx.
Qed.

Lemma body_no_opening s t :
  starts_with "a" t = false →
  contains opening (json_str_body s +:+ String dquote t) = contains opening t.
Proof.
  intros Ht. induction s as [|c s IH]; [done|].
  rewrite json_str_body_cons, append_assoc, char_no_opening; [done|by apply body_no_quote_a].
Qed.

Lemma contains_drop needle s n : starts_with needle (drop_str n s) = true → contains needle s = true.
Proof.
  revert s. induction n as [|n IH]; intros s H.
  - destruct s; simpl in *; by rewrite H.
  - destruct s as [|c s]; simpl in *; [by rewrite H|]. by rewrite (IH s H), orb_true_r.
Qed.

Lemma drop_append n a b : (n <= String.length a)%nat → drop_str n (a +:+ b) = drop_str n a +:+ b.
Proof.
  revert a. induction n as [|n IH]; intros a Hn; [done|].
  destruct a as [|c a]; simpl in Hn; [lia|]. rewrite append_cons. simpl. apply IH. lia.
Qed.

Lemma drop_length n a : String.length (drop_str n a) = (String.length a - n)%nat.
Proof. revert a. induction n as [|n IH]; intros [|c a]; simpl; auto. Qed.

Lemma prefix_shorter p a b :
  (String.length p <= String.length a)%nat → starts_with p (a +:+ b) = true → starts_with p a = true.
Proof.
  unfold starts_with. revert a. induction p as [|c p IH]; intros [|d a] Hl H; try done; simpl in Hl; [lia|].
  rewrite append_cons in H. simpl in *. destruct (ascii_dec c d); [|done]. apply IH; [lia|done].
Qed.

Definition key_action : str := "{" +:+ json_str "action" +:+ ":" +:+ String dquote "".
Definition row_text (r : AuditLog) : str :=
  json_str_body (action r) +:+ String dquote ("," +:+ json_str "actor_kind" +:+ ":" +:+ String dquote
    (json_str_body (actor_kind r) +:+ String dquote ("," +:+ json_str "api_token_id" +:+ ":"))).

Lemma row_canonical_text r : ∃ rest, row_canonical r = key_action +:+ row_text r +:+ rest.
Proof.
  destruct (canonical_text (seq r) (actor_kind r) (uuid_str <$> user_id r) (uuid_str <$> api_token_id r)
    (action r) (resource_type r) (resource_id r) (payload r) (ip r)
    (match ts r with Some t => isoformat t | None => "" end) (uuid_str <$> tenant_id r)) as [rest Hr].
  exists rest. unfold row_canonical. rewrite Hr. unfold key_action, row_text.
  by autorewrite with vigil_str.
Qed.

Lemma row_text_no_opening r : contains opening (row_text r) = false.
Proof.
  unfold row_text. rewrite body_no_opening by done.
  match goal with |- contains opening (_ +:+ _ +:+ _ +:+ String _ ?m) = _ =>
    change (contains opening m = false) end.
  by rewrite body_no_opening.
Qed.

Lemma row_text_length r : (33 <= String.length (row_text r))%nat.
Proof.
  unfold row_text. repeat (rewrite append_length || cbn [String.length]).
  change (String.length (json_str "actor_kind")) with 12%nat.
  change (String.length (json_str "api_token_id")) with 14%nat. lia.
Qed.

(** The canonical bytes of a row are never 32 bytes followed by those of a row. *)
Lemma canonical_separated r r' p :
  String.length p = 32%nat → row_canonical r ≠ p +:+ row_canonical r'.
Proof.
  intros Hp H. destruct (row_canonical_text r) as [rest Hr], (row_canonical_text r') as [rest' Hr'].
  rewrite Hr, Hr' in H. apply (f_equal (drop_str 32)) in H. rewrite (drop_append 32 p) in H by lia.
  assert (drop_str 32 p = "") as Hd.
  { destruct (drop_str 32 p) eqn:E; [done|]. apply (f_equal String.length) in E.
    rewrite drop_length, Hp in E. simpl in E. lia. }
  rewrite Hd, append_nil_l in H.
  assert (starts_with opening (drop_str 21 (row_text r +:+ rest)) = true) as Hs
    by (change (drop_str 21 (row_text r +:+ rest))
          with (drop_str 32 (key_action +:+ row_text r +:+ rest)); by rewrite H).
  pose proof (row_text_length r). rewrite drop_append in Hs by lia.
  apply prefix_shorter in Hs; [|rewrite drop_length; simpl; lia].
  apply contains_drop in Hs. by rewrite row_text_no_opening in Hs.
Qed.

(** ** A head determines the chain below it *)

(** Two signed messages, one of each list, that differ but have the same HMAC. *)
Definition collides (k : bytes) (l l' : list AuditLog) : Prop :=
  ∃ r r', r ∈ l ∧ r' ∈ l' ∧ signed_input r ≠ signed_input r' ∧
    hmac_sha256 k (signed_input r) = hmac_sha256 k (signed_input r').

Lemma collides_app k l l' m m' :
  collides k l l' → collides k (l ++ m) (l' ++ m').
Proof. intros (r & r' & Hr & Hr' & H). exists r, r'. rewrite !elem_of_app. auto. Qed.

Lemma clean_last_length k l : clean k None l → l ≠ [] →
  ∃ p, last_mac None l = Some p ∧ String.length p = 32%nat.
Proof.
  destruct l as [|r l _] using rev_ind; [done|]. rewrite clean_app. intros (_ & _ & Hm & _) _.
  unfold last_mac. rewrite last_snoc, Hm. eexists; split; [done|]. apply hmac_length.
Qed.

Lemma clean_unique k l l' :
  clean k None l → clean k None l' → last_mac None l = last_mac None l' →
  collides k l l' ∨ map row_canonical l = map row_canonical l'.
Proof.
  revert l'. induction l as [|r l IH] using rev_ind; intros l' Hl Hl' Hlast;
    destruct l' as [|r' l' _] using rev_ind.
  - by right.
  - exfalso. destruct (clean_last_length _ _ Hl') as (p & Hp & _); [by destruct l'|]. by rewrite Hp in Hlast.
  - exfalso. destruct (clean_last_length _ _ Hl) as (p & Hp & _); [by destruct l|]. by rewrite Hp in Hlast.
  - pose proof Hl as Hfull. pose proof Hl' as Hfull'.
    rewrite clean_app in Hl, Hl'. destruct Hl as (Hl & Hprev & Hm & _), Hl' as (Hl' & Hprev' & Hm' & _).
    unfold last_mac in Hlast. rewrite !last_snoc, Hm, Hm' in Hlast. apply (inj Some) in Hlast as Heq.
    destruct (decide (signed_input r = signed_input r')) as [Hin|Hne]; [|left; exists r, r'; rewrite !elem_of_app, !list_elem_of_singleton; by split_and!; auto].
    assert (prev_hmac r = prev_hmac r' ∧ row_canonical r = row_canonical r') as [Hpp Hcc].
    { unfold signed_input in Hin. destruct l as [|x l], l' as [|x' l'].
      - rewrite Hprev, Hprev' in *. done.
      - exfalso. destruct (clean_last_length _ _ Hl') as (p & Hp & Hlen); [done|].
        rewrite Hprev, Hprev', Hp in Hin. by apply canonical_separated in Hin.
      - exfalso. destruct (clean_last_length _ _ Hl) as (p & Hp & Hlen); [done|].
        rewrite Hprev, Hprev', Hp in Hin. symmetry in Hin. by apply canonical_separated in Hin.
      - destruct (clean_last_length _ _ Hl) as (p & Hp & Hlen); [done|].
        destruct (clean_last_length _ _ Hl') as (p' & Hp' & Hlen'); [done|].
        rewrite Hprev, Hprev', Hp, Hp' in *. simpl in Hin.
        apply append_inj in Hin as [-> ->]; [done|congruence]. }
    destruct (IH l' Hl Hl') as [Hcol|Hmap]; [congruence|by left; apply collides_app|].
    right. rewrite !map_app, Hmap. simpl. by rewrite Hcc.
Qed.

(** ** The canonical bytes determine the row *)

(** The ranges the column types guarantee, and a payload without floats. *)
Definition row_valid (r : AuditLog) : Prop :=
  (∀ u, user_id r = Some u → uuid_ok u) ∧ (∀ u, api_token_id r = Some u → uuid_ok u) ∧
  (∀ u, tenant_id r = Some u → uuid_ok u) ∧
  (∃ t, ts r = Some t ∧ datetime_ok t) ∧
  (∀ d, payload r = Some d → no_float (PDict d) = true).

(** Equal in every signed column, payloads up to the order of keys. *)
Definition same_content (r r' : AuditLog) : Prop :=
  seq r = seq r' ∧ ts r = ts r' ∧ tenant_id r = tenant_id r' ∧ user_id r = user_id r' ∧
  api_token_id r = api_token_id r' ∧ actor_kind r = actor_kind r' ∧ action r = action r' ∧
  resource_type r = resource_type r' ∧ resource_id r = resource_id r' ∧
  sort_keys (match payload r with Some d => PDict d | None => PNone end) =
  sort_keys (match payload r' with Some d => PDict d | None => PNone end) ∧
  ip r = ip r'.

Lemma cons_inj {A} (x y : A) l k : x :: l = y :: k → x = y ∧ l = k.
Proof. split; congruence. Qed.
Lemma PDict_inj d d' : PDict d = PDict d' → d = d'.
Proof. congruence. Qed.

Lemma opt_str_inj a b : opt_str a = opt_str b → a = b.
Proof. destruct a, b; simpl; congruence. Qed.

Lemma uuid_opt_inj (a b : option Z) :
  (∀ u, a = Some u → uuid_ok u) → (∀ u, b = Some u → uuid_ok u) →
  uuid_str <$> a = uuid_str <$> b → a = b.
Proof.
  intros Ha Hb. destruct a as [x|], b as [y|]; simpl; try done. intros H.
  apply (inj Some) in H. f_equal. apply uuid_str_inj; auto.
Qed.

Lemma no_float_opt o : no_float (opt_str o) = true.
Proof. by destruct o. Qed.

Lemma no_float_canonical n ak ui ati act rt rid pl i tsi ten :
  (∀ d, pl = Some d → no_float (PDict d) = true) →
  no_float (PDict (canonical_obj n ak ui ati act rt rid pl i tsi ten)) = true.
Proof.
  intros Hpl. simpl. rewrite !no_float_opt. destruct pl as [d|]; simpl.
  - specialize (Hpl d eq_refl). simpl in Hpl. rewrite Hpl. by destruct ten.
  - by destruct ten.
Qed.

Lemma sorted_obj_inj n ak ui ati act rt rid pl i tsi ten n' ak' ui' ati' act' rt' rid' pl' i' tsi' ten' :
  sorted_obj n ak ui ati act rt rid pl i tsi ten =
  sorted_obj n' ak' ui' ati' act' rt' rid' pl' i' tsi' ten' →
  n = n' ∧ ak = ak' ∧ ui = ui' ∧ ati = ati' ∧ act = act' ∧ rt = rt' ∧ rid = rid' ∧
  sort_keys (match pl with Some d => PDict d | None => PNone end) =
  sort_keys (match pl' with Some d => PDict d | None => PNone end) ∧
  i = i' ∧ tsi = tsi' ∧ ten = ten'.
Proof.
  unfold sorted_obj. generalize (sort_keys (match pl with Some d => PDict d | None => PNone end)) as v.
  generalize (sort_keys (match pl' with Some d => PDict d | None => PNone end)) as v'.
  intros v' v H. destruct ten, ten'; simpl in H; simplify_eq; naive_solver eauto using opt_str_inj.
Qed.

Lemma row_canonical_inj r r' :
  row_valid r → row_valid r' → row_canonical r = row_canonical r' → same_content r r'.
Proof.
  intros (Hu & Ha & Ht & (t & Hts & Hto) & Hp) (Hu' & Ha' & Ht' & (t' & Hts' & Hto') & Hp') H.
  unfold row_canonical, canonical_row_bytes in H. rewrite Hts, Hts' in H.
  apply json_canonical_inj in H; [|by apply no_float_canonical..].
  rewrite !sort_canonical in H. apply PDict_inj in H.
  apply sorted_obj_inj in H as (? & ? & Hui & Hati & ? & ? & ? & Hpl & ? & Htsi & Hten).
  apply uuid_opt_inj in Hui, Hati, Hten; [|done..]. apply isoformat_inj in Htsi; [|done..].
  unfold same_content. rewrite Hts, Hts'. by subst; split_and!.
Qed.

Lemma chain_of_elem t r rows : r ∈ chain_of t rows → r ∈ rows.
Proof.
  unfold chain_of. rewrite filter_order. intros Hr.
  assert (∀ l, r ∈ order_rows l → r ∈ l) as Ho.
  { induction l as [|x l IH]; simpl; [done|]. rewrite insert_row_elem. set_solver. }
  apply Ho, list_elem_of_In, List.filter_In in Hr as [Hr _]. by apply list_elem_of_In.
Qed.

Lemma chain_of_valid t rows : Forall row_valid rows → Forall row_valid (chain_of t rows).
Proof. rewrite !Forall_forall. intros H r Hr. by eapply H, chain_of_elem. Qed.

Lemma written_ok k db : written k db → result_ok (verify_chain (Some k) (log db)) = true.
Proof.
  intros Hw. destruct (written_inv k db Hw) as (Hs & _ & Hc).
  apply verify_ok_iff. intros t. rewrite chain_of_sorted by done. apply Hc.
Qed.

(** ** Properties *)

(** C4: whatever [record] writes verifies.  In every state reached by calls of
    [record] with the key (calls without it and rolled-back transactions mixed
    in), the verifier examines every row, counts every row with an HMAC, and
    reports no break in any tenant's chain. *)
Theorem record_verifies k db :
  written k db →
  verify_chain (Some k) (log db) =
  mkResult (length (log db))
    (countb (λ r, match row_hmac r with Some _ => true | None => false end) (log db)) [].
Proof.
  intros Hw. pose proof (written_ok k db Hw) as Hok.
  destruct (verify_counts k (log db)) as [He Hn].
  unfold result_ok in Hok. destruct (verify_chain (Some k) (log db)) as [e n b]. simpl in *.
  destruct b; [|done]. by rewrite He, Hn.
Qed.

Definition demo_actor : Actor := mkActor 7 ANALYST "user" None [] 1 false.
Definition demo_db (k : bytes) : audit_db :=
  record (Some k) (Some demo_actor) "user.create" (Some "user") (Some "9") None None None 0 11
    (record (Some k) None "host.enroll" None None None None None 0 10 empty_db).

Lemma demo_written k : written k (demo_db k).
Proof. apply written_record; [|by right]. apply written_record; [apply written_empty|by right]. Qed.

Lemma record_verifies_witness :
  verify_chain (Some "key") (log (demo_db "key"))
  = mkResult 2 (countb (λ r, match row_hmac r with Some _ => true | None => false end)
                  (log (demo_db "key"))) [].
Proof. exact (record_verifies "key" (demo_db "key") (demo_written "key")). Defined.


Lemma small_uuid u : 0 ≤ u < 1000 → uuid_ok u.
Proof. unfold uuid_ok. lia. Qed.

Lemma demo_row_valid id n u actor_k act rt rid p m :
  row_valid (mkRow id n (Some 0) (Some 1) u None actor_k act rt rid None None p m) ↔
  ∀ x, u = Some x → uuid_ok x.
Proof.
  split; [by intros (H & _)|]. intros Hu. split_and!; simpl; [done|done| |by exists 0|done].
  intros x [= <-]. by apply small_uuid.
Qed.

Lemma demo_valid k : Forall row_valid (log (demo_db k)).
Proof.
  constructor; [|constructor; [|constructor]]; apply demo_row_valid; [done|].
  intros x [= <-]. by apply small_uuid.
Qed.


(** ** Rows taken from the end of a chain *)

(** The table without the rows of tenant [t] after sequence number [n]. *)
Definition truncate_after (t : option Z) (n : Z) (rows : list AuditLog) : list AuditLog :=
  List.filter (λ r, negb (bool_decide (tenant_id r = t) && (n <? seq r))) rows.

Lemma filter_true {A} (p : A → bool) l : (∀ x, x ∈ l → p x = true) → List.filter p l = l.
Proof.
  induction l as [|x l IH]; intros Hp; [done|]. simpl. rewrite Hp by (by left).
  f_equal. apply IH. intros y Hy. apply Hp. by right.
Qed.

Lemma filter_comm {A} (p q : A → bool) l : List.filter p (List.filter q l) = List.filter q (List.filter p l).
Proof.
  induction l as [|x l IH]; [done|]. simpl.
  destruct (p x) eqn:Hp, (q x) eqn:Hq; simpl; rewrite ?Hp, ?Hq, ?IH; done.
Qed.

(** In a sorted list, the elements below a bound come first. *)
Lemma filter_prefix {A} (R : A → A → Prop) (p : A → bool) l :
  (∀ x y, R x y → p y = true → p x = true) → StronglySorted R l →
  ∃ rest, l = List.filter p l ++ rest.
Proof.
  intros Hp. induction 1 as [|x l Hs [rest IH] Hall]; [by exists []|]. simpl.
  destruct (p x) eqn:Hx; [exists rest; simpl; by f_equal|].
  exists (x :: l). assert (List.filter p l = []) as ->; [|done].
  destruct (List.filter p l) as [|y k] eqn:Hf; [done|]. exfalso.
  assert (In y l ∧ p y = true) as [Hy Hpy] by (apply List.filter_In; rewrite Hf; by left).
  rewrite Forall_forall in Hall. specialize (Hall y (proj2 (list_elem_of_In _ _) Hy)).
  by rewrite (Hp x y Hall Hpy) in Hx.
Qed.

Lemma chain_of_truncate t n t' rows :
  ∃ rest, chain_of t' rows = chain_of t' (truncate_after t n rows) ++ rest.
Proof.
  unfold chain_of, truncate_after. rewrite <- filter_order, filter_comm.
  set (keep := λ r : AuditLog, negb (bool_decide (tenant_id r = t) && (n <? seq r))).
  set (l := List.filter (in_chain t') (order_rows rows)).
  assert (StronglySorted (λ a b, row_le a b ∧ tenant_id a = tenant_id b) l) as Hs.
  { assert (StronglySorted row_le l) as Hl by apply StronglySorted_filter, order_rows_sorted.
    assert (∀ r, r ∈ l → tenant_id r = t') as Ht.
    { intros r Hr%list_elem_of_In%List.filter_In. destruct Hr as [_ ->%in_chain_tenant]. done. }
    revert Ht. induction Hl as [|r l' Hl IH Hall]; intros Ht; [constructor|].
    constructor; [apply IH; intros; apply Ht; by right|].
    rewrite Forall_forall in *. intros x Hx. split; [by apply Hall|].
    rewrite (Ht r) by (by left). by rewrite (Ht x) by (by right). }
  apply (filter_prefix _ keep) in Hs; [exact Hs|]. intros x y [Hle Heq] Hy.
  apply row_le_iff in Hle as [_ Hle]. specialize (Hle Heq). unfold keep in *. rewrite Heq.
  breflect. destruct Hy as [Hy|Hy]; [by left|right; lia].
Qed.

Lemma clean_elem k prev l r :
  clean k prev l → r ∈ l → row_hmac r = Some (hmac_sha256 k (signed_input r)).
Proof.
  revert prev. induction l as [|x l IH]; intros prev Hl Hr; [by apply elem_of_nil in Hr|].
  destruct Hl as (_ & Hm & Hl). apply elem_of_cons in Hr as [->|Hr]; [done|by eapply IH].
Qed.

Lemma elem_chain_of r rows mac :
  r ∈ rows → row_hmac r = Some mac → r ∈ chain_of (tenant_id r) rows.
Proof.
  intros Hr Hm. apply list_elem_of_In. unfold chain_of. rewrite filter_order.
  assert (∀ l, r ∈ l → r ∈ order_rows l) as Ho.
  { induction l as [|x l IH]; simpl; [done|]. rewrite insert_row_elem. set_solver. }
  apply list_elem_of_In, Ho, list_elem_of_In, List.filter_In.
  split; [by apply list_elem_of_In|]. unfold in_chain. rewrite Hm. by rewrite bool_decide_true.
Qed.

Lemma verified_row k rows r mac :
  result_ok (verify_chain (Some k) rows) = true → r ∈ rows → row_hmac r = Some mac →
  mac = hmac_sha256 k (signed_input r).
Proof.
  rewrite verify_ok_iff. intros Hok Hr Hm. specialize (Hok (tenant_id r)).
  apply (clean_elem _ _ _ r) in Hok; [congruence|by eapply elem_chain_of].
Qed.

(** [ON DELETE SET NULL] on [user_id] when the user [u] is deleted. *)
Definition null_user (r : AuditLog) : AuditLog :=
  mkRow (row_id r) (seq r) (ts r) (tenant_id r) None (api_token_id r) (actor_kind r) (action r)
    (resource_type r) (resource_id r) (payload r) (ip r) (prev_hmac r) (row_hmac r).
Definition delete_user (u : Z) (rows : list AuditLog) : list AuditLog :=
  map (λ r, if decide (user_id r = Some u) then null_user r else r) rows.

Lemma join_snoc {A} (f : A → str) x l y :
  join "," (map f ((x :: l) ++ [y])) = join "," (map f (x :: l)) +:+ "," +:+ f y.
Proof.
  unfold join. revert x. induction l as [|z l IH]; intros x; [done|].
  change (f x +:+ "," +:+ String.concat "," (map f ((z :: l) ++ [y]))
    = (f x +:+ "," +:+ String.concat "," (map f (z :: l))) +:+ "," +:+ f y).
  by rewrite IH, !append_assoc.
Qed.

Lemma append_inj_l (a x y : str) : a +:+ x = a +:+ y → x = y.
Proof. intros H. by apply append_inj in H as [_ ?]. Qed.

Lemma enc_last_inj x l k v w :
  enc (PDict ((x :: l) ++ [(k, v)])) = enc (PDict ((x :: l) ++ [(k, w)])) →
  enc v +:+ "}" = enc w +:+ "}".
Proof.
  rewrite !enc_dict, !join_snoc. intros H. rewrite <- !append_cons, !append_assoc in H.
  unfold enc_item in H. rewrite !append_assoc in H.
  do 4 apply append_inj_l in H. exact H.
Qed.

Lemma sorted_obj_last n ak ati act rt rid pl i tsi ten :
  ∃ x l, ∀ ui, sorted_obj n ak ui ati act rt rid pl i tsi ten = (x :: l) ++ [("user_id", opt_str ui)].
Proof.
  exists ("action", PStr act),
    ([("actor_kind", PStr ak); ("api_token_id", opt_str ati); ("ip", opt_str i);
      ("payload", sort_keys (match pl with Some d => PDict d | None => PNone end));
      ("resource_id", opt_str rid); ("resource_type", opt_str rt); ("seq", PInt n)]
     ++ match ten with Some t => [("tenant_id", PStr t)] | None => [] end ++ [("ts", PStr tsi)]).
  intros ui. by destruct ten.
Qed.

(** Without its user id a row has other canonical bytes. *)
Lemma null_user_canonical r u :
  user_id r = Some u → row_canonical (null_user r) ≠ row_canonical r.
Proof.
  intros Hu H. unfold row_canonical, canonical_row_bytes, json_canonical in H.
  rewrite !sort_canonical, Hu in H.
  destruct (sorted_obj_last (seq r) (actor_kind r) (uuid_str <$> api_token_id r) (action r)
    (resource_type r) (resource_id r) (payload r) (ip r)
    (match ts r with Some t => isoformat t | None => "" end) (uuid_str <$> tenant_id r))
    as (x & l & Hl).
  cbn [null_user seq ts tenant_id user_id api_token_id actor_kind action resource_type resource_id
    payload ip] in H.
  rewrite !Hl in H. apply enc_last_inj in H. simpl in H. by rewrite json_str_unfold in H.
Qed.

(** Removing the newest rows of a tenant's chain is not detected: if a table
    verifies, it still does without the rows of any tenant after any sequence
    number.  The module docstring lists deleted rows among the breaks it finds. *)
Theorem truncation_undetected k t n rows :
  result_ok (verify_chain (Some k) rows) = true →
  result_ok (verify_chain (Some k) (truncate_after t n rows)) = true.
Proof.
  rewrite !verify_ok_iff. intros H t'. specialize (H t').
  destruct (chain_of_truncate t n t' rows) as [rest Hr]. rewrite Hr, clean_app in H. by destruct H.
Qed.

Lemma truncation_undetected_witness :
  let rows := truncate_after (Some 1) 1 (log (demo_db "key")) in
  length rows = 1%nat ∧ result_ok (verify_chain (Some "key") rows) = true.
Proof.
  split; [reflexivity|]. apply truncation_undetected.
  exact (written_ok "key" (demo_db "key") (demo_written "key")).
Defined.

(** Deleting a user breaks the chain.  The [user_id] column is signed, and
    deleting the user sets it to NULL in the rows of their actions; a table that
    verified before does not verify afterwards, unless the HMACs of the row
    before and after collide. *)
Theorem delete_user_breaks_chain k u rows r mac :
  result_ok (verify_chain (Some k) rows) = true →
  r ∈ rows → user_id r = Some u → row_hmac r = Some mac →
  result_ok (verify_chain (Some k) (delete_user u rows)) = false ∨
  (signed_input r ≠ signed_input (null_user r) ∧
   hmac_sha256 k (signed_input r) = hmac_sha256 k (signed_input (null_user r))).
Proof.
  intros Hok Hr Hu Hm. destruct (result_ok (verify_chain _ (delete_user u rows))) eqn:Hok'; [|by left].
  right. split.
  - unfold signed_input. intros H. apply append_inj_l in H. symmetry in H.
    by eapply null_user_canonical.
  - rewrite <- (verified_row k rows r mac) by done.
    apply (verified_row k (delete_user u rows)); [done| |done].
    apply list_elem_of_fmap. exists r. split; [by rewrite decide_True|done].
Qed.

Lemma delete_user_breaks_chain_witness :
  ∃ r, r ∈ log (demo_db "key") ∧ user_id r = Some 7 ∧
  (result_ok (verify_chain (Some "key") (delete_user 7 (log (demo_db "key")))) = false ∨
   (signed_input r ≠ signed_input (null_user r) ∧
    hmac_sha256 "key" (signed_input r) = hmac_sha256 "key" (signed_input (null_user r)))).
Proof.
  set (db := record (Some "key") None "host.enroll" None None None None None 0 10 empty_db).
  destruct (record_row (Some "key") "key" (Some demo_actor) "user.create" (Some "user") (Some "9")
    None None None 0 11 db) as (r & Hdb & _ & Hr);
    [apply record_inv; [apply (written_inv "key"), written_empty|by right]|by right|].
  change (demo_db "key" = mkDb (log db ++ [r]) (next_seq db + 1)) in Hdb.
  exists r. assert (r ∈ log (demo_db "key")) as Hin
    by (rewrite Hdb; apply elem_of_app; right; by left).
  assert (user_id r = Some 7 ∧ ∃ mac, row_hmac r = Some mac) as [Hu [mac Hmac]].
  { unfold demo_db in Hdb. unfold record at 1 in Hdb. apply (f_equal log) in Hdb. cbn [log] in Hdb.
    apply app_inj_2 in Hdb as [_ Hdb]; [|done]. injection Hdb as <-. split; [reflexivity|by eexists]. }
  split_and!; [done|done|].
  exact (delete_user_breaks_chain "key" 7 (log (demo_db "key")) r mac
    (written_ok _ _ (demo_written "key")) Hin Hu Hmac).
Defined.

Lemma utf8_length s : (String.length s <= String.length (utf8 s))%nat.
Proof.
  unfold utf8. induction s as [|c s IH]; [done|]. simpl. rewrite append_length.
  assert (1 <= String.length (utf8_char c))%nat by (unfold utf8_char; by destruct (code c <? 128)%N; simpl; lia). lia.
Qed.

(** A key that is too short is never used: the loaded key, hexadecimal or
    raw, has at least 16 bytes. *)
Theorem loaded_key_long env k : load_hmac_key env = Some k → (16 <= String.length k)%nat.
Proof.
  unfold load_hmac_key. destruct env as [raw|]; [|done]. destruct (nonempty raw); [|done]. cbn [negb].
  assert ((if (16 <=? String.length raw)%nat then Some (utf8 raw) else None) = Some k →
    (16 <= String.length k)%nat) as Hraw.
  { destruct (Nat.leb_spec 16 (String.length raw)); [|done]. intros [= <-].
    pose proof (utf8_length raw). lia. }
  destruct (fromhex raw) as [d|]; [|exact Hraw].
  destruct (Nat.leb_spec 16 (String.length d)); [|exact Hraw]. by intros [= <-].
Qed.

Lemma lxor_bound a b n : 0 ≤ a < 2 ^ n → 0 ≤ b < 2 ^ n → 0 < n → 0 ≤ Z.lxor a b < 2 ^ n.
Proof.
  intros Ha Hb Hn. assert (0 ≤ Z.lxor a b) as Hpos by (apply Z.lxor_nonneg; lia).
  split; [done|]. destruct (decide (Z.lxor a b = 0)) as [->|Hne]; [lia|].
  assert (∀ y, 0 ≤ y < 2 ^ n → Z.log2 y < n) as Hlog.
  { intros y Hy. destruct (decide (y = 0)) as [->|Hy0]; [done|]. apply Z.log2_lt_pow2; lia. }
  apply Z.log2_lt_pow2; [lia|].
  pose proof (Z.log2_lxor a b ltac:(lia) ltac:(lia)). pose proof (Hlog a Ha). pose proof (Hlog b Hb). lia.
Qed.

(** The advisory lock key of every tenant fits PostgreSQL's [bigint] and is
    not negative. *)
Theorem lock_key_bigint tenant : 0 ≤ tenant_lock_key tenant < 2 ^ 63.
Proof.
  apply lxor_bound; [done| |done]. unfold stable_tenant_lock_key.
  change (2 ^ 63 - 1) with (Z.ones 63). rewrite Z.land_ones by lia. by apply Z.mod_pos_bound.
Qed.
