(* ===== verification/RateLimit.v ===== *)
(** * API rate limiting

    Models [backend/app/core/rate_limit.py]: the sliding-window bucket, the
    in-memory store with its garbage collection, the Redis store, the
    classification of requests and the middleware's decision.

    The in-memory store is shown to implement its specification (a request is
    admitted when fewer than [limit] requests were admitted in the window), and
    its garbage collection to be unobservable.  The Redis server is a parameter;
    the fixed window is shown to admit at most [limit] requests per wall minute,
    and twice that around a minute boundary. *)

From Stdlib Require Import Ascii String SpecFloat Sorted.
From S2P Require Import Prelude PyStr PyVal Crypto.
Local Open Scope string_scope.
Local Open Scope list_scope.
Local Open Scope nat_scope.

Definition WINDOW_S : Z := 60.
Definition window_f : float := float_of_Z 60.

(** ** One bucket *)

(** [(allowed, remaining, reset_unix)] *)
Record admission := mkAdmission { allowed : bool; remaining : Z; reset_unix : float }.

Definition cutoff (now : float) : float := fsub now window_f.

(** [while self.hits and self.hits[0] < cutoff: self.hits.popleft()] *)
Fixpoint popleft_expired (c : float) (hits : list float) : list float :=
  match hits with
  | [] => []
  | h :: rest => if flt h c then popleft_expired c rest else hits
  end.

Definition window_admit (hits : list float) (now : float) (limit : Z) : list float * admission :=
  let c := cutoff now in
  let hits := popleft_expired c hits in
  if (limit <=? Z.of_nat (length hits))%Z then
    (hits, mkAdmission false 0
             (match hits with h :: _ => fadd h window_f | [] => fadd now window_f end))
  else
    let hits := hits ++ [now] in
    (hits, mkAdmission true (limit - Z.of_nat (length hits)) (fadd c window_f)).

(** ** The in-memory store *)

Record InMemoryStore := mkStore {
  buckets : gmap str (list float);
  gc_interval : Z;
  last_gc : float }.

Definition store_admit (key : str) (now : float) (limit : Z) (st : InMemoryStore)
    : InMemoryStore * admission :=
  let hits := default [] (buckets st !! key) in
  let '(hits, r) := window_admit hits now limit in
  (mkStore (<[key := hits]> (buckets st)) (gc_interval st) (last_gc st), r).

(** [not b.hits or b.hits[-1] < cutoff] *)
Definition dead_bucket (c : float) (hits : list float) : bool :=
  match last hits with None => true | Some h => flt h c end.

Definition store_gc (now : float) (st : InMemoryStore) : InMemoryStore :=
  if cmp_le (float_cmp_Z (fsub now (last_gc st)) (gc_interval st)) then st
  else
    mkStore (filter (λ kv, dead_bucket (cutoff now) kv.2 = false) (buckets st))
      (gc_interval st) now.

(** ** The Redis store *)

Section redis.
(** The server: running the script on a key returns the count after [INCR]. *)
Context {R : Type} (admit_script : str → R → Z * R).

Definition KEY_PREFIX : str := "vigil:rl".
Definition bucket_key (key : str) (now : float) : py str :=
  n ← py_int_of_float now;
  Ok (KEY_PREFIX +:+ ":" +:+ key +:+ ":" +:+ str_of_Z (n / WINDOW_S)).

Definition redis_admit (key : str) (now : float) (limit : Z) (s : R) : py (R * admission) :=
  bk ← bucket_key key now;
  let '(count, s) := admit_script bk s in
  n ← py_int_of_float now;
  reset ← py_float_of_int ((n / WINDOW_S + 1) * WINDOW_S);
  if (limit <? count)%Z then Ok (s, mkAdmission false 0 reset)
  else Ok (s, mkAdmission true (Z.max 0 (limit - count)) reset).
End redis.

(** ** Requests *)

(** [_env_int]: the setting when it is an integer, else the environment. *)
Definition env_int (setting : option Z) (env : option str) (dflt : Z) : Z :=
  match setting with
  | Some v => v
  | None => match env with None => dflt | Some s => default dflt (py_int s) end
  end.

(** [LIMITS], from the settings [cfg]. *)
Definition LIMITS (cfg : str → option Z * option str) : list (str * Z) :=
  let lim name dflt := env_int (cfg name).1 (cfg name).2 dflt in
  [("admin", lim "VIGIL_RL_USER_ADMIN_PER_MIN" 600%Z);
   ("analyst", lim "VIGIL_RL_USER_ANALYST_PER_MIN" 300%Z);
   ("viewer", lim "VIGIL_RL_USER_VIEWER_PER_MIN" 120%Z);
   ("api_token", lim "VIGIL_RL_API_TOKEN_PER_MIN" 600%Z);
   ("anon", lim "VIGIL_RL_ANON_PER_MIN" 60%Z)].

Definition EXEMPT_PATHS : list str := ["/api/health"; "/api/openapi.json"; "/metrics"].

(** What the middleware reads of a request. *)
Record request := mkRequest { path : str; authorization : str; client_host : option str }.

Section requests.
(** [decode_jwt]: [None] when it raises. *)
Context (decode_jwt : str → option dict).
Context (limits : list (str * Z)).

Definition anon_identity (r : request) : str * str :=
  ("anon", default "unknown" (client_host r) +:+ ":anon").

Definition classify (r : request) : str * str :=
  let auth := authorization r in
  if negb (starts_with "bearer " (lower auth)) then anon_identity r
  else
    let token := strip (match split_first " " auth with Some (_, t) => t | None => "" end) in
    if starts_with "edr_" token then
      ("api_token", take_str 16 (hexdigest (sha256 (utf8 token))) +:+ ":api_token")
    else
      match decode_jwt token with
      | None => anon_identity r
      | Some decoded =>
          let role := lower (py_str (get_default "role" decoded (PStr ""))) in
          let sub := py_str (get_default "sub" decoded (PStr "")) in
          if negb (dict_has role limits) then anon_identity r
          else (role, "u:" +:+ sub +:+ ":" +:+ role)
      end.

(** [dispatch]: forward unchanged, forward with headers, or deny. *)
Inductive decision :=
| Exempt
| Forward (limit remaining reset : Z)
| Deny (retry_after limit reset : Z).

Definition dispatch (r : request) (now : float) (st : InMemoryStore)
    : InMemoryStore * py decision :=
  if bool_decide (path r ∈ EXEMPT_PATHS) then (st, Ok Exempt)
  else
    let '(role, key) := classify r in
    match (match dict_get role limits with Some l => Some l | None => dict_get "anon" limits end) with
    | None => (st, Err KeyError)
    | Some limit =>
        let '(st, a) := store_admit key now limit (store_gc now st) in
        (st,
         reset ← py_int_of_float (reset_unix a);
         if allowed a then Ok (Forward limit (remaining a) reset)
         else wait ← py_int_of_float (fsub (reset_unix a) now);
              Ok (Deny (Z.max 1 wait) limit reset))
    end.
End requests.

(** ** Specification of the sliding window *)

(** A request admitted at [h] still counts at [now]. *)
Definition in_window (now h : float) : bool := negb (flt h (cutoff now)).

(** The log of admitted requests; the limiter admits when fewer than [limit] of
    them are in the window. *)
Definition spec_admit (log : list float) (now : float) (limit : Z) : list float * bool :=
  if (Z.of_nat (countb (in_window now) log) <? limit)%Z then (log ++ [now], true) else (log, false).

Fixpoint spec_run (log : list float) (ts : list float) (limit : Z) : list bool :=
  match ts with
  | [] => []
  | t :: ts => let '(log, b) := spec_admit log t limit in b :: spec_run log ts limit
  end.

(** The same requests through the bucket. *)
Fixpoint window_run (hits : list float) (ts : list float) (limit : Z) : list bool :=
  match ts with
  | [] => []
  | t :: ts => let '(hits, a) := window_admit hits t limit in allowed a :: window_run hits ts limit
  end.

(** A clock that does not go back: neither the times nor the window's start do. *)
Inductive clock_from : float → list float → Prop :=
| clock_nil t : clock_from t []
| clock_cons t t' ts :
    fle t t' = true → fle (cutoff t) (cutoff t') = true → clock_from t' ts → clock_from t (t' :: ts).

(** ** The bucket implements the specification *)

(** [hits] is the part of the log that may still count at [t]; the rest has
    expired, and the log is in the order of time. *)
Definition window_inv (t : float) (log hits : list float) : Prop :=
  StronglySorted (λ a b, fle a b = true) log ∧ Forall (λ h, fle h t = true) log ∧
  ∃ dead, log = dead ++ hits ∧ Forall (λ h, flt h (cutoff t) = true) dead.

Lemma popleft_split c hits :
  ∃ dead, hits = dead ++ popleft_expired c hits ∧ Forall (λ h, flt h c = true) dead.
Proof.
  induction hits as [|h hits [dead [IH Hd]]]; [by exists []|]. simpl.
  destruct (flt h c) eqn:Hh; [|by exists []].
  exists (h :: dead). split; [simpl; by f_equal|by constructor].
Qed.

Lemma StronglySorted_app_r {A} (R : A → A → Prop) l k : StronglySorted R (l ++ k) → StronglySorted R k.
Proof. induction l as [|x l IH]; [done|]. inversion 1; auto. Qed.

Lemma popleft_alive c hits :
  StronglySorted (λ a b, fle a b = true) hits → Forall (λ h, flt h c = false) (popleft_expired c hits).
Proof.
  induction 1 as [|h hits Hs IH Hall]; simpl; [constructor|].
  destruct (flt h c) eqn:Hh; [done|]. constructor; [done|].
  eapply Forall_impl; [exact Hall|]. intros x Hx. simpl in Hx.
  destruct (flt x c) eqn:Hxc; [|done]. by rewrite (fle_flt_trans _ _ _ Hx Hxc) in Hh.
Qed.

Lemma countb_all {A} (p : A → bool) l : Forall (λ x, p x = true) l → countb p l = length l.
Proof. induction 1 as [|x l Hx _ IH]; [done|]. rewrite countb_cons, Hx, IH. done. Qed.
Lemma countb_none {A} (p : A → bool) l : Forall (λ x, p x = false) l → countb p l = 0.
Proof. induction 1 as [|x l Hx _ IH]; [done|]. by rewrite countb_cons, Hx, IH. Qed.

(** The part of a log that counts at a later time. *)
Lemma window_advance t t' log hits :
  window_inv t log hits → fle t t' = true → fle (cutoff t) (cutoff t') = true →
  window_inv t' log (popleft_expired (cutoff t') hits) ∧
  countb (in_window t') log = length (popleft_expired (cutoff t') hits).
Proof.
  intros (Hs & Ht & dead & -> & Hd) Hle Hc.
  destruct (popleft_split (cutoff t') hits) as (dead' & Hhits & Hd').
  assert (Forall (λ h, flt h (cutoff t') = true) (dead ++ dead')) as Hall.
  { apply Forall_app. split; [|done]. eapply Forall_impl; [exact Hd|].
    intros h Hh. exact (flt_fle_trans _ _ _ Hh Hc). }
  split.
  - split_and!; [done| |].
    + eapply Forall_impl; [exact Ht|]. intros h Hh. exact (fle_trans _ _ _ Hh Hle).
    + exists (dead ++ dead'). split; [rewrite <- app_assoc; by f_equal|done].
  - rewrite Hhits at 1. rewrite app_assoc, countb_app.
    rewrite (countb_none _ (dead ++ dead')), countb_all; [done|..].
    + eapply Forall_impl; [apply popleft_alive; by eapply StronglySorted_app_r|].
      intros h Hh. unfold in_window. by rewrite Hh.
    + eapply Forall_impl; [exact Hall|]. intros h Hh. unfold in_window. by rewrite Hh.
Qed.

Lemma window_inv_snoc t log hits :
  window_inv t log hits → fle t t = true → window_inv t (log ++ [t]) (hits ++ [t]).
Proof.
  intros (Hs & Ht & dead & -> & Hd) Htt. split_and!.
  - clear Hd. induction Hs as [|x l Hs IH Hall]; simpl; [by repeat constructor|].
    apply Forall_cons in Ht as [Hx Ht]. constructor; [auto|]. apply Forall_app. by repeat constructor.
  - apply Forall_app. by repeat constructor.
  - exists dead. by rewrite app_assoc.
Qed.

Lemma fle_refl_r x y : fle x y = true → fle y y = true.
Proof. float_order_cases. Qed.

Lemma window_step t t' log hits limit :
  window_inv t log hits → fle t t' = true → fle (cutoff t) (cutoff t') = true →
  allowed (window_admit hits t' limit).2 = (spec_admit log t' limit).2 ∧
  window_inv t' (spec_admit log t' limit).1 (window_admit hits t' limit).1.
Proof.
  intros Hinv Hle Hc. destruct (window_advance _ _ _ _ Hinv Hle Hc) as [Hinv' Hn].
  unfold window_admit, spec_admit. rewrite Hn.
  destruct (Z.leb_spec limit (Z.of_nat (length (popleft_expired (cutoff t') hits)))),
    (Z.ltb_spec (Z.of_nat (length (popleft_expired (cutoff t') hits))) limit); try lia; simpl.
  - done.
  - split; [done|]. apply window_inv_snoc; [done|by eapply fle_refl_r].
Qed.

Lemma window_run_spec t log hits ts limit :
  window_inv t log hits → clock_from t ts → window_run hits ts limit = spec_run log ts limit.
Proof.
  intros Hinv Hclock. revert log hits Hinv.
  induction Hclock as [|t t' ts Hle Hc Hclock IH]; intros log hits Hinv; [done|]. simpl.
  destruct (window_step t t' log hits limit Hinv Hle Hc) as [Ha Hinv'].
  destruct (window_admit hits t' limit) as [hits' a], (spec_admit log t' limit) as [log' b].
  simpl in *. by rewrite Ha, (IH _ _ Hinv').
Qed.

(** ** The store *)

(** A request as the store sees it: its key, time and limit. *)
Definition call : Type := str * float * Z.

(** [dispatch] collects garbage, then asks for admission. *)
Definition store_step (c : call) (st : InMemoryStore) : InMemoryStore * bool :=
  let '(key, now, limit) := c in
  let '(st, a) := store_admit key now limit (store_gc now st) in (st, allowed a).
Fixpoint store_run (st : InMemoryStore) (cs : list call) : list bool :=
  match cs with
  | [] => []
  | c :: cs => let '(st, b) := store_step c st in b :: store_run st cs
  end.

(** The specification keeps one log per key and no garbage collector. *)
Definition spec_step (c : call) (logs : gmap str (list float)) : gmap str (list float) * bool :=
  let '(key, now, limit) := c in
  let '(log, b) := spec_admit (default [] (logs !! key)) now limit in (<[key := log]> logs, b).
Fixpoint spec_store_run (logs : gmap str (list float)) (cs : list call) : list bool :=
  match cs with
  | [] => []
  | c :: cs => let '(logs, b) := spec_step c logs in b :: spec_store_run logs cs
  end.

Definition times (cs : list call) : list float := map (λ c, c.1.2) cs.

Definition store_inv (t : float) (logs : gmap str (list float)) (st : InMemoryStore) : Prop :=
  ∀ key, window_inv t (default [] (logs !! key)) (default [] (buckets st !! key)).

Lemma window_inv_later t t' log hits :
  window_inv t log hits → fle t t' = true → fle (cutoff t) (cutoff t') = true → window_inv t' log hits.
Proof.
  intros (Hs & Ht & dead & Hlog & Hd) Hle Hc. split_and!; [done| |].
  - eapply Forall_impl; [exact Ht|]. intros h Hh. exact (fle_trans _ _ _ Hh Hle).
  - exists dead. split; [done|]. eapply Forall_impl; [exact Hd|].
    intros h Hh. exact (flt_fle_trans _ _ _ Hh Hc).
Qed.

(** A bucket whose newest hit has expired holds nothing that counts. *)
Lemma dead_bucket_empty t log hits :
  window_inv t log hits → dead_bucket (cutoff t) hits = true → window_inv t log [].
Proof.
  intros (Hs & Ht & dead & -> & Hd) Hb. split_and!; [done|done|].
  exists (dead ++ hits). rewrite app_nil_r. split; [done|]. apply Forall_app. split; [done|].
  apply StronglySorted_app_r in Hs. unfold dead_bucket in Hb.
  destruct hits as [|h l _] using rev_ind; [constructor|]. rewrite last_snoc in Hb.
  apply Forall_app. split; [|by repeat constructor]. clear Ht Hd.
  induction l as [|x l IH]; [constructor|]. inversion Hs as [|? ? Hs' Hall]; subst.
  constructor; [|auto]. apply Forall_app in Hall as [_ Hx]. apply Forall_cons in Hx as [Hx _].
  exact (fle_flt_trans _ _ _ Hx Hb).
Qed.

Lemma store_gc_inv t t' logs st :
  store_inv t logs st → fle t t' = true → fle (cutoff t) (cutoff t') = true →
  store_inv t' logs (store_gc t' st).
Proof.
  intros Hinv Hle Hc key. pose proof (window_inv_later _ _ _ _ (Hinv key) Hle Hc) as Hk.
  unfold store_gc. destruct (cmp_le _); [done|]. simpl. rewrite map_lookup_filter.
  destruct (buckets st !! key) as [hits|]; [|done]. simpl in *. case_guard as Hg; simpl; [done|].
  apply (dead_bucket_empty _ _ hits); [done|]. simpl in Hg. by destruct (dead_bucket _ hits).
Qed.

Lemma store_step_spec t logs st key now limit :
  store_inv t logs st → fle t now = true → fle (cutoff t) (cutoff now) = true →
  (store_step (key, now, limit) st).2 = (spec_step (key, now, limit) logs).2 ∧
  store_inv now (spec_step (key, now, limit) logs).1 (store_step (key, now, limit) st).1.
Proof.
  intros Hinv Hle Hc. pose proof (store_gc_inv _ _ _ _ Hinv Hle Hc) as Hg.
  assert (fle now now = true) as Hnn by (by eapply fle_refl_r).
  assert (fle (cutoff now) (cutoff now) = true) as Hcc by (by eapply fle_refl_r).
  destruct (window_step now now _ _ limit (Hg key) Hnn Hcc) as [Ha Hw].
  unfold store_step, spec_step, store_admit.
  destruct (window_admit _ now limit) as [hits a], (spec_admit _ now limit) as [log b]. simpl in *.
  split; [done|]. intros key'. simpl. rewrite !lookup_insert. case_decide; [done|]. apply Hg.
Qed.

Lemma store_run_spec t logs st cs :
  store_inv t logs st → clock_from t (times cs) → store_run st cs = spec_store_run logs cs.
Proof.
  revert t logs st. induction cs as [|[[key now] limit] cs IH]; intros t logs st Hinv Hclock; [done|].
  inversion Hclock as [|? ? ? Hle Hc Hrest]; subst. simpl in Hle, Hc, Hrest. cbn [store_run spec_store_run].
  destruct (store_step_spec t logs st key now limit Hinv Hle Hc) as [Hb Hinv'].
  destruct (store_step _ st) as [st' b], (spec_step _ logs) as [logs' b']. simpl in *.
  by rewrite Hb, (IH now logs' st').
Qed.

(** ** The number of admitted requests *)

(** The times of the requests the bucket admits. *)
Fixpoint window_log (hits : list float) (ts : list float) (limit : Z) : list float :=
  match ts with
  | [] => []
  | t :: ts =>
      let '(hits, a) := window_admit hits t limit in
      (if allowed a then [t] else []) ++ window_log hits ts limit
  end.

Lemma in_window_mono t t' h :
  fle (cutoff t) (cutoff t') = true → in_window t' h = true → in_window t h = true.
Proof.
  unfold in_window. rewrite !negb_true_iff. intros Hc Ht'.
  destruct (flt h (cutoff t)) eqn:E; [|done]. by rewrite (flt_fle_trans _ _ _ E Hc) in Ht'.
Qed.

Lemma window_log_bound t log hits ts limit :
  window_inv t log hits → clock_from t ts →
  (Z.of_nat (countb (in_window t) log) ≤ Z.max 0 limit)%Z →
  (Z.of_nat (countb (in_window (List.last ts t)) (log ++ window_log hits ts limit)) ≤ Z.max 0 limit)%Z.
Proof.
  intros Hinv Hclock. revert log hits Hinv.
  induction Hclock as [t|t t' ts Hle Hc Hclock IH]; intros log hits Hinv Hn.
  { simpl. by rewrite app_nil_r. }
  assert (List.last (t' :: ts) t = List.last ts t') as ->.
  { clear. revert t'. induction ts as [|x ts IH]; intros t'; [done|]. simpl in *. by destruct ts. }
  destruct (window_step t t' log hits limit Hinv Hle Hc) as [Ha Hinv']. simpl.
  assert (countb (in_window t') log ≤ countb (in_window t) log)
    by (apply countb_mono; intros h _; by apply in_window_mono).
  unfold spec_admit in *. destruct (window_admit hits t' limit) as [hits' a]. simpl in *.
  destruct (Z.ltb_spec (Z.of_nat (countb (in_window t') log)) limit); simpl in *; rewrite Ha.
  - rewrite app_assoc. apply IH; [done|]. rewrite countb_app, countb_cons, countb_nil.
    destruct (in_window t' t'); simpl; lia.
  - apply IH; [done|lia].
Qed.

(** ** Redis *)

(** What the limiter relies on: the script increments the counter of its key and
    returns the new value. *)
Class RedisCounter (R : Type) (script : str → R → Z * R) := {
  redis_count : R → str → Z;
  redis_count_nonneg s k : (0 ≤ redis_count s k)%Z;
  redis_script_value s k : (script k s).1 = (redis_count s k + 1)%Z;
  redis_script_count s k : redis_count (script k s).2 k = (redis_count s k + 1)%Z;
  redis_script_frame s k k' : k' ≠ k → redis_count (script k s).2 k' = redis_count s k' }.

(** A server that keeps its counters in a map. *)
Definition map_script (k : str) (m : gmap str N) : Z * gmap str N :=
  let n := (default 0 (m !! k) + 1)%N in (Z.of_N n, <[k := n]> m).

Global Program Instance map_counter : RedisCounter (gmap str N) map_script :=
  {| redis_count m k := Z.of_N (default 0%N (m !! k)) |}.
Next Obligation. intros. simpl. lia. Qed.
Next Obligation. intros. simpl. lia. Qed.
Next Obligation. intros. simpl. rewrite lookup_insert, decide_True by done. simpl. lia. Qed.
Next Obligation. intros. simpl. by rewrite lookup_insert, decide_False. Qed.

Section redis_bound.
Context {R : Type} {script : str → R → Z * R} `{!RedisCounter R script}.

(** The decisions on requests of one identity at the given times. *)
Fixpoint redis_run (key : str) (ts : list float) (limit : Z) (s : R) : py (R * list bool) :=
  match ts with
  | [] => Ok (s, [])
  | t :: ts =>
      '(s, a) ← redis_admit script key t limit s;
      '(s, bs) ← redis_run key ts limit s;
      Ok (s, allowed a :: bs)
  end.

(** The requests of one wall minute: the [i]-th is admitted when the counter has
    not reached the limit. *)
Lemma redis_run_minute key bk ts limit s :
  Forall (λ t, bucket_key key t = Ok bk ∧
     is_ok (n ← py_int_of_float t; py_float_of_int ((n / WINDOW_S + 1) * WINDOW_S)) = true) ts →
  ∃ s', redis_run key ts limit s =
    Ok (s', map (λ i, Z.leb (redis_count s bk + 1 + Z.of_nat i) limit) (seq 0 (length ts))) ∧
    redis_count s' bk = (redis_count s bk + Z.of_nat (length ts))%Z ∧
    ∀ bk', bk' ≠ bk → redis_count s' bk' = redis_count s bk'.
Proof.
  revert s. induction ts as [|t ts IH]; intros s Hts; [exists s; simpl; split_and!; [done|lia|done]|].
  apply Forall_cons in Hts as [[Hbk Hok] Hts]. simpl.
  unfold redis_admit. rewrite Hbk. cbn [mbind res_bind].
  pose proof (redis_script_value s bk) as Hv. pose proof (redis_script_count s bk) as Hc.
  pose proof (redis_script_frame s bk) as Hf.
  destruct (script bk s) as [count s1]. simpl in Hv, Hc, Hf. subst count.
  destruct (py_int_of_float t) as [n|]; [|done]. cbn [mbind res_bind] in *.
  destruct (py_float_of_int _) as [reset|]; [|done]. cbn [mbind res_bind] in *.
  destruct (IH s1 Hts) as (s2 & Hrun & Hcount & Hframe). exists s2.
  assert (∀ b, (if b : bool then Ok (s1, mkAdmission false 0 reset)
    else Ok (s1, mkAdmission true (Z.max 0 (limit - (redis_count s bk + 1))) reset)) =
    (Ok (s1, if b then mkAdmission false 0 reset
       else mkAdmission true (Z.max 0 (limit - (redis_count s bk + 1))) reset) : py _)) as -> by (by intros []).
  cbn [mbind res_bind]. rewrite Hrun. cbn [mbind res_bind]. split_and!; [|lia|intros bk' Hne; rewrite Hframe by done; by apply Hf].
  do 2 f_equal. simpl. f_equal.
  - rewrite Z.add_0_r. destruct (Z.ltb_spec limit (redis_count s bk + 1)), (Z.leb_spec (redis_count s bk + 1) limit); simpl; (done || lia).
  - rewrite <- seq_shift, map_map. apply map_ext. intros i. rewrite Hc. f_equal. lia.
Qed.
End redis_bound.

Lemma countb_seq c limit n :
  Z.of_nat (countb (λ i, Z.leb (c + Z.of_nat i) limit) (seq 0 n))
  = Z.min (Z.of_nat n) (Z.max 0 (limit - c + 1)).
Proof.
  induction n as [|n IH]; [simpl; unfold countb; simpl; lia|].
  rewrite seq_S, countb_app, countb_cons, countb_nil. simpl.
  destruct (Z.leb_spec (c + Z.of_nat n) limit); lia.
Qed.

Lemma map_seq_true (f : nat → bool) n : (∀ i, i < n → f i = true) → map f (seq 0 n) = replicate n true.
Proof.
  intros Hf. apply list_eq. intros i. rewrite list_lookup_fmap.
  destruct (decide (i < n)).
  - rewrite lookup_seq_lt by done. simpl. rewrite lookup_replicate_2 by done. by rewrite Hf.
  - rewrite lookup_seq_ge by lia. simpl. symmetry. apply lookup_ge_None. rewrite length_replicate. lia.
Qed.

Lemma countb_map {A B} (f : A → B) p l : countb p (map f l) = countb (p ∘ f) l.
Proof. induction l as [|x l IH]; [done|]. simpl. rewrite !countb_cons, IH. done. Qed.

(** ** Properties *)

(** C17: the in-memory store implements the sliding window.  For any calls of the
    middleware in the order of time, over any keys and limits, each request is
    admitted exactly when fewer than its limit were admitted for its key in the
    window that ends with it.  The specification has no garbage collector, so
    collecting idle buckets is never observed, and keys do not interfere. *)
Theorem store_implements_window t0 cs gci lgc :
  clock_from t0 (times cs) →
  store_run (mkStore ∅ gci lgc) cs = spec_store_run ∅ cs.
Proof.
  intros Hclock. apply (store_run_spec t0); [|done]. intros key. rewrite !lookup_empty. simpl.
  split_and!; [constructor..|by exists []].
Qed.

Definition demo_calls : list call :=
  [("u:1:viewer", float_of_Z 1000, 2%Z); ("u:1:viewer", float_of_Z 1001, 2%Z);
   ("u:1:viewer", float_of_Z 1059, 2%Z); ("u:1:viewer", float_of_Z 1061, 2%Z)].

Lemma store_implements_window_witness :
  store_run (mkStore ∅ 600 (float_of_Z 5)) demo_calls = [true; true; false; true].
Proof.
  rewrite (store_implements_window (float_of_Z 1000) demo_calls 600 (float_of_Z 5)).
  - vm_compute. reflexivity.
  - repeat constructor.
Defined.

(** At no moment have more than [limit] admitted requests of a bucket fallen
    into the window that ends then. *)
Theorem window_never_exceeds t0 ts t limit :
  clock_from t0 (ts ++ [t]) →
  (Z.of_nat (countb (in_window t) (window_log [] (ts ++ [t]) limit)) ≤ Z.max 0 limit)%Z.
Proof.
  intros Hclock.
  assert (window_inv t0 [] []) as Hinv by (split_and!; [constructor..|by exists []]).
  pose proof (window_log_bound t0 [] [] (ts ++ [t]) limit Hinv Hclock) as H.
  rewrite List.last_last in H. apply H. unfold countb. simpl. lia.
Qed.

Lemma window_never_exceeds_witness :
  (Z.of_nat (countb (in_window (float_of_Z 1061))
     (window_log [] ([float_of_Z 1000; float_of_Z 1001; float_of_Z 1059] ++ [float_of_Z 1061]) 2))
   ≤ 2)%Z.
Proof.
  apply (window_never_exceeds (float_of_Z 1000) [float_of_Z 1000; float_of_Z 1001; float_of_Z 1059]
    (float_of_Z 1061) 2).
  repeat constructor.
Defined.

(** With Redis, at most [limit] requests of an identity are admitted in one
    wall minute, whatever the server's counters held before. *)
Theorem redis_minute_bound {R} (script : str → R → Z * R) `{!RedisCounter R script}
    key bk ts limit (s : R) :
  Forall (λ t, bucket_key key t = Ok bk ∧
     is_ok (n ← py_int_of_float t; py_float_of_int ((n / WINDOW_S + 1) * WINDOW_S)) = true) ts →
  ∃ s' bs, redis_run (script := script) key ts limit s = Ok (s', bs) ∧ length bs = length ts ∧
    (Z.of_nat (countb id bs) ≤ Z.max 0 limit)%Z.
Proof.
  intros Hts. destruct (redis_run_minute key bk ts limit s Hts) as (s' & Hrun & _).
  eexists _, _. split_and!; [exact Hrun|by rewrite length_map, length_seq|].
  rewrite countb_map. pose proof (redis_count_nonneg s bk).
  pose proof (countb_seq (redis_count s bk + 1) limit (length ts)) as E. unfold compose, id. lia.
Qed.

Lemma redis_minute_bound_witness :
  ∃ s' bs, redis_run (script := map_script) "u:1" [float_of_Z 61; float_of_Z 62; float_of_Z 63] 2 ∅
    = Ok (s', bs) ∧ length bs = 3 ∧ (Z.of_nat (countb id bs) ≤ 2)%Z.
Proof.
  apply (redis_minute_bound map_script "u:1" "vigil:rl:u:1:1"
    [float_of_Z 61; float_of_Z 62; float_of_Z 63] 2 ∅).
  repeat constructor.
Defined.

(** The fixed window is no approximation of the sliding one up to a request:
    [n] requests in the last second of a minute and [n] more in the first second
    of the next are all admitted under the limit [n]. *)
Theorem redis_boundary_doubles (n : nat) :
  ∃ s' s'', redis_run (script := map_script) "u:1" (replicate n (float_of_Z 59)) (Z.of_nat n) ∅
              = Ok (s', replicate n true) ∧
            redis_run (script := map_script) "u:1" (replicate n (float_of_Z 60)) (Z.of_nat n) s'
              = Ok (s'', replicate n true).
Proof.
  assert (∀ t bk s, bucket_key "u:1" t = Ok bk → redis_count s bk = 0%Z →
    is_ok (n ← py_int_of_float t; py_float_of_int ((n / WINDOW_S + 1) * WINDOW_S)) = true →
    ∃ s', redis_run (script := map_script) "u:1" (replicate n t) (Z.of_nat n) s
          = Ok (s', replicate n true) ∧
          ∀ bk', bk' ≠ bk → redis_count s' bk' = redis_count s bk') as Hrun.
  { intros t bk s Hbk H0 Hok.
    destruct (redis_run_minute (script := map_script) "u:1" bk (replicate n t) (Z.of_nat n) s)
      as (s' & Hr & _ & Hf); [apply Forall_replicate; done|].
    exists s'. split; [|done]. rewrite Hr. do 2 f_equal. rewrite length_replicate, H0.
    apply map_seq_true. intros i Hi. apply Z.leb_le. lia. }
  destruct (Hrun (float_of_Z 59) "vigil:rl:u:1:0" ∅) as (s' & H1 & Hf); [done..|].
  destruct (Hrun (float_of_Z 60) "vigil:rl:u:1:1" s') as (s'' & H2 & _); [done| |done|by exists s', s''].
  by rewrite Hf.
Qed.

(** Nobody gets the quota of a role without a valid token for it.  Every
    request is classified under a role that has a limit; a role other than
    [anon] and [api_token] is the (lower-cased) role claim of a token that was
    decoded. *)
Theorem classify_role decode_jwt cfg r role key :
  classify decode_jwt (LIMITS cfg) r = (role, key) →
  is_Some (dict_get role (LIMITS cfg)) ∧
  (role = "anon" ∨ role = "api_token" ∨
   ∃ token decoded, decode_jwt token = Some decoded ∧
     role = lower (py_str (get_default "role" decoded (PStr "")))).
Proof.
  assert (∀ s, s ∈ ["anon"; "api_token"] → is_Some (dict_get s (LIMITS cfg))) as Hs.
  { intros s Hin. set_unfold in Hin. destruct Hin as [->|[->|[]]]; by eexists. }
  unfold classify, anon_identity. intros H.
  destruct (negb (starts_with "bearer " _)); [simplify_eq; split; [apply Hs; set_solver|by left]|].
  destruct (starts_with "edr_" _); [simplify_eq; split; [apply Hs; set_solver|by right; left]|].
  destruct (decode_jwt _) as [d|] eqn:Hd; [|simplify_eq; split; [apply Hs; set_solver|by left]].
  destruct (dict_has _ (LIMITS cfg)) eqn:Hh; simpl in H;
    [|simplify_eq; split; [apply Hs; set_solver|by left]].
  simplify_eq. split; [|right; right; by eexists _, d].
  unfold dict_has in Hh. by destruct (dict_get _ (LIMITS cfg)); [eexists|].
Qed.
