(* ===== verification/Rollout.v ===== *)
(** * Rollout: cohort-gated agent updates and their circuit breaker

    services/rollout.py (the cohort of a host and its eligibility for an update),
    workers/rollout_monitor.py (the breaker that stops a rollout whose hosts
    fail) and the [advance] handler of api/rollouts.py.

    The monitor's state is the four tables it reads or writes.  [GROUP BY]
    returns its groups in no particular order: the order is the argument
    [group_order] of the query, and the theorems hold for every permutation.
    [uuid4 n] is the identifier drawn for the [n]-th row of a table. *)

From Stdlib Require Import Ascii String.
From S2P Require Import Prelude PyStr PyVal PyTime Crypto Models.
Local Open Scope string_scope.
Local Open Scope list_scope.
Local Open Scope Z_scope.

(** ** Cohorts *)

Definition CANARY_UPPER : Z := 5.
Definition EARLY_UPPER : Z := 25.
Definition CANARY : str := "canary".
Definition EARLY : str := "early".
Definition MAINLINE : str := "mainline".

Definition assign_cohort (host_id : uuid) (seed : str) : Z :=
  let h := blake2b 8 (utf8 seed +:+ uuid_bytes host_id) in
  int_of_bytes h mod 100.

Definition cohort_label (bucket : Z) : str :=
  if bucket <? CANARY_UPPER then CANARY
  else if bucket <? EARLY_UPPER then EARLY
  else MAINLINE.

(** [seed] is [settings.rollout_cohort_seed]. *)
Definition eligible_for_update (seed : str) (host : Host) (policy : Policy) : bool :=
  match pol_cohort_target_version policy with
  | None | Some "" => false
  | Some target =>
      let pct := pol_cohort_rolled_out_pct policy in
      if pct <=? 0 then false
      else if (pct <? 100) && (pct <=? assign_cohort (host_id host) seed) then false
      else negb (String.eqb (default "" (host_agent_version host)) target)
  end.

(** ** Rollout events and the monitor's settings *)

Inductive RolloutStatus := R_PENDING | R_IN_FLIGHT | R_SUCCESS | R_FAILED | R_ROLLED_BACK.
#[global] Instance RolloutStatus_eq_dec : EqDecision RolloutStatus.
Proof. solve_decision. Defined.

Record RolloutEvent := mkRolloutEvent {
  re_id : uuid;
  re_host_id : uuid;
  re_policy_id : uuid;
  re_cohort : str;
  re_version_from : option str;
  re_version_to : str;
  re_status : RolloutStatus;
  re_error : option str;
  re_started_at : datetime;
  re_finished_at : option datetime
}.

(** [_interval_seconds], [_failure_threshold] and [_failure_window_s] read an
    environment variable, [raw] when it is set, with the same fallbacks and each
    with its own lower bound. *)
Definition env_setting (lo setting : Z) (raw : option str) : Z :=
  match raw with
  | None => Z.max lo setting
  | Some s => match py_int s with Some n => Z.max lo n | None => setting end
  end.
Definition interval_seconds (setting : Z) (raw : option str) : Z := env_setting 5 setting raw.
Definition failure_threshold (setting : Z) (raw : option str) : Z := env_setting 1 setting raw.
Definition failure_window_s (setting : Z) (raw : option str) : Z := env_setting 10 setting raw.

(** ** The monitor *)

Record rollout_db := mkRolloutDb {
  policies : list Policy;
  events : list RolloutEvent;
  rules : list Rule;
  alerts : list Alert
}.

Definition ROLLOUT_BREAKER_RULE_ID : uuid := 302756783679817582414521616920169414657.

(** The dash of the description is written as its UTF-8 bytes. *)
Definition breaker_rule : Rule :=
  mkRule ROLLOUT_BREAKER_RULE_ID DEFAULT_TENANT_ID IOC "Phase 3 #3.3: rollout breaker tripped"
    (Some ("Synthetic rule — fires when the rollout monitor sees the " +:+
      "failure threshold exceeded within the configured window " +:+
      "for a cohort. The policy's `cohort_rolled_out_pct` is " +:+
      "reset to 0 at the same time. Investigate via the rollout " +:+
      "dashboard before advancing again."))
    CRITICAL ALERT true None None 1 None false.

Definition ensure_breaker_rule (db : rollout_db) : rollout_db :=
  if existsb (λ r, rule_id r =? ROLLOUT_BREAKER_RULE_ID) (rules db) then db
  else mkRolloutDb (policies db) (events db) (rules db ++ [breaker_rule]) (alerts db).

Definition opt_str (o : option str) : pyval := match o with Some s => PStr s | None => PNone end.

Definition breaker_alert (id : uuid) (db_now : datetime) (policy : Policy) (cohort : str)
    (failure_count window_s : Z) : Alert :=
  mkAlert id (pol_tenant_id policy) None ROLLOUT_BREAKER_RULE_ID CRITICAL ALERT NEW
    ("Rollout halted for policy '" +:+ pol_name policy +:+ "' (cohort " +:+ cohort +:+ ", " +:+
     str_of_Z failure_count +:+ " failures in " +:+ str_of_Z window_s +:+ "s)")
    (Some [("policy_id", PStr (uuid_str (pol_id policy)));
           ("policy_name", PStr (pol_name policy));
           ("cohort", PStr cohort);
           ("failure_count", PInt failure_count);
           ("window_s", PInt window_s);
           ("target_version", opt_str (pol_cohort_target_version policy));
           ("detector", PStr "rollout_monitor_v1")])
    None None None db_now None None None None 1 db_now.

Definition emit_alert (uuid4 : nat → uuid) (db_now : datetime) (policy : Policy) (cohort : str)
    (failure_count window_s : Z) (db : rollout_db) : rollout_db :=
  let db := ensure_breaker_rule db in
  mkRolloutDb (policies db) (events db) (rules db)
    (alerts db ++ [breaker_alert (uuid4 (length (alerts db))) db_now policy cohort
                     failure_count window_s]).

(** [policy.cohort_rolled_out_pct = 0] on the row of that policy. *)
Definition halt_policy (pid : uuid) (db : rollout_db) : rollout_db :=
  mkRolloutDb
    (map (λ p, if pol_id p =? pid then set_rolled_out_pct 0 p else p) (policies db))
    (events db) (rules db) (alerts db).

(** The [WHERE] clause of the failure query. *)
Definition counted (pid : uuid) (cutoff : datetime) (e : RolloutEvent) : bool :=
  (re_policy_id e =? pid) && bool_decide (re_status e = R_FAILED) && (cutoff <=? re_started_at e).
Definition failures (pid : uuid) (cutoff : datetime) (cohort : str) (es : list RolloutEvent) : Z :=
  Z.of_nat (countb (λ e, counted pid cutoff e && String.eqb (re_cohort e) cohort) es).

(** The rows of the query: a cohort of a counted event with its count. *)
Definition failure_rows (group_order : list str → list str) (pid : uuid) (cutoff : datetime)
    (es : list RolloutEvent) : list (str * Z) :=
  map (λ c, (c, failures pid cutoff c es))
    (group_order (dedup (map re_cohort (List.filter (counted pid cutoff) es)))).

(** The loop over the rows keeps the first cohort of the greatest count. *)
Definition worst_step (threshold : Z) (worst : option (str * Z)) (row : str * Z) : option (str * Z) :=
  let '(cohort, count) := row in
  if (threshold <=? count) && (from_option snd 0 worst <? count) then Some (cohort, count)
  else worst.
Definition worst_cohort (threshold : Z) (rows : list (str * Z)) : option (str * Z) :=
  foldl (worst_step threshold) None rows.

Section monitor.
Context (group_order : list str → list str) (uuid4 : nat → uuid) (db_now : datetime).
Context (threshold window_s : Z) (now : datetime).

Definition trip_if_failing (policy : Policy) (db : rollout_db) : rollout_db * bool :=
  if pol_cohort_rolled_out_pct policy =? 0 then (db, false)
  else
    let cutoff := now - window_s * 1000000 in
    match worst_cohort threshold (failure_rows group_order (pol_id policy) cutoff (events db)) with
    | None => (db, false)
    | Some (cohort, count) =>
        (emit_alert uuid4 db_now policy cohort count window_s (halt_policy (pol_id policy) db), true)
    end.

Fixpoint trip_loop (ps : list Policy) (db : rollout_db) (tripped : Z) : rollout_db * Z :=
  match ps with
  | [] => (db, tripped)
  | p :: ps =>
      let '(db, trip) := trip_if_failing p db in
      trip_loop ps db (if trip then tripped + 1 else tripped)
  end.

(** One pass: the committed database and the number of policies tripped. *)
Definition run_once (db : rollout_db) : rollout_db * Z :=
  let selected := List.filter (λ p, 0 <? pol_cohort_rolled_out_pct p) (policies db) in
  let '(db', tripped) := trip_loop selected db 0 in
  if tripped =? 0 then (db, 0) else (db', tripped).
End monitor.

(** ** The operator's [advance] *)

(** [RolloutAdvanceIn] validates [0 <= to_pct <= 100]; the audit row is that of
    [AuditChain.record]. *)
Definition advance_rollout (pid : uuid) (to_pct : Z) (db : rollout_db) : py rollout_db :=
  if negb ((0 <=? to_pct) && (to_pct <=? 100)) then Err (HTTPException 422)
  else if existsb (λ p, pol_id p =? pid) (policies db) then
    Ok (mkRolloutDb
          (map (λ p, if pol_id p =? pid then set_rolled_out_pct to_pct p else p) (policies db))
          (events db) (rules db) (alerts db))
  else Err (HTTPException 404).

(** ** Cohorts: the gate is monotone in the percentage *)

Lemma assign_cohort_range h seed : 0 ≤ assign_cohort h seed < 100.
Proof. unfold assign_cohort. apply Z.mod_pos_bound. lia. Qed.

(** Eligibility in closed form: a target that the host does not run yet, and a
    bucket below the percentage. *)
Lemma eligible_iff seed h p :
  eligible_for_update seed h p = true ↔
  ∃ target, pol_cohort_target_version p = Some target ∧ target ≠ "" ∧
    assign_cohort (host_id h) seed < pol_cohort_rolled_out_pct p ∧
    default "" (host_agent_version h) ≠ target.
Proof.
  pose proof (assign_cohort_range (host_id h) seed) as Hr. unfold eligible_for_update.
  destruct (pol_cohort_target_version p) as [[|c t]|]; [naive_solver| |naive_solver].
  destruct (Z.leb_spec (pol_cohort_rolled_out_pct p) 0); [split; [done|]; naive_solver lia|].
  destruct (_ && _) eqn:Hb; breflect.
  - split; [done|]. naive_solver lia.
  - split.
    + intros Hne. exists (String c t). repeat split; [done| |done]. lia.
    + by intros (t' & [= <-] & _ & _ & Hne).
Qed.

Lemma eligible_halted seed h p : eligible_for_update seed h (set_rolled_out_pct 0 p) = false.
Proof.
  apply not_true_iff_false. rewrite eligible_iff. intros (t & _ & _ & Hlt & _). simpl in Hlt.
  pose proof (assign_cohort_range (host_id h) seed). lia.
Qed.

(** ** The query and the loop over its rows *)

Section breaker.
Context (group_order : list str → list str) (uuid4 : nat → uuid) (db_now : datetime).
Context (threshold window_s : Z) (now : datetime).
Context (Hgroups : ∀ l, group_order l ≡ₚ l) (Hthreshold : 1 ≤ threshold).

Let cutoff := now - window_s * 1000000.

(** The failed updates of a cohort of the policy in the window. *)
Definition recent_failure (pid : uuid) (cohort : str) (e : RolloutEvent) : Prop :=
  re_policy_id e = pid ∧ re_status e = R_FAILED ∧ cutoff ≤ re_started_at e ∧ re_cohort e = cohort.
#[local] Instance recent_failure_dec pid cohort e : Decision (recent_failure pid cohort e).
Proof. unfold recent_failure. solve_decision. Defined.
Definition recent_failures (pid : uuid) (cohort : str) (es : list RolloutEvent) : Z :=
  Z.of_nat (countb (λ e, bool_decide (recent_failure pid cohort e)) es).

Lemma failures_recent pid cohort es : failures pid cutoff cohort es = recent_failures pid cohort es.
Proof.
  unfold failures, recent_failures. f_equal. induction es as [|e es IH]; [done|]. rewrite !countb_cons, IH.
  f_equal. apply if_cond_eq. unfold counted, recent_failure.
  rewrite !andb_true_iff, !bool_decide_eq_true, Z.eqb_eq, Z.leb_le, String.eqb_eq. tauto.
Qed.

(** Some cohort of the policy reached the threshold in the window. *)
Definition breached (es : list RolloutEvent) (p : Policy) : Prop :=
  ∃ cohort, threshold ≤ recent_failures (pol_id p) cohort es.

Lemma worst_cohort_spec rows :
  match worst_cohort threshold rows with
  | None => ∀ c n, (c, n) ∈ rows → n < threshold
  | Some (c, n) => (c, n) ∈ rows ∧ threshold ≤ n ∧ ∀ c' n', (c', n') ∈ rows → n' ≤ n
  end.
Proof.
  unfold worst_cohort. induction rows as [|[c n] rows IH] using rev_ind.
  { simpl. intros c n H. by apply not_elem_of_nil in H. }
  rewrite foldl_app. simpl. unfold worst_step.
  destruct (foldl _ _ rows) as [[c0 n0]|]; simpl in *.
  - destruct IH as (Hin & Ht & Hmax). destruct (_ && _) eqn:Hb; breflect.
    + repeat split; [rewrite elem_of_app; set_solver|lia|].
      intros c' n' [H|H%list_elem_of_singleton]%elem_of_app; [apply Hmax in H; lia|].
      simplify_eq; lia.
    + repeat split; [rewrite elem_of_app; by left|done|].
      intros c' n' [H|H%list_elem_of_singleton]%elem_of_app; [by eapply Hmax|].
      simplify_eq; lia.
  - destruct (_ && _) eqn:Hb; breflect.
    + repeat split; [rewrite elem_of_app; set_solver|lia|].
      intros c' n' [H|H%list_elem_of_singleton]%elem_of_app; [apply IH in H; lia|].
      simplify_eq; lia.
    + intros c' n' [H|H%list_elem_of_singleton]%elem_of_app; [by eapply IH|].
      simplify_eq; lia.
Qed.

Lemma elem_of_failure_rows pid es c n :
  (c, n) ∈ failure_rows group_order pid cutoff es ↔ n = failures pid cutoff c es ∧ 0 < n.
Proof.
  unfold failure_rows. rewrite list_elem_of_fmap. setoid_rewrite Hgroups.
  setoid_rewrite elem_of_dedup. setoid_rewrite list_elem_of_fmap.
  assert (Hpos : 0 < failures pid cutoff c es ↔
    ∃ e, c = re_cohort e ∧ e ∈ List.filter (counted pid cutoff) es).
  { unfold failures. rewrite <-Nat2Z.inj_0, <-Nat2Z.inj_lt. rewrite countb_true_iff.
    setoid_rewrite elem_of_filterb.
    split; intros (e & He); exists e; rewrite andb_true_iff, String.eqb_eq in *; naive_solver. }
  split.
  - intros (c' & [= <- ->] & He). by rewrite Hpos.
  - intros [-> Hn]. exists c. by rewrite <-Hpos.
Qed.

(** The worst cohort of a policy, and whether the pass trips it. *)
Let worst (es : list RolloutEvent) (p : Policy) : option (str * Z) :=
  worst_cohort threshold (failure_rows group_order (pol_id p) cutoff es).
Let trips (es : list RolloutEvent) (p : Policy) : bool :=
  negb (pol_cohort_rolled_out_pct p =? 0) && bool_decide (is_Some (worst es p)).

Lemma worst_breached es p : is_Some (worst es p) ↔ breached es p.
Proof.
  unfold worst, breached. setoid_rewrite <-failures_recent. pose proof (worst_cohort_spec (failure_rows group_order (pol_id p) cutoff es)).
  destruct (worst_cohort _ _) as [[c n]|].
  - destruct H as (Hin & Ht & _). apply elem_of_failure_rows in Hin as [-> _]. naive_solver.
  - split; [by intros [? ?]|]. intros [c Hc]. exfalso.
    assert (failures (pol_id p) cutoff c es < threshold); [|lia].
    apply (H c). apply elem_of_failure_rows. split; [done|lia].
Qed.

Lemma trips_iff es p :
  trips es p = true ↔ pol_cohort_rolled_out_pct p ≠ 0 ∧ breached es p.
Proof. unfold trips. breflect. by rewrite worst_breached. Qed.

(** The alert of a tripped policy: critical, in the policy's tenant, on no host,
    naming a cohort whose failures are the most of all cohorts. *)
Definition breaker_alert_for (es : list RolloutEvent) (p : Policy) (a : Alert) : Prop :=
  ∃ id cohort count,
    a = breaker_alert id db_now p cohort count window_s ∧
    count = recent_failures (pol_id p) cohort es ∧ threshold ≤ count ∧
    ∀ cohort', recent_failures (pol_id p) cohort' es ≤ count.

Lemma worst_alert es p c n id :
  worst es p = Some (c, n) → breaker_alert_for es p (breaker_alert id db_now p c n window_s).
Proof.
  unfold worst. intros Hw.
  pose proof (worst_cohort_spec (failure_rows group_order (pol_id p) cutoff es)) as H.
  rewrite Hw in H. destruct H as (Hin & Ht & Hmax).
  pose proof Hin as [-> Hpos]%elem_of_failure_rows.
  eexists id, c, _. repeat split; [by rewrite failures_recent|done|]. intros c'. rewrite <-failures_recent.
  destruct (Z.le_gt_cases (failures (pol_id p) cutoff c' es) 0); [lia|].
  apply (Hmax c'). by apply elem_of_failure_rows.
Qed.

Let step := trip_if_failing group_order uuid4 db_now threshold window_s now.
Let loop := trip_loop group_order uuid4 db_now threshold window_s now.

Lemma step_spec p db :
  let '(db', trip) := step p db in
  trip = trips (events db) p ∧ events db' = events db ∧
  policies db' =
    map (λ q, if trip && (pol_id q =? pol_id p) then set_rolled_out_pct 0 q else q) (policies db) ∧
  ∃ new, alerts db' = alerts db ++ new ∧
    if trip then ∃ a, new = [a] ∧ breaker_alert_for (events db) p a else new = [].
Proof.
  unfold step, trip_if_failing, trips. fold cutoff. fold (worst (events db) p).
  destruct (_ =? 0) eqn:H0; simpl.
  { rewrite map_id. split_and!; [done..|]. exists []. by rewrite app_nil_r. }
  destruct (worst (events db) p) as [[c n]|] eqn:Hw; simpl.
  - unfold emit_alert, ensure_breaker_rule. simpl.
    split_and!; [done|by case_match|by case_match|].
    eexists. split; [by case_match|]. eexists. split; [done|]. by apply worst_alert.
  - rewrite map_id. split_and!; [done..|]. exists []. by rewrite app_nil_r.
Qed.

Lemma loop_spec ps db n :
  let '(db', n') := loop ps db n in
  n' = n + Z.of_nat (countb (trips (events db)) ps) ∧ events db' = events db ∧
  policies db' =
    map (λ q, if existsb (λ p, trips (events db) p && (pol_id q =? pol_id p)) ps
              then set_rolled_out_pct 0 q else q) (policies db) ∧
  ∃ new, alerts db' = alerts db ++ new ∧
    Forall2 (breaker_alert_for (events db)) (List.filter (trips (events db)) ps) new.
Proof.
  unfold loop. revert db n. induction ps as [|p ps IH]; intros db n; simpl.
  { rewrite map_id. split_and!; [unfold countb; simpl; lia|done..|]. exists []. by rewrite app_nil_r. }
  pose proof (step_spec p db) as Hs. unfold step in Hs.
  destruct (trip_if_failing _ _ _ _ _ _ p db) as [db1 trip].
  destruct Hs as (-> & He1 & Hp1 & new1 & Ha1 & Hnew1).
  set (m := if trips (events db) p then n + 1 else n). specialize (IH db1 m).
  destruct (trip_loop _ _ _ _ _ _ ps db1 m) as [db2 n2].
  destruct IH as (-> & He2 & Hp2 & new2 & Ha2 & Hnew2). rewrite He1 in *.
  split_and!; [|done| |].
  - rewrite countb_cons. unfold m. destruct (trips _ p); lia.
  - rewrite Hp2, Hp1, map_map. apply map_ext. intros q.
    destruct (trips (events db) p && _) eqn:Ht; simpl; [|done]. by destruct (existsb _ ps).
  - exists (new1 ++ new2). rewrite Ha2, Ha1, app_assoc. split; [done|].
    destruct (trips (events db) p); [|by subst].
    destruct Hnew1 as (a & -> & Ha). by constructor.
Qed.

(** What a pass owes to one policy: a breached rollout in progress is halted, so
    that no host of it is eligible any more; any other policy keeps its row. *)
Definition policy_outcome (es : list RolloutEvent) (p p' : Policy) : Prop :=
  (0 < pol_cohort_rolled_out_pct p ∧ breached es p →
     p' = set_rolled_out_pct 0 p ∧ ∀ seed h, eligible_for_update seed h p' = false) ∧
  (¬ (0 < pol_cohort_rolled_out_pct p ∧ breached es p) → p' = p) ∧ pol_id p' = pol_id p.

(** The policies a pass trips. *)
Definition tripped_policies (db : rollout_db) (ps : list Policy) : Prop :=
  NoDup ps ∧
  ∀ p, p ∈ ps ↔ p ∈ policies db ∧ 0 < pol_cohort_rolled_out_pct p ∧ breached (events db) p.

Let selected (db : rollout_db) : list Policy :=
  List.filter (λ p, 0 <? pol_cohort_rolled_out_pct p) (policies db).

Lemma tripped_selected db :
  NoDup (map pol_id (policies db)) →
  tripped_policies db (List.filter (trips (events db)) (selected db)).
Proof.
  intros Hnd%NoDup_fmap_1. split.
  - unfold selected. by apply NoDup_filterb, NoDup_filterb.
  - intros p. unfold selected. rewrite !elem_of_filterb, trips_iff, Z.ltb_lt. naive_solver lia.
Qed.

Lemma halted_outcome db q :
  NoDup (map pol_id (policies db)) → q ∈ policies db →
  policy_outcome (events db) q
    (if existsb (λ p, trips (events db) p && (pol_id q =? pol_id p)) (selected db)
     then set_rolled_out_pct 0 q else q).
Proof.
  intros Hnd Hq. destruct (existsb _ _) eqn:Hex.
  - apply existsb_exists in Hex as (p & Hp & Hb). breflect. destruct Hb as [Ht Hid].
    apply list_elem_of_In in Hp. unfold selected in Hp. apply elem_of_filterb in Hp as [Hp Hpos].
    assert (q = p) as -> by (by apply (NoDup_key_inj pol_id (policies db))).
    apply trips_iff in Ht as [_ Hb]. apply Z.ltb_lt in Hpos.
    split_and!; [|intros []; done|done]. intros _. split; [done|]. intros; apply eligible_halted.
  - split_and!; [|done..]. intros [Hpos Hb]. exfalso. apply not_true_iff_false in Hex. apply Hex.
    apply existsb_exists. exists q. rewrite <-list_elem_of_In. unfold selected.
    rewrite elem_of_filterb, Z.eqb_refl, andb_true_r, trips_iff, Z.ltb_lt. split_and!; [done..|lia|done].
Qed.

Lemma run_once_spec db :
  NoDup (map pol_id (policies db)) →
  let '(db', tripped) := run_once group_order uuid4 db_now threshold window_s now db in
  Forall2 (policy_outcome (events db)) (policies db) (policies db') ∧
  ∃ ps new, tripped_policies db ps ∧ tripped = Z.of_nat (length ps) ∧
    alerts db' = alerts db ++ new ∧ Forall2 (breaker_alert_for (events db)) ps new.
Proof.
  intros Hnd. unfold run_once. pose proof (loop_spec (selected db) db 0) as Hl. unfold loop in Hl.
  fold (selected db). destruct (trip_loop _ _ _ _ _ _ _ _ _) as [db' n].
  destruct Hl as (-> & _ & Hp & new & Ha & Hnew). pose proof (tripped_selected db Hnd) as Htp.
  assert (Hout : Forall2 (policy_outcome (events db)) (policies db) (policies db')).
  { rewrite Hp. apply Forall2_fmap_r, Forall_Forall2_diag, Forall_forall. intros q. by apply halted_outcome. }
  unfold countb. destruct (List.filter (trips (events db)) (selected db)) as [|p ps] eqn:Hps; simpl.
  - inversion_clear Hnew. split; [|exists [], []; by rewrite app_nil_r].
    clear Hout. apply Forall_Forall2_diag, Forall_forall. intros q Hq. split_and!; [|done..].
    intros Hb. destruct Htp as [_ Htp]. exfalso. apply (not_elem_of_nil q). by apply Htp.
  - split; [done|]. by exists (p :: ps), new.
Qed.
End breaker.

(** A pass of the rollout monitor trips exactly the policies whose rollout is
    in progress and of which some cohort has at least [threshold] failed updates
    in the trailing window; a tripped policy's percentage becomes 0, after which
    no host is eligible for its update, while every other policy is untouched;
    and one critical alert is raised per tripped policy, in its tenant, naming a
    cohort with the greatest number of failures.  The order in which the
    database returns the cohorts does not matter. *)
Theorem breaker_trips_exactly group_order uuid4 db_now threshold window_s now db :
  (∀ l, group_order l ≡ₚ l) → 1 ≤ threshold → NoDup (map pol_id (policies db)) →
  let '(db', tripped) := run_once group_order uuid4 db_now threshold window_s now db in
  Forall2 (policy_outcome threshold window_s now (events db)) (policies db) (policies db') ∧
  ∃ ps new, tripped_policies threshold window_s now db ps ∧ tripped = Z.of_nat (length ps) ∧
    alerts db' = alerts db ++ new ∧
    Forall2 (breaker_alert_for db_now threshold window_s now (events db)) ps new.
Proof. intros Hg Ht Hnd. by apply run_once_spec. Qed.

(** A policy half rolled out with three failed updates of its canaries. *)
Definition demo_policy : Policy :=
  mkPolicy 10 DEFAULT_TENANT_ID "servers" 1 4 [] None (Some "2.0") 50.
Definition demo_failure (n : Z) : RolloutEvent :=
  mkRolloutEvent n n 10 "canary" (Some "1.9") "2.0" R_FAILED None (1000000 * n) None.
Definition demo_db : rollout_db :=
  mkRolloutDb [demo_policy] [demo_failure 1; demo_failure 2; demo_failure 3] [] [].
Definition demo_run : rollout_db * Z := run_once (@rev str) Z.of_nat 9 3 600 5000000 demo_db.

Lemma breaker_trips_exactly_witness :
  demo_run.2 = 1 ∧
  Forall2 (policy_outcome 3 600 5000000 (events demo_db)) [demo_policy]
    [set_rolled_out_pct 0 demo_policy].
Proof.
  split; [reflexivity|].
  assert (H : NoDup (map pol_id (policies demo_db))) by (apply NoDup_singleton).
  pose proof (breaker_trips_exactly (@rev str) Z.of_nat 9 3 600 5000000 demo_db
    (λ l, symmetry (Permutation_rev l)) ltac:(lia) H) as [Ht _]. exact Ht.
Defined.
