(* ===== verification/Scoping.v ===== *)
(** * Scoping: which hosts an actor may see (services/scoping.py)

    The three gates the API routes use: a [WHERE] clause added to a query
    ([apply_host_scope]), a test of one host ([host_visible_to]) and the explicit
    list of the visible hosts ([visible_host_ids]).  A query is a list of rows,
    a [WHERE] clause a filter.  [NULL] compares as unknown, so it is in no
    [IN]-list. *)

From Stdlib Require Import Ascii String.
From S2P Require Import Prelude PyStr PyVal PyTime Models.
Local Open Scope string_scope.
Local Open Scope list_scope.
Local Open Scope Z_scope.

(** The hosts and the two association tables: hosts in groups, and the groups
    assigned to users. *)
Record scope_db := mkScopeDb {
  sc_hosts : list Host;
  sc_host_in_group : list (uuid * uuid);    (* host_id, host_group_id *)
  sc_user_host_group : list (uuid * uuid)   (* user_id, host_group_id *)
}.

Definition is_admin (actor : Actor) : bool := has_role actor [ADMIN].

(** [select(Host.id).where(Host.tenant_id == actor.tenant_id)] *)
Definition in_tenant (db : scope_db) (actor : Actor) : list uuid :=
  map host_id (List.filter (λ h, host_tenant_id h =? actor_tenant_id actor) (sc_hosts db)).

(** The join of the two association tables for one user: the hosts that share a
    group with them, once per shared group. *)
Definition in_user_groups (db : scope_db) (actor : Actor) : list uuid :=
  map fst (List.filter
    (λ hg, existsb (λ ug, (ug.1 =? actor_user_id actor) && (ug.2 =? hg.2)) (sc_user_host_group db))
    (sc_host_in_group db)).

Definition sql_in (x : option uuid) (l : list uuid) : bool :=
  match x with Some x => bool_decide (x ∈ l) | None => false end.
Definition sql_is_null (x : option uuid) : bool :=
  match x with Some _ => false | None => true end.

Definition apply_host_scope {A} (db : scope_db) (actor : Actor) (host_column : A → option uuid)
    (stmt : list A) : list A :=
  if is_admin actor then
    List.filter (λ r, sql_is_null (host_column r) || sql_in (host_column r) (in_tenant db actor)) stmt
  else
    List.filter (λ r, sql_in (host_column r) (in_user_groups db actor))
      (List.filter (λ r, sql_in (host_column r) (in_tenant db actor)) stmt).

Definition apply_tenant_scope {A} (actor : Actor) (tenant_column : A → uuid) (stmt : list A) : list A :=
  List.filter (λ r, tenant_column r =? actor_tenant_id actor) stmt.

Definition host_visible_to (actor : Actor) (host_id' : option uuid) (db : scope_db) : bool :=
  match host_id' with
  | None => is_admin actor
  | Some hid =>
      match List.find (λ h, host_id h =? hid) (sc_hosts db) with
      | None => false
      | Some h =>
          if negb (host_tenant_id h =? actor_tenant_id actor) then false
          else if is_admin actor then true
          else existsb
                 (λ hg, (hg.1 =? hid) &&
                    existsb (λ ug, (hg.2 =? ug.2) && (ug.1 =? actor_user_id actor))
                      (sc_user_host_group db))
                 (sc_host_in_group db)
      end
  end.

Definition visible_host_ids (actor : Actor) (db : scope_db) : option (list uuid) :=
  if is_admin actor then None
  else Some (dedup (List.filter (λ hid, bool_decide (hid ∈ in_tenant db actor))
                      (in_user_groups db actor))).

(** ** The three gates agree *)

(** Primary keys. *)
Definition hosts_ok (db : scope_db) : Prop := NoDup (map host_id (sc_hosts db)).

Lemma elem_of_in_tenant db actor hid :
  hid ∈ in_tenant db actor ↔
  ∃ h, h ∈ sc_hosts db ∧ host_id h = hid ∧ host_tenant_id h = actor_tenant_id actor.
Proof.
  unfold in_tenant. rewrite list_elem_of_fmap. setoid_rewrite elem_of_filterb.
  setoid_rewrite Z.eqb_eq. naive_solver.
Qed.

Lemma elem_of_in_user_groups db actor hid :
  hid ∈ in_user_groups db actor ↔
  ∃ g, (hid, g) ∈ sc_host_in_group db ∧ (actor_user_id actor, g) ∈ sc_user_host_group db.
Proof.
  unfold in_user_groups. rewrite list_elem_of_fmap. setoid_rewrite elem_of_filterb.
  setoid_rewrite existsb_exists. setoid_rewrite <-list_elem_of_In. split.
  - intros ([h g] & -> & Hin & [u g'] & Hug & Hb). simpl in Hb. breflect. destruct Hb as [-> ->].
    by exists g.
  - intros (g & Hhg & Hug). exists (hid, g). split_and!; [done..|].
    exists (actor_user_id actor, g). simpl. by rewrite !Z.eqb_refl.
Qed.

Lemma host_visible_to_iff db actor hid :
  hosts_ok db →
  host_visible_to actor (Some hid) db = true ↔
  hid ∈ in_tenant db actor ∧ (is_admin actor = true ∨ hid ∈ in_user_groups db actor).
Proof.
  intros Hok. unfold host_visible_to. rewrite elem_of_in_tenant, elem_of_in_user_groups.
  destruct (List.find _ _) as [h|] eqn:Hf.
  - apply List.find_some in Hf as [Hin Hid]. apply list_elem_of_In in Hin.
    apply Z.eqb_eq in Hid. destruct (Z.eqb_spec (host_tenant_id h) (actor_tenant_id actor)) as [Ht|Ht].
    + assert (∃ h0, h0 ∈ sc_hosts db ∧ host_id h0 = hid ∧ host_tenant_id h0 = actor_tenant_id actor)
        by (by exists h). simpl. destruct (is_admin actor); [naive_solver|].
      rewrite existsb_exists. split.
      * intros ([h' g] & Hhg & Hb). rewrite <-list_elem_of_In in Hhg. simpl in Hb.
        rewrite andb_true_iff, existsb_exists in Hb. destruct Hb as [He ([u g'] & Hug & Hb)].
        rewrite <-list_elem_of_In in Hug. simpl in Hb. breflect. destruct Hb as [-> ->]. subst h'.
        split; [done|]. right. by exists g'.
      * intros (_ & [?|(g & Hhg & Hug)]); [done|]. exists (hid, g).
        rewrite <-list_elem_of_In, andb_true_iff, existsb_exists, Z.eqb_refl. split_and!; [done..|].
        exists (actor_user_id actor, g). rewrite <-list_elem_of_In. simpl. by rewrite !Z.eqb_refl.
    + simpl. split; [done|]. intros ((h' & Hin' & Hid' & Ht') & _). destruct Ht.
      by rewrite (NoDup_key_inj host_id (sc_hosts db) h h') by (done || congruence).
  - split; [done|]. intros ((h & Hin & Hid & _) & _).
    apply List.find_none with (x := h) in Hf; [|by apply list_elem_of_In].
    apply Z.eqb_neq in Hf. done.
Qed.

Lemma elem_of_apply_host_scope {A} db actor (hcol : A → option uuid) stmt r :
  hosts_ok db →
  r ∈ apply_host_scope db actor hcol stmt ↔ r ∈ stmt ∧ host_visible_to actor (hcol r) db = true.
Proof.
  intros Hok. unfold apply_host_scope. destruct (hcol r) as [hid|] eqn:Hc.
  - rewrite host_visible_to_iff by done. destruct (is_admin actor);
      rewrite !elem_of_filterb, Hc; simpl; rewrite ?bool_decide_eq_true; naive_solver.
  - unfold host_visible_to. destruct (is_admin actor);
      rewrite !elem_of_filterb, Hc; simpl; naive_solver.
Qed.

Lemma elem_of_visible_host_ids db actor ids hid :
  hosts_ok db → visible_host_ids actor db = Some ids →
  hid ∈ ids ↔ host_visible_to actor (Some hid) db = true.
Proof.
  intros Hok. unfold visible_host_ids. destruct (is_admin actor) eqn:Ha; [done|].
  intros Hids%(inj Some). subst ids. rewrite elem_of_dedup, elem_of_filterb, bool_decide_eq_true.
  rewrite host_visible_to_iff, Ha by done. naive_solver.
Qed.

(** C23: the three ways a route restricts hosts agree: a row passes the [WHERE]
    clause exactly when its host passes the single-host test, and the explicit
    list given for an actor that is no administrator holds exactly the hosts that
    pass it, each once; and a host that passes belongs to the actor's tenant. *)
Theorem host_gates_agree {A} db actor (hcol : A → option uuid) (stmt : list A) :
  hosts_ok db →
  (∀ r, r ∈ apply_host_scope db actor hcol stmt ↔
        r ∈ stmt ∧ host_visible_to actor (hcol r) db = true) ∧
  (∀ ids, visible_host_ids actor db = Some ids →
     NoDup ids ∧ ∀ hid, hid ∈ ids ↔ host_visible_to actor (Some hid) db = true) ∧
  (∀ hid, host_visible_to actor (Some hid) db = true →
     ∃ h, h ∈ sc_hosts db ∧ host_id h = hid ∧ host_tenant_id h = actor_tenant_id actor).
Proof.
  intros Hok. split_and!.
  - intros r. by apply elem_of_apply_host_scope.
  - intros ids Hids. split; [|intros hid; by apply elem_of_visible_host_ids].
    unfold visible_host_ids in Hids. destruct (is_admin actor); [done|].
    apply (inj Some) in Hids as <-. apply NoDup_dedup.
  - intros hid [Ht _]%host_visible_to_iff; [|done]. by apply elem_of_in_tenant.
Qed.

(** Two tenants; the analyst 7 of tenant 1 has a group that still lists a host
    that moved to tenant 2. *)
Definition demo_host (id tenant : uuid) : Host :=
  mkHost id tenant "web" LINUX (Some "1.9") (Some 0) H_ONLINE (Some 10) None None None None None None.
Definition demo_scope : scope_db :=
  mkScopeDb [demo_host 100 1; demo_host 101 1; demo_host 200 2] [(100, 50); (200, 50); (101, 51)]
    [(7, 50)].
Definition demo_analyst : Actor := mkActor 7 ANALYST "user" None [] 1 false.

Lemma demo_scope_ok : hosts_ok demo_scope.
Proof. unfold hosts_ok. by apply (bool_decide_unpack _). Qed.

Lemma host_gates_agree_witness :
  visible_host_ids demo_analyst demo_scope = Some [100] ∧
  host_visible_to demo_analyst (Some 200) demo_scope = false ∧
  NoDup [100].
Proof.
  split; [reflexivity|]. split; [reflexivity|].
  destruct (host_gates_agree demo_scope demo_analyst (λ h, Some (host_id h)) (sc_hosts demo_scope)
    demo_scope_ok) as (_ & Hids & _).
  exact (proj1 (Hids [100] eq_refl)).
Defined.
