(* ===== verification/Jobs.v ===== *)
(** * Jobs: resolving, dispatching and cancelling jobs

    services/jobs.py, models/job.py and the handlers of api/jobs.py that create,
    read and cancel a job.  A job fans out into one run per host, each bridged to
    the agent by one command.  The state holds the tables of the job engine, the
    scoping tables and the audit chain, because every handler writes to it. *)

From Stdlib Require Import Ascii String.
From S2P Require Import Prelude PyStr PyVal PyTime Models AuditChain Rollout Scoping.
Local Open Scope string_scope.
Local Open Scope list_scope.
Local Open Scope Z_scope.

(** ** Enumerations and rows *)

Module JobKind.
Inductive t :=
  | KILL_PROCESS | DELETE_FILE | ISOLATE | UNISOLATE | BLOCK_PROCESS | UNBLOCK_PROCESS
  | BLOCK_FILE | UNBLOCK_FILE | QUARANTINE_FILE | RELEASE_QUARANTINE
  | FILE_ACQUIRE | PROCESS_MEMORY_DUMP | EVENT_LOG_ACQUIRE | CRASH_DUMP_COLLECT | TRIAGE_COLLECT
  | PROCESS_SNAPSHOT | NETWORK_SNAPSHOT | INSTALLED_SOFTWARE | PERSISTENCE_AUDIT | SERVICE_AUDIT
  | ACCOUNT_AUDIT | DNS_HISTORY | USB_HISTORY | REGISTRY_QUERY | BROWSER_HISTORY | HOST_SWEEP
  | YARA_FS_SCAN | IOC_SWEEP | HASH_FILES | MEMORY_YARA_SCAN
  | AGENT_DIAGNOSTIC | SHELL_COMMAND
  | SCAN_FILE | SCAN_MEMORY | UPDATE.
#[global] Instance eq_dec : EqDecision t.
Proof. solve_decision. Defined.
Definition value (k : t) : str :=
  match k with
  | KILL_PROCESS => "kill_process" | DELETE_FILE => "delete_file" | ISOLATE => "isolate"
  | UNISOLATE => "unisolate" | BLOCK_PROCESS => "block_process"
  | UNBLOCK_PROCESS => "unblock_process" | BLOCK_FILE => "block_file"
  | UNBLOCK_FILE => "unblock_file" | QUARANTINE_FILE => "quarantine_file"
  | RELEASE_QUARANTINE => "release_quarantine" | FILE_ACQUIRE => "file_acquire"
  | PROCESS_MEMORY_DUMP => "process_memory_dump" | EVENT_LOG_ACQUIRE => "event_log_acquire"
  | CRASH_DUMP_COLLECT => "crash_dump_collect" | TRIAGE_COLLECT => "triage_collect"
  | PROCESS_SNAPSHOT => "process_snapshot" | NETWORK_SNAPSHOT => "network_snapshot"
  | INSTALLED_SOFTWARE => "installed_software" | PERSISTENCE_AUDIT => "persistence_audit"
  | SERVICE_AUDIT => "service_audit" | ACCOUNT_AUDIT => "account_audit"
  | DNS_HISTORY => "dns_history" | USB_HISTORY => "usb_history"
  | REGISTRY_QUERY => "registry_query" | BROWSER_HISTORY => "browser_history"
  | HOST_SWEEP => "host_sweep" | YARA_FS_SCAN => "yara_fs_scan" | IOC_SWEEP => "ioc_sweep"
  | HASH_FILES => "hash_files" | MEMORY_YARA_SCAN => "memory_yara_scan"
  | AGENT_DIAGNOSTIC => "agent_diagnostic" | SHELL_COMMAND => "shell_command"
  | SCAN_FILE => "scan_file" | SCAN_MEMORY => "scan_memory" | UPDATE => "update"
  end.
End JobKind.

Definition JOB_KIND_ADMIN_ONLY : list JobKind.t :=
  [JobKind.KILL_PROCESS; JobKind.DELETE_FILE; JobKind.ISOLATE; JobKind.UNISOLATE;
   JobKind.BLOCK_PROCESS; JobKind.UNBLOCK_PROCESS; JobKind.BLOCK_FILE; JobKind.UNBLOCK_FILE;
   JobKind.QUARANTINE_FILE; JobKind.RELEASE_QUARANTINE; JobKind.SHELL_COMMAND; JobKind.UPDATE;
   JobKind.TRIAGE_COLLECT].

Inductive JobScopeKind := HOST_IDS | HOST_GROUP | ALL_ONLINE.
Inductive JobStatus := J_QUEUED | J_RUNNING | J_COMPLETED | J_FAILED | J_CANCELED.
Inductive JobRunStatus :=
  RUN_QUEUED | RUN_DISPATCHED | RUN_RUNNING | RUN_COMPLETED | RUN_FAILED | RUN_CANCELED | RUN_TIMEOUT.
#[global] Instance JobScopeKind_eq_dec : EqDecision JobScopeKind.
Proof. solve_decision. Defined.
#[global] Instance JobStatus_eq_dec : EqDecision JobStatus.
Proof. solve_decision. Defined.
#[global] Instance JobRunStatus_eq_dec : EqDecision JobRunStatus.
Proof. solve_decision. Defined.

Definition JobScopeKind_value (k : JobScopeKind) : str :=
  match k with HOST_IDS => "host_ids" | HOST_GROUP => "host_group" | ALL_ONLINE => "all_online" end.

Record Job := mkJob {
  job_id : uuid;
  job_tenant_id : uuid;
  job_kind : JobKind.t;
  job_parameters : dict;
  job_scope_kind : JobScopeKind;
  job_scope_host_ids : option (list str);
  job_scope_group_id : option uuid;
  job_status : JobStatus;
  job_summary : str;
  job_created_by : option uuid;
  job_triggered_by_alert : option uuid;
  job_triggered_by : str;
  job_canceled_at : option datetime
}.

Record JobRun := mkJobRun {
  run_id : uuid;
  run_tenant_id : uuid;
  run_job_id : uuid;
  run_host_id : uuid;
  run_command_id : option uuid;
  run_status : JobRunStatus;
  run_completed_at : option datetime;
  run_error : option str;
  run_progress_pct : Z;
  run_progress_message : option str;
  run_last_progress_at : option datetime
}.

Definition set_job_status (s : JobStatus) (at_ : option datetime) (j : Job) : Job :=
  mkJob (job_id j) (job_tenant_id j) (job_kind j) (job_parameters j) (job_scope_kind j)
    (job_scope_host_ids j) (job_scope_group_id j) s (job_summary j) (job_created_by j)
    (job_triggered_by_alert j) (job_triggered_by j) at_.
Definition cancel_run (now : datetime) (r : JobRun) : JobRun :=
  mkJobRun (run_id r) (run_tenant_id r) (run_job_id r) (run_host_id r) (run_command_id r)
    RUN_CANCELED (Some now) (run_error r) (run_progress_pct r) (run_progress_message r)
    (run_last_progress_at r).
Definition fail_command (now : datetime) (error : str) (c : Command) : Command :=
  mkCommand (cmd_id c) (cmd_tenant_id c) (cmd_host_id c) (cmd_kind c) C_FAILED (cmd_payload c)
    (cmd_alert_id c) (cmd_rule_id c) (cmd_user_id c) (cmd_created_at c) (cmd_dispatched_at c)
    (Some now) (Some error).

Record job_db := mkJobDb {
  jd_scope : scope_db;
  jd_policies : list Policy;
  jd_jobs : list Job;
  jd_runs : list JobRun;
  jd_commands : list Command;
  jd_audit : audit_db
}.
Definition hosts (db : job_db) : list Host := sc_hosts (jd_scope db).

(** ** Scopes *)

(** [JobScope], validated: [host_ids] and [group_id] as its [kind] requires. *)
Record JobScope := mkJobScope {
  scope_kind : JobScopeKind;
  scope_host_ids : option (list uuid);
  scope_group_id : option uuid
}.

Definition ONLINE_WINDOW : Z := 5 * 60 * 1000000.

Definition online_since (cutoff : datetime) (h : Host) : bool :=
  bool_decide (host_status h = H_ONLINE) &&
  match host_last_seen_at h with Some t => cutoff <=? t | None => false end.

Definition resolve_scope (now : datetime) (db : job_db) (scope : JobScope)
    (visible_host_ids : option (list uuid)) : list uuid :=
  let target :=
    match scope_kind scope with
    | HOST_IDS => default [] (scope_host_ids scope)
    | HOST_GROUP =>
        map fst (List.filter (λ hg, bool_decide (Some hg.2 = scope_group_id scope))
                   (sc_host_in_group (jd_scope db)))
    | ALL_ONLINE => map host_id (List.filter (online_since (now - ONLINE_WINDOW)) (hosts db))
    end in
  let target :=
    match visible_host_ids with
    | Some visible => List.filter (λ h, bool_decide (h ∈ visible)) target
    | None => target
    end in
  dedup target.

(** ** Fan-out *)

Definition find_host (db : job_db) (hid : uuid) : option Host :=
  List.find (λ h, host_id h =? hid) (hosts db).
Definition find_policy (db : job_db) (pid : uuid) : option Policy :=
  List.find (λ p, pol_id p =? pid) (jd_policies db).

(** The body of the loop of [_filter_rollout_eligible]. *)
Definition rollout_eligible (seed : str) (db : job_db) (hid : uuid) : bool :=
  match find_host db hid with
  | None => false
  | Some host =>
      match host_policy_id host with
      | None => false
      | Some pid =>
          match find_policy db pid with
          | None => false
          | Some policy => eligible_for_update seed host policy
          end
      end
  end.
Definition filter_rollout_eligible (seed : str) (db : job_db) (host_ids : list uuid) : list uuid :=
  List.filter (rollout_eligible seed db) host_ids.

(** One iteration of the loop of [fanout]: the run, flushed, then its command,
    flushed, then the link.  The foreign key of the run fails for a host that
    does not exist. *)
Definition fanout_one (E : env) (job : Job) (user : option uuid) (hid : uuid) (db : job_db) :
    py (job_db * JobRun) :=
  match find_host db hid with
  | None => Err IntegrityError
  | Some _ =>
      let rid := env_uuid4 E (length (jd_runs db)) in
      let cid := env_uuid4 E (length (jd_commands db)) in
      let cmd := new_command cid DEFAULT_TENANT_ID hid RUN_JOB
        [("job_id", PStr (uuid_str (job_id job))); ("run_id", PStr (uuid_str rid));
         ("job_kind", PStr (JobKind.value (job_kind job))); ("parameters", PDict (job_parameters job))]
        None None user (env_now E) in
      let run := mkJobRun rid DEFAULT_TENANT_ID (job_id job) hid (Some cid) RUN_QUEUED None None 0 None None in
      Ok (mkJobDb (jd_scope db) (jd_policies db) (jd_jobs db) (jd_runs db ++ [run])
            (jd_commands db ++ [cmd]) (jd_audit db), run)
  end.

Fixpoint fanout_loop (E : env) (job : Job) (user : option uuid) (hids : list uuid) (db : job_db)
    (runs : list JobRun) : py (job_db * list JobRun) :=
  match hids with
  | [] => Ok (db, runs)
  | hid :: hids =>
      '(db, run) ← fanout_one E job user hid db;
      fanout_loop E job user hids db (runs ++ [run])
  end.

Definition update_job (jid : uuid) (f : Job → Job) (db : job_db) : job_db :=
  mkJobDb (jd_scope db) (jd_policies db)
    (map (λ j, if job_id j =? jid then f j else j) (jd_jobs db))
    (jd_runs db) (jd_commands db) (jd_audit db).

Definition fanout (E : env) (seed : str) (job : Job) (host_ids : list uuid)
    (issued_by_user_id : option uuid) (db : job_db) : py (job_db * list JobRun) :=
  let host_ids :=
    if bool_decide (job_kind job = JobKind.UPDATE) then filter_rollout_eligible seed db host_ids
    else host_ids in
  '(db, runs) ← fanout_loop E job issued_by_user_id host_ids db [];
  let db :=
    match runs with
    | [] => db
    | _ :: _ => update_job (job_id job) (λ j, set_job_status J_RUNNING (job_canceled_at j) j) db
    end in
  Ok (db, runs).

(** ** Status roll-up and artifact keys *)

Definition count_status (s : JobRunStatus) (runs : list JobRun) : nat :=
  countb (λ r, bool_decide (run_status r = s)) runs.

Definition aggregate_status (db : job_db) (jid : uuid) : JobStatus :=
  let runs := List.filter (λ r, run_job_id r =? jid) (jd_runs db) in
  let count s := count_status s runs in
  match runs with
  | [] => J_QUEUED
  | _ =>
      if existsb (λ s, (0 <? count s)%nat) [RUN_QUEUED; RUN_DISPATCHED; RUN_RUNNING] then J_RUNNING
      else if ((0 <? count RUN_FAILED) || (0 <? count RUN_TIMEOUT))%nat then J_FAILED
      else if ((0 <? count RUN_CANCELED) && (count RUN_COMPLETED =? 0))%nat then J_CANCELED
      else J_COMPLETED
  end.

Definition safe_name (original_name : str) : str :=
  let safe := replace ".." "_" (replace_char backslash "_" (replace_char "/" "_" original_name)) in
  if nonempty safe then safe else "artifact.bin".

Definition artifact_object_key (now : datetime) (run : uuid) (original_name : str) : str :=
  let '(y, m, _) := civil_of_days (now / us_per_day) in
  "runs/" +:+ digits_fixed 10 4 y +:+ "/" +:+ digits_fixed 10 2 m +:+ "/" +:+ uuid_str run +:+ "/" +:+
  safe_name original_name.

(** The two buckets are settings. *)
Definition artifact_bucket_for (snapshots artifacts : str) (kind : JobKind.t) : str :=
  if bool_decide (kind = JobKind.HOST_SWEEP) then snapshots else artifacts.

(** ** The handlers of api/jobs.py *)

(** [RequireAnalyst]: an administrator or an analyst. *)
Definition require_analyst (actor : Actor) : py unit :=
  if has_role actor [ADMIN; ANALYST] then Ok tt else Err (HTTPException 403).

(** [JobScope._check] *)
Definition check_scope (scope : JobScope) : bool :=
  let has_hosts := match scope_host_ids scope with Some (_ :: _) => true | _ => false end in
  let has_group := match scope_group_id scope with Some _ => true | None => false end in
  match scope_kind scope with
  | HOST_IDS => has_hosts && negb has_group
  | HOST_GROUP => has_group && negb has_hosts
  | ALL_ONLINE => negb has_hosts && negb has_group
  end.

Definition default_summary (kind : JobKind.t) (host_count : nat) : str :=
  JobKind.value kind +:+ " " +:+ String (ascii_of_N 215) " " +:+ str_of_nat host_count +:+ " host" +:+
  (if (host_count =? 1)%nat then "" else "s").

Definition add_job (j : Job) (db : job_db) : job_db :=
  mkJobDb (jd_scope db) (jd_policies db) (jd_jobs db ++ [j]) (jd_runs db) (jd_commands db)
    (jd_audit db).
Definition audit_job (E : env) (actor : Actor) (action : str) (jid : uuid) (payload : option dict)
    (db : job_db) : job_db :=
  mkJobDb (jd_scope db) (jd_policies db) (jd_jobs db) (jd_runs db) (jd_commands db)
    (record (env_audit_key E) (Some actor) action (Some "job") (Some (uuid_str jid)) payload None None
       (env_now E) (env_uuid4 E (length (log (jd_audit db)))) (jd_audit db)).

Record JobCreate := mkJobCreate {
  body_kind : JobKind.t;
  body_parameters : dict;
  body_scope : JobScope;
  body_summary : str
}.

Definition create_job (E : env) (seed : str) (body : JobCreate) (actor : Actor) (db : job_db) :
    py (job_db * uuid * list JobRun) :=
  _ ← require_analyst actor;
  if negb (check_scope (body_scope body)) then Err (HTTPException 422) else
  if bool_decide (body_kind body ∈ JOB_KIND_ADMIN_ONLY) && negb (has_role actor [ADMIN]) then
    Err (HTTPException 403)
  else
  let scoped := visible_host_ids actor (jd_scope db) in
  match resolve_scope (env_now E) db (body_scope body) scoped with
  | [] => Err (HTTPException 400)
  | target_hosts =>
      let summary :=
        if nonempty (body_summary body) then body_summary body
        else default_summary (body_kind body) (length target_hosts) in
      let jid := env_uuid4 E (length (jd_jobs db)) in
      let job := mkJob jid DEFAULT_TENANT_ID (body_kind body) (body_parameters body)
        (scope_kind (body_scope body))
        (match scope_host_ids (body_scope body) with
         | Some (_ :: _) => Some (map uuid_str target_hosts)
         | _ => None
         end)
        (scope_group_id (body_scope body)) J_QUEUED summary (Some (actor_user_id actor)) None "manual" None in
      '(db, runs) ← fanout E seed job target_hosts (Some (actor_user_id actor)) (add_job job db);
      Ok (audit_job E actor "job.create" jid
            (Some [("kind", PStr (JobKind.value (body_kind body)));
                   ("scope_kind", PStr (JobScopeKind_value (scope_kind (body_scope body))));
                   ("host_count", PInt (Z.of_nat (length runs)))]) db, jid, runs)
  end.

(** [select(Job).where(Job.id == job_id, Job.tenant_id == actor.tenant_id)] *)
Definition find_job (actor : Actor) (jid : uuid) (db : job_db) : option Job :=
  List.find (λ j, (job_id j =? jid) && (job_tenant_id j =? actor_tenant_id actor)) (jd_jobs db).
Definition runs_of (jid : uuid) (db : job_db) : list JobRun :=
  List.filter (λ r, run_job_id r =? jid) (jd_runs db).

(** The job with the runs the actor may see; the response adds hostnames and
    artifact counts to them. *)
Definition get_job (jid : uuid) (actor : Actor) (db : job_db) : py (Job * list JobRun) :=
  _ ← require_analyst actor;
  match find_job actor jid db with
  | None => Err (HTTPException 404)
  | Some job =>
      match visible_host_ids actor (jd_scope db) with
      | None => Ok (job, runs_of jid db)
      | Some visible =>
          match List.filter (λ r, bool_decide (run_host_id r ∈ visible)) (runs_of jid db) with
          | [] => Err (HTTPException 404)
          | runs => Ok (job, runs)
          end
      end
  end.

Definition run_terminal (s : JobRunStatus) : bool :=
  match s with RUN_COMPLETED | RUN_FAILED | RUN_CANCELED | RUN_TIMEOUT => true | _ => false end.
Definition job_terminal (s : JobStatus) : bool :=
  match s with J_COMPLETED | J_FAILED | J_CANCELED => true | _ => false end.

(** One iteration of the loop of [cancel_job] over the runs of the job. *)
Definition cancel_one (now : datetime) (r : JobRun) (db : job_db) : job_db :=
  if run_terminal (run_status r) then db
  else
    mkJobDb (jd_scope db) (jd_policies db) (jd_jobs db)
      (map (λ r', if run_id r' =? run_id r then cancel_run now r' else r') (jd_runs db))
      (match run_command_id r with
       | None => jd_commands db
       | Some cid =>
           map (λ c, if (cmd_id c =? cid) && bool_decide (cmd_status c = C_PENDING)
                     then fail_command now "canceled by operator" c else c) (jd_commands db)
       end)
      (jd_audit db).

(** The job has no run on a host the actor may see. *)
Definition hidden_job (actor : Actor) (jid : uuid) (db : job_db) : bool :=
  match visible_host_ids actor (jd_scope db) with
  | None => false
  | Some visible => negb (existsb (λ r, bool_decide (run_host_id r ∈ visible)) (runs_of jid db))
  end.

Definition cancel_job (E : env) (jid : uuid) (actor : Actor) (db : job_db) : py job_db :=
  _ ← require_analyst actor;
  match find_job actor jid db with
  | None => Err (HTTPException 404)
  | Some job =>
      if hidden_job actor jid db then Err (HTTPException 404)
      else if job_terminal (job_status job) then Err (HTTPException 400)
      else
        let db' := update_job jid (set_job_status J_CANCELED (Some (env_now E))) db in
        let db' := foldl (λ d r, cancel_one (env_now E) r d) db' (runs_of jid db) in
        Ok (audit_job E actor "job.cancel" jid None db')
  end.

(** ** Fan-out *)

(** A run and the command that carries it: a pending [run_job] envelope for the
    same host, which names the job and the run. *)
Definition bridged (E : env) (job : Job) (user : option uuid) (run : JobRun) (cmd : Command) : Prop :=
  run_job_id run = job_id job ∧ run_status run = RUN_QUEUED ∧ run_command_id run = Some (cmd_id cmd) ∧
  cmd_host_id cmd = run_host_id run ∧ cmd_kind cmd = RUN_JOB ∧ cmd_status cmd = C_PENDING ∧
  cmd_user_id cmd = user ∧
  dict_get "job_id" (cmd_payload cmd) = Some (PStr (uuid_str (job_id job))) ∧
  dict_get "run_id" (cmd_payload cmd) = Some (PStr (uuid_str (run_id run))) ∧
  dict_get "job_kind" (cmd_payload cmd) = Some (PStr (JobKind.value (job_kind job))) ∧
  dict_get "parameters" (cmd_payload cmd) = Some (PDict (job_parameters job)).

Lemma fanout_loop_ok E job user hids db acc db' runs :
  fanout_loop E job user hids db acc = Ok (db', runs) →
  ∃ new cmds, runs = acc ++ new ∧ map run_host_id new = hids ∧
    db' = mkJobDb (jd_scope db) (jd_policies db) (jd_jobs db) (jd_runs db ++ new)
            (jd_commands db ++ cmds) (jd_audit db) ∧
    Forall2 (bridged E job user) new cmds.
Proof.
  revert db acc. induction hids as [|hid hids IH]; intros db acc H; simpl in H.
  - simplify_eq. exists [], []. rewrite !app_nil_r. by destruct db'.
  - unfold fanout_one in H. destruct (find_host db hid); [|done]. simpl in H.
    apply IH in H as (new & cmds & -> & Hh & -> & Hf). simpl.
    eexists (_ :: new), (_ :: cmds). rewrite <-!app_assoc. split_and!; [done|by simpl; f_equal|done|].
    by constructor.
Qed.

Lemma fanout_loop_total E job user hids db acc :
  (∀ hid, hid ∈ hids → is_Some (find_host db hid)) → is_ok (fanout_loop E job user hids db acc) = true.
Proof.
  revert db acc. induction hids as [|hid hids IH]; intros db acc H; [done|]. simpl.
  unfold fanout_one. destruct (H hid (list_elem_of_here _ _)) as [h ->]. simpl.
  apply IH. intros hid' Hin. apply (H hid'). by right.
Qed.

(** The hosts a job is dispatched to. *)
Definition dispatch_targets (seed : str) (kind : JobKind.t) (db : job_db) (hids : list uuid) : list uuid :=
  if bool_decide (kind = JobKind.UPDATE) then filter_rollout_eligible seed db hids else hids.

Lemma fanout_ok E seed job hids user db db' runs :
  fanout E seed job hids user db = Ok (db', runs) →
  map run_host_id runs = dispatch_targets seed (job_kind job) db hids ∧
  jd_scope db' = jd_scope db ∧ jd_policies db' = jd_policies db ∧ jd_audit db' = jd_audit db ∧
  jd_runs db' = jd_runs db ++ runs ∧
  (∃ cmds, jd_commands db' = jd_commands db ++ cmds ∧ Forall2 (bridged E job user) runs cmds) ∧
  map job_tenant_id (jd_jobs db') = map job_tenant_id (jd_jobs db) ∧
  map job_id (jd_jobs db') = map job_id (jd_jobs db).
Proof.
  unfold fanout, dispatch_targets. intros H. apply res_bind_ok in H as ([db1 runs1] & Hl & H).
  apply fanout_loop_ok in Hl as (new & cmds & -> & Hh & -> & Hf). simpl in H.
  injection H as <- <-. split; [done|].
  destruct new as [|r new]; simpl; split_and!; eauto; rewrite map_map; apply map_ext; intros j;
    by destruct (_ =? _).
Qed.

(** ** Scope resolution *)

Lemma resolve_scope_visible now db scope visible hid :
  hid ∈ resolve_scope now db scope (Some visible) → hid ∈ visible.
Proof.
  unfold resolve_scope. rewrite elem_of_dedup, elem_of_filterb. intros [_ H]. by breflect.
Qed.

Lemma resolve_scope_NoDup now db scope visible : NoDup (resolve_scope now db scope visible).
Proof. apply NoDup_dedup. Qed.

(** The parts of a successful [create_job]. *)
Lemma create_job_ok E seed body actor db db' jid runs :
  create_job E seed body actor db = Ok (db', jid, runs) →
  ∃ job db1, let hids := resolve_scope (env_now E) db (body_scope body)
                           (visible_host_ids actor (jd_scope db)) in
    jid = job_id job ∧ job_tenant_id job = DEFAULT_TENANT_ID ∧ job_kind job = body_kind body ∧
    job_parameters job = body_parameters body ∧
    (body_kind body ∈ JOB_KIND_ADMIN_ONLY → has_role actor [ADMIN] = true) ∧
    fanout E seed job hids (Some (actor_user_id actor)) (add_job job db) = Ok (db1, runs) ∧
    jd_scope db' = jd_scope db1 ∧ jd_jobs db' = jd_jobs db1 ∧ jd_runs db' = jd_runs db1 ∧
    jd_commands db' = jd_commands db1.
Proof.
  unfold create_job. intros H. apply res_bind_ok in H as (_ & _ & H).
  destruct (negb (check_scope _)); [done|]. destruct (_ && _) eqn:Hadm; [done|].
  destruct (resolve_scope _ _ _ _) as [|h hs] eqn:Hr; [done|].
  apply res_bind_ok in H as ([db1 runs1] & Hf & H). simplify_eq.
  match type of Hf with fanout _ _ ?j _ _ _ = _ => exists j, db1 end.
  do 4 (split; [reflexivity|]). split; [|by rewrite Hf].
  intros Hk. destruct (has_role actor [ADMIN]); [done|].
  rewrite bool_decide_true in Hadm by done. done.
Qed.

(** ** Creating a job *)

(** C20: a job created by an actor that is no administrator is of a kind analysts
    may run, and runs only on hosts that actor may see, one run per host; every
    run is queued and bridged by its own pending [run_job] command for the same
    host; and the rows that existed before are kept. *)
Theorem analyst_job_scoped E seed body actor db db' jid runs :
  hosts_ok (jd_scope db) → has_role actor [ADMIN] = false →
  create_job E seed body actor db = Ok (db', jid, runs) →
  body_kind body ∉ JOB_KIND_ADMIN_ONLY ∧ NoDup (map run_host_id runs) ∧
  (∀ r, r ∈ runs → host_visible_to actor (Some (run_host_id r)) (jd_scope db) = true) ∧
  jd_runs db' = jd_runs db ++ runs ∧
  ∃ job cmds, job_id job = jid ∧ jd_commands db' = jd_commands db ++ cmds ∧
    Forall2 (bridged E job (Some (actor_user_id actor))) runs cmds.
Proof.
  intros Hok Hrole Hc. apply create_job_ok in Hc as (job & db1 & -> & _ & Hk & _ & Hadm & Hf & _ & _ & Hr & Hcm).
  assert (Hnk : body_kind body ∉ JOB_KIND_ADMIN_ONLY).
  { intros Hin. apply Hadm in Hin. congruence. }
  apply fanout_ok in Hf as (Hh & _ & _ & _ & Hruns & (cmds & Hcmds & Hb) & _).
  unfold dispatch_targets in Hh. rewrite bool_decide_false in Hh.
  2:{ rewrite Hk. intros Hu. apply Hnk. rewrite Hu. by apply (bool_decide_unpack _). }
  split_and!; [done| | |by rewrite Hr, Hruns|exists job, cmds; by rewrite Hcm].
  - rewrite Hh. apply resolve_scope_NoDup.
  - intros r Hin. destruct (visible_host_ids actor (jd_scope db)) as [ids|] eqn:Hv.
    2:{ unfold visible_host_ids, is_admin in Hv. by rewrite Hrole in Hv. }
    eapply elem_of_visible_host_ids; [done..|]. eapply resolve_scope_visible. rewrite <-Hh.
    by apply list_elem_of_fmap_2.
Qed.

(** An administrator's job is not confined to the administrator's tenant:
    naming any host of any tenant in [host_ids] dispatches the job to it (the
    target list is intersected with the visible hosts only for other roles, and
    no query of the job engine filters on the tenant). *)
Theorem admin_job_reaches_any_host E seed actor db kind params hid h :
  has_role actor [ADMIN] = true → kind ≠ JobKind.UPDATE → find_host db hid = Some h →
  ∃ db' jid run,
    create_job E seed (mkJobCreate kind params (mkJobScope HOST_IDS (Some [hid]) None) "") actor db
      = Ok (db', jid, [run]) ∧ run_host_id run = hid.
Proof.
  intros Hrole Hk Hh. unfold create_job, require_analyst.
  assert (has_role actor [ADMIN; ANALYST] = true) as ->.
  { unfold has_role in *. breflect. apply list_elem_of_singleton in Hrole as ->. by left. }
  cbn [mbind res_bind]. unfold visible_host_ids, is_admin. rewrite Hrole. simpl. rewrite andb_false_r.
  unfold fanout. rewrite bool_decide_false by done. simpl. unfold fanout_one.
  change (find_host (add_job _ db) hid) with (find_host db hid). rewrite Hh. simpl. eauto.
Qed.

(** A job is stored in the default tenant whoever creates it, while reading
    a job filters on the reader's tenant: a job created in any other tenant
    cannot be read back there, not even by the actor who created it. *)
Theorem created_job_lost E seed body actor db db' jid runs reader :
  create_job E seed body actor db = Ok (db', jid, runs) →
  jid ∉ map job_id (jd_jobs db) →
  actor_tenant_id reader = actor_tenant_id actor → actor_tenant_id actor ≠ DEFAULT_TENANT_ID →
  has_role reader [ADMIN; ANALYST] = true →
  get_job jid reader db' = Err (HTTPException 404).
Proof.
  intros Hc Hnew Hr Ht Hrole.
  apply create_job_ok in Hc as (job & db1 & -> & Hjt & _ & _ & _ & Hf & _ & Hj & _).
  apply fanout_ok in Hf as (_ & _ & _ & _ & _ & _ & Htj & Hij). simpl in Htj, Hij.
  unfold get_job, require_analyst. rewrite Hrole. simpl. unfold find_job.
  destruct (List.find _ _) as [j|] eqn:Hfind; [exfalso|done].
  apply List.find_some in Hfind as [Hin Hb]. apply list_elem_of_In in Hin. breflect.
  destruct Hb as [Hid Hten]. rewrite Hj in Hin.
  apply list_elem_of_lookup_1 in Hin as [n Hn].
  assert (Hl1 : map job_id (jd_jobs db ++ [job]) !! n = Some (job_id j))
    by (rewrite <-Hij; by apply list_lookup_fmap_Some_2).
  assert (Hl2 : map job_tenant_id (jd_jobs db ++ [job]) !! n = Some (job_tenant_id j))
    by (rewrite <-Htj; by apply list_lookup_fmap_Some_2).
  rewrite map_app in Hl1, Hl2. destruct (Nat.lt_ge_cases n (length (jd_jobs db))).
  - rewrite lookup_app_l in Hl1 by (by rewrite length_map).
    apply Hnew. rewrite <-Hid. by eapply list_elem_of_lookup_2.
  - rewrite lookup_app_r in Hl2 by (rewrite length_map; lia).
    apply list_lookup_singleton_Some in Hl2 as [_ Hl2]. congruence.
Qed.

(** ** The breaker stops the dispatch of updates *)

(** The circuit breaker stops the dispatch: once a pass of the rollout
    monitor has seen a policy's failures reach the threshold, an update job sent
    to any list of hosts creates no run for a host of that policy. *)
Theorem breaker_stops_dispatch group_order uuid4 db_now threshold window_s now rdb p
    E seed job hids user db db' runs :
  (∀ l, group_order l ≡ₚ l) → 1 ≤ threshold → NoDup (map pol_id (policies rdb)) →
  p ∈ policies rdb → 0 < pol_cohort_rolled_out_pct p → breached threshold window_s now (events rdb) p →
  jd_policies db = policies (run_once group_order uuid4 db_now threshold window_s now rdb).1 →
  job_kind job = JobKind.UPDATE → fanout E seed job hids user db = Ok (db', runs) →
  ∀ r h, r ∈ runs → find_host db (run_host_id r) = Some h → host_policy_id h ≠ Some (pol_id p).
Proof.
  intros Hg Ht Hnd Hp Hpos Hbr Hpol Hk Hf r h Hr Hh Hhp.
  pose proof (run_once_spec group_order uuid4 db_now threshold window_s now Hg Ht rdb Hnd) as Hro.
  destruct (run_once _ _ _ _ _ _ rdb) as [rdb' n]. destruct Hro as [Hro _]. simpl in Hpol.
  apply fanout_ok in Hf as [Hrh _]. unfold dispatch_targets in Hrh.
  rewrite Hk, bool_decide_true in Hrh by done.
  assert (Hel : run_host_id r ∈ filter_rollout_eligible seed db hids).
  { rewrite <-Hrh. by apply list_elem_of_fmap_2. }
  apply elem_of_filterb in Hel as [_ Hel]. unfold rollout_eligible in Hel.
  rewrite Hh, Hhp in Hel. destruct (find_policy db (pol_id p)) as [p'|] eqn:Hfp; [|done].
  apply List.find_some in Hfp as [Hin Hid]. apply list_elem_of_In in Hin. apply Z.eqb_eq in Hid.
  rewrite Hpol in Hin. apply list_elem_of_lookup in Hin as [i Hi].
  destruct (Forall2_lookup_r _ _ _ _ _ Hro Hi) as (q & Hq & Hout & _ & Hidq).
  apply list_elem_of_lookup_2 in Hq.
  assert (q = p) as -> by (apply (NoDup_key_inj pol_id (policies rdb)); [done..|congruence]).
  destruct (Hout (conj Hpos Hbr)) as [_ Hno]. congruence.
Qed.

(** ** Status roll-up *)

Lemma count_status_pos s runs :
  (0 <? count_status s runs)%nat = true ↔ ∃ r, r ∈ runs ∧ run_status r = s.
Proof.
  rewrite Nat.ltb_lt. unfold count_status. rewrite countb_true_iff.
  by setoid_rewrite bool_decide_eq_true.
Qed.

Lemma count_status_none s runs :
  (0 <? count_status s runs)%nat = false ↔ ∀ r, r ∈ runs → run_status r ≠ s.
Proof. rewrite <-not_true_iff_false, count_status_pos. naive_solver. Qed.

Lemma count_status_eqb0 s runs :
  (count_status s runs =? 0)%nat = negb (0 <? count_status s runs)%nat.
Proof. by destruct (count_status s runs). Qed.

(** The status of a job is decided by its runs: queued exactly when it has
    none, running exactly when one is still in flight; of finished jobs, failed
    when a run failed or timed out, canceled when every run was canceled, and
    completed otherwise, that is when no run failed and one completed. *)
Theorem aggregate_status_spec db jid :
  let runs := runs_of jid db in
  match aggregate_status db jid with
  | J_QUEUED => runs = []
  | J_RUNNING => ∃ r, r ∈ runs ∧ run_terminal (run_status r) = false
  | J_FAILED => (∀ r, r ∈ runs → run_terminal (run_status r) = true) ∧
      ∃ r, r ∈ runs ∧ (run_status r = RUN_FAILED ∨ run_status r = RUN_TIMEOUT)
  | J_CANCELED => runs ≠ [] ∧ ∀ r, r ∈ runs → run_status r = RUN_CANCELED
  | J_COMPLETED =>
      (∀ r, r ∈ runs → run_status r = RUN_COMPLETED ∨ run_status r = RUN_CANCELED) ∧
      ∃ r, r ∈ runs ∧ run_status r = RUN_COMPLETED
  end.
Proof.
  unfold aggregate_status. fold (runs_of jid db). set (runs := runs_of jid db). cbv zeta.
  destruct runs as [|r0 rs] eqn:Hruns; [done|]. rewrite <-Hruns in *.
  assert (H0 : r0 ∈ runs) by (rewrite Hruns; by left). assert (Hne : runs ≠ []) by (by rewrite Hruns).
  clear Hruns. simpl. rewrite orb_false_r, count_status_eqb0.
  destruct (0 <? count_status RUN_QUEUED runs)%nat eqn:H1; simpl.
  { apply count_status_pos in H1 as (r & Hr & Hs). exists r. by rewrite Hs. }
  destruct (0 <? count_status RUN_DISPATCHED runs)%nat eqn:H2; simpl.
  { apply count_status_pos in H2 as (r & Hr & Hs). exists r. by rewrite Hs. }
  destruct (0 <? count_status RUN_RUNNING runs)%nat eqn:H3; simpl.
  { apply count_status_pos in H3 as (r & Hr & Hs). exists r. by rewrite Hs. }
  rewrite count_status_none in H1, H2, H3.
  assert (Hterm : ∀ r, r ∈ runs → run_terminal (run_status r) = true).
  { intros r Hr. specialize (H1 r Hr). specialize (H2 r Hr). specialize (H3 r Hr).
    by destruct (run_status r). }
  destruct (0 <? count_status RUN_FAILED runs)%nat eqn:H4; simpl.
  { apply count_status_pos in H4. naive_solver. }
  destruct (0 <? count_status RUN_TIMEOUT runs)%nat eqn:H5; simpl.
  { apply count_status_pos in H5. naive_solver. }
  rewrite count_status_none in H4, H5.
  assert (Hrest : ∀ r, r ∈ runs → run_status r = RUN_COMPLETED ∨ run_status r = RUN_CANCELED).
  { intros r Hr. specialize (Hterm r Hr). specialize (H4 r Hr). specialize (H5 r Hr).
    destruct (run_status r); naive_solver. }
  destruct (0 <? count_status RUN_COMPLETED runs)%nat eqn:H6; simpl.
  { rewrite andb_false_r. apply count_status_pos in H6. by split. }
  rewrite count_status_none in H6. rewrite andb_true_r.
  assert (Hall : ∀ r, r ∈ runs → run_status r = RUN_CANCELED) by naive_solver.
  rewrite (proj2 (count_status_pos RUN_CANCELED runs)) by eauto. by split.
Qed.

(** ** Cancelling a job *)

Lemma cancel_fold now rs db :
  let db' := foldl (λ d r, cancel_one now r d) db rs in
  let live r := negb (run_terminal (run_status r)) in
  jd_scope db' = jd_scope db ∧ jd_jobs db' = jd_jobs db ∧
  jd_runs db' =
    map (λ r', if existsb (λ r, live r && (run_id r' =? run_id r)) rs then cancel_run now r' else r')
      (jd_runs db) ∧
  jd_commands db' =
    map (λ c, if bool_decide (cmd_status c = C_PENDING) &&
                 existsb (λ r, live r && bool_decide (run_command_id r = Some (cmd_id c))) rs
              then fail_command now "canceled by operator" c else c) (jd_commands db).
Proof.
  revert db. induction rs as [|r rs IH]; intros db; simpl.
  { split_and!; [done..| |]; symmetry; [apply map_id|].
    rewrite <-(map_id (jd_commands db)) at 2. apply map_ext. intros c. by rewrite andb_false_r. }
  destruct (IH (cancel_one now r db)) as (-> & -> & -> & ->). unfold cancel_one.
  destruct (run_terminal (run_status r)); simpl; [done|]. split_and!; [done..| |].
  - rewrite map_map. apply map_ext. intros r'. destruct (run_id r' =? run_id r) eqn:He; simpl; [|done].
    by destruct (existsb _ rs).
  - destruct (run_command_id r) as [cid|]; simpl; [|by apply map_ext].
    rewrite map_map. apply map_ext. intros c.
    destruct (bool_decide (cmd_status c = C_PENDING)) eqn:Hp; rewrite ?andb_true_r, ?andb_false_r; simpl.
    + rewrite (bool_decide_ext (Some cid = Some (cmd_id c)) (cmd_id c = cid)) by naive_solver.
      destruct (Z.eqb_spec (cmd_id c) cid) as [He|He]; simpl.
      * by rewrite (bool_decide_true (cmd_id c = cid)).
      * rewrite Hp. by rewrite (bool_decide_false (cmd_id c = cid)).
    + by rewrite Hp.
Qed.

(** The run's job is the canceled one and the run has not finished. *)
Definition live_run_of (jid : uuid) (r : JobRun) : bool :=
  (run_job_id r =? jid) && negb (run_terminal (run_status r)).

Lemma cancel_job_ok E jid actor db db' :
  NoDup (map run_id (jd_runs db)) → cancel_job E jid actor db = Ok db' →
  (∃ job, find_job actor jid db = Some job) ∧ jd_scope db' = jd_scope db ∧
  jd_jobs db' = jd_jobs (update_job jid (set_job_status J_CANCELED (Some (env_now E))) db) ∧
  jd_runs db' = map (λ r, if live_run_of jid r then cancel_run (env_now E) r else r) (jd_runs db) ∧
  jd_commands db' =
    map (λ c, if bool_decide (cmd_status c = C_PENDING) &&
                 existsb (λ r, live_run_of jid r && bool_decide (run_command_id r = Some (cmd_id c)))
                   (jd_runs db)
              then fail_command (env_now E) "canceled by operator" c else c) (jd_commands db).
Proof.
  intros Hnd H. unfold cancel_job in H. apply res_bind_ok in H as (_ & _ & H).
  destruct (find_job actor jid db) as [job|]; [|done]. split; [by exists job|].
  destruct (hidden_job _ _ _); [done|].
  destruct (job_terminal _); [done|]. injection H as <-. simpl.
  destruct (cancel_fold (env_now E) (runs_of jid db)
    (update_job jid (set_job_status J_CANCELED (Some (env_now E))) db)) as (-> & -> & -> & ->).
  split_and!; [done..| |]; simpl.
  - apply map_ext_in. intros r Hr%list_elem_of_In. apply if_cond_eq. rewrite existsb_exists. unfold live_run_of. split.
    + intros (r' & Hr' & Hb). apply list_elem_of_In, elem_of_filterb in Hr' as [Hin Hj]. breflect.
      destruct Hb as [Hl Hid]. assert (r = r') as -> by (by apply (NoDup_key_inj run_id (jd_runs db))).
      by rewrite Hj, Hl.
    + intros Hb. breflect. exists r. rewrite <-list_elem_of_In. unfold runs_of.
      rewrite elem_of_filterb. rewrite Z.eqb_refl, andb_true_r. breflect. naive_solver.
  - apply map_ext. intros c. apply if_cond_eq. rewrite !andb_true_iff, !existsb_exists.
    setoid_rewrite <-list_elem_of_In. unfold runs_of. setoid_rewrite elem_of_filterb.
    unfold live_run_of. split; intros (Hp & r & Hr); (split; [done|]); exists r;
      rewrite ?andb_true_iff in *; naive_solver.
Qed.

Lemma aggregate_not_running db jid :
  (∀ r, r ∈ runs_of jid db → run_terminal (run_status r) = true) → aggregate_status db jid ≠ J_RUNNING.
Proof.
  intros Hall. unfold aggregate_status. fold (runs_of jid db). cbv zeta.
  destruct (runs_of jid db) as [|r0 rs] eqn:Hr; [done|]. rewrite <-Hr in *.
  destruct (existsb _ _) eqn:He; [exfalso|by repeat case_match].
  apply existsb_exists in He as (s & Hs & Hc). apply count_status_pos in Hc as (r & Hin & <-).
  apply Hall in Hin. simpl in Hs. by destruct (run_status r); naive_solver.
Qed.

Lemma cancel_job_again E jid actor db db' :
  NoDup (map run_id (jd_runs db)) → cancel_job E jid actor db = Ok db' →
  cancel_job E jid actor db' = Err (HTTPException 400).
Proof.
  intros Hnd Hc. destruct (cancel_job_ok E jid actor db db' Hnd Hc) as ((job & Hj) & Hs & Hjobs & Hruns & _).
  unfold cancel_job in *. destruct (require_analyst actor); [|done]. simpl in *. rewrite Hj in Hc.
  assert (find_job actor jid db' = Some (set_job_status J_CANCELED (Some (env_now E)) job)) as ->.
  { unfold find_job in *. rewrite Hjobs. simpl. rewrite find_map_key.
    - rewrite Hj. simpl. apply List.find_some in Hj as [_ Hb]. breflect. by rewrite (proj1 Hb), Z.eqb_refl.
    - intros j. by destruct (job_id j =? jid) eqn:He; simpl; rewrite ?He. }
  assert (hidden_job actor jid db' = hidden_job actor jid db) as ->.
  { unfold hidden_job, runs_of. rewrite Hs, Hruns. destruct (visible_host_ids _ _); [|done].
    f_equal. rewrite filter_map_key, existsb_map_key; [done|..]; intros r; by destruct (live_run_of jid r). }
  by destruct (hidden_job actor jid db).
Qed.

(** Cancelling a job stops it: afterwards every run of the job has finished,
    so the rolled-up status is no longer running; exactly the runs that were
    still live are canceled, all other runs keep their row; no command of a
    canceled run is left pending, hence none is delivered later; and cancelling
    again is refused as a bad request. *)
Theorem cancel_job_stops E jid actor db db' :
  NoDup (map run_id (jd_runs db)) → cancel_job E jid actor db = Ok db' →
  jd_runs db' = map (λ r, if live_run_of jid r then cancel_run (env_now E) r else r) (jd_runs db) ∧
  (∀ r, r ∈ runs_of jid db' → run_terminal (run_status r) = true) ∧
  aggregate_status db' jid ≠ J_RUNNING ∧
  (∀ r c, r ∈ jd_runs db → live_run_of jid r = true → c ∈ jd_commands db' →
     run_command_id r = Some (cmd_id c) → cmd_status c ≠ C_PENDING) ∧
  cancel_job E jid actor db' = Err (HTTPException 400).
Proof.
  intros Hnd Hc. destruct (cancel_job_ok E jid actor db db' Hnd Hc) as (_ & _ & _ & Hruns & Hcmds).
  assert (Hterm : ∀ r, r ∈ runs_of jid db' → run_terminal (run_status r) = true).
  { intros r. unfold runs_of. rewrite Hruns, elem_of_filterb. intros [(r0 & -> & _)%list_elem_of_fmap Hj].
    destruct (live_run_of jid r0) eqn:Hl; [done|]. unfold live_run_of in Hl.
    rewrite Hj in Hl. by apply negb_false_iff in Hl. }
  split_and!; [done..|by apply aggregate_not_running| |by eapply cancel_job_again].
  intros r c Hr Hl Hin Hid. rewrite Hcmds in Hin. apply list_elem_of_fmap in Hin as (c0 & -> & _).
  destruct (_ && _) eqn:Hb; [done|]. destruct (bool_decide (cmd_status c0 = C_PENDING)) eqn:Hp;
    [|by breflect]. exfalso. apply not_true_iff_false in Hb. apply Hb. simpl. apply existsb_exists.
  exists r. by rewrite <-list_elem_of_In, Hl, Hid, bool_decide_true.
Qed.

(** ** Artifact keys *)

Lemma has_char_flat_map c f s :
  (∀ a, has_char c (f a) = false) → has_char c (string_flat_map f s) = false.
Proof.
  intros Hf. induction s as [|a s IH]; [done|]. simpl. unfold has_char in *.
  rewrite string_existsb_app, Hf. done.
Qed.

Lemma replace_char_absent c s : Ascii.eqb c "_" = false → has_char c (replace_char c "_" s) = false.
Proof.
  intros Hc. apply has_char_flat_map. intros a. destruct (Ascii.eqb_spec a c) as [->|Hne];
    unfold has_char; simpl; rewrite orb_false_r; [done|]. by apply Ascii.eqb_neq.
Qed.

Definition is_dot (c : ascii) : bool := Ascii.eqb c ".".
Definition dot_head (s : str) : bool := match s with "" => false | String c _ => is_dot c end.

Lemma starts_dots c s : starts_with ".." (String c s) = is_dot c && dot_head s.
Proof.
  unfold starts_with, dot_head, is_dot. cbn [String.prefix]. destruct (ascii_dec "." c) as [<-|Hc].
  - destruct s as [|d s]; [done|]. cbn [String.prefix]. destruct (ascii_dec "." d) as [<-|Hd]; [by destruct s|].
    symmetry. apply Ascii.eqb_neq. congruence.
  - symmetry. apply andb_false_intro1, Ascii.eqb_neq. congruence.
Qed.

Lemma replace_dots_cons c s :
  replace ".." "_" (String c s) =
  if is_dot c && dot_head s then String "_" (replace ".." "_" (drop_str 1 s))
  else String c (replace ".." "_" s).
Proof.
  unfold replace. cbn [replace_go]. rewrite starts_dots. destruct (_ && _) eqn:Hb; [|done].
  rewrite append_cons, append_nil_l. f_equal. apply andb_true_iff in Hb as [_ Hs].
  by destruct s.
Qed.

Lemma replace_dots s :
  contains ".." (replace ".." "_" s) = false ∧
  (dot_head (replace ".." "_" s) = true → dot_head s = true) ∧
  (∀ c, Ascii.eqb c "_" = false → has_char c s = false → has_char c (replace ".." "_" s) = false).
Proof.
  remember (String.length s) as n eqn:Hn. revert s Hn.
  induction n as [n IH] using lt_wf_ind. intros [|c s] Hn; [done|]. simpl in Hn.
  rewrite replace_dots_cons. destruct (is_dot c && dot_head s) eqn:Hb.
  - destruct s as [|d s]; [by rewrite andb_false_r in Hb|]. simpl in Hn. simpl drop_str.
    destruct (IH (String.length s) ltac:(lia) s eq_refl) as (H1 & _ & H3). split_and!.
    + cbn [contains]. rewrite starts_dots. done.
    + done.
    + intros a Ha. unfold has_char in *. simpl. rewrite Ha. simpl.
      intros [_ [_ Hs]%orb_false_iff]%orb_false_iff. by apply H3.
  - destruct (IH (String.length s) ltac:(lia) s eq_refl) as (H1 & H2 & H3). split_and!.
    + cbn [contains]. rewrite starts_dots, H1, orb_false_r. apply andb_false_iff in Hb as [Hb|Hb];
        [by rewrite Hb|]. apply andb_false_intro2, not_true_iff_false. intros Hd. apply H2 in Hd. congruence.
    + done.
    + intros a Ha. unfold has_char in *. simpl. intros [-> Hs]%orb_false_iff. simpl. by apply H3.
Qed.

(** The object key of an uploaded artifact stays in the directory of its
    run whatever file name the agent sends: the last component is not empty and
    holds no path separator of either kind and no parent reference. *)
Theorem artifact_key_confined now run name :
  ∃ y m file,
    artifact_object_key now run name =
      "runs/" +:+ digits_fixed 10 4 y +:+ "/" +:+ digits_fixed 10 2 m +:+ "/" +:+ uuid_str run +:+ "/" +:+
      file ∧
    file ≠ "" ∧ has_char "/" file = false ∧ has_char backslash file = false ∧ contains ".." file = false.
Proof.
  unfold artifact_object_key. destruct (civil_of_days _) as [[y m] d].
  exists y, m, (safe_name name). split; [done|]. unfold safe_name.
  set (s1 := replace_char "/" "_" name). set (s2 := replace_char backslash "_" s1).
  assert (Hs1 : has_char "/" s1 = false) by (by apply replace_char_absent).
  assert (Hs2 : has_char backslash s2 = false) by (by apply replace_char_absent).
  assert (Hs3 : has_char "/" s2 = false).
  { unfold s2, replace_char. clearbody s1. clear -Hs1. induction s1 as [|a s IH]; [done|].
    unfold has_char in *. simpl in Hs1 |- *. apply orb_false_iff in Hs1 as [Ha Hs].
    rewrite string_existsb_app, IH by done. destruct (Ascii.eqb a backslash); simpl; [done|].
    by rewrite Ha. }
  destruct (replace_dots s2) as (Hd & _ & Hc).
  destruct (nonempty (replace ".." "_" s2)) eqn:Hne; [|done].
  split_and!; [by intros Hz; rewrite Hz in Hne|by apply Hc..|done].
Qed.

(** ** Examples *)

Definition demo_env : env := mkEnv Z.of_nat 1700000000000000 None.
Definition demo_jobs : job_db := mkJobDb demo_scope [demo_policy] [] [] [] empty_db.
Definition demo_body (hids : list uuid) : JobCreate :=
  mkJobCreate JobKind.PROCESS_SNAPSHOT [] (mkJobScope HOST_IDS (Some hids) None) "".
Definition demo_created : job_db * uuid * list JobRun :=
  match create_job demo_env "vigil-cohort-v1" (demo_body [100; 200]) demo_analyst demo_jobs with
  | Ok r => r
  | Err _ => (demo_jobs, 0, [])
  end.
Definition demo_admin (tenant : uuid) : Actor := mkActor 8 ADMIN "user" None [] tenant false.

Lemma analyst_job_scoped_witness :
  map run_host_id demo_created.2 = [100] ∧ NoDup (map run_host_id demo_created.2).
Proof.
  split; [reflexivity|].
  destruct (analyst_job_scoped demo_env "vigil-cohort-v1" (demo_body [100; 200]) demo_analyst demo_jobs
    demo_created.1.1 demo_created.1.2 demo_created.2 demo_scope_ok eq_refl eq_refl) as (_ & H & _).
  exact H.
Defined.

(** An administrator of tenant 1 runs a job on host 200 of tenant 2. *)
Lemma admin_job_reaches_any_host_witness :
  host_visible_to (demo_admin 1) (Some 200) demo_scope = false ∧
  ∃ db' jid run,
    create_job demo_env "vigil-cohort-v1" (demo_body [200]) (demo_admin 1) demo_jobs = Ok (db', jid, [run]) ∧
    run_host_id run = 200.
Proof.
  split; [reflexivity|].
  exact (admin_job_reaches_any_host demo_env "vigil-cohort-v1" (demo_admin 1) demo_jobs
    JobKind.PROCESS_SNAPSHOT [] 200 (demo_host 200 2) eq_refl ltac:(discriminate) eq_refl).
Defined.

Definition demo_created2 : job_db * uuid * list JobRun :=
  match create_job demo_env "vigil-cohort-v1" (demo_body [200]) (demo_admin 2) demo_jobs with
  | Ok r => r
  | Err _ => (demo_jobs, 0, [])
  end.

Lemma created_job_lost_witness :
  get_job demo_created2.1.2 (demo_admin 2) demo_created2.1.1 = Err (HTTPException 404).
Proof.
  apply (created_job_lost demo_env "vigil-cohort-v1" (demo_body [200]) (demo_admin 2) demo_jobs
    demo_created2.1.1 demo_created2.1.2 demo_created2.2 (demo_admin 2));
    [reflexivity|apply not_elem_of_nil|reflexivity|discriminate|reflexivity].
Defined.

Lemma cancel_job_stops_witness :
  ∃ db', cancel_job demo_env demo_created.1.2 demo_analyst demo_created.1.1 = Ok db' ∧
    aggregate_status db' demo_created.1.2 ≠ J_RUNNING.
Proof.
  eexists. split; [reflexivity|].
  refine (proj1 (proj2 (proj2 (cancel_job_stops demo_env demo_created.1.2 demo_analyst demo_created.1.1 _
    _ eq_refl)))). apply NoDup_singleton.
Defined.

(** A second policy, fully rolled out and healthy, and a host of each. *)
Definition demo_policy_ok : Policy :=
  mkPolicy 11 DEFAULT_TENANT_ID "laptops" 1 4 [] None (Some "2.0") 100.
Definition demo_db2 : rollout_db :=
  mkRolloutDb [demo_policy; demo_policy_ok] (events demo_db) [] [].
Definition demo_jobs2 : job_db :=
  mkJobDb
    (mkScopeDb [demo_host 100 1; mkHost 300 1 "laptop" LINUX (Some "1.9") None H_ONLINE (Some 11)
       None None None None None None] [] [])
    (policies (run_once (@rev str) Z.of_nat 9 3 600 5000000 demo_db2).1) [] [] [] empty_db.
Definition demo_update : Job :=
  mkJob 1 1 JobKind.UPDATE [] ALL_ONLINE None None J_QUEUED "" None None "manual" None.
Definition demo_fanout : job_db * list JobRun :=
  match fanout demo_env "vigil-cohort-v1" demo_update [100; 300] None demo_jobs2 with
  | Ok r => r
  | Err _ => (demo_jobs2, [])
  end.

Lemma breaker_stops_dispatch_witness :
  map run_host_id demo_fanout.2 = [300] ∧
  ∀ r h, r ∈ demo_fanout.2 → find_host demo_jobs2 (run_host_id r) = Some h → host_policy_id h ≠ Some 10.
Proof.
  split; [reflexivity|].
  apply (breaker_stops_dispatch (@rev str) Z.of_nat 9 3 600 5000000 demo_db2 demo_policy demo_env
    "vigil-cohort-v1" demo_update [100; 300] None demo_jobs2 demo_fanout.1 demo_fanout.2
    (λ l, symmetry (Permutation_rev l))); try reflexivity; [lia| |by left|].
  - by apply (bool_decide_unpack _).
  - exists "canary". by vm_compute.
Defined.
