(* ===== verification/Commands.v ===== *)
(** * Commands: from an operator's request to the agent's wire

    api/commands.py and schemas/command.py (queueing a response command),
    services/isolation_guard.py (the manager's own addresses in the allowlist of
    an isolated host), and the half of grpc/services.py that translates a command
    row into the agent's message and drains the pending rows of a host.

    Name resolution ([socket.getaddrinfo]) is a parameter. *)

From Stdlib Require Import Ascii String.
From S2P Require Import Prelude PyStr PyVal PyJson PyTime Crypto PyText Models AuditChain Rollout Scoping.
From S2P Require Import Jobs.
Local Open Scope string_scope.
Local Open Scope list_scope.
Local Open Scope Z_scope.

(** ** The isolation guard *)

(** [s.split(sep, 1)[1]] when [sep] occurs in [s]. *)
Fixpoint after_sub (sep s : str) : option str :=
  if starts_with sep s then Some (drop_str (String.length sep) s)
  else match s with "" => None | String _ s => after_sub sep s end.

Definition before_first (sep : ascii) (s : str) : str :=
  match split_first sep s with Some (a, _) => a | None => s end.

Definition extract_host (url_or_host : str) : option str :=
  let s := strip url_or_host in
  if negb (nonempty s) then None
  else
    let s := match after_sub "://" s with Some t => t | None => s end in
    let s := before_first "/" s in
    let s := if has_char "@" s then after_last "@" s else s in
    match s with
    | String "[" t => match split_first "]" t with Some (h, _) => Some h | None => None end
    | _ =>
        match split_last ":" s with
        | Some (host, port) => if isdigit port then Some host else Some s
        | None => Some s
        end
    end.

(** What [getaddrinfo] answers: [None] for an [OSError], otherwise the address
    strings with whether their family is AF_INET or AF_INET6. *)
Record net := mkNet {
  getaddrinfo : str → option (list (bool * str));
  net_manager_public_url : str;
  net_grpc_san_extras : str
}.

Definition resolve_to_ips (N : net) (host : str) : list str :=
  match getaddrinfo N host with
  | None => []
  | Some infos => dedup (map snd (List.filter (λ i, i.1 && nonempty i.2) infos))
  end.

(** The hosts of the manager: the public URL, then the extra certificate names.
    An empty host is dropped. *)
Definition manager_hosts (N : net) : list str :=
  List.filter nonempty
    (omap extract_host
       (net_manager_public_url N ::
        List.filter nonempty (map strip (split_on "," (net_grpc_san_extras N))))).

(** The injected addresses: those not listed yet, in order, once each. *)
Definition inject (existing : list str) (ips : list str) : list str := dedup_go existing ips.

Definition clean_ips (l : list pyval) : list str := List.filter nonempty (map (λ x, strip (py_str x)) l).

Definition ensure_manager_in_allowlist (N : net) (payload : dict) : dict :=
  match py_or (get_default "allowlist_ips" payload (PList [])) (PList []) with
  | PList existing_raw =>
      let existing := clean_ips existing_raw in
      let injected := inject existing (flat_map (resolve_to_ips N) (manager_hosts N)) in
      match injected with
      | [] => payload
      | _ => dict_set "allowlist_ips" (PList (map PStr (existing ++ injected))) payload
      end
  | _ => payload
  end.

(** ** Queueing *)

Record CommandIn := mkCommandIn { ci_kind : CommandKind; ci_payload : dict }.

Definition positive_pid (payload : dict) : bool :=
  match as_int (get_none "pid" payload) with Some pid => 0 <? pid | None => false end.
Definition text_field (k : str) (payload : dict) : bool :=
  match get_none k payload with PStr s => nonempty (strip s) | _ => false end.
(** [len(pattern.encode("utf-16-le")) > 512]: two bytes per character below
    U+0100. *)
Definition pattern_too_long (payload : dict) : bool :=
  match get_none "pattern" payload with PStr s => 512 <? 2 * Z.of_nat (String.length s) | _ => false end.
Definition is_block_kind (k : CommandKind) : bool :=
  bool_decide (k ∈ [BLOCK_PROCESS; BLOCK_FILE; UNBLOCK_PROCESS; UNBLOCK_FILE]).

(** The validator of the request schema, a 422 when it fails. *)
Definition check_payload (b : CommandIn) : bool :=
  match ci_kind b with
  | KILL_PROCESS => positive_pid (ci_payload b)
  | ISOLATE => is_list (get_default "allowlist_ips" (ci_payload b) (PList []))
  | QUARANTINE_FILE => text_field "path" (ci_payload b)
  | k => if is_block_kind k then text_field "pattern" (ci_payload b) && negb (pattern_too_long (ci_payload b))
         else true
  end.

(** [_validate_payload] of the route, a 400. *)
Definition validate_payload (k : CommandKind) (payload : dict) : bool :=
  match k with
  | KILL_PROCESS => positive_pid payload
  | _ => if is_block_kind k then text_field "pattern" payload && negb (pattern_too_long payload) else true
  end.

Definition queue_command (E : env) (N : net) (host : uuid) (body : CommandIn) (actor : Actor) (db : job_db) :
    py (job_db * Command) :=
  _ ← require_analyst actor;
  if negb (check_payload body) then Err (HTTPException 422)
  else
    match find_host db host with
    | None => Err (HTTPException 404)
    | Some _ =>
        if negb (host_visible_to actor (Some host) (jd_scope db)) then Err (HTTPException 404)
        else if negb (validate_payload (ci_kind body) (ci_payload body)) then Err (HTTPException 400)
        else
          let effective_payload :=
            if bool_decide (ci_kind body = ISOLATE) && truthy (get_none "isolate" (ci_payload body))
            then ensure_manager_in_allowlist N (ci_payload body) else ci_payload body in
          let cid := env_uuid4 E (length (jd_commands db)) in
          let cmd := new_command cid DEFAULT_TENANT_ID host (ci_kind body) effective_payload None None
                       (Some (actor_user_id actor)) (env_now E) in
          Ok (mkJobDb (jd_scope db) (jd_policies db) (jd_jobs db) (jd_runs db) (jd_commands db ++ [cmd])
                (record (env_audit_key E) (Some actor) "command.queue" (Some "host") (Some (uuid_str host))
                   (Some [("command_id", PStr (uuid_str cid)); ("kind", PStr (CommandKind_value (ci_kind body)));
                          ("payload", PDict effective_payload)]) None None (env_now E)
                   (env_uuid4 E (length (log (jd_audit db)))) (jd_audit db)),
              cmd)
    end.

(** ** The agent's message *)

Record pb_spec := mkPbSpec {
  ps_id : str;
  ps_kind : str;
  ps_name : str;
  ps_target_path : str;
  ps_payload : bytes
}.

Inductive AllowlistMode := AM_OFF | AM_LEARN | AM_ENFORCE.

Inductive pb_command :=
| PbKill (pid : Z)
| PbBlockProcess (pattern : str)
| PbBlockFile (pattern : str)
| PbUnblockProcess (pattern : str)
| PbUnblockFile (pattern : str)
| PbIsolate (isolate : bool) (allowlist_ips : list str)
| PbQuarantineFile (path : str) (delete_original : bool)
| PbReleaseQuarantine (sha256 target_path : str)
| PbRunJob (job_id run_id job_kind parameters_json : str)
| PbAllowlistSync (mode : AllowlistMode) (hashes : list bytes)
| PbDnsBlockSync (block_domains sinkhole_domains : list str)
| PbRequestAttestation (nonce : str)
| PbDeviceControlSync (kind : str) (enabled : bool) (allowed_vids allowed_pids : list str)
| PbDeployHoneytoken (specs : list pb_spec).

(** [str(payload.get(k) or "")] *)
Definition str_or_empty (k : str) (payload : dict) : str := py_str (py_or (get_none k payload) (PStr "")).

(** [for x in payload.get(k) or []] *)
Definition items_of (k : str) (payload : dict) : py (list pyval) := iterate (py_or (get_none k payload) (PList [])).

Definition nonempty_strs (l : list pyval) : list str := List.filter nonempty (omap as_str l).

(** [base64.b64decode(s, validate=True)]: the standard alphabet only, no
    character after the padding. *)
Definition b64_std_value (c : ascii) : option Z :=
  if Ascii.eqb c "-" || Ascii.eqb c "_" then None else b64_value c.
Fixpoint a2b_strict (quad : nat) (left_ : Z) (pads : nat) (padding_started : bool) (s : str) : py bytes :=
  match s with
  | "" => if (quad =? 0)%nat then Ok "" else Err ValueError
  | String c s =>
      if Ascii.eqb c "=" then
        if (2 <=? quad)%nat then
          if (4 <=? quad + Datatypes.S pads)%nat then (if nonempty s then Err ValueError else Ok "")
          else a2b_strict quad left_ (Datatypes.S pads) true s
        else a2b_strict quad left_ pads true s
      else match b64_std_value c with
           | None => Err ValueError
           | Some v =>
               if padding_started then Err ValueError
               else match quad with
               | 0%nat => a2b_strict 1 v 0 false s
               | 1%nat => r ← a2b_strict 2 (v mod 16) 0 false s; Ok (String (byte_of_Z (left_ * 4 + v / 16)) r)
               | 2%nat => r ← a2b_strict 3 (v mod 4) 0 false s; Ok (String (byte_of_Z (left_ * 16 + v / 4)) r)
               | _ => r ← a2b_strict 0 0 0 false s; Ok (String (byte_of_Z (left_ * 64 + v)) r)
               end
           end
  end.
Definition b64decode_validate (s : str) : py bytes :=
  match s with
  | String "=" _ => Err ValueError
  | _ => if string_forallb (λ c, (code c <? 128)%N) s then a2b_strict 0 0 0 false s else Err ValueError
  end.

(** One entry of [specs]; [None] when it is skipped.  An entry whose payload does
    not decode has been added before the decoding. *)
Definition honeytoken_spec (v : pyval) : option pb_spec :=
  match v with
  | PDict spec =>
      let sid := str_or_empty "id" spec in
      let skind := str_or_empty "kind" spec in
      if negb (nonempty sid) || negb (nonempty skind) then None
      else
        let data := match get_none "payload_b64" spec with
                    | PStr raw => if nonempty raw
                                  then match b64decode_validate raw with Ok b => b | Err _ => "" end
                                  else ""
                    | _ => ""
                    end in
        Some (mkPbSpec sid skind (str_or_empty "name" spec) (str_or_empty "target_path" spec) data)
  | _ => None
  end.

Definition hash_bytes (v : pyval) : option bytes :=
  match v with PStr h => if (String.length h =? 64)%nat then fromhex h else None | _ => None end.

Definition UINT32_MAX : Z := 4294967295.

Definition command_to_pb (cmd : Command) : py (option pb_command) :=
  let payload := cmd_payload cmd in
  let with_pattern (mk : str → pb_command) :=
    let pat := str_or_empty "pattern" payload in
    Ok (if nonempty pat then Some (mk pat) else None) in
  match cmd_kind cmd with
  | KILL_PROCESS =>
      pid ← py_int_of (py_or (get_none "pid" payload) (PInt 0));
      if pid <=? 0 then Ok None
      else if UINT32_MAX <? pid then Err ValueError
      else Ok (Some (PbKill pid))
  | BLOCK_PROCESS => with_pattern PbBlockProcess
  | BLOCK_FILE => with_pattern PbBlockFile
  | UNBLOCK_PROCESS => with_pattern PbUnblockProcess
  | UNBLOCK_FILE => with_pattern PbUnblockFile
  | ISOLATE =>
      ips ← iterate (py_or (get_default "allowlist_ips" payload (PList [])) (PList []));
      Ok (Some (PbIsolate (truthy (get_default "isolate" payload (PBool true)))
                  (List.filter nonempty (map strip (omap as_str ips)))))
  | QUARANTINE_FILE =>
      let path := str_or_empty "path" payload in
      Ok (if nonempty path
          then Some (PbQuarantineFile path (truthy (get_default "delete_original" payload (PBool false))))
          else None)
  | RELEASE_QUARANTINE =>
      let sha := str_or_empty "sha256" payload in
      Ok (if nonempty sha then Some (PbReleaseQuarantine sha (str_or_empty "target_path" payload)) else None)
  | RUN_JOB =>
      let job := str_or_empty "job_id" payload in
      let run := str_or_empty "run_id" payload in
      let kind := str_or_empty "job_kind" payload in
      Ok (if nonempty job && nonempty run && nonempty kind
          then Some (PbRunJob job run kind (json_dumps (sub "parameters" payload))) else None)
  | ALLOWLIST_SYNC =>
      let mode := match py_str (py_or (get_none "mode" payload) (PStr "off")) with
                  | "learn" => AM_LEARN
                  | "enforce" => AM_ENFORCE
                  | _ => AM_OFF
                  end in
      hashes ← items_of "hashes" payload;
      Ok (Some (PbAllowlistSync mode (omap hash_bytes hashes)))
  | DNS_BLOCK_SYNC =>
      block ← items_of "block_domains" payload;
      sinkhole ← items_of "sinkhole_domains" payload;
      Ok (Some (PbDnsBlockSync (nonempty_strs block) (nonempty_strs sinkhole)))
  | REQUEST_ATTESTATION =>
      let nonce := str_or_empty "nonce" payload in
      Ok (if nonempty nonce then Some (PbRequestAttestation nonce) else None)
  | DEVICE_CONTROL_SYNC =>
      let kind := str_or_empty "kind" payload in
      if negb (nonempty kind) then Ok None
      else
        vids ← items_of "allowed_vids" payload;
        pids ← items_of "allowed_pids" payload;
        Ok (Some (PbDeviceControlSync kind (truthy (get_default "enabled" payload (PBool true)))
                    (nonempty_strs vids) (nonempty_strs pids)))
  | DEPLOY_HONEYTOKEN =>
      specs ← items_of "specs" payload;
      Ok (Some (PbDeployHoneytoken (omap honeytoken_spec specs)))
  end.

(** ** Draining the pending commands of a host *)

Definition dispatch_command (now : datetime) (c : Command) : Command :=
  mkCommand (cmd_id c) (cmd_tenant_id c) (cmd_host_id c) (cmd_kind c) C_DISPATCHED (cmd_payload c)
    (cmd_alert_id c) (cmd_rule_id c) (cmd_user_id c) (cmd_created_at c) (Some now) (cmd_completed_at c)
    (cmd_error c).
Definition update_cmd (cid : uuid) (f : Command → Command) (cmds : list Command) : list Command :=
  map (λ c, if cmd_id c =? cid then f c else c) cmds.

Definition pending_for (host : uuid) (cmds : list Command) : list Command :=
  take 16 (sort_by cmd_created_at
    (List.filter (λ c, (cmd_host_id c =? host) && bool_decide (cmd_status c = C_PENDING)) cmds)).

(** The loop of [_drain_pending]: what is put on the stream, and the rows, or the
    exception that ended the loop. *)
Fixpoint drain_loop (now : datetime) (pending cmds : list Command) : list (uuid * pb_command) * py (list Command) :=
  match pending with
  | [] => ([], Ok cmds)
  | c :: pending =>
      match command_to_pb c with
      | Err e => ([], Err e)
      | Ok None => drain_loop now pending (update_cmd (cmd_id c) (fail_command now "unsupported command kind") cmds)
      | Ok (Some pb) =>
          let '(sent, r) := drain_loop now pending (update_cmd (cmd_id c) (dispatch_command now) cmds) in
          ((cmd_id c, pb) :: sent, r)
      end
  end.

(** [_drain_pending] with its caller's handler: an exception is logged, and the
    session, never committed, is rolled back.  What was sent stays sent. *)
Definition drain_pending (now : datetime) (host : uuid) (cmds : list Command) : list (uuid * pb_command) * list Command :=
  let '(sent, r) := drain_loop now (pending_for host cmds) cmds in
  (sent, match r with Ok cmds' => cmds' | Err _ => cmds end).

(** ** Draining *)

Definition is_pending (host : uuid) (c : Command) : bool :=
  (cmd_host_id c =? host) && bool_decide (cmd_status c = C_PENDING).
Definition translated (c : Command) : option (uuid * pb_command) :=
  match command_to_pb c with Ok (Some pb) => Some (cmd_id c, pb) | _ => None end.

(** What a pass makes of a row, given the rows it took. *)
Definition settle (now : datetime) (taken : list Command) (c : Command) : Command :=
  match List.find (λ p, cmd_id p =? cmd_id c) taken with
  | None => c
  | Some p => match command_to_pb p with
              | Ok (Some _) => dispatch_command now c
              | _ => fail_command now "unsupported command kind" c
              end
  end.

Lemma find_id_None (c : Command) taken :
  cmd_id c ∉ map cmd_id taken → List.find (λ p, cmd_id p =? cmd_id c) taken = None.
Proof.
  intros Hn. destruct (List.find _ _) as [p|] eqn:Hf; [|done]. apply List.find_some in Hf as [Hin Hid].
  exfalso. apply Hn, list_elem_of_fmap. exists p. rewrite list_elem_of_In. split; [|done].
  symmetry. by apply Z.eqb_eq.
Qed.

Lemma drain_loop_ok now pending cmds sent cmds' :
  NoDup (map cmd_id pending) → drain_loop now pending cmds = (sent, Ok cmds') →
  sent = omap translated pending ∧ cmds' = map (settle now pending) cmds.
Proof.
  revert cmds sent. induction pending as [|c pending IH]; intros cmds sent Hnd; simpl.
  { intros [= <- <-]. split; [done|]. by rewrite list_fmap_id. }
  apply NoDup_cons in Hnd as [Hc Hnd]. unfold translated at 1.
  assert (∀ f, (∀ x, cmd_id (f x) = cmd_id x) →
            (∀ x, f x = match command_to_pb c with Ok (Some _) => dispatch_command now x
                                              | _ => fail_command now "unsupported command kind" x end) →
            map (settle now pending) (update_cmd (cmd_id c) f cmds) = map (settle now (c :: pending)) cmds) as Hmap.
  { intros f Hid Hf. unfold update_cmd. rewrite map_map. apply map_ext. intros x. unfold settle. simpl.
    rewrite (Z.eqb_sym (cmd_id c)). destruct (Z.eqb_spec (cmd_id x) (cmd_id c)) as [Heq|]; [|done].
    rewrite find_id_None; [apply Hf|]. by rewrite Hid, Heq. }
  destruct (command_to_pb c) as [[pb|]|e] eqn:Hpb; [..|done].
  - destruct (drain_loop _ _ _) as [sent' r] eqn:Hd. intros [= <- ->].
    apply IH in Hd as [-> ->]; [|done]. split; [done|]. by apply Hmap.
  - intros Hd. apply IH in Hd as [-> ->]; [|done]. split; [done|]. by apply Hmap.
Qed.

Lemma drain_loop_total now pending cmds :
  (∀ c, c ∈ pending → is_ok (command_to_pb c) = true) → ∃ sent cmds', drain_loop now pending cmds = (sent, Ok cmds').
Proof.
  revert cmds. induction pending as [|c pending IH]; intros cmds H; simpl; [eauto|].
  assert (is_ok (command_to_pb c) = true) as Hc by (apply H; set_solver).
  destruct (command_to_pb c) as [[pb|]|e]; [..|done].
  - destruct (IH (update_cmd (cmd_id c) (dispatch_command now) cmds)) as (s & k & ->); [set_solver|eauto].
  - apply IH. set_solver.
Qed.

Lemma pending_for_sub host cmds c : c ∈ pending_for host cmds → c ∈ cmds ∧ is_pending host c = true.
Proof.
  unfold pending_for. intros H. apply (sublist_subseteq _ _ (sublist_take _ _)) in H.
  by rewrite sort_by_perm, elem_of_filterb in H.
Qed.

(** The pending rows of a host, oldest first; a pass takes the first sixteen. *)
Definition backlog (host : uuid) (cmds : list Command) : list Command :=
  sort_by cmd_created_at (List.filter (is_pending host) cmds).

Lemma backlog_NoDup host cmds : NoDup (map cmd_id cmds) → NoDup (map cmd_id (backlog host cmds)).
Proof. intros Hnd. unfold backlog. rewrite sort_by_perm. by apply NoDup_map_filterb. Qed.

Lemma pending_for_NoDup host cmds : NoDup (map cmd_id cmds) → NoDup (map cmd_id (pending_for host cmds)).
Proof.
  intros Hnd. apply (sublist_NoDup _ (map cmd_id (backlog host cmds))); [by apply backlog_NoDup|].
  apply (fmap_sublist cmd_id), sublist_take.
Qed.

Lemma settle_id now taken c : cmd_id (settle now taken c) = cmd_id c.
Proof. unfold settle. destruct (List.find _ _); [|done]. by destruct (command_to_pb _) as [[]|]. Qed.

Lemma settle_ids now taken cmds : map cmd_id (map (settle now taken) cmds) = map cmd_id cmds.
Proof. rewrite map_map. apply map_ext. intros c. apply settle_id. Qed.

Definition taken_id (taken : list Command) (c : Command) : bool :=
  existsb (λ p, cmd_id p =? cmd_id c) taken.

Lemma settle_pending now host taken c :
  is_pending host (settle now taken c) = is_pending host c && negb (taken_id taken c).
Proof.
  unfold settle. assert (taken_id taken c = match List.find (λ p, cmd_id p =? cmd_id c) taken with
    | Some _ => true | None => false end) as -> .
  { unfold taken_id. induction taken as [|p taken IH]; [done|]. simpl. by destruct (_ =? _). }
  destruct (List.find _ taken) as [p|]; [|by rewrite andb_true_r]. rewrite andb_false_r.
  unfold is_pending. by destruct (command_to_pb p) as [[]|]; simpl; rewrite andb_false_r.
Qed.

Lemma filter_map_settle now host taken cmds :
  List.filter (is_pending host) (map (settle now taken) cmds) =
  List.filter (λ c, negb (taken_id taken c)) (List.filter (is_pending host) cmds).
Proof.
  induction cmds as [|c cmds IH]; [done|]. simpl. rewrite settle_pending, IH.
  destruct (is_pending host c); [|done]. simpl. destruct (taken_id taken c) eqn:Ht; [done|]. simpl.
  f_equal. unfold settle. rewrite find_id_None; [done|].
  intros (p & Hp & Hin)%list_elem_of_fmap. apply not_true_iff_false in Ht. apply Ht. unfold taken_id.
  apply existsb_exists. exists p. split; [by apply list_elem_of_In|]. by apply Z.eqb_eq.
Qed.

(** What is left after a pass is the backlog without its first sixteen rows. *)
Lemma backlog_after now host cmds :
  NoDup (map cmd_id cmds) →
  List.filter (is_pending host) (map (settle now (pending_for host cmds)) cmds) ≡ₚ drop 16 (backlog host cmds).
Proof.
  intros Hnd. rewrite filter_map_settle. pose proof (backlog_NoDup host cmds Hnd) as Hb.
  assert (List.filter (λ c, negb (taken_id (pending_for host cmds) c)) (backlog host cmds) = drop 16 (backlog host cmds)) as <-.
  { change (pending_for host cmds) with (take 16 (backlog host cmds)). revert Hb.
    generalize (backlog host cmds). intros l Hl.
    transitivity (List.filter (λ c, negb (taken_id (take 16 l) c)) (take 16 l ++ drop 16 l));
      [by rewrite take_drop|]. rewrite List.filter_app.
    rewrite filter_none, filter_all; [done| |].
    - intros c Hc. apply negb_true_iff, not_true_iff_false. unfold taken_id.
      intros (p & Hp & Hid%Z.eqb_eq)%existsb_exists. apply list_elem_of_In in Hp.
      rewrite <- (take_drop 16 l), map_app in Hl. apply NoDup_app in Hl as (_ & Hdis & _).
      apply (Hdis (cmd_id p)); [by apply list_elem_of_fmap_2|]. rewrite Hid. by apply list_elem_of_fmap_2.
    - intros c Hc. apply negb_false_iff. unfold taken_id. apply existsb_exists. exists c.
      split; [by apply list_elem_of_In|]. by apply Z.eqb_eq. }
  apply Permutation_filterb. unfold backlog. by rewrite sort_by_perm.
Qed.

(** The passes of a stream, at the given times, while no command is added. *)
Fixpoint drains (nows : list datetime) (host : uuid) (cmds : list Command) :
    list (uuid * pb_command) * list Command :=
  match nows with
  | [] => ([], cmds)
  | now :: nows =>
      let '(sent, cmds) := drain_pending now host cmds in
      let '(more, cmds) := drains nows host cmds in
      (sent ++ more, cmds)
  end.

Lemma drain_pending_ok now host cmds :
  NoDup (map cmd_id cmds) → (∀ c, c ∈ pending_for host cmds → is_ok (command_to_pb c) = true) →
  drain_pending now host cmds =
    (omap translated (pending_for host cmds), map (settle now (pending_for host cmds)) cmds).
Proof.
  intros Hnd Hok. unfold drain_pending.
  destruct (drain_loop_total now (pending_for host cmds) cmds Hok) as (sent & cmds' & Hd). rewrite Hd.
  apply drain_loop_ok in Hd as [-> ->]; [done|]. by apply pending_for_NoDup.
Qed.

Lemma translated_NoDup l : NoDup (map cmd_id l) → NoDup (map fst (omap translated l)).
Proof.
  induction l as [|c l IH]; simpl; [done|]. intros [Hc Hl]%NoDup_cons.
  assert (translated c = None ∨ ∃ pb, translated c = Some (cmd_id c, pb)) as [-> |[pb ->]].
  { unfold translated. destruct (command_to_pb c) as [[]|]; eauto. }
  - auto.
  - simpl. apply NoDup_cons. split; [|auto].
    intros ([i p] & Hi & (c' & Hin & Hc')%list_elem_of_omap)%list_elem_of_fmap.
    simpl in Hi. subst i. apply Hc, list_elem_of_fmap. exists c'. split; [|done].
    unfold translated in Hc'. destruct (command_to_pb c') as [[]|]; by simplify_eq.
Qed.

(** C35: every pending command of a host reaches its agent exactly once.  When
    all of them can be translated without an exception, enough passes (each
    takes at most sixteen) send precisely the messages of the pending commands
    that have one, none twice, and leave none pending. *)
Theorem drains_deliver_once nows host cmds :
  NoDup (map cmd_id cmds) →
  (∀ c, c ∈ cmds → is_pending host c = true → is_ok (command_to_pb c) = true) →
  (length (List.filter (is_pending host) cmds) ≤ 16 * length nows)%nat →
  let '(sent, cmds') := drains nows host cmds in
  sent ≡ₚ omap translated (List.filter (is_pending host) cmds) ∧ NoDup (map fst sent) ∧
  List.filter (is_pending host) cmds' = [].
Proof.
  intros Hnd Hok Hlen.
  cut (let '(sent, cmds') := drains nows host cmds in
       sent ≡ₚ omap translated (List.filter (is_pending host) cmds) ∧ List.filter (is_pending host) cmds' = []).
  { destruct (drains nows host cmds) as [sent cmds']. intros [Hp Hz]. split_and!; [done| |done].
    rewrite Hp. by apply translated_NoDup, NoDup_map_filterb. }
  revert cmds Hnd Hok Hlen. induction nows as [|now nows IH]; intros cmds Hnd Hok Hlen.
  { simpl in *. destruct (List.filter _ cmds); [done|simpl in Hlen; lia]. }
  cbn [drains]. rewrite drain_pending_ok; [|done|].
  2:{ intros c Hc. apply pending_for_sub in Hc as [? ?]. auto. }
  pose proof (backlog_after now host cmds Hnd) as Hb. set (cmds1 := map (settle now _) cmds) in *.
  specialize (IH cmds1). destruct (drains nows host cmds1) as [sent cmds']. destruct IH as [Hp Hz].
  - unfold cmds1. by rewrite settle_ids.
  - intros c Hc Hpend. assert (c ∈ drop 16 (backlog host cmds)) as Hd.
    { rewrite <- Hb. by apply elem_of_filterb. }
    apply (sublist_subseteq _ _ (sublist_drop _ _)) in Hd. unfold backlog in Hd.
    rewrite sort_by_perm, elem_of_filterb in Hd. destruct Hd. auto.
  - rewrite Hb, length_drop. unfold backlog. rewrite sort_by_perm. simpl in Hlen. lia.
  - split; [|done]. rewrite Hp, Hb, <- omap_app. change (pending_for host cmds) with (take 16 (backlog host cmds)).
    rewrite take_drop. unfold backlog. by rewrite sort_by_perm.
Qed.

(** A command whose translation raises ends every pass at its position. *)
Lemma drain_loop_poison now pre c post cmds e :
  (∀ p, p ∈ pre → is_ok (command_to_pb p) = true) → command_to_pb c = Err e →
  drain_loop now (pre ++ c :: post) cmds = (omap translated pre, Err e).
Proof.
  intros Hpre Hc. revert cmds Hpre. induction pre as [|p pre IH]; intros cmds Hpre; simpl; [by rewrite Hc|].
  assert (is_ok (command_to_pb p) = true) as Hp by (apply Hpre; set_solver). unfold translated at 1.
  destruct (command_to_pb p) as [[pb|]|]; [..|done]; rewrite IH by set_solver; done.
Qed.

(** A command whose translation raises blocks its host for good: each pass
    sends the commands before it again, and no row ever changes. *)
Theorem poison_command_redelivers nows host cmds pre c post e :
  pending_for host cmds = pre ++ c :: post →
  (∀ p, p ∈ pre → is_ok (command_to_pb p) = true) → command_to_pb c = Err e →
  drains nows host cmds = (concat (replicate (length nows) (omap translated pre)), cmds).
Proof.
  intros Hp Hpre Hc. induction nows as [|now nows IH]; [done|]. cbn [drains].
  unfold drain_pending. rewrite Hp, (drain_loop_poison now pre c post cmds e) by done. by rewrite IH.
Qed.

(** ** Isolation *)

(** The addresses the resolver answers with carry no white space around them. *)
Definition clean_resolver (N : net) : Prop :=
  ∀ h infos i, getaddrinfo N h = Some infos → i ∈ infos → strip i.2 = i.2.

(** The addresses of the manager. *)
Definition manager_ips (N : net) : list str := flat_map (resolve_to_ips N) (manager_hosts N).

Lemma manager_ips_clean N ip : clean_resolver N → ip ∈ manager_ips N → strip ip = ip ∧ nonempty ip = true.
Proof.
  intros HN. unfold manager_ips. rewrite list_elem_of_In, in_flat_map. intros (h & _ & Hin).
  apply list_elem_of_In in Hin. unfold resolve_to_ips in Hin.
  destruct (getaddrinfo N h) as [infos|] eqn:Hg; [|by apply elem_of_nil in Hin].
  apply elem_of_dedup, list_elem_of_fmap in Hin as (i & -> & [Hi Hb]%elem_of_filterb).
  apply andb_true_iff in Hb as [_ Hb]. split; [|done]. by eapply HN.
Qed.

Lemma clean_ips_strip l s : s ∈ clean_ips l → strip s = s ∧ nonempty s = true.
Proof.
  unfold clean_ips. intros [Hin Hne]%elem_of_filterb. split; [|done].
  apply list_elem_of_fmap in Hin as (x & -> & _). apply strip_strip.
Qed.

Lemma clean_ips_PStr l : (∀ s, s ∈ l → strip s = s ∧ nonempty s = true) → clean_ips (map PStr l) = l.
Proof.
  intros H. unfold clean_ips. rewrite map_map. simpl. induction l as [|s l IH]; [done|]. simpl.
  destruct (H s) as [-> ->]; [set_solver|]. f_equal. apply IH. set_solver.
Qed.

Lemma wire_ips_PStr l :
  (∀ s, s ∈ l → strip s = s ∧ nonempty s = true) → List.filter nonempty (map strip (omap as_str (map PStr l))) = l.
Proof.
  intros H. induction l as [|s l IH]; [done|]. simpl.
  destruct (H s) as [-> ->]; [set_solver|]. f_equal. apply IH. set_solver.
Qed.

(** The allowlist of a payload, when it has one or none at all. *)
Definition allowlist (payload : dict) (l : list pyval) : Prop :=
  get_default "allowlist_ips" payload (PList []) = PList l.

Lemma py_or_list l : py_or (PList l) (PList []) = PList l.
Proof. by destruct l. Qed.

Lemma ensure_cases N payload l :
  allowlist payload l → clean_resolver N →
  (ensure_manager_in_allowlist N payload = payload ∧ ∀ ip, ip ∈ manager_ips N → ip ∈ clean_ips l) ∨
  ∃ l', ensure_manager_in_allowlist N payload = dict_set "allowlist_ips" (PList (map PStr l')) payload ∧
        (∀ s, s ∈ l' → strip s = s ∧ nonempty s = true) ∧
        (∀ ip, ip ∈ manager_ips N → ip ∈ l') ∧ ∀ s, s ∈ clean_ips l → s ∈ l'.
Proof.
  intros Hl HN. unfold ensure_manager_in_allowlist. unfold allowlist in Hl. rewrite Hl, py_or_list.
  change (flat_map (resolve_to_ips N) (manager_hosts N)) with (manager_ips N). unfold inject.
  destruct (dedup_go (clean_ips l) (manager_ips N)) as [|i rest] eqn:Hd.
  - left. split; [done|]. intros ip Hip. destruct (decide (ip ∈ clean_ips l)); [done|].
    assert (ip ∈ dedup_go (clean_ips l) (manager_ips N)) as Hin by (by apply elem_of_dedup_go).
    rewrite Hd in Hin. by apply elem_of_nil in Hin.
  - right. exists (clean_ips l ++ i :: rest). rewrite <- Hd. split; [done|]. split_and!.
    + intros s [Hs|[Hs _]%elem_of_dedup_go]%elem_of_app; [by eapply clean_ips_strip|by eapply manager_ips_clean].
    + intros ip Hip. rewrite elem_of_app, elem_of_dedup_go. destruct (decide (ip ∈ clean_ips l)); auto.
    + set_solver.
Qed.

(** Running the guard twice changes nothing more. *)
Lemma ensure_idempotent N payload l :
  allowlist payload l → clean_resolver N →
  ensure_manager_in_allowlist N (ensure_manager_in_allowlist N payload) = ensure_manager_in_allowlist N payload.
Proof.
  intros Hl HN. destruct (ensure_cases N payload l Hl HN) as [[He _]|(l' & He & Hc & Hm & _)]; rewrite He; [exact He|].
  unfold ensure_manager_in_allowlist at 1. unfold get_default. rewrite dict_get_set_eq. simpl default.
  rewrite py_or_list, clean_ips_PStr by done. change (flat_map _ _) with (manager_ips N). unfold inject.
  assert (dedup_go l' (manager_ips N) = []) as ->; [|done].
  destruct (dedup_go l' (manager_ips N)) as [|i rest] eqn:Hd; [done|].
  assert (i ∈ dedup_go l' (manager_ips N)) as [Hi1 Hi2]%elem_of_dedup_go by (rewrite Hd; set_solver).
  by apply Hm in Hi1.
Qed.

Lemma queued_command E N host body actor db db' cmd :
  queue_command E N host body actor db = Ok (db', cmd) →
  check_payload body = true ∧ cmd_kind cmd = ci_kind body ∧ cmd_host_id cmd = host ∧
  cmd_status cmd = C_PENDING ∧ jd_commands db' = jd_commands db ++ [cmd] ∧
  cmd_payload cmd =
    (if bool_decide (ci_kind body = ISOLATE) && truthy (get_none "isolate" (ci_payload body))
     then ensure_manager_in_allowlist N (ci_payload body) else ci_payload body).
Proof.
  unfold queue_command. intros (u & _ & H)%res_bind_ok. destruct (check_payload body); [|done].
  simpl in H. destruct (find_host db host); [|done]. destruct (negb _); [done|].
  destruct (negb _); [done|]. injection H as <- <-. done.
Qed.

Lemma wire_isolate cmd l :
  cmd_kind cmd = ISOLATE → allowlist (cmd_payload cmd) l →
  command_to_pb cmd = Ok (Some (PbIsolate (truthy (get_default "isolate" (cmd_payload cmd) (PBool true)))
                                  (List.filter nonempty (map strip (omap as_str l))))).
Proof. intros Hk Hl. unfold command_to_pb. rewrite Hk. unfold allowlist in Hl. by rewrite Hl, py_or_list. Qed.

Lemma clean_ips_strings l :
  Forall (λ x, is_str x = true) l → clean_ips l = List.filter nonempty (map strip (omap as_str l)).
Proof.
  intros Hl. unfold clean_ips. induction Hl as [|x l Hx Hl IH]; [done|].
  destruct x; try done. simpl. by rewrite IH.
Qed.

(** A command whose payload went through the guard reaches the agent with the
    addresses of the manager and those of the payload. *)
Lemma guarded_isolate N payload l cmd :
  cmd_kind cmd = ISOLATE → cmd_payload cmd = ensure_manager_in_allowlist N payload →
  truthy (get_none "isolate" payload) = true → allowlist payload l → Forall (λ x, is_str x = true) l →
  clean_resolver N →
  ∃ ips, command_to_pb cmd = Ok (Some (PbIsolate true ips)) ∧
    (∀ ip, ip ∈ manager_ips N → ip ∈ ips) ∧
    (∀ s, PStr s ∈ l → nonempty (strip s) = true → strip s ∈ ips).
Proof.
  intros Hk Hp Ht Hl Hstr HN.
  assert (∀ p, get_none "isolate" p = get_none "isolate" payload →
               truthy (get_default "isolate" p (PBool true)) = true) as Hiso.
  { intros p Hg. rewrite <- Hg in Ht. unfold get_none, get_default in *. by destruct (dict_get "isolate" p). }
  assert (∀ s, PStr s ∈ l → nonempty (strip s) = true → strip s ∈ clean_ips l) as Hown.
  { intros s Hs Hne. apply elem_of_filterb. split; [|done]. apply list_elem_of_fmap. by exists (PStr s). }
  destruct (ensure_cases N payload l Hl HN) as [[He Hm]|(l' & He & Hc & Hm & Hsub)]; rewrite He in Hp.
  - eexists. split.
    + rewrite (wire_isolate cmd l), Hp, Hiso; [reflexivity|done..|by rewrite Hp].
    + rewrite <- clean_ips_strings by done. auto.
  - exists l'. split; [|auto].
    rewrite (wire_isolate cmd (map PStr l')), Hp, Hiso, wire_ips_PStr; try done.
    + unfold get_none, get_default. by rewrite dict_get_set_ne.
    + unfold allowlist, get_default. by rewrite Hp, dict_get_set_eq.
Qed.

(** Isolating a host does not cut it off from its manager.  When an operator
    queues an isolation with a list of address strings, the message the agent
    receives isolates the host and allows every address the manager's own names
    resolve to, and every address the operator listed. *)
Theorem isolate_keeps_manager E N host payload l actor db db' cmd :
  queue_command E N host (mkCommandIn ISOLATE payload) actor db = Ok (db', cmd) →
  truthy (get_none "isolate" payload) = true → allowlist payload l → Forall (λ x, is_str x = true) l →
  clean_resolver N →
  ∃ ips, command_to_pb cmd = Ok (Some (PbIsolate true ips)) ∧
    (∀ ip, ip ∈ manager_ips N → ip ∈ ips) ∧
    (∀ s, PStr s ∈ l → nonempty (strip s) = true → strip s ∈ ips).
Proof.
  intros (_ & Hk & _ & _ & _ & Hp)%queued_command Ht. simpl in Hk, Hp. rewrite Ht in Hp.
  by apply guarded_isolate.
Qed.

(** An isolation request that leaves out the key [isolate] isolates the host
    all the same, but without the guard: the agent is sent the operator's
    addresses only. *)
Theorem isolate_default_unguarded E N host payload l actor db db' cmd :
  queue_command E N host (mkCommandIn ISOLATE payload) actor db = Ok (db', cmd) →
  dict_get "isolate" payload = None → allowlist payload l →
  command_to_pb cmd =
    Ok (Some (PbIsolate true (List.filter nonempty (map strip (omap as_str l))))).
Proof.
  intros (_ & Hk & _ & _ & _ & Hp)%queued_command Hi Hl. simpl in Hk, Hp.
  assert (get_none "isolate" payload = PNone) as Hg by (unfold get_none, get_default; by rewrite Hi).
  rewrite Hg in Hp. simpl in Hp. rewrite (wire_isolate cmd l), Hp; [|done|by rewrite Hp].
  unfold get_default. by rewrite Hi.
Qed.

(** ** Who may run what *)

(** The payload of a [run_job] command written by hand. *)
Definition forged_job (k : JobKind.t) (job run : str) (params : dict) : CommandIn :=
  mkCommandIn RUN_JOB [("job_id", PStr job); ("run_id", PStr run); ("job_kind", PStr (JobKind.value k));
                       ("parameters", PDict params)].

(** The command route lets an analyst run the job kinds the job route
    reserves to administrators: for each such kind the job is refused, while the
    same kind sent as a [run_job] command is queued and reaches the agent as an
    ordinary job of that kind. *)
Theorem analyst_forges_admin_job E N seed k scope params summary host h actor db job run :
  k ∈ JOB_KIND_ADMIN_ONLY → check_scope scope = true → actor_role actor = ANALYST →
  find_host db host = Some h → host_visible_to actor (Some host) (jd_scope db) = true →
  job ≠ "" → run ≠ "" →
  create_job E seed (mkJobCreate k params scope summary) actor db = Err (HTTPException 403) ∧
  ∃ db' cmd, queue_command E N host (forged_job k job run params) actor db = Ok (db', cmd) ∧
    cmd ∈ jd_commands db' ∧ cmd_host_id cmd = host ∧ cmd_status cmd = C_PENDING ∧
    command_to_pb cmd = Ok (Some (PbRunJob job run (JobKind.value k) (json_dumps (PDict params)))).
Proof.
  intros Hk Hsc Hr Hh Hv Hj Hrun.
  assert (require_analyst actor = Ok tt) as Ha by (unfold require_analyst, has_role; by rewrite Hr).
  split.
  - unfold create_job. rewrite Ha. cbn [mbind res_bind body_scope body_kind]. rewrite Hsc.
    rewrite bool_decide_true by done. unfold has_role. by rewrite Hr.
  - unfold queue_command. rewrite Ha. cbn [mbind res_bind]. rewrite Hh, Hv.
    change (check_payload (forged_job k job run params)) with true.
    change (validate_payload (ci_kind (forged_job k job run params)) _) with true. cbn [negb].
    eexists _, _. split; [reflexivity|]. cbn [jd_commands cmd_host_id cmd_status new_command].
    split_and!; [set_solver|done..|].
    unfold command_to_pb. cbn [cmd_kind new_command ci_kind forged_job].
    destruct job as [|c job]; [done|]. destruct run as [|c' run]; [done|].
    unfold str_or_empty. destruct k; simpl; by destruct params.
Qed.

(** ** Examples *)

Definition demo_cmd (id : uuid) (kind : CommandKind) (payload : dict) (at_ : datetime) : Command :=
  new_command id 1 100 kind payload None None None at_.
Definition demo_queue : list Command :=
  [demo_cmd 2 KILL_PROCESS [("pid", PInt 7)] 20; demo_cmd 1 BLOCK_FILE [("pattern", PStr "a*")] 10;
   demo_cmd 3 KILL_PROCESS [] 30].
Definition demo_poison : list Command := demo_queue ++ [demo_cmd 4 KILL_PROCESS [("pid", PInt 4294967296)] 40].

Lemma drains_deliver_once_witness :
  (drains [100] 100 demo_queue).1 = [(1, PbBlockFile "a*"); (2, PbKill 7)] ∧
  List.filter (is_pending 100) (drains [100] 100 demo_queue).2 = [].
Proof.
  split; [reflexivity|].
  assert (NoDup (map cmd_id demo_queue)) as Hnd by (apply (bool_decide_unpack _); reflexivity).
  assert (∀ c, c ∈ demo_queue → is_pending 100 c = true → is_ok (command_to_pb c) = true) as Hok.
  { intros c Hc _. unfold demo_queue in Hc. rewrite !elem_of_cons, elem_of_nil in Hc.
    destruct Hc as [-> |[-> |[-> |[]]]]; reflexivity. }
  pose proof (drains_deliver_once [100] 100 demo_queue Hnd Hok ltac:(simpl; lia)) as H.
  destruct (drains [100] 100 demo_queue) as [sent cmds']. apply H.
Defined.

Lemma poison_command_redelivers_witness :
  drains [100; 200] 100 demo_poison =
    ([(1, PbBlockFile "a*"); (2, PbKill 7); (1, PbBlockFile "a*"); (2, PbKill 7)], demo_poison).
Proof.
  apply (poison_command_redelivers [100; 200] 100 demo_poison
           [demo_cmd 1 BLOCK_FILE [("pattern", PStr "a*")] 10; demo_cmd 2 KILL_PROCESS [("pid", PInt 7)] 20;
            demo_cmd 3 KILL_PROCESS [] 30]
           (demo_cmd 4 KILL_PROCESS [("pid", PInt 4294967296)] 40) [] ValueError).
  - reflexivity.
  - intros c Hc. rewrite !elem_of_cons, elem_of_nil in Hc. destruct Hc as [-> |[-> |[-> |[]]]]; reflexivity.
  - reflexivity.
Defined.

Definition demo_net : net :=
  mkNet (λ h, if String.eqb h "edr.example" then Some [(true, "10.0.0.5"); (true, "::1")] else None)
    "https://edr.example:8443/" "".
Lemma demo_net_clean : clean_resolver demo_net.
Proof.
  intros h infos i Hg Hi. unfold demo_net in Hg. simpl in Hg. destruct (String.eqb h "edr.example"); [|discriminate Hg].
  injection Hg as <-. rewrite !elem_of_cons, elem_of_nil in Hi. destruct Hi as [-> |[-> |[]]]; reflexivity.
Qed.
Definition demo_isolate (payload : dict) : py (job_db * Command) :=
  queue_command demo_env demo_net 100 (mkCommandIn ISOLATE payload) demo_analyst demo_jobs.

Lemma isolate_keeps_manager_witness :
  ∃ db' cmd ips, demo_isolate [("isolate", PBool true)] = Ok (db', cmd) ∧
    command_to_pb cmd = Ok (Some (PbIsolate true ips)) ∧ "10.0.0.5" ∈ ips.
Proof.
  destruct (demo_isolate [("isolate", PBool true)]) as [[db' cmd]|] eqn:H; [|discriminate H].
  exists db', cmd. unfold demo_isolate in H.
  destruct (isolate_keeps_manager demo_env demo_net 100 [("isolate", PBool true)] [] demo_analyst demo_jobs db' cmd H)
    as (ips & Hw & Hm & _).
  - reflexivity.
  - reflexivity.
  - constructor.
  - exact demo_net_clean.
  - exists ips. split; [reflexivity|]. split; [exact Hw|]. apply Hm.
    change (manager_ips demo_net) with ["10.0.0.5"; "::1"]. by left.
Defined.

Lemma isolate_default_unguarded_witness :
  ∃ db' cmd, demo_isolate [] = Ok (db', cmd) ∧ command_to_pb cmd = Ok (Some (PbIsolate true [])).
Proof.
  destruct (demo_isolate []) as [[db' cmd]|] eqn:H; [|discriminate H]. exists db', cmd. split; [reflexivity|].
  unfold demo_isolate in H.
  apply (isolate_default_unguarded demo_env demo_net 100 [] [] demo_analyst demo_jobs db' cmd H); reflexivity.
Defined.

Lemma analyst_forges_admin_job_witness :
  ∃ db' cmd, queue_command demo_env demo_net 100 (forged_job JobKind.SHELL_COMMAND "j" "r" []) demo_analyst demo_jobs =
      Ok (db', cmd) ∧
    command_to_pb cmd = Ok (Some (PbRunJob "j" "r" "shell_command" "{}")).
Proof.
  destruct (analyst_forges_admin_job demo_env demo_net "s" JobKind.SHELL_COMMAND (mkJobScope HOST_IDS (Some [100]) None)
              [] "" 100 (demo_host 100 1) demo_analyst demo_jobs "j" "r") as (_ & db' & cmd & Hq & _ & _ & _ & Hw).
  - set_solver.
  - reflexivity.
  - reflexivity.
  - reflexivity.
  - reflexivity.
  - discriminate.
  - discriminate.
  - exists db', cmd. split; [exact Hq|exact Hw].
Defined.
