(* ===== verification/Fleet.v ===== *)
(** * Fleet: host groups and the tables of the policies pushed to the agents

    api/host_groups.py, the rows of the application allowlist, the DNS block list,
    the device policies and the honeytokens, and what their services share: which
    hosts an edit reaches, and what the last command of a kind tells an agent. *)

From Stdlib Require Import Ascii String.
From S2P Require Import Prelude PyStr PyVal PyTime Models AuditChain Rollout Scoping Jobs Commands.
Local Open Scope string_scope.
Local Open Scope list_scope.
Local Open Scope Z_scope.

(** ** Tables *)

Record HostGroup := mkHostGroup {
  hg_id : uuid;
  hg_tenant_id : uuid;
  hg_name : str;
  hg_description : option str
}.

Record DnsBlockEntry := mkDnsEntry {
  db_id : uuid;
  db_tenant_id : uuid;
  db_group : option uuid;
  db_domain : str;
  db_action : str;
  db_created_by : option uuid;
  db_expires_at : option datetime
}.

Record DevicePolicy := mkDevicePolicy {
  dp_id : uuid;
  dp_group : option uuid;
  dp_kind : str;
  dp_vids : list str;
  dp_pids : list str;
  dp_enabled : bool;
  dp_name : str;
  dp_description : option str;
  dp_updated_at : datetime
}.

Record AllowlistModeRow := mkModeRow {
  am_group : uuid;
  am_mode : str;
  am_enabled_at : option datetime;
  am_learn_started_at : option datetime;
  am_learn_completed_at : option datetime;
  am_updated_by : option uuid
}.

Record AllowlistEntry := mkAllowEntry {
  aw_id : uuid;
  aw_group : uuid;
  aw_sha256 : str;
  aw_exec_path : option str;
  aw_publisher : option str;
  aw_first_seen : option datetime;
  aw_last_seen : option datetime;
  aw_learned : bool;
  aw_manual : bool;
  aw_created_by : option uuid;
  aw_created_at : datetime
}.

Record Honeytoken := mkHoneytoken {
  ht_id : uuid;
  ht_tenant_id : uuid;
  ht_group : option uuid;
  ht_kind : str;
  ht_name : str;
  ht_payload : dict;
  ht_target_path : option str;
  ht_enabled : bool;
  ht_deployed_count : Z;
  ht_hit_count : Z
}.

Record fleet_db := mkFleet {
  fl_jobs : job_db;
  fl_groups : list HostGroup;
  fl_users : list (uuid * uuid);    (* id, tenant_id *)
  fl_dns : list DnsBlockEntry;
  fl_devices : list DevicePolicy;
  fl_modes : list AllowlistModeRow;
  fl_allow : list AllowlistEntry;
  fl_tokens : list Honeytoken
}.

Definition set_jobs (j : job_db) (db : fleet_db) : fleet_db :=
  mkFleet j (fl_groups db) (fl_users db) (fl_dns db) (fl_devices db) (fl_modes db) (fl_allow db) (fl_tokens db).
Definition set_groups (l : list HostGroup) (db : fleet_db) : fleet_db :=
  mkFleet (fl_jobs db) l (fl_users db) (fl_dns db) (fl_devices db) (fl_modes db) (fl_allow db) (fl_tokens db).
Definition set_dns (l : list DnsBlockEntry) (db : fleet_db) : fleet_db :=
  mkFleet (fl_jobs db) (fl_groups db) (fl_users db) l (fl_devices db) (fl_modes db) (fl_allow db) (fl_tokens db).
Definition set_devices (l : list DevicePolicy) (db : fleet_db) : fleet_db :=
  mkFleet (fl_jobs db) (fl_groups db) (fl_users db) (fl_dns db) l (fl_modes db) (fl_allow db) (fl_tokens db).
Definition set_modes (l : list AllowlistModeRow) (db : fleet_db) : fleet_db :=
  mkFleet (fl_jobs db) (fl_groups db) (fl_users db) (fl_dns db) (fl_devices db) l (fl_allow db) (fl_tokens db).
Definition set_allow (l : list AllowlistEntry) (db : fleet_db) : fleet_db :=
  mkFleet (fl_jobs db) (fl_groups db) (fl_users db) (fl_dns db) (fl_devices db) (fl_modes db) l (fl_tokens db).
Definition set_tokens (l : list Honeytoken) (db : fleet_db) : fleet_db :=
  mkFleet (fl_jobs db) (fl_groups db) (fl_users db) (fl_dns db) (fl_devices db) (fl_modes db) (fl_allow db) l.

Definition scope (db : fleet_db) : scope_db := jd_scope (fl_jobs db).
Definition commands (db : fleet_db) : list Command := jd_commands (fl_jobs db).
Definition set_scope (s : scope_db) (db : fleet_db) : fleet_db :=
  let j := fl_jobs db in
  set_jobs (mkJobDb s (jd_policies j) (jd_jobs j) (jd_runs j) (jd_commands j) (jd_audit j)) db.

(** [audit.record(db, actor=…, action=…, resource_type=…, resource_id=…, payload=…)] *)
Definition audited (E : env) (actor : Actor) (action rtype rid : str) (payload : option dict) (db : fleet_db) :
    fleet_db :=
  let j := fl_jobs db in
  set_jobs
    (mkJobDb (jd_scope j) (jd_policies j) (jd_jobs j) (jd_runs j) (jd_commands j)
       (record (env_audit_key E) (Some actor) action (Some rtype) (Some rid) payload None None (env_now E)
          (env_uuid4 E (length (log (jd_audit j)))) (jd_audit j))) db.

(** [db.add(Command(…))] *)
Definition add_command (E : env) (tenant hid : uuid) (kind : CommandKind) (payload : dict) (user : option uuid)
    (db : fleet_db) : fleet_db :=
  let j := fl_jobs db in
  let cmd := new_command (env_uuid4 E (length (jd_commands j))) tenant hid kind payload None None user (env_now E) in
  set_jobs (mkJobDb (jd_scope j) (jd_policies j) (jd_jobs j) (jd_runs j) (jd_commands j ++ [cmd]) (jd_audit j)) db.

Definition opt_uuid_str (o : option uuid) : pyval := match o with Some u => PStr (uuid_str u) | None => PNone end.
Definition find_group (db : fleet_db) (gid : uuid) : option HostGroup :=
  List.find (λ g, hg_id g =? gid) (fl_groups db).
(** The foreign key of a nullable [host_group_id]. *)
Definition group_fk (db : fleet_db) (gid : option uuid) : bool :=
  match gid with Some g => bool_decide (g ∈ map hg_id (fl_groups db)) | None => true end.

(** [scalar_one_or_none()] *)
Definition scalar_one_or_none {A} (rows : list A) : py (option A) :=
  match rows with [] => Ok None | [x] => Ok (Some x) | _ => Err MultipleResultsFound end.

(** [sorted] of a set of strings. *)
Fixpoint insert_str (x : str) (l : list str) : list str :=
  match l with [] => [x] | y :: l' => if String.leb x y then x :: l else y :: insert_str x l' end.
Definition sorted_strs (l : list str) : list str := foldr insert_str [] (dedup l).

(** ** Who an edit reaches *)

Definition member (s : scope_db) (hid gid : uuid) : bool :=
  existsb (λ p, (p.1 =? hid) && (p.2 =? gid)) (sc_host_in_group s).
Definition groups_of (s : scope_db) (hid : uuid) : list uuid :=
  map snd (List.filter (λ p, p.1 =? hid) (sc_host_in_group s)).

(** The hosts of [push_to_group] and [_hosts_in_scope]: all of them for a global
    edit, the members for one of a group; never the decommissioned. *)
Definition in_edit_scope (s : scope_db) (gid : option uuid) (h : Host) : bool :=
  negb (bool_decide (host_status h = H_DECOMMISSIONED)) &&
  match gid with None => true | Some g => member s (host_id h) g end.
Definition hosts_in_scope (s : scope_db) (gid : option uuid) : list Host :=
  List.filter (in_edit_scope s gid) (sc_hosts s).

(** A row applies to a host when it is global or of one of its groups. *)
Definition applies (gids : list uuid) (o : option uuid) : bool :=
  match o with None => true | Some g => bool_decide (g ∈ gids) end.

(** ** The routes of the groups *)

Definition text_ok (lo hi : nat) (s : str) : bool := (lo <=? String.length s)%nat && (String.length s <=? hi)%nat.
Definition opt_ok {A} (p : A → bool) (o : option A) : bool := match o with Some x => p x | None => true end.

Definition name_taken (db : fleet_db) (tenant : uuid) (name : str) : bool :=
  existsb (λ g, String.eqb (hg_name g) name && (hg_tenant_id g =? tenant)) (fl_groups db).
(** The UNIQUE constraint of the name column, over all tenants. *)
Definition name_unique (groups : list HostGroup) : bool := bool_decide (NoDup (map hg_name groups)).

Definition text_items (kvs : list (str * option str)) : dict :=
  omap (λ kv, (λ s, (kv.1, PStr s)) <$> kv.2) kvs.

Definition create_group (E : env) (name : str) (description : option str) (actor : Actor) (db : fleet_db) :
    py (fleet_db * HostGroup) :=
  if negb (is_admin actor) then Err (HTTPException 403)
  else if negb (text_ok 1 128 name && opt_ok (text_ok 0 512) description) then Err (HTTPException 422)
  else if name_taken db (actor_tenant_id actor) name then Err (HTTPException 400)
  else
    let g := mkHostGroup (env_uuid4 E (length (fl_groups db))) (actor_tenant_id actor) name description in
    let groups := fl_groups db ++ [g] in
    if negb (name_unique groups) then Err IntegrityError
    else Ok (audited E actor "host_group.create" "host_group" (uuid_str (hg_id g))
               (Some (text_items [("name", Some name); ("description", description)])) (set_groups groups db), g).

Definition load_in_tenant (db : fleet_db) (gid : uuid) (actor : Actor) : py HostGroup :=
  match find_group db gid with
  | None => Err (HTTPException 404)
  | Some g => if negb (hg_tenant_id g =? actor_tenant_id actor) then Err (HTTPException 404) else Ok g
  end.

Definition update_group (E : env) (gid : uuid) (name description : option str) (actor : Actor) (db : fleet_db) :
    py fleet_db :=
  if negb (is_admin actor) then Err (HTTPException 403)
  else if negb (opt_ok (text_ok 1 128) name && opt_ok (text_ok 0 512) description) then Err (HTTPException 422)
  else
    g ← load_in_tenant db gid actor;
    if match name with
       | Some n => negb (String.eqb n (hg_name g)) && name_taken db (actor_tenant_id actor) n
       | None => false
       end
    then Err (HTTPException 400)
    else
      let g' := mkHostGroup (hg_id g) (hg_tenant_id g) (default (hg_name g) name)
                  (match description with Some d => Some d | None => hg_description g end) in
      let groups := map (λ x, if hg_id x =? gid then g' else x) (fl_groups db) in
      if negb (name_unique groups) then Err IntegrityError
      else Ok (audited E actor "host_group.update" "host_group" (uuid_str gid)
                 (Some (text_items [("name", name); ("description", description)])) (set_groups groups db)).

Definition of_group (gid : uuid) (o : option uuid) : bool := match o with Some g => g =? gid | None => false end.
(** The rows that go with the group by [ON DELETE CASCADE]. *)
Definition cascade_group (gid : uuid) (db : fleet_db) : fleet_db :=
  let s := scope db in
  let keep {A} (f : A → bool) := List.filter (λ x, negb (f x)) in
  mkFleet
    (fl_jobs (set_scope (mkScopeDb (sc_hosts s) (keep (λ p, p.2 =? gid) (sc_host_in_group s))
                           (keep (λ p, p.2 =? gid) (sc_user_host_group s))) db))
    (keep (λ g, hg_id g =? gid) (fl_groups db)) (fl_users db)
    (keep (λ e, of_group gid (db_group e)) (fl_dns db))
    (keep (λ p, of_group gid (dp_group p)) (fl_devices db))
    (keep (λ m, am_group m =? gid) (fl_modes db))
    (keep (λ e, aw_group e =? gid) (fl_allow db))
    (keep (λ t, of_group gid (ht_group t)) (fl_tokens db)).

Definition delete_group (E : env) (gid : uuid) (actor : Actor) (db : fleet_db) : py fleet_db :=
  if negb (is_admin actor) then Err (HTTPException 403)
  else
    _ ← load_in_tenant db gid actor;
    Ok (audited E actor "host_group.delete" "host_group" (uuid_str gid) None (cascade_group gid db)).

Definition replace_membership (E : env) (gid : uuid) (host_ids user_ids : list uuid) (actor : Actor)
    (db : fleet_db) : py (fleet_db * (list uuid * list uuid)) :=
  if negb (is_admin actor) then Err (HTTPException 403)
  else
    _ ← load_in_tenant db gid actor;
    let s := scope db in
    let valid_hosts := map host_id (List.filter (λ h, bool_decide (host_id h ∈ host_ids) &&
                                                      (host_tenant_id h =? actor_tenant_id actor)) (sc_hosts s)) in
    let valid_users := map fst (List.filter (λ u, bool_decide (u.1 ∈ user_ids) &&
                                                  (u.2 =? actor_tenant_id actor)) (fl_users db)) in
    let s' := mkScopeDb (sc_hosts s)
                (List.filter (λ p, negb (p.2 =? gid)) (sc_host_in_group s) ++ map (λ h, (h, gid)) valid_hosts)
                (List.filter (λ p, negb (p.2 =? gid)) (sc_user_host_group s) ++ map (λ u, (u, gid)) valid_users) in
    Ok (audited E actor "host_group.members.replace" "host_group" (uuid_str gid)
          (Some [("hosts", PList (map (λ h, PStr (uuid_str h)) valid_hosts));
                 ("users", PList (map (λ u, PStr (uuid_str u)) valid_users))])
          (set_scope s' db), (valid_hosts, valid_users)).

(** ** What the last command tells the agent

    Every service sends whole states, and the agent keeps the last one of a kind.
    The class is what a service promises about its commands: which of a kind's
    commands carry its view, and that the message sent to the agent reads back as
    the view the command was built from. *)
Class WireSync (V : Type) := {
  wire_kind : CommandKind;
  wire_about : dict → bool;
  wire_carries : dict → V → Prop;
  wire_read : pb_command → option V;
  wire_selected d v : wire_carries d v → wire_about d = true;
  wire_read_back c v : cmd_kind c = wire_kind → wire_carries (cmd_payload c) v →
    ∃ pb, command_to_pb c = Ok (Some pb) ∧ wire_read pb = Some v
}.

(** Host, kind and payload: what a queued command says and to whom. *)
Definition told (c : Command) : uuid * CommandKind * dict := (cmd_host_id c, cmd_kind c, cmd_payload c).

Section agent_view.
Context {V : Type} `{!WireSync V}.

Definition concerns (hid : uuid) (t : uuid * CommandKind * dict) : bool :=
  (t.1.1 =? hid) && bool_decide (t.1.2 = wire_kind) && wire_about t.2.

(** What the agent of host [hid] holds once it has all the commands. *)
Definition agent_view (hid : uuid) (cmds : list Command) : option V :=
  match last (List.filter (λ c, concerns hid (told c)) cmds) with
  | Some c => match command_to_pb c with Ok (Some pb) => wire_read pb | _ => None end
  | None => None
  end.

Lemma agent_view_last hid cmds c v :
  last (List.filter (λ c, concerns hid (told c)) cmds) = Some c → wire_carries (cmd_payload c) v →
  agent_view hid cmds = Some v.
Proof.
  intros Hl Hc. unfold agent_view. rewrite Hl.
  assert (cmd_kind c = wire_kind) as Hk.
  { apply last_Some_elem_of, elem_of_filterb in Hl as [_ Hm]. unfold concerns in Hm. simpl in Hm.
    apply andb_true_iff in Hm as [Hm _]. apply andb_true_iff in Hm as [_ Hm]. by apply bool_decide_eq_true in Hm. }
  destruct (wire_read_back c v Hk Hc) as (pb & -> & ->). done.
Qed.

Lemma filter_told (p : uuid * CommandKind * dict → bool) cmds :
  map told (List.filter (λ c, p (told c)) cmds) = List.filter p (map told cmds).
Proof. induction cmds as [|c cmds IH]; [done|]. simpl. destruct (p (told c)); simpl; by rewrite IH. Qed.

Lemma agent_view_told hid cmds k d v :
  last (List.filter (concerns hid) (map told cmds)) = Some (hid, k, d) → wire_carries d v →
  agent_view hid cmds = Some v.
Proof.
  rewrite <- filter_told, fmap_last. intros Hl Hc. apply fmap_Some in Hl as (c & Hl & Ht).
  apply agent_view_last with c; [done|]. by injection Ht as _ _ <-.
Qed.

(** Commands the view is not about leave it alone. *)
Lemma agent_view_app_other hid cmds new :
  (∀ c, c ∈ new → concerns hid (told c) = false) → agent_view hid (cmds ++ new) = agent_view hid cmds.
Proof.
  intros Hn. unfold agent_view. rewrite List.filter_app.
  assert (List.filter (λ c, concerns hid (told c)) new = []) as ->; [|by rewrite app_nil_r].
  apply elem_of_nil_inv. intros c [Hc Hm]%elem_of_filterb. by rewrite Hn in Hm.
Qed.

(** A fan-out whose batch for the host says nothing of the view leaves it alone. *)
Lemma fan_out_other (items : Host → list (uuid * CommandKind * dict)) cmds new hosts hid :
  map told new = flat_map items hosts →
  (∀ x t, t ∈ items x → t.1.1 = host_id x) →
  (∀ x, x ∈ hosts → host_id x = hid → List.filter (concerns hid) (items x) = []) →
  agent_view hid (cmds ++ new) = agent_view hid cmds.
Proof.
  intros Ht Hown Hnone. apply agent_view_app_other. intros c Hcn. apply not_true_iff_false. intros Hcon.
  assert (told c ∈ map told new) as Htc by (by apply list_elem_of_fmap_2). rewrite Ht in Htc.
  apply list_elem_of_In, in_flat_map in Htc as (x & Hx%list_elem_of_In & Hti%list_elem_of_In).
  assert (host_id x = hid) as Hid.
  { rewrite <- (Hown x _ Hti). unfold concerns in Hcon. by apply andb_true_iff in Hcon as [[Hcon%Z.eqb_eq _]%andb_true_iff _]. }
  apply (not_elem_of_nil (told c)). rewrite <- (Hnone x Hx Hid). by apply elem_of_filterb.
Qed.

(** A fan-out of one batch per host leaves each host with the last message of its
    own batch. *)
Lemma fan_out_view (items : Host → list (uuid * CommandKind * dict)) cmds pre hosts h k d v :
  map told cmds = pre ++ flat_map items hosts →
  NoDup (map host_id hosts) → h ∈ hosts →
  (∀ x t, t ∈ items x → t.1.1 = host_id x) →
  last (List.filter (concerns (host_id h)) (items h)) = Some (host_id h, k, d) → wire_carries d v →
  agent_view (host_id h) cmds = Some v.
Proof.
  intros Hm Hnd Hin Hown Hlast Hc. apply agent_view_told with k d; [|done]. rewrite Hm, List.filter_app.
  apply list_elem_of_split in Hin as (l1 & l2 & ->). rewrite flat_map_app, List.filter_app. simpl.
  rewrite List.filter_app.
  assert (List.filter (concerns (host_id h)) (flat_map items l2) = []) as ->.
  { apply elem_of_nil_inv. intros t [Ht Hcn]%elem_of_filterb. apply list_elem_of_In, in_flat_map in Ht as (x & Hx & Ht).
    apply list_elem_of_In in Hx, Ht. apply Hown in Ht. unfold concerns in Hcn.
    rewrite Ht in Hcn. rewrite map_app in Hnd. apply NoDup_app in Hnd as (_ & _ & Hnd). simpl in Hnd.
    apply NoDup_cons in Hnd as [Hnd _]. destruct Hnd. apply andb_true_iff in Hcn as [Hcn _].
    apply andb_true_iff in Hcn as [Hcn%Z.eqb_eq _]. rewrite <- Hcn. by apply list_elem_of_fmap_2. }
  rewrite app_nil_r, !last_app, Hlast. done.
Qed.
End agent_view.

Lemma nonempty_strs_PStr l : Forall (λ s, nonempty s = true) l → nonempty_strs (map PStr l) = l.
Proof.
  unfold nonempty_strs. induction 1 as [|s l Hs _ IH]; [done|]. cbn [map omap list_omap as_str List.filter].
  rewrite Hs. by f_equal.
Qed.

(** Reading back the fields of a payload. *)
Lemma str_or_empty_get k d s : dict_get k d = Some (PStr s) → str_or_empty k d = s.
Proof. intros H. unfold str_or_empty, get_none, get_default. rewrite H. by destruct s. Qed.
Lemma items_of_get k d l : dict_get k d = Some (PList l) → items_of k d = Ok l.
Proof. intros H. unfold items_of, get_none, get_default. rewrite H. by destruct l. Qed.

Lemma insert_str_perm x l : insert_str x l ≡ₚ x :: l.
Proof. induction l as [|y l IH]; [done|]. simpl. case_match; [done|]. rewrite IH. constructor. Qed.
Lemma sorted_strs_perm l : sorted_strs l ≡ₚ dedup l.
Proof.
  unfold sorted_strs. induction (dedup l) as [|x d IH]; [done|]. simpl. by rewrite insert_str_perm, IH.
Qed.
Lemma elem_of_sorted_strs x l : x ∈ sorted_strs l ↔ x ∈ l.
Proof. by rewrite sorted_strs_perm, elem_of_dedup. Qed.

Lemma told_add_command E tenant hid kind payload user db :
  map told (commands (add_command E tenant hid kind payload user db)) =
  map told (commands db) ++ [(hid, kind, payload)].
Proof. unfold commands. simpl. by rewrite map_app. Qed.

Lemma commands_audited E actor action rtype rid payload db :
  commands (audited E actor action rtype rid payload db) = commands db.
Proof. done. Qed.

(** The hosts an edit does not reach do not see the row. *)
Lemma member_groups s hid g : member s hid g = true ↔ g ∈ groups_of s hid.
Proof.
  unfold member, groups_of. rewrite existsb_exists, list_elem_of_fmap. split.
  - intros (p & Hp%list_elem_of_In & [H1%Z.eqb_eq H2%Z.eqb_eq]%andb_true_iff). exists p. split; [done|].
    apply elem_of_filterb. split; [done|]. by apply Z.eqb_eq.
  - intros (p & -> & [Hp H1]%elem_of_filterb). exists p. rewrite list_elem_of_In in Hp. split; [done|].
    by rewrite H1, Z.eqb_refl.
Qed.
Lemma in_edit_scope_applies s gid h :
  host_status h ≠ H_DECOMMISSIONED → in_edit_scope s gid h = applies (groups_of s (host_id h)) gid.
Proof.
  intros Hl. unfold in_edit_scope. rewrite bool_decide_eq_false_2 by done. destruct gid as [g|]; [|done]. simpl.
  apply eq_iff_eq_true. by rewrite member_groups, bool_decide_eq_true.
Qed.

(** ** Membership *)

(** The keys are unique, and membership joins a host and a group, or a user and a
    group, of one tenant. *)
Record groups_wf (db : fleet_db) : Prop := {
  gw_ids : NoDup (map hg_id (fl_groups db));
  gw_names : NoDup (map hg_name (fl_groups db));
  gw_hosts : ∀ p, p ∈ sc_host_in_group (scope db) →
    ∃ h g, h ∈ sc_hosts (scope db) ∧ g ∈ fl_groups db ∧ host_id h = p.1 ∧ hg_id g = p.2 ∧
      host_tenant_id h = hg_tenant_id g;
  gw_users : ∀ p, p ∈ sc_user_host_group (scope db) →
    ∃ u g, u ∈ fl_users db ∧ g ∈ fl_groups db ∧ u.1 = p.1 ∧ hg_id g = p.2 ∧ u.2 = hg_tenant_id g
}.

Inductive group_op :=
| GCreate (name : str) (description : option str)
| GUpdate (gid : uuid) (name description : option str)
| GDelete (gid : uuid)
| GMembers (gid : uuid) (host_ids user_ids : list uuid).

Definition run_group_op (E : env) (op : group_op) (actor : Actor) (db : fleet_db) : py fleet_db :=
  match op with
  | GCreate n d => r ← create_group E n d actor db; Ok r.1
  | GUpdate g n d => update_group E g n d actor db
  | GDelete g => delete_group E g actor db
  | GMembers g hs us => r ← replace_membership E g hs us actor db; Ok r.1
  end.

Lemma load_in_tenant_ok db gid actor g :
  load_in_tenant db gid actor = Ok g →
  g ∈ fl_groups db ∧ hg_id g = gid ∧ hg_tenant_id g = actor_tenant_id actor.
Proof.
  unfold load_in_tenant, find_group. destruct (List.find _ _) as [x|] eqn:Hf; [|done].
  destruct (negb _) eqn:Ht; [done|]. intros [= ->]. apply find_some in Hf as [Hin Hid%Z.eqb_eq].
  rewrite negb_false_iff in Ht. apply Z.eqb_eq in Ht. by rewrite list_elem_of_In.
Qed.

Lemma create_group_wf E n d actor db r :
  env_uuid4 E (length (fl_groups db)) ∉ map hg_id (fl_groups db) →
  create_group E n d actor db = Ok r → groups_wf db → groups_wf r.1.
Proof.
  unfold create_group. intros Hfresh H [Hi Hn Hh Hu]. destruct (negb (is_admin actor)); [done|].
  destruct (negb _); [done|]. destruct (name_taken _ _ _); [done|].
  destruct (negb (name_unique _)) eqn:Hnn; [done|]. injection H as <-. split; cbn [fst].
  - simpl. rewrite map_app. simpl. apply NoDup_app. split; [done|]. split; [|apply NoDup_singleton].
    intros x Hx ->%list_elem_of_singleton. done.
  - rewrite negb_false_iff in Hnn. by apply bool_decide_eq_true in Hnn.
  - intros p Hp. destruct (Hh p Hp) as (h & g & ? & ? & ?). exists h, g. split_and!; try naive_solver. simpl. set_solver.
  - intros p Hp. destruct (Hu p Hp) as (u & g & ? & ? & ?). exists u, g. split_and!; try naive_solver. simpl. set_solver.
Qed.

(** Renaming keeps every id and tenant. *)
Lemma update_group_wf E gid n d actor db db' :
  update_group E gid n d actor db = Ok db' → groups_wf db → groups_wf db'.
Proof.
  unfold update_group. intros H [Hi Hn Hh Hu]. destruct (negb (is_admin actor)); [done|].
  destruct (negb _); [done|]. destruct (load_in_tenant db gid actor) as [g|] eqn:Hl; simpl in H; [|done].
  apply load_in_tenant_ok in Hl as (Hin & Hid & Ht). destruct (match n with Some _ => _ | None => _ end); [done|].
  set (g' := mkHostGroup _ _ _ _) in H.
  assert (∀ x, x ∈ fl_groups db → ∃ y, y ∈ map (λ x, if hg_id x =? gid then g' else x) (fl_groups db) ∧
    hg_id y = hg_id x ∧ hg_tenant_id y = hg_tenant_id x) as Hren.
  { intros x Hx. exists (if hg_id x =? gid then g' else x). split; [by apply (list_elem_of_fmap_2 (λ x, if hg_id x =? gid then g' else x))|].
    destruct (Z.eqb_spec (hg_id x) gid) as [Hxg|]; [|done]. simpl.
    assert (x = g) as ->; [|done]. apply (NoDup_key_inj hg_id (fl_groups db)); try done. congruence. }
  destruct (negb (name_unique _)) eqn:Hnn; [done|]. injection H as <-. split.
  - simpl. rewrite map_map. erewrite map_ext_in; [exact Hi|]. intros x _. simpl.
    destruct (Z.eqb_spec (hg_id x) gid); simpl; congruence.
  - rewrite negb_false_iff in Hnn. by apply bool_decide_eq_true in Hnn.
  - intros p Hp. destruct (Hh p Hp) as (h & x & ? & Hx & ?). destruct (Hren x Hx) as (y & ? & Hy1 & Hy2).
    exists h, y. rewrite Hy1, Hy2. naive_solver.
  - intros p Hp. destruct (Hu p Hp) as (u & x & ? & Hx & ?). destruct (Hren x Hx) as (y & ? & Hy1 & Hy2).
    exists u, y. rewrite Hy1, Hy2. naive_solver.
Qed.

Lemma delete_group_wf E gid actor db db' : delete_group E gid actor db = Ok db' → groups_wf db → groups_wf db'.
Proof.
  unfold delete_group. intros H [Hi Hn Hh Hu]. destruct (negb (is_admin actor)); [done|].
  destruct (load_in_tenant db gid actor); simpl in H; [|done]. injection H as <-.
  split; simpl; [by apply NoDup_map_filterb..| |]; intros p [Hp Hk]%elem_of_filterb.
  - destruct (Hh p Hp) as (h & g & ? & ? & ? & Hg & ?). exists h, g. rewrite elem_of_filterb, Hg. naive_solver.
  - destruct (Hu p Hp) as (u & g & ? & ? & ? & Hg & ?). exists u, g. rewrite elem_of_filterb, Hg. naive_solver.
Qed.

Lemma replace_membership_wf E gid hs us actor db r :
  replace_membership E gid hs us actor db = Ok r → groups_wf db → groups_wf r.1.
Proof.
  unfold replace_membership. intros H [Hi Hn Hh Hu]. destruct (negb (is_admin actor)); [done|].
  destruct (load_in_tenant db gid actor) as [g|] eqn:Hl; cbn [mbind res_bind] in H; [|done].
  apply load_in_tenant_ok in Hl as (Hin & Hid & Ht). injection H as <-. split; [done|done|..]; simpl; intros p Hp.
  - apply elem_of_app in Hp as [[Hp _]%elem_of_filterb|(x & -> & (h & -> & Hx)%list_elem_of_fmap)%list_elem_of_fmap];
      [by apply Hh|]. apply elem_of_filterb in Hx as [Hx [_ Ht']%andb_true_iff]. apply Z.eqb_eq in Ht'.
    exists h, g. split_and!; try done. congruence.
  - apply elem_of_app in Hp as [[Hp _]%elem_of_filterb|(x & -> & (u & -> & Hx)%list_elem_of_fmap)%list_elem_of_fmap];
      [by apply Hu|]. apply elem_of_filterb in Hx as [Hx [_ Ht']%andb_true_iff]. apply Z.eqb_eq in Ht'.
    exists u, g. split_and!; try done. congruence.
Qed.

(** No route of the host groups lets membership cross a tenant: the routes
    keep ids and names unique, and every membership joins a host or a user and a
    group of one tenant. *)
Theorem membership_stays_in_tenant E op actor db db' :
  groups_wf db →
  env_uuid4 E (length (fl_groups db)) ∉ map hg_id (fl_groups db) →
  run_group_op E op actor db = Ok db' → groups_wf db'.
Proof.
  intros Hwf Hf. destruct op as [n d|g n d|g|g hs us]; simpl; intros H.
  - destruct (create_group E n d actor db) as [r|] eqn:Hr; simpl in H; [|done]. simplify_eq. by eapply create_group_wf.
  - by eapply update_group_wf.
  - by eapply delete_group_wf.
  - destruct (replace_membership E g hs us actor db) as [r|] eqn:Hr; simpl in H; [|done]. simplify_eq.
    by eapply replace_membership_wf.
Qed.

(** A name that another tenant's group has cannot be used: the route's own
    check passes, and the column's constraint, which spans the tenants, ends the
    request with a database error. *)
Theorem group_name_spans_tenants E name description actor db g :
  is_admin actor = true →
  text_ok 1 128 name = true → opt_ok (text_ok 0 512) description = true →
  g ∈ fl_groups db → hg_name g = name →
  (∀ x, x ∈ fl_groups db → hg_name x = name → hg_tenant_id x ≠ actor_tenant_id actor) →
  create_group E name description actor db = Err IntegrityError.
Proof.
  intros Ha Hn Hd Hg Hname Hother. unfold create_group. rewrite Ha, Hn, Hd. cbn [negb andb].
  assert (name_taken db (actor_tenant_id actor) name = false) as ->.
  { unfold name_taken. apply not_true_iff_false. rewrite existsb_exists.
    intros (x & Hx%list_elem_of_In & [Hxn%String.eqb_eq Hxt%Z.eqb_eq]%andb_true_iff). by apply (Hother x Hx Hxn). }
  assert (∀ x, name_unique (fl_groups db ++ [mkHostGroup x (actor_tenant_id actor) name description]) = false) as ->;
    [|done].
  intros x. apply bool_decide_eq_false. rewrite map_app. intros (_ & Hdis & _)%NoDup_app. apply (Hdis name).
  - rewrite <- Hname. by apply list_elem_of_fmap_2.
  - by left.
Qed.

(** ** Examples *)

Definition demo_fleet : fleet_db :=
  mkFleet (mkJobDb (mkScopeDb (sc_hosts demo_scope) [(100, 50); (101, 51)] [(7, 50)]) [] [] [] [] empty_db)
    [mkHostGroup 50 1 "linux" None; mkHostGroup 51 1 "dmz" None; mkHostGroup 60 2 "prod" None] [(7, 1); (8, 1)]
    [] [] [] [] [].

Lemma demo_fleet_wf : groups_wf demo_fleet.
Proof.
  split.
  - by apply (bool_decide_unpack _).
  - by apply (bool_decide_unpack _).
  - intros p Hp. simpl in Hp. apply elem_of_cons in Hp as [->|Hp].
    + exists (demo_host 100 1), (mkHostGroup 50 1 "linux" None). simpl. split_and!; try done; left.
    + apply list_elem_of_singleton in Hp as ->.
      exists (demo_host 101 1), (mkHostGroup 51 1 "dmz" None). simpl. split_and!; try done; right; left.
  - intros p Hp. simpl in Hp. apply list_elem_of_singleton in Hp as ->.
    exists (7, 1), (mkHostGroup 50 1 "linux" None). simpl. split_and!; try done; left.
Qed.

Lemma membership_stays_in_tenant_witness :
  ∃ db', run_group_op demo_env (GMembers 50 [101; 200] [8]) (demo_admin 1) demo_fleet = Ok db' ∧ groups_wf db'.
Proof.
  destruct (run_group_op demo_env (GMembers 50 [101; 200] [8]) (demo_admin 1) demo_fleet) as [db'|] eqn:H;
    [|vm_compute in H; discriminate H].
  exists db'. split; [reflexivity|].
  apply (membership_stays_in_tenant demo_env (GMembers 50 [101; 200] [8]) (demo_admin 1) demo_fleet db');
    [exact demo_fleet_wf| |exact H].
  apply (bool_decide_unpack _). vm_compute. exact I.
Defined.

Lemma group_name_spans_tenants_witness :
  create_group demo_env "prod" None (demo_admin 1) demo_fleet = Err IntegrityError.
Proof.
  apply (group_name_spans_tenants demo_env "prod" None (demo_admin 1) demo_fleet (mkHostGroup 60 2 "prod" None));
    try reflexivity.
  - do 2 right. left.
  - intros x Hx Hn. repeat (apply elem_of_cons in Hx as [->|Hx]; [try discriminate Hn; discriminate|]).
    by apply elem_of_nil in Hx.
Defined.
