(* ===== verification/DnsBlock.v ===== *)
(** * DnsBlock: the DNS block and sinkhole lists

    schemas/dns_block.py, api/dns_block.py and services/dns_block.py.  Each change
    sends every host it reaches the whole list that applies to it. *)

From Stdlib Require Import Ascii String.
From S2P Require Import Prelude PyStr PyVal PyTime PyText Models AuditChain Rollout Scoping Jobs Commands Fleet.
Local Open Scope string_scope.
Local Open Scope list_scope.
Local Open Scope Z_scope.

(** ** Request bodies *)

Inductive DnsBlockAction := DNS_BLOCK | DNS_SINKHOLE.
Definition DnsBlockAction_value (a : DnsBlockAction) : str :=
  match a with DNS_BLOCK => "block" | DNS_SINKHOLE => "sinkhole" end.

Definition normalise_domain (value : str) : str := rstrip_by (Ascii.eqb ".") (lower (strip value)).

(** [ch.isalnum() or ch in "-._"] *)
Definition domain_char (c : ascii) : bool := is_word c || Ascii.eqb c "-" || Ascii.eqb c ".".

Record DnsBlockEntryCreate := mkDnsCreate {
  dc_group : option uuid;
  dc_domain : str;
  dc_action : DnsBlockAction;
  dc_expires_at : option datetime
}.
(** The body with its domain normalised, or a 422. *)
Definition check_create (b : DnsBlockEntryCreate) : py DnsBlockEntryCreate :=
  let out := normalise_domain (dc_domain b) in
  if negb (text_ok 1 253 (dc_domain b)) || negb (nonempty out) || negb (string_forallb domain_char out)
  then Err (HTTPException 422)
  else Ok (mkDnsCreate (dc_group b) out (dc_action b) (dc_expires_at b)).

Record DnsBlockBulkImport := mkDnsImport {
  di_group : option uuid;
  di_action : DnsBlockAction;
  di_domains : list str
}.
(** The domains kept by [_normalise_each]: normalised, not empty, once each, in
    order. *)
Definition normalise_each (v : list str) : list str := dedup (List.filter nonempty (map normalise_domain v)).
Definition check_import (b : DnsBlockBulkImport) : py DnsBlockBulkImport :=
  let n := length (di_domains b) in
  if negb ((1 <=? n)%nat && (n <=? 10000)%nat) then Err (HTTPException 422)
  else match normalise_each (di_domains b) with
       | [] => Err (HTTPException 422)
       | out => Ok (mkDnsImport (di_group b) (di_action b) out)
       end.

(** ** The service *)

Definition effective_set_for_host_groups (rows : list DnsBlockEntry) (gids : list uuid) : list str * list str :=
  let mine := List.filter (λ e, applies gids (db_group e)) rows in
  let is_sinkhole e := String.eqb (db_action e) (DnsBlockAction_value DNS_SINKHOLE) in
  (sorted_strs (map db_domain (List.filter (λ e, negb (is_sinkhole e)) mine)),
   sorted_strs (map db_domain (List.filter is_sinkhole mine))).

Definition dns_payload (v : list str * list str) : dict :=
  [("block_domains", PList (map PStr v.1)); ("sinkhole_domains", PList (map PStr v.2))].

(** One host of the loop of [queue_resync_commands]. *)
Definition resync_host (E : env) (user : option uuid) (db : fleet_db) (h : Host) : fleet_db :=
  add_command E DEFAULT_TENANT_ID (host_id h) DNS_BLOCK_SYNC
    (dns_payload (effective_set_for_host_groups (fl_dns db) (groups_of (scope db) (host_id h)))) user db.
Definition queue_resync_commands (E : env) (gid user : option uuid) (db : fleet_db) : fleet_db * Z :=
  let hosts := hosts_in_scope (scope db) gid in
  (fold_left (resync_host E user) hosts db, Z.of_nat (length hosts)).

(** ** The routes *)

Definition validate_host_group (db : fleet_db) (gid : option uuid) (actor : Actor) : py unit :=
  match gid with
  | None => Ok tt
  | Some g =>
      match find_group db g with
      | None => Err (HTTPException 400)
      | Some row => if hg_tenant_id row =? actor_tenant_id actor then Ok tt else Err (HTTPException 400)
      end
  end.

(** The rows of a scope: the group's, or the global ones, of one tenant. *)
Definition same_scope (tenant : uuid) (gid : option uuid) (e : DnsBlockEntry) : bool :=
  (db_tenant_id e =? tenant) && bool_decide (db_group e = gid).

(** The UNIQUE constraint on group and domain, which NULL groups escape. *)
Definition group_domain (e : DnsBlockEntry) : option (uuid * str) := (λ g, (g, db_domain e)) <$> db_group e.
Definition dns_unique (rows : list DnsBlockEntry) : bool := bool_decide (NoDup (omap group_domain rows)).

(** Up to the order, which is the database's collation. *)
Definition list_entries (actor : Actor) (gid : option uuid) (db : fleet_db) : py (list DnsBlockEntry) :=
  _ ← require_analyst actor;
  Ok (List.filter (λ e, (db_tenant_id e =? actor_tenant_id actor) &&
                        opt_ok (λ g, bool_decide (db_group e = Some g)) gid) (fl_dns db)).

Definition create_entry (E : env) (body : DnsBlockEntryCreate) (actor : Actor) (db : fleet_db) : py fleet_db :=
  if negb (is_admin actor) then Err (HTTPException 403)
  else
    payload ← check_create body;
    _ ← validate_host_group db (dc_group payload) actor;
    dup ← scalar_one_or_none
            (List.filter (λ e, String.eqb (db_domain e) (dc_domain payload) &&
                               same_scope (actor_tenant_id actor) (dc_group payload) e) (fl_dns db));
    match dup with
    | Some _ => Err (HTTPException 409)
    | None =>
        let entry := mkDnsEntry (env_uuid4 E (length (fl_dns db))) (actor_tenant_id actor) (dc_group payload)
                       (dc_domain payload) (DnsBlockAction_value (dc_action payload))
                       (Some (actor_user_id actor)) (dc_expires_at payload) in
        let rows := fl_dns db ++ [entry] in
        if negb (dns_unique rows) then Err IntegrityError
        else
          let db := audited E actor "dns_block.create" "dns_block_entry" (uuid_str (db_id entry))
                      (Some [("domain", PStr (db_domain entry)); ("action", PStr (db_action entry));
                             ("host_group_id", opt_uuid_str (db_group entry));
                             ("expires_at", match db_expires_at entry with
                                            | Some t => PStr (isoformat t) | None => PNone end)])
                      (set_dns rows db) in
          Ok (queue_resync_commands E (db_group entry) (Some (actor_user_id actor)) db).1
    end.

Definition delete_entry (E : env) (eid : uuid) (actor : Actor) (db : fleet_db) : py fleet_db :=
  if negb (is_admin actor) then Err (HTTPException 403)
  else match List.find (λ e, db_id e =? eid) (fl_dns db) with
  | None => Err (HTTPException 404)
  | Some entry =>
      if negb (db_tenant_id entry =? actor_tenant_id actor) then Err (HTTPException 404)
      else
        let db := audited E actor "dns_block.delete" "dns_block_entry" (uuid_str eid)
                    (Some [("domain", PStr (db_domain entry)); ("action", PStr (db_action entry));
                           ("host_group_id", opt_uuid_str (db_group entry))])
                    (set_dns (List.filter (λ e, negb (db_id e =? eid)) (fl_dns db)) db) in
        Ok (queue_resync_commands E (db_group entry) (Some (actor_user_id actor)) db).1
  end.

Definition bulk_import (E : env) (body : DnsBlockBulkImport) (actor : Actor) (db : fleet_db) :
    py (fleet_db * (Z * Z)) :=
  if negb (is_admin actor) then Err (HTTPException 403)
  else
    payload ← check_import body;
    _ ← validate_host_group db (di_group payload) actor;
    let existing := map db_domain (List.filter (λ e, bool_decide (db_domain e ∈ di_domains payload) &&
                                                     same_scope (actor_tenant_id actor) (di_group payload) e)
                                     (fl_dns db)) in
    let fresh := List.filter (λ d, negb (bool_decide (d ∈ existing))) (di_domains payload) in
    let new_row i d := mkDnsEntry (env_uuid4 E (length (fl_dns db) + i)) (actor_tenant_id actor) (di_group payload) d
                         (DnsBlockAction_value (di_action payload)) (Some (actor_user_id actor)) None in
    let rows := fl_dns db ++ imap new_row fresh in
    if negb (dns_unique rows) then Err IntegrityError
    else
      let inserted := Z.of_nat (length fresh) in
      let total := Z.of_nat (length (di_domains payload)) in
      let db := audited E actor "dns_block.import" "dns_block_entry"
                  (match di_group payload with Some g => uuid_str g | None => "global" end)
                  (Some [("host_group_id", opt_uuid_str (di_group payload));
                         ("action", PStr (DnsBlockAction_value (di_action payload)));
                         ("inserted", PInt inserted); ("skipped", PInt (total - inserted));
                         ("total", PInt total)])
                  (set_dns rows db) in
      Ok (if 0 <? inserted then (queue_resync_commands E (di_group payload) (Some (actor_user_id actor)) db).1 else db,
          (inserted, total - inserted)).

(** ** The agents hold what the manager means *)

(** What applies to a host now. *)
Definition effective (db : fleet_db) (h : Host) : list str * list str :=
  effective_set_for_host_groups (fl_dns db) (groups_of (scope db) (host_id h)).

Definition dns_carries (d : dict) (v : list str * list str) : Prop :=
  d = dns_payload v ∧ Forall (λ s, nonempty s = true) (v.1 ++ v.2).
Definition dns_read (pb : pb_command) : option (list str * list str) :=
  match pb with PbDnsBlockSync b s => Some (b, s) | _ => None end.
Lemma dns_read_back c v :
  cmd_kind c = DNS_BLOCK_SYNC → dns_carries (cmd_payload c) v →
  ∃ pb, command_to_pb c = Ok (Some pb) ∧ dns_read pb = Some v.
Proof.
  destruct v as [b s]. intros Hk [Hp [Hb Hs]%Forall_app]. unfold command_to_pb. rewrite Hk, Hp.
  exists (PbDnsBlockSync b s). split; [|reflexivity]. unfold items_of. cbn [fst snd] in *.
  destruct b as [|x b], s as [|y s]; cbn -[nonempty_strs]; rewrite <- ?(map_cons PStr), ?nonempty_strs_PStr by done; done.
Qed.

#[global] Instance dns_wire : WireSync (list str * list str) := {|
  wire_kind := DNS_BLOCK_SYNC;
  wire_about _ := true;
  wire_carries := dns_carries;
  wire_read := dns_read;
  wire_selected _ _ _ := eq_refl;
  wire_read_back := dns_read_back
|}.

Lemma resync_fold E user hosts db :
  let db' := fold_left (resync_host E user) hosts db in
  fl_dns db' = fl_dns db ∧ scope db' = scope db ∧
  ∃ new, commands db' = commands db ++ new ∧
    map told new = flat_map (λ h, [(host_id h, DNS_BLOCK_SYNC, dns_payload (effective db h))]) hosts.
Proof.
  revert db. induction hosts as [|h hosts IH]; intros db; cbn zeta;
    [split_and!; try done; exists []; simpl; by rewrite app_nil_r|].
  cbn [fold_left]. destruct (IH (resync_host E user db h)) as (Hd & Hs & new & Hc & Ht).
  split; [by rewrite Hd|]. split; [by rewrite Hs|]. eexists (_ :: new). rewrite Hc.
  split; [unfold commands; simpl; rewrite <- app_assoc; reflexivity|]. cbn [map flat_map]. by rewrite Ht.
Qed.

Lemma effective_elem rows gids d :
  (d ∈ (effective_set_for_host_groups rows gids).1 ↔
     ∃ e, e ∈ rows ∧ applies gids (db_group e) = true ∧ db_domain e = d ∧ db_action e ≠ "sinkhole") ∧
  (d ∈ (effective_set_for_host_groups rows gids).2 ↔
     ∃ e, e ∈ rows ∧ applies gids (db_group e) = true ∧ db_domain e = d ∧ db_action e = "sinkhole").
Proof.
  cbn [effective_set_for_host_groups fst snd]. rewrite !elem_of_sorted_strs, !list_elem_of_fmap.
  split; split.
  - intros (e & -> & [[He Ha]%elem_of_filterb Hs]%elem_of_filterb). exists e.
    rewrite negb_true_iff in Hs. apply String.eqb_neq in Hs. done.
  - intros (e & He & Ha & <- & Hs). exists e. split; [done|]. apply elem_of_filterb. rewrite elem_of_filterb.
    split; [done|]. rewrite negb_true_iff. by apply String.eqb_neq.
  - intros (e & -> & [[He Ha]%elem_of_filterb Hs]%elem_of_filterb). exists e. by apply String.eqb_eq in Hs.
  - intros (e & He & Ha & <- & Hs). exists e. split; [done|]. apply elem_of_filterb. rewrite elem_of_filterb.
    split; [done|]. by apply String.eqb_eq.
Qed.

(** Rows of another scope do not change what applies. *)
Lemma effective_same rows rows' gids :
  List.filter (λ e, applies gids (db_group e)) rows' = List.filter (λ e, applies gids (db_group e)) rows →
  effective_set_for_host_groups rows' gids = effective_set_for_host_groups rows gids.
Proof. intros H. unfold effective_set_for_host_groups. by rewrite H. Qed.

(** Each live host holds exactly what applies to it; a host that was never sent a
    list holds none. *)
Definition dns_synced (db : fleet_db) : Prop :=
  ∀ h, h ∈ sc_hosts (scope db) → host_status h ≠ H_DECOMMISSIONED →
    default ([], []) (agent_view (host_id h) (commands db)) = effective db h.
Definition domains_ok (rows : list DnsBlockEntry) : Prop := ∀ e, e ∈ rows → nonempty (db_domain e) = true.

Lemma effective_nonempty db h : domains_ok (fl_dns db) → dns_carries (dns_payload (effective db h)) (effective db h).
Proof.
  intros Hok. split; [done|]. apply Forall_app. split; apply Forall_forall; intros d Hd;
    apply effective_elem in Hd as (e & He & _ & <- & _); by apply Hok.
Qed.

(** A change of the rows of one scope, followed by the fan-out to it, restores the
    agreement. *)
Lemma resync_synced E gid user db0 db1 :
  dns_synced db0 → hosts_ok (scope db0) → domains_ok (fl_dns db1) →
  scope db1 = scope db0 → commands db1 = commands db0 →
  (∀ gids, applies gids gid = false →
     List.filter (λ e, applies gids (db_group e)) (fl_dns db1) =
     List.filter (λ e, applies gids (db_group e)) (fl_dns db0)) →
  dns_synced (queue_resync_commands E gid user db1).1.
Proof.
  intros Hsync Hok Hdom Hsc Hcm Hrows h. unfold queue_resync_commands. cbn [fst].
  destruct (resync_fold E user (hosts_in_scope (scope db1) gid) db1) as (Hd & Hs & new & Hc & Ht).
  unfold effective. rewrite Hd, Hs, Hc, Hcm. intros Hin Hl.
  assert (in_edit_scope (scope db1) gid h = applies (groups_of (scope db1) (host_id h)) gid) as Hsco
    by (by apply in_edit_scope_applies).
  destruct (in_edit_scope (scope db1) gid h) eqn:He.
  - rewrite (fan_out_view (λ h, [(host_id h, DNS_BLOCK_SYNC, dns_payload (effective db1 h))]) (commands db0 ++ new)
      (map told (commands db0)) (hosts_in_scope (scope db1) gid) h DNS_BLOCK_SYNC
      (dns_payload (effective db1 h)) (effective db1 h)); [done|..].
    + by rewrite map_app, Ht.
    + unfold hosts_in_scope. apply NoDup_map_filterb. by rewrite Hsc.
    + by apply elem_of_filterb.
    + intros x t ->%list_elem_of_singleton. done.
    + cbn [List.filter]. unfold concerns. cbn [fst snd]. by rewrite Z.eqb_refl.
    + by apply effective_nonempty.
  - rewrite (fan_out_other _ _ _ _ _ Ht).
    + rewrite (Hsync h) by (by rewrite <- ?Hsc). unfold effective. rewrite <- Hsc. symmetry. by apply effective_same, Hrows.
    + intros x t ->%list_elem_of_singleton. done.
    + intros x [Hx Hxe]%elem_of_filterb Hid. assert (x = h) as ->; [|congruence].
      apply (NoDup_key_inj host_id (sc_hosts (scope db1))); try done. by rewrite Hsc.
Qed.

Inductive dns_op :=
| DCreate (body : DnsBlockEntryCreate)
| DDelete (eid : uuid)
| DImport (body : DnsBlockBulkImport).
Definition run_dns_op (E : env) (op : dns_op) (actor : Actor) (db : fleet_db) : py fleet_db :=
  match op with
  | DCreate b => create_entry E b actor db
  | DDelete eid => delete_entry E eid actor db
  | DImport b => r ← bulk_import E b actor db; Ok r.1
  end.

Lemma dns_create_ok b p : check_create b = Ok p → dc_group p = dc_group b ∧ nonempty (dc_domain p) = true.
Proof.
  unfold check_create. destruct (_ || _ || _) eqn:H; [done|]. intros [= <-]. simpl.
  apply orb_false_iff in H as [[_ H]%orb_false_iff _]. by rewrite negb_false_iff in H.
Qed.
Lemma check_import_ok b p :
  check_import b = Ok p → di_group p = di_group b ∧ NoDup (di_domains p) ∧ ∀ d, d ∈ di_domains p → nonempty d = true.
Proof.
  unfold check_import. destruct (negb _); [done|]. destruct (normalise_each _) as [|d l] eqn:Hn; [done|].
  intros [= <-]. cbn [di_group di_domains]. rewrite <- Hn. split; [done|]. unfold normalise_each. split.
  - apply NoDup_dedup.
  - intros x [_ Hx]%elem_of_dedup%elem_of_filterb. done.
Qed.

(** Rows of one scope come or go out of sight of the hosts of the others. *)
Lemma filter_scope_app gids gid (rows new : list DnsBlockEntry) :
  applies gids gid = false → (∀ e, e ∈ new → db_group e = gid) →
  List.filter (λ e, applies gids (db_group e)) (rows ++ new) = List.filter (λ e, applies gids (db_group e)) rows.
Proof.
  intros Ha Hn. rewrite List.filter_app.
  assert (List.filter (λ e, applies gids (db_group e)) new = []) as ->; [|by rewrite app_nil_r].
  apply elem_of_nil_inv. intros e [He Hae]%elem_of_filterb. by rewrite (Hn e He), Ha in Hae.
Qed.
Lemma filter_scope_delete gids gid (rows : list DnsBlockEntry) eid :
  applies gids gid = false → (∀ e, e ∈ rows → db_id e = eid → db_group e = gid) →
  List.filter (λ e, applies gids (db_group e)) (List.filter (λ e, negb (db_id e =? eid)) rows) =
  List.filter (λ e, applies gids (db_group e)) rows.
Proof.
  intros Ha. induction rows as [|e rows IH]; intros Hg; [done|]. simpl.
  destruct (Z.eqb_spec (db_id e) eid) as [Heq|]; simpl.
  - rewrite (Hg e) by (done || by left). rewrite Ha. apply IH. set_solver.
  - rewrite IH by set_solver. done.
Qed.

Definition dns_wf (db : fleet_db) : Prop :=
  hosts_ok (scope db) ∧ NoDup (map db_id (fl_dns db)) ∧ domains_ok (fl_dns db) ∧ dns_synced db.
(** The ids the database hands out for new rows are fresh. *)
Definition dns_fresh (E : env) (db : fleet_db) : Prop :=
  ∀ l : list str, NoDup (map db_id (fl_dns db) ++ imap (λ i _, env_uuid4 E (length (fl_dns db) + i)) l).

Lemma resync_wf E gid user db0 db1 :
  dns_wf db0 → NoDup (map db_id (fl_dns db1)) → domains_ok (fl_dns db1) →
  scope db1 = scope db0 → commands db1 = commands db0 →
  (∀ gids, applies gids gid = false →
     List.filter (λ e, applies gids (db_group e)) (fl_dns db1) =
     List.filter (λ e, applies gids (db_group e)) (fl_dns db0)) →
  dns_wf (queue_resync_commands E gid user db1).1.
Proof.
  intros (Hok & Hid & Hdom & Hsync) Hid1 Hdom1 Hsc Hcm Hrows.
  assert (dns_synced (queue_resync_commands E gid user db1).1) as Hsy by (by eapply resync_synced).
  destruct (resync_fold E user (hosts_in_scope (scope db1) gid) db1) as (Hd & Hs & _).
  unfold dns_wf, queue_resync_commands. cbn [fst]. rewrite Hd, Hs, Hsc.
  split_and!; [done..|rewrite <- Hsc; exact Hsy].
Qed.

Lemma create_entry_wf E b actor db db' :
  dns_fresh E db → dns_wf db → create_entry E b actor db = Ok db' → dns_wf db'.
Proof.
  intros Hfresh Hwf. pose proof Hwf as (Hok & Hid & Hdom & Hsync). unfold create_entry. destruct (negb (is_admin actor)); [done|].
  destruct (check_create b) as [p|] eqn:Hp; cbn [mbind res_bind]; [|done].
  apply dns_create_ok in Hp as [_ Hne].
  destruct (validate_host_group _ _ _); cbn [mbind res_bind]; [|done].
  destruct (scalar_one_or_none _) as [[x|]|]; cbn [mbind res_bind]; [done| |done].
  set (e := mkDnsEntry _ _ _ _ _ _ _). destruct (negb (dns_unique _)); [done|]. intros [= <-].
  apply resync_wf with db; try done.
  - specialize (Hfresh [""]). simpl in Hfresh. rewrite Nat.add_0_r in Hfresh. simpl. by rewrite map_app.
  - intros x [Hx| ->%list_elem_of_singleton]%elem_of_app; [by apply Hdom|done].
  - intros gids Ha. apply filter_scope_app with (dc_group p); [done|]. by intros x ->%list_elem_of_singleton.
Qed.

Lemma delete_entry_wf E eid actor db db' :
  dns_wf db → delete_entry E eid actor db = Ok db' → dns_wf db'.
Proof.
  intros Hwf. pose proof Hwf as (Hok & Hid & Hdom & Hsync). unfold delete_entry. destruct (negb (is_admin actor)); [done|].
  destruct (List.find _ _) as [e|] eqn:Hf; [|done]. destruct (negb _); [done|]. intros [= <-].
  apply find_some in Hf as [Hin He%Z.eqb_eq]. apply list_elem_of_In in Hin.
  apply resync_wf with db; try done.
  - by apply NoDup_map_filterb.
  - intros x [Hx _]%elem_of_filterb. by apply Hdom.
  - intros gids Ha. apply filter_scope_delete with (db_group e); [done|]. intros x Hx Hxe.
    f_equal. apply (NoDup_key_inj db_id (fl_dns db)); try done. congruence.
Qed.

Lemma bulk_import_wf E b actor db r :
  dns_fresh E db → dns_wf db → bulk_import E b actor db = Ok r → dns_wf r.1.
Proof.
  intros Hfresh Hwf. pose proof Hwf as (Hok & Hid & Hdom & Hsync). unfold bulk_import. destruct (negb (is_admin actor)); [done|].
  destruct (check_import b) as [p|] eqn:Hp; cbn [mbind res_bind]; [|done].
  apply check_import_ok in Hp as (_ & _ & Hne).
  destruct (validate_host_group _ _ _); cbn [mbind res_bind]; [|done]. cbn zeta.
  set (fresh := List.filter _ (di_domains p)). destruct (negb (dns_unique _)); [done|]. intros [= <-]. cbn [fst].
  destruct (0 <? Z.of_nat (length fresh)) eqn:Hz.
  - apply resync_wf with db; try done.
    + simpl. rewrite map_app. specialize (Hfresh fresh).
      assert (map db_id (imap (λ i d, mkDnsEntry (env_uuid4 E (length (fl_dns db) + i)) (actor_tenant_id actor)
        (di_group p) d (DnsBlockAction_value (di_action p)) (Some (actor_user_id actor)) None) fresh) =
        imap (λ i _, env_uuid4 E (length (fl_dns db) + i)) fresh) as ->; [apply fmap_imap|done].
    + intros x [Hx|(i & d & -> & Hd)%elem_of_lookup_imap]%elem_of_app; [by apply Hdom|]. simpl. apply Hne.
      apply list_elem_of_lookup_2 in Hd. unfold fresh in Hd. by apply elem_of_filterb in Hd as [Hd _].
    + intros gids Ha. apply filter_scope_app with (di_group p); [done|].
      intros x (i & d & -> & Hd)%elem_of_lookup_imap. done.
  - assert (fresh = []) as ->; [destruct fresh; [done|apply Z.ltb_ge in Hz; simpl in Hz; lia]|]. unfold dns_wf, dns_synced, effective. simpl. by rewrite app_nil_r.
Qed.

(** One request that is served, whoever makes it. *)
Definition dns_step (db db' : fleet_db) : Prop :=
  ∃ E op actor, dns_fresh E db ∧ run_dns_op E op actor db = Ok db'.

Lemma dns_step_wf db db' : dns_wf db → dns_step db db' → dns_wf db'.
Proof.
  intros Hwf (E & op & actor & Hf & H). destruct op as [b|eid|b]; simpl in H;
    [by eapply create_entry_wf|by eapply delete_entry_wf|].
  destruct (bulk_import E b actor db) as [r|] eqn:Hr; simpl in H; [|done]. simplify_eq. by eapply bulk_import_wf.
Qed.

(** The rows meant for a host: the global ones and those of its groups. *)
Definition meant_for (db : fleet_db) (h : Host) (e : DnsBlockEntry) : Prop :=
  e ∈ fl_dns db ∧ (db_group e = None ∨ ∃ g, db_group e = Some g ∧ (host_id h, g) ∈ sc_host_in_group (scope db)).


(** A global entry reaches every tenant: once an administrator has created
    one, each live host of the others, too, is told to block the domain. *)
Theorem dns_global_crosses_tenants E body actor db db' h :
  dns_wf db → dns_fresh E db →
  dc_group body = None → dc_action body = DNS_BLOCK →
  create_entry E body actor db = Ok db' →
  h ∈ sc_hosts (scope db) → host_status h ≠ H_DECOMMISSIONED → host_tenant_id h ≠ actor_tenant_id actor →
  ∃ block sinkhole, agent_view (host_id h) (commands db') = Some (block, sinkhole) ∧
    normalise_domain (dc_domain body) ∈ block.
Proof.
  intros Hwf Hf Hg Ha H Hh Hl Hten.
  assert (dns_wf db') as (_ & _ & _ & Hs) by (by eapply create_entry_wf).
  unfold create_entry in H. destruct (negb (is_admin actor)); [done|].
  destruct (check_create body) as [p|] eqn:Hp; cbn [mbind res_bind] in H; [|done].
  assert (p = mkDnsCreate (dc_group body) (normalise_domain (dc_domain body)) (dc_action body) (dc_expires_at body)) as ->.
  { unfold check_create in Hp. destruct (_ || _ || _); [done|]. by injection Hp. }
  cbn [dc_group dc_domain dc_action dc_expires_at] in H. rewrite Hg, Ha in H. cbn [validate_host_group mbind res_bind] in H.
  destruct (scalar_one_or_none _) as [[x|]|]; cbn [mbind res_bind] in H; [done| |done].
  set (e := mkDnsEntry _ _ _ _ _ _ _) in H. destruct (negb (dns_unique _)); [done|]. injection H as <-.
  match goal with |- context [fold_left (resync_host E ?u) _ ?d] => set (d1 := d) in *; set (us := u) in * end.
  destruct (resync_fold E us (hosts_in_scope (scope d1) None) d1) as (Hd & Hsc & _).
  specialize (Hs h). rewrite Hsc in Hs. specialize (Hs Hh Hl).
  assert (normalise_domain (dc_domain body) ∈
    (effective (fold_left (resync_host E us) (hosts_in_scope (scope d1) None) d1) h).1) as Hin.
  { unfold effective. rewrite Hd, Hsc. apply effective_elem. exists e. split_and!; try done.
    simpl. apply elem_of_app. right. by left. }
  rewrite <- Hs in Hin. destruct (agent_view _ _) as [[blk snk]|]; [|by apply elem_of_nil in Hin].
  exists blk, snk. done.
Qed.

(** Moving a host into a group tells it nothing: no command is queued, and
    the rows of its new group are missing from what it holds. *)
Theorem membership_not_resynced E gid hids uids actor db r h e :
  dns_wf db → replace_membership E gid hids uids actor db = Ok r →
  h ∈ sc_hosts (scope db) → host_status h ≠ H_DECOMMISSIONED →
  host_id h ∈ r.2.1 →
  e ∈ fl_dns db → db_group e = Some gid →
  db_domain e ∉ (effective db h).1 ++ (effective db h).2 →
  commands r.1 = commands db ∧
  (host_id h, gid) ∈ sc_host_in_group (scope r.1) ∧
  default ([], []) (agent_view (host_id h) (commands r.1)) ≠ effective r.1 h.
Proof.
  intros (_ & _ & _ & Hs) H Hh Hl Hin He Hg Hout. unfold replace_membership in H.
  destruct (negb (is_admin actor)); [done|].
  destruct (load_in_tenant db gid actor) as [g|]; cbn [mbind res_bind] in H; [|done]. injection H as <-. cbn [fst snd] in *.
  assert (∀ a s, (host_id h, gid) ∈ sc_host_in_group (mkScopeDb (sc_hosts (scope db))
     (a ++ map (λ h, (h, gid)) (map host_id (List.filter (λ h, bool_decide (host_id h ∈ hids) &&
        (host_tenant_id h =? actor_tenant_id actor)) (sc_hosts (scope db))))) s)) as Hmem.
  { intros a s. simpl. apply elem_of_app. right. by apply (list_elem_of_fmap_2 (λ h, (h, gid))). }
  split; [done|]. split; [apply Hmem|].
  match goal with |- _ ≠ effective ?d h => set (d1 := d) end.
  change (commands d1) with (commands db). rewrite (Hs h Hh Hl). intros Heq. apply Hout. rewrite Heq.
  assert (applies (groups_of (scope d1) (host_id h)) (db_group e) = true) as Ha.
  { rewrite Hg. simpl. apply bool_decide_eq_true. apply member_groups. unfold member. apply existsb_exists.
    exists (host_id h, gid). rewrite !Z.eqb_refl. split; [|done]. apply list_elem_of_In, Hmem. }
  apply elem_of_app. unfold effective.
  destruct (effective_elem (fl_dns d1) (groups_of (scope d1) (host_id h)) (db_domain e)) as [H1 H2].
  destruct (decide (db_action e = "sinkhole")).
  - right. apply H2. eauto.
  - left. apply H1. eauto.
Qed.

(** ** Examples *)

Definition demo_block (gid : option uuid) : DnsBlockEntryCreate := mkDnsCreate gid " Evil.Example. " DNS_BLOCK None.
Definition demo_blocked (gid : option uuid) : py fleet_db :=
  create_entry demo_env (demo_block gid) (demo_admin 1) demo_fleet.

Lemma demo_dns_wf : dns_wf demo_fleet.
Proof.
  split; [exact demo_scope_ok|]. split; [by apply NoDup_nil|]. split; [by intros e He%elem_of_nil|]. intros h _ _. reflexivity.
Qed.
Lemma demo_dns_fresh : dns_fresh demo_env demo_fleet.
Proof.
  intros l. simpl. apply NoDup_alt. intros i j x Hi Hj. rewrite list_lookup_imap in Hi, Hj.
  destruct (l !! i), (l !! j); simplify_eq/=. lia.
Qed.


Lemma dns_global_crosses_tenants_witness :
  ∃ db' block sinkhole, demo_blocked None = Ok db' ∧ agent_view 200 (commands db') = Some (block, sinkhole) ∧
    "evil.example" ∈ block.
Proof.
  destruct (demo_blocked None) as [db'|] eqn:H; [|vm_compute in H; discriminate H].
  destruct (dns_global_crosses_tenants demo_env (demo_block None) (demo_admin 1) demo_fleet db' (demo_host 200 2)
              demo_dns_wf demo_dns_fresh) as (block & sinkhole & H1 & H2); try reflexivity.
  - exact H.
  - do 2 right. left.
  - discriminate.
  - discriminate.
  - exists db', block, sinkhole. split; [reflexivity|]. split; [exact H1|exact H2].
Defined.

(** A host outside group 50 when the entry of the group is created. *)
Lemma membership_not_resynced_witness :
  ∃ db r, demo_blocked (Some 50) = Ok db ∧
    replace_membership demo_env 50 [100; 101] [] (demo_admin 1) db = Ok r ∧ commands r.1 = commands db.
Proof.
  destruct (demo_blocked (Some 50)) as [db|] eqn:H; [|vm_compute in H; discriminate H].
  assert (dns_wf db) as Hwf.
  { apply (dns_step_wf demo_fleet db demo_dns_wf). exists demo_env, (DCreate (demo_block (Some 50))), (demo_admin 1).
    split; [exact demo_dns_fresh|exact H]. }
  assert (scope db = scope demo_fleet ∧ fl_groups db = fl_groups demo_fleet ∧
    fl_dns db = [mkDnsEntry 0 1 (Some 50) "evil.example" "block" (Some 8) None]) as (Hs & Hg & Hd)
    by (vm_compute in H; injection H as <-; split_and!; reflexivity).
  destruct (replace_membership demo_env 50 [100; 101] [] (demo_admin 1) db) as [r|] eqn:Hr.
  2: { unfold replace_membership, load_in_tenant, find_group in Hr. rewrite Hg in Hr. simpl in Hr. discriminate Hr. }
  exists db, r. split; [reflexivity|]. split; [exact Hr|].
  apply (membership_not_resynced demo_env 50 [100; 101] [] (demo_admin 1) db r (demo_host 101 1)
           (mkDnsEntry 0 1 (Some 50) "evil.example" "block" (Some 8) None) Hwf Hr).
  - rewrite Hs. right. left.
  - discriminate.
  - unfold replace_membership, load_in_tenant, find_group in Hr. rewrite Hg, Hs in Hr. simpl in Hr. injection Hr as <-.
    simpl. right. left.
  - rewrite Hd. left.
  - reflexivity.
  - unfold effective. rewrite Hd, Hs. simpl. apply not_elem_of_nil.
Defined.
