(* ===== verification/Devices.v ===== *)
(** * Devices: USB device policies

    schemas/device_policy.py, api/device_policies.py and
    services/device_control.py.  Each change sends the hosts it reaches one command
    per kind of policy: the one in force, or the latest disabled one, which tells
    the agent to lift what it applied. *)

From Stdlib Require Import Ascii String Sorted.
From S2P Require Import Prelude PyStr PyVal PyTime PyText Models AuditChain Rollout Scoping Jobs Commands Fleet.
Local Open Scope string_scope.
Local Open Scope list_scope.
Local Open Scope Z_scope.

(** ** Request bodies *)

Inductive DevicePolicyKind := USB_BLOCK | USB_READ_ONLY | USB_ALLOW_ONLY.
Definition DevicePolicyKind_value (k : DevicePolicyKind) : str :=
  match k with USB_BLOCK => "usb_block" | USB_READ_ONLY => "usb_read_only" | USB_ALLOW_ONLY => "usb_allow_only" end.

Definition removeprefix (p s : str) : str := if starts_with p s then drop_str (String.length p) s else s.
Definition is_hex (c : ascii) : bool := match hex_value c with Some _ => true | None => false end.
(** [None] is the [ValueError]. *)
Definition normalise_id (value : str) : option str :=
  let v := removeprefix "0x" (lower (strip value)) in
  if (String.length v =? 4)%nat && string_forallb is_hex v then Some v else None.
Definition normalise_ids (v : list str) : option (list str) := mapM normalise_id v.

Record DevicePolicyCreate := mkDeviceCreate {
  vc_group : option uuid;
  vc_kind : DevicePolicyKind;
  vc_name : str;
  vc_description : option str;
  vc_vids : list str;
  vc_pids : list str;
  vc_enabled : bool
}.
Definition check_create (b : DevicePolicyCreate) : py DevicePolicyCreate :=
  match normalise_ids (vc_vids b), normalise_ids (vc_pids b) with
  | Some vids, Some pids =>
      if text_ok 1 128 (vc_name b) && opt_ok (text_ok 0 512) (vc_description b) &&
         (length (vc_vids b) <=? 256)%nat && (length (vc_pids b) <=? 256)%nat
      then Ok (mkDeviceCreate (vc_group b) (vc_kind b) (vc_name b) (vc_description b) vids pids (vc_enabled b))
      else Err (HTTPException 422)
  | _, _ => Err (HTTPException 422)
  end.

Record DevicePolicyUpdate := mkDeviceUpdate {
  vu_kind : option DevicePolicyKind;
  vu_name : option str;
  vu_description : option str;
  vu_vids : option (list str);
  vu_pids : option (list str);
  vu_enabled : option bool
}.
Definition normalise_opt (o : option (list str)) : option (option (list str)) :=
  match o with None => Some None | Some l => Some <$> normalise_ids l end.
Definition check_update (b : DevicePolicyUpdate) : py DevicePolicyUpdate :=
  match normalise_opt (vu_vids b), normalise_opt (vu_pids b) with
  | Some vids, Some pids =>
      if opt_ok (text_ok 1 128) (vu_name b) && opt_ok (text_ok 0 512) (vu_description b) &&
         opt_ok (λ l, (length l <=? 256)%nat) (vu_vids b) && opt_ok (λ l, (length l <=? 256)%nat) (vu_pids b)
      then Ok (mkDeviceUpdate (vu_kind b) (vu_name b) (vu_description b) vids pids (vu_enabled b))
      else Err (HTTPException 422)
  | _, _ => Err (HTTPException 422)
  end.

(** ** The service *)

(** [ORDER BY enabled DESC, updated_at DESC]: two stable sorts. *)
Definition effective_policies_for_host (rows : list DevicePolicy) (gids : list uuid) : list DevicePolicy :=
  sort_by (λ p, if dp_enabled p then 0 else 1)
    (sort_by (λ p, - dp_updated_at p) (List.filter (λ p, applies gids (dp_group p)) rows)).

Definition payload_for (p : DevicePolicy) : dict :=
  [("kind", PStr (dp_kind p)); ("allowed_vids", PList (map PStr (dp_vids p)));
   ("allowed_pids", PList (map PStr (dp_pids p))); ("enabled", PBool (dp_enabled p));
   ("policy_id", PStr (uuid_str (dp_id p)))].

(** The first policy of each kind. *)
Fixpoint first_per_kind (seen : list str) (l : list DevicePolicy) : list DevicePolicy :=
  match l with
  | [] => []
  | p :: l => if bool_decide (dp_kind p ∈ seen) then first_per_kind seen l
              else p :: first_per_kind (dp_kind p :: seen) l
  end.

Definition winning (db : fleet_db) (h : Host) : list DevicePolicy :=
  first_per_kind [] (effective_policies_for_host (fl_devices db) (groups_of (scope db) (host_id h))).
Definition push_to_host (E : env) (user : option uuid) (db : fleet_db) (h : Host) : fleet_db :=
  fold_left (λ db p, add_command E DEFAULT_TENANT_ID (host_id h) DEVICE_CONTROL_SYNC (payload_for p) user db)
    (winning db h) db.
(** The second component is the number of hosts that were sent something. *)
Definition push_to_group (E : env) (gid user : option uuid) (db : fleet_db) : fleet_db * Z :=
  let hosts := hosts_in_scope (scope db) gid in
  (fold_left (push_to_host E user) hosts db,
   Z.of_nat (length (List.filter (λ h, match winning db h with [] => false | _ => true end) hosts))).

(** ** The routes *)

Definition group_name (p : DevicePolicy) : option (uuid * str) := (λ g, (g, dp_name p)) <$> dp_group p.
Definition device_unique (rows : list DevicePolicy) : bool := bool_decide (NoDup (omap group_name rows)).

Definition create_policy (E : env) (body : DevicePolicyCreate) (actor : Actor) (db : fleet_db) : py fleet_db :=
  if negb (is_admin actor) then Err (HTTPException 403)
  else
    payload ← check_create body;
    dup ← scalar_one_or_none (List.filter (λ p, String.eqb (dp_name p) (vc_name payload) &&
                                                bool_decide (dp_group p = vc_group payload)) (fl_devices db));
    match dup with
    | Some _ => Err (HTTPException 409)
    | None =>
        let policy := mkDevicePolicy (env_uuid4 E (length (fl_devices db))) (vc_group payload)
                        (DevicePolicyKind_value (vc_kind payload)) (vc_vids payload) (vc_pids payload)
                        (vc_enabled payload) (vc_name payload) (vc_description payload) (env_now E) in
        let rows := fl_devices db ++ [policy] in
        if negb (device_unique rows) || negb (group_fk db (dp_group policy)) then Err IntegrityError
        else
          let db := audited E actor "device_policy.create" "device_policy" (uuid_str (dp_id policy))
                      (Some [("name", PStr (dp_name policy)); ("kind", PStr (dp_kind policy));
                             ("host_group_id", opt_uuid_str (dp_group policy)); ("enabled", PBool (dp_enabled policy));
                             ("allowed_vendor_ids", PList (map PStr (dp_vids policy)));
                             ("allowed_product_ids", PList (map PStr (dp_pids policy)))])
                      (set_devices rows db) in
          Ok (push_to_group E (dp_group policy) (Some (actor_user_id actor)) db).1
    end.

(** The columns after the update; [updated_at] moves when one of them changed. *)
Definition patched (E : env) (u : DevicePolicyUpdate) (p : DevicePolicy) : DevicePolicy :=
  let kind := match vu_kind u with Some k => DevicePolicyKind_value k | None => dp_kind p end in
  let vids := default (dp_vids p) (vu_vids u) in
  let pids := default (dp_pids p) (vu_pids u) in
  let enabled := default (dp_enabled p) (vu_enabled u) in
  let name := default (dp_name p) (vu_name u) in
  let description := match vu_description u with Some d => Some d | None => dp_description p end in
  let same := bool_decide (kind = dp_kind p) && bool_decide (vids = dp_vids p) && bool_decide (pids = dp_pids p) &&
              Bool.eqb enabled (dp_enabled p) && String.eqb name (dp_name p) &&
              bool_decide (description = dp_description p) in
  mkDevicePolicy (dp_id p) (dp_group p) kind vids pids enabled name description
    (if same then dp_updated_at p else env_now E).

(** The audited [changes]. *)
Definition update_changes (u : DevicePolicyUpdate) : dict :=
  let entry {A} (k : str) (f : A → pyval) (o : option A) : dict :=
    match o with Some x => [(k, f x)] | None => [] end in
  entry "kind" (λ k, PStr (DevicePolicyKind_value k)) (vu_kind u) ++ entry "name" PStr (vu_name u) ++
  entry "description" PStr (vu_description u) ++
  entry "allowed_vendor_ids" (λ l, PList (map PStr l)) (vu_vids u) ++
  entry "allowed_product_ids" (λ l, PList (map PStr l)) (vu_pids u) ++ entry "enabled" PBool (vu_enabled u).

Definition update_policy (E : env) (pid : uuid) (body : DevicePolicyUpdate) (actor : Actor) (db : fleet_db) :
    py fleet_db :=
  if negb (is_admin actor) then Err (HTTPException 403)
  else
    payload ← check_update body;
    match List.find (λ p, dp_id p =? pid) (fl_devices db) with
    | None => Err (HTTPException 404)
    | Some policy =>
        dup ← match vu_name payload with
              | Some n =>
                  if String.eqb n (dp_name policy) then Ok None
                  else scalar_one_or_none
                         (List.filter (λ p, String.eqb (dp_name p) n && negb (dp_id p =? dp_id policy) &&
                                            bool_decide (dp_group p = dp_group policy)) (fl_devices db))
              | None => Ok None
              end;
        match dup with
        | Some _ => Err (HTTPException 409)
        | None =>
            let rows := map (λ p, if dp_id p =? pid then patched E payload p else p) (fl_devices db) in
            if negb (device_unique rows) then Err IntegrityError
            else
              let db := audited E actor "device_policy.update" "device_policy" (uuid_str pid)
                          (Some [("changes", PDict (update_changes payload))]) (set_devices rows db) in
              Ok (push_to_group E (dp_group policy) (Some (actor_user_id actor)) db).1
        end
    end.

Definition delete_policy (E : env) (pid : uuid) (actor : Actor) (db : fleet_db) : py fleet_db :=
  if negb (is_admin actor) then Err (HTTPException 403)
  else match List.find (λ p, dp_id p =? pid) (fl_devices db) with
  | None => Err (HTTPException 404)
  | Some policy =>
      let db := audited E actor "device_policy.delete" "device_policy" (uuid_str pid)
                  (Some [("name", PStr (dp_name policy)); ("kind", PStr (dp_kind policy));
                         ("host_group_id", opt_uuid_str (dp_group policy))])
                  (set_devices (List.filter (λ p, negb (dp_id p =? pid)) (fl_devices db)) db) in
      Ok (push_to_group E (dp_group policy) (Some (actor_user_id actor)) db).1
  end.

(** The listing, up to the order by name. *)
Definition list_policies (actor : Actor) (gid : option uuid) (db : fleet_db) : py (list DevicePolicy) :=
  _ ← require_analyst actor;
  Ok (List.filter (λ p, opt_ok (λ g, bool_decide (dp_group p = Some g)) gid) (fl_devices db)).

(** ** Which policy wins *)

(** A stable sort refines the order its input has. *)
Lemma insert_by_strong {A} (key : A → Z) (R : A → A → Prop) x l :
  StronglySorted (λ a b, key a < key b ∨ key a = key b ∧ R a b) l → (∀ y, y ∈ l → R x y) →
  StronglySorted (λ a b, key a < key b ∨ key a = key b ∧ R a b) (insert_by key x l).
Proof.
  induction 1 as [|y l Hs IH Hf]; intros Hx; [repeat constructor|]. simpl.
  destruct (Z.leb_spec (key x) (key y)) as [Hle|Hgt].
  - constructor; [by constructor|]. apply Forall_cons. split.
    + destruct (decide (key x = key y)); [right; split; [done|apply Hx; by left]|left; lia].
    + apply Forall_forall. intros z Hz. rewrite Forall_forall in Hf. specialize (Hf z Hz).
      destruct (decide (key x = key z)); [right; split; [done|apply Hx; by right]|left; lia].
  - constructor; [apply IH; set_solver|]. rewrite insert_by_perm. apply Forall_cons. split; [by left|done].
Qed.
Lemma sort_by_strong {A} (key : A → Z) (R : A → A → Prop) l :
  StronglySorted R l → StronglySorted (λ a b, key a < key b ∨ key a = key b ∧ R a b) (sort_by key l).
Proof.
  induction 1 as [|x l Hs IH Hf]; [constructor|]. simpl. apply insert_by_strong; [done|].
  intros y Hy. rewrite sort_by_perm in Hy. rewrite Forall_forall in Hf. auto.
Qed.

Lemma StronglySorted_weaken {A} (R S : A → A → Prop) l :
  (∀ x y, R x y → S x y) → StronglySorted R l → StronglySorted S l.
Proof. intros H. induction 1; constructor; [done|]. eapply Forall_impl; eauto. Qed.

(** [p] goes before [q]: enabled before disabled, then the later update. *)
Definition outranks (p q : DevicePolicy) : Prop :=
  (dp_enabled q = true → dp_enabled p = true) ∧
  (dp_enabled p = dp_enabled q → dp_updated_at q <= dp_updated_at p).

Lemma effective_sorted rows gids : StronglySorted outranks (effective_policies_for_host rows gids).
Proof.
  unfold effective_policies_for_host. set (l := List.filter _ rows).
  assert (StronglySorted (λ _ _, True) l) as Hl.
  { induction l; constructor; [done|]. by apply Forall_forall. }
  apply (sort_by_strong (λ p, - dp_updated_at p)) in Hl.
  apply (sort_by_strong (λ p, if dp_enabled p then 0 else 1)) in Hl.
  eapply StronglySorted_weaken; [|exact Hl]. clear. intros p q. unfold outranks.
  destruct (dp_enabled p), (dp_enabled q); intros; split; intros; try done; lia.
Qed.

Lemma first_per_kind_kind k seen l :
  List.filter (λ p, String.eqb (dp_kind p) k) (first_per_kind seen l) =
  if decide (k ∈ seen) then [] else take 1 (List.filter (λ p, String.eqb (dp_kind p) k) l).
Proof.
  revert seen. induction l as [|p l IH]; intros seen; simpl; [by destruct (decide _)|].
  case_bool_decide as Hs; simpl; rewrite IH; destruct (String.eqb_spec (dp_kind p) k) as [Hk|Hk].
  - subst. by rewrite !decide_True.
  - done.
  - subst. rewrite decide_True by set_solver. by rewrite decide_False.
  - destruct (decide (k ∈ seen)); [rewrite decide_True by set_solver|rewrite decide_False by set_solver]; done.
Qed.

(** The policy of a kind that a host is sent: it applies to the host, and outranks
    every other of the kind that does. *)
Lemma winning_kind db h k :
  match List.filter (λ p, String.eqb (dp_kind p) k) (winning db h) with
  | [] => ∀ q, q ∈ fl_devices db → dp_kind q = k → applies (groups_of (scope db) (host_id h)) (dp_group q) = false
  | [p] => p ∈ fl_devices db ∧ dp_kind p = k ∧ applies (groups_of (scope db) (host_id h)) (dp_group p) = true ∧
      ∀ q, q ∈ fl_devices db → dp_kind q = k → applies (groups_of (scope db) (host_id h)) (dp_group q) = true →
        q = p ∨ outranks p q
  | _ => False
  end.
Proof.
  unfold winning. rewrite first_per_kind_kind, decide_False by apply not_elem_of_nil.
  set (gids := groups_of _ _). set (l := effective_policies_for_host _ _).
  assert (∀ q, q ∈ l ↔ q ∈ fl_devices db ∧ applies gids (dp_group q) = true) as Hl.
  { intros q. unfold l, effective_policies_for_host. by rewrite !sort_by_perm, elem_of_filterb. }
  assert (StronglySorted outranks (List.filter (λ p, String.eqb (dp_kind p) k) l)) as Hs.
  { pose proof (effective_sorted (fl_devices db) gids) as Hs. fold l in Hs. clear Hl.
    induction Hs as [|p l' Hs IH Hf]; simpl; [constructor|]. destruct (String.eqb _ _); [|done].
    constructor; [done|]. rewrite Forall_forall in *. intros q [Hq _]%elem_of_filterb. auto. }
  assert (∀ q, q ∈ List.filter (λ p, String.eqb (dp_kind p) k) l ↔
    q ∈ fl_devices db ∧ applies gids (dp_group q) = true ∧ dp_kind q = k) as Hf.
  { intros q. rewrite elem_of_filterb, Hl, String.eqb_eq. naive_solver. }
  destruct (List.filter _ l) as [|p l']; simpl.
  - intros q Hq Hk. apply not_true_iff_false. intros Ha. by apply (not_elem_of_nil q), Hf.
  - destruct (proj1 (Hf p) ltac:(by left)) as (? & ? & ?). split_and!; try done.
    intros q Hq Hk Ha. inversion Hs as [|? ? _ Hall]; subst. rewrite Forall_forall in Hall.
    assert (q ∈ p :: l') as [->|Hq']%elem_of_cons by (by apply Hf); [by left|right; auto].
Qed.

(** ** What the agent holds *)

Definition device_carries (k : str) (d : dict) (v : bool * list str * list str) : Prop :=
  nonempty k = true ∧
  ∃ p, d = payload_for p ∧ dp_kind p = k ∧ v = (dp_enabled p, dp_vids p, dp_pids p) ∧
    Forall (λ s, nonempty s = true) (dp_vids p) ∧ Forall (λ s, nonempty s = true) (dp_pids p).
Definition device_about (k : str) (d : dict) : bool :=
  match dict_get "kind" d with Some (PStr s) => String.eqb s k | _ => false end.
Definition device_read (k : str) (pb : pb_command) : option (bool * list str * list str) :=
  match pb with
  | PbDeviceControlSync kind enabled vids pids => if String.eqb kind k then Some (enabled, vids, pids) else None
  | _ => None
  end.
Lemma device_selected k d v : device_carries k d v → device_about k d = true.
Proof. intros (_ & p & -> & <- & _). apply String.eqb_refl. Qed.
Lemma device_read_back k c v :
  cmd_kind c = DEVICE_CONTROL_SYNC → device_carries k (cmd_payload c) v →
  ∃ pb, command_to_pb c = Ok (Some pb) ∧ device_read k pb = Some v.
Proof.
  intros Hk (Hne & p & Hp & Hpk & -> & Hv & Hq). exists (PbDeviceControlSync k (dp_enabled p) (dp_vids p) (dp_pids p)).
  split; [|simpl; by rewrite String.eqb_refl]. unfold command_to_pb. rewrite Hk, Hp, <- Hpk in *.
  rewrite (str_or_empty_get _ _ (dp_kind p)), Hne by done. cbn [negb].
  rewrite (items_of_get "allowed_vids" _ (map PStr (dp_vids p))) by done.
  rewrite (items_of_get "allowed_pids" _ (map PStr (dp_pids p))) by done.
  cbn [mbind res_bind]. rewrite !nonempty_strs_PStr by done. simpl. by destruct (dp_enabled p).
Qed.

(** One view per kind of policy. *)
Definition device_wire (k : str) : WireSync (bool * list str * list str) := {|
  wire_kind := DEVICE_CONTROL_SYNC;
  wire_about := device_about k;
  wire_carries := device_carries k;
  wire_read := device_read k;
  wire_selected := device_selected k;
  wire_read_back := device_read_back k
|}.
Definition device_view (k : str) (hid : uuid) (cmds : list Command) : option (bool * list str * list str) :=
  @agent_view _ (device_wire k) hid cmds.

Definition sync_items (db : fleet_db) (h : Host) : list (uuid * CommandKind * dict) :=
  map (λ p, (host_id h, DEVICE_CONTROL_SYNC, payload_for p)) (winning db h).

Lemma device_host_told E user h ps db :
  let db' := fold_left (λ db p, add_command E DEFAULT_TENANT_ID (host_id h) DEVICE_CONTROL_SYNC (payload_for p) user db)
               ps db in
  fl_devices db' = fl_devices db ∧ scope db' = scope db ∧
  ∃ new, commands db' = commands db ++ new ∧
    map told new = map (λ p, (host_id h, DEVICE_CONTROL_SYNC, payload_for p)) ps.
Proof.
  revert db. induction ps as [|p ps IH]; intros db; cbn zeta;
    [split_and!; try done; exists []; simpl; by rewrite app_nil_r|].
  cbn [fold_left]. destruct (IH (add_command E DEFAULT_TENANT_ID (host_id h) DEVICE_CONTROL_SYNC (payload_for p) user db))
    as (Hd & Hs & new & Hc & Ht).
  split; [by rewrite Hd|]. split; [by rewrite Hs|]. eexists (_ :: new). rewrite Hc.
  split; [unfold commands; simpl; rewrite <- app_assoc; reflexivity|]. cbn [map]. by rewrite Ht.
Qed.

Lemma device_push_told E user hosts db :
  let db' := fold_left (push_to_host E user) hosts db in
  fl_devices db' = fl_devices db ∧ scope db' = scope db ∧
  ∃ new, commands db' = commands db ++ new ∧ map told new = flat_map (sync_items db) hosts.
Proof.
  revert db. induction hosts as [|h hosts IH]; intros db; cbn zeta;
    [split_and!; try done; exists []; simpl; by rewrite app_nil_r|].
  cbn [fold_left]. destruct (device_host_told E user h (winning db h) db) as (Hd1 & Hs1 & new1 & Hc1 & Ht1).
  fold (push_to_host E user db h) in Hd1, Hs1, Hc1.
  destruct (IH (push_to_host E user db h)) as (Hd & Hs & new & Hc & Ht).
  split; [by rewrite Hd|]. split; [by rewrite Hs|]. exists (new1 ++ new). rewrite Hc, Hc1, <- app_assoc. split; [done|].
  rewrite map_app, Ht1, Ht. cbn [flat_map]. f_equal. unfold sync_items, winning. by rewrite Hd1, Hs1.
Qed.

Lemma concerns_items k db h :
  List.filter (@concerns _ (device_wire k) (host_id h)) (sync_items db h) =
  map (λ p, (host_id h, DEVICE_CONTROL_SYNC, payload_for p)) (List.filter (λ p, String.eqb (dp_kind p) k) (winning db h)).
Proof.
  unfold sync_items. induction (winning db h) as [|p l IH]; [done|]. cbn [map List.filter]. rewrite IH.
  unfold concerns. cbn [fst snd]. rewrite Z.eqb_refl. simpl. unfold device_about. simpl. by destruct (String.eqb _ _).
Qed.

(** The rows the routes write: a kind, and ids that are not empty. *)
Definition row_ok (p : DevicePolicy) : Prop :=
  nonempty (dp_kind p) = true ∧ Forall (λ s, nonempty s = true) (dp_vids p) ∧
  Forall (λ s, nonempty s = true) (dp_pids p).

(** What a push leaves a host it reaches with. *)
Lemma device_push_view E user gid db h k :
  hosts_ok (scope db) → (∀ p, p ∈ fl_devices db → row_ok p) →
  h ∈ sc_hosts (scope db) → in_edit_scope (scope db) gid h = true →
  device_view k (host_id h) (commands (push_to_group E gid user db).1) =
  match List.filter (λ p, String.eqb (dp_kind p) k) (winning db h) with
  | [] => device_view k (host_id h) (commands db)
  | p :: _ => Some (dp_enabled p, dp_vids p, dp_pids p)
  end.
Proof.
  intros Hok Hrows Hin He. unfold push_to_group. cbn [fst].
  destruct (device_push_told E user (hosts_in_scope (scope db) gid) db) as (_ & _ & new & Hc & Ht). rewrite Hc.
  assert (NoDup (map host_id (hosts_in_scope (scope db) gid))) as Hnd by (by apply NoDup_map_filterb).
  assert (h ∈ hosts_in_scope (scope db) gid) as Hh by (by apply elem_of_filterb).
  assert (∀ x t, t ∈ sync_items db x → t.1.1 = host_id x) as Hown
    by (intros x t (p & -> & _)%list_elem_of_fmap; done).
  pose proof (winning_kind db h k) as Hw. pose proof (concerns_items k db h) as Hci.
  destruct (List.filter (λ p, String.eqb (dp_kind p) k) (winning db h)) as [|p [|? ?]]; [| |done].
  - apply (@fan_out_other _ (device_wire k) _ _ _ _ _ Ht Hown). intros x Hx Hid.
    assert (x = h) as -> by (by apply (NoDup_key_inj host_id (hosts_in_scope (scope db) gid))). done.
  - destruct Hw as (Hp & Hk & _). destruct (Hrows p Hp) as (? & ? & ?). unfold device_view.
    apply (@fan_out_view _ (device_wire k) (sync_items db) _ (map told (commands db)) (hosts_in_scope (scope db) gid) h
      DEVICE_CONTROL_SYNC (payload_for p)); try done.
    + by rewrite map_app, Ht.
    + by rewrite Hci.
    + subst k. split; [done|]. by exists p.
Qed.

Inductive dev_op :=
| VCreate (body : DevicePolicyCreate)
| VUpdate (pid : uuid) (body : DevicePolicyUpdate)
| VDelete (pid : uuid).
Definition run_dev_op (E : env) (op : dev_op) (actor : Actor) (db : fleet_db) : py fleet_db :=
  match op with
  | VCreate b => create_policy E b actor db
  | VUpdate pid b => update_policy E pid b actor db
  | VDelete pid => delete_policy E pid actor db
  end.
(** The scope of the edited policy. *)
Definition edited_group (op : dev_op) (db : fleet_db) : option uuid :=
  match op with
  | VCreate b => vc_group b
  | VUpdate pid _ | VDelete pid =>
      match List.find (λ p, dp_id p =? pid) (fl_devices db) with Some p => dp_group p | None => None end
  end.

Lemma normalise_id_nonempty v w : normalise_id v = Some w → nonempty w = true.
Proof.
  unfold normalise_id. destruct (_ && _) eqn:H; [|done]. intros [= <-].
  apply andb_true_iff in H as [H%Nat.eqb_eq _]. by destruct (removeprefix _ _).
Qed.
Lemma normalise_ids_nonempty l l' : normalise_ids l = Some l' → Forall (λ s, nonempty s = true) l'.
Proof. intros H%mapM_Some. induction H; constructor; eauto using normalise_id_nonempty. Qed.

Lemma device_create_ok b p :
  check_create b = Ok p → vc_group p = vc_group b ∧
  Forall (λ s, nonempty s = true) (vc_vids p) ∧ Forall (λ s, nonempty s = true) (vc_pids p).
Proof.
  unfold check_create. destruct (normalise_ids (vc_vids b)) eqn:Hv; [|done]. destruct (normalise_ids (vc_pids b)) eqn:Hp; [|done].
  destruct (_ && _ && _ && _); [|done]. intros [= <-]. simpl. eauto using normalise_ids_nonempty.
Qed.
Lemma check_update_ok b u :
  check_update b = Ok u → (∀ l, vu_vids u = Some l → Forall (λ s, nonempty s = true) l) ∧
  (∀ l, vu_pids u = Some l → Forall (λ s, nonempty s = true) l).
Proof.
  assert (∀ o o', normalise_opt o = Some o' → ∀ l, o' = Some l → Forall (λ s, nonempty s = true) l) as Ho.
  { intros [l0|] o'; simpl; [|congruence]. destruct (normalise_ids l0) eqn:Hn; simpl; [|done].
    intros [= <-] l1 [= <-]. eauto using normalise_ids_nonempty. }
  unfold check_update. destruct (normalise_opt (vu_vids b)) eqn:Hv; [|done]. destruct (normalise_opt (vu_pids b)) eqn:Hp; [|done].
  destruct (_ && _ && _ && _); [|done]. intros [= <-]. simpl. eauto.
Qed.
Lemma patched_ok E b u p : check_update b = Ok u → row_ok p → row_ok (patched E u p).
Proof.
  intros [Hv Hp]%check_update_ok (H1 & H2 & H3). unfold patched, row_ok. simpl. split_and!.
  - destruct (vu_kind u) as [[]|]; done.
  - destruct (vu_vids u); simpl; eauto.
  - destruct (vu_pids u); simpl; eauto.
Qed.

(** Each route changes the table, then pushes to the scope of the policy. *)
Lemma dev_op_pushes E op actor db db' :
  (∀ p, p ∈ fl_devices db → row_ok p) → run_dev_op E op actor db = Ok db' →
  ∃ db1, db' = (push_to_group E (edited_group op db) (Some (actor_user_id actor)) db1).1 ∧
    scope db1 = scope db ∧ commands db1 = commands db ∧ (∀ p, p ∈ fl_devices db1 → row_ok p) ∧
    match op with VDelete pid => fl_devices db1 = List.filter (λ p, negb (dp_id p =? pid)) (fl_devices db) | _ => True end.
Proof.
  intros Hrows. destruct op as [b|pid b|pid]; simpl;
    [unfold create_policy|unfold update_policy|unfold delete_policy]; destruct (negb (is_admin actor)); try done.
  - destruct (check_create b) as [p|] eqn:Hb; cbn [mbind res_bind]; [|done]. apply device_create_ok in Hb as (Hg & Hv & Hp).
    destruct (scalar_one_or_none _) as [[x|]|]; cbn [mbind res_bind]; [done| |done].
    destruct (_ || _); [done|]. intros [= <-]. eexists. rewrite <- Hg. split; [reflexivity|]. split_and!; try done.
    intros q [Hq| ->%list_elem_of_singleton]%elem_of_app; [by apply Hrows|]. split; [|done]. by destruct (vc_kind p).
  - destruct (check_update b) as [u|] eqn:Hb; cbn [mbind res_bind]; [|done].
    destruct (List.find _ _) as [p|] eqn:Hf; [|done].
    match goal with |- context [mbind _ ?m] => destruct m as [[x|]|] end; cbn [mbind res_bind]; [done| |done].
    destruct (negb _); [done|]. intros [= <-]. eexists. split; [reflexivity|]. split_and!; try done.
    intros q (x & -> & Hx)%list_elem_of_fmap. destruct (dp_id x =? pid); [|by apply Hrows]. eapply patched_ok; eauto.
  - destruct (List.find _ _) as [p|] eqn:Hf; [|done]. intros [= <-]. eexists. split; [reflexivity|]. split_and!; try done.
    intros q [Hq _]%elem_of_filterb. by apply Hrows.
Qed.

Lemma push_group_rows E gid user db :
  fl_devices (push_to_group E gid user db).1 = fl_devices db ∧ scope (push_to_group E gid user db).1 = scope db.
Proof.
  unfold push_to_group. cbn [fst]. destruct (device_push_told E user (hosts_in_scope (scope db) gid) db) as (? & ? & _). done.
Qed.

(** After a policy is created, changed or deleted, each live host in its scope
    holds, of every kind some policy of which applies to it, the winning one: an
    enabled one if there is any, the most recently updated of those. *)
Theorem device_policy_in_force E op actor db db' h k q :
  hosts_ok (scope db) → (∀ p, p ∈ fl_devices db → row_ok p) →
  run_dev_op E op actor db = Ok db' →
  h ∈ sc_hosts (scope db) → in_edit_scope (scope db) (edited_group op db) h = true →
  q ∈ fl_devices db' → dp_kind q = k → applies (groups_of (scope db) (host_id h)) (dp_group q) = true →
  ∃ p, device_view k (host_id h) (commands db') = Some (dp_enabled p, dp_vids p, dp_pids p) ∧
    p ∈ fl_devices db' ∧ dp_kind p = k ∧ applies (groups_of (scope db) (host_id h)) (dp_group p) = true ∧
    (q = p ∨ outranks p q).
Proof.
  intros Hok Hrows H Hh He Hq Hk Ha. destruct (dev_op_pushes E op actor db db' Hrows H) as (db1 & -> & Hs & Hc & Hr & _).
  destruct (push_group_rows E (edited_group op db) (Some (actor_user_id actor)) db1) as [Hd _]. rewrite Hd in *.
  rewrite device_push_view by (by rewrite ?Hs). pose proof (winning_kind db1 h k) as Hw. rewrite Hs in Hw.
  destruct (List.filter _ (winning db1 h)) as [|p [|? ?]]; [| |done].
  - rewrite (Hw q Hq Hk) in Ha. done.
  - destruct Hw as (? & ? & ? & Hbest). exists p. split_and!; eauto.
Qed.

(** Deleting a policy lifts nothing on the hosts it was the last one of its
    kind for: they hear no more of the kind and keep what they hold, where
    disabling it would have told them. *)
Theorem deleted_policy_stays E pid actor db db' policy h :
  hosts_ok (scope db) → (∀ p, p ∈ fl_devices db → row_ok p) →
  List.find (λ p, dp_id p =? pid) (fl_devices db) = Some policy →
  delete_policy E pid actor db = Ok db' →
  h ∈ sc_hosts (scope db) →
  (∀ q, q ∈ fl_devices db → dp_kind q = dp_kind policy → dp_id q ≠ pid →
     applies (groups_of (scope db) (host_id h)) (dp_group q) = false) →
  in_edit_scope (scope db) (dp_group policy) h = true →
  device_view (dp_kind policy) (host_id h) (commands db') = device_view (dp_kind policy) (host_id h) (commands db).
Proof.
  intros Hok Hrows Hf H Hh Hlast He.
  destruct (dev_op_pushes E (VDelete pid) actor db db' Hrows H) as (db1 & -> & Hs & Hc & Hr & Hd).
  cbn [edited_group]. rewrite Hf, device_push_view by (by rewrite ?Hs). rewrite Hc. pose proof (winning_kind db1 h (dp_kind policy)) as Hw.
  destruct (List.filter _ (winning db1 h)) as [|p [|? ?]]; [done| |done]. exfalso.
  destruct Hw as (Hp & Hk & Ha & _). rewrite Hd in Hp. apply elem_of_filterb in Hp as [Hp Hne].
  rewrite Hs, (Hlast p) in Ha; try done. rewrite negb_true_iff in Hne. by apply Z.eqb_neq in Hne.
Qed.

(** ** Examples *)

Definition demo_usb (kind : DevicePolicyKind) (gid : option uuid) : DevicePolicyCreate :=
  mkDeviceCreate gid kind "no sticks" None [" 0x0781"] ["5567"] true.
Definition demo_usb_row : DevicePolicy :=
  mkDevicePolicy 0 (Some 50) "usb_block" ["0781"] ["5567"] true "no sticks" None 1700000000000000.
Definition demo_usb_db : py fleet_db := create_policy demo_env (demo_usb USB_BLOCK (Some 50)) (demo_admin 1) demo_fleet.

Lemma demo_usb_rows db : demo_usb_db = Ok db → scope db = scope demo_fleet ∧ fl_devices db = [demo_usb_row].
Proof. intros H. vm_compute in H. injection H as <-. split; reflexivity. Qed.

Lemma device_policy_in_force_witness :
  ∃ db, demo_usb_db = Ok db ∧ ∃ p, device_view "usb_block" 100 (commands db) = Some (dp_enabled p, dp_vids p, dp_pids p) ∧
    (demo_usb_row = p ∨ outranks p demo_usb_row).
Proof.
  destruct demo_usb_db as [db|] eqn:H; [|vm_compute in H; discriminate H]. exists db. split; [reflexivity|].
  destruct (demo_usb_rows db H) as [Hs Hd].
  destruct (device_policy_in_force demo_env (VCreate (demo_usb USB_BLOCK (Some 50))) (demo_admin 1) demo_fleet db
              (demo_host 100 1) "usb_block" demo_usb_row) as (p & Hv & _ & _ & _ & Hr); try reflexivity.
  - exact demo_scope_ok.
  - intros p Hp. by apply elem_of_nil in Hp.
  - exact H.
  - left.
  - rewrite Hd. left.
  - exists p. split; [exact Hv|exact Hr].
Defined.

Lemma deleted_policy_stays_witness :
  ∃ db db', demo_usb_db = Ok db ∧ delete_policy demo_env 0 (demo_admin 1) db = Ok db' ∧
    device_view "usb_block" 100 (commands db') = device_view "usb_block" 100 (commands db).
Proof.
  destruct demo_usb_db as [db|] eqn:H; [|vm_compute in H; discriminate H]. destruct (demo_usb_rows db H) as [Hs Hd].
  destruct (delete_policy demo_env 0 (demo_admin 1) db) as [db'|] eqn:Hdel.
  2: { unfold delete_policy in Hdel. rewrite Hd in Hdel. simpl in Hdel. discriminate Hdel. }
  exists db, db'. split; [reflexivity|]. split; [exact Hdel|].
  apply (deleted_policy_stays demo_env 0 (demo_admin 1) db db' demo_usb_row (demo_host 100 1)).
  - rewrite Hs. exact demo_scope_ok.
  - rewrite Hd. intros p Hp. apply list_elem_of_singleton in Hp as ->. split; [reflexivity|]. split; repeat constructor.
  - rewrite Hd. reflexivity.
  - exact Hdel.
  - rewrite Hs. left.
  - rewrite Hd. intros q Hq _ Hne. apply list_elem_of_singleton in Hq as ->. by destruct Hne.
  - rewrite Hs. reflexivity.
Defined.
