(* ===== verification/Allowlist.v ===== *)
(** * Allowlist: the application allowlist of a host group

    schemas/allowlist.py, services/allowlist.py, api/allowlist.py and the learner
    of workers/allowlist_learner.py.  A group is off, learns the binaries its hosts
    start, or enforces its list; each change of the operator's sends the whole list
    to the hosts of the group. *)

From Stdlib Require Import Ascii String.
From S2P Require Import Prelude PyStr PyVal PyTime Crypto PyText Models AuditChain Rollout Scoping Jobs Commands Fleet.
Local Open Scope string_scope.
Local Open Scope list_scope.
Local Open Scope Z_scope.

#[global] Instance AllowlistMode_eq_dec : EqDecision AllowlistMode.
Proof. solve_decision. Defined.

Definition AllowlistMode_value (m : AllowlistMode) : str :=
  match m with AM_OFF => "off" | AM_LEARN => "learn" | AM_ENFORCE => "enforce" end.

(** [_normalize_sha256]; [None] is the [ValueError]. *)
Definition normalize_sha256 (value : str) : option str :=
  let v := lower (strip value) in
  if negb (String.length v =? 64)%nat then None
  else match fromhex v with Some _ => Some v | None => None end.

Record AllowlistEntryCreate := mkAllowCreate {
  ac_sha256 : str;
  ac_exec_path : option str;
  ac_publisher : option str
}.
Definition check_entry (b : AllowlistEntryCreate) : py AllowlistEntryCreate :=
  if negb (text_ok 64 64 (ac_sha256 b)) then Err (HTTPException 422)
  else match normalize_sha256 (ac_sha256 b) with
       | Some v => Ok (mkAllowCreate v (ac_exec_path b) (ac_publisher b))
       | None => Err (HTTPException 422)
       end.

(** ** The service *)

Definition mode_row (db : fleet_db) (gid : uuid) : option AllowlistModeRow :=
  List.find (λ m, am_group m =? gid) (fl_modes db).
Definition current_mode (db : fleet_db) (gid : uuid) : AllowlistMode :=
  match mode_row db gid with
  | None => AM_OFF
  | Some row =>
      if String.eqb (am_mode row) "learn" then AM_LEARN
      else if String.eqb (am_mode row) "enforce" then AM_ENFORCE else AM_OFF
  end.

Definition list_entries_for_group (db : fleet_db) (gid : uuid) : list AllowlistEntry :=
  sort_by aw_created_at (List.filter (λ e, aw_group e =? gid) (fl_allow db)).

Definition has_key (gid : uuid) (sha : str) (e : AllowlistEntry) : bool :=
  (aw_group e =? gid) && String.eqb (aw_sha256 e) sha.
(** [x if x is not None else y], for a column filled only when it is empty and the
    new value is not. *)
Definition fill (old new : option str) : option str :=
  match old with
  | Some _ => old
  | None => match new with Some s => if nonempty s then new else None | None => None end
  end.
Definition observe_again (now : datetime) (exec_path publisher : option str) (e : AllowlistEntry) : AllowlistEntry :=
  mkAllowEntry (aw_id e) (aw_group e) (aw_sha256 e) (fill (aw_exec_path e) exec_path)
    (fill (aw_publisher e) publisher) (aw_first_seen e) (Some now) (aw_learned e) (aw_manual e) (aw_created_by e)
    (aw_created_at e).

Definition record_observed_hash (E : env) (gid : uuid) (sha256 : str) (exec_path publisher : option str)
    (db : fleet_db) : py fleet_db :=
  let norm := lower (strip sha256) in
  if negb (String.length norm =? 64)%nat then Err ValueError
  else
    let now := env_now E in
    existing ← scalar_one_or_none (List.filter (has_key gid norm) (fl_allow db));
    match existing with
    | Some e =>
        Ok (set_allow (map (λ x, if has_key gid norm x then observe_again now exec_path publisher x else x) (fl_allow db)) db)
    | None =>
        Ok (set_allow (fl_allow db ++ [mkAllowEntry (env_uuid4 E (length (fl_allow db))) gid norm exec_path publisher
                                         (Some now) (Some now) true false None now]) db)
    end.

(** Every member of the group, the decommissioned included. *)
Definition group_hosts (s : scope_db) (gid : uuid) : list Host :=
  List.filter (λ h, member s (host_id h) gid) (sc_hosts s).
Definition allowlist_payload (mode : AllowlistMode) (hashes : list str) : dict :=
  [("mode", PStr (AllowlistMode_value mode)); ("hashes", PList (map PStr hashes))].
Definition push_allowlist_to_agent (E : env) (gid : uuid) (user : option uuid) (db : fleet_db) : fleet_db * Z :=
  let payload := allowlist_payload (current_mode db gid) (map aw_sha256 (list_entries_for_group db gid)) in
  let hosts := group_hosts (scope db) gid in
  (fold_left (λ db h, add_command E DEFAULT_TENANT_ID (host_id h) ALLOWLIST_SYNC payload user db) hosts db,
   Z.of_nat (length hosts)).

Definition upsert_mode (E : env) (gid : uuid) (mode : AllowlistMode) (user : option uuid) (db : fleet_db) : fleet_db :=
  let now := env_now E in
  let enabled_at := if bool_decide (mode = AM_OFF) then None else Some now in
  let learn := bool_decide (mode = AM_LEARN) in
  let enforce := bool_decide (mode = AM_ENFORCE) in
  match mode_row db gid with
  | None =>
      set_modes (fl_modes db ++ [mkModeRow gid (AllowlistMode_value mode) enabled_at
                                   (if learn then Some now else None) (if enforce then Some now else None) user]) db
  | Some _ =>
      set_modes (map (λ m, if am_group m =? gid
                           then mkModeRow gid (AllowlistMode_value mode) enabled_at
                                  (if learn then Some now else am_learn_started_at m)
                                  (if enforce then Some now else am_learn_completed_at m) user
                           else m) (fl_modes db)) db
  end.

(** ** The routes *)

Definition update_mode (E : env) (gid : uuid) (mode : AllowlistMode) (actor : Actor) (db : fleet_db) : py fleet_db :=
  if negb (is_admin actor) then Err (HTTPException 403)
  else
    _ ← load_in_tenant db gid actor;
    let db := upsert_mode E gid mode (Some (actor_user_id actor)) db in
    let '(db, queued) := push_allowlist_to_agent E gid (Some (actor_user_id actor)) db in
    Ok (audited E actor "allowlist.mode.set" "host_group" (uuid_str gid)
          (Some [("mode", PStr (AllowlistMode_value mode)); ("commands_queued", PInt queued)]) db).

(** [if payload.x: existing.x = payload.x] *)
Definition overwrite (old new : option str) : option str :=
  match new with Some s => if nonempty s then new else old | None => old end.
Definition pin (p : AllowlistEntryCreate) (actor : Actor) (e : AllowlistEntry) : AllowlistEntry :=
  mkAllowEntry (aw_id e) (aw_group e) (aw_sha256 e) (overwrite (aw_exec_path e) (ac_exec_path p))
    (overwrite (aw_publisher e) (ac_publisher p)) (aw_first_seen e) (aw_last_seen e) (aw_learned e) true
    (match aw_created_by e with Some u => Some u | None => Some (actor_user_id actor) end) (aw_created_at e).

Definition create_entry (E : env) (gid : uuid) (body : AllowlistEntryCreate) (actor : Actor) (db : fleet_db) :
    py fleet_db :=
  if negb (is_admin actor) then Err (HTTPException 403)
  else
    payload ← check_entry body;
    _ ← load_in_tenant db gid actor;
    existing ← scalar_one_or_none (List.filter (has_key gid (ac_sha256 payload)) (fl_allow db));
    let '(row_id, db) :=
      match existing with
      | Some e =>
          (aw_id e, set_allow (map (λ x, if has_key gid (ac_sha256 payload) x then pin payload actor x else x)
                                 (fl_allow db)) db)
      | None =>
          let rid := env_uuid4 E (length (fl_allow db)) in
          (rid, set_allow (fl_allow db ++ [mkAllowEntry rid gid (ac_sha256 payload) (ac_exec_path payload)
                                             (ac_publisher payload) None None false true
                                             (Some (actor_user_id actor)) (env_now E)]) db)
      end in
    let '(db, queued) := push_allowlist_to_agent E gid (Some (actor_user_id actor)) db in
    Ok (audited E actor "allowlist.entry.create" "allowlist_entry" (uuid_str row_id)
          (Some [("host_group_id", PStr (uuid_str gid)); ("sha256", PStr (ac_sha256 payload));
                 ("commands_queued", PInt queued)]) db).

Definition delete_entry (E : env) (gid eid : uuid) (actor : Actor) (db : fleet_db) : py fleet_db :=
  if negb (is_admin actor) then Err (HTTPException 403)
  else
    _ ← load_in_tenant db gid actor;
    match List.find (λ e, aw_id e =? eid) (fl_allow db) with
    | None => Err (HTTPException 404)
    | Some row =>
        if negb (aw_group row =? gid) then Err (HTTPException 404)
        else if bool_decide (current_mode db gid = AM_ENFORCE) &&
                (length (List.filter (λ e, (aw_group e =? gid)%Z) (fl_allow db)) <=? 1)%nat
        then Err (HTTPException 400)
        else
          let db := set_allow (List.filter (λ e, negb (aw_id e =? eid)) (fl_allow db)) db in
          let '(db, queued) := push_allowlist_to_agent E gid (Some (actor_user_id actor)) db in
          Ok (audited E actor "allowlist.entry.delete" "allowlist_entry" (uuid_str eid)
                (Some [("host_group_id", PStr (uuid_str gid)); ("sha256", PStr (aw_sha256 row));
                       ("commands_queued", PInt queued)]) db)
    end.

(** ** The learner *)

Record Observation := mkObservation { ob_host_id : uuid; ob_sha256 : str; ob_exec_path : option str }.

(** [deque(maxlen=10_000)] *)
Definition PENDING_MAX : nat := 10000.
Definition deque_append {A} (n : nat) (q : list A) (x : A) : list A :=
  drop (length (q ++ [x]) - n) (q ++ [x]).

Definition stage_observation (pending : list Observation) (host : uuid) (sha256 : str) (exec_path : option str) :
    list Observation :=
  if negb (nonempty sha256) then pending
  else
    let norm := lower (strip sha256) in
    if negb (String.length norm =? 64)%nat then pending
    else deque_append PENDING_MAX pending (mkObservation host norm exec_path).

(** [VIGIL_ALLOWLIST_LEARNER_INTERVAL_S] *)
Definition interval_seconds (raw : option str) : Z :=
  match py_int (default "30" raw) with Some n => Z.max 5 n | None => 30 end.

Definition in_learn_mode (db : fleet_db) (gid : uuid) : bool :=
  existsb (λ m, (am_group m =? gid) && String.eqb (am_mode m) (AllowlistMode_value AM_LEARN)) (fl_modes db).
(** The join of the members and the mode rows, grouped by host. *)
Definition hosts_in_learn_mode (db : fleet_db) : list (uuid * uuid) :=
  List.filter (λ p, in_learn_mode db p.2) (sc_host_in_group (scope db)).
Definition learn_groups (db : fleet_db) (hid : uuid) : list uuid :=
  map snd (List.filter (λ p, p.1 =? hid) (hosts_in_learn_mode db)).

(** The groups of one observation. *)
Fixpoint persist_groups (E : env) (ob : Observation) (gids : list uuid) (seen : list (uuid * str)) (recorded : Z)
    (db : fleet_db) : py (list (uuid * str) * Z * fleet_db) :=
  match gids with
  | [] => Ok (seen, recorded, db)
  | gid :: gids =>
      if bool_decide ((gid, ob_sha256 ob) ∈ seen) then persist_groups E ob gids seen recorded db
      else
        db ← record_observed_hash E gid (ob_sha256 ob) (ob_exec_path ob) None db;
        persist_groups E ob gids ((gid, ob_sha256 ob) :: seen) (recorded + 1) db
  end.
Fixpoint persist_loop (E : env) (groups : uuid → list uuid) (obs : list Observation) (seen : list (uuid * str))
    (recorded skipped : Z) (db : fleet_db) : py (fleet_db * Z * Z) :=
  match obs with
  | [] => Ok (db, recorded, skipped)
  | ob :: obs =>
      match groups (ob_host_id ob) with
      | [] => persist_loop E groups obs seen recorded (skipped + 1) db
      | gids =>
          r ← persist_groups E ob gids seen recorded db;
          let '(seen, recorded, db) := r in
          persist_loop E groups obs seen recorded skipped db
      end
  end.
Definition persist_batch (E : env) (obs : list Observation) (db : fleet_db) : py (fleet_db * Z * Z) :=
  match hosts_in_learn_mode db with
  | [] => Ok (db, 0, Z.of_nat (length obs))
  | _ => persist_loop E (learn_groups db) obs [] 0 0 db
  end.

(** One tick: what is pending is drained, then written; an error writes nothing
    (and what was drained is gone). *)
Definition learner_run_once (E : env) (pending : list Observation) (db : fleet_db) :
    list Observation * py (fleet_db * Z) :=
  ([], match pending with
       | [] => Ok (db, 0)
       | _ => r ← persist_batch E pending db; Ok (r.1.1, r.1.2)
       end).

(** ** What the agents hold *)

Lemma fromhex_hex2 c s : fromhex (hex2 c +:+ s) = String c <$> fromhex s.
Proof.
  assert (∀ c, match hex2 c with
    | String x (String y EmptyString) =>
        is_ascii_space x = false ∧ (∃ a b, hex_value x = Some a ∧ hex_value y = Some b ∧ ascii_of_N (Z.to_N (16 * a + b)) = c)
    | _ => False end) as H.
  { intros [[] [] [] [] [] [] [] []]; (split; [reflexivity|]; do 2 eexists; split_and!; reflexivity). }
  specialize (H c). destruct (hex2 c) as [|x [|y [|z r]]]; try done. destruct H as (Hs & a & b & Ha & Hb & Hc).
  simpl. by rewrite Hs, Ha, Hb, Hc.
Qed.
Lemma fromhex_hexdigest b : fromhex (hexdigest b) = Some b.
Proof.
  unfold hexdigest. induction b as [|c b IH]; [done|]. cbn [string_flat_map]. by rewrite fromhex_hex2, IH.
Qed.
Lemma length_hexdigest b : String.length (hexdigest b) = (2 * String.length b)%nat.
Proof.
  unfold hexdigest. induction b as [|c b IH]; [done|]. cbn [string_flat_map]. rewrite append_length, IH.
  assert (String.length (hex2 c) = 2%nat) as -> by (by destruct c as [[] [] [] [] [] [] [] []]). simpl. lia.
Qed.

Definition decoded (hashes : list str) : list bytes := omap (λ h, hash_bytes (PStr h)) hashes.
Definition allowlist_carries (d : dict) (v : AllowlistMode * list bytes) : Prop :=
  ∃ hashes, d = allowlist_payload v.1 hashes ∧ v.2 = decoded hashes.
Definition allowlist_read (pb : pb_command) : option (AllowlistMode * list bytes) :=
  match pb with PbAllowlistSync m hs => Some (m, hs) | _ => None end.
Lemma allowlist_read_back c v :
  cmd_kind c = ALLOWLIST_SYNC → allowlist_carries (cmd_payload c) v →
  ∃ pb, command_to_pb c = Ok (Some pb) ∧ allowlist_read pb = Some v.
Proof.
  destruct v as [m bs]. intros Hk (hashes & Hp & Hb). cbn [fst snd] in *. exists (PbAllowlistSync m bs).
  split; [|done]. unfold command_to_pb. rewrite Hk, Hp.
  rewrite (items_of_get "hashes" _ (map PStr hashes)) by done. cbn [mbind res_bind].
  assert (omap hash_bytes (map PStr hashes) = bs) as ->.
  { rewrite Hb. unfold decoded. clear. induction hashes as [|h l IH]; [done|]. cbn. by rewrite IH. }
  by destruct m.
Qed.
#[global] Instance allowlist_wire : WireSync (AllowlistMode * list bytes) := {|
  wire_kind := ALLOWLIST_SYNC;
  wire_about _ := true;
  wire_carries := allowlist_carries;
  wire_read := allowlist_read;
  wire_selected _ _ _ := eq_refl;
  wire_read_back := allowlist_read_back
|}.

Lemma push_told E user payload hosts db :
  let db' := fold_left (λ db h, add_command E DEFAULT_TENANT_ID (host_id h) ALLOWLIST_SYNC payload user db) hosts db in
  fl_allow db' = fl_allow db ∧ fl_modes db' = fl_modes db ∧ scope db' = scope db ∧
  ∃ new, commands db' = commands db ++ new ∧ map told new = flat_map (λ h, [(host_id h, ALLOWLIST_SYNC, payload)]) hosts.
Proof.
  revert db. induction hosts as [|h hosts IH]; intros db; cbn zeta;
    [split_and!; try done; exists []; simpl; by rewrite app_nil_r|].
  cbn [fold_left]. destruct (IH (add_command E DEFAULT_TENANT_ID (host_id h) ALLOWLIST_SYNC payload user db))
    as (Ha & Hm & Hs & new & Hc & Ht).
  split; [by rewrite Ha|]. split; [by rewrite Hm|]. split; [by rewrite Hs|]. eexists (_ :: new). rewrite Hc.
  split; [unfold commands; simpl; rewrite <- app_assoc; reflexivity|]. cbn [map flat_map]. by rewrite Ht.
Qed.

(** What a push leaves each member of the group with. *)
Lemma push_view E gid user db h :
  hosts_ok (scope db) → h ∈ sc_hosts (scope db) → member (scope db) (host_id h) gid = true →
  let db' := (push_allowlist_to_agent E gid user db).1 in
  fl_allow db' = fl_allow db ∧ fl_modes db' = fl_modes db ∧ scope db' = scope db ∧
  agent_view (host_id h) (commands db') =
    Some (current_mode db gid, decoded (map aw_sha256 (list_entries_for_group db gid))).
Proof.
  intros Hok Hin Hm db'. unfold db', push_allowlist_to_agent. cbn [fst]. set (payload := allowlist_payload _ _).
  destruct (push_told E user payload (group_hosts (scope db) gid) db) as (? & ? & ? & new & Hc & Ht).
  split_and!; try done. rewrite Hc.
  apply (fan_out_view (λ h, [(host_id h, ALLOWLIST_SYNC, payload)]) _ (map told (commands db))
    (group_hosts (scope db) gid) h ALLOWLIST_SYNC payload).
  - by rewrite map_app, Ht.
  - unfold group_hosts. by apply NoDup_map_filterb.
  - by apply elem_of_filterb.
  - intros x t ->%list_elem_of_singleton. done.
  - cbn [List.filter]. unfold concerns. cbn [fst snd]. by rewrite Z.eqb_refl.
  - by exists (map aw_sha256 (list_entries_for_group db gid)).
Qed.

Lemma decoded_elem db gid b :
  b ∈ decoded (map aw_sha256 (list_entries_for_group db gid)) ↔
  ∃ e, e ∈ fl_allow db ∧ aw_group e = gid ∧ String.length (aw_sha256 e) = 64%nat ∧ fromhex (aw_sha256 e) = Some b.
Proof.
  unfold decoded. rewrite list_elem_of_omap. split.
  - intros (h & (e & -> & He)%list_elem_of_fmap & Hb). unfold list_entries_for_group in He.
    rewrite sort_by_perm, elem_of_filterb in He. destruct He as [He Hg%Z.eqb_eq]. exists e. split_and!; try done.
    + simpl in Hb. destruct (Nat.eqb_spec (String.length (aw_sha256 e)) 64); done.
    + simpl in Hb. destruct (String.length (aw_sha256 e) =? 64)%nat; done.
  - intros (e & He & Hg & Hl & Hb). exists (aw_sha256 e). split.
    + apply list_elem_of_fmap_2. unfold list_entries_for_group. rewrite sort_by_perm, elem_of_filterb.
      split; [done|]. by apply Z.eqb_eq.
    + simpl. by rewrite Hl.
Qed.

Lemma upsert_mode_current E gid m user db : current_mode (upsert_mode E gid m user db) gid = m.
Proof.
  unfold upsert_mode, current_mode. destruct (mode_row db gid) as [row|] eqn:Hr; unfold mode_row in *; cbn [fl_modes set_modes].
  - induction (fl_modes db) as [|x l IH]; [done|]. cbn [map List.find] in *.
    destruct (Z.eqb_spec (am_group x) gid); cbn [am_group]; [rewrite Z.eqb_refl; by destruct m|].
    destruct (Z.eqb_spec (am_group x) gid); [done|]. by apply IH.
  - rewrite (find_snoc _ _ _ Hr) by (simpl; by rewrite Z.eqb_refl). by destruct m.
Qed.
(** Another group's row is left as it is. *)
Lemma upsert_mode_other E gid m user db g : g ≠ gid → current_mode (upsert_mode E gid m user db) g = current_mode db g.
Proof.
  intros Hne. unfold upsert_mode, current_mode. destruct (mode_row db gid) as [row|]; unfold mode_row; cbn [fl_modes set_modes].
  - assert (List.find (λ m0, am_group m0 =? g) (map (λ m0, if am_group m0 =? gid then
       mkModeRow gid (AllowlistMode_value m) (if bool_decide (m = AM_OFF) then None else Some (env_now E))
         (if bool_decide (m = AM_LEARN) then Some (env_now E) else am_learn_started_at m0)
         (if bool_decide (m = AM_ENFORCE) then Some (env_now E) else am_learn_completed_at m0) user else m0) (fl_modes db)) =
      List.find (λ m0, am_group m0 =? g) (fl_modes db)) as ->; [|done].
    induction (fl_modes db) as [|x l IH]; [done|]. cbn [map List.find].
    destruct (Z.eqb_spec (am_group x) gid) as [Hx|]; cbn [am_group]; [|by rewrite IH].
    rewrite (proj2 (Z.eqb_neq gid g)), (proj2 (Z.eqb_neq (am_group x) g)) by congruence. done.
  - induction (fl_modes db) as [|x l IH]; cbn [app List.find]; [|by destruct (am_group x =? g)].
    cbn [am_group]. by rewrite (proj2 (Z.eqb_neq gid g)) by congruence.
Qed.

Inductive allow_op :=
| AMode (mode : AllowlistMode)
| ACreate (body : AllowlistEntryCreate)
| ADelete (eid : uuid).
Definition run_allow_op (E : env) (gid : uuid) (op : allow_op) (actor : Actor) (db : fleet_db) : py fleet_db :=
  match op with
  | AMode m => update_mode E gid m actor db
  | ACreate b => create_entry E gid b actor db
  | ADelete eid => delete_entry E gid eid actor db
  end.

(** Each route changes its table, then pushes to the group and leaves an audit row. *)
Lemma allow_op_pushes E gid op actor db db' :
  run_allow_op E gid op actor db = Ok db' →
  ∃ db1 action rtype rid payload, scope db1 = scope db ∧
    db' = audited E actor action rtype rid payload
            (push_allowlist_to_agent E gid (Some (actor_user_id actor)) db1).1 ∧
    match op with
    | AMode m => db1 = upsert_mode E gid m (Some (actor_user_id actor)) db
    | ACreate b => fl_modes db1 = fl_modes db
    | ADelete eid => fl_modes db1 = fl_modes db ∧
        fl_allow db1 = List.filter (λ e, negb (aw_id e =? eid)) (fl_allow db) ∧
        (current_mode db gid = AM_ENFORCE → (2 ≤ length (List.filter (λ e, (aw_group e =? gid)%Z) (fl_allow db)))%nat)
    end.
Proof.
  destruct op as [m|b|eid]; cbn [run_allow_op]; [unfold update_mode|unfold create_entry|unfold delete_entry];
    destruct (negb (is_admin actor)); try done.
  - destruct (load_in_tenant db gid actor); cbn [mbind res_bind]; [|done].
    intros H. injection H as <-. do 5 eexists. split; [|split; reflexivity].
    unfold upsert_mode. by destruct (mode_row db gid).
  - destruct (check_entry b) as [p|]; cbn [mbind res_bind]; [|done].
    destruct (load_in_tenant db gid actor); cbn [mbind res_bind]; [|done].
    destruct (scalar_one_or_none _) as [[x|]|]; cbn [mbind res_bind]; [..|done]; intros H; injection H as <-;
      do 5 eexists; (split; [|split; [reflexivity|]]; reflexivity).
  - destruct (load_in_tenant db gid actor); cbn [mbind res_bind]; [|done].
    destruct (List.find _ _) as [row|]; [|done]. destruct (negb _); [done|].
    destruct (bool_decide _ && _) eqn:Hg; [done|]. intros H. injection H as <-. do 5 eexists.
    split; [|split; [reflexivity|]]; [reflexivity|]. split_and!; try reflexivity. intros Hm.
    rewrite bool_decide_eq_true_2 in Hg by done. simpl in Hg. apply Nat.leb_gt in Hg. lia.
Qed.

(** After every change of the mode or of an entry, each host of the group holds
    the group's mode and the bytes of exactly its entries; a binary is on the list
    it holds when the hex digest of its hash is an entry. *)
Theorem allowlist_reaches_group E gid op actor db db' h :
  hosts_ok (scope db) → run_allow_op E gid op actor db = Ok db' →
  h ∈ sc_hosts (scope db) → member (scope db) (host_id h) gid = true →
  ∃ hashes, agent_view (host_id h) (commands db') = Some (current_mode db' gid, hashes) ∧
    (∀ b, b ∈ hashes ↔ ∃ e, e ∈ fl_allow db' ∧ aw_group e = gid ∧
       String.length (aw_sha256 e) = 64%nat ∧ fromhex (aw_sha256 e) = Some b) ∧
    (∀ b e, String.length b = 32%nat → e ∈ fl_allow db' → aw_group e = gid → aw_sha256 e = hexdigest b → b ∈ hashes).
Proof.
  intros Hok H Hh Hm. destruct (allow_op_pushes E gid op actor db db' H) as (db1 & a & rt & ri & p & Hs & -> & _).
  rewrite <- Hs in Hok, Hh, Hm.
  destruct (push_view E gid (Some (actor_user_id actor)) db1 h Hok Hh Hm) as (Ha & Hmo & _ & Hv).
  set (db2 := (push_allowlist_to_agent E gid (Some (actor_user_id actor)) db1).1) in *.
  exists (decoded (map aw_sha256 (list_entries_for_group db1 gid))). rewrite commands_audited, Hv.
  assert (current_mode (audited E actor a rt ri p db2) gid = current_mode db1 gid) as ->.
  { unfold current_mode, mode_row. change (fl_modes (audited E actor a rt ri p db2)) with (fl_modes db2). by rewrite Hmo. }
  change (fl_allow (audited E actor a rt ri p db2)) with (fl_allow db2). rewrite Ha.
  split; [done|]. split; [intros b; apply decoded_elem|]. intros b e Hb He Hg Hx. apply decoded_elem. exists e.
  rewrite Hx, fromhex_hexdigest, length_hexdigest, Hb. done.
Qed.

(** The guard on the deletion of the last entry is not on the way in: a group
    without entries can be set to enforce, and its hosts then hold an enforced list
    with nothing on it. *)
Theorem enforce_empty_list E gid actor db h :
  hosts_ok (scope db) → is_admin actor = true →
  (∃ g, load_in_tenant db gid actor = Ok g) →
  (∀ e, e ∈ fl_allow db → aw_group e ≠ gid) →
  h ∈ sc_hosts (scope db) → member (scope db) (host_id h) gid = true →
  ∃ db', update_mode E gid AM_ENFORCE actor db = Ok db' ∧
    agent_view (host_id h) (commands db') = Some (AM_ENFORCE, []).
Proof.
  intros Hok Ha [g Hg] Hnone Hh Hm.
  assert (∃ db', update_mode E gid AM_ENFORCE actor db = Ok db') as [db' H].
  { unfold update_mode. rewrite Ha, Hg. cbn [negb mbind res_bind]. eauto. }
  exists db'. split; [done|].
  destruct (allow_op_pushes E gid (AMode AM_ENFORCE) actor db db' H) as (db1 & a & rt & ri & p & Hs & -> & Hdb1).
  rewrite <- Hs in Hok, Hh, Hm. rewrite commands_audited.
  destruct (push_view E gid (Some (actor_user_id actor)) db1 h Hok Hh Hm) as (_ & _ & _ & ->).
  assert (fl_allow db1 = fl_allow db) as Hal by (rewrite Hdb1; unfold upsert_mode; by destruct (mode_row db gid)).
  assert (list_entries_for_group db1 gid = []) as ->.
  { unfold list_entries_for_group. rewrite Hal.
    assert (List.filter (λ e, aw_group e =? gid) (fl_allow db) = []) as ->; [|done].
    apply elem_of_nil_inv. intros e [He Heq%Z.eqb_eq]%elem_of_filterb. by apply (Hnone e). }
  assert (current_mode db1 gid = AM_ENFORCE) as ->; [|done]. rewrite Hdb1. apply upsert_mode_current.
Qed.

(** A host in two groups obeys the one that was touched last: switching one
    group off lifts the enforcement of the other on the hosts they share, while the
    manager still shows the other as enforcing. *)
Theorem other_group_lifts_enforcement E gid other actor db db' h :
  hosts_ok (scope db) → gid ≠ other →
  current_mode db other = AM_ENFORCE →
  h ∈ sc_hosts (scope db) → member (scope db) (host_id h) gid = true → member (scope db) (host_id h) other = true →
  update_mode E gid AM_OFF actor db = Ok db' →
  (∃ hashes, agent_view (host_id h) (commands db') = Some (AM_OFF, hashes)) ∧
  current_mode db' other = AM_ENFORCE ∧ member (scope db') (host_id h) other = true.
Proof.
  intros Hok Hne Hmode Hh Hm Hmo H.
  destruct (allow_op_pushes E gid (AMode AM_OFF) actor db db' H) as (db1 & a & rt & ri & p & Hs & -> & Hdb1).
  rewrite <- Hs in Hok, Hh, Hm, Hmo. rewrite commands_audited.
  destruct (push_view E gid (Some (actor_user_id actor)) db1 h Hok Hh Hm) as (_ & Hmd & Hsc & ->).
  set (db2 := (push_allowlist_to_agent E gid (Some (actor_user_id actor)) db1).1) in *. split; [|split].
  - assert (current_mode db1 gid = AM_OFF) as -> by (rewrite Hdb1; apply upsert_mode_current). eauto.
  - assert (current_mode (audited E actor a rt ri p db2) other = current_mode db1 other) as ->.
    { unfold current_mode, mode_row. change (fl_modes (audited E actor a rt ri p db2)) with (fl_modes db2). by rewrite Hmd. }
    rewrite Hdb1, upsert_mode_other by done. done.
  - change (scope (audited E actor a rt ri p db2)) with (scope db2). by rewrite Hsc.
Qed.

(** ** The learner *)

Definition entry_key (e : AllowlistEntry) : uuid * str := (aw_group e, aw_sha256 e).
Definition keys (db : fleet_db) : list (uuid * str) := map entry_key (fl_allow db).
(** A normalised digest, as [stage_observation] lets through. *)
Definition staged (s : str) : Prop := lower (strip s) = s ∧ String.length s = 64%nat.

Lemma has_key_iff gid s e : has_key gid s e = true ↔ entry_key e = (gid, s).
Proof.
  unfold has_key, entry_key. rewrite andb_true_iff, Z.eqb_eq, String.eqb_eq. split; [intros [-> ->]|intros [= -> ->]]; done.
Qed.

Lemma filter_key_cases gid s (l : list AllowlistEntry) :
  NoDup (map entry_key l) →
  (List.filter (has_key gid s) l = [] ∧ (gid, s) ∉ map entry_key l) ∨
  (∃ e, List.filter (has_key gid s) l = [e] ∧ (gid, s) ∈ map entry_key l).
Proof.
  induction l as [|x l IH]; simpl; intros Hnd; [left; split; [done|apply not_elem_of_nil]|].
  apply NoDup_cons in Hnd as [Hx Hnd]. destruct (has_key gid s x) eqn:Hk.
  - apply has_key_iff in Hk. right. exists x. destruct (IH Hnd) as [[-> _]|(e & _ & He)].
    + split; [done|]. rewrite Hk. left.
    + by rewrite <- Hk in He.
  - assert ((gid, s) ≠ entry_key x) by (intros Heq; symmetry in Heq; apply has_key_iff in Heq; congruence).
    destruct (IH Hnd) as [[-> ?]|(e & -> & ?)]; [left|right; exists e]; split; try done; rewrite elem_of_cons; naive_solver.
Qed.

Lemma record_observed_keys E gid s exec pub db :
  NoDup (keys db) → staged s →
  ∃ db1, record_observed_hash E gid s exec pub db = Ok db1 ∧ NoDup (keys db1) ∧
    (∀ k, k ∈ keys db1 ↔ k ∈ keys db ∨ k = (gid, s)) ∧ commands db1 = commands db.
Proof.
  intros Hnd [Hs Hl]. unfold record_observed_hash. rewrite Hs, Hl. cbn [negb Nat.eqb].
  destruct (filter_key_cases gid s (fl_allow db) Hnd) as [[-> Hn]|(e & -> & Hin)]; cbn [scalar_one_or_none mbind res_bind];
    eexists; (split; [reflexivity|]); unfold keys; cbn [fl_allow set_allow].
  - rewrite map_app. cbn [map].
    change (entry_key (mkAllowEntry ?[a] gid s ?[b] ?[c] ?[d] ?[e] ?[f] ?[g] ?[h] ?[i])) with (gid, s). split; [|split; [|done]].
    + apply NoDup_app. split; [done|]. split; [|apply NoDup_singleton]. intros k Hk ->%list_elem_of_singleton. done.
    + intros k. rewrite elem_of_app, list_elem_of_singleton. done.
  - assert (map entry_key (map (λ x, if has_key gid s x then observe_again (env_now E) exec pub x else x) (fl_allow db)) =
      map entry_key (fl_allow db)) as ->.
    { rewrite map_map. apply map_ext. intros x. by destruct (has_key gid s x). }
    split; [done|]. split; [|done]. naive_solver.
Qed.

Lemma persist_groups_keys E ob gids seen n db :
  NoDup (keys db) → staged (ob_sha256 ob) → (∀ k, k ∈ seen → k ∈ keys db) →
  ∃ seen' n' db1, persist_groups E ob gids seen n db = Ok (seen', n', db1) ∧ NoDup (keys db1) ∧
    (∀ k, k ∈ seen' → k ∈ keys db1) ∧
    (∀ k, k ∈ keys db1 ↔ k ∈ keys db ∨ (k.1 ∈ gids ∧ k.2 = ob_sha256 ob)) ∧ commands db1 = commands db.
Proof.
  intros Hnd Hst. revert seen n db Hnd. induction gids as [|gid gids IH]; intros seen n db Hnd Hseen; cbn [persist_groups].
  { do 3 eexists. split; [reflexivity|]. split_and!; try done. intros k. split; [by left|].
    intros [|[[]%not_elem_of_nil _]]; done. }
  case_bool_decide as Hin.
  - destruct (IH seen n db Hnd Hseen) as (s' & n' & db1 & -> & H1 & H2 & H3 & H4). do 3 eexists. split; [reflexivity|].
    split_and!; try done. intros [g x]. rewrite H3. simpl. rewrite elem_of_cons.
    assert (g = gid → x = ob_sha256 ob → (g, x) ∈ keys db) by (intros -> ->; auto). naive_solver.
  - destruct (record_observed_keys E gid (ob_sha256 ob) (ob_exec_path ob) None db Hnd Hst)
      as (db0 & -> & Hnd0 & Hk0 & Hc0). cbn [mbind res_bind].
    destruct (IH ((gid, ob_sha256 ob) :: seen) (n + 1) db0 Hnd0) as (s' & n' & db1 & -> & H1 & H2 & H3 & H4).
    { intros k [->|Hk]%elem_of_cons; rewrite Hk0; auto. }
    do 3 eexists. split; [reflexivity|]. split_and!; try done; [|congruence].
    intros [g x]. rewrite H3, Hk0. simpl. rewrite elem_of_cons. naive_solver.
Qed.

Lemma persist_loop_keys E groups obs seen n m db :
  NoDup (keys db) → (∀ ob, ob ∈ obs → staged (ob_sha256 ob)) → (∀ k, k ∈ seen → k ∈ keys db) →
  ∃ db1 n' m', persist_loop E groups obs seen n m db = Ok (db1, n', m') ∧ NoDup (keys db1) ∧ commands db1 = commands db ∧
    (∀ k, k ∈ keys db1 ↔ k ∈ keys db ∨ ∃ ob, ob ∈ obs ∧ k.1 ∈ groups (ob_host_id ob) ∧ k.2 = ob_sha256 ob).
Proof.
  revert seen n m db. induction obs as [|ob obs IH]; intros seen n m db Hnd Hst Hseen; cbn [persist_loop].
  { do 3 eexists. split; [reflexivity|]. split_and!; try done. intros k. split; [by left|].
    intros [|(? & []%not_elem_of_nil & _)]; done. }
  assert (∀ x, x ∈ obs → staged (ob_sha256 x)) as Hst' by (intros; apply Hst; by right).
  destruct (groups (ob_host_id ob)) as [|g gs] eqn:Hg.
  - destruct (IH seen n (m + 1) db Hnd Hst' Hseen) as (db1 & n' & m' & -> & H1 & Hc & H2). do 3 eexists.
    split; [reflexivity|]. split_and!; try done. intros k. rewrite H2. setoid_rewrite elem_of_cons.
    split; [naive_solver|]. intros [?|(x & [->|?] & Hx & ?)]; [by left| |right; eauto].
    rewrite Hg in Hx. by apply elem_of_nil in Hx.
  - destruct (persist_groups_keys E ob (g :: gs) seen n db Hnd) as (s' & n1 & db0 & -> & H1 & H2 & H3 & Hc0);
      [apply Hst; by left|done|]. cbn [mbind res_bind].
    destruct (IH s' n1 m db0 H1 Hst' H2) as (db1 & n' & m' & -> & H4 & Hc & H5). do 3 eexists.
    split; [reflexivity|]. split_and!; try done; [congruence|]. intros k. rewrite H5, H3, <- Hg.
    setoid_rewrite elem_of_cons. naive_solver.
Qed.

(** A tick of the learner always ends, and then exactly the binaries that were
    already listed are listed, and those that were observed on a host, for each of
    the host's groups in learn mode; no pair is listed twice, and no agent is told. *)
Theorem learner_records_exactly E pending db :
  NoDup (keys db) → (∀ ob, ob ∈ pending → staged (ob_sha256 ob)) →
  ∃ db' n, learner_run_once E pending db = ([], Ok (db', n)) ∧ NoDup (keys db') ∧ commands db' = commands db ∧
    ∀ g s, (g, s) ∈ keys db' ↔ (g, s) ∈ keys db ∨
      ∃ ob, ob ∈ pending ∧ ob_sha256 ob = s ∧ (ob_host_id ob, g) ∈ sc_host_in_group (scope db) ∧ in_learn_mode db g = true.
Proof.
  intros Hnd Hst.
  assert (∀ h g, g ∈ learn_groups db h ↔ (h, g) ∈ sc_host_in_group (scope db) ∧ in_learn_mode db g = true) as Hlg.
  { intros h g. unfold learn_groups, hosts_in_learn_mode. rewrite list_elem_of_fmap. split.
    - intros ([a b] & -> & [[Hp Hm]%elem_of_filterb Ha%Z.eqb_eq]%elem_of_filterb). simpl in *. by subst.
    - intros [Hp Hm]. exists (h, g). split; [done|]. apply elem_of_filterb. rewrite elem_of_filterb. simpl. by rewrite Z.eqb_refl. }
  unfold learner_run_once. destruct pending as [|ob0 obs].
  { exists db, 0. split_and!; try done. intros g s. split; [by left|]. intros [|(? & []%not_elem_of_nil & _)]; done. }
  unfold persist_batch. destruct (hosts_in_learn_mode db) as [|p ps] eqn:Hlm.
  - exists db, 0. split_and!; try done. intros g s. split; [by left|]. intros [|(ob & _ & _ & Hp & Hm)]; [done|].
    assert ((ob_host_id ob, g) ∈ hosts_in_learn_mode db) as Hin by (by apply elem_of_filterb).
    rewrite Hlm in Hin. by apply elem_of_nil in Hin.
  - destruct (persist_loop_keys E (learn_groups db) (ob0 :: obs) [] 0 0 db Hnd Hst) as (db1 & n & m & -> & H1 & Hc & H2).
    { intros k Hk. by apply elem_of_nil in Hk. }
    exists db1, n. split_and!; try done. intros g s. rewrite H2. setoid_rewrite Hlg. simpl. naive_solver.
Qed.

Lemma lower_char_facts c : lower_char (lower_char c) = lower_char c ∧ is_space (lower_char c) = is_space c.
Proof. destruct c as [[] [] [] [] [] [] [] []]; split; reflexivity. Qed.
Lemma lower_lower s : lower (lower s) = lower s.
Proof. unfold lower. induction s as [|c s IH]; simpl; [done|]. by rewrite (proj1 (lower_char_facts c)), IH. Qed.
Lemma strip_lower s : strip (lower s) = lower (strip s).
Proof.
  assert (∀ s, lstrip_by is_space (string_map lower_char s) = string_map lower_char (lstrip_by is_space s)) as Hl.
  { clear. induction s as [|c s IH]; simpl; [done|]. rewrite (proj2 (lower_char_facts c)). by destruct (is_space c). }
  assert (∀ s, rstrip_by is_space (string_map lower_char s) = string_map lower_char (rstrip_by is_space s)) as Hr.
  { clear. induction s as [|c s IH]; simpl; [done|]. rewrite IH, (proj2 (lower_char_facts c)).
    destruct (rstrip_by is_space s); simpl; [|done]. by destruct (is_space c). }
  unfold strip, strip_by, lower. by rewrite Hl, Hr.
Qed.

(** What is pending is normalised and bounded, whatever the agents report. *)
Lemma stage_staged pending host sha exec :
  (∀ ob, ob ∈ pending → staged (ob_sha256 ob)) → (length pending <= PENDING_MAX)%nat →
  (∀ ob, ob ∈ stage_observation pending host sha exec → staged (ob_sha256 ob)) ∧
  (length (stage_observation pending host sha exec) <= PENDING_MAX)%nat.
Proof.
  intros Hs Hl. unfold stage_observation. destruct (negb (nonempty sha)); [done|].
  destruct (Nat.eqb_spec (String.length (lower (strip sha))) 64) as [H64|]; cbn [negb]; [|done].
  unfold deque_append. split; [|rewrite length_drop; lia].
  intros ob Hob. apply list_elem_of_In in Hob.
  assert (ob ∈ pending ++ [mkObservation host (lower (strip sha)) exec]) as Hin.
  { rewrite <- (take_drop (length (pending ++ [mkObservation host (lower (strip sha)) exec]) - PENDING_MAX)).
    apply elem_of_app. right. by apply list_elem_of_In. }
  apply elem_of_app in Hin as [?| ->%list_elem_of_singleton]; [auto|]. split; [|done]. simpl.
  by rewrite strip_lower, strip_strip, lower_lower.
Qed.

(** ** Examples *)

Definition demo_allow : fleet_db :=
  set_scope (mkScopeDb (sc_hosts demo_scope) [(100, 50); (100, 51)] []) demo_fleet.
Definition demo_sha : str := hexdigest (sha256 "abc").

Lemma allowlist_reaches_group_witness :
  ∃ db', run_allow_op demo_env 50 (ACreate (mkAllowCreate demo_sha None None)) (demo_admin 1) demo_allow = Ok db' ∧
    ∃ hashes, agent_view 100 (commands db') = Some (current_mode db' 50, hashes).
Proof.
  destruct (run_allow_op demo_env 50 (ACreate (mkAllowCreate demo_sha None None)) (demo_admin 1) demo_allow)
    as [db'|] eqn:H; [|vm_compute in H; discriminate H].
  exists db'. split; [reflexivity|].
  destruct (allowlist_reaches_group demo_env 50 (ACreate (mkAllowCreate demo_sha None None)) (demo_admin 1) demo_allow db'
              (demo_host 100 1)) as (hashes & Hv & _).
  - exact demo_scope_ok.
  - exact H.
  - left.
  - reflexivity.
  - exists hashes. exact Hv.
Defined.

Lemma enforce_empty_list_witness :
  ∃ db', update_mode demo_env 50 AM_ENFORCE (demo_admin 1) demo_allow = Ok db' ∧
    agent_view 100 (commands db') = Some (AM_ENFORCE, []).
Proof.
  apply (enforce_empty_list demo_env 50 (demo_admin 1) demo_allow (demo_host 100 1)).
  - exact demo_scope_ok.
  - reflexivity.
  - eexists. reflexivity.
  - intros e He. by apply elem_of_nil in He.
  - left.
  - reflexivity.
Defined.

Lemma other_group_lifts_enforcement_witness :
  ∃ db db', update_mode demo_env 51 AM_ENFORCE (demo_admin 1) demo_allow = Ok db ∧
    update_mode demo_env 50 AM_OFF (demo_admin 1) db = Ok db' ∧
    (∃ hashes, agent_view 100 (commands db') = Some (AM_OFF, hashes)) ∧ current_mode db' 51 = AM_ENFORCE.
Proof.
  destruct (update_mode demo_env 51 AM_ENFORCE (demo_admin 1) demo_allow) as [db|] eqn:H; [|discriminate H].
  assert (scope db = scope demo_allow ∧ current_mode db 51 = AM_ENFORCE ∧ fl_groups db = fl_groups demo_allow)
    as (Hs & Hm & Hg) by (injection H as <-; split_and!; reflexivity).
  destruct (update_mode demo_env 50 AM_OFF (demo_admin 1) db) as [db'|] eqn:H'.
  2: { unfold update_mode, load_in_tenant, find_group in H'. rewrite Hg in H'. discriminate H'. }
  exists db, db'. split; [reflexivity|]. split; [exact H'|].
  destruct (other_group_lifts_enforcement demo_env 50 51 (demo_admin 1) db db' (demo_host 100 1)) as (H1 & H2 & _).
  - rewrite Hs. exact demo_scope_ok.
  - discriminate.
  - exact Hm.
  - rewrite Hs. left.
  - rewrite Hs. reflexivity.
  - rewrite Hs. reflexivity.
  - exact H'.
  - split; [exact H1|exact H2].
Defined.

Lemma learner_records_exactly_witness :
  ∃ db' n, learner_run_once demo_env (stage_observation [] 100 demo_sha None) demo_allow = ([], Ok (db', n)) ∧
    NoDup (keys db').
Proof.
  destruct (learner_records_exactly demo_env (stage_observation [] 100 demo_sha None) demo_allow) as (db' & n & H1 & H2 & _).
  - apply NoDup_nil. exact I.
  - apply stage_staged; [intros ob Hob; by apply elem_of_nil in Hob|apply Nat.le_0_l].
  - exists db', n. split; [exact H1|exact H2].
Defined.
