(* ===== verification/Routing.v ===== *)
(** * Routing: notification channels, routing rules and the alert router

    services/routing.py, api/notifications.py, api/routing.py and
    workers/alert_router.py.  The HTTP client, the SMTP session and Fernet are
    arguments of the definitions that use them. *)

From Stdlib Require Import Ascii String Sorted.
From S2P Require Import Prelude PyStr PyVal PyJson PyTime Crypto PyText PyJsonRead Models AuditChain Rollout.
From S2P Require Import Scoping Jobs Commands Fleet.
Local Open Scope string_scope.
Local Open Scope list_scope.
Local Open Scope Z_scope.

(** ** Tables *)

Inductive NotificationChannelKind := SLACK | PAGERDUTY | EMAIL.
#[global] Instance NotificationChannelKind_eq_dec : EqDecision NotificationChannelKind.
Proof. solve_decision. Defined.
Definition NotificationChannelKind_value (k : NotificationChannelKind) : str :=
  match k with SLACK => "slack" | PAGERDUTY => "pagerduty" | EMAIL => "email" end.

Record NotificationChannel := mkChannel {
  nc_id : uuid;
  nc_tenant_id : uuid;
  nc_name : str;
  nc_kind : NotificationChannelKind;
  nc_encrypted_config : bytes;
  nc_enabled : bool
}.

Record RoutingRule := mkRoutingRule {
  rr_id : uuid;
  rr_tenant_id : uuid;
  rr_name : str;
  rr_min_severity : Severity;
  rr_rule_kind : option RuleKind;
  rr_host_group_id : option uuid;
  rr_channel_ids : list uuid;
  rr_enabled : bool
}.

Record notify_db := mkNotify {
  nt_fleet : fleet_db;
  nt_rules : list Rule;
  nt_channels : list NotificationChannel;
  nt_routing : list RoutingRule
}.

(** ** Configuration blobs *)

(** [Fernet(key)]: [fernet_decrypt] is [None] for an [InvalidToken]. *)
Record fernet := mkFernet {
  fernet_encrypt : bytes → bytes;
  fernet_decrypt : bytes → option bytes
}.

Definition encrypt_config (F : fernet) (config : dict) : bytes :=
  fernet_encrypt F (utf8 (json_canonical (PDict config))).

Definition decrypt_config (F : fernet) (blob : bytes) : py pyval :=
  match fernet_decrypt F blob with
  | None => Err (RuntimeError "notification-channel config could not be decrypted; VIGIL_NOTIFICATION_ENCRYPTION_KEY may have been rotated")
  | Some plaintext => json_loads_bytes plaintext
  end.

Definition SECRET_FIELDS (k : NotificationChannelKind) : list str :=
  match k with
  | SLACK => ["webhook_url"]
  | PAGERDUTY => ["integration_key"]
  | EMAIL => ["smtp_password"; "smtp_host"; "to_addr"]
  end.

Definition secret_fingerprint (kind : NotificationChannelKind) (config : dict) : str :=
  take_str 8 (hexdigest (sha256 (join ""
    (map (λ f, utf8 (py_repr (get_none f config)) +:+ String (ascii_of_N 0) "") (SECRET_FIELDS kind))))).

Definition audit_payload (name : str) (kind : NotificationChannelKind) (config : dict) (enabled : bool) : dict :=
  [("name", PStr name); ("kind", PStr (NotificationChannelKind_value kind)); ("enabled", PBool enabled);
   ("secret_fingerprint", PStr (secret_fingerprint kind config)); ("redacted", PBool true)].

Definition nonblank (v : pyval) : bool := match v with PStr s => nonempty (strip s) | _ => false end.
Definition has_at (v : pyval) : bool := match v with PStr s => has_char "@" s | _ => false end.

(** The message of the [ChannelConfigError], if any. *)
Definition validate_config (kind : NotificationChannelKind) (config : dict) : py unit :=
  match kind with
  | SLACK =>
      match get_none "webhook_url" config with
      | PStr url =>
          if starts_with "https://" url || starts_with "http://" url then Ok tt
          else Err (ChannelConfigError "slack channel: 'webhook_url' must be an http(s) URL")
      | _ => Err (ChannelConfigError "slack channel: 'webhook_url' must be an http(s) URL")
      end
  | PAGERDUTY =>
      if nonblank (get_none "integration_key" config) then Ok tt
      else Err (ChannelConfigError "pagerduty channel: 'integration_key' must be a non-empty string")
  | EMAIL =>
      if negb (nonblank (get_none "smtp_host" config))
      then Err (ChannelConfigError "email channel: 'smtp_host' is required")
      else if negb (match as_int (get_none "smtp_port" config) with
                    | Some port => (0 <? port) && (port <? 65536) | None => false end)
      then Err (ChannelConfigError "email channel: 'smtp_port' must be an integer 1..65535")
      else if negb (has_at (get_none "from_addr" config))
      then Err (ChannelConfigError "email channel: 'from_addr' must be a valid email address")
      else if negb (has_at (get_none "to_addr" config))
      then Err (ChannelConfigError "email channel: 'to_addr' must be a valid email address")
      else Ok tt
  end.

(** ** Matching *)

Record AlertEnvelope := mkEnvelope {
  ev_alert_id : uuid;
  ev_severity : Severity;
  ev_rule_id : uuid;
  ev_rule_kind : option str;
  ev_rule_name : option str;
  ev_host_id : option uuid;
  ev_host_hostname : option str;
  ev_summary : str;
  ev_details : option dict
}.

Definition SEVERITY_ORDER (s : Severity) : Z :=
  match s with INFO => 0 | LOW => 1 | MEDIUM => 2 | HIGH => 3 | CRITICAL => 4 end.
Definition severity_at_least (actual minimum : Severity) : bool := SEVERITY_ORDER minimum <=? SEVERITY_ORDER actual.

Definition rule_fires (s : scope_db) (e : AlertEnvelope) (r : RoutingRule) : bool :=
  if negb (severity_at_least (ev_severity e) (rr_min_severity r)) then false
  else if match rr_rule_kind r with
          | Some k => negb (bool_decide (ev_rule_kind e = Some (RuleKind_value k))) | None => false end then false
  else if match rr_host_group_id r with
          | Some g => match ev_host_id e with None => true | Some h => negb (member s h g) end
          | None => false end then false
  else negb (bool_decide (rr_channel_ids r = [])).

Definition matching_rules (db : notify_db) (e : AlertEnvelope) : list RoutingRule :=
  List.filter (rule_fires (scope (nt_fleet db)) e) (List.filter rr_enabled (nt_routing db)).

Definition envelope_from_alert (db : notify_db) (a : Alert) : AlertEnvelope :=
  let host := match al_host_id a with
              | Some h => List.find (λ x, host_id x =? h) (sc_hosts (scope (nt_fleet db))) | None => None end in
  let rule := List.find (λ r, rule_id r =? al_rule_id a) (nt_rules db) in
  mkEnvelope (al_id a) (al_severity a) (al_rule_id a) ((λ r, RuleKind_value (rule_kind r)) <$> rule)
    (rule_name <$> rule) (al_host_id a) (host_hostname <$> host) (al_summary a) (al_details a).

(** ** Senders *)

(** [o or d] on optional strings. *)
Definition str_or (o : option str) (d : str) : str :=
  match o with Some s => if nonempty s then s else d | None => d end.

Definition slack_color (s : Severity) : str :=
  match s with
  | INFO => "#9aa0a6" | LOW => "#3b82f6" | MEDIUM => "#facc15" | HIGH => "#fb923c" | CRITICAL => "#ef4444"
  end.
Definition slack_field (title value : str) (short : bool) : pyval :=
  PDict [("title", PStr title); ("value", PStr value); ("short", PBool short)].

Definition slack_body (e : AlertEnvelope) : pyval :=
  PDict [("text", PStr ("Vigil alert: " +:+ ev_summary e));
         ("attachments", PList [PDict [
            ("color", PStr (slack_color (ev_severity e))); ("title", PStr (ev_summary e));
            ("fields", PList [
               slack_field "Severity" (Severity_value (ev_severity e)) true;
               slack_field "Host" (str_or (ev_host_hostname e) "system") true;
               slack_field "Rule" (str_or (ev_rule_name e) (uuid_str (ev_rule_id e))) false;
               slack_field "Alert ID" (uuid_str (ev_alert_id e)) false])]])].

Definition pagerduty_severity (s : Severity) : str :=
  match s with INFO | LOW => "info" | MEDIUM => "warning" | HIGH => "error" | CRITICAL => "critical" end.

Definition pagerduty_body (e : AlertEnvelope) (integration_key : pyval) : pyval :=
  PDict [("routing_key", integration_key); ("event_action", PStr "trigger");
         ("dedup_key", PStr ("vigil:" +:+ uuid_str (ev_alert_id e)));
         ("payload", PDict [
            ("summary", PStr (ev_summary e)); ("severity", PStr (pagerduty_severity (ev_severity e)));
            ("source", PStr (str_or (ev_host_hostname e) "vigil-edr")); ("component", PStr "alert-router");
            ("class", PStr (str_or (ev_rule_kind e) "alert"));
            ("custom_details", PDict [
               ("rule_id", PStr (uuid_str (ev_rule_id e))); ("rule_name", opt_str (ev_rule_name e));
               ("alert_id", PStr (uuid_str (ev_alert_id e))); ("host_id", opt_uuid_str (ev_host_id e));
               ("details", match ev_details e with Some d => PDict d | None => PNone end)])])].

(** *** The e-mail message *)

(** [s.format( **fields)] for plain replacement fields; attribute access, indexing,
    conversions and format specifications are outside the model. *)
Fixpoint str_format (fields : list (str * str)) (mode : option str) (s : str) : py str :=
  match s with
  | "" => match mode with None => Ok "" | Some _ => Err ValueError end
  | String c s =>
      match mode with
      | Some name =>
          if Ascii.eqb c "}" then
            if string_forallb is_decimal name then Err IndexError
            else match dict_get name fields with
                 | None => Err KeyError
                 | Some v => t ← str_format fields None s; Ok (v +:+ t)
                 end
          else if has_char c ".[!:" then Err Unmodelled
          else if Ascii.eqb c "{" then Err ValueError
          else str_format fields (Some (name +:+ String c "")) s
      | None =>
          if Ascii.eqb c "{" || Ascii.eqb c "}" then
            match s with
            | String d s' =>
                if Ascii.eqb d c then t ← str_format fields None s'; Ok (String c t)
                else if Ascii.eqb c "{" then str_format fields (Some "") s else Err ValueError
            | "" => Err ValueError
            end
          else t ← str_format fields None s; Ok (String c t)
      end
  end.

(** [json.dumps(v, indent=2)] *)
Definition json_nl (level : nat) : str := String newline (repeat_char (2 * level) " ").
Fixpoint json_indent (level : nat) (v : pyval) : str :=
  match v with
  | PList ((_ :: _) as l) =>
      "[" +:+ json_nl (S level) +:+ join ("," +:+ json_nl (S level)) (map (json_indent (S level)) l) +:+
      json_nl level +:+ "]"
  | PDict ((_ :: _) as d) =>
      "{" +:+ json_nl (S level) +:+
      join ("," +:+ json_nl (S level)) (map (λ kv, json_str kv.1 +:+ ": " +:+ json_indent (S level) kv.2) d) +:+
      json_nl level +:+ "}"
  | _ => json_enc "," ": " v
  end.

(** A header value of more than one line is refused: [len(value.splitlines()) > 1]. *)
Definition is_line_break (c : ascii) : bool :=
  let n := code c in ((10 <=? n) && (n <=? 13) || (28 <=? n) && (n <=? 30) || (n =? 133))%N.
Fixpoint several_lines (s : str) : bool :=
  match s with
  | "" => false
  | String c t =>
      if is_line_break c then
        nonempty (if Ascii.eqb c carriage_return then default t (cut newline t) else t)
      else several_lines t
  end.

Record EmailMessage := mkEmail { em_subject : str; em_from : str; em_to : str; em_body : str }.

(** [config[k]] *)
Definition item (k : str) (config : pyval) : py pyval :=
  match config with PDict d => of_option KeyError (dict_get k d) | _ => Err TypeError end.
Definition header (v : pyval) : py str :=
  match v with PStr s => if several_lines s then Err ValueError else Ok s | _ => Err Unmodelled end.

Definition format_email (e : AlertEnvelope) (config : pyval) : py EmailMessage :=
  tpl ← py_get "subject_template" config;
  let sev := Severity_value (ev_severity e) in
  let fields := [("severity", sev); ("summary", ev_summary e); ("rule_name", str_or (ev_rule_name e) "");
                 ("host", str_or (ev_host_hostname e) "system"); ("alert_id", uuid_str (ev_alert_id e))] in
  let fallback := "[Vigil][" +:+ sev +:+ "] " +:+ ev_summary e in
  subject ← match py_or tpl (PStr "[Vigil][{severity}] {summary}") with
            | PStr t => match str_format fields None t with
                        | Ok s => Ok s | Err Unmodelled => Err Unmodelled | Err _ => Ok fallback end
            | _ => Ok fallback
            end;
  let body_lines :=
    ["Alert: " +:+ ev_summary e; "Severity: " +:+ sev;
     "Rule: " +:+ str_or (ev_rule_name e) (uuid_str (ev_rule_id e));
     "Host: " +:+ str_or (ev_host_hostname e) "(system)"; "Alert ID: " +:+ uuid_str (ev_alert_id e)] ++
    match ev_details e with
    | Some ((_ :: _) as d) => [""; "Details:"; json_indent 0 (sort_keys (PDict d))]
    | _ => []
    end in
  subject ← header (PStr subject);
  from_addr ← item "from_addr" config; from_addr ← header from_addr;
  to_addr ← item "to_addr" config; to_addr ← header to_addr;
  Ok (mkEmail subject from_addr to_addr (join (String newline "") body_lines)).

(** [float(v)]; the text of a float is outside the model. *)
Definition py_float_of (v : pyval) : py float :=
  match v with
  | PFloat f => Ok f
  | PStr _ => Err Unmodelled
  | _ => z ← of_option TypeError (as_int v); py_float_of_int z
  end.

(** The calls of one SMTP session, in order. *)
Inductive smtp_op :=
| SmtpConnect (tls : bool) (host : pyval) (port : Z) (timeout : float)
| SmtpStartTls
| SmtpLogin (user password : pyval)
| SmtpSend (msg : EmailMessage).

Definition smtp_session (config : pyval) (msg : EmailMessage) : py (list smtp_op) :=
  host ← item "smtp_host" config;
  port ← item "smtp_port" config; port ← py_int_of port;
  config ← of_option AttributeError (as_dict config);
  let use_tls := truthy (get_default "use_tls" config (PBool (port =? 465))) in
  let use_starttls := truthy (get_default "use_starttls" config (PBool (port =? 587))) in
  let user := get_none "smtp_user" config in
  let password := get_none "smtp_password" config in
  timeout ← py_float_of (get_default "timeout_s" config (PFloat (float_of_Z 10)));
  Ok ([SmtpConnect use_tls host port timeout] ++
      (if negb use_tls && use_starttls then [SmtpStartTls] else []) ++
      (if truthy user && truthy password then [SmtpLogin user password] else []) ++
      [SmtpSend msg]).

(** *** One attempt *)

(** What the outside answers at an attempt: the status and text of an HTTP
    request, the end of an SMTP session; and [str(exc)]. *)
Record outside := mkOutside {
  http_post : Z → pyval → pyval → py (Z * str);
  smtp_run : Z → list smtp_op → py unit;
  exc_str : pyexc → str
}.

Section send.
Context (O : outside) (attempt : Z).

(** A 5xx answer is transient, another 4xx permanent. *)
Definition check_status (service : str) (resp : Z * str) : py unit :=
  if (500 <=? resp.1) && (resp.1 <? 600)
  then Err (ChannelDispatchError (service +:+ " 5xx: status=" +:+ str_of_Z resp.1))
  else if 400 <=? resp.1
  then Err (ChannelDispatchError (service +:+ " permanent failure status=" +:+ str_of_Z resp.1 +:+
                                  " body=" +:+ take_str 200 resp.2))
  else Ok tt.

Definition slack_post (webhook_url : pyval) (e : AlertEnvelope) : py unit :=
  resp ← http_post O attempt webhook_url (slack_body e); check_status "slack" resp.

Definition pagerduty_post (integration_key : pyval) (e : AlertEnvelope) : py unit :=
  resp ← http_post O attempt (PStr "https://events.pagerduty.com/v2/enqueue") (pagerduty_body e integration_key);
  check_status "pagerduty" resp.

Definition email_send (config : pyval) (e : AlertEnvelope) : py unit :=
  msg ← format_email e config;
  match (ops ← smtp_session config msg; smtp_run O attempt ops) with
  | Ok _ => Ok tt
  | Err exc => Err (ChannelDispatchError ("smtp send failed: " +:+ exc_str O exc))
  end.

Definition send_once (kind : NotificationChannelKind) (config : pyval) (e : AlertEnvelope) : py unit :=
  match kind with
  | SLACK => url ← item "webhook_url" config; slack_post url e
  | PAGERDUTY => key ← item "integration_key" config; pagerduty_post key e
  | EMAIL => email_send config e
  end.
End send.

(** *** Retries *)

Definition RETRY_ATTEMPTS : Z := 3.
(** [RETRY_BACKOFF_BASE_S * 2 ** (attempt - 1)], in milliseconds. *)
Definition backoff_ms (attempt : Z) : Z := 500 * 2 ^ (attempt - 1).

Definition permanent (exc : pyexc) : bool :=
  match exc with ChannelDispatchError msg => contains "permanent failure" msg | _ => false end.

(** Whether an attempt succeeded, and the pauses between the attempts. *)
Fixpoint retry_loop (send : Z → py unit) (attempts : list Z) : bool * list Z :=
  match attempts with
  | [] => (false, [])
  | attempt :: rest =>
      match send attempt with
      | Ok _ => (true, [])
      | Err exc =>
          if permanent exc then (false, [])
          else
            let '(ok, pauses) := retry_loop send rest in
            (ok, (if attempt <? RETRY_ATTEMPTS then [backoff_ms attempt] else []) ++ pauses)
      end
  end.

Definition send_with_retry (O : outside) (kind : NotificationChannelKind) (config : pyval) (e : AlertEnvelope) :
    bool * list Z :=
  retry_loop (λ attempt, send_once O attempt kind config e) [1; 2; 3].

(** ** Dispatch *)

Definition fire_one (F : fernet) (O : outside) (e : AlertEnvelope) (ch : NotificationChannel) : bool :=
  match decrypt_config F (nc_encrypted_config ch) with
  | Err _ => false
  | Ok config => (send_with_retry O (nc_kind ch) config e).1
  end.

(** The channels of an alert: those its rules name, once each, if enabled. *)
Definition channels_for (db : notify_db) (e : AlertEnvelope) : list NotificationChannel :=
  let channel_ids := dedup (flat_map rr_channel_ids (matching_rules db e)) in
  List.filter (λ ch, bool_decide (nc_id ch ∈ channel_ids) && nc_enabled ch) (nt_channels db).

(** The channels fired with their results, and the two counts returned. *)
Definition dispatch_for_alert (F : fernet) (O : outside) (db : notify_db) (a : Alert) :
    list (uuid * bool) * (Z * Z) :=
  let e := envelope_from_alert db a in
  let results := map (λ ch, (nc_id ch, fire_one F O e ch)) (channels_for db e) in
  let succeeded := Z.of_nat (countb snd results) in
  (results, (succeeded, Z.of_nat (length results) - succeeded)).

(** ** The router's poll *)

(** The alerts table as the worker reads it: [created_at] and the row. *)
Abbreviation alert_table := (list (datetime * Alert)).

Section tick.
Context (dispatch : Alert → py (Z * Z)).

(** The rows dispatched before the first failure, and whether there was one. *)
Fixpoint dispatch_rows (rows : alert_table) : alert_table * bool :=
  match rows with
  | [] => ([], false)
  | row :: rows =>
      match dispatch row.2 with
      | Err _ => ([], true)
      | Ok _ => let '(done, crashed) := dispatch_rows rows in (row :: done, crashed)
      end
  end.

Definition tick_rows (batch : nat) (table : alert_table) (cutoff : datetime) : alert_table :=
  take batch (sort_by fst (List.filter (λ row, cutoff <? row.1) table)).

(** [_tick_once]: what it dispatched, and the new [_last_seen]. *)
Definition tick_once (batch : nat) (table : alert_table) (last_seen : datetime) : alert_table * datetime :=
  let rows := tick_rows batch table last_seen in
  let '(done, crashed) := dispatch_rows rows in
  (done, if crashed then last_seen else match last rows with Some row => row.1 | None => last_seen end).

(** Successive polls, each with the table it finds. *)
Fixpoint ticks (batch : nat) (tables : list alert_table) (last_seen : datetime) : alert_table * datetime :=
  match tables with
  | [] => ([], last_seen)
  | table :: tables =>
      let '(d1, seen) := tick_once batch table last_seen in
      let '(d2, seen) := ticks batch tables seen in (d1 ++ d2, seen)
  end.
End tick.

(** ** The API *)

Definition set_nt_fleet (f : fleet_db) (db : notify_db) : notify_db :=
  mkNotify f (nt_rules db) (nt_channels db) (nt_routing db).
Definition set_channels (l : list NotificationChannel) (db : notify_db) : notify_db :=
  mkNotify (nt_fleet db) (nt_rules db) l (nt_routing db).
Definition set_routing (l : list RoutingRule) (db : notify_db) : notify_db :=
  mkNotify (nt_fleet db) (nt_rules db) (nt_channels db) l.
Definition nt_audited (E : env) (actor : Actor) (action rtype rid : str) (payload : dict) (db : notify_db) :
    notify_db :=
  set_nt_fleet (audited E actor action rtype rid (Some payload) (nt_fleet db)) db.

(** [validate_config] as a 400. *)
Definition config_or_400 (kind : NotificationChannelKind) (config : dict) : py unit :=
  match validate_config kind config with
  | Err (ChannelConfigError _) => Err (HTTPException 400)
  | r => r
  end.

Definition load_channel (db : notify_db) (id : uuid) (actor : Actor) : py NotificationChannel :=
  match List.find (λ c, nc_id c =? id) (nt_channels db) with
  | Some c => if negb (nc_tenant_id c =? actor_tenant_id actor) then Err (HTTPException 404) else Ok c
  | None => Err (HTTPException 404)
  end.

(** The UNIQUE constraints on the names, over all tenants. *)
Definition channel_names_unique (l : list NotificationChannel) : bool := bool_decide (NoDup (map nc_name l)).
Definition routing_names_unique (l : list RoutingRule) : bool := bool_decide (NoDup (map rr_name l)).

Definition create_channel (E : env) (F : fernet) (name : str) (kind : NotificationChannelKind) (config : dict)
    (enabled : bool) (actor : Actor) (db : notify_db) : py (notify_db * NotificationChannel) :=
  if negb (is_admin actor) then Err (HTTPException 403)
  else if negb (text_ok 1 128 name) then Err (HTTPException 422)
  else
    _ ← config_or_400 kind config;
    if existsb (λ c, String.eqb (nc_name c) name && (nc_tenant_id c =? actor_tenant_id actor)) (nt_channels db)
    then Err (HTTPException 400)
    else
      let ch := mkChannel (env_uuid4 E (length (nt_channels db))) (actor_tenant_id actor) name kind
                  (encrypt_config F config) enabled in
      let channels := nt_channels db ++ [ch] in
      if negb (channel_names_unique channels) then Err IntegrityError
      else Ok (nt_audited E actor "notification_channel.create" "notification_channel" (uuid_str (nc_id ch))
                 (audit_payload name kind config enabled) (set_channels channels db), ch).

Definition update_channel (E : env) (F : fernet) (id : uuid) (name : option str) (config : option dict)
    (enabled : option bool) (actor : Actor) (db : notify_db) : py notify_db :=
  if negb (is_admin actor) then Err (HTTPException 403)
  else if negb (opt_ok (text_ok 1 128) name) then Err (HTTPException 422)
  else
    ch ← load_channel db id actor;
    if match name with
       | Some n => negb (String.eqb n (nc_name ch)) &&
                   existsb (λ c, String.eqb (nc_name c) n && (nc_tenant_id c =? actor_tenant_id actor) &&
                                 negb (nc_id c =? id)) (nt_channels db)
       | None => false
       end
    then Err (HTTPException 400)
    else
      _ ← match config with Some c => config_or_400 (nc_kind ch) c | None => Ok tt end;
      let ch' := mkChannel (nc_id ch) (nc_tenant_id ch) (default (nc_name ch) name) (nc_kind ch)
                   (match config with Some c => encrypt_config F c | None => nc_encrypted_config ch end)
                   (default (nc_enabled ch) enabled) in
      view ← match config with
             | Some c => Ok c
             | None => match decrypt_config F (nc_encrypted_config ch) with
                       | Ok v => of_option AttributeError (as_dict v)
                       | Err _ => Ok []
                       end
             end;
      let channels := map (λ c, if nc_id c =? id then ch' else c) (nt_channels db) in
      if negb (channel_names_unique channels) then Err IntegrityError
      else Ok (nt_audited E actor "notification_channel.update" "notification_channel" (uuid_str id)
                 (audit_payload (nc_name ch') (nc_kind ch') view (nc_enabled ch')) (set_channels channels db)).

Definition delete_channel (E : env) (id : uuid) (actor : Actor) (db : notify_db) : py notify_db :=
  if negb (is_admin actor) then Err (HTTPException 403)
  else
    ch ← load_channel db id actor;
    Ok (nt_audited E actor "notification_channel.delete" "notification_channel" (uuid_str id)
          [("name", PStr (nc_name ch)); ("kind", PStr (NotificationChannelKind_value (nc_kind ch)));
           ("redacted", PBool true)]
          (set_channels (List.filter (λ c, negb (nc_id c =? id)) (nt_channels db)) db)).

(** [_validate_refs]: every channel and the group exist in the tenant. *)
Definition validate_refs (db : notify_db) (tenant : uuid) (channel_ids : option (list uuid)) (gid : option uuid) :
    py unit :=
  let found := map nc_id (List.filter (λ c, nc_tenant_id c =? tenant) (nt_channels db)) in
  if match channel_ids with Some l => negb (forallb (λ c, bool_decide (c ∈ found)) l) | None => false end
  then Err (HTTPException 400)
  else if match gid with
          | Some g => match find_group (nt_fleet db) g with
                      | Some grp => negb (hg_tenant_id grp =? tenant) | None => true end
          | None => false end
  then Err (HTTPException 400)
  else Ok tt.

Definition load_routing (db : notify_db) (id : uuid) (actor : Actor) : py RoutingRule :=
  match List.find (λ r, rr_id r =? id) (nt_routing db) with
  | Some r => if negb (rr_tenant_id r =? actor_tenant_id actor) then Err (HTTPException 404) else Ok r
  | None => Err (HTTPException 404)
  end.

Definition routing_payload (r : RoutingRule) : dict :=
  [("name", PStr (rr_name r)); ("min_severity", PStr (Severity_value (rr_min_severity r)));
   ("rule_kind", opt_str (RuleKind_value <$> rr_rule_kind r));
   ("host_group_id", opt_uuid_str (rr_host_group_id r));
   ("channel_ids", PList (map (λ c, PStr (uuid_str c)) (rr_channel_ids r))); ("enabled", PBool (rr_enabled r))].

Definition create_rule (E : env) (name : str) (min_severity : Severity) (kind : option RuleKind)
    (gid : option uuid) (channel_ids : list uuid) (enabled : bool) (actor : Actor) (db : notify_db) :
    py (notify_db * RoutingRule) :=
  if negb (is_admin actor) then Err (HTTPException 403)
  else if negb (text_ok 1 128 name) then Err (HTTPException 422)
  else if existsb (λ r, String.eqb (rr_name r) name && (rr_tenant_id r =? actor_tenant_id actor)) (nt_routing db)
  then Err (HTTPException 400)
  else
    _ ← validate_refs db (actor_tenant_id actor) (Some channel_ids) gid;
    let r := mkRoutingRule (env_uuid4 E (length (nt_routing db))) (actor_tenant_id actor) name min_severity kind
               gid channel_ids enabled in
    let rules := nt_routing db ++ [r] in
    if negb (routing_names_unique rules) then Err IntegrityError
    else Ok (nt_audited E actor "routing_rule.create" "routing_rule" (uuid_str (rr_id r)) (routing_payload r)
               (set_routing rules db), r).

Definition update_rule (E : env) (id : uuid) (name : option str) (min_severity : option Severity)
    (kind : option RuleKind) (gid : option uuid) (channel_ids : option (list uuid)) (enabled : option bool)
    (actor : Actor) (db : notify_db) : py notify_db :=
  if negb (is_admin actor) then Err (HTTPException 403)
  else if negb (opt_ok (text_ok 1 128) name) then Err (HTTPException 422)
  else
    r ← load_routing db id actor;
    if match name with
       | Some n => negb (String.eqb n (rr_name r)) &&
                   existsb (λ x, String.eqb (rr_name x) n && (rr_tenant_id x =? actor_tenant_id actor) &&
                                 negb (rr_id x =? id)) (nt_routing db)
       | None => false
       end
    then Err (HTTPException 400)
    else
      _ ← validate_refs db (actor_tenant_id actor) None gid;
      _ ← validate_refs db (actor_tenant_id actor) channel_ids None;
      let r' := mkRoutingRule (rr_id r) (rr_tenant_id r) (default (rr_name r) name)
                  (default (rr_min_severity r) min_severity)
                  (match kind with Some k => Some k | None => rr_rule_kind r end)
                  (match gid with Some g => Some g | None => rr_host_group_id r end)
                  (default (rr_channel_ids r) channel_ids) (default (rr_enabled r) enabled) in
      let rules := map (λ x, if rr_id x =? id then r' else x) (nt_routing db) in
      if negb (routing_names_unique rules) then Err IntegrityError
      else Ok (nt_audited E actor "routing_rule.update" "routing_rule" (uuid_str id) (routing_payload r')
                 (set_routing rules db)).

Definition delete_rule (E : env) (id : uuid) (actor : Actor) (db : notify_db) : py notify_db :=
  if negb (is_admin actor) then Err (HTTPException 403)
  else
    r ← load_routing db id actor;
    Ok (nt_audited E actor "routing_rule.delete" "routing_rule" (uuid_str id) [("name", PStr (rr_name r))]
          (set_routing (List.filter (λ x, negb (rr_id x =? id)) (nt_routing db)) db)).

(** Deleting a host group sets the column of its routing rules to NULL. *)
Definition unscope (gid : uuid) (r : RoutingRule) : RoutingRule :=
  if of_group gid (rr_host_group_id r)
  then mkRoutingRule (rr_id r) (rr_tenant_id r) (rr_name r) (rr_min_severity r) (rr_rule_kind r) None
         (rr_channel_ids r) (rr_enabled r)
  else r.
Definition delete_host_group (E : env) (gid : uuid) (actor : Actor) (db : notify_db) : py notify_db :=
  f ← delete_group E gid actor (nt_fleet db);
  Ok (mkNotify f (nt_rules db) (nt_channels db) (map (unscope gid) (nt_routing db))).

(** [_hydrate]: the fingerprint shown beside the row. *)
Definition hydrate (F : fernet) (ch : NotificationChannel) : NotificationChannel * option str :=
  (ch, match decrypt_config F (nc_encrypted_config ch) with
       | Ok (PDict cfg) => Some (secret_fingerprint (nc_kind ch) cfg)
       | _ => None
       end).

(** ** Polling *)

Lemma insert_by_filter {A} (key : A → Z) (p : A → bool) x l :
  ascending key l →
  List.filter p (insert_by key x l) = if p x then insert_by key x (List.filter p l) else List.filter p l.
Proof.
  induction l as [|y l IH]; intros Ha; [done|]. cbn [insert_by].
  assert (ascending key l) as Ha' by (destruct l; [done|apply Ha]).
  destruct (Z.leb_spec (key x) (key y)) as [Hle|Hgt].
  - cbn [List.filter]. destruct (p x); [|done]. destruct (p y) eqn:Hy.
    + cbn [insert_by]. by apply Z.leb_le in Hle as ->.
    + assert (∀ z, z ∈ l → key x ≤ key z) as Hall.
      { intros z Hz. assert (key y ≤ key z); [|lia]. clear -Ha Hz. revert y Ha. induction l as [|w l IH]; intros y Ha; [by inversion Hz|].
        destruct Ha as [Hyw Ha]. apply elem_of_cons in Hz as [->|Hz]; [done|]. specialize (IH Hz w Ha). lia. }
      clear -Hall. induction l as [|z l IH]; [done|]. cbn [List.filter]. destruct (p z).
      * cbn [insert_by]. assert (key x <=? key z = true) as -> by (apply Z.leb_le, Hall; by left). done.
      * apply IH. intros w Hw. apply Hall. by right.
  - cbn [List.filter]. rewrite IH by done. destruct (p x), (p y); try done. cbn [insert_by].
    by apply Z.leb_gt in Hgt as ->.
Qed.

Lemma sort_by_filter {A} (key : A → Z) (p : A → bool) l :
  sort_by key (List.filter p l) = List.filter p (sort_by key l).
Proof.
  induction l as [|x l IH]; [done|]. cbn [sort_by List.filter]. rewrite insert_by_filter by apply sort_by_ascending.
  destruct (p x); cbn [sort_by]; by rewrite IH.
Qed.

(** In a list whose keys increase strictly, the rows after the last of a prefix
    are the rest. *)
Definition increasing (l : alert_table) : Prop := StronglySorted Z.lt (map fst l).

Lemma sort_by_increasing (l : alert_table) : NoDup (map fst l) → increasing (sort_by fst l).
Proof.
  intros Hnd. assert (NoDup (map fst (sort_by fst l))) as Hn by (by rewrite sort_by_perm).
  revert Hn. pose proof (sort_by_ascending fst l) as Ha. revert Ha. generalize (sort_by fst l) as s. clear.
  unfold increasing. intros s Ha Hn. apply Sorted_StronglySorted; [intros x y z; lia|].
  induction s as [|x s IH]; simpl in *; constructor.
  - apply IH; [by destruct s; [|apply Ha]|by inversion Hn].
  - destruct s as [|y s]; simpl; constructor. destruct Ha as [Hle _]. apply NoDup_cons in Hn as [Hx _].
    assert (x.1 ≠ y.1) by (intros E; apply Hx; rewrite E; by left). lia.
Qed.

Lemma increasing_app l k :
  increasing (l ++ k) ↔ increasing l ∧ increasing k ∧ ∀ x y, x ∈ l → y ∈ k → x.1 < y.1.
Proof.
  unfold increasing. rewrite map_app. induction l as [|x l IH]; simpl.
  - split; [|tauto]. intros Hk. repeat split; [constructor|done|]. intros ? ? Hx. by apply elem_of_nil in Hx.
  - split.
    + intros H. inversion H as [|? ? Hs Hf]; subst. apply IH in Hs as (Hl & Hk & Hlk). rewrite Forall_app in Hf.
      destruct Hf as [Hf1 Hf2]. repeat split; [by constructor|done|]. intros u v [->|Hu]%elem_of_cons Hv; [|by apply Hlk].
      rewrite Forall_forall in Hf2. apply Hf2. apply list_elem_of_fmap. by exists v.
    + intros (Hl & Hk & Hlk). inversion Hl as [|? ? Hs Hf]; subst. constructor.
      * apply IH. repeat split; [done|done|]. intros u v Hu. apply Hlk. by right.
      * rewrite Forall_app. split; [done|]. rewrite Forall_forall. intros z (v & -> & Hv)%list_elem_of_fmap.
        apply Hlk; [by left|done].
Qed.

Lemma increasing_last l k row :
  increasing (l ++ k) → last l = Some row → List.filter (λ r : datetime * Alert, row.1 <? r.1) (l ++ k) = k.
Proof.
  intros Hs Hlast. apply last_Some in Hlast as [l' ->]. rewrite <-app_assoc in Hs. cbn [app] in Hs.
  rewrite <-app_assoc. cbn [app]. rewrite List.filter_app.
  assert (Hsk := Hs). apply increasing_app in Hsk as (_ & Hrk & Hlr).
  change (row :: k) with ([row] ++ k) in Hrk. apply increasing_app in Hrk as (_ & _ & Hrk).
  rewrite (filter_none (λ r : datetime * Alert, row.1 <? r.1) l').
  - cbn [List.filter app]. rewrite Z.ltb_irrefl. apply filter_all. intros r Hr. apply Z.ltb_lt, Hrk; [by left|done].
  - intros r Hr. apply Z.ltb_ge. assert (r.1 < row.1); [|lia]. apply Hlr; [done|by left].
Qed.

Lemma elem_of_taken {A} (x : A) n l : x ∈ take n l → x ∈ l.
Proof. intros H. rewrite <-(take_drop n l). apply elem_of_app. by left. Qed.
Lemma last_elem {A} (l : list A) x : last l = Some x → x ∈ l.
Proof. intros [l' ->]%last_Some. apply elem_of_app. right. by left. Qed.

Lemma filter_and {A} (p q : A → bool) l : List.filter p (List.filter q l) = List.filter (λ x, q x && p x) l.
Proof. induction l as [|x l IH]; [done|]. simpl. destruct (q x); simpl; [|done]. destruct (p x); by rewrite IH. Qed.

Lemma tick_rows_sorted batch table seen :
  tick_rows batch table seen = take batch (List.filter (λ row, seen <? row.1) (sort_by fst table)).
Proof. unfold tick_rows. by rewrite sort_by_filter. Qed.

Lemma dispatch_rows_ok dispatch rows : (∀ a, is_ok (dispatch a) = true) → dispatch_rows dispatch rows = (rows, false).
Proof.
  intros Hok. induction rows as [|row rows IH]; [done|]. simpl. specialize (Hok row.2).
  destruct (dispatch row.2); [|done]. by rewrite IH.
Qed.

Lemma dispatch_rows_elem dispatch rows row : row ∈ (dispatch_rows dispatch rows).1 → row ∈ rows.
Proof.
  induction rows as [|x rows IH]; simpl; [done|]. destruct (dispatch x.2); [|by intros ?%elem_of_nil].
  destruct (dispatch_rows dispatch rows) as [d c]. simpl in *. rewrite !elem_of_cons. naive_solver.
Qed.

Lemma tick_rows_elem batch table seen row : row ∈ tick_rows batch table seen → row ∈ table ∧ seen < row.1.
Proof.
  unfold tick_rows. intros H%elem_of_taken. rewrite sort_by_perm, list_elem_of_In, filter_In, Z.ltb_lt in H.
  by rewrite list_elem_of_In.
Qed.

Lemma tick_once_elem dispatch batch table seen row :
  row ∈ (tick_once dispatch batch table seen).1 → row ∈ table ∧ seen < row.1.
Proof.
  unfold tick_once. destruct (dispatch_rows _ _) as [d c] eqn:E. simpl. intros H.
  apply tick_rows_elem with batch. apply (dispatch_rows_elem dispatch). by rewrite E.
Qed.

Lemma tick_once_seen dispatch batch table seen : seen ≤ (tick_once dispatch batch table seen).2.
Proof.
  unfold tick_once. destruct (dispatch_rows _ _) as [d []]; simpl; [lia|].
  destruct (last (tick_rows batch table seen)) as [row|] eqn:E; [|lia].
  apply last_elem in E. apply tick_rows_elem in E. lia.
Qed.

Lemma ticks_elem dispatch batch tables seen row :
  row ∈ (ticks dispatch batch tables seen).1 → (∃ table, table ∈ tables ∧ row ∈ table) ∧ seen < row.1.
Proof.
  revert seen. induction tables as [|table tables IH]; intros seen; simpl; [by intros ?%elem_of_nil|].
  destruct (tick_once dispatch batch table seen) as [d1 s1] eqn:E1.
  destruct (ticks dispatch batch tables s1) as [d2 s2] eqn:E2. simpl. intros [H|H]%elem_of_app.
  - pose proof (tick_once_elem dispatch batch table seen row) as Ht. rewrite E1 in Ht. apply Ht in H as [Hin Hlt].
    split; [|done]. exists table. split; [by left|done].
  - pose proof (tick_once_seen dispatch batch table seen) as Hs. rewrite E1 in Hs. simpl in Hs.
    specialize (IH s1). rewrite E2 in IH. apply IH in H as [(t & Ht & Hin) Hlt]. split; [|lia].
    exists t. split; [by right|done].
Qed.

(** With distinct timestamps and no failure, a poll dispatches the next [batch]
    rows, and leaves the rest. *)
Lemma tick_once_step dispatch batch table seen :
  (∀ a, is_ok (dispatch a) = true) → NoDup (map fst table) →
  let pending := List.filter (λ row, seen <? row.1) (sort_by fst table) in
  ∃ seen', tick_once dispatch batch table seen = (take batch pending, seen') ∧
    (batch ≠ 0%nat → List.filter (λ row, seen' <? row.1) (sort_by fst table) = drop batch pending).
Proof.
  intros Hok Hnd pending. unfold tick_once. rewrite tick_rows_sorted, dispatch_rows_ok by done. fold pending.
  eexists. split; [reflexivity|]. intros Hb.
  assert (increasing pending) as Hinc.
  { unfold pending. rewrite <-sort_by_filter. apply sort_by_increasing. by apply NoDup_map_filterb. }
  destruct (last (take batch pending)) as [row|] eqn:El.
  - rewrite <-(take_drop batch pending) in Hinc.
    rewrite <-(increasing_last _ _ row Hinc El) at 1. rewrite take_drop.
    apply last_elem, elem_of_taken, list_elem_of_In in El. apply filter_In in El as [_ El%Z.ltb_lt].
    unfold pending. rewrite filter_and. apply filter_ext. intros r.
    destruct (Z.ltb_spec row.1 r.1), (Z.ltb_spec seen r.1); try done; lia.
  - apply last_None in El. destruct batch as [|b]; [done|]. fold pending. clearbody pending. by destruct pending.
Qed.

Lemma ticks_drain dispatch batch table n seen :
  (∀ a, is_ok (dispatch a) = true) → NoDup (map fst table) → batch ≠ 0%nat →
  (length (List.filter (λ row, seen <? row.1)%Z (sort_by fst table)) ≤ n)%nat →
  (ticks dispatch batch (replicate n table) seen).1 = List.filter (λ row, seen <? row.1) (sort_by fst table).
Proof.
  intros Hok Hnd Hb. revert seen. induction n as [|n IH]; intros seen Hlen.
  { destruct (List.filter _ _); [done|simpl in Hlen; lia]. }
  cbn [replicate ticks]. destruct (tick_once_step dispatch batch table seen Hok Hnd) as (seen' & -> & Hrest).
  specialize (IH seen'). rewrite Hrest in IH by done.
  destruct (ticks _ _ _ seen') as [d2 s2]. cbn [fst] in *. rewrite IH; [by rewrite take_drop|].
  rewrite length_drop. lia.
Qed.

Lemma ticks_increasing dispatch batch tables seen :
  (∀ a, is_ok (dispatch a) = true) → Forall (λ t, NoDup (map fst t)) tables →
  increasing (ticks dispatch batch tables seen).1.
Proof.
  intros Hok Ht. revert seen. induction Ht as [|table tables Hnd Ht IH]; intros seen; [constructor|].
  cbn [ticks]. pose proof (λ row, ticks_elem dispatch batch tables (tick_once dispatch batch table seen).2 row) as Hlate.
  pose proof (tick_rows_sorted batch table seen) as Hrows.
  assert (increasing (tick_rows batch table seen)) as Hinc.
  { assert (increasing (sort_by fst (List.filter (λ row, seen <? row.1) table))) as Hi
      by (by apply sort_by_increasing, NoDup_map_filterb).
    rewrite <-(take_drop batch) in Hi. by apply increasing_app in Hi as [Hi _]. }
  unfold tick_once in *. rewrite dispatch_rows_ok in * by done.
  set (seen' := match last (tick_rows batch table seen) with Some row => row.1 | None => seen end) in *.
  cbn [snd] in Hlate. specialize (IH seen'). destruct (ticks dispatch batch tables seen') as [d2 s2].
  cbn [fst] in *. apply increasing_app. repeat split; [done..|]. intros x y Hx Hy.
  apply Hlate in Hy as [_ Hy]. assert (x.1 ≤ seen'); [|lia].
  unfold seen'. destruct (last _) as [row|] eqn:El; [|apply last_None in El; rewrite El in Hx; by apply elem_of_nil in Hx].
  apply last_Some in El as [l El]. rewrite El in Hinc, Hx. apply elem_of_app in Hx as [Hx|Hx].
  - apply increasing_app in Hinc as (_ & _ & Hlt). assert (x.1 < row.1); [|lia]. apply Hlt; [done|by left].
  - apply list_elem_of_singleton in Hx as ->. lia.
Qed.

Lemma increasing_NoDup l : increasing l → NoDup l.
Proof.
  unfold increasing. induction l as [|x l IH]; simpl; [constructor|]. intros H. inversion H as [|? ? Hs Hf]; subst.
  constructor; [|auto]. intros Hin. rewrite Forall_forall in Hf. specialize (Hf x.1).
  assert (x.1 ∈ map fst l) as Hm by (apply list_elem_of_fmap; by exists x). specialize (Hf Hm). lia.
Qed.


(** An alert is never routed when its row becomes visible after the router
    has passed its timestamp, which the transaction that inserts it draws before
    it commits: no later poll dispatches it, whatever tables they find. *)
Theorem late_alert_never_routed dispatch batch table tables seen row :
  row.1 ≤ (tick_once dispatch batch table seen).2 → row ∉ table →
  row ∉ (ticks dispatch batch (table :: tables) seen).1.
Proof.
  intros Hlate Hnot Hin. cbn [ticks] in Hin. destruct (tick_once dispatch batch table seen) as [d1 s1] eqn:E1.
  destruct (ticks dispatch batch tables s1) as [d2 s2] eqn:E2. cbn [fst snd] in *.
  apply elem_of_app in Hin as [Hin|Hin].
  - pose proof (tick_once_elem dispatch batch table seen row) as H. rewrite E1 in H. by apply H in Hin as [? _].
  - pose proof (ticks_elem dispatch batch tables s1 row) as H. rewrite E2 in H. apply H in Hin as [_ ?]. lia.
Qed.

(** ** Which channels an alert fires *)

(** A routing rule selects an alert: the floor, the kind of the rule that fired and
    the host group. *)
Definition selects (db : notify_db) (r : RoutingRule) (a : Alert) : Prop :=
  rr_enabled r = true ∧
  SEVERITY_ORDER (rr_min_severity r) ≤ SEVERITY_ORDER (al_severity a) ∧
  (∀ k, rr_rule_kind r = Some k →
     ∃ rule, List.find (λ x, rule_id x =? al_rule_id a) (nt_rules db) = Some rule ∧ rule_kind rule = k) ∧
  (∀ g, rr_host_group_id r = Some g →
     ∃ h, al_host_id a = Some h ∧ (h, g) ∈ sc_host_in_group (scope (nt_fleet db))).

(** Attempt [k] is the first that succeeds, and none before it failed for good. *)
Definition delivered (send : Z → py unit) : Prop :=
  ∃ k, 1 ≤ k ≤ 3 ∧ is_ok (send k) = true ∧
    ∀ j, 1 ≤ j < k → ∃ exc, send j = Err exc ∧ permanent exc = false.

Lemma member_elem s h g : member s h g = true ↔ (h, g) ∈ sc_host_in_group s.
Proof.
  unfold member. rewrite existsb_exists. setoid_rewrite <-list_elem_of_In. split.
  - intros ([h' g'] & Hin & H). simpl in H. apply andb_true_iff in H as [?%Z.eqb_eq ?%Z.eqb_eq]. by subst.
  - intros Hin. exists (h, g). split; [done|]. simpl. by rewrite !Z.eqb_refl.
Qed.

Lemma RuleKind_value_inj k k' : RuleKind_value k = RuleKind_value k' → k = k'.
Proof. by destruct k, k'. Qed.

Lemma rule_fires_selects db r a :
  rr_enabled r = true →
  rule_fires (scope (nt_fleet db)) (envelope_from_alert db a) r = true ↔ selects db r a ∧ rr_channel_ids r ≠ [].
Proof.
  intros Hen. unfold rule_fires, selects, severity_at_least. cbn [envelope_from_alert ev_severity ev_rule_kind ev_host_id].
  destruct (Z.leb_spec (SEVERITY_ORDER (rr_min_severity r)) (SEVERITY_ORDER (al_severity a))) as [Hs|Hs]; cbn [negb];
    [|split; [done|intros ((_ & ? & _) & _); lia]].
  assert (Hk : match rr_rule_kind r with
               | Some k => negb (bool_decide ((λ r, RuleKind_value (rule_kind r)) <$>
                                   List.find (λ r, rule_id r =? al_rule_id a) (nt_rules db) = Some (RuleKind_value k)))
               | None => false end = false ↔
               ∀ k, rr_rule_kind r = Some k → ∃ rule,
                 List.find (λ x, rule_id x =? al_rule_id a) (nt_rules db) = Some rule ∧ rule_kind rule = k).
  { destruct (rr_rule_kind r) as [k|]; [|naive_solver]. rewrite negb_false_iff, bool_decide_eq_true, fmap_Some.
    split; [|naive_solver]. intros (x & Hx & Hv%RuleKind_value_inj) k' [= <-]. eauto. }
  destruct (match rr_rule_kind r with Some _ => _ | None => _ end).
  { split; [done|]. intros ((_ & _ & H & _) & _). apply Hk in H. done. }
  assert (Hg : match rr_host_group_id r with
               | Some g => match al_host_id a with None => true | Some h => negb (member (scope (nt_fleet db)) h g) end
               | None => false end = false ↔
               ∀ g, rr_host_group_id r = Some g → ∃ h, al_host_id a = Some h ∧ (h, g) ∈ sc_host_in_group (scope (nt_fleet db))).
  { destruct (rr_host_group_id r) as [g|]; [|naive_solver]. destruct (al_host_id a) as [h|]; [|naive_solver].
    rewrite negb_false_iff, member_elem. naive_solver. }
  destruct (match rr_host_group_id r with Some _ => _ | None => _ end).
  { split; [done|]. intros ((_ & _ & _ & H) & _). apply Hg in H. done. }
  rewrite negb_true_iff, bool_decide_eq_false. naive_solver.
Qed.

Lemma channels_for_spec db a ch :
  ch ∈ channels_for db (envelope_from_alert db a) ↔
  ch ∈ nt_channels db ∧ nc_enabled ch = true ∧ ∃ r, r ∈ nt_routing db ∧ selects db r a ∧ nc_id ch ∈ rr_channel_ids r.
Proof.
  unfold channels_for. rewrite list_elem_of_In, filter_In, andb_true_iff, bool_decide_eq_true, <-list_elem_of_In.
  rewrite elem_of_dedup. setoid_rewrite (list_elem_of_In (flat_map _ _) (nc_id ch)). rewrite in_flat_map.
  setoid_rewrite <-list_elem_of_In. split.
  - intros (Hin & (r & Hr & Hc) & Hen). split; [done|]. split; [done|]. exists r.
    unfold matching_rules in Hr. rewrite list_elem_of_In, !filter_In, <-list_elem_of_In in Hr.
    destruct Hr as [[Hr He] Hf]. apply rule_fires_selects in Hf as [Hf _]; done.
  - intros (Hin & Hen & r & Hr & Hs & Hc). split; [done|]. split; [|done]. exists r. split; [|done].
    unfold matching_rules. rewrite list_elem_of_In, !filter_In, <-list_elem_of_In.
    pose proof Hs as [He _]. split; [done|]. apply rule_fires_selects; [done|]. split; [done|].
    intros E. rewrite E in Hc. by apply elem_of_nil in Hc.
Qed.

Lemma retry_delivered send : (retry_loop send [1; 2; 3]).1 = true ↔ delivered send.
Proof.
  unfold delivered. split.
  - simpl. destruct (send 1) as [u|e1] eqn:E1; [intros _; exists 1; rewrite E1; repeat split; [lia..|done|lia]|].
    destruct (permanent e1) eqn:P1; [done|].
    destruct (send 2) as [u|e2] eqn:E2.
    { intros _. exists 2. rewrite E2. repeat split; [lia..|done|]. intros j Hj. assert (j = 1) as -> by lia. eauto. }
    destruct (permanent e2) eqn:P2; [done|]. destruct (send 3) as [u|e3] eqn:E3.
    { intros _. exists 3. rewrite E3. repeat split; [lia..|done|]. intros j Hj.
      assert (j = 1 ∨ j = 2) as [->| ->] by lia; eauto. }
    by destruct (permanent e3).
  - intros (k & Hk & Hok & Hbefore). simpl. assert (k = 1 ∨ k = 2 ∨ k = 3) as [->|[->| ->]] by lia.
    + by destruct (send 1).
    + destruct (Hbefore 1 ltac:(lia)) as (e1 & -> & ->). by destruct (send 2).
    + destruct (Hbefore 1 ltac:(lia)) as (e1 & -> & ->), (Hbefore 2 ltac:(lia)) as (e2 & -> & ->). by destruct (send 3).
Qed.

(** C21: an alert fires exactly the enabled channels that the routing rules
    selecting it name, once each; a channel counts as a success when its
    configuration decrypts and one of the three attempts is accepted before any
    failed for good; and the two counts are those of the results. *)
Theorem dispatch_fires_exactly F O db a :
  NoDup (map nc_id (nt_channels db)) →
  let '(results, (succeeded, failed)) := dispatch_for_alert F O db a in
  NoDup (map fst results) ∧
  (∀ ch, ch ∈ nt_channels db →
     (nc_id ch ∈ map fst results ↔
      nc_enabled ch = true ∧ ∃ r, r ∈ nt_routing db ∧ selects db r a ∧ nc_id ch ∈ rr_channel_ids r) ∧
     ((nc_id ch, true) ∈ results ↔
      nc_id ch ∈ map fst results ∧ ∃ config, decrypt_config F (nc_encrypted_config ch) = Ok config ∧
        delivered (λ k, send_once O k (nc_kind ch) config (envelope_from_alert db a)))) ∧
  succeeded = Z.of_nat (countb snd results) ∧ failed = Z.of_nat (countb (λ r, negb r.2) results).
Proof.
  intros Hnd. unfold dispatch_for_alert. set (e := envelope_from_alert db a).
  set (results := map (λ ch, (nc_id ch, fire_one F O e ch)) (channels_for db e)).
  assert (Hfst : map fst results = map nc_id (channels_for db e)) by (unfold results; by rewrite map_map).
  split; [rewrite Hfst; by apply NoDup_map_filterb|]. split.
  - intros ch Hch.
    assert (Huniq : ∀ ch', ch' ∈ channels_for db e → nc_id ch' = nc_id ch → ch' = ch).
    { intros ch' Hin Heq. apply (channels_for_spec db a) in Hin as (Hin & _). by apply (NoDup_key_inj nc_id (nt_channels db)). }
    assert (Hin : nc_id ch ∈ map fst results ↔ ch ∈ channels_for db e).
    { rewrite Hfst, list_elem_of_fmap. split; [|eauto]. intros (ch' & Heq & Hin). by rewrite <-(Huniq ch'). }
    split; [rewrite Hin; unfold e; rewrite channels_for_spec; naive_solver|].
    transitivity (ch ∈ channels_for db e ∧ fire_one F O e ch = true).
    + unfold results. rewrite list_elem_of_fmap. split; [|intros [Hc Hf]; exists ch; by rewrite Hf].
      intros (ch' & Heq & Hc). injection Heq as Hid Hf. symmetry in Hid. by apply Huniq in Hid as ->.
    + rewrite Hin. apply and_iff_compat_l. unfold fire_one, send_with_retry.
      destruct (decrypt_config _ _) as [config|exc].
      * rewrite retry_delivered. split; [eauto|]. intros (c & Hc & Hd). by injection Hc as ->.
      * split; [done|]. by intros (c & Hc & _).
  - split; [done|]. pose proof (countb_complement snd results). lia.
Qed.

(** ** The stored configuration is the one given *)

Lemma dict_get_perm {A} k (d e : list (str * A)) : NoDup d.*1 → d ≡ₚ e → dict_get k d = dict_get k e.
Proof.
  intros Hnd Hp. assert (NoDup e.*1) as Hne by (by rewrite <-Hp).
  destruct (dict_get k d) as [v|] eqn:E.
  - symmetry. apply dict_elem_get; [done|]. rewrite <-Hp. by apply dict_get_elem.
  - symmetry. apply dict_get_None. rewrite <-Hp. by apply dict_get_None.
Qed.

Lemma dict_get_map {A B} (f : A → B) k (d : list (str * A)) :
  dict_get k (map (λ kv, (kv.1, f kv.2)) d) = f <$> dict_get k d.
Proof. induction d as [|[j v] d IH]; simpl; [done|]. by destruct (String.eqb k j). Qed.

Lemma stored_config F config k :
  (∀ b, fernet_decrypt F (fernet_encrypt F b) = Some b) → plain (PDict config) →
  ∃ config', decrypt_config F (encrypt_config F config) = Ok (PDict config') ∧
    dict_get k config' = sort_keys <$> dict_get k config.
Proof.
  intros HF Hp. unfold decrypt_config, encrypt_config. rewrite HF, json_bytes_roundtrip by done.
  eexists. split; [reflexivity|]. rewrite <-dict_get_map. apply plain_dict in Hp as [Hnd _].
  apply dict_get_perm; [|apply sort_items_perm]. rewrite sort_items_perm.
  by rewrite <-list_fmap_compose.
Qed.

Lemma get_none_Some k d v : get_none k d = v → v ≠ PNone → dict_get k d = Some v.
Proof. unfold get_none, get_default. destruct (dict_get k d); simpl; congruence. Qed.

(** What an administrator stores is what is used: a Slack channel that the
    API accepts posts every alert to the webhook of the request, although the
    configuration has been serialised, encrypted and read back in between. *)
Theorem created_channel_posts E F name config enabled actor db db' ch :
  create_channel E F name SLACK config enabled actor db = Ok (db', ch) →
  (∀ b, fernet_decrypt F (fernet_encrypt F b) = Some b) → plain (PDict config) →
  ch ∈ nt_channels db' ∧
  ∃ url, dict_get "webhook_url" config = Some (PStr url) ∧
    ∀ O e, fire_one F O e ch = true ↔ delivered (λ k, slack_post O k (PStr url) e).
Proof.
  intros Hc HF Hp. unfold create_channel in Hc.
  destruct (negb (is_admin actor)); [done|]. destruct (negb (text_ok 1 128 name)); [done|].
  unfold config_or_400, validate_config in Hc.
  destruct (stored_config F config "webhook_url" HF Hp) as (config' & Hd & Hget).
  destruct (get_none "webhook_url" config) as [| | | |url| |] eqn:Eu; try done.
  apply get_none_Some in Eu; [|done]. rewrite Eu in Hget.
  destruct (starts_with "https://" url || starts_with "http://" url); [|done]. cbn [mbind res_bind] in Hc.
  destruct (existsb _ _); [done|]. destruct (negb (channel_names_unique _)); [done|].
  injection Hc as <- <-. split; [apply elem_of_app; right; by left|]. exists url. split; [done|].
  intros O e. unfold fire_one. cbn [nc_encrypted_config nc_kind]. rewrite Hd. unfold send_with_retry.
  rewrite retry_delivered. unfold send_once, item. by rewrite Hget.
Qed.

(** ** Tenants *)

(** The references of the routing rules stay inside their tenant. *)
Record refs_in_tenant (db : notify_db) : Prop := {
  rit_ids : NoDup (map nc_id (nt_channels db));
  rit_group_ids : NoDup (map hg_id (fl_groups (nt_fleet db)));
  rit_channels : ∀ r ch, r ∈ nt_routing db → ch ∈ nt_channels db → nc_id ch ∈ rr_channel_ids r →
    nc_tenant_id ch = rr_tenant_id r;
  rit_groups : ∀ r g, r ∈ nt_routing db → rr_host_group_id r = Some g →
    ∃ grp, grp ∈ fl_groups (nt_fleet db) ∧ hg_id grp = g ∧ hg_tenant_id grp = rr_tenant_id r
}.

(** One request of an operator; the identifier drawn for a new channel or group is
    new to the tables. *)
Inductive notify_step (E : env) (F : fernet) : notify_db → notify_db → Prop :=
| NS_create_channel name kind config enabled actor db db' ch :
    create_channel E F name kind config enabled actor db = Ok (db', ch) →
    nc_id ch ∉ map nc_id (nt_channels db) → nc_id ch ∉ flat_map rr_channel_ids (nt_routing db) →
    notify_step E F db db'
| NS_update_channel id name config enabled actor db db' :
    update_channel E F id name config enabled actor db = Ok db' → notify_step E F db db'
| NS_delete_channel id actor db db' : delete_channel E id actor db = Ok db' → notify_step E F db db'
| NS_create_rule name sev kind gid cids enabled actor db db' r :
    create_rule E name sev kind gid cids enabled actor db = Ok (db', r) → notify_step E F db db'
| NS_update_rule id name sev kind gid cids enabled actor db db' :
    update_rule E id name sev kind gid cids enabled actor db = Ok db' → notify_step E F db db'
| NS_delete_rule id actor db db' : delete_rule E id actor db = Ok db' → notify_step E F db db'
| NS_create_group name descr actor db f g :
    create_group E name descr actor (nt_fleet db) = Ok (f, g) → hg_id g ∉ map hg_id (fl_groups (nt_fleet db)) →
    notify_step E F db (set_nt_fleet f db)
| NS_delete_group gid actor db db' : delete_host_group E gid actor db = Ok db' → notify_step E F db db'.

Lemma validate_refs_ok db tenant cids gid :
  refs_in_tenant db → validate_refs db tenant cids gid = Ok tt →
  (∀ l c ch, cids = Some l → c ∈ l → ch ∈ nt_channels db → nc_id ch = c → nc_tenant_id ch = tenant) ∧
  (∀ g, gid = Some g → ∃ grp, grp ∈ fl_groups (nt_fleet db) ∧ hg_id grp = g ∧ hg_tenant_id grp = tenant).
Proof.
  intros Hr. unfold validate_refs. set (found := map nc_id _).
  destruct (match cids with Some _ => _ | None => _ end) eqn:Ec; [done|].
  destruct (match gid with Some _ => _ | None => _ end) eqn:Eg; [done|]. intros _. split.
  - intros l c ch -> Hc Hch Hid. apply negb_false_iff in Ec. rewrite forallb_Forall', Forall_forall in Ec.
    specialize (Ec c Hc). apply bool_decide_eq_true in Ec. unfold found in Ec.
    apply list_elem_of_fmap in Ec as (ch' & -> & Hin). apply list_elem_of_In, filter_In in Hin as [Hin Ht%Z.eqb_eq].
    apply list_elem_of_In in Hin. rewrite <-Ht. f_equal. by apply (NoDup_key_inj nc_id (nt_channels db)); [apply Hr|..].
  - intros g ->. unfold find_group in Eg. destruct (List.find _ _) as [grp|] eqn:Ef; [|done].
    apply find_some in Ef as [Hin Hid%Z.eqb_eq]. apply negb_false_iff, Z.eqb_eq in Eg.
    exists grp. by rewrite list_elem_of_In.
Qed.

Lemma load_channel_ok db id actor ch :
  load_channel db id actor = Ok ch → ch ∈ nt_channels db ∧ nc_id ch = id ∧ nc_tenant_id ch = actor_tenant_id actor.
Proof.
  unfold load_channel. destruct (List.find _ _) as [c|] eqn:Ef; [|done].
  destruct (Z.eqb_spec (nc_tenant_id c) (actor_tenant_id actor)); [|done]. intros [= <-].
  apply find_some in Ef as [Hin Hid%Z.eqb_eq]. by rewrite list_elem_of_In.
Qed.
Lemma load_routing_ok db id actor r :
  load_routing db id actor = Ok r → r ∈ nt_routing db ∧ rr_id r = id ∧ rr_tenant_id r = actor_tenant_id actor.
Proof.
  unfold load_routing. destruct (List.find _ _) as [c|] eqn:Ef; [|done].
  destruct (Z.eqb_spec (rr_tenant_id c) (actor_tenant_id actor)); [|done]. intros [= <-].
  apply find_some in Ef as [Hin Hid%Z.eqb_eq]. by rewrite list_elem_of_In.
Qed.

Lemma create_channel_refs E F name kind config enabled actor db db' ch :
  create_channel E F name kind config enabled actor db = Ok (db', ch) →
  nc_id ch ∉ map nc_id (nt_channels db) → nc_id ch ∉ flat_map rr_channel_ids (nt_routing db) →
  refs_in_tenant db → refs_in_tenant db'.
Proof.
  intros Hc Hfresh Hnew [Hi Hgi Hch Hgr]. unfold create_channel in Hc. repeat (case_match; [done|]).
  destruct (config_or_400 _ _); [|done]. cbn [mbind res_bind] in Hc. repeat (case_match; [done|]).
  injection Hc as <- <-. split; [|done| |done]; cbn [nt_channels nt_routing nt_audited set_nt_fleet set_channels].
  - rewrite map_app. apply NoDup_app. split; [done|]. split; [|by apply NoDup_singleton].
    intros x Hx ->%list_elem_of_singleton. by apply Hfresh.
  - intros r c Hr [Hc| ->%list_elem_of_singleton]%elem_of_app Hid; [by apply Hch|]. exfalso. apply Hnew.
    apply list_elem_of_In, in_flat_map. exists r. by rewrite <-!list_elem_of_In.
Qed.

Lemma map_replace_ids {A} (id : A → uuid) (x' : A) k l :
  id x' = k → map id (map (λ x, if id x =? k then x' else x) l) = map id l.
Proof.
  intros Hx. rewrite map_map. apply map_ext. intros x. destruct (Z.eqb_spec (id x) k); congruence.
Qed.
Lemma elem_of_replace {A} (p : A → bool) (x' y : A) l :
  y ∈ map (λ x, if p x then x' else x) l → y = x' ∨ y ∈ l.
Proof. intros (x & -> & Hx)%list_elem_of_fmap. destruct (p x); auto. Qed.

Lemma update_channel_refs E F id name config enabled actor db db' :
  update_channel E F id name config enabled actor db = Ok db' → refs_in_tenant db → refs_in_tenant db'.
Proof.
  intros Hu [Hi Hgi Hch Hgr]. unfold update_channel in Hu. repeat (case_match; [done|]).
  destruct (load_channel db id actor) as [ch|] eqn:El; [|done]. cbn [mbind res_bind] in Hu.
  apply load_channel_ok in El as (Hin & Hid & Ht).
  match type of Hu with (if ?b then _ else _) = _ => destruct b; [done|] end.
  destruct (match config with Some c => config_or_400 (nc_kind ch) c | None => Ok tt end); [|done]. cbn [mbind res_bind] in Hu.
  destruct (match config with Some c => Ok c | None => _ end); [|done]. cbn [mbind res_bind] in Hu.
  repeat (case_match; [done|]). injection Hu as <-.
  split; [|done| |done]; cbn [nt_channels nt_routing nt_audited set_nt_fleet set_channels].
  - by rewrite map_replace_ids.
  - intros r c Hr [->|Hc]%elem_of_replace; [|by apply Hch]. cbn [nc_id nc_tenant_id]. intros Hc. by apply (Hch r ch).
Qed.

Lemma refs_delete_channel E id actor db db' :
  delete_channel E id actor db = Ok db' → refs_in_tenant db → refs_in_tenant db'.
Proof.
  intros Hd [Hi Hgi Hch Hgr]. unfold delete_channel in Hd. case_match; [done|].
  destruct (load_channel db id actor) as [ch|]; [|done]. cbn [mbind res_bind] in Hd. injection Hd as <-.
  split; [|done| |done]; cbn [nt_channels nt_routing nt_audited set_nt_fleet set_channels].
  - by apply NoDup_map_filterb.
  - intros r c Hr Hc. apply list_elem_of_In, filter_In in Hc as [Hc _]. apply Hch; [done|by apply list_elem_of_In].
Qed.

Lemma create_rule_refs E name sev kind gid cids enabled actor db db' r :
  create_rule E name sev kind gid cids enabled actor db = Ok (db', r) → refs_in_tenant db → refs_in_tenant db'.
Proof.
  intros Hc Hrefs. pose proof Hrefs as [Hi Hgi Hch Hgr]. unfold create_rule in Hc. repeat (case_match; [done|]).
  destruct (validate_refs _ _ _ _) as [[]|] eqn:Ev; [|done]. cbn [mbind res_bind] in Hc. repeat (case_match; [done|]).
  apply validate_refs_ok in Ev as [Hvc Hvg]; [|done]. injection Hc as <- <-.
  split; [done|done|..]; cbn [nt_channels nt_routing nt_audited set_nt_fleet set_routing nt_fleet].
  - intros r c [Hr| ->%list_elem_of_singleton]%elem_of_app Hc Hid; [by apply Hch|]. by apply (Hvc cids (nc_id c)).
  - intros r g [Hr| ->%list_elem_of_singleton]%elem_of_app Hg; [by apply Hgr|]. by apply Hvg.
Qed.

Lemma update_rule_refs E id name sev kind gid cids enabled actor db db' :
  update_rule E id name sev kind gid cids enabled actor db = Ok db' → refs_in_tenant db → refs_in_tenant db'.
Proof.
  intros Hu Hrefs. pose proof Hrefs as [Hi Hgi Hch Hgr]. unfold update_rule in Hu. repeat (case_match; [done|]).
  destruct (load_routing db id actor) as [r|] eqn:El; [|done]. cbn [mbind res_bind] in Hu.
  apply load_routing_ok in El as (Hin & Hid & Ht).
  match type of Hu with (if ?b then _ else _) = _ => destruct b; [done|] end.
  destruct (validate_refs db _ None gid) as [[]|] eqn:Eg; [|done]. cbn [mbind res_bind] in Hu.
  destruct (validate_refs db _ cids None) as [[]|] eqn:Ec; [|done]. cbn [mbind res_bind] in Hu.
  repeat (case_match; [done|]). injection Hu as <-.
  apply validate_refs_ok in Eg as [_ Hvg]; [|done]. apply validate_refs_ok in Ec as [Hvc _]; [|done].
  split; [done|done|..]; cbn [nt_channels nt_routing nt_audited set_nt_fleet set_routing nt_fleet].
  - intros x c [->|Hx]%elem_of_replace Hc; [|by apply Hch]. cbn [rr_channel_ids rr_tenant_id].
    destruct cids as [l|]; simpl; [rewrite Ht; intros; by apply (Hvc l (nc_id c))|intros; by apply Hch].
  - intros x g [->|Hx]%elem_of_replace; [|by apply Hgr]. cbn [rr_host_group_id rr_tenant_id].
    destruct gid as [g'|]; [rewrite Ht; by apply Hvg|by apply Hgr].
Qed.

Lemma refs_delete_rule E id actor db db' :
  delete_rule E id actor db = Ok db' → refs_in_tenant db → refs_in_tenant db'.
Proof.
  intros Hd [Hi Hgi Hch Hgr]. unfold delete_rule in Hd. case_match; [done|].
  destruct (load_routing db id actor) as [r|]; [|done]. cbn [mbind res_bind] in Hd. injection Hd as <-.
  split; [done|done|..]; cbn [nt_channels nt_routing nt_audited set_nt_fleet set_routing nt_fleet].
  - intros x c Hx. apply list_elem_of_In, filter_In in Hx as [Hx _]. apply Hch. by apply list_elem_of_In.
  - intros x g Hx. apply list_elem_of_In, filter_In in Hx as [Hx _]. apply Hgr. by apply list_elem_of_In.
Qed.

Lemma create_group_refs E name descr actor db f g :
  create_group E name descr actor (nt_fleet db) = Ok (f, g) → hg_id g ∉ map hg_id (fl_groups (nt_fleet db)) →
  refs_in_tenant db → refs_in_tenant (set_nt_fleet f db).
Proof.
  intros Hc Hfresh [Hi Hgi Hch Hgr]. unfold create_group in Hc. repeat (case_match; [done|]). injection Hc as <- <-.
  split; [done| |done|]; cbn [nt_fleet set_nt_fleet nt_routing audited set_jobs set_groups fl_groups].
  - rewrite map_app. apply NoDup_app. split; [done|]. split; [|by apply NoDup_singleton].
    intros x Hx ->%list_elem_of_singleton. by apply Hfresh.
  - intros r gid Hr Hg. destruct (Hgr r gid Hr Hg) as (grp & Hin & ?). exists grp. split; [|done].
    apply elem_of_app. by left.
Qed.

Lemma unscope_fields gid r :
  rr_tenant_id (unscope gid r) = rr_tenant_id r ∧ rr_channel_ids (unscope gid r) = rr_channel_ids r ∧
  (∀ g, rr_host_group_id (unscope gid r) = Some g → rr_host_group_id r = Some g ∧ g ≠ gid).
Proof.
  unfold unscope, of_group. destruct (rr_host_group_id r) as [g|] eqn:Eg; [|by rewrite Eg].
  destruct (Z.eqb_spec g gid); [done|]. rewrite Eg. split_and!; [done..|]. by intros ? [= <-].
Qed.

Lemma delete_host_group_refs E gid actor db db' :
  delete_host_group E gid actor db = Ok db' → refs_in_tenant db → refs_in_tenant db'.
Proof.
  intros Hd [Hi Hgi Hch Hgr]. unfold delete_host_group, delete_group in Hd.
  destruct (negb (is_admin actor)); [done|]. destruct (load_in_tenant _ _ _); [|done]. cbn [mbind res_bind] in Hd.
  injection Hd as <-. split; [done| |..]; cbn [nt_fleet nt_channels nt_routing audited set_jobs cascade_group fl_groups].
  - by apply NoDup_map_filterb.
  - intros x c (r & -> & Hr)%list_elem_of_fmap Hc. destruct (unscope_fields gid r) as (-> & -> & _). by apply Hch.
  - intros x g (r & -> & Hr)%list_elem_of_fmap Hg. destruct (unscope_fields gid r) as (-> & _ & Hgid).
    apply Hgid in Hg as [Hg Hne]. destruct (Hgr r g Hr Hg) as (grp & Hin & Hid & Ht). exists grp. split; [|done].
    apply list_elem_of_In, filter_In. rewrite <-list_elem_of_In. split; [done|].
    apply negb_true_iff, Z.eqb_neq. congruence.
Qed.

(** Whatever the operators do with channels, routing rules and host groups,
    no routing rule names a channel or a host group of another tenant. *)
Theorem routing_refs_stay_in_tenant E F db db' :
  rtc (notify_step E F) db db' → refs_in_tenant db → refs_in_tenant db'.
Proof.
  intros Hrtc. induction Hrtc as [|db db1 db2 Hstep _ IH]; [done|]. intros Hr. apply IH.
  destruct Hstep; eauto using create_channel_refs, update_channel_refs, refs_delete_channel, create_rule_refs,
    update_rule_refs, refs_delete_rule, create_group_refs, delete_host_group_refs.
Qed.

Lemma fires_selected F O db a ch r :
  ch ∈ nt_channels db → nc_enabled ch = true → r ∈ nt_routing db → selects db r a → nc_id ch ∈ rr_channel_ids r →
  nc_id ch ∈ map fst (dispatch_for_alert F O db a).1.
Proof.
  intros Hch Hen Hr Hs Hid. unfold dispatch_for_alert. cbn [fst]. rewrite map_map. apply list_elem_of_fmap.
  exists ch. split; [done|]. apply channels_for_spec. split_and!; [done..|by exists r].
Qed.

(** The references stay inside a tenant, the alerts do not: a routing rule
    without a host group fires the channel of its own tenant for the alerts of
    every tenant, so that one tenant reads the alerts of another. *)
Theorem alert_leaves_its_tenant F O db a ch r :
  refs_in_tenant db → ch ∈ nt_channels db → nc_enabled ch = true → r ∈ nt_routing db → rr_enabled r = true →
  nc_id ch ∈ rr_channel_ids r → rr_rule_kind r = None → rr_host_group_id r = None →
  SEVERITY_ORDER (rr_min_severity r) ≤ SEVERITY_ORDER (al_severity a) → rr_tenant_id r ≠ al_tenant_id a →
  nc_id ch ∈ map fst (dispatch_for_alert F O db a).1 ∧ nc_tenant_id ch ≠ al_tenant_id a.
Proof.
  intros Hrefs Hch Hen Hr Hre Hid Hk Hg Hsev Ht. split.
  - apply (fires_selected F O db a ch r); try done. split_and!; [done|done|by rewrite Hk|by rewrite Hg].
  - by rewrite (rit_channels db Hrefs r ch).
Qed.

(** Deleting a host group widens the rules that were limited to it: an alert
    that such a rule did not select because its host was outside the group fires
    the rule's channel afterwards. *)
Theorem group_deletion_widens_rule E F O db db' gid actor a ch r :
  delete_host_group E gid actor db = Ok db' →
  ch ∈ nt_channels db → nc_enabled ch = true → r ∈ nt_routing db → rr_enabled r = true →
  nc_id ch ∈ rr_channel_ids r → rr_rule_kind r = None → rr_host_group_id r = Some gid →
  SEVERITY_ORDER (rr_min_severity r) ≤ SEVERITY_ORDER (al_severity a) →
  (∀ h, al_host_id a = Some h → (h, gid) ∉ sc_host_in_group (scope (nt_fleet db))) →
  ¬ selects db r a ∧ nc_id ch ∈ map fst (dispatch_for_alert F O db' a).1.
Proof.
  intros Hd Hch Hen Hr Hre Hid Hk Hg Hsev Hout. split.
  { intros (_ & _ & _ & Hsel). destruct (Hsel gid Hg) as (h & Hh & Hin). by apply (Hout h Hh). }
  unfold delete_host_group, delete_group in Hd.
  destruct (negb (is_admin actor)); [done|]. destruct (load_in_tenant _ _ _); [|done]. cbn [mbind res_bind] in Hd.
  injection Hd as <-. apply (fires_selected F O _ a ch (unscope gid r)); [done|done| | |].
  - apply list_elem_of_fmap. eauto.
  - unfold unscope, of_group. rewrite Hg, Z.eqb_refl. split_and!; [done|done|by rewrite Hk|done].
  - by destruct (unscope_fields gid r) as (_ & -> & _).
Qed.

(** ** Examples *)

Definition demo_fernet : fernet := mkFernet (λ b, "F" +:+ b) (λ b, cut "F" b).
Definition demo_outside : outside :=
  mkOutside (λ attempt _ _, Ok (if attempt =? 1 then 503 else 200, "ok")) (λ _ _, Ok tt) (λ _, "").
Definition demo_webhook : dict := [("webhook_url", PStr "https://hooks.example/T1")].
Definition demo_routed (id tenant : uuid) : Alert :=
  mkAlert id tenant (Some 100) 9 HIGH ALERT NEW "beacon" None None None None 0 None None None None 1 0.
Definition demo_notify : notify_db :=
  mkNotify demo_fleet []
    [mkChannel 900 2 "soc" SLACK (encrypt_config demo_fernet demo_webhook) true]
    [mkRoutingRule 910 2 "everything" LOW None None [900] true;
     mkRoutingRule 911 2 "prod only" LOW None (Some 60) [900] true].

Lemma demo_notify_refs : refs_in_tenant demo_notify.
Proof.
  split.
  - apply NoDup_singleton.
  - by apply (bool_decide_unpack _).
  - intros r ch Hr ->%list_elem_of_singleton _. cbn [demo_notify nt_routing] in Hr.
    repeat (apply elem_of_cons in Hr as [->|Hr]; [reflexivity|]). by apply elem_of_nil in Hr.
  - intros r g Hr Hg. cbn [demo_notify nt_routing] in Hr. apply elem_of_cons in Hr as [->|Hr]; [discriminate Hg|].
    apply list_elem_of_singleton in Hr as ->. injection Hg as <-. exists (mkHostGroup 60 2 "prod" None).
    split; [do 2 right; left|done].
Qed.


Lemma late_alert_never_routed_witness :
  (3, demo_routed 2 1) ∉
  (ticks (λ _, Ok (1, 0)) 10 [[(5, demo_routed 1 1)]; [(5, demo_routed 1 1); (3, demo_routed 2 1)]] 0).1.
Proof.
  apply (late_alert_never_routed (λ _, Ok (1, 0)) 10 [(5, demo_routed 1 1)]
           [[(5, demo_routed 1 1); (3, demo_routed 2 1)]] 0 (3, demo_routed 2 1)).
  - vm_compute. discriminate.
  - intros H%list_elem_of_singleton. discriminate H.
Defined.

Lemma dispatch_fires_exactly_witness :
  (dispatch_for_alert demo_fernet demo_outside demo_notify (demo_routed 1 1)).1 = [(900, true)] ∧
  NoDup (map fst (dispatch_for_alert demo_fernet demo_outside demo_notify (demo_routed 1 1)).1).
Proof.
  split; [vm_compute; reflexivity|].
  pose proof (dispatch_fires_exactly demo_fernet demo_outside demo_notify (demo_routed 1 1)) as H.
  destruct (dispatch_for_alert demo_fernet demo_outside demo_notify (demo_routed 1 1)) as [results [s f]].
  apply H. apply NoDup_singleton.
Defined.

Lemma created_channel_posts_witness :
  ∃ db' ch, create_channel demo_env demo_fernet "ops" SLACK demo_webhook true (demo_admin 1) demo_notify = Ok (db', ch) ∧
    ch ∈ nt_channels db' ∧ ∃ url, dict_get "webhook_url" demo_webhook = Some (PStr url) ∧
    ∀ O e, fire_one demo_fernet O e ch = true ↔ delivered (λ k, slack_post O k (PStr url) e).
Proof.
  destruct (create_channel demo_env demo_fernet "ops" SLACK demo_webhook true (demo_admin 1) demo_notify)
    as [[db' ch]|] eqn:H; [|vm_compute in H; discriminate H].
  exists db', ch. split; [reflexivity|].
  apply (created_channel_posts demo_env demo_fernet "ops" demo_webhook true (demo_admin 1) demo_notify db' ch H).
  - done.
  - split; reflexivity.
Defined.

Lemma routing_refs_stay_in_tenant_witness :
  ∃ db', delete_rule demo_env 910 (demo_admin 2) demo_notify = Ok db' ∧ refs_in_tenant db'.
Proof.
  destruct (delete_rule demo_env 910 (demo_admin 2) demo_notify) as [db'|] eqn:H; [|vm_compute in H; discriminate H].
  exists db'. split; [reflexivity|]. apply (routing_refs_stay_in_tenant demo_env demo_fernet demo_notify db').
  - eapply rtc_l; [|apply rtc_refl]. by eapply NS_delete_rule.
  - exact demo_notify_refs.
Defined.

Lemma alert_leaves_its_tenant_witness :
  900 ∈ map fst (dispatch_for_alert demo_fernet demo_outside demo_notify (demo_routed 1 1)).1.
Proof.
  apply (alert_leaves_its_tenant demo_fernet demo_outside demo_notify (demo_routed 1 1)
           (mkChannel 900 2 "soc" SLACK (encrypt_config demo_fernet demo_webhook) true)
           (mkRoutingRule 910 2 "everything" LOW None None [900] true));
    [exact demo_notify_refs|by left|done|by left|done|by left|done|done|done|done].
Defined.

Lemma group_deletion_widens_rule_witness :
  ∃ db', delete_host_group demo_env 60 (demo_admin 2) demo_notify = Ok db' ∧
    900 ∈ map fst (dispatch_for_alert demo_fernet demo_outside db' (demo_routed 1 1)).1.
Proof.
  destruct (delete_host_group demo_env 60 (demo_admin 2) demo_notify) as [db'|] eqn:H; [|vm_compute in H; discriminate H].
  exists db'. split; [reflexivity|].
  apply (group_deletion_widens_rule demo_env demo_fernet demo_outside demo_notify db' 60 (demo_admin 2) (demo_routed 1 1)
           (mkChannel 900 2 "soc" SLACK (encrypt_config demo_fernet demo_webhook) true)
           (mkRoutingRule 911 2 "prod only" LOW None (Some 60) [900] true));
    [exact H|by left|done|right; by left|done|by left|done|done|done|].
  intros h [= <-] Hin. cbn in Hin. repeat (apply elem_of_cons in Hin as [Hin|Hin]; [discriminate Hin|]).
  by apply elem_of_nil in Hin.
Defined.
