(* ===== verification/Playbooks.v ===== *)
(** * Playbooks: response chains run when an alert fires

    services/playbooks.py, api/playbooks.py and workers/playbook_executor.py.  The
    YAML loader, the AI client, the senders' network and Fernet are arguments of
    the definitions that use them; the clock does not move during a run. *)

From Stdlib Require Import Ascii String.
From S2P Require Import Prelude PyStr PyVal PyJson PyTime Crypto PyText PyJsonRead Models SeqRule AuditChain Rollout.
From S2P Require Import Scoping Jobs Commands Fleet Routing.
Local Open Scope string_scope.
Local Open Scope list_scope.
Local Open Scope Z_scope.

(** ** Tables *)

Record Playbook := mkPlaybook {
  pb_id : uuid;
  pb_tenant_id : uuid;
  pb_name : str;
  pb_description : option str;
  pb_yaml_body : str;
  pb_enabled : bool;
  pb_trigger_rule_id : option uuid;
  pb_trigger_severity : option str;
  pb_trigger_mitre : option (list str)
}.

Record PlaybookRun := mkPlaybookRun {
  pr_id : uuid;
  pr_tenant_id : uuid;
  pr_playbook_id : uuid;
  pr_alert_id : option uuid;
  pr_started_at : datetime;
  pr_finished_at : option datetime;
  pr_status : str;
  pr_steps : list dict;
  pr_error : option str
}.

Record pb_db := mkPbDb {
  pd_notify : notify_db;
  pd_alerts : list Alert;
  pd_playbooks : list Playbook;
  pd_runs : list PlaybookRun
}.

Definition pd_jobs (db : pb_db) : job_db := fl_jobs (nt_fleet (pd_notify db)).
Definition set_pd_jobs (j : job_db) (db : pb_db) : pb_db :=
  mkPbDb (set_nt_fleet (set_jobs j (nt_fleet (pd_notify db))) (pd_notify db)) (pd_alerts db) (pd_playbooks db)
    (pd_runs db).
Definition set_playbooks (l : list Playbook) (db : pb_db) : pb_db :=
  mkPbDb (pd_notify db) (pd_alerts db) l (pd_runs db).
Definition set_pb_runs (l : list PlaybookRun) (db : pb_db) : pb_db :=
  mkPbDb (pd_notify db) (pd_alerts db) (pd_playbooks db) l.
Definition find_alert (db : pb_db) (id : uuid) : option Alert := List.find (λ a, al_id a =? id) (pd_alerts db).
Definition find_playbook (db : pb_db) (id : uuid) : option Playbook :=
  List.find (λ p, pb_id p =? id) (pd_playbooks db).

(** ** Parsing *)

Definition STEP_KINDS : list str :=
  ["isolate"; "kill"; "quarantine"; "memory_yara"; "triage_collect"; "notify_slack"; "notify_pagerduty";
   "notify_email"; "wait_seconds"; "branch_if"; "ai_suggest"].
Definition SEVERITY_RANK : list (str * Z) := [("info", 0); ("low", 1); ("medium", 2); ("high", 3); ("critical", 4)].
Definition MAX_WAIT_SECONDS : Z := 600.
Definition MAX_STEPS : Z := 64.

Record ParsedStep := mkStep { step_kind : str; step_params : dict }.
Definition as_outcome_stub (s : ParsedStep) : dict :=
  [("kind", PStr (step_kind s)); ("params", PDict (step_params s))].

Definition type_name (v : pyval) : str :=
  match v with
  | PNone => "NoneType" | PBool _ => "bool" | PInt _ => "int" | PFloat _ => "float" | PStr _ => "str"
  | PList _ => "list" | PDict _ => "dict"
  end.

Definition step_error {A} (idx : Z) (kind msg : str) : py A :=
  Err (PlaybookParseError ("step " +:+ str_of_Z idx +:+ " (" +:+ kind +:+ "): " +:+ msg)).

Definition is_notify (kind : str) : bool := str_in kind ["notify_slack"; "notify_pagerduty"; "notify_email"].

Definition validate_step_params (idx : Z) (kind : str) (params : dict) : py unit :=
  let fail msg := step_error idx kind msg in
  if String.eqb kind "isolate" then
    match get_none "network_allowlist_ips" params with
    | PNone => Ok tt
    | PList l => if forallb is_str l then Ok tt else fail "'network_allowlist_ips' must be a list of strings"
    | _ => fail "'network_allowlist_ips' must be a list of strings"
    end
  else if String.eqb kind "kill" then
    let src := get_default "pid_from" params (PStr "alert") in
    if py_eq src (PStr "alert") then Ok tt else fail ("'pid_from' must be 'alert' (got " +:+ py_repr src +:+ ")")
  else if String.eqb kind "quarantine" then
    let src := get_default "path_from" params (PStr "alert") in
    if py_eq src (PStr "alert") then Ok tt else fail ("'path_from' must be 'alert' (got " +:+ py_repr src +:+ ")")
  else if String.eqb kind "memory_yara" then
    match get_none "rule_id" params with
    | PNone | PStr _ => Ok tt
    | _ => fail "'rule_id' must be a string"
    end
  else if String.eqb kind "triage_collect" then Ok tt
  else if is_notify kind then
    match get_none "channel_id" params with
    | PStr cid =>
        if negb (nonempty (strip cid)) then fail "'channel_id' is required and must be a non-empty string"
        else match uuid_of_str cid with Some _ => Ok tt | None => fail "'channel_id' must be a UUID" end
    | _ => fail "'channel_id' is required and must be a non-empty string"
    end
  else if String.eqb kind "wait_seconds" then
    match as_int (get_none "n" params) with
    | Some n => if (n <? 0) || (MAX_WAIT_SECONDS <? n) then fail "'n' must be int 0..600" else Ok tt
    | None => fail "'n' must be int 0..600"
    end
  else if String.eqb kind "branch_if" then
    match get_none "condition" params with
    | PStr cond => if nonempty (strip cond) then Ok tt else fail "'condition' must be a non-empty string"
    | _ => fail "'condition' must be a non-empty string"
    end
  else Ok tt.

Definition parse_step (idx : Z) (raw : pyval) : py ParsedStep :=
  match raw with
  | PDict [(kind, params)] =>
      if negb (str_in kind STEP_KINDS) then
        Err (PlaybookParseError ("step " +:+ str_of_Z idx +:+ ": unknown step kind " +:+ str_repr kind +:+ "; valid: " +:+
                                 py_repr (PList (map PStr (sorted_strs STEP_KINDS)))))
      else
        match (match params with PNone => PDict [] | _ => params end) with
        | PDict params => _ ← validate_step_params idx kind params; Ok (mkStep kind params)
        | p => step_error idx kind ("params must be a mapping, got " +:+ type_name p)
        end
  | _ => Err (PlaybookParseError ("step " +:+ str_of_Z idx +:+ ": must be a single-key mapping (kind: params)"))
  end.

Fixpoint parse_steps (idx : Z) (steps_raw : list pyval) : py (list ParsedStep) :=
  match steps_raw with
  | [] => Ok []
  | raw :: rest => s ← parse_step idx raw; l ← parse_steps (idx + 1) rest; Ok (s :: l)
  end.

(** [yaml_err body] is the text of the [YAMLError]. *)
Definition parse_yaml (safe_load : str → yaml_result) (yaml_err : str → str) (body : str) : py (list ParsedStep) :=
  match safe_load body with
  | YError => Err (PlaybookParseError ("yaml parse failed: " +:+ yaml_err body))
  | YRaise e => Err e
  | YDoc (PDict doc) =>
      match get_none "steps" doc with
      | PList ((_ :: _) as steps_raw) =>
          if MAX_STEPS <? Z.of_nat (length steps_raw)
          then Err (PlaybookParseError "playbook has too many steps (cap=64)")
          else parse_steps 0 steps_raw
      | _ => Err (PlaybookParseError "playbook body must have a non-empty 'steps' list")
      end
  | YDoc _ => Err (PlaybookParseError "playbook body must be a YAML mapping at the top level")
  end.

(** ** Triggers *)

Definition is_set {A} (o : option A) : bool := match o with Some _ => true | None => false end.
Definition severity_rank (s : str) : Z := default (-1) (dict_get s SEVERITY_RANK).

Definition matches_alert (p : Playbook) (rule : uuid) (severity : Severity) (mitre : list str) : bool :=
  if negb (pb_enabled p) then false
  else
    let by_rule := match pb_trigger_rule_id p with Some r => r =? rule | None => false end in
    let by_severity :=
      match pb_trigger_severity p with
      | Some s =>
          let wanted := severity_rank s in
          (0 <=? wanted) && (wanted <=? severity_rank (Severity_value severity))
      | None => false
      end in
    let techniques := default [] (pb_trigger_mitre p) in
    let by_mitre := existsb (λ t, str_in t techniques) mitre in
    let has_any_trigger :=
      is_set (pb_trigger_rule_id p) || is_set (pb_trigger_severity p) || negb (bool_decide (techniques = [])) in
    has_any_trigger && (by_rule || by_severity || by_mitre).

Definition find_matching_playbooks (db : pb_db) (rule : uuid) (severity : Severity) (mitre : option (list str)) :
    list Playbook :=
  List.filter (λ p, matches_alert p rule severity (default [] mitre)) (List.filter pb_enabled (pd_playbooks db)).

(** ** Conditions *)

(** A literal, in any case, at the start of a text. *)
Fixpoint cut_ci (lit s : str) : option str :=
  match lit, s with
  | "", _ => Some s
  | String l lit, String c s => if Ascii.eqb (lower_char c) l then cut_ci lit s else None
  | _, "" => None
  end.
Definition lstrip (s : str) : str := lstrip_by is_space s.
Fixpoint span_alpha (s : str) : str * str :=
  match s with
  | "" => ("", "")
  | String c r => if is_alpha_ascii c then let '(a, t) := span_alpha r in (String c a, t) else ("", s)
  end.
Definition blank (s : str) : bool := negb (nonempty (lstrip s)).

(** [_EQUALITY_RE]: whether the operator is [==], and the quoted word. *)
Definition match_equality (condition : str) : option (bool * str) :=
  r ← cut_ci "alert.severity" (lstrip condition);
  '(eq, r) ← (match cut_ci "==" (lstrip r), cut_ci "!=" (lstrip r) with
              | Some r, _ => Some (true, r) | None, Some r => Some (false, r) | None, None => None end);
  r ← cut dquote (lstrip r);
  let '(w, r) := span_alpha r in
  r ← cut dquote r;
  if nonempty w && blank r then Some (eq, w) else None.

(** One blank at least. *)
Definition skip_blanks (s : str) : option str :=
  match s with String c r => if is_space c then Some (lstrip r) else None | "" => None end.

(** [_IN_RE]: the text between the parentheses. *)
Definition match_in (condition : str) : option str :=
  r ← cut_ci "alert.severity" (lstrip condition);
  r ← skip_blanks r; r ← cut_ci "in" r; r ← skip_blanks r; r ← cut "(" r;
  '(raw, r) ← split_first ")" r;
  if nonempty raw && blank r then Some raw else None.

Definition strip_quotes (tok : str) : str := strip_by (Ascii.eqb squote) (strip_by (Ascii.eqb dquote) (strip tok)).

Definition quoted (w : str) : str := String dquote (w +:+ String dquote "").

Definition eval_condition (condition severity_value : str) : py bool :=
  match match_equality condition with
  | Some (eq, w) => Ok (if eq then String.eqb severity_value (lower w) else negb (String.eqb severity_value (lower w)))
  | None =>
      match match_in condition with
      | Some raw =>
          Ok (str_in severity_value
                (map (λ tok, lower (strip_quotes tok)) (List.filter (λ tok, nonempty (strip tok)) (split_on "," raw))))
      | None =>
          Err (PlaybookParseError ("branch_if: unsupported condition " +:+ str_repr condition +:+
                 "; use 'alert.severity == " +:+ quoted "high" +:+ "' or 'alert.severity in (" +:+ quoted "high" +:+
                 "," +:+ quoted "critical" +:+ ")'"))
      end
  end.

(** ** Steps *)

Record AlertContext := mkCtx {
  ctx_alert_id : uuid;
  ctx_host_id : option uuid;
  ctx_severity : Severity;
  ctx_details : option dict;
  ctx_rule_id : uuid
}.
Definition context_from_alert (a : Alert) : AlertContext :=
  mkCtx (al_id a) (al_host_id a) (al_severity a) (al_details a) (al_rule_id a).

(** [(details.get("ecs") or {}).get(k) or details.get(k) or {}] *)
Definition ecs_section (k : str) (details : dict) : py pyval :=
  x ← py_get k (py_or (get_none "ecs" details) (PDict []));
  Ok (py_or (py_or x (get_none k details)) (PDict [])).

Definition positive_int (v : pyval) : bool := match as_int v with Some n => 0 <? n | None => false end.
Definition pid_from_alert (ctx : AlertContext) : py (option pyval) :=
  let details := default [] (ctx_details ctx) in
  ecs_proc ← ecs_section "process" details;
  pid ← py_get "pid" ecs_proc;
  if positive_int pid then Ok (Some pid)
  else
    let pid2 := get_none "pid" details in
    Ok (if positive_int pid2 then Some pid2 else None).

Definition path_text (v : pyval) : option str := match v with PStr s => if nonempty s then Some s else None | _ => None end.
Definition path_from_alert (ctx : AlertContext) : py (option str) :=
  let details := default [] (ctx_details ctx) in
  ecs_file ← ecs_section "file" details;
  path ← py_get "path" ecs_file;
  Ok (match path_text path with Some s => Some s | None => path_text (get_none "path" details) end).

(** What [AnthropicClient.suggest_response] returns. *)
Record AiCallResult := mkAi {
  ai_payload : dict;
  ai_cached_input_tokens : Z;
  ai_output_tokens : Z;
  ai_model_id : str
}.

Definition alert_envelope_for_model (a : Alert) : dict :=
  [("id", PStr (uuid_str (al_id a))); ("severity", PStr (Severity_value (al_severity a)));
   ("state", PStr (AlertState_value (al_state a))); ("summary", PStr (al_summary a));
   ("opened_at", PStr (isoformat (al_opened_at a)));
   ("mitre_techniques", PList (map PStr (default [] (al_mitre a)))); ("host_id", opt_uuid_str (al_host_id a));
   ("details", PDict (default [] (al_details a)))].

Definition skipped (reason : str) : dict := [("outcome", PStr "skipped"); ("reason", PStr reason)].
Definition failed (error : str) : dict := [("outcome", PStr "failed"); ("error", PStr error)].
Definition no_host : dict := skipped "alert has no host_id".

Section engine.
Context (E : env) (N : net) (F : fernet) (O : outside).
Context (suggest_response : dict → py AiCallResult).
Context (safe_load : str → yaml_result) (yaml_err : str → str).
(** [f"{type(exc).__name__}: {exc}"] *)
Context (exc_repr : pyexc → str).

(** [Command(host_id=…, kind=…, payload=…, triggered_by_alert_id=…,
    triggered_by_rule_id=…)], in the default tenant. *)
Definition playbook_command (ctx : AlertContext) (host : uuid) (kind : CommandKind) (payload : dict) (j : job_db) :
    Command :=
  new_command (env_uuid4 E (length (jd_commands j))) DEFAULT_TENANT_ID host kind payload (Some (ctx_alert_id ctx))
    (Some (ctx_rule_id ctx)) None (env_now E).
Definition push_command (c : Command) (j : job_db) : job_db :=
  mkJobDb (jd_scope j) (jd_policies j) (jd_jobs j) (jd_runs j) (jd_commands j ++ [c]) (jd_audit j).

Definition isolate_payload (params : dict) : dict :=
  ensure_manager_in_allowlist N
    ([("isolate", PBool true)] ++
     match get_none "network_allowlist_ips" params with
     | PList ((_ :: _) as ips) => [("allowlist_ips", PList ips)]
     | _ => []
     end).

Definition run_isolate (ctx : AlertContext) (params : dict) (j : job_db) : py (dict * job_db) :=
  match ctx_host_id ctx with
  | None => Ok (no_host, j)
  | Some host =>
      let cmd := playbook_command ctx host ISOLATE (isolate_payload params) j in
      Ok ([("outcome", PStr "ok"); ("command_id", PStr (uuid_str (cmd_id cmd)))], push_command cmd j)
  end.

Definition run_kill (ctx : AlertContext) (params : dict) (j : job_db) : py (dict * job_db) :=
  match ctx_host_id ctx with
  | None => Ok (no_host, j)
  | Some host =>
      pid ← pid_from_alert ctx;
      match pid with
      | None => Ok (skipped "alert.details has no process.pid", j)
      | Some pid =>
          let cmd := playbook_command ctx host KILL_PROCESS [("pid", pid)] j in
          Ok ([("outcome", PStr "ok"); ("command_id", PStr (uuid_str (cmd_id cmd))); ("pid", pid)], push_command cmd j)
      end
  end.

Definition run_quarantine (ctx : AlertContext) (params : dict) (j : job_db) : py (dict * job_db) :=
  match ctx_host_id ctx with
  | None => Ok (no_host, j)
  | Some host =>
      path ← path_from_alert ctx;
      match path with
      | None => Ok (skipped "alert.details has no file.path", j)
      | Some path =>
          let cmd := playbook_command ctx host QUARANTINE_FILE
                       [("path", PStr path); ("delete_original", PBool true)] j in
          Ok ([("outcome", PStr "ok"); ("command_id", PStr (uuid_str (cmd_id cmd))); ("path", PStr path)],
              push_command cmd j)
      end
  end.

Definition run_memory_yara (ctx : AlertContext) (params : dict) (j : job_db) : py (dict * job_db) :=
  Ok ([("outcome", PStr "ok"); ("requested_rule_id", get_none "rule_id" params)], j).

Definition run_triage_collect (ctx : AlertContext) (params : dict) (j : job_db) : py (dict * job_db) :=
  match ctx_host_id ctx with
  | None => Ok (no_host, j)
  | Some host =>
      let jid := env_uuid4 E (length (jd_jobs j)) in
      let rid := env_uuid4 E (length (jd_runs j)) in
      let cmd := playbook_command ctx host RUN_JOB
                   [("job_id", PStr (uuid_str jid)); ("run_id", PStr (uuid_str rid));
                    ("job_kind", PStr (JobKind.value JobKind.TRIAGE_COLLECT)); ("parameters", PDict [])] j in
      let job := mkJob jid DEFAULT_TENANT_ID JobKind.TRIAGE_COLLECT [] HOST_IDS (Some [uuid_str host]) None J_RUNNING
                   ("Playbook triage collect " +:+ String (ascii_of_N 183) (" alert " +:+ uuid_str (ctx_alert_id ctx)))
                   None (Some (ctx_alert_id ctx)) "playbook" None in
      let run := mkJobRun rid DEFAULT_TENANT_ID jid host (Some (cmd_id cmd)) RUN_QUEUED None None 0 None None in
      Ok ([("outcome", PStr "ok"); ("job_id", PStr (uuid_str jid))],
          mkJobDb (jd_scope j) (jd_policies j) (jd_jobs j ++ [job]) (jd_runs j ++ [run]) (jd_commands j ++ [cmd])
            (jd_audit j))
  end.

Definition run_notify (ctx : AlertContext) (params : dict) (expected_kind : NotificationChannelKind) (db : pb_db) :
    py dict :=
  cid_v ← item "channel_id" (PDict params);
  match cid_v with
  | PStr cid_str =>
      cid ← of_option ValueError (uuid_of_str cid_str);
      match List.find (λ c, nc_id c =? cid) (nt_channels (pd_notify db)) with
      | None => Ok (failed ("notification channel " +:+ cid_str +:+ " not found"))
      | Some ch =>
          if negb (bool_decide (nc_kind ch = expected_kind)) then
            Ok (failed ("channel " +:+ cid_str +:+ " is kind=" +:+ NotificationChannelKind_value (nc_kind ch) +:+
                        " but step requires " +:+ NotificationChannelKind_value expected_kind))
          else if negb (nc_enabled ch) then Ok (skipped ("channel " +:+ cid_str +:+ " is disabled"))
          else
            match find_alert db (ctx_alert_id ctx) with
            | None => Ok (failed "alert row vanished mid-run")
            | Some alert =>
                match decrypt_config F (nc_encrypted_config ch) with
                | Err exc => Ok (failed ("channel config decrypt failed: " +:+ exc_str O exc))
                | Ok config =>
                    match send_once O 1 expected_kind config (envelope_from_alert (pd_notify db) alert) with
                    | Ok _ => Ok [("outcome", PStr "ok"); ("channel_id", PStr cid_str)]
                    | Err (ChannelDispatchError msg) => Ok (failed msg)
                    | Err exc => Ok (failed (exc_repr exc))
                    end
                end
            end
      end
  | _ => Err AttributeError
  end.

Definition run_wait_seconds (params : dict) : py dict :=
  n ← py_int_of (get_default "n" params (PInt 0));
  Ok [("outcome", PStr "ok"); ("slept_s", PInt (Z.max 0 (Z.min n MAX_WAIT_SECONDS)))].

Definition run_ai_suggest (ctx : AlertContext) (db : pb_db) : py dict :=
  match find_alert db (ctx_alert_id ctx) with
  | None => Ok (failed "alert row vanished mid-run")
  | Some alert =>
      result ← suggest_response (alert_envelope_for_model alert);
      Ok [("outcome", PStr "ok"); ("suggestions", get_default "suggested_response" (ai_payload result) (PList []));
          ("model_id", PStr (ai_model_id result)); ("cached_input_tokens", PInt (ai_cached_input_tokens result));
          ("output_tokens", PInt (ai_output_tokens result))]
  end.

Definition eval_branch_if (ctx : AlertContext) (params : dict) : py dict :=
  cond ← item "condition" (PDict params);
  match cond with
  | PStr c =>
      match eval_condition c (Severity_value (ctx_severity ctx)) with
      | Err (PlaybookParseError msg) =>
          Ok [("outcome", PStr "failed"); ("error", PStr msg); ("skipped_next", PBool false)]
      | Err e => Err e
      | Ok b => Ok [("outcome", PStr "ok"); ("condition", cond); ("truthy", PBool b); ("skipped_next", PBool (negb b))]
      end
  | _ => Err TypeError
  end.

(** A step that only reads the database. *)
Definition reading (m : py dict) (db : pb_db) : py (dict * pb_db) := d ← m; Ok (d, db).
(** A step that queues work. *)
Definition queueing (f : job_db → py (dict * job_db)) (db : pb_db) : py (dict * pb_db) :=
  '(d, j) ← f (pd_jobs db); Ok (d, set_pd_jobs j db).

Definition dispatch_step (ctx : AlertContext) (kind : str) (params : dict) (db : pb_db) : py (dict * pb_db) :=
  if String.eqb kind "notify_slack" then reading (run_notify ctx params SLACK db) db
  else if String.eqb kind "notify_pagerduty" then reading (run_notify ctx params PAGERDUTY db) db
  else if String.eqb kind "notify_email" then reading (run_notify ctx params EMAIL db) db
  else if String.eqb kind "branch_if" then reading (eval_branch_if ctx params) db
  else if String.eqb kind "isolate" then queueing (run_isolate ctx params) db
  else if String.eqb kind "kill" then queueing (run_kill ctx params) db
  else if String.eqb kind "quarantine" then queueing (run_quarantine ctx params) db
  else if String.eqb kind "memory_yara" then queueing (run_memory_yara ctx params) db
  else if String.eqb kind "triage_collect" then queueing (run_triage_collect ctx params) db
  else if String.eqb kind "wait_seconds" then reading (run_wait_seconds params) db
  else if String.eqb kind "ai_suggest" then reading (run_ai_suggest ctx db) db
  else Err KeyError.

(** [_run_step]: the record of the step, whatever it raises. *)
Definition run_step (ctx : AlertContext) (s : ParsedStep) (db : pb_db) : dict * pb_db :=
  let '(outcome, db) :=
    match dispatch_step ctx (step_kind s) (step_params s) db with
    | Ok r => r
    | Err exc => (failed (exc_repr exc), db)
    end in
  (dict_update (as_outcome_stub s ++ [("started_at", PStr (isoformat (env_now E)));
                                      ("finished_at", PStr (isoformat (env_now E)))]) outcome, db).

(** ** A run *)

Record walk := mkWalk {
  wk_outcomes : list dict;
  wk_stored : list dict;      (* run.steps_executed_json *)
  wk_skip_next : bool;
  wk_any_failed : bool;
  wk_any_ok : bool;
  wk_db : pb_db
}.

Definition walk_step (ctx : AlertContext) (w : walk) (s : ParsedStep) : walk :=
  if wk_skip_next w then
    mkWalk (wk_outcomes w ++
              [as_outcome_stub s ++ [("outcome", PStr "skipped"); ("reason", PStr "skipped by preceding branch_if");
                                     ("started_at", PStr (isoformat (env_now E)));
                                     ("finished_at", PStr (isoformat (env_now E)))]])
      (wk_stored w) false (wk_any_failed w) (wk_any_ok w) (wk_db w)
  else
    let '(record, db) := run_step ctx s (wk_db w) in
    let outcomes := wk_outcomes w ++ [record] in
    let outc := get_none "outcome" record in
    mkWalk outcomes outcomes
      (String.eqb (step_kind s) "branch_if" && truthy (get_none "skipped_next" record))
      (wk_any_failed w || py_eq outc (PStr "failed"))
      (wk_any_ok w || (negb (py_eq outc (PStr "failed")) && py_eq outc (PStr "ok"))) db.

Definition walk_steps (ctx : AlertContext) (steps : list ParsedStep) (db : pb_db) : walk :=
  fold_left (walk_step ctx) steps (mkWalk [] [] false false false db).

Definition final_status (w : walk) : str :=
  if wk_any_failed w && wk_any_ok w then "partial" else if wk_any_failed w then "failed" else "succeeded".

(** [execute_playbook].  The row of a run refers to its alert: without the alert the
    insertion violates the foreign key. *)
Definition execute_playbook (p : Playbook) (alert_id : uuid) (db : pb_db) : py (pb_db * PlaybookRun) :=
  match find_alert db alert_id with
  | None => Err IntegrityError
  | Some alert =>
      let ctx := context_from_alert alert in
      let rid := env_uuid4 E (length (pd_runs db)) in
      let finish status steps error db :=
        let run := mkPlaybookRun rid (pb_tenant_id p) (pb_id p) (Some (al_id alert)) (env_now E) (Some (env_now E))
                     status steps error in
        Ok (set_pb_runs (pd_runs db ++ [run]) db, run) in
      match parse_yaml safe_load yaml_err (pb_yaml_body p) with
      | Err (PlaybookParseError msg) => finish "failed" [] (Some msg) db
      | Err e => Err e
      | Ok steps => let w := walk_steps ctx steps db in finish (final_status w) (wk_stored w) None (wk_db w)
      end
  end.

(** ** The executor *)

Definition handle_message (doc : pyval) (db : pb_db) : py (bool * pb_db) :=
  pid_raw ← py_get "playbook_id" doc;
  alert_raw ← py_get "alert_id" doc;
  match pid_raw with
  | PStr pid_raw =>
      match uuid_of_str pid_raw, (match alert_raw with PStr a => uuid_of_str a | _ => None end) with
      | Some playbook_id, Some alert_id =>
          match find_playbook db playbook_id with
          | None => Ok (false, db)
          | Some p =>
              if negb (pb_enabled p) then Ok (false, db)
              else '(db, _) ← execute_playbook p alert_id db; Ok (true, db)
          end
      | _, _ => Ok (false, db)
      end
  | _ => Ok (false, db)
  end.

(** The value of a message: absent, not JSON, or a document. *)
Inductive message := MNone | MBad | MDoc (doc : pyval).

(** One turn of the loop on the message at [position]: the database and the
    committed offset; reading a message moves the position past it, and a commit
    commits the position. *)
Definition consume_one (position : nat) (m : message) (db : pb_db) (committed : nat) : pb_db * nat :=
  match m with
  | MNone | MBad => (db, S position)
  | MDoc doc => match handle_message doc db with Ok (_, db) => (db, S position) | Err _ => (db, committed) end
  end.
Fixpoint consume (position : nat) (ms : list message) (db : pb_db) (committed : nat) : pb_db * nat :=
  match ms with
  | [] => (db, committed)
  | m :: ms => let '(db, committed) := consume_one position m db committed in consume (S position) ms db committed
  end.
End engine.

(** ** The API *)

Definition pd_audited (E : env) (actor : Actor) (action rid : str) (payload : dict) (db : pb_db) : pb_db :=
  mkPbDb (nt_audited E actor action "playbook" rid payload (pd_notify db)) (pd_alerts db) (pd_playbooks db) (pd_runs db).

Definition trigger_severity_ok (s : str) : bool := str_in s ["low"; "medium"; "high"; "critical"].

Section api.
Context (E : env) (safe_load : str → yaml_result) (yaml_err : str → str).

Definition validate_yaml_or_422 (body : str) : py unit :=
  match parse_yaml safe_load yaml_err body with
  | Ok _ => Ok tt
  | Err (PlaybookParseError _) => Err (HTTPException 422)
  | Err e => Err e
  end.

Definition load_playbook (db : pb_db) (id : uuid) (actor : Actor) : py Playbook :=
  match find_playbook db id with
  | Some p => if negb (pb_tenant_id p =? actor_tenant_id actor) then Err (HTTPException 404) else Ok p
  | None => Err (HTTPException 404)
  end.

Definition playbook_named (db : pb_db) (tenant : uuid) (name : str) : list Playbook :=
  List.filter (λ p, String.eqb (pb_name p) name && (pb_tenant_id p =? tenant)) (pd_playbooks db).

(** The foreign key of the trigger and UNIQUE (tenant_id, name). *)
Definition playbook_constraints (db : pb_db) (l : list Playbook) : bool :=
  forallb (λ p, match pb_trigger_rule_id p with
                | Some r => bool_decide (r ∈ map rule_id (nt_rules (pd_notify db))) | None => true end) l &&
  bool_decide (NoDup (map (λ p, (pb_tenant_id p, pb_name p)) l)).

Definition opt_strs (o : option (list str)) : pyval := match o with Some l => PList (map PStr l) | None => PNone end.

Record PlaybookCreate := mkPlaybookCreate {
  pc_name : str;
  pc_description : option str;
  pc_yaml_body : str;
  pc_enabled : bool;
  pc_trigger_rule_id : option uuid;
  pc_trigger_severity : option str;
  pc_trigger_mitre : option (list str)
}.

Definition create_playbook (c : PlaybookCreate) (actor : Actor) (db : pb_db) : py (pb_db * Playbook) :=
  if negb (is_admin actor) then Err (HTTPException 403)
  else if negb (text_ok 1 255 (pc_name c) && nonempty (pc_yaml_body c) && opt_ok trigger_severity_ok (pc_trigger_severity c))
  then Err (HTTPException 422)
  else
    dup ← scalar_one_or_none (playbook_named db (actor_tenant_id actor) (pc_name c));
    match dup with
    | Some _ => Err (HTTPException 400)
    | None =>
        _ ← validate_yaml_or_422 (pc_yaml_body c);
        let p := mkPlaybook (env_uuid4 E (length (pd_playbooks db))) (actor_tenant_id actor) (pc_name c)
                   (pc_description c) (pc_yaml_body c) (pc_enabled c) (pc_trigger_rule_id c) (pc_trigger_severity c)
                   (pc_trigger_mitre c) in
        let l := pd_playbooks db ++ [p] in
        if negb (playbook_constraints db l) then Err IntegrityError
        else Ok (pd_audited E actor "playbook.create" (uuid_str (pb_id p))
                   [("name", PStr (pb_name p)); ("enabled", PBool (pb_enabled p));
                    ("trigger_rule_id", opt_uuid_str (pb_trigger_rule_id p));
                    ("trigger_severity", opt_str (pb_trigger_severity p));
                    ("trigger_mitre_techniques", opt_strs (pb_trigger_mitre p))]
                   (set_playbooks l db), p)
    end.

Record PlaybookUpdate := mkPlaybookUpdate {
  pu_name : option str;
  pu_description : option str;
  pu_yaml_body : option str;
  pu_enabled : option bool;
  pu_trigger_rule_id : option uuid;
  pu_trigger_severity : option str;
  pu_trigger_mitre : option (list str)
}.

(** [payload.model_dump(exclude_none=True, mode="json")] *)
Definition dump_update (u : PlaybookUpdate) : dict :=
  omap (λ kv, match kv.2 with PNone => None | v => Some (kv.1, v) end)
    [("name", opt_str (pu_name u)); ("description", opt_str (pu_description u));
     ("yaml_body", opt_str (pu_yaml_body u));
     ("enabled", match pu_enabled u with Some b => PBool b | None => PNone end);
     ("trigger_rule_id", opt_uuid_str (pu_trigger_rule_id u)); ("trigger_severity", opt_str (pu_trigger_severity u));
     ("trigger_mitre_techniques", opt_strs (pu_trigger_mitre u))].

Definition or_else {A} (o d : option A) : option A := match o with Some _ => o | None => d end.

Definition update_playbook (id : uuid) (u : PlaybookUpdate) (actor : Actor) (db : pb_db) : py pb_db :=
  if negb (is_admin actor) then Err (HTTPException 403)
  else if negb (opt_ok (text_ok 1 255) (pu_name u) && opt_ok nonempty (pu_yaml_body u) &&
                opt_ok trigger_severity_ok (pu_trigger_severity u)) then Err (HTTPException 422)
  else
    p ← load_playbook db id actor;
    dup ← match pu_name u with
          | Some n => if negb (String.eqb n (pb_name p))
                      then scalar_one_or_none (playbook_named db (actor_tenant_id actor) n) else Ok None
          | None => Ok None
          end;
    match dup with
    | Some _ => Err (HTTPException 400)
    | None =>
        _ ← match pu_yaml_body u with Some body => validate_yaml_or_422 body | None => Ok tt end;
        let p' := mkPlaybook (pb_id p) (pb_tenant_id p) (default (pb_name p) (pu_name u))
                    (or_else (pu_description u) (pb_description p)) (default (pb_yaml_body p) (pu_yaml_body u))
                    (default (pb_enabled p) (pu_enabled u)) (or_else (pu_trigger_rule_id u) (pb_trigger_rule_id p))
                    (or_else (pu_trigger_severity u) (pb_trigger_severity p))
                    (or_else (pu_trigger_mitre u) (pb_trigger_mitre p)) in
        let l := map (λ x, if pb_id x =? id then p' else x) (pd_playbooks db) in
        if negb (playbook_constraints db l) then Err IntegrityError
        else Ok (pd_audited E actor "playbook.update" (uuid_str id) (dump_update u) (set_playbooks l db))
    end.

(** The runs go with their playbook. *)
Definition delete_playbook (id : uuid) (actor : Actor) (db : pb_db) : py pb_db :=
  if negb (is_admin actor) then Err (HTTPException 403)
  else
    p ← load_playbook db id actor;
    Ok (pd_audited E actor "playbook.delete" (uuid_str id) [("name", PStr (pb_name p))]
          (set_pb_runs (List.filter (λ r, negb (pr_playbook_id r =? id)) (pd_runs db))
             (set_playbooks (List.filter (λ x, negb (pb_id x =? id)) (pd_playbooks db)) db))).

(** The runs of a playbook, latest first, a page of them and their number. *)
Definition list_playbook_runs (id : uuid) (limit offset : nat) (actor : Actor) (db : pb_db) :
    py (list PlaybookRun * nat) :=
  _ ← load_playbook db id actor;
  let rows := List.filter (λ r, (pr_playbook_id r =? id) && (pr_tenant_id r =? actor_tenant_id actor)) (pd_runs db) in
  Ok (take limit (drop offset (sort_by (λ r, - pr_started_at r) rows)), length rows).

Definition get_playbook_run (id : uuid) (actor : Actor) (db : pb_db) : py PlaybookRun :=
  match List.find (λ r, pr_id r =? id) (pd_runs db) with
  | Some r => if negb (pr_tenant_id r =? actor_tenant_id actor) then Err (HTTPException 404) else Ok r
  | None => Err (HTTPException 404)
  end.
End api.

(** ** What an accepted body is *)

(** The seconds a step sleeps. *)
Definition wait_of (s : ParsedStep) : Z :=
  if String.eqb (step_kind s) "wait_seconds" then default 0 (as_int (get_none "n" (step_params s))) else 0.
Definition total_wait (steps : list ParsedStep) : Z := foldr Z.add 0 (map wait_of steps).

(** A known kind; a wait of at most ten minutes that is slept as written; a
    condition that is some text. *)
Definition step_ok (s : ParsedStep) : Prop :=
  step_kind s ∈ STEP_KINDS ∧ 0 ≤ wait_of s ≤ 600 ∧
  (step_kind s = "wait_seconds" →
     run_wait_seconds (step_params s) = Ok [("outcome", PStr "ok"); ("slept_s", PInt (wait_of s))]) ∧
  (step_kind s = "branch_if" → ∃ c, dict_get "condition" (step_params s) = Some (PStr c)).

Lemma str_in_elem s l : str_in s l = true ↔ s ∈ l.
Proof. unfold str_in. by rewrite bool_decide_eq_true. Qed.

Lemma wait_ok idx params :
  validate_step_params idx "wait_seconds" params = Ok tt → step_ok (mkStep "wait_seconds" params).
Proof.
  change (validate_step_params idx "wait_seconds" params) with
    (match as_int (get_none "n" params) with
     | Some n => if (n <? 0) || (MAX_WAIT_SECONDS <? n)
                 then step_error idx "wait_seconds" "'n' must be int 0..600" else Ok tt
     | None => step_error idx "wait_seconds" "'n' must be int 0..600"
     end).
  unfold step_ok, wait_of. cbn [step_kind step_params]. rewrite String.eqb_refl.
  destruct (as_int (get_none "n" params)) as [n|] eqn:En; [|done]. cbn [default].
  destruct (Z.ltb_spec n 0), (Z.ltb_spec MAX_WAIT_SECONDS n); try done. intros _. unfold MAX_WAIT_SECONDS in *.
  split; [by apply str_in_elem|]. split; [simpl; lia|]. split; [|done]. intros _. unfold run_wait_seconds.
  assert (py_int_of (get_default "n" params (PInt 0)) = Ok n) as ->.
  { unfold get_none, get_default in *. destruct (dict_get "n" params) as [v|]; [|done]. simpl in *.
    destruct v; try done; simpl in *; by injection En as ->. }
  cbn [mbind res_bind]. do 4 f_equal. unfold MAX_WAIT_SECONDS. simpl. f_equal. lia.
Qed.

Lemma parse_step_ok idx raw s : parse_step idx raw = Ok s → step_ok s.
Proof.
  unfold parse_step. destruct raw as [| | | | | |[|[kind params] [|]]]; try done.
  destruct (str_in kind STEP_KINDS) eqn:Hk; [|done]. cbn [negb].
  destruct (match params with PNone => PDict [] | _ => params end) as [| | | | | |d]; try done.
  destruct (validate_step_params idx kind d) as [[]|] eqn:Hv; [|done]. intros [= <-].
  destruct (decide (kind = "wait_seconds")) as [->|Hw]; [by eapply wait_ok|].
  split; [by apply str_in_elem|]. unfold wait_of. cbn [step_kind step_params].
  destruct (String.eqb_spec kind "wait_seconds"); [done|]. split; [lia|]. split; [done|]. intros ->.
  change (validate_step_params idx "branch_if" d) with
    (match get_none "condition" d with
     | PStr cond => if nonempty (strip cond) then Ok tt
                    else step_error idx "branch_if" "'condition' must be a non-empty string"
     | _ => step_error idx "branch_if" "'condition' must be a non-empty string"
     end) in Hv.
  destruct (get_none "condition" d) as [| | | |c| |] eqn:Ec; try done.
  exists c. by apply get_none_Some.
Qed.

Lemma parse_steps_ok idx raws steps : parse_steps idx raws = Ok steps → length steps = length raws ∧ Forall step_ok steps.
Proof.
  revert idx steps. induction raws as [|raw raws IH]; intros idx steps; cbn [parse_steps]; [by intros [= <-]|].
  destruct (parse_step idx raw) as [s|] eqn:Es; [|done]. cbn [mbind res_bind].
  destruct (parse_steps (idx + 1) raws) as [l|] eqn:El; [|done]. cbn [mbind res_bind]. intros [= <-].
  apply IH in El as [Hl Hf]. simpl. split; [by rewrite Hl|]. constructor; [by eapply parse_step_ok|done].
Qed.

(** A body that is accepted is bounded: one to sixty-four steps, all of a
    known kind, each wait slept exactly as written and at most ten minutes, so that
    a run sleeps at most 38400 seconds. *)
Theorem accepted_playbook_bounded safe_load yaml_err body steps :
  parse_yaml safe_load yaml_err body = Ok steps →
  (1 ≤ length steps ≤ 64)%nat ∧ Forall step_ok steps ∧ 0 ≤ total_wait steps ≤ 38400.
Proof.
  unfold parse_yaml. destruct (safe_load body) as [v| |]; try done. destruct v as [| | | | | |doc]; try done.
  destruct (get_none "steps" doc) as [| | | | |[|raw raws]|]; try done.
  destruct (Z.ltb_spec MAX_STEPS (Z.of_nat (length (raw :: raws)))); [done|]. intros Hp.
  apply parse_steps_ok in Hp as [Hl Hf]. unfold MAX_STEPS in *. simpl in *. split; [lia|]. split; [done|].
  assert (0 ≤ total_wait steps ≤ 600 * Z.of_nat (length steps)); [|lia].
  clear -Hf. induction Hf as [|s l (_ & Hs & _) Hf IH]; [done|]. unfold total_wait in *. simpl in *. lia.
Qed.

(** ** What a run does *)

(** A guard that holds the next step back: its condition is understood and false. *)
Definition guard_false (sev : Severity) (s : ParsedStep) : bool :=
  String.eqb (step_kind s) "branch_if" &&
  match dict_get "condition" (step_params s) with
  | Some (PStr c) => match eval_condition c (Severity_value sev) with Ok b => negb b | Err _ => false end
  | _ => false
  end.

(** The steps that are run: all but the one after a guard that is run and false. *)
Fixpoint active (sev : Severity) (steps : list ParsedStep) : list ParsedStep :=
  match steps with
  | [] => []
  | s :: rest =>
      s :: (if guard_false sev s then match rest with [] => [] | _ :: rest' => active sev rest' end
            else active sev rest)
  end.

Section effects.
Context (E : env) (N : net) (F : fernet) (O : outside) (suggest_response : dict → py AiCallResult).
Context (exc_repr : pyexc → str).
Abbreviation wstep := (walk_step E N F O suggest_response exc_repr).
Abbreviation rstep := (run_step E N F O suggest_response exc_repr).

(** The command a step queues for the alert's host, and its payload when it does not
    name the rows of a job. *)
Definition step_effect (ctx : AlertContext) (s : ParsedStep) : option (uuid * CommandKind * option dict) :=
  host ← ctx_host_id ctx;
  if String.eqb (step_kind s) "isolate" then Some (host, ISOLATE, Some (isolate_payload N (step_params s)))
  else if String.eqb (step_kind s) "kill" then
    match pid_from_alert ctx with
    | Ok (Some pid) => Some (host, KILL_PROCESS, Some [("pid", pid)]) | _ => None end
  else if String.eqb (step_kind s) "quarantine" then
    match path_from_alert ctx with
    | Ok (Some path) => Some (host, QUARANTINE_FILE, Some [("path", PStr path); ("delete_original", PBool true)])
    | _ => None end
  else if String.eqb (step_kind s) "triage_collect" then Some (host, RUN_JOB, None)
  else None.

(** The command carries the effect, pending, and names the alert and its rule. *)
Definition carries (ctx : AlertContext) (e : uuid * CommandKind * option dict) (c : Command) : Prop :=
  cmd_host_id c = e.1.1 ∧ cmd_kind c = e.1.2 ∧ cmd_status c = C_PENDING ∧
  cmd_alert_id c = Some (ctx_alert_id ctx) ∧ cmd_rule_id c = Some (ctx_rule_id ctx) ∧
  match e.2 with Some payload => cmd_payload c = payload | None => True end.

(** The commands grow by those of the effects. *)
Definition queues (ctx : AlertContext) (effects : list (uuid * CommandKind * option dict)) (db db' : pb_db) : Prop :=
  ∃ new, jd_commands (pd_jobs db') = jd_commands (pd_jobs db) ++ new ∧ Forall2 (carries ctx) effects new.

Lemma queues_refl ctx db : queues ctx [] db db.
Proof. exists []. split; [by rewrite app_nil_r|constructor]. Qed.
Lemma queues_trans ctx e1 e2 db1 db2 db3 :
  queues ctx e1 db1 db2 → queues ctx e2 db2 db3 → queues ctx (e1 ++ e2) db1 db3.
Proof.
  intros (n1 & H1 & F1) (n2 & H2 & F2). exists (n1 ++ n2). rewrite H2, H1, app_assoc. split; [done|by apply Forall2_app].
Qed.

(** A step of the job engine queues the effects it should, or raises when there are
    none. *)
Definition engine_queues (ctx : AlertContext) (f : job_db → py (dict * job_db))
    (effects : list (uuid * CommandKind * option dict)) : Prop :=
  ∀ j, match f j with
       | Ok (_, j') => ∃ new, jd_commands j' = jd_commands j ++ new ∧ Forall2 (carries ctx) effects new
       | Err _ => effects = []
       end.

Lemma queueing_effect ctx f db e :
  engine_queues ctx f e → match queueing f db with Ok (_, db') => queues ctx e db db' | Err _ => e = [] end.
Proof. intros H. specialize (H (pd_jobs db)). unfold queueing. by destruct (f (pd_jobs db)) as [[d j]|]. Qed.

Lemma none_queued ctx j : ∃ new, jd_commands j = jd_commands j ++ new ∧ Forall2 (carries ctx) [] new.
Proof. exists []. by rewrite app_nil_r. Qed.
Lemma one_queued ctx host kind payload j :
  ∃ new, jd_commands (push_command (playbook_command E ctx host kind payload j) j) = jd_commands j ++ new ∧
    Forall2 (carries ctx) [(host, kind, Some payload)] new.
Proof. eexists [_]. split; [reflexivity|]. repeat constructor. Qed.

Lemma run_isolate_queues ctx params :
  engine_queues ctx (run_isolate E N ctx params) (option_list (step_effect ctx (mkStep "isolate" params))).
Proof.
  intros j. unfold run_isolate, step_effect. destruct (ctx_host_id ctx); [apply one_queued|apply none_queued].
Qed.
Lemma run_kill_queues ctx params :
  engine_queues ctx (run_kill E ctx params) (option_list (step_effect ctx (mkStep "kill" params))).
Proof.
  intros j. unfold run_kill, step_effect. destruct (ctx_host_id ctx); [|apply none_queued]. cbn.
  destruct (pid_from_alert ctx) as [[pid|]|]; cbn; [apply one_queued|apply none_queued|done].
Qed.
Lemma run_quarantine_queues ctx params :
  engine_queues ctx (run_quarantine E ctx params) (option_list (step_effect ctx (mkStep "quarantine" params))).
Proof.
  intros j. unfold run_quarantine, step_effect. destruct (ctx_host_id ctx); [|apply none_queued]. cbn.
  destruct (path_from_alert ctx) as [[path|]|]; cbn; [apply one_queued|apply none_queued|done].
Qed.
Lemma run_triage_queues ctx params :
  engine_queues ctx (run_triage_collect E ctx params) (option_list (step_effect ctx (mkStep "triage_collect" params))).
Proof.
  intros j. unfold run_triage_collect, step_effect. destruct (ctx_host_id ctx); [|apply none_queued]. cbn.
  eexists [_]. split; [reflexivity|]. repeat constructor.
Qed.

Lemma no_effect ctx kind params :
  str_in kind ["isolate"; "kill"; "quarantine"; "triage_collect"] = false → step_effect ctx (mkStep kind params) = None.
Proof.
  intros Hk. unfold step_effect. destruct (ctx_host_id ctx); [|done]. cbn [mbind option_bind step_kind].
  apply bool_decide_eq_false in Hk. rewrite !elem_of_cons, elem_of_nil in Hk.
  destruct (String.eqb_spec kind "isolate"), (String.eqb_spec kind "kill"), (String.eqb_spec kind "quarantine"),
    (String.eqb_spec kind "triage_collect"); tauto.
Qed.

Lemma reading_effect ctx s m db :
  str_in (step_kind s) ["isolate"; "kill"; "quarantine"; "triage_collect"] = false →
  match reading m db with
  | Ok (_, db') => queues ctx (option_list (step_effect ctx s)) db db' | Err _ => option_list (step_effect ctx s) = [] end.
Proof.
  destruct s as [kind params]. intros Hk. rewrite no_effect by done. unfold reading.
  destruct m; cbn [mbind res_bind]; [apply queues_refl|done].
Qed.

Lemma dispatch_effect ctx s db :
  match dispatch_step E N F O suggest_response exc_repr ctx (step_kind s) (step_params s) db with
  | Ok (_, db') => queues ctx (option_list (step_effect ctx s)) db db'
  | Err _ => option_list (step_effect ctx s) = []
  end.
Proof.
  destruct s as [kind params]. unfold dispatch_step. cbn [step_kind step_params].
  destruct (String.eqb_spec kind "notify_slack") as [->|_]; [by apply reading_effect|].
  destruct (String.eqb_spec kind "notify_pagerduty") as [->|_]; [by apply reading_effect|].
  destruct (String.eqb_spec kind "notify_email") as [->|_]; [by apply reading_effect|].
  destruct (String.eqb_spec kind "branch_if") as [->|_]; [by apply reading_effect|].
  destruct (String.eqb_spec kind "isolate") as [->|H1]; [apply queueing_effect, run_isolate_queues|].
  destruct (String.eqb_spec kind "kill") as [->|H2]; [apply queueing_effect, run_kill_queues|].
  destruct (String.eqb_spec kind "quarantine") as [->|H3]; [apply queueing_effect, run_quarantine_queues|].
  destruct (String.eqb_spec kind "memory_yara") as [->|_].
  { apply queueing_effect. intros j. rewrite no_effect by done. apply none_queued. }
  destruct (String.eqb_spec kind "triage_collect") as [->|H4]; [apply queueing_effect, run_triage_queues|].
  assert (str_in kind ["isolate"; "kill"; "quarantine"; "triage_collect"] = false) as Hk.
  { apply bool_decide_eq_false. rewrite !elem_of_cons, elem_of_nil. naive_solver. }
  destruct (String.eqb_spec kind "wait_seconds") as [->|_]; [by apply reading_effect|].
  destruct (String.eqb_spec kind "ai_suggest") as [->|_]; [by apply reading_effect|].
  by rewrite no_effect.
Qed.

Lemma run_step_effect ctx s db : queues ctx (option_list (step_effect ctx s)) db (rstep ctx s db).2.
Proof.
  unfold run_step. pose proof (dispatch_effect ctx s db) as H.
  destruct (dispatch_step _ _ _ _ _ _ _ _ _ _) as [[outcome db']|exc]; [done|]. rewrite H. apply queues_refl.
Qed.

Lemma run_step_guard ctx s db :
  String.eqb (step_kind s) "branch_if" && truthy (get_none "skipped_next" (rstep ctx s db).1) =
  guard_false (ctx_severity ctx) s.
Proof.
  unfold guard_false. destruct s as [kind params]. cbn [step_kind step_params].
  destruct (String.eqb_spec kind "branch_if") as [->|]; [|done]. cbn [andb]. unfold run_step. cbn [step_kind step_params].
  change (dispatch_step E N F O suggest_response exc_repr ctx "branch_if" params db) with
    (reading (eval_branch_if ctx params) db).
  unfold eval_branch_if, item. destruct (dict_get "condition" params) as [[| | | |c| |]|]; cbn [of_option mbind res_bind reading];
    try reflexivity.
  destruct (eval_condition c (Severity_value (ctx_severity ctx))) as [b|exc] eqn:Ec; [by destruct b|].
  destruct exc; reflexivity.
Qed.

(** The state reached from any point of a run. *)
Lemma walk_effects ctx steps : ∀ w,
  queues ctx (omap (step_effect ctx) (if wk_skip_next w then active (ctx_severity ctx) (tail steps)
                                      else active (ctx_severity ctx) steps))
    (wk_db w) (wk_db (fold_left (wstep ctx) steps w)).
Proof.
  induction steps as [|s steps IH]; intros w; [destruct (wk_skip_next w); apply queues_refl|].
  cbn [fold_left tail]. specialize (IH (wstep ctx w s)). revert IH. unfold walk_step.
  destruct (wk_skip_next w); [done|]. pose proof (run_step_effect ctx s (wk_db w)) as He.
  pose proof (run_step_guard ctx s (wk_db w)) as Hg.
  destruct (rstep ctx s (wk_db w)) as [record db1]. cbn [wk_skip_next wk_db fst snd] in *. rewrite Hg.
  intros IH. cbn [active omap list_omap].
  replace (match step_effect ctx s with Some y => y :: _ | None => _ end) with
    (option_list (step_effect ctx s) ++ omap (step_effect ctx)
       (if guard_false (ctx_severity ctx) s then match steps with [] => [] | _ :: rest => active (ctx_severity ctx) rest end
        else active (ctx_severity ctx) steps)) by (by destruct (step_effect ctx s)).
  eapply queues_trans; [exact He|]. by destruct (guard_false _ _), steps.
Qed.

Lemma walk_steps_effects ctx steps db :
  queues ctx (omap (step_effect ctx) (active (ctx_severity ctx) steps)) db
    (wk_db (walk_steps E N F O suggest_response exc_repr ctx steps db)).
Proof. exact (walk_effects ctx steps (mkWalk [] [] false false false db)). Qed.
End effects.

(** ** What a run records *)

Definition outcome_is (o : str) (record : dict) : bool := py_eq (get_none "outcome" record) (PStr o).
(** The status that the recorded outcomes call for. *)
Definition status_of (records : list dict) : str :=
  if existsb (outcome_is "failed") records then
    if existsb (outcome_is "ok") records then "partial" else "failed"
  else "succeeded".

Section recorded.
Context (E : env) (N : net) (F : fernet) (O : outside) (suggest_response : dict → py AiCallResult).
Context (safe_load : str → yaml_result) (yaml_err : str → str) (exc_repr : pyexc → str).
Abbreviation wstep := (walk_step E N F O suggest_response exc_repr).
Abbreviation wsteps := (walk_steps E N F O suggest_response exc_repr).
Abbreviation execute := (execute_playbook E N F O suggest_response safe_load yaml_err exc_repr).

Lemma py_eq_str v s : py_eq v (PStr s) = true → v = PStr s.
Proof. destruct v; try done. simpl. intros ->%String.eqb_eq. done. Qed.

Lemma outcome_exclusive r : negb (outcome_is "failed" r) && outcome_is "ok" r = outcome_is "ok" r.
Proof.
  unfold outcome_is. destruct (py_eq (get_none "outcome" r) (PStr "ok")) eqn:E1; [|by rewrite andb_false_r].
  by rewrite (py_eq_str _ _ E1).
Qed.

Lemma walk_flags ctx steps : ∀ w,
  wk_any_failed w = existsb (outcome_is "failed") (wk_stored w) →
  wk_any_ok w = existsb (outcome_is "ok") (wk_stored w) →
  (∃ sk, wk_outcomes w = wk_stored w ++ sk ∧
     existsb (outcome_is "failed") sk = false ∧ existsb (outcome_is "ok") sk = false) →
  let w' := fold_left (wstep ctx) steps w in
  wk_any_failed w' = existsb (outcome_is "failed") (wk_stored w') ∧
  wk_any_ok w' = existsb (outcome_is "ok") (wk_stored w').
Proof.
  induction steps as [|s steps IH]; intros w Hf Hok (sk & Hsk & Hsf & Hso); [done|]. cbn [fold_left]. apply IH;
    unfold walk_step; destruct (wk_skip_next w); cbn [wk_any_failed wk_any_ok wk_stored wk_outcomes]; try done;
    try (destruct (run_step _ _ _ _ _ _ _ _ _) as [record db1]; cbn [wk_any_failed wk_any_ok wk_stored wk_outcomes]).
  - rewrite existsb_app, Hsk, existsb_app, Hsf. simpl. by rewrite !orb_false_r, <-Hf.
  - rewrite existsb_app, Hsk, existsb_app, Hso. simpl. rewrite !orb_false_r, <-Hok. f_equal. apply outcome_exclusive.
  - eexists (sk ++ [_]). rewrite Hsk, <-app_assoc. split; [reflexivity|]. by rewrite !existsb_app, Hsf, Hso.
  - exists []. by rewrite app_nil_r.
Qed.

Lemma walk_status ctx steps db :
  final_status (wsteps ctx steps db) = status_of (wk_stored (wsteps ctx steps db)).
Proof.
  destruct (walk_flags ctx steps (mkWalk [] [] false false false db)) as [Hf Hok]; [done|done|by exists []|].
  unfold final_status, status_of. unfold walk_steps. rewrite Hf, Hok. by destruct (existsb _ _).
Qed.

Lemma walk_runs ctx steps : ∀ w, pd_runs (wk_db (fold_left (wstep ctx) steps w)) = pd_runs (wk_db w).
Proof.
  induction steps as [|s steps IH]; intros w; [done|]. cbn [fold_left]. rewrite IH. unfold walk_step.
  destruct (wk_skip_next w); [done|]. unfold run_step. 
  destruct (dispatch_step _ _ _ _ _ _ _ _ _ _) as [[outcome db']|] eqn:Ed; [|done]. cbn [wk_db].
  revert Ed. unfold dispatch_step, reading, queueing.
  repeat match goal with |- (if ?b then _ else _) = _ → _ => destruct b end; intros Ed; try done;
    match type of Ed with (?m ≫= _) = _ => destruct m as [r|]; [|done] end; cbn [mbind res_bind] in Ed;
    try (by injection Ed as _ <-); destruct r as [d j]; by injection Ed as _ <-.
Qed.

(** C11: a playbook does what its body says: the commands queued by a run are
    exactly those of the steps that no false guard holds back, in order, pending,
    for the host of the alert and naming the alert and its rule; and the run is
    recorded once, finished, with the status its outcomes call for. *)
Theorem playbook_queues_exactly p a steps db :
  find_alert db (al_id a) = Some a → parse_yaml safe_load yaml_err (pb_yaml_body p) = Ok steps →
  ∃ db' run, execute p (al_id a) db = Ok (db', run) ∧
    queues (context_from_alert a)
      (omap (step_effect N (context_from_alert a)) (active (al_severity a) steps)) db db' ∧
    pd_runs db' = pd_runs db ++ [run] ∧ pr_playbook_id run = pb_id p ∧ pr_tenant_id run = pb_tenant_id p ∧
    pr_alert_id run = Some (al_id a) ∧ pr_finished_at run = Some (env_now E) ∧ pr_status run = status_of (pr_steps run).
Proof.
  intros Ha Hp. unfold execute_playbook. rewrite Ha, Hp. eexists _, _. split; [reflexivity|].
  cbn [pr_playbook_id pr_tenant_id pr_alert_id pr_finished_at pr_status pr_steps pd_runs set_pb_runs].
  split_and!; try done.
  - exact (walk_steps_effects E N F O suggest_response exc_repr (context_from_alert a) steps db).
  - unfold walk_steps. by rewrite walk_runs.
  - apply walk_status.
Qed.

Lemma skipping_stored ctx steps db :
  wk_skip_next (wsteps ctx steps db) = true → wk_outcomes (wsteps ctx steps db) = wk_stored (wsteps ctx steps db).
Proof.
  unfold walk_steps. destruct steps as [|s l _] using rev_ind; [done|]. rewrite fold_left_app. cbn [fold_left].
  set (w := fold_left _ l _). unfold walk_step. destruct (wk_skip_next w); [done|].
  by destruct (run_step _ _ _ _ _ _ _ _ _).
Qed.

(** The last step is missing from the record of a run when a guard held it
    back: the record of the skipped step is stored only by a later step. *)
Theorem skipped_last_step_unrecorded ctx steps s db :
  wk_skip_next (wsteps ctx steps db) = true →
  wk_outcomes (wsteps ctx (steps ++ [s]) db) ≠ wk_stored (wsteps ctx (steps ++ [s]) db) ∧
  wk_stored (wsteps ctx (steps ++ [s]) db) = wk_stored (wsteps ctx steps db).
Proof.
  intros Hs. pose proof (skipping_stored ctx steps db Hs) as Hw. unfold walk_steps in *. rewrite fold_left_app.
  cbn [fold_left]. set (w := fold_left _ steps _) in *. unfold walk_step. rewrite Hs. cbn [wk_outcomes wk_stored]. rewrite Hw. split; [|done].
  intros H%(f_equal length). rewrite length_app in H. simpl in H. lia.
Qed.
Lemma guard_no_effect ctx b : guard_false (ctx_severity ctx) b = true → step_effect N ctx b = None.
Proof.
  destruct b as [kind params]. unfold guard_false. cbn [step_kind]. intros [->%String.eqb_eq _]%andb_true_iff.
  by apply no_effect.
Qed.

(** A guard that is itself skipped guards nothing: after a false guard, a
    second guard is not evaluated, and the action that it does hold back on its own
    is carried out. *)
Theorem second_guard_not_evaluated ctx b1 b2 s db effect :
  guard_false (ctx_severity ctx) b1 = true → guard_false (ctx_severity ctx) b2 = true →
  step_effect N ctx s = Some effect →
  queues ctx [effect] db (wk_db (wsteps ctx [b1; b2; s] db)) ∧ queues ctx [] db (wk_db (wsteps ctx [b2; s] db)).
Proof.
  intros H1 H2 Hs. split.
  - pose proof (walk_steps_effects E N F O suggest_response exc_repr ctx [b1; b2; s] db) as Hw.
    cbn [active] in Hw. rewrite H1 in Hw. cbn [omap list_omap] in Hw. rewrite Hs, guard_no_effect in Hw by done.
    by destruct (guard_false (ctx_severity ctx) s).
  - pose proof (walk_steps_effects E N F O suggest_response exc_repr ctx [b2; s] db) as Hw.
    cbn [active] in Hw. rewrite H2 in Hw. cbn [omap list_omap] in Hw. by rewrite guard_no_effect in Hw.
Qed.

(** A playbook that isolates a host does not cut it off from its manager: the
    agent is sent every address of the manager, and those of the step. *)
Theorem playbook_isolation_keeps_manager ctx idx params host c :
  validate_step_params idx "isolate" params = Ok tt → clean_resolver N →
  carries ctx (host, ISOLATE, Some (isolate_payload N params)) c →
  ∃ ips, command_to_pb c = Ok (Some (PbIsolate true ips)) ∧
    (∀ ip, ip ∈ manager_ips N → ip ∈ ips) ∧
    ∀ l s, dict_get "network_allowlist_ips" params = Some (PList l) → PStr s ∈ l → nonempty (strip s) = true →
      strip s ∈ ips.
Proof.
  intros Hv HN (_ & Hk & _ & _ & _ & Hp). cbn [fst snd] in Hk, Hp.
  assert (∃ l, match get_none "network_allowlist_ips" params with
               | PList ((_ :: _) as ips) => [("allowlist_ips", PList ips)] | _ => [] end =
               match l with [] => [] | _ => [("allowlist_ips", PList l)] end ∧
             Forall (λ x, is_str x = true) l ∧
             ∀ l', dict_get "network_allowlist_ips" params = Some (PList l') → l' = l) as (l & Hl & Hstr & Hget).
  { revert Hv. unfold validate_step_params. cbn [String.eqb Ascii.eqb Bool.eqb]. unfold get_none, get_default.
    destruct (dict_get "network_allowlist_ips" params) as [[| | | | |l|]|]; cbn; intros Hv; try discriminate Hv;
      try (exists []; by split_and!).
    exists l. split; [by destruct l|]. split; [|by intros l' [= ->]]. apply forallb_Forall'.
    by destruct (forallb is_str l). }
  unfold isolate_payload in Hp. rewrite Hl in Hp.
  destruct (guarded_isolate N ([("isolate", PBool true)] ++ match l with [] => [] | _ => [("allowlist_ips", PList l)] end) l c)
    as (ips & H1 & H2 & H3); [done|done|done|by destruct l|done|done|].
  exists ips. split_and!; [done|done|]. intros l' s ->%Hget. apply H3.
Qed.

Abbreviation handle := (handle_message E N F O suggest_response safe_load yaml_err exc_repr).

Lemma handle_execute p a db :
  uuid_ok (pb_id p) → uuid_ok (al_id a) → find_playbook db (pb_id p) = Some p → pb_enabled p = true →
  handle (PDict [("playbook_id", PStr (uuid_str (pb_id p))); ("alert_id", PStr (uuid_str (al_id a)))]) db =
  ('(db, _) ← execute p (al_id a) db; Ok (true, db)).
Proof.
  intros Hp Ha Hf He. unfold handle_message. cbn [py_get dict_get String.eqb Ascii.eqb Bool.eqb default mbind res_bind].
  cbn. rewrite !uuid_of_str_uuid_str by done. rewrite Hf, He. done.
Qed.

(** Playbooks cross tenants: an enabled playbook of one tenant with a severity
    trigger matches the alerts of every tenant, and the executor then isolates the
    host of the other tenant's alert. *)
Theorem playbook_crosses_tenants p a sev host db params :
  uuid_ok (pb_id p) → uuid_ok (al_id a) →
  p ∈ pd_playbooks db → find_playbook db (pb_id p) = Some p → pb_enabled p = true →
  pb_trigger_severity p = Some sev → 0 ≤ severity_rank sev ≤ severity_rank (Severity_value (al_severity a)) →
  find_alert db (al_id a) = Some a → al_host_id a = Some host → al_tenant_id a ≠ pb_tenant_id p →
  parse_yaml safe_load yaml_err (pb_yaml_body p) = Ok [mkStep "isolate" params] →
  p ∈ find_matching_playbooks db (al_rule_id a) (al_severity a) (al_mitre a) ∧
  ∃ db' c, handle (PDict [("playbook_id", PStr (uuid_str (pb_id p))); ("alert_id", PStr (uuid_str (al_id a)))]) db =
             Ok (true, db') ∧
    jd_commands (pd_jobs db') = jd_commands (pd_jobs db) ++ [c] ∧ cmd_kind c = ISOLATE ∧ cmd_host_id c = host.
Proof.
  intros Hup Hua Hin Hf He Hts Hrank Hfa Hh Hten Hp. split.
  - unfold find_matching_playbooks. rewrite list_elem_of_In, !filter_In, <-list_elem_of_In. split; [done|].
    unfold matches_alert. rewrite He, Hts. cbn [negb is_set]. rewrite orb_true_r. cbn [orb andb].
    destruct (Z.leb_spec 0 (severity_rank sev)); [|lia].
    destruct (Z.leb_spec (severity_rank sev) (severity_rank (Severity_value (al_severity a)))); [|lia].
    cbn [andb]. by rewrite orb_true_r.
  - rewrite handle_execute by done.
    destruct (walk_steps_effects E N F O suggest_response exc_repr (context_from_alert a) [mkStep "isolate" params] db)
      as (new & Hnew & Hc).
    unfold execute_playbook. rewrite Hfa, Hp. cbn [mbind res_bind].
    assert (omap (step_effect N (context_from_alert a))
              (active (ctx_severity (context_from_alert a)) [mkStep "isolate" params]) =
            [(host, ISOLATE, Some (isolate_payload N params))]) as Heff.
    { cbn [active]. unfold step_effect, context_from_alert. cbn. by rewrite Hh. }
    rewrite Heff in Hc. inversion Hc as [|? c ? l (H1 & H2 & _) Hl]; subst. inversion Hl; subst.
    eexists _, c. split; [reflexivity|]. by split.
Qed.
(** A message whose alert is not visible leaves no trace: the run that would
    say so refers to the missing alert and is not stored, and the commit for the next
    message that succeeds moves the offset past it, so that it is not read again. *)
Theorem missing_alert_message_lost p aid doc' b db db' position committed :
  uuid_ok (pb_id p) → uuid_ok aid → find_playbook db (pb_id p) = Some p → pb_enabled p = true →
  find_alert db aid = None → handle doc' db = Ok (b, db') →
  let lost := PDict [("playbook_id", PStr (uuid_str (pb_id p))); ("alert_id", PStr (uuid_str aid))] in
  handle lost db = Err IntegrityError ∧
  consume E N F O suggest_response safe_load yaml_err exc_repr position [MDoc lost; MDoc doc'] db committed =
    (db', S (S position)).
Proof.
  intros Hp Ha Hf He Hno Hok lost.
  assert (handle lost db = Err IntegrityError) as Hlost.
  { unfold handle_message, lost. cbn. rewrite !uuid_of_str_uuid_str by done. rewrite Hf, He. cbn.
    unfold execute_playbook. by rewrite Hno. }
  split; [done|]. cbn [consume consume_one]. by rewrite Hlost, Hok.
Qed.
End recorded.

(** ** Examples *)

Definition demo_cond (c : str) : pyval := PDict [("branch_if", PDict [("condition", PStr c)])].
Definition demo_doc (steps : list pyval) : str → yaml_result := λ _, YDoc (PDict [("steps", PList steps)]).
Definition demo_load : str → yaml_result :=
  demo_doc [demo_cond ("alert.severity == " +:+ quoted "critical"); PDict [("isolate", PNone)];
            PDict [("wait_seconds", PDict [("n", PInt 5)])]; PDict [("isolate", PNone)]].
Definition demo_playbook (id tenant : uuid) : Playbook :=
  mkPlaybook id tenant "contain" None "steps" true None (Some "high") None.
Definition demo_ai : dict → py AiCallResult := λ _, Ok (mkAi [] 0 0 "stub").
Definition demo_yaml_err : str → str := λ _, "".
Definition demo_exc : pyexc → str := λ _, "exc".
Definition demo_pb : pb_db := mkPbDb demo_notify [demo_routed 300 1] [demo_playbook 800 2] [].
Definition demo_ctx : AlertContext := context_from_alert (demo_routed 300 1).
Definition demo_guard : ParsedStep :=
  mkStep "branch_if" [("condition", PStr ("alert.severity in (" +:+ quoted "low" +:+ ", " +:+ quoted "Critical" +:+ " )"))].

Lemma accepted_playbook_bounded_witness :
  ∃ steps, parse_yaml demo_load demo_yaml_err "steps" = Ok steps ∧ (1 ≤ length steps ≤ 64)%nat ∧ total_wait steps = 5.
Proof.
  destruct (parse_yaml demo_load demo_yaml_err "steps") as [steps|] eqn:H; [|vm_compute in H; discriminate H].
  exists steps. split; [reflexivity|].
  destruct (accepted_playbook_bounded demo_load demo_yaml_err "steps" steps H) as (Hl & _). split; [exact Hl|].
  vm_compute in H. injection H as <-. reflexivity.
Defined.

Lemma playbook_queues_exactly_witness :
  ∃ db' run, execute_playbook demo_env demo_net demo_fernet demo_outside demo_ai demo_load demo_yaml_err demo_exc
      (demo_playbook 800 2) 300 demo_pb = Ok (db', run) ∧
    queues demo_ctx [(100, ISOLATE, Some (isolate_payload demo_net []))] demo_pb db' ∧ pd_runs db' = [run].
Proof.
  destruct (playbook_queues_exactly demo_env demo_net demo_fernet demo_outside demo_ai demo_load demo_yaml_err demo_exc
              (demo_playbook 800 2) (demo_routed 300 1)
              [mkStep "branch_if" [("condition", PStr ("alert.severity == " +:+ quoted "critical"))]; mkStep "isolate" [];
               mkStep "wait_seconds" [("n", PInt 5)]; mkStep "isolate" []] demo_pb) as (db' & run & H1 & H2 & H3 & _).
  - reflexivity.
  - vm_compute. reflexivity.
  - exists db', run. split; [exact H1|]. split; [exact H2|exact H3].
Defined.

Lemma skipped_last_step_unrecorded_witness :
  wk_stored (walk_steps demo_env demo_net demo_fernet demo_outside demo_ai demo_exc demo_ctx
               [demo_guard; mkStep "isolate" []] demo_pb) =
  wk_stored (walk_steps demo_env demo_net demo_fernet demo_outside demo_ai demo_exc demo_ctx [demo_guard] demo_pb).
Proof.
  apply (skipped_last_step_unrecorded demo_env demo_net demo_fernet demo_outside demo_ai demo_exc demo_ctx
           [demo_guard] (mkStep "isolate" []) demo_pb). vm_compute. reflexivity.
Defined.

Lemma second_guard_not_evaluated_witness :
  queues demo_ctx [(100, ISOLATE, Some (isolate_payload demo_net []))] demo_pb
    (wk_db (walk_steps demo_env demo_net demo_fernet demo_outside demo_ai demo_exc demo_ctx
              [demo_guard; demo_guard; mkStep "isolate" []] demo_pb)).
Proof.
  apply (second_guard_not_evaluated demo_env demo_net demo_fernet demo_outside demo_ai demo_exc demo_ctx demo_guard demo_guard
           (mkStep "isolate" []) demo_pb (100, ISOLATE, Some (isolate_payload demo_net []))); vm_compute; reflexivity.
Defined.

Lemma playbook_isolation_keeps_manager_witness :
  ∃ ips, command_to_pb (playbook_command demo_env demo_ctx 100 ISOLATE (isolate_payload demo_net []) demo_jobs) =
    Ok (Some (PbIsolate true ips)) ∧ "10.0.0.5" ∈ ips.
Proof.
  destruct (playbook_isolation_keeps_manager demo_net demo_ctx 0 [] 100
              (playbook_command demo_env demo_ctx 100 ISOLATE (isolate_payload demo_net []) demo_jobs)) as (ips & H1 & H2 & _).
  - reflexivity.
  - exact demo_net_clean.
  - by repeat split.
  - exists ips. split; [exact H1|]. apply H2. change (manager_ips demo_net) with ["10.0.0.5"; "::1"]. by left.
Defined.

Lemma playbook_crosses_tenants_witness :
  demo_playbook 800 2 ∈ find_matching_playbooks demo_pb 9 HIGH None.
Proof.
  apply (playbook_crosses_tenants demo_env demo_net demo_fernet demo_outside demo_ai (demo_doc [PDict [("isolate", PNone)]])
           demo_yaml_err demo_exc (demo_playbook 800 2) (demo_routed 300 1) "high" 100 demo_pb []); try reflexivity.
  - unfold uuid_ok; simpl; lia.
  - unfold uuid_ok; simpl; lia.
  - left.
  - vm_compute. split; discriminate.
  - discriminate.
Defined.

Lemma missing_alert_message_lost_witness :
  consume demo_env demo_net demo_fernet demo_outside demo_ai demo_load demo_yaml_err demo_exc 7
    [MDoc (PDict [("playbook_id", PStr (uuid_str 800)); ("alert_id", PStr (uuid_str 301))]); MDoc (PDict [])] demo_pb 7 =
  (demo_pb, 9%nat).
Proof.
  apply (missing_alert_message_lost demo_env demo_net demo_fernet demo_outside demo_ai demo_load demo_yaml_err demo_exc
           (demo_playbook 800 2) 301 (PDict []) false demo_pb demo_pb 7 7); try reflexivity.
  - unfold uuid_ok; simpl; lia.
  - unfold uuid_ok; simpl; lia.
Defined.
