(* ===== verification/Uploads.v ===== *)
(** * Uploads: signed upload grants and the upload proxy

    services/uploads.py (the HMAC-signed token), the [RequestArtifactUpload] call
    of grpc/services.py that grants one to an agent, and the [PUT /api/uploads]
    and [GET /api/downloads] handlers of api/uploads.py.  The object store is a
    map from a bucket and a key to the stored bytes.  The token of a terminal
    session (services/terminal.py) has the same envelope and is in Terminal. *)

From Stdlib Require Import Ascii String SpecFloat.
From S2P Require Import Prelude PyStr PyVal PyTime Crypto PyText Models AuditChain Rollout Scoping Jobs.
Local Open Scope string_scope.
Local Open Scope list_scope.
Local Open Scope Z_scope.

(** The settings the tokens and the proxy read. *)
Record upload_settings := mkUploadSettings {
  st_upload_token_key : str;
  st_jwt_secret : str;
  st_upload_token_ttl_seconds : Z;
  st_bucket_artifacts : str;
  st_bucket_snapshots : str;
  st_upload_max_bytes : Z;
  st_manager_public_url : str
}.

(** ** The token *)

(** [_key]: the dedicated key, or the JWT secret when it is empty. *)
Definition token_key (T : upload_settings) : bytes :=
  if nonempty (st_upload_token_key T) then utf8 (st_upload_token_key T) else utf8 (st_jwt_secret T).

(** [int(t.timestamp())]: the microseconds divided as floats, then truncated. *)
Definition int_timestamp (t : datetime) : py Z :=
  py_int_of_float (float_of_ratio (t <? 0) (Z.abs t) 1000000).

(** [datetime.fromtimestamp(n, tz=UTC)] of an integer.  Beyond the range of
    [gmtime] the platform decides the exception. *)
Definition fromtimestamp (n : Z) : py datetime :=
  let t := n * 1000000 in
  if (MINYEAR_us <=? t) && (t <=? MAXYEAR_us) then Ok t
  else if Z.abs n <? 2 ^ 55 then Err ValueError else Err Unmodelled.

(** [datetime.now(UTC) + timedelta(seconds=ttl)] *)
Definition add_seconds (now : datetime) (ttl : Z) : py datetime :=
  let t := now + ttl * 1000000 in
  if (MINYEAR_us <=? t) && (t <=? MAXYEAR_us) then Ok t else Err OverflowError.

(** The envelope [prefix.b64(payload).b64(hmac)] of both kinds of token. *)
Definition seal (key : bytes) (prefix payload : str) : str :=
  join "." [prefix; b64encode_urlsafe (utf8 payload); b64encode_urlsafe (hmac_sha256 key (utf8 payload))].

(** The three checks on the envelope: the shape and the prefix, the encoding,
    the signature.  [None] is the source's [return None]. *)
Definition unseal (key : bytes) (prefix token : str) : option bytes :=
  match split_on "." token with
  | [p; a; b] =>
      if negb (String.eqb p prefix) then None
      else match b64decode_urlsafe a, b64decode_urlsafe b with
           | Ok payload_bytes, Ok sig_bytes =>
               if String.eqb sig_bytes (hmac_sha256 key payload_bytes) then Some payload_bytes else None
           | _, _ => None
           end
  | _ => None
  end.

(** Decoding the payload: four fields separated by [|], the last the expiry in
    Unix seconds; [ValueError] and [OverflowError] are the source's [None]. *)
Definition token_fields (payload_bytes : bytes) : py (option (str * str * str * datetime)) :=
  match utf8_decode payload_bytes with
  | Err UnicodeDecodeError => Ok None
  | Err e => Err e
  | Ok payload =>
      match split_max 3 "|" payload with
      | [a; b; c; exp] =>
          match py_int exp with
          | None => Ok None
          | Some n => match fromtimestamp n with
                      | Ok t => Ok (Some (a, b, c, t))
                      | Err ValueError | Err OverflowError => Ok None
                      | Err e => Err e
                      end
          end
      | _ => Ok None
      end
  end.

Definition UPLOAD_PREFIX : str := "vau1".

Record UploadClaim := mkUploadClaim {
  uc_run_id : uuid;
  uc_bucket : str;
  uc_object_key : str;
  uc_expires_at : datetime
}.

(** [_canonical] of uploads.py *)
Definition upload_canonical (run : uuid) (bucket object_key : str) (expires_at : datetime) : py str :=
  n ← int_timestamp expires_at;
  Ok (uuid_str run +:+ "|" +:+ bucket +:+ "|" +:+ object_key +:+ "|" +:+ str_of_Z n).

Definition issue_upload_token (T : upload_settings) (now : datetime) (run : uuid) (bucket object_key : str)
    (ttl_seconds : option Z) : py (str * datetime) :=
  let ttl := match ttl_seconds with
             | Some s => if s =? 0 then st_upload_token_ttl_seconds T else s
             | None => st_upload_token_ttl_seconds T
             end in
  expires_at ← add_seconds now ttl;
  payload ← upload_canonical run bucket object_key expires_at;
  Ok (seal (token_key T) UPLOAD_PREFIX payload, expires_at).

Definition verify_upload_token (T : upload_settings) (now : datetime) (token : str) : py (option UploadClaim) :=
  match unseal (token_key T) UPLOAD_PREFIX token with
  | None => Ok None
  | Some payload_bytes =>
      fields ← token_fields payload_bytes;
      match fields with
      | None => Ok None
      | Some (run_id_s, bucket, object_key, expires_at) =>
          if expires_at <? now then Ok None
          else match uuid_of_str run_id_s with
               | None => Ok None
               | Some run => Ok (Some (mkUploadClaim run bucket object_key expires_at))
               end
      end
  end.

(** ** The grant (gRPC) *)

Definition JobArtifactKind_values : list str :=
  ["json"; "file"; "yara_matches"; "ioc_matches"; "hash_list"; "shell_output"; "diagnostic_bundle"].

Record ArtifactUploadRequest := mkUploadRequest {
  ur_run_id : str;
  ur_artifact_kind : str;
  ur_original_filename : str
}.

Record ArtifactUploadGrant := mkGrant {
  gr_url : str;
  gr_bucket : str;
  gr_object_key : str;
  gr_expires_at : datetime;
  gr_token : str
}.

Definition or_else (s default : str) : str := if nonempty s then s else default.
Definition is_slash (c : ascii) : bool := Ascii.eqb c "/".

Definition find_run (db : job_db) (rid : uuid) : option JobRun :=
  List.find (λ r, run_id r =? rid) (jd_runs db).

(** [peer] is the host id in the client certificate.  [context.abort] raises. *)
Definition RequestArtifactUpload (T : upload_settings) (now : datetime) (peer : option str)
    (request : ArtifactUploadRequest) (db : job_db) : py ArtifactUploadGrant :=
  match peer with
  | None | Some "" => Err (RpcAbort "UNAUTHENTICATED")
  | Some cn =>
      match uuid_of_str cn, uuid_of_str (ur_run_id request) with
      | Some host_uuid, Some run_uuid =>
          if negb (bool_decide (or_else (ur_artifact_kind request) "file" ∈ JobArtifactKind_values)) then
            Err (RpcAbort "INVALID_ARGUMENT")
          else match find_run db run_uuid with
          | None => Err (RpcAbort "PERMISSION_DENIED")
          | Some run =>
              if negb (run_host_id run =? host_uuid) then Err (RpcAbort "PERMISSION_DENIED")
              else match List.find (λ j, job_id j =? run_job_id run) (jd_jobs db) with
              | None => Err (RpcAbort "FAILED_PRECONDITION")
              | Some job =>
                  let bucket := artifact_bucket_for (st_bucket_snapshots T) (st_bucket_artifacts T) (job_kind job) in
                  let object_key := artifact_object_key now run_uuid
                                      (or_else (ur_original_filename request) "artifact.bin") in
                  '(token, expires_at) ← issue_upload_token T now run_uuid bucket object_key None;
                  Ok (mkGrant (rstrip_by is_slash (st_manager_public_url T) +:+ "/api/uploads") bucket object_key
                        expires_at token)
              end
          end
      | _, _ => Err (RpcAbort "INVALID_ARGUMENT")
      end
  end.

(** ** The proxy (HTTP) *)

Abbreviation object_store := (gmap (str * str) bytes).

(** [s3_error bucket key] is the error code the store answers a write with, if
    any. *)
Definition upload_artifact (T : upload_settings) (s3_error : str → str → option str) (now : datetime)
    (token bucket object_key : str) (content_length : option Z) (body : bytes) (store : object_store) :
    py object_store :=
  claim ← verify_upload_token T now token;
  match claim with
  | None => Err (HTTPException 403)
  | Some claim =>
      if negb (String.eqb (uc_bucket claim) bucket) || negb (String.eqb (uc_object_key claim) object_key) then
        Err (HTTPException 403)
      else if negb (bool_decide (uc_bucket claim ∈ [st_bucket_artifacts T; st_bucket_snapshots T])) then
        Err (HTTPException 403)
      else match content_length with
      | None => Err (HTTPException 400)
      | Some n =>
          if (n <? 0) || (st_upload_max_bytes T <? n) then Err (HTTPException 400)
          else if negb (Z.of_nat (String.length body) =? n) then Err (HTTPException 400)
          else match s3_error (uc_bucket claim) (uc_object_key claim) with
               | Some _ => Err (HTTPException 400)
               | None => Ok (<[(uc_bucket claim, uc_object_key claim) := body]> store)
               end
      end
  end.

(** ** Envelopes and fields *)

Lemma unseal_seal key prefix payload :
  lacks "." prefix = true → unseal key prefix (seal key prefix payload) = Some (utf8 payload).
Proof.
  intros Hp. unfold unseal, seal. rewrite split_on_join; [|done|].
  - by rewrite String.eqb_refl, !b64_roundtrip, String.eqb_refl.
  - repeat constructor; [done|apply b64_lacks_dot..].
Qed.

(** Whatever is accepted carries the HMAC of its payload under the key. *)
Lemma unseal_signed key prefix token payload :
  unseal key prefix token = Some payload →
  ∃ a b, split_on "." token = [prefix; a; b] ∧ b64decode_urlsafe a = Ok payload ∧
         b64decode_urlsafe b = Ok (hmac_sha256 key payload).
Proof.
  unfold unseal. destruct (split_on "." token) as [|p [|a [|b [|]]]]; try done.
  destruct (String.eqb_spec p prefix) as [->|]; [|done]. simpl.
  destruct (b64decode_urlsafe a) as [x|] eqn:Ha; [|done].
  destruct (b64decode_urlsafe b) as [y|] eqn:Hb; [|done].
  destruct (String.eqb_spec y (hmac_sha256 key x)) as [->|]; [|done]. intros [= ->]. eauto 10.
Qed.

Lemma split_max_S n sep a b : lacks sep a = true → split_max (Datatypes.S n) sep (a +:+ String sep b) = a :: split_max n sep b.
Proof. intros Ha. cbn [split_max]. by rewrite split_first_at. Qed.

Lemma append_sep (c : ascii) (s : str) : String c "" +:+ s = String c s.
Proof. by rewrite append_cons, append_nil_l. Qed.

Lemma uuid_lacks_pipe u : lacks "|" (uuid_str u) = true.
Proof. apply (uuid_str_avoids (λ a, Ascii.eqb a "|")); [done|]. by intros [[] [] [] [] [] [] [] []]. Qed.

Definition print_fields (a b c : str) (n : Z) : str :=
  a +:+ "|" +:+ b +:+ "|" +:+ c +:+ "|" +:+ str_of_Z n.

Lemma token_fields_print a b c n :
  lacks "|" a = true → lacks "|" b = true → lacks "|" c = true → 0 ≤ n → datetime_ok (n * 1000000) →
  token_fields (utf8 (print_fields a b c n)) = Ok (Some (a, b, c, n * 1000000)).
Proof.
  intros Ha Hb Hc Hn [H1 H2]. unfold token_fields. rewrite utf8_decode_utf8. unfold print_fields.
  rewrite !append_sep, !split_max_S by done. cbn [split_max]. rewrite py_int_str_of_Z by done.
  unfold fromtimestamp. by rewrite (proj2 (Z.leb_le _ _) H1), (proj2 (Z.leb_le _ _) H2).
Qed.


Lemma lacks_has_char c s : lacks c s = negb (has_char c s).
Proof.
  unfold lacks, has_char. induction s as [|a s IH]; [done|]. simpl.
  by rewrite IH, negb_orb, (Ascii.eqb_sym c a).
Qed.

Lemma has_char_split c s : has_char c s = true → ∃ a b, s = a +:+ String c b ∧ lacks c a = true.
Proof.
  unfold has_char. induction s as [|x s IH]; [done|]. simpl. destruct (Ascii.eqb_spec c x) as [->|Hne].
  - intros _. by exists "", s.
  - intros (a & b & -> & Ha)%IH. exists (String x a), b. split; [done|].
    unfold lacks in *. cbn [string_forallb]. rewrite Ha, andb_true_r, negb_true_iff. apply Ascii.eqb_neq.
    congruence.
Qed.

(** A third field with a [|] in it shifts the expiry, and the token is refused. *)
Lemma token_fields_piped a b c n :
  lacks "|" a = true → lacks "|" b = true → has_char "|" c = true →
  token_fields (utf8 (print_fields a b c n)) = Ok None.
Proof.
  intros Ha Hb (c1 & c2 & -> & Hc)%has_char_split. unfold token_fields. rewrite utf8_decode_utf8.
  unfold print_fields. rewrite !append_sep, append_assoc, append_cons, !split_max_S by done.
  cbn [split_max]. rewrite (py_int_rejects "|"); [done| |done..].
  unfold has_char. rewrite string_existsb_app. simpl. by rewrite orb_true_r.
Qed.

(** *** File names *)

Lemma has_char_replace_char c old s :
  Ascii.eqb c old = false → Ascii.eqb c "_" = false → has_char c (replace_char old "_" s) = has_char c s.
Proof.
  intros Ho Hu. unfold replace_char, has_char. induction s as [|a s IH]; [done|]. simpl.
  rewrite string_existsb_app, IH. destruct (Ascii.eqb_spec a old) as [->|Hne]; simpl; [by rewrite Hu, Ho|].
  by rewrite orb_false_r.
Qed.

Lemma has_char_replace_dots c s :
  is_dot c = false → Ascii.eqb c "_" = false → has_char c (replace ".." "_" s) = has_char c s.
Proof.
  intros Hd Hu. remember (String.length s) as n eqn:Hn. revert s Hn.
  induction n as [n IH] using lt_wf_ind. intros [|a s] Hn; [done|]. simpl in Hn.
  rewrite replace_dots_cons. destruct (is_dot a && dot_head s) eqn:Hb.
  - destruct s as [|d s]; [by rewrite andb_false_r in Hb|]. apply andb_true_iff in Hb as [Ha Hh].
    simpl in Hh. apply Ascii.eqb_eq in Ha as ->. apply Ascii.eqb_eq in Hh as ->. simpl in Hn. simpl drop_str.
    unfold has_char in *. simpl. rewrite Hu, (IH (String.length s)) by (done || lia).
    unfold is_dot in Hd. by rewrite Hd.
  - unfold has_char in *. simpl. by rewrite (IH (String.length s)) by (done || lia).
Qed.

Lemma has_pipe_safe_name name : has_char "|" (safe_name name) = has_char "|" name.
Proof.
  unfold safe_name. set (s := replace ".." "_" _).
  assert (has_char "|" s = has_char "|" name) as Hs.
  { unfold s. by rewrite has_char_replace_dots, !has_char_replace_char. }
  destruct (nonempty s) eqn:Hne; [done|]. rewrite <- Hs. by destruct s.
Qed.

Lemma digits_fixed_lacks_pipe w z : has_char "|" (digits_fixed 10 w z) = false.
Proof.
  apply negb_true_iff. rewrite <- lacks_has_char. unfold lacks.
  assert (∀ c, is_hex c = true → negb (Ascii.eqb c "|") = true) as Hx
    by (by intros [[] [] [] [] [] [] [] []]).
  revert z. induction w as [|w IH]; intros z; [done|]. cbn [digits_fixed].
  rewrite string_forallb_app, IH. cbn [string_forallb]. rewrite Hx; [done|].
  apply is_hex_digit. pose proof (Z.mod_pos_bound z 10). lia.
Qed.

Lemma has_pipe_object_key now run name :
  has_char "|" (artifact_object_key now run name) = has_char "|" name.
Proof.
  unfold artifact_object_key. destruct (civil_of_days _) as [[y m] d].
  rewrite <- (has_pipe_safe_name name). unfold has_char at 1. rewrite !string_existsb_app.
  fold (has_char "|" (safe_name name)) (has_char "|" (digits_fixed 10 4 y)) (has_char "|" (digits_fixed 10 2 m))
    (has_char "|" (uuid_str run)).
  rewrite !digits_fixed_lacks_pipe. pose proof (uuid_lacks_pipe run) as Hu.
  rewrite lacks_has_char, negb_true_iff in Hu. by rewrite Hu.
Qed.

(** *** Expiry *)

Lemma int_timestamp_nonneg t n : 0 ≤ t → int_timestamp t = Ok n → 0 ≤ n.
Proof.
  intros Ht. unfold int_timestamp. rewrite (proj2 (Z.ltb_ge _ _) Ht), Z.abs_eq by done.
  unfold float_of_ratio. destruct t as [|p|p]; [by intros [= <-]| |lia].
  destruct (SFdiv_core_binary _ _ _ _ _ _) as [[mz ez] lz]. unfold binary_round_aux.
  destruct (shr_fexp _ _ _ _ _) as [mrs e]. destruct (shr_fexp _ _ _ _ _) as [mrs' e'].
  destruct (shr_m mrs') as [|m|m]; [by intros [= <-]| |done].
  destruct (_ <=? _); [|done]. cbn. intros [= <-].
  destruct (0 <=? e') eqn:He; [apply Z.leb_le in He; apply Z.mul_nonneg_nonneg; [lia|by apply Z.pow_nonneg]|].
  apply Z.div_pos; [lia|]. apply Z.pow_pos_nonneg; [lia|]. apply Z.leb_gt in He. lia.
Qed.

(** ** What a token promises *)

Lemma issue_upload_ok T now run bucket key ttl token exp :
  issue_upload_token T now run bucket key ttl = Ok (token, exp) →
  ∃ n, int_timestamp exp = Ok n ∧
       token = seal (token_key T) UPLOAD_PREFIX (print_fields (uuid_str run) bucket key n).
Proof.
  unfold issue_upload_token, upload_canonical. intros H. res_inv. simplify_eq. eauto.
Qed.

Lemma verify_sealed T now payload :
  verify_upload_token T now (seal (token_key T) UPLOAD_PREFIX payload) =
    (fields ← token_fields (utf8 payload);
     match fields with
     | None => Ok None
     | Some (run_id_s, bucket, object_key, expires_at) =>
         if expires_at <? now then Ok None
         else match uuid_of_str run_id_s with
              | None => Ok None
              | Some run => Ok (Some (mkUploadClaim run bucket object_key expires_at))
              end
     end).
Proof. unfold verify_upload_token. by rewrite unseal_seal. Qed.

Definition no_pipe (s : str) : Prop := has_char "|" s = false.

Lemma no_pipe_lacks s : no_pipe s → lacks "|" s = true.
Proof. unfold no_pipe. by rewrite lacks_has_char, negb_true_iff. Qed.

(** An upload token read back within its lifetime gives the claim it was
    issued for: the run, the bucket, the object key, and the expiry truncated to
    the second. *)
Lemma upload_token_roundtrip T now later run bucket key ttl token exp n :
  issue_upload_token T now run bucket key ttl = Ok (token, exp) →
  uuid_ok run → no_pipe bucket → no_pipe key → 0 ≤ exp → int_timestamp exp = Ok n →
  later ≤ n * 1000000 ≤ MAXYEAR_us →
  verify_upload_token T later token = Ok (Some (mkUploadClaim run bucket key (n * 1000000))).
Proof.
  intros (n' & Hn & ->)%issue_upload_ok Hrun Hb Hk Hexp Hn' [Hl Hm]. rewrite Hn in Hn'. injection Hn' as ->.
  pose proof (int_timestamp_nonneg _ _ Hexp Hn).
  rewrite verify_sealed, token_fields_print; [|apply uuid_lacks_pipe|by apply no_pipe_lacks..|done|].
  - simpl. by rewrite (proj2 (Z.ltb_ge _ _) Hl), uuid_of_str_uuid_str.
  - split; [unfold MINYEAR_us; lia|done].
Qed.

Lemma request_ok T now peer request db g :
  RequestArtifactUpload T now peer request db = Ok g →
  ∃ cn run host,
    peer = Some cn ∧ uuid_of_str cn = Some host ∧ uuid_of_str (ur_run_id request) = Some (run_id run) ∧
    run ∈ jd_runs db ∧ run_host_id run = host ∧
    gr_bucket g ∈ [st_bucket_artifacts T; st_bucket_snapshots T] ∧
    gr_object_key g =
      artifact_object_key now (run_id run) (or_else (ur_original_filename request) "artifact.bin") ∧
    issue_upload_token T now (run_id run) (gr_bucket g) (gr_object_key g) None =
      Ok (gr_token g, gr_expires_at g).
Proof.
  unfold RequestArtifactUpload. intros H.
  destruct peer as [[|c cn]|]; try done. set (s := String c cn) in *.
  destruct (uuid_of_str s) as [host|] eqn:Hh; [|done].
  destruct (uuid_of_str (ur_run_id request)) as [rid|] eqn:Hr; [|done].
  destruct (negb _); [done|]. destruct (find_run db rid) as [run|] eqn:Hf; [|done].
  apply List.find_some in Hf as [Hin Hid]. apply list_elem_of_In in Hin. apply Z.eqb_eq in Hid as <-.
  destruct (Z.eqb_spec (run_host_id run) host) as [Heq|]; [|done]. simpl in H.
  destruct (List.find _ _) as [job|]; [|done]. res_inv. destruct x as [token exp]. injection H as <-.
  exists s, run, host. split_and!; try done.
  cbn [gr_bucket]. unfold artifact_bucket_for. case_bool_decide; set_solver.
Qed.

Definition settings_ok (T : upload_settings) : Prop :=
  no_pipe (st_bucket_artifacts T) ∧ no_pipe (st_bucket_snapshots T).

Lemma settings_bucket T b : settings_ok T → b ∈ [st_bucket_artifacts T; st_bucket_snapshots T] → no_pipe b.
Proof. intros [H1 H2]. rewrite !elem_of_cons, elem_of_nil. naive_solver. Qed.

Lemma granted_claim T now later peer request db g n :
  RequestArtifactUpload T now peer request db = Ok g → settings_ok T →
  (∀ r, r ∈ jd_runs db → uuid_ok (run_id r)) →
  0 ≤ gr_expires_at g → int_timestamp (gr_expires_at g) = Ok n → later ≤ n * 1000000 ≤ MAXYEAR_us →
  ∃ run, verify_upload_token T later (gr_token g) =
         Ok (if has_char "|" (ur_original_filename request) then None
             else Some (mkUploadClaim run (gr_bucket g) (gr_object_key g) (n * 1000000))).
Proof.
  intros (cn & run & host & -> & Hh & Hr & Hin & Hrun & Hb & Hk & Hi)%request_ok HT Hids Hexp Hn Hl.
  exists (run_id run). pose proof (settings_bucket T _ HT Hb) as Hnb.
  assert (has_char "|" (gr_object_key g) = has_char "|" (ur_original_filename request)) as Hpipe.
  { rewrite Hk, has_pipe_object_key. unfold or_else. by destruct (ur_original_filename request). }
  destruct (has_char "|" (ur_original_filename request)) eqn:Hp.
  - apply issue_upload_ok in Hi as (n' & _ & ->). rewrite verify_sealed, token_fields_piped; [done| |by apply no_pipe_lacks|done].
    apply uuid_lacks_pipe.
  - eapply upload_token_roundtrip; eauto.
Qed.

(** C32: an agent that asks for an upload grant and uploads with the granted
    headers before the grant expires gets its object stored under the granted key
    and nothing else changes, as long as the body is within the size limit and
    the store accepts it; except when the file name holds a [|], for then the
    manager refuses its own token. *)
Theorem granted_upload T s3_error now later peer request db g n body store :
  RequestArtifactUpload T now peer request db = Ok g → settings_ok T →
  (∀ r, r ∈ jd_runs db → uuid_ok (run_id r)) →
  0 ≤ gr_expires_at g → int_timestamp (gr_expires_at g) = Ok n → later ≤ n * 1000000 ≤ MAXYEAR_us →
  upload_artifact T s3_error later (gr_token g) (gr_bucket g) (gr_object_key g)
    (Some (Z.of_nat (String.length body))) body store =
  if has_char "|" (ur_original_filename request) then Err (HTTPException 403)
  else if st_upload_max_bytes T <? Z.of_nat (String.length body) then Err (HTTPException 400)
  else match s3_error (gr_bucket g) (gr_object_key g) with
       | Some _ => Err (HTTPException 400)
       | None => Ok (<[(gr_bucket g, gr_object_key g) := body]> store)
       end.
Proof.
  intros Hg HT Hids Hexp Hn Hl.
  destruct (granted_claim T now later peer request db g n Hg HT Hids Hexp Hn Hl) as [run Hv].
  apply request_ok in Hg as (cn & r & host & -> & Hh & Hr & Hin & Hrun & Hb & Hk & Hi).
  unfold upload_artifact. rewrite Hv. destruct (has_char "|" _); [done|]. cbn [mbind res_bind uc_bucket uc_object_key].
  rewrite !String.eqb_refl, bool_decide_true by done. cbn [negb orb].
  rewrite (proj2 (Z.ltb_ge _ 0)) by lia. rewrite Z.eqb_refl. done.
Qed.

Lemma token_fields_ok b f1 f2 f3 t :
  token_fields b = Ok (Some (f1, f2, f3, t)) →
  ∃ payload exp n, b = utf8 payload ∧ split_max 3 "|" payload = [f1; f2; f3; exp] ∧
    py_int exp = Some n ∧ t = n * 1000000.
Proof.
  unfold token_fields. destruct (utf8_decode b) as [p|[]] eqn:Hd; try done.
  apply utf8_decode_inv in Hd as ->. destruct (split_max 3 "|" p) as [|x [|y [|z [|e [|]]]]] eqn:Hs; try done.
  destruct (py_int e) as [n|] eqn:Hn; [|done]. unfold fromtimestamp.
  destruct (_ && _); [|by destruct (_ <? _)]. intros [= -> -> -> <-]. eauto 10.
Qed.

Lemma verify_upload_ok T now token c :
  verify_upload_token T now token = Ok (Some c) →
  ∃ a b payload run exp n,
    split_on "." token = [UPLOAD_PREFIX; a; b] ∧ b64decode_urlsafe a = Ok (utf8 payload) ∧
    b64decode_urlsafe b = Ok (hmac_sha256 (token_key T) (utf8 payload)) ∧
    split_max 3 "|" payload = [run; uc_bucket c; uc_object_key c; exp] ∧
    uuid_of_str run = Some (uc_run_id c) ∧ py_int exp = Some n ∧ now ≤ n * 1000000.
Proof.
  unfold verify_upload_token. destruct (unseal _ _ _) as [p|] eqn:Hu; [|done].
  apply unseal_signed in Hu as (a & b & Hs & Ha & Hb). intros ([[[[f1 f2] f3] t]|] & Hf & Hc)%res_bind_ok; [|done].
  apply token_fields_ok in Hf as (payload & exp & n & -> & Hsp & Hn & ->).
  destruct (Z.ltb_spec (n * 1000000) now); [done|]. destruct (uuid_of_str f1) eqn:Hid; [|done].
  injection Hc as <-. exists a, b, payload, f1, exp, n. done.
Qed.

(** Nothing is written without a valid token: a successful upload stores the
    body it was sent, under the bucket and the key that the caller named and the
    signed payload names, in one of the two buckets of the manager, within the
    size limit, before the expiry; and changes no other object. *)
Theorem upload_needs_token T s3_error now token bucket key content_length body store store' :
  upload_artifact T s3_error now token bucket key content_length body store = Ok store' →
  store' = <[(bucket, key) := body]> store ∧
  bucket ∈ [st_bucket_artifacts T; st_bucket_snapshots T] ∧
  content_length = Some (Z.of_nat (String.length body)) ∧
  Z.of_nat (String.length body) ≤ st_upload_max_bytes T ∧
  ∃ a b payload run exp,
    split_on "." token = [UPLOAD_PREFIX; a; b] ∧ b64decode_urlsafe a = Ok (utf8 payload) ∧
    b64decode_urlsafe b = Ok (hmac_sha256 (token_key T) (utf8 payload)) ∧
    split_max 3 "|" payload = [run; bucket; key; exp] ∧
    ∃ n, py_int exp = Some n ∧ now ≤ n * 1000000.
Proof.
  unfold upload_artifact. intros ([c|] & Hv & H)%res_bind_ok; [|done].
  apply verify_upload_ok in Hv as (a & b & payload & run & exp & n & Hs & Ha & Hb & Hp & Hid & Hn & Hle).
  destruct (String.eqb_spec (uc_bucket c) bucket) as [<-|]; [|done].
  destruct (String.eqb_spec (uc_object_key c) key) as [<-|]; [|done]. simpl in H.
  case_bool_decide as Hin; [|done]. simpl in H. destruct content_length as [m|]; [|done].
  destruct (_ || _) eqn:Hr in H; [done|]. destruct (Z.eqb_spec (Z.of_nat (String.length body)) m) as [<-|]; [|done].
  simpl in H. destruct (s3_error _ _); [done|]. injection H as <-. breflect. split_and!; [done..|lia|].
  exists a, b, payload, run, exp. eauto 10.
Qed.

(** ** Examples *)

Definition demo_settings : upload_settings :=
  mkUploadSettings "key" "secret" 900 "vigil-artifacts" "vigil-snapshots" 536870912 "https://m/".
Definition demo_granted (name : str) : py ArtifactUploadGrant :=
  RequestArtifactUpload demo_settings 1700000000000000 (Some (uuid_str 100))
    (mkUploadRequest (uuid_str 0) "" name) demo_created.1.1.

Lemma demo_granted_ok name :
  gr_expires_at <$> to_option (demo_granted name) = Some 1700000900000000.
Proof. vm_compute. reflexivity. Qed.

Lemma demo_runs_ok : ∀ r, r ∈ jd_runs demo_created.1.1 → uuid_ok (run_id r).
Proof.
  assert (forallb (λ r, (0 <=? run_id r) && (run_id r <? 2 ^ 128)) (jd_runs demo_created.1.1) = true) as H
    by (vm_compute; reflexivity).
  intros r Hr. rewrite forallb_forall in H. specialize (H r (proj1 (list_elem_of_In _ _) Hr)).
  apply andb_true_iff in H as [H1 H2]. apply Z.leb_le in H1. apply Z.ltb_lt in H2. by split.
Qed.

Lemma granted_upload_witness :
  ∃ g, demo_granted "a.bin" = Ok g ∧
    upload_artifact demo_settings (λ _ _, None) 1700000001000000 (gr_token g) (gr_bucket g) (gr_object_key g)
      (Some (Z.of_nat (String.length "abc"))) "abc" ∅ = Ok (<[(gr_bucket g, gr_object_key g) := "abc"]> ∅).
Proof.
  pose proof (demo_granted_ok "a.bin") as He.
  destruct (demo_granted "a.bin") as [g|] eqn:Hg; [|discriminate He]. injection He as He.
  exists g. split; [reflexivity|]. etransitivity; [|reflexivity].
  apply (granted_upload demo_settings (λ _ _, None) 1700000000000000 1700000001000000 (Some (uuid_str 100))
           (mkUploadRequest (uuid_str 0) "" "a.bin") demo_created.1.1 g 1700000900 "abc" ∅).
  - exact Hg.
  - split; reflexivity.
  - exact demo_runs_ok.
  - by rewrite He.
  - rewrite He. vm_compute. reflexivity.
  - unfold MAXYEAR_us. lia.
Defined.

Definition demo_token : str :=
  match issue_upload_token demo_settings 1700000000000000 7 "vigil-artifacts" "k" None with
  | Ok (token, _) => token
  | Err _ => ""
  end.

Definition demo_upload : py object_store :=
  upload_artifact demo_settings (λ _ _, None) 1700000000000000 demo_token "vigil-artifacts" "k" (Some 2) "hi" ∅.

Lemma upload_needs_token_witness :
  ∃ store', demo_upload = Ok store' ∧ store' = <[("vigil-artifacts", "k") := "hi"]> ∅.
Proof.
  assert (is_ok demo_upload = true) as Hok by (vm_compute; reflexivity).
  destruct demo_upload as [store'|] eqn:H; [|discriminate Hok]. exists store'. split; [reflexivity|].
  unfold demo_upload in H. apply upload_needs_token in H as [H _]. exact H.
Defined.
