(* ===== verification/Terminal.v ===== *)
(** * Terminal: live-response sessions

    services/terminal.py (the session token and the broker that pairs the two
    halves of a session), api/host_terminal.py (the route that mints a token, the
    WebSocket relay and its audit batches) and the [TerminalStream] call of
    grpc/services.py (the agent's half).

    The WebSocket relay is a fold over the events its tasks receive; the idle
    timer is an input of the periodic event, because the source compares
    readings of the monotonic clock. *)

From Stdlib Require Import Ascii String.
From S2P Require Import Prelude PyStr PyVal PyTime Crypto PyText Models AuditChain Rollout Scoping Jobs.
From S2P Require Import Uploads.
Local Open Scope string_scope.
Local Open Scope list_scope.
Local Open Scope Z_scope.

(** ** The session token *)

Definition SESSION_PREFIX : str := "vts1".
Definition TOKEN_TTL_SECONDS : Z := 60.

Record TerminalSessionClaim := mkSessionClaim {
  sc_session_id : uuid;
  sc_host_id : uuid;
  sc_user_id : uuid;
  sc_expires_at : datetime
}.

(** [_canonical] of terminal.py *)
Definition session_canonical (session host user : uuid) (expires_at : datetime) : py str :=
  n ← int_timestamp expires_at;
  Ok (uuid_str session +:+ "|" +:+ uuid_str host +:+ "|" +:+ uuid_str user +:+ "|" +:+ str_of_Z n).

(** [fresh] is the [uuid4] drawn when no session id is passed.  The key is the
    one of the upload tokens. *)
Definition issue_session_token (T : upload_settings) (now : datetime) (fresh host user : uuid)
    (session : option uuid) : py (str * uuid * datetime) :=
  let sid := default fresh session in
  expires_at ← add_seconds now TOKEN_TTL_SECONDS;
  payload ← session_canonical sid host user expires_at;
  Ok (seal (token_key T) SESSION_PREFIX payload, sid, expires_at).

Definition verify_session_token (T : upload_settings) (now : datetime) (token : str) :
    py (option TerminalSessionClaim) :=
  match unseal (token_key T) SESSION_PREFIX token with
  | None => Ok None
  | Some payload_bytes =>
      fields ← token_fields payload_bytes;
      match fields with
      | None => Ok None
      | Some (sid_s, host_s, user_s, expires_at) =>
          if expires_at <? now then Ok None
          else match uuid_of_str sid_s, uuid_of_str host_s, uuid_of_str user_s with
               | Some s, Some h, Some u => Ok (Some (mkSessionClaim s h u expires_at))
               | _, _, _ => Ok None
               end
      end
  end.

(** ** The broker *)

(** The sessions are objects shared by both halves: [br_sessions] maps a session
    id to the object [br_objects] holds at that position, and a closed session
    leaves the map while its object stays reachable from the halves. *)
Record TerminalSession := mkSession {
  ses_id : uuid;
  ses_host : uuid;
  ses_user : uuid;
  ses_closed : bool
}.
Record broker := mkBroker {
  br_objects : list TerminalSession;
  br_sessions : gmap Z nat
}.

Definition broker_open (session host user : uuid) (br : broker) : py (broker * nat) :=
  match br_sessions br !! session with
  | Some _ => Err KeyError
  | None =>
      let o := length (br_objects br) in
      Ok (mkBroker (br_objects br ++ [mkSession session host user false])
            (<[session := o]> (br_sessions br)), o)
  end.

Definition broker_get (session : uuid) (br : broker) : option nat := br_sessions br !! session.

Definition set_closed (s : TerminalSession) : TerminalSession :=
  mkSession (ses_id s) (ses_host s) (ses_user s) true.

Definition broker_close (session : uuid) (br : broker) : broker :=
  match br_sessions br !! session with
  | None => br
  | Some o => mkBroker (alter set_closed o (br_objects br)) (delete session (br_sessions br))
  end.

(** ** The route that mints a token *)

Definition open_terminal_session (E : env) (T : upload_settings) (fresh host : uuid) (actor : Actor)
    (db : job_db) : py (str * uuid * datetime * job_db) :=
  match find_host db host with
  | None => Err (HTTPException 404)
  | Some _ =>
      if negb (host_visible_to actor (Some host) (jd_scope db)) then Err (HTTPException 404)
      else
        '(token, sid, expires_at) ← issue_session_token T (env_now E) fresh host (actor_user_id actor) (Some fresh);
        let audit := record (env_audit_key E) (Some actor) "host.terminal.open" (Some "host")
          (Some (uuid_str host)) (Some [("session_id", PStr (uuid_str sid))]) None None (env_now E)
          (env_uuid4 E (length (log (jd_audit db)))) (jd_audit db) in
        Ok (token, sid, expires_at,
            mkJobDb (jd_scope db) (jd_policies db) (jd_jobs db) (jd_runs db) (jd_commands db) audit)
  end.

(** The start of [terminal_websocket]: [None] is the refusal before the upgrade;
    [KeyError] escapes when the session is already open. *)
Definition websocket_open (T : upload_settings) (now : datetime) (host : uuid) (token : str) (br : broker) :
    py (option (TerminalSessionClaim * broker * nat)) :=
  claim ← verify_session_token T now token;
  match claim with
  | None => Ok None
  | Some claim =>
      if negb (sc_host_id claim =? host) then Ok None
      else
        '(br, o) ← broker_open (sc_session_id claim) host (sc_user_id claim) br;
        Ok (Some (claim, br, o))
  end.

(** ** The agent's half *)

Inductive agent_msg :=
| MOpen (session host : str)
| MInput (data : bytes)
| MClose (reason : str)
| MOther.

(** The checks at the start of [TerminalStream]; the result is the session
    object the stream is attached to. *)
Definition TerminalStream_admit (peer : option str) (first : option agent_msg) (br : broker) : py nat :=
  match peer with
  | None => Err (RpcAbort "UNAUTHENTICATED")
  | Some cn =>
      match uuid_of_str cn with
      | None => Err (RpcAbort "UNAUTHENTICATED")
      | Some host_uuid =>
          match first with
          | Some (MOpen session_s host_s) =>
              match uuid_of_str session_s, uuid_of_str host_s with
              | Some session_id, Some requested_host =>
                  if negb (requested_host =? host_uuid) then Err (RpcAbort "PERMISSION_DENIED")
                  else match broker_get session_id br with
                  | None => Err (RpcAbort "NOT_FOUND")
                  | Some o =>
                      match br_objects br !! o with
                      | None => Err (RpcAbort "NOT_FOUND")
                      | Some s => if negb (ses_host s =? host_uuid) then Err (RpcAbort "PERMISSION_DENIED")
                                  else Ok o
                      end
                  end
              | _, _ => Err (RpcAbort "INVALID_ARGUMENT")
              end
          | _ => Err (RpcAbort "INVALID_ARGUMENT")
          end
      end
  end.

(** The frames of the two queues of a session. *)
Inductive ops_frame :=
| OInput (data : bytes)
| OResize (cols rows : Z)
| OClose (reason : str).
Inductive agent_frame :=
| AOutput (data : bytes)
| AExit (code : Z) (reason : str).
Inductive server_msg :=
| SOutput (data : bytes)
| SExit (code : Z) (reason : str).

(** [_from_agent]: what the agent's messages put on [agent_to_ops]. *)
Fixpoint from_agent (msgs : list agent_msg) : list agent_frame :=
  match msgs with
  | [] => []
  | MInput data :: msgs => AOutput data :: from_agent msgs
  | MClose reason :: _ => [AExit 0 (or_else reason "agent_close")]
  | _ :: msgs => from_agent msgs
  end.

(** The loop of [TerminalStream] over [ops_to_agent]: what the agent is sent. *)
Fixpoint to_agent (frames : list ops_frame) : list server_msg :=
  match frames with
  | [] => []
  | OInput data :: frames => SOutput data :: to_agent frames
  | OResize _ _ :: frames => to_agent frames
  | OClose reason :: _ => [SExit 0 (or_else reason "operator_close")]
  end.

(** ** The WebSocket relay *)

(** [_AuditBatch] *)
Record AuditBatch := mkBatch {
  ba_direction : str;
  ba_bytes_count : Z;
  ba_first_64_hex : str;
  ba_first_locked : bool
}.
Definition new_batch (direction : str) : AuditBatch := mkBatch direction 0 "" false.
Definition batch_add (chunk : bytes) (b : AuditBatch) : AuditBatch :=
  if negb (nonempty chunk) then b
  else mkBatch (ba_direction b) (ba_bytes_count b + Z.of_nat (String.length chunk))
         (if ba_first_locked b then ba_first_64_hex b else hexdigest (take_str 64 chunk)) true.
Definition batch_full (threshold_bytes : Z) (b : AuditBatch) : bool := threshold_bytes <=? ba_bytes_count b.
Definition batch_reset (b : AuditBatch) : AuditBatch := new_batch (ba_direction b).

(** What the relay of one session holds: the two batches, the close reason, the
    frames it has put on [ops_to_agent], the frames it has sent to the operator,
    and the audit log. *)
Record relay := mkRelay {
  re_stdin : AuditBatch;
  re_stdout : AuditBatch;
  re_close_reason : str;
  re_put : list ops_frame;
  re_sent : list agent_frame;
  re_audit : audit_db
}.

Definition new_relay (audit : audit_db) : relay :=
  mkRelay (new_batch "stdin") (new_batch "stdout") "stream_close" [] [] audit.

Section relay.
Context (E : env) (batch_bytes : Z) (host session : uuid).

Definition audit_host (action : str) (payload : dict) (db : audit_db) : audit_db :=
  record (env_audit_key E) None action (Some "host") (Some (uuid_str host)) (Some payload) None None
    (env_now E) (env_uuid4 E (length (log db))) db.

(** [_flush] of one batch. *)
Definition flush_batch (b : AuditBatch) (db : audit_db) : AuditBatch * audit_db :=
  if ba_bytes_count b =? 0 then (b, db)
  else (batch_reset b,
        audit_host "host.terminal.io"
          [("session_id", PStr (uuid_str session)); ("direction", PStr (ba_direction b));
           ("bytes", PInt (ba_bytes_count b)); ("first_64_hex", PStr (ba_first_64_hex b))] db).
Definition flush_stdin (r : relay) : relay :=
  let '(b, db) := flush_batch (re_stdin r) (re_audit r) in
  mkRelay b (re_stdout r) (re_close_reason r) (re_put r) (re_sent r) db.
Definition flush_stdout (r : relay) : relay :=
  let '(b, db) := flush_batch (re_stdout r) (re_audit r) in
  mkRelay (re_stdin r) b (re_close_reason r) (re_put r) (re_sent r) db.

Definition set_reason (reason : str) (r : relay) : relay :=
  mkRelay (re_stdin r) (re_stdout r) reason (re_put r) (re_sent r) (re_audit r).
Definition put_frame (f : ops_frame) (r : relay) : relay :=
  mkRelay (re_stdin r) (re_stdout r) (re_close_reason r) (re_put r ++ [f]) (re_sent r) (re_audit r).
Definition send_frame (f : agent_frame) (r : relay) : relay :=
  mkRelay (re_stdin r) (re_stdout r) (re_close_reason r) (re_put r) (re_sent r ++ [f]) (re_audit r).

(** One input chunk: counted, flushed when the batch is full, forwarded. *)
Definition stdin_chunk (data : bytes) (r : relay) : relay :=
  let r := mkRelay (batch_add data (re_stdin r)) (re_stdout r) (re_close_reason r) (re_put r) (re_sent r)
             (re_audit r) in
  put_frame (OInput data) (if batch_full batch_bytes (re_stdin r) then flush_stdin r else r).
Definition stdout_chunk (data : bytes) (r : relay) : relay :=
  let r := mkRelay (re_stdin r) (batch_add data (re_stdout r)) (re_close_reason r) (re_put r) (re_sent r)
             (re_audit r) in
  send_frame (AOutput data) (if batch_full batch_bytes (re_stdout r) then flush_stdout r else r).

(** The body of [_from_ops_to_agent] for one text message; [None] is a text that
    is no JSON.  The flag tells whether the task goes on: an exception other
    than the ones caught inside ends it, as [close] does. *)
Definition from_ops (msg : option pyval) (r : relay) : relay * bool :=
  match msg with
  | None => (r, true)
  | Some (PDict d) =>
      match get_none "t" d with
      | PStr "in" =>
          match get_default "d" d (PStr "") with
          | PStr s => match b64decode_urlsafe s with
                      | Ok data => (stdin_chunk data r, true)
                      | Err _ => (r, true)
                      end
          | _ => (r, false)
          end
      | PStr "resize" =>
          match py_int_of (py_or (get_default "cols" d (PInt 80)) (PInt 0)),
                py_int_of (py_or (get_default "rows" d (PInt 24)) (PInt 0)) with
          | Ok cols, Ok rows => (put_frame (OResize cols rows) r, true)
          | _, _ => (r, false)
          end
      | PStr "close" => (put_frame (OClose "operator_close") (set_reason "operator_close" r), false)
      | _ => (r, true)
      end
  | Some _ => (r, false)
  end.

(** The body of [_from_agent_to_ops] for one frame. *)
Definition to_ops (f : agent_frame) (r : relay) : relay * bool :=
  match f with
  | AOutput data => (stdout_chunk data r, true)
  | AExit code reason => (send_frame (AExit code reason) (set_reason reason r), false)
  end.

(** What can wake the handler: a message of the operator, their disconnect, a
    frame of the agent, and the periodic task, whose flag tells whether the idle
    deadline has passed. *)
Inductive ws_event :=
| EvOps (msg : option pyval)
| EvDisconnect
| EvAgent (f : agent_frame)
| EvTick (idle : bool).

Definition ws_step (e : ws_event) (r : relay) : relay * bool :=
  match e with
  | EvOps msg => from_ops msg r
  | EvDisconnect => (set_reason "ws_disconnect" r, false)
  | EvAgent f => to_ops f r
  | EvTick idle =>
      let r := flush_stdout (flush_stdin r) in
      if idle then (set_reason "idle_timeout" r, false) else (r, true)
  end.

(** The [finally] block: both batches flushed, the session closed, its end
    recorded. *)
Definition ws_finish (r : relay) : relay :=
  let r := flush_stdout (flush_stdin r) in
  mkRelay (re_stdin r) (re_stdout r) (re_close_reason r) (re_put r) (re_sent r)
    (audit_host "host.terminal.close"
       [("session_id", PStr (uuid_str session)); ("reason", PStr (re_close_reason r))] (re_audit r)).

Fixpoint ws_run (events : list ws_event) (r : relay) : relay :=
  match events with
  | [] => ws_finish r
  | e :: events => match ws_step e r with
                   | (r, true) => ws_run events r
                   | (r, false) => ws_finish r
                   end
  end.
End relay.

(** The whole handler: [None] when the upgrade is refused. *)
Definition terminal_websocket (E : env) (T : upload_settings) (batch_bytes : Z) (now : datetime) (host : uuid)
    (token : str) (events : list ws_event) (br : broker) (audit : audit_db) : py (option (broker * relay)) :=
  opened ← websocket_open T now host token br;
  match opened with
  | None => Ok None
  | Some (claim, br, _) =>
      Ok (Some (broker_close (sc_session_id claim) br,
                ws_run E batch_bytes host (sc_session_id claim) events (new_relay audit)))
  end.

(** ** Every relayed byte is accounted for *)

(** What an audit row says of the bytes of one direction of a session. *)
Definition row_bytes (session : uuid) (direction : str) (r : AuditLog) : Z :=
  match payload r with
  | Some p =>
      match get_none "session_id" p, get_none "direction" p, get_none "bytes" p with
      | PStr s, PStr d, PInt n =>
          if String.eqb (action r) "host.terminal.io" && String.eqb s (uuid_str session) && String.eqb d direction
          then n else 0
      | _, _, _ => 0
      end
  | None => 0
  end.
Fixpoint io_bytes (session : uuid) (direction : str) (rows : list AuditLog) : Z :=
  match rows with [] => 0 | r :: rows => row_bytes session direction r + io_bytes session direction rows end.

Definition in_bytes (f : ops_frame) : Z :=
  match f with OInput data => Z.of_nat (String.length data) | _ => 0 end.
Definition out_bytes (f : agent_frame) : Z :=
  match f with AOutput data => Z.of_nat (String.length data) | _ => 0 end.
Fixpoint total {A} (f : A → Z) (l : list A) : Z := match l with [] => 0 | x :: l => f x + total f l end.

Lemma total_app {A} (f : A → Z) l l' : total f (l ++ l') = total f l + total f l'.
Proof. induction l; simpl; lia. Qed.
Lemma io_bytes_app s d l l' : io_bytes s d (l ++ l') = io_bytes s d l + io_bytes s d l'.
Proof. induction l; simpl; lia. Qed.

Section accounting.
Context (E : env) (batch_bytes : Z) (host session : uuid).

(** Audited plus pending minus relayed, for each direction. *)
Definition balance_in (r : relay) : Z :=
  io_bytes session "stdin" (log (re_audit r)) + ba_bytes_count (re_stdin r) - total in_bytes (re_put r).
Definition balance_out (r : relay) : Z :=
  io_bytes session "stdout" (log (re_audit r)) + ba_bytes_count (re_stdout r) - total out_bytes (re_sent r).
Definition balanced (a b : Z) (r : relay) : Prop :=
  ba_direction (re_stdin r) = "stdin" ∧ ba_direction (re_stdout r) = "stdout" ∧
  balance_in r = a ∧ balance_out r = b.

Lemma io_bytes_record d action payload db :
  io_bytes session d (log (audit_host E host action payload db)) =
  io_bytes session d (log db) + row_bytes session d (mkRow 0 0 None None None None "" action None None (Some payload) None None None).
Proof. unfold audit_host, record. cbn [log]. rewrite io_bytes_app. simpl. unfold row_bytes. simpl. lia. Qed.

Lemma flush_batch_spec b db d :
  let '(b', db') := flush_batch E host session b db in
  ba_direction b' = ba_direction b ∧ ba_bytes_count b' = 0 ∧
  io_bytes session d (log db') =
    io_bytes session d (log db) + (if String.eqb (ba_direction b) d then ba_bytes_count b else 0).
Proof.
  unfold flush_batch. destruct (Z.eqb_spec (ba_bytes_count b) 0) as [Hz|Hz].
  - rewrite Hz. split_and!; [done..|]. destruct (String.eqb _ _); lia.
  - split_and!; [done..|]. rewrite io_bytes_record. unfold row_bytes. cbn -[uuid_str]. by rewrite String.eqb_refl.
Qed.

Lemma flush_stdin_balanced a b r :
  balanced a b r →
  balanced a b (flush_stdin E host session r) ∧ ba_bytes_count (re_stdin (flush_stdin E host session r)) = 0.
Proof.
  intros (H1 & H2 & H3 & H4). unfold flush_stdin.
  pose proof (flush_batch_spec (re_stdin r) (re_audit r) "stdin") as Hin.
  pose proof (flush_batch_spec (re_stdin r) (re_audit r) "stdout") as Hout.
  destruct (flush_batch _ _ _ _ _) as [b' db']. destruct Hin as (D & C & I). destruct Hout as (_ & _ & O).
  rewrite H1 in *. simpl in I, O. split; [|done]. unfold balanced, balance_in, balance_out in *. simpl.
  split_and!; [done..|lia|lia].
Qed.

Lemma flush_stdout_balanced a b r :
  balanced a b r →
  balanced a b (flush_stdout E host session r) ∧
  re_stdin (flush_stdout E host session r) = re_stdin r ∧
  ba_bytes_count (re_stdout (flush_stdout E host session r)) = 0.
Proof.
  intros (H1 & H2 & H3 & H4). unfold flush_stdout.
  pose proof (flush_batch_spec (re_stdout r) (re_audit r) "stdin") as Hin.
  pose proof (flush_batch_spec (re_stdout r) (re_audit r) "stdout") as Hout.
  destruct (flush_batch _ _ _ _ _) as [b' db']. destruct Hin as (D & C & I). destruct Hout as (_ & _ & O).
  rewrite H2 in *. simpl in I, O. split; [|done]. unfold balanced, balance_in, balance_out in *. simpl.
  split_and!; [done..|lia|lia].
Qed.

Lemma batch_add_count data b :
  ba_bytes_count (batch_add data b) = ba_bytes_count b + Z.of_nat (String.length data) ∧
  ba_direction (batch_add data b) = ba_direction b.
Proof. unfold batch_add. destruct data; simpl; split; try done; lia. Qed.

Lemma balanced_reason a b s r : balanced a b r → balanced a b (set_reason s r).
Proof. done. Qed.
Lemma balanced_put a b f r : in_bytes f = 0 → balanced a b r → balanced a b (put_frame f r).
Proof.
  intros Hf (? & ? & ? & ?). unfold balanced, balance_in, balance_out in *. simpl. rewrite total_app. simpl.
  split_and!; try done; lia.
Qed.
Lemma balanced_send a b f r : out_bytes f = 0 → balanced a b r → balanced a b (send_frame f r).
Proof.
  intros Hf (? & ? & ? & ?). unfold balanced, balance_in, balance_out in *. simpl. rewrite total_app. simpl.
  split_and!; try done; lia.
Qed.

Lemma stdin_chunk_balanced a b data r :
  balanced a b r → balanced a b (stdin_chunk E batch_bytes host session data r).
Proof.
  intros (H1 & H2 & H3 & H4). unfold stdin_chunk. destruct (batch_add_count data (re_stdin r)) as [Hc Hd].
  set (n := Z.of_nat (String.length data)) in *. set (r1 := mkRelay _ _ _ _ _ _).
  assert (balanced (a + n) b r1) as Hr1.
  { unfold balanced, balance_in, balance_out in *. simpl. rewrite Hc, Hd. split_and!; try done; lia. }
  assert (∀ r2, balanced (a + n) b r2 → balanced a b (put_frame (OInput data) r2)) as Hput.
  { intros r2 (? & ? & ? & ?). unfold balanced, balance_in, balance_out in *. simpl. rewrite total_app. simpl.
    fold n. split_and!; try done; lia. }
  apply Hput. destruct (batch_full _ _); [by apply flush_stdin_balanced|done].
Qed.

Lemma stdout_chunk_balanced a b data r :
  balanced a b r → balanced a b (stdout_chunk E batch_bytes host session data r).
Proof.
  intros (H1 & H2 & H3 & H4). unfold stdout_chunk. destruct (batch_add_count data (re_stdout r)) as [Hc Hd].
  set (n := Z.of_nat (String.length data)) in *. set (r1 := mkRelay _ _ _ _ _ _).
  assert (balanced a (b + n) r1) as Hr1.
  { unfold balanced, balance_in, balance_out in *. simpl. rewrite Hc, Hd. split_and!; try done; lia. }
  assert (∀ r2, balanced a (b + n) r2 → balanced a b (send_frame (AOutput data) r2)) as Hput.
  { intros r2 (? & ? & ? & ?). unfold balanced, balance_in, balance_out in *. simpl. rewrite total_app. simpl.
    fold n. split_and!; try done; lia. }
  apply Hput. destruct (batch_full _ _); [by apply flush_stdout_balanced|done].
Qed.

Lemma from_ops_balanced a b msg r :
  balanced a b r → balanced a b (from_ops E batch_bytes host session msg r).1.
Proof.
  intros H. unfold from_ops. repeat split_match; simpl;
    auto using stdin_chunk_balanced, balanced_put, balanced_reason.
Qed.

Lemma ws_step_balanced a b e r :
  balanced a b r → balanced a b (ws_step E batch_bytes host session e r).1.
Proof.
  intros H. destruct e as [msg| |[]|idle]; simpl.
  - by apply from_ops_balanced.
  - done.
  - by apply stdout_chunk_balanced.
  - by apply balanced_send, balanced_reason.
  - apply (flush_stdin_balanced a b) in H as [H _]. apply (flush_stdout_balanced a b) in H as [H _].
    by destruct idle.
Qed.

Lemma ws_finish_accounts a b r :
  balanced a b r →
  let r' := ws_finish E host session r in
  io_bytes session "stdin" (log (re_audit r')) = a + total in_bytes (re_put r') ∧
  io_bytes session "stdout" (log (re_audit r')) = b + total out_bytes (re_sent r').
Proof.
  intros H. apply (flush_stdin_balanced a b) in H as [H Hc]. apply (flush_stdout_balanced a b) in H as (H & Hs & Ho).
  unfold ws_finish. cbv zeta. set (r1 := flush_stdout _ _ _ _) in *. cbn [re_audit re_put re_sent].
  rewrite !io_bytes_record. unfold row_bytes. simpl.
  destruct H as (_ & _ & H3 & H4). unfold balance_in in H3. unfold balance_out in H4. rewrite Hs, Hc in H3. lia.
Qed.

Lemma ws_run_accounts a b events r :
  balanced a b r →
  let r' := ws_run E batch_bytes host session events r in
  io_bytes session "stdin" (log (re_audit r')) = a + total in_bytes (re_put r') ∧
  io_bytes session "stdout" (log (re_audit r')) = b + total out_bytes (re_sent r').
Proof.
  revert r. induction events as [|e events IH]; intros r H; [by apply ws_finish_accounts|].
  cbn [ws_run]. pose proof (ws_step_balanced a b e r H) as Hs. destruct (ws_step _ _ _ _ e r) as [r' []].
  - by apply IH.
  - by apply ws_finish_accounts.
Qed.
End accounting.


(** ** Whose session it is *)

(** The rows a relay adds, in order. *)
Definition adds_rows (P : AuditLog → Prop) (db db' : audit_db) : Prop :=
  ∃ rows, log db' = log db ++ rows ∧ Forall P rows.

Lemma adds_rows_refl P db : adds_rows P db db.
Proof. exists []. by rewrite app_nil_r. Qed.
Lemma adds_rows_trans P a b c : adds_rows P a b → adds_rows P b c → adds_rows P a c.
Proof.
  intros (r1 & H1 & F1) (r2 & H2 & F2). exists (r1 ++ r2). rewrite H2, H1, app_assoc. split; [done|].
  by apply Forall_app_2.
Qed.
#[local] Hint Resolve adds_rows_refl : vigil.

Definition seed_row (r : AuditLog) : Prop := tenant_id r = Some DEFAULT_TENANT_ID ∧ user_id r = None.

Section attribution.
Context (E : env) (batch_bytes : Z) (host session : uuid).
Notation seeded := (adds_rows seed_row).

Lemma audit_host_seeded action payload db : seeded db (audit_host E host action payload db).
Proof. eexists [_]. split; [reflexivity|]. by repeat constructor. Qed.

Lemma flush_stdin_seeded r : seeded (re_audit r) (re_audit (flush_stdin E host session r)).
Proof. unfold flush_stdin, flush_batch. destruct (_ =? _); simpl; auto using audit_host_seeded with vigil. Qed.
Lemma flush_stdout_seeded r : seeded (re_audit r) (re_audit (flush_stdout E host session r)).
Proof. unfold flush_stdout, flush_batch. destruct (_ =? _); simpl; auto using audit_host_seeded with vigil. Qed.
#[local] Hint Resolve flush_stdin_seeded flush_stdout_seeded audit_host_seeded : vigil.

Lemma flush_both_seeded r :
  seeded (re_audit r) (re_audit (flush_stdout E host session (flush_stdin E host session r))).
Proof. eapply adds_rows_trans; [apply flush_stdin_seeded|apply flush_stdout_seeded]. Qed.

Lemma stdin_chunk_seeded data r : seeded (re_audit r) (re_audit (stdin_chunk E batch_bytes host session data r)).
Proof.
  unfold stdin_chunk. destruct (batch_full _ _); [|apply adds_rows_refl].
  apply (flush_stdin_seeded (mkRelay _ _ _ _ _ (re_audit r))).
Qed.
Lemma stdout_chunk_seeded data r : seeded (re_audit r) (re_audit (stdout_chunk E batch_bytes host session data r)).
Proof.
  unfold stdout_chunk. destruct (batch_full _ _); [|apply adds_rows_refl].
  apply (flush_stdout_seeded (mkRelay _ _ _ _ _ (re_audit r))).
Qed.

Lemma ws_step_seeded e r : seeded (re_audit r) (re_audit (ws_step E batch_bytes host session e r).1).
Proof.
  destruct e as [msg| |[data|c s]|[]]; cbn [ws_step to_ops fst]; try apply flush_both_seeded;
    try apply stdout_chunk_seeded; [|apply adds_rows_refl..].
  unfold from_ops. repeat split_match; cbn [fst]; try apply stdin_chunk_seeded; apply adds_rows_refl.
Qed.

Lemma ws_run_seeded events r : seeded (re_audit r) (re_audit (ws_run E batch_bytes host session events r)).
Proof.
  assert (∀ r, seeded (re_audit r) (re_audit (ws_finish E host session r))) as Hf.
  { intros r0. unfold ws_finish. simpl. eapply adds_rows_trans; [apply flush_both_seeded|apply audit_host_seeded]. }
  revert r. induction events as [|e events IH]; intros r; [apply Hf|].
  cbn [ws_run]. pose proof (ws_step_seeded e r) as Hs. destruct (ws_step _ _ _ _ e r) as [r' []]; simpl in Hs;
    (eapply adds_rows_trans; [exact Hs|]); [apply IH|apply Hf].
Qed.
End attribution.

(** The rows a terminal session adds while it runs name no user and belong
    to the tenant seeded by the migrations, whoever opened the session and
    whichever tenant the host is of. *)
Theorem terminal_rows_unattributed E batch_bytes host session events audit :
  let r := ws_run E batch_bytes host session events (new_relay audit) in
  ∃ rows, log (re_audit r) = log audit ++ rows ∧
    Forall (λ row, tenant_id row = Some DEFAULT_TENANT_ID ∧ user_id row = None) rows.
Proof. apply (ws_run_seeded E batch_bytes host session events (new_relay audit)). Qed.

(** ** Tokens *)

Lemma issue_session_ok T now fresh host user session token sid exp :
  issue_session_token T now fresh host user session = Ok (token, sid, exp) →
  sid = default fresh session ∧ exp = now + 60 * 1000000 ∧
  ∃ n, int_timestamp exp = Ok n ∧
       token = seal (token_key T) SESSION_PREFIX
                 (print_fields (uuid_str sid) (uuid_str host) (uuid_str user) n).
Proof.
  unfold issue_session_token, session_canonical, add_seconds. cbv zeta. intros H.
  destruct (_ && _) in H; [|done]. res_inv. simplify_eq. split_and!; [done..|]. eexists. split; done.
Qed.

Lemma print_fields_uuids a b c n :
  0 ≤ n → datetime_ok (n * 1000000) →
  token_fields (utf8 (print_fields (uuid_str a) (uuid_str b) (uuid_str c) n)) =
  Ok (Some (uuid_str a, uuid_str b, uuid_str c, n * 1000000)).
Proof. intros. by apply token_fields_print; try apply uuid_lacks_pipe. Qed.

Lemma verify_session_issued T now later fresh host user session token sid exp n :
  issue_session_token T now fresh host user session = Ok (token, sid, exp) →
  uuid_ok sid → uuid_ok host → uuid_ok user → 0 ≤ exp → int_timestamp exp = Ok n →
  later ≤ n * 1000000 ≤ MAXYEAR_us →
  verify_session_token T later token = Ok (Some (mkSessionClaim sid host user (n * 1000000))).
Proof.
  intros (-> & -> & n' & Hn & ->)%issue_session_ok Hs Hh Hu Hexp Hn' [Hl Hm]. rewrite Hn in Hn'. injection Hn' as ->.
  pose proof (int_timestamp_nonneg _ _ Hexp Hn). unfold verify_session_token. rewrite unseal_seal by done.
  rewrite print_fields_uuids; [|done|unfold datetime_ok, MINYEAR_us; lia]. cbn [mbind res_bind].
  by rewrite (proj2 (Z.ltb_ge _ _) Hl), !uuid_of_str_uuid_str.
Qed.

(** The token with the prefix of the upload tokens in place of its own. *)
Definition reprefix (token : str) : str := UPLOAD_PREFIX +:+ drop_str 4 token.

Lemma reprefix_seal key payload : reprefix (seal key SESSION_PREFIX payload) = seal key UPLOAD_PREFIX payload.
Proof. reflexivity. Qed.

(** The prefix of a token is not signed: a terminal token with the prefix
    replaced is a valid upload token, whose bucket is the host and whose object
    key is the user; only the proxy's list of buckets keeps it from storing
    anything. *)
Theorem terminal_token_is_upload_token T now later fresh host user session token sid exp n :
  issue_session_token T now fresh host user session = Ok (token, sid, exp) →
  uuid_ok sid → 0 ≤ exp → int_timestamp exp = Ok n → later ≤ n * 1000000 ≤ MAXYEAR_us →
  verify_upload_token T later (reprefix token) =
    Ok (Some (mkUploadClaim sid (uuid_str host) (uuid_str user) (n * 1000000))) ∧
  (uuid_str host ∉ [st_bucket_artifacts T; st_bucket_snapshots T] →
   ∀ s3_error bucket key content_length body store,
     upload_artifact T s3_error later (reprefix token) bucket key content_length body store =
       Err (HTTPException 403)).
Proof.
  intros (-> & -> & n' & Hn & ->)%issue_session_ok Hs Hexp Hn' [Hl Hm]. rewrite Hn in Hn'. injection Hn' as ->.
  pose proof (int_timestamp_nonneg _ _ Hexp Hn). rewrite reprefix_seal.
  assert (verify_upload_token T later (seal (token_key T) UPLOAD_PREFIX
            (print_fields (uuid_str (default fresh session)) (uuid_str host) (uuid_str user) n)) =
          Ok (Some (mkUploadClaim (default fresh session) (uuid_str host) (uuid_str user) (n * 1000000)))) as Hv.
  { rewrite verify_sealed, print_fields_uuids; [|done|unfold datetime_ok, MINYEAR_us; lia]. cbn [mbind res_bind].
    by rewrite (proj2 (Z.ltb_ge _ _) Hl), uuid_of_str_uuid_str. }
  split; [exact Hv|]. intros Hb *. unfold upload_artifact. rewrite Hv. cbn [mbind res_bind uc_bucket uc_object_key].
  destruct (_ || _); [done|]. by rewrite bool_decide_false.
Qed.

(** ** Pairing the two halves *)

(** The broker under any sequence of calls. *)
Inductive broker_reach : broker → Prop :=
| broker_init : broker_reach (mkBroker [] ∅)
| broker_opened br session host user br' o :
    broker_reach br → broker_open session host user br = Ok (br', o) → broker_reach br'
| broker_closed br session : broker_reach br → broker_reach (broker_close session br).

(** A session in the map is an open object that carries its id. *)
Definition broker_ok (br : broker) : Prop :=
  ∀ sid o, br_sessions br !! sid = Some o →
    ∃ s, br_objects br !! o = Some s ∧ ses_id s = sid ∧ ses_closed s = false.

Lemma broker_open_ok session host user br br' o :
  broker_open session host user br = Ok (br', o) → broker_ok br →
  broker_ok br' ∧ br_sessions br' !! session = Some o ∧
  br_objects br' !! o = Some (mkSession session host user false).
Proof.
  unfold broker_open. destruct (br_sessions br !! session) eqn:Hs; [done|]. intros [= <- <-] Hok. simpl.
  split_and!; [|by rewrite lookup_insert_eq|by rewrite list_lookup_middle].
  intros sid o. simpl. destruct (decide (sid = session)) as [->|Hne].
  - rewrite lookup_insert_eq. intros [= <-]. exists (mkSession session host user false).
    by rewrite list_lookup_middle.
  - rewrite lookup_insert_ne by done. intros (s & Ho & ? & ?)%Hok. exists s. split_and!; [|done..].
    by apply lookup_app_l_Some.
Qed.

Lemma broker_close_ok session br : broker_ok br → broker_ok (broker_close session br).
Proof.
  intros Hok. unfold broker_close. destruct (br_sessions br !! session) as [o|] eqn:Hs; [|done].
  apply Hok in Hs as (s & Ho & Hid & Hc). intros sid o'. simpl.
  destruct (decide (sid = session)) as [->|Hne]; [by rewrite lookup_delete_eq|].
  rewrite lookup_delete_ne by done. intros (s' & Ho' & Hid' & Hc')%Hok. exists s'. split_and!; [|done..].
  destruct (decide (o = o')) as [->|Hoo]; [rewrite Ho in Ho'; congruence|].
  by rewrite list_lookup_alter_ne.
Qed.

Lemma broker_reach_ok br : broker_reach br → broker_ok br.
Proof.
  induction 1 as [|br session host user br' o _ IH Ho|br session _ IH].
  - intros sid o. simpl. by rewrite lookup_empty.
  - by eapply broker_open_ok.
  - by apply broker_close_ok.
Qed.

Lemma open_terminal_ok E T fresh host actor db token sid exp db' :
  open_terminal_session E T fresh host actor db = Ok (token, sid, exp, db') →
  sid = fresh ∧ host_visible_to actor (Some host) (jd_scope db) = true ∧
  issue_session_token T (env_now E) fresh host (actor_user_id actor) (Some fresh) = Ok (token, sid, exp).
Proof.
  unfold open_terminal_session. destruct (find_host db host); [|done].
  destruct (host_visible_to _ _ _) eqn:Hv; [|done]. simpl. intros (r & Hr & Heq)%res_bind_ok.
  destruct r as [[t s] e]. simplify_eq. split_and!; [|done..].
  by apply issue_session_ok in Hr as [-> _].
Qed.

(** A terminal session ties an analyst to one host.  The token is minted
    only for a host the analyst may see; the WebSocket of that host, and of no
    other, accepts it, for the session and the user it was minted for; and the
    agent of that host, and no other agent, can attach to the session. *)
Theorem terminal_pairs_host E T fresh host actor db token sid exp db' later n br :
  open_terminal_session E T fresh host actor db = Ok (token, sid, exp, db') →
  broker_reach br → br_sessions br !! sid = None →
  uuid_ok fresh → uuid_ok host → uuid_ok (actor_user_id actor) →
  0 ≤ exp → int_timestamp exp = Ok n → later ≤ n * 1000000 ≤ MAXYEAR_us →
  host_visible_to actor (Some host) (jd_scope db) = true ∧
  (∀ other, other ≠ host → websocket_open T later other token br = Ok None) ∧
  ∃ br' o,
    websocket_open T later host token br =
      Ok (Some (mkSessionClaim sid host (actor_user_id actor) (n * 1000000), br', o)) ∧
    TerminalStream_admit (Some (uuid_str host)) (Some (MOpen (uuid_str sid) (uuid_str host))) br' = Ok o ∧
    ∀ peer first, TerminalStream_admit (Some peer) first br' = Ok o → uuid_of_str peer = Some host.
Proof.
  intros (-> & Hv & Hi)%open_terminal_ok Hbr Hfree Hf Hh Hu Hexp Hn Hl. split; [done|].
  pose proof (verify_session_issued _ _ later _ _ _ _ _ _ _ n Hi Hf Hh Hu Hexp Hn Hl) as Hver.
  unfold websocket_open. rewrite Hver. cbn [mbind res_bind sc_host_id]. split.
  { intros other Hne. by rewrite (proj2 (Z.eqb_neq _ _)) by done. }
  rewrite Z.eqb_refl. cbn [negb sc_session_id sc_user_id].
  destruct (broker_open fresh host (actor_user_id actor) br) as [[br' o]|] eqn:Ho; cycle 1.
  { unfold broker_open in Ho. by rewrite Hfree in Ho. }
  exists br', o. split; [done|].
  apply broker_open_ok in Ho as (Hok & Hmap & Hobj); [|by apply broker_reach_ok].
  unfold TerminalStream_admit, broker_get. rewrite !uuid_of_str_uuid_str, Z.eqb_refl, Hmap, Hobj by done.
  simpl. rewrite Z.eqb_refl. split; [done|]. intros peer first.
  destruct (uuid_of_str peer) as [h|]; [|done]. destruct first as [[s hs| | |]|]; try done.
  destruct (uuid_of_str s), (uuid_of_str hs); try done. destruct (negb _); [done|].
  intros Hadm. split_match_in Hadm; [|done]. split_match_in Hadm; [|done].
  split_match_in Hadm; [done|]. injection Hadm as ->. rewrite Hobj in Hm0. injection Hm0 as <-.
  apply negb_false_iff, Z.eqb_eq in Hm1. simpl in Hm1. by subst.
Qed.

(** ** Examples *)

Definition demo_session : py (str * uuid * datetime * job_db) :=
  open_terminal_session demo_env demo_settings 77 100 demo_analyst demo_jobs.

Lemma demo_session_shape :
  match demo_session with Ok (_, s, e, _) => (s, e) = (77, 1700000060000000) | Err _ => False end.
Proof. vm_compute. reflexivity. Qed.

Lemma terminal_pairs_host_witness :
  ∃ token db' br o,
    demo_session = Ok (token, 77, 1700000060000000, db') ∧
    websocket_open demo_settings 1700000001000000 100 token (mkBroker [] ∅) =
      Ok (Some (mkSessionClaim 77 100 (actor_user_id demo_analyst) 1700000060000000, br, o)).
Proof.
  pose proof demo_session_shape as Hs. destruct demo_session as [[[[token s] e] db']|] eqn:H; [|destruct Hs].
  injection Hs as -> ->. unfold demo_session in H.
  destruct (terminal_pairs_host _ _ _ _ _ _ _ _ _ _ 1700000001000000 1700000060 (mkBroker [] ∅) H)
    as (_ & _ & br & o & Ho & _).
  - constructor.
  - reflexivity.
  - unfold uuid_ok. lia.
  - unfold uuid_ok. lia.
  - vm_compute. intuition discriminate.
  - lia.
  - vm_compute. reflexivity.
  - unfold MAXYEAR_us. lia.
  - exists token, db', br, o. split; [reflexivity|exact Ho].
Defined.

Definition demo_session_token : py (str * uuid * datetime) :=
  issue_session_token demo_settings 1700000000000000 77 100 7 None.

Lemma terminal_token_is_upload_token_witness :
  ∃ token, demo_session_token = Ok (token, 77, 1700000060000000) ∧
    verify_upload_token demo_settings 1700000000000000 (reprefix token) =
      Ok (Some (mkUploadClaim 77 (uuid_str 100) (uuid_str 7) 1700000060000000)).
Proof.
  assert (match demo_session_token with Ok (_, s, e) => (s, e) = (77, 1700000060000000) | Err _ => False end)
    as Hs by (vm_compute; reflexivity).
  destruct demo_session_token as [[[token s] e]|] eqn:H; [|destruct Hs]. injection Hs as -> ->.
  unfold demo_session_token in H. exists token. split; [reflexivity|].
  destruct (terminal_token_is_upload_token _ _ 1700000000000000 _ _ _ _ _ _ _ 1700000060 H) as [Hv _].
  - unfold uuid_ok. lia.
  - lia.
  - vm_compute. reflexivity.
  - unfold MAXYEAR_us. lia.
  - exact Hv.
Defined.
