(* ===== verification/Gateway.v ===== *)
(** * Gateway: the agent's stream (grpc/services.py)

    Opening and closing [HostStream] with the admission checks, the messages
    [_consume_client] handles (events, heartbeats, hello, command results, job
    progress, artifact reports), the per-host ingest bucket and the rule
    snapshot; the artifact download of api/uploads.py; and the host update of
    api/hosts.py, the operation that decommissions a host.

    A message is handled between two commits, so a handler is a function of the
    tables; [context.abort] is the exception [RpcAbort].  [json.loads] is an
    argument of the artifact report.  The TPM and honeytoken messages go to
    services that are not part of this file. *)

From Stdlib Require Import Ascii String SpecFloat.
From S2P Require Import Prelude PyStr PyVal PyJson PyTime Crypto PyText Models AuditChain Rollout Scoping.
From S2P Require Import Jobs Commands Uploads.
Local Open Scope string_scope.
Local Open Scope list_scope.
Local Open Scope Z_scope.

(** ** Tables *)

Record JobArtifact := mkArtifact {
  ja_id : uuid;
  ja_tenant_id : uuid;
  ja_job_run_id : uuid;
  ja_kind : str;
  ja_bucket : str;
  ja_object_key : str;
  ja_size_bytes : Z;
  ja_sha256 : option str;
  ja_metadata : dict;
  ja_downloaded_by : option uuid;
  ja_downloaded_at : option datetime
}.

Record gw_db := mkGw { gw_jobs : job_db; gw_artifacts : list JobArtifact }.

Definition with_hosts (f : list Host → list Host) (db : job_db) : job_db :=
  let s := jd_scope db in
  mkJobDb (mkScopeDb (f (sc_hosts s)) (sc_host_in_group s) (sc_user_host_group s)) (jd_policies db) (jd_jobs db)
    (jd_runs db) (jd_commands db) (jd_audit db).
Definition update_host_row (hid : uuid) (f : Host → Host) (db : job_db) : job_db :=
  with_hosts (map (λ h, if host_id h =? hid then f h else h)) db.
Definition with_commands (f : list Command → list Command) (db : job_db) : job_db :=
  mkJobDb (jd_scope db) (jd_policies db) (jd_jobs db) (jd_runs db) (f (jd_commands db)) (jd_audit db).
Definition update_run (rid : uuid) (f : JobRun → JobRun) (db : job_db) : job_db :=
  mkJobDb (jd_scope db) (jd_policies db) (jd_jobs db)
    (map (λ r, if run_id r =? rid then f r else r) (jd_runs db)) (jd_commands db) (jd_audit db).

(** ** The stream's admission and its end *)

(** [_check_host_admission]: the reason of a refusal, if any. *)
Definition check_host_admission (h : Host) (peer_fingerprint : option str) : option str :=
  if bool_decide (host_status h = H_DECOMMISSIONED) then Some "host decommissioned"
  else match peer_fingerprint, host_cert_fingerprint h with
       | Some p, Some f =>
           if nonempty p && nonempty f && negb (String.eqb p f) then Some "cert revoked" else None
       | _, _ => None
       end.

Definition host_stream_open (now : datetime) (peer peer_fingerprint : option str) (db : job_db) :
    py (uuid * job_db) :=
  match peer with
  | None => Err (RpcAbort "UNAUTHENTICATED")
  | Some cn =>
      match uuid_of_str cn with
      | None => Err (RpcAbort "UNAUTHENTICATED")
      | Some hid =>
          match find_host db hid with
          | None => Err (RpcAbort "UNAUTHENTICATED")
          | Some h =>
              match check_host_admission h peer_fingerprint with
              | Some _ => Err (RpcAbort "UNAUTHENTICATED")
              | None => Ok (hid, update_host_row hid (λ h, set_host_seen now (set_host_status H_ONLINE h)) db)
              end
          end
      end
  end.

(** The [finally] block of [HostStream]. *)
Definition host_stream_close (hid : uuid) (db : job_db) : job_db :=
  update_host_row hid (set_host_status H_OFFLINE) db.

(** ** The ingest bucket *)

Record HostBucket := mkBucket { hb_tokens : float; hb_last : float }.
Record rl_settings := mkRl { rl_events_per_sec : Z; rl_burst : Z }.

Definition fresh_bucket (R : rl_settings) : HostBucket := mkBucket (float_of_Z (rl_burst R)) (S754_zero false).

Definition admit_events (R : rl_settings) (now : float) (want : Z) (b : HostBucket) : py (Z * HostBucket) :=
  let last := if feq (hb_last b) (S754_zero false) then now else hb_last b in
  let elapsed := fsub now last in
  let '(tokens, last) :=
    if flt (S754_zero false) elapsed
    then (fmin (float_of_Z (rl_burst R)) (fadd (hb_tokens b) (fmul elapsed (float_of_Z (rl_events_per_sec R)))), now)
    else (hb_tokens b, last) in
  whole ← py_int_of_float tokens;
  let granted := Z.min whole want in
  Ok (granted, mkBucket (fsub tokens (float_of_Z granted)) last).

(** ** Messages *)

Record job_progress := mkProgress {
  jp_run_id : str;
  jp_status : option JobRunStatus;   (* [None]: JOB_RUN_STATUS_UNSPECIFIED *)
  jp_progress_pct : Z;
  jp_progress_message : str;
  jp_error : str
}.
Record artifact_report := mkReport {
  ar_run_id : str;
  ar_bucket : str;
  ar_object_key : str;
  ar_artifact_kind : str;
  ar_size_bytes : Z;
  ar_sha256 : str;
  ar_metadata_json : str
}.

Inductive client_msg :=
| GEvents (events : list (bool * bytes))   (* whether the payload is an AuthEvent; the serialised event *)
| GHeartbeat
| GHello (protocol_version : Z) (capabilities : str)
| GCommandResult (command_id : str) (success : bool) (error : str)
| GJobProgress (p : job_progress)
| GJobArtifact (r : artifact_report)
| GUnknown.

Definition MIN_AGENT_PROTOCOL_VERSION : Z := 1.

Definition truncated (n : nat) (s : str) : option str := if nonempty s then Some (take_str n s) else None.
(** A column that is overwritten only by a non-empty value. *)
Definition set_text (n : nat) (s : str) (old : option str) : option str :=
  if nonempty s then Some (take_str n s) else old.

(** *** Command results *)

Definition finish_command (now : datetime) (success : bool) (error : str) (c : Command) : Command :=
  mkCommand (cmd_id c) (cmd_tenant_id c) (cmd_host_id c) (cmd_kind c)
    (if success then C_SUCCEEDED else C_FAILED) (cmd_payload c) (cmd_alert_id c) (cmd_rule_id c) (cmd_user_id c)
    (cmd_created_at c) (cmd_dispatched_at c) (Some now) (set_text 512 error (cmd_error c)).
Definition finish_run (now : datetime) (success : bool) (error : str) (r : JobRun) : JobRun :=
  mkJobRun (run_id r) (run_tenant_id r) (run_job_id r) (run_host_id r) (run_command_id r)
    (if success then RUN_COMPLETED else RUN_FAILED) (Some now) (set_text 1024 error (run_error r))
    (run_progress_pct r) (run_progress_message r) (run_last_progress_at r).

(** [job.status = await aggregate_status(db, run.job_id)] *)
Definition reaggregate (jid : uuid) (db : job_db) : job_db :=
  update_job jid (λ j, set_job_status (aggregate_status db jid) (job_canceled_at j) j) db.

(** The row is looked up by its id alone.  An exception is logged and leaves the
    tables as they were. *)
Definition handle_command_result (now : datetime) (command_id : str) (success : bool) (error : str) (db : job_db) :
    job_db :=
  match uuid_of_str command_id with
  | None => db
  | Some cid =>
      match List.find (λ c, cmd_id c =? cid) (jd_commands db) with
      | None => db
      | Some cmd =>
          let db1 := with_commands (update_cmd cid (finish_command now success error)) db in
          if bool_decide (cmd_kind cmd = RUN_JOB) then
            match List.filter (λ r, bool_decide (run_command_id r = Some cid)) (jd_runs db) with
            | [] => db1
            | [run] => reaggregate (run_job_id run) (update_run (run_id run) (finish_run now success error) db1)
            | _ => db
            end
          else db1
      end
  end.

(** *** Job progress *)

Definition progress_run (now : datetime) (p : job_progress) (r : JobRun) : JobRun :=
  mkJobRun (run_id r) (run_tenant_id r) (run_job_id r) (run_host_id r) (run_command_id r)
    (match jp_status p with
     | Some (RUN_QUEUED) | None => run_status r
     | Some s => s
     end)
    (match jp_status p with
     | Some RUN_COMPLETED | Some RUN_FAILED | Some RUN_CANCELED | Some RUN_TIMEOUT => Some now
     | _ => run_completed_at r
     end)
    (set_text 1024 (jp_error p) (run_error r))
    (Z.max 0 (Z.min 100 (jp_progress_pct p)))
    (set_text 256 (jp_progress_message p) (run_progress_message r))
    (Some now).

Definition handle_job_progress (now : datetime) (host : uuid) (p : job_progress) (db : job_db) : job_db :=
  match uuid_of_str (jp_run_id p) with
  | None => db
  | Some rid =>
      match find_run db rid with
      | None => db
      | Some run =>
          if negb (run_host_id run =? host) then db
          else
            let db := update_run rid (progress_run now p) db in
            if run_terminal (run_status (progress_run now p run)) then reaggregate (run_job_id run) db else db
      end
  end.

(** *** Artifact reports *)

(** [loads] is [json.loads], [None] its [ValueError]. *)
Definition report_metadata (loads : str → option pyval) (raw : str) : dict :=
  if negb (nonempty raw) then []
  else match loads raw with
       | None => [("raw", PStr (take_str 1024 raw))]
       | Some v => match py_or v (PDict []) with
                   | PDict d => d
                   | v => [("value", v)]
                   end
       end.

(** The audit row is written before the artifact has an id. *)
Definition handle_job_artifact (E : env) (T : upload_settings) (loads : str → option pyval) (host : uuid)
    (report : artifact_report) (db : gw_db) : gw_db :=
  match uuid_of_str (ar_run_id report) with
  | None => db
  | Some rid =>
      let kind := or_else (ar_artifact_kind report) "file" in
      if negb (bool_decide (kind ∈ JobArtifactKind_values)) then db
      else match find_run (gw_jobs db) rid with
      | None => db
      | Some run =>
          if negb (run_host_id run =? host) then db
          else if negb (bool_decide (ar_bucket report ∈ [st_bucket_artifacts T; st_bucket_snapshots T])) then db
          else
            let j := gw_jobs db in
            let artifact := mkArtifact (env_uuid4 E (length (gw_artifacts db))) DEFAULT_TENANT_ID (run_id run) kind
              (ar_bucket report) (take_str 512 (ar_object_key report)) (ar_size_bytes report)
              (truncated 64 (ar_sha256 report)) (report_metadata loads (ar_metadata_json report)) None None in
            let audit := record (env_audit_key E) None "artifact.upload" (Some "artifact") (Some "None")
              (Some [("run_id", PStr (uuid_str (run_id run))); ("host_id", PStr (uuid_str host));
                     ("size_bytes", PInt (ar_size_bytes report)); ("kind", PStr kind)]) None None (env_now E)
              (env_uuid4 E (length (log (jd_audit j)))) (jd_audit j) in
            mkGw (mkJobDb (jd_scope j) (jd_policies j) (jd_jobs j) (jd_runs j) (jd_commands j) audit)
              (gw_artifacts db ++ [artifact])
      end
  end.

(** *** The consumer *)

Record stream := mkStream { sm_last_seen_update : datetime; sm_bucket : option HostBucket }.
Record topics := mkTopics { tp_telemetry_raw : str; tp_auth : str }.

(** One event forwarded: on the raw topic, and on the auth topic as well when it
    is an AuthEvent. *)
Definition forward (K : topics) (host : uuid) (ev : bool * bytes) : list (str * str * bytes) :=
  (tp_telemetry_raw K, uuid_str host, ev.2) ::
  (if ev.1 then [(tp_auth K, uuid_str host, ev.2)] else []).

(** One message: the stream's own state, the tables, and what is published.  [mono]
    is the monotonic clock. *)
Definition consume (E : env) (T : upload_settings) (R : rl_settings) (K : topics) (loads : str → option pyval)
    (mono : float) (host : uuid) (msg : client_msg) (st : stream) (db : gw_db) :
    py (stream * gw_db * list (str * str * bytes)) :=
  let now := env_now E in
  let jobs j := mkGw j (gw_artifacts db) in
  match msg with
  | GEvents [] => Ok (st, db, [])
  | GEvents events =>
      let bucket := default (fresh_bucket R) (sm_bucket st) in
      '(granted, bucket) ← admit_events R mono (Z.of_nat (length events)) bucket;
      Ok (mkStream (sm_last_seen_update st) (Some bucket), db,
          if 0 <? granted then flat_map (forward K host) (take (Z.to_nat granted) events) else [])
  | GHeartbeat =>
      if now - sm_last_seen_update st <? 30 * 1000000 then Ok (st, db, [])
      else match find_host (gw_jobs db) host with
      | None => Ok (st, db, [])
      | Some h =>
          match check_host_admission h None with
          | Some _ => Err (RpcAbort "UNAUTHENTICATED")
          | None => Ok (mkStream now (sm_bucket st), jobs (update_host_row host (set_host_seen now) (gw_jobs db)), [])
          end
      end
  | GHello pv caps =>
      if negb (pv =? 0) && (pv <? MIN_AGENT_PROTOCOL_VERSION) then Err (RpcAbort "FAILED_PRECONDITION")
      else match find_host (gw_jobs db) host with
      | None => Ok (st, db, [])
      | Some _ =>
          if (1024 <? Z.of_nat (String.length caps)) then Err DataError
          else Ok (st, jobs (update_host_row host (set_host_capabilities caps) (gw_jobs db)), [])
      end
  | GCommandResult command_id success error =>
      Ok (st, jobs (handle_command_result now command_id success error (gw_jobs db)), [])
  | GJobProgress p => Ok (st, jobs (handle_job_progress now host p (gw_jobs db)), [])
  | GJobArtifact r => Ok (st, handle_job_artifact E T loads host r db, [])
  | GUnknown => Ok (st, db, [])
  end.

(** ** The rule snapshot *)

Record YaraRule := mkYara {
  py_id : str; py_name : str; py_source : str; py_severity : Severity; py_action : RuleAction }.
Record IocRule := mkIocRule {
  pi_id : str; pi_name : str; pi_kind : IocKind; pi_values : list str; pi_severity : Severity;
  pi_action : RuleAction }.
Record RuleSync := mkSync { rs_rules_version : Z; rs_yara : list YaraRule; rs_iocs : list IocRule }.

(** The entries of a rule by kind, in the order the kinds first occur. *)
Definition by_kind (entries : list IocEntry) : list (IocKind * list IocEntry) :=
  map (λ k, (k, List.filter (λ e, bool_decide (ioc_kind e = k)) entries)) (dedup (map ioc_kind entries)).

Definition sync_yara (r : Rule) : list YaraRule :=
  match rule_kind r, rule_body r with
  | YARA, Some body =>
      if nonempty body then [mkYara (uuid_str (rule_id r)) (rule_name r) body (rule_severity r) (rule_action r)]
      else []
  | _, _ => []
  end.
Definition sync_iocs (iocs : list IocEntry) (r : Rule) : list IocRule :=
  match rule_kind r with
  | IOC =>
      map (λ ke, mkIocRule (uuid_str (rule_id r)) (rule_name r) ke.1 (map ioc_value_normalized ke.2)
                   (rule_severity r) (rule_action r))
        (by_kind (List.filter (λ e, ioc_rule_id e =? rule_id r) iocs))
  | _ => []
  end.

(** [_build_rule_sync]: the enabled rules of the table, with their entries. *)
Definition build_rule_sync (now : datetime) (rules : list Rule) (iocs : list IocEntry) : py RuleSync :=
  version ← int_timestamp now;
  let rows := List.filter rule_enabled rules in
  Ok (mkSync version (flat_map sync_yara rows) (flat_map (sync_iocs iocs) rows)).

(** [MAX(Rule.updated_at)] over rules with their modification times. *)
Definition max_mtime (rules : list (Rule * datetime)) : option datetime :=
  foldr (λ r acc, Some (match acc with Some m => Z.max r.2 m | None => r.2 end)) None rules.

(** One turn of [_rule_resync_dispatcher]: what is pushed, and the time it
    remembers. *)
Definition resync_step (now : datetime) (rules : list (Rule * datetime)) (iocs : list IocEntry)
    (last_mtime : option datetime) : py (option RuleSync * option datetime) :=
  match max_mtime rules with
  | Some current =>
      if bool_decide (Some current = last_mtime) then Ok (None, last_mtime)
      else fresh ← build_rule_sync now (map fst rules) iocs; Ok (Some fresh, Some current)
  | None => Ok (None, last_mtime)
  end.

(** ** Downloads and host updates *)

Definition find_artifact (db : gw_db) (aid : uuid) : option JobArtifact :=
  List.find (λ a, ja_id a =? aid) (gw_artifacts db).

Definition mark_downloaded (user : uuid) (now : datetime) (a : JobArtifact) : JobArtifact :=
  mkArtifact (ja_id a) (ja_tenant_id a) (ja_job_run_id a) (ja_kind a) (ja_bucket a) (ja_object_key a)
    (ja_size_bytes a) (ja_sha256 a) (ja_metadata a) (Some user) (Some now).

(** [download_artifact]: the object that is streamed back and the file name of
    the response. *)
Definition download_artifact (E : env) (aid : uuid) (actor : Actor) (db : gw_db) : py (gw_db * (str * str) * str) :=
  _ ← require_analyst actor;
  match find_artifact db aid with
  | None => Err (HTTPException 404)
  | Some art =>
      match find_run (gw_jobs db) (ja_job_run_id art) with
      | None => Err (HTTPException 404)
      | Some run =>
          if negb (host_visible_to actor (Some (run_host_id run)) (jd_scope (gw_jobs db))) then Err (HTTPException 404)
          else
            let j := gw_jobs db in
            let audit := record (env_audit_key E) (Some actor) "artifact.download" (Some "artifact")
              (Some (uuid_str (ja_id art)))
              (Some [("job_run_id", PStr (uuid_str (ja_job_run_id art))); ("size_bytes", PInt (ja_size_bytes art))])
              None None (env_now E) (env_uuid4 E (length (log (jd_audit j)))) (jd_audit j) in
            Ok (mkGw (mkJobDb (jd_scope j) (jd_policies j) (jd_jobs j) (jd_runs j) (jd_commands j) audit)
                  (map (λ a, if ja_id a =? aid then mark_downloaded (actor_user_id actor) (env_now E) a else a)
                     (gw_artifacts db)),
                (ja_bucket art, ja_object_key art), after_last "/" (ja_object_key art))
      end
  end.

Definition HostStatus_value (s : HostStatus) : str :=
  match s with
  | H_PENDING => "pending" | H_ONLINE => "online" | H_OFFLINE => "offline" | H_ISOLATED => "isolated"
  | H_DECOMMISSIONED => "decommissioned"
  end.

(** [update_host] of api/hosts.py.  The payload of its audit row is the request
    as Python objects: a policy id in it is a [UUID], which no JSON encoder
    takes, neither the one of the audit chain nor the one of the column. *)
Definition update_host (E : env) (hid : uuid) (policy : option uuid) (status : option HostStatus) (actor : Actor)
    (db : job_db) : py job_db :=
  if negb (is_admin actor) then Err (HTTPException 403)
  else match find_host db hid with
  | None => Err (HTTPException 404)
  | Some h =>
      if negb (host_visible_to actor (Some hid) (jd_scope db)) then Err (HTTPException 404)
      else match policy with
      | Some pid =>
          match find_policy db pid with
          | Some p => if pol_tenant_id p =? host_tenant_id h then Err TypeError else Err (HTTPException 404)
          | None => Err (HTTPException 404)
          end
      | None =>
          let db := match status with
                    | None => db
                    | Some s => update_host_row hid (set_host_status s) db
                    end in
          Ok (mkJobDb (jd_scope db) (jd_policies db) (jd_jobs db) (jd_runs db) (jd_commands db)
                (record (env_audit_key E) (Some actor) "host.update" (Some "host") (Some (uuid_str hid))
                   (Some (match status with Some s => [("status", PStr (HostStatus_value s))] | None => [] end))
                   None None (env_now E) (env_uuid4 E (length (log (jd_audit db)))) (jd_audit db)))
      end
  end.

(** ** Hosts *)

Definition status_of (hid : uuid) (db : job_db) : option HostStatus := host_status <$> find_host db hid.

Lemma find_host_update hid hid' f db :
  (∀ h, host_id (f h) = host_id h) →
  find_host (update_host_row hid f db) hid' =
    (if hid =? hid' then f <$> find_host db hid' else find_host db hid').
Proof.
  intros Hf. unfold find_host, hosts, update_host_row, with_hosts. simpl.
  rewrite find_map_key; cycle 1.
  { intros h. destruct (host_id h =? hid); [by rewrite Hf|done]. }
  destruct (List.find _ _) as [h|] eqn:Hh; simpl; [|by destruct (hid =? hid')].
  apply List.find_some in Hh as [_ Hid%Z.eqb_eq]. rewrite <- Hid, (Z.eqb_sym hid). by destruct (host_id h =? hid).
Qed.

Lemma status_of_update hid s db :
  status_of hid (update_host_row hid (set_host_status s) db) = (λ _, s) <$> find_host db hid.
Proof.
  unfold status_of. rewrite find_host_update, Z.eqb_refl by done. by destruct (find_host db hid).
Qed.

(** The checks at the start of a stream. *)
Lemma host_stream_open_ok now cn fp db hid db' :
  host_stream_open now (Some cn) fp db = Ok (hid, db') →
  uuid_of_str cn = Some hid ∧
  ∃ h, find_host db hid = Some h ∧ host_status h ≠ H_DECOMMISSIONED ∧
       find_host db' hid = Some (set_host_seen now (set_host_status H_ONLINE h)).
Proof.
  unfold host_stream_open. destruct (uuid_of_str cn) as [i|]; [|done].
  destruct (find_host db i) as [h|] eqn:Hh; [|done].
  unfold check_host_admission. case_bool_decide as Hs; [done|].
  destruct (match fp with Some _ => _ | None => None end); [done|]. intros [= <- <-]. split; [done|].
  exists h. by rewrite find_host_update, Z.eqb_refl, Hh.
Qed.

(** A decommissioned host is refused at the start of a stream. *)
Lemma decommissioned_refused now cn fp db hid h :
  uuid_of_str cn = Some hid → find_host db hid = Some h → host_status h = H_DECOMMISSIONED →
  host_stream_open now (Some cn) fp db = Err (RpcAbort "UNAUTHENTICATED").
Proof.
  intros Hu Hh Hs. unfold host_stream_open. rewrite Hu, Hh. unfold check_host_admission. by rewrite bool_decide_true.
Qed.

Lemma update_host_status_ok E hid s actor db h :
  is_admin actor = true → find_host db hid = Some h → host_visible_to actor (Some hid) (jd_scope db) = true →
  ∃ db', update_host E hid None (Some s) actor db = Ok db' ∧
         find_host db' hid = Some (set_host_status s h).
Proof.
  intros Ha Hh Hv. unfold update_host. rewrite Ha, Hh, Hv. simpl. eexists. split; [reflexivity|].
  change (find_host (update_host_row hid (set_host_status s) db) hid = Some (set_host_status s h)).
  by rewrite find_host_update, Z.eqb_refl, Hh.
Qed.

(** Decommissioning a host that is connected does not last.  The stream is
    cut at a heartbeat at least thirty seconds later, its end marks the host
    offline, and the agent is admitted again with the certificate the
    decommissioning was to revoke. *)
Theorem decommission_undone E T R K loads mono cn hid h actor db st later fp :
  uuid_of_str cn = Some hid → find_host db hid = Some h → is_admin actor = true →
  host_visible_to actor (Some hid) (jd_scope db) = true →
  30000000 ≤ env_now E - sm_last_seen_update st → fp = host_cert_fingerprint h →
  ∃ db1, update_host E hid None (Some H_DECOMMISSIONED) actor db = Ok db1 ∧
    status_of hid db1 = Some H_DECOMMISSIONED ∧
    (∀ arts, consume E T R K loads mono hid GHeartbeat st (mkGw db1 arts) = Err (RpcAbort "UNAUTHENTICATED")) ∧
    ∃ db2, host_stream_open later (Some cn) fp (host_stream_close hid db1) = Ok (hid, db2) ∧
      status_of hid db2 = Some H_ONLINE.
Proof.
  intros Hu Hh Ha Hv Hnow Hfp. destruct (update_host_status_ok E hid H_DECOMMISSIONED actor db h Ha Hh Hv) as (db1 & He & Hf).
  exists db1. split; [done|]. split; [by unfold status_of; rewrite Hf|]. split.
  - intros arts. cbn [consume gw_jobs]. rewrite (proj2 (Z.ltb_ge _ _)) by lia. by rewrite Hf.
  - unfold host_stream_close, host_stream_open. rewrite Hu, find_host_update, Z.eqb_refl, Hf by done. cbn [fmap option_fmap option_map].
    unfold check_host_admission. rewrite bool_decide_false by done. cbn [host_cert_fingerprint set_host_status set_host].
    assert (match fp with
            | Some p => match host_cert_fingerprint h with
                        | Some f => if nonempty p && nonempty f && negb (String.eqb p f) then Some "cert revoked" else None
                        | None => None end
            | None => None end = None) as ->.
    { subst fp. destruct (host_cert_fingerprint h); [|done]. by rewrite String.eqb_refl, andb_false_r. }
    eexists. split; [reflexivity|]. unfold status_of.
    rewrite find_host_update, find_host_update, Z.eqb_refl, Hf by done. done.
Qed.

(** ** Jobs: from the job to the agent and back *)

Lemma find_run_In db r : NoDup (map run_id (jd_runs db)) → r ∈ jd_runs db → find_run db (run_id r) = Some r.
Proof.
  intros Hnd Hin. unfold find_run. destruct (List.find _ _) as [r'|] eqn:Hf.
  - apply List.find_some in Hf as [Hin' Hid%Z.eqb_eq]. apply list_elem_of_In in Hin'.
    f_equal. by apply (NoDup_key_inj run_id (jd_runs db)).
  - apply list_elem_of_In in Hin. apply List.find_none with (x := r) in Hf; [|done]. by rewrite Z.eqb_refl in Hf.
Qed.

Lemma reaggregate_runs jid db : jd_runs (reaggregate jid db) = jd_runs db.
Proof. done. Qed.
Lemma reaggregate_commands jid db : jd_commands (reaggregate jid db) = jd_commands db.
Proof. done. Qed.

(** What a report of the run's own agent does to the run. *)
Lemma handle_job_progress_own now p db r :
  NoDup (map run_id (jd_runs db)) → r ∈ jd_runs db → uuid_of_str (jp_run_id p) = Some (run_id r) →
  jd_runs (handle_job_progress now (run_host_id r) p db) =
    map (λ x, if run_id x =? run_id r then progress_run now p x else x) (jd_runs db) ∧
  jd_commands (handle_job_progress now (run_host_id r) p db) = jd_commands db ∧
  jd_scope (handle_job_progress now (run_host_id r) p db) = jd_scope db.
Proof.
  intros Hnd Hin Hid. unfold handle_job_progress. rewrite Hid, find_run_In, Z.eqb_refl by done. cbn [negb].
  by destruct (run_terminal _).
Qed.

Lemma command_to_pb_bridged E job user run cmd :
  bridged E job user run cmd →
  command_to_pb cmd = Ok (Some (PbRunJob (uuid_str (job_id job)) (uuid_str (run_id run))
                                  (JobKind.value (job_kind job)) (json_dumps (PDict (job_parameters job))))).
Proof.
  intros (_ & _ & _ & _ & Hk & _ & _ & Hj & Hr & Hkind & Hp).
  assert (∀ k s, nonempty s = true → dict_get k (cmd_payload cmd) = Some (PStr s) → str_or_empty k (cmd_payload cmd) = s) as Hs.
  { intros k s Hne Hg. unfold str_or_empty, get_none, get_default. rewrite Hg. simpl. unfold py_or. simpl. by rewrite Hne. }
  assert (∀ u, nonempty (uuid_str u) = true) as Hu.
  { intros u. pose proof (uuid_str_length u). by destruct (uuid_str u). }
  assert (nonempty (JobKind.value (job_kind job)) = true) as Hkv by (by destruct (job_kind job)).
  unfold command_to_pb. rewrite Hk. cbv zeta.
  rewrite (Hs "job_id" _ (Hu _) Hj), (Hs "run_id" _ (Hu _) Hr), (Hs "job_kind" _ Hkv Hkind), !Hu, Hkv. simpl.
  unfold sub, get_none, get_default. rewrite Hp. simpl. unfold py_or. simpl. by destruct (job_parameters job).
Qed.


(** An agent reports on the runs of its own host only: whatever it sends as
    progress, the runs of other hosts, the commands and the hosts stay as they
    were. *)
Theorem progress_confined now host p db r :
  NoDup (map run_id (jd_runs db)) → r ∈ jd_runs db → run_host_id r ≠ host →
  r ∈ jd_runs (handle_job_progress now host p db) ∧
  jd_commands (handle_job_progress now host p db) = jd_commands db ∧
  jd_scope (handle_job_progress now host p db) = jd_scope db.
Proof.
  intros Hnd Hin Hne. unfold handle_job_progress. destruct (uuid_of_str _) as [rid|]; [|done].
  destruct (find_run db rid) as [run|] eqn:Hf; [|done].
  destruct (Z.eqb_spec (run_host_id run) host) as [Hh|]; [|done]. cbn [negb].
  apply List.find_some in Hf as [Hrun Hid%Z.eqb_eq]. apply list_elem_of_In in Hrun.
  assert (r ∈ jd_runs (update_run rid (progress_run now p) db)) as Hr.
  { apply list_elem_of_fmap. exists r. split; [|done]. destruct (Z.eqb_spec (run_id r) rid) as [He|]; [|done].
    assert (r = run) as -> by (apply (NoDup_key_inj run_id (jd_runs db)); congruence). done. }
  by destruct (run_terminal _).
Qed.

(** The result of a command is taken from any agent: the agent of another
    host can settle it, and the run it belongs to with it. *)
Theorem foreign_result_settles E T R K loads mono host st db c success error :
  NoDup (map cmd_id (jd_commands (gw_jobs db))) → c ∈ jd_commands (gw_jobs db) → uuid_ok (cmd_id c) →
  cmd_host_id c ≠ host →
  (length (List.filter (λ r, bool_decide (run_command_id r = Some (cmd_id c))) (jd_runs (gw_jobs db))) ≤ 1)%nat →
  ∃ db', consume E T R K loads mono host (GCommandResult (uuid_str (cmd_id c)) success error) st db = Ok (st, db', []) ∧
    finish_command (env_now E) success error c ∈ jd_commands (gw_jobs db') ∧
    (cmd_kind c = RUN_JOB → ∀ r, r ∈ jd_runs (gw_jobs db) → run_command_id r = Some (cmd_id c) →
     finish_run (env_now E) success error r ∈ jd_runs (gw_jobs db')).
Proof.
  intros Hnd Hin Hok Hne Hlen. cbn [consume]. eexists. split; [reflexivity|]. cbn [gw_jobs].
  unfold handle_command_result. rewrite uuid_of_str_uuid_str by done.
  destruct (List.find _ (jd_commands (gw_jobs db))) as [c'|] eqn:Hf; cycle 1.
  { apply list_elem_of_In in Hin. apply List.find_none with (x := c) in Hf; [|done]. by rewrite Z.eqb_refl in Hf. }
  apply List.find_some in Hf as [Hin' Hid%Z.eqb_eq]. apply list_elem_of_In in Hin'.
  assert (c' = c) as -> by (by apply (NoDup_key_inj cmd_id (jd_commands (gw_jobs db)))).
  set (db1 := with_commands _ _).
  assert (finish_command (env_now E) success error c ∈ jd_commands db1) as Hc1.
  { cbn [db1 jd_commands with_commands]. apply list_elem_of_fmap. exists c. by rewrite Z.eqb_refl. }
  case_bool_decide as Hk; [|done].
  assert (∀ r, r ∈ jd_runs (gw_jobs db) → run_command_id r = Some (cmd_id c) →
    r ∈ List.filter (λ r, bool_decide (run_command_id r = Some (cmd_id c))) (jd_runs (gw_jobs db))) as Hmem.
  { intros r Hr Hrc. apply elem_of_filterb. split; [done|]. by apply bool_decide_eq_true. }
  destruct (List.filter _ _) as [|run [|]]; [split; [done|]|split; [done|]|simpl in Hlen; lia].
  - intros _ r Hr Hrc. exfalso. by eapply elem_of_nil, Hmem.
  - intros _ r Hr Hrc. pose proof (Hmem r Hr Hrc) as ->%list_elem_of_singleton.
    apply list_elem_of_fmap. exists run. by rewrite Z.eqb_refl.
Qed.

(** Cancelling a job does not bind its agents: progress that arrives after
    the cancellation puts a cancelled run back to work, while the job stays
    cancelled. *)
Theorem canceled_run_revived now db r pct msg err :
  NoDup (map run_id (jd_runs db)) → r ∈ jd_runs db → uuid_ok (run_id r) → run_status r = RUN_CANCELED →
  let db' := handle_job_progress now (run_host_id r)
               (mkProgress (uuid_str (run_id r)) (Some RUN_RUNNING) pct msg err) db in
  (∃ r', r' ∈ jd_runs db' ∧ run_id r' = run_id r ∧ run_status r' = RUN_RUNNING) ∧ jd_jobs db' = jd_jobs db.
Proof.
  intros Hnd Hin Hok Hs. cbv zeta. set (p := mkProgress _ _ _ _ _).
  destruct (handle_job_progress_own now p db r) as (-> & _ & _); [done..|by apply uuid_of_str_uuid_str|]. split.
  - exists (progress_run now p r). split_and!; [|done|done]. apply list_elem_of_fmap. exists r. by rewrite Z.eqb_refl.
  - unfold handle_job_progress. change (jp_run_id p) with (uuid_str (run_id r)). by rewrite uuid_of_str_uuid_str, find_run_In, Z.eqb_refl.
Qed.

(** ** Artifacts *)

Lemma take_str_short n s : (String.length s ≤ n)%nat → take_str n s = s.
Proof.
  unfold take_str. revert n. induction s as [|c s IH]; intros [|n] H; simpl in *; try done; [lia|].
  f_equal. apply IH. lia.
Qed.

(** The object key of an artifact report is not tied to the run: an agent
    can report any key of the manager's buckets, such as the object of another
    host's run, and whoever may see the agent's host is then served that
    object. *)
Theorem artifact_key_unchecked E T loads run bucket key size sha db actor aid :
  NoDup (map run_id (jd_runs (gw_jobs db))) → run ∈ jd_runs (gw_jobs db) → uuid_ok (run_id run) →
  bucket ∈ [st_bucket_artifacts T; st_bucket_snapshots T] → (String.length key ≤ 512)%nat →
  aid = env_uuid4 E (length (gw_artifacts db)) → (∀ a, a ∈ gw_artifacts db → ja_id a ≠ aid) →
  require_analyst actor = Ok tt →
  host_visible_to actor (Some (run_host_id run)) (jd_scope (gw_jobs db)) = true →
  let db' := handle_job_artifact E T loads (run_host_id run)
               (mkReport (uuid_str (run_id run)) bucket key "" size sha "") db in
  ∃ db'', download_artifact E aid actor db' = Ok (db'', (bucket, key), after_last "/" key).
Proof.
  intros Hnd Hin Hok Hb Hk Haid Hfresh Ha Hv. cbv zeta. unfold handle_job_artifact.
  cbn [ar_run_id ar_artifact_kind ar_bucket ar_object_key]. rewrite uuid_of_str_uuid_str, find_run_In, Z.eqb_refl by done.
  rewrite !bool_decide_true by (done || set_solver). cbn [negb]. cbv zeta.
  unfold download_artifact. rewrite Ha. cbn [mbind res_bind]. unfold find_artifact. cbn [gw_artifacts].
  rewrite <- Haid. set (art := mkArtifact aid _ _ _ _ _ _ _ _ _ _).
  assert (List.find (λ a, ja_id a =? aid) (gw_artifacts db ++ [art]) = Some art) as ->.
  { clear -Hfresh. induction (gw_artifacts db) as [|a l IH]; simpl; [by rewrite Z.eqb_refl|].
    rewrite (proj2 (Z.eqb_neq _ _)) by (apply Hfresh; set_solver). apply IH. set_solver. }
  cbn [gw_jobs ja_job_run_id art].
  change (find_run (mkJobDb _ _ _ (jd_runs (gw_jobs db)) _ _) (run_id run)) with (find_run (gw_jobs db) (run_id run)).
  rewrite find_run_In by done. cbn [jd_scope]. rewrite Hv. cbn [negb ja_bucket ja_object_key].
  eexists. unfold art. cbn [ja_bucket ja_object_key]. rewrite take_str_short by done. reflexivity.
Qed.

(** ** Rules *)

(** The snapshot sent to the agents carries each rule's own action.  A rule
    of a group whose ceiling is lower is sent with an action above the ceiling,
    to every agent, of whatever tenant. *)
Theorem rule_sync_ignores_ceiling now rules iocs sync r g body :
  build_rule_sync now rules iocs = Ok sync → r ∈ rules → rule_enabled r = true → rule_kind r = YARA →
  rule_body r = Some body → body ≠ "" → rule_group_id r = Some (rg_id g) →
  ACTION_ORDER (rg_max_action g) < ACTION_ORDER (rule_action r) →
  ∃ y, y ∈ rs_yara sync ∧ py_id y = uuid_str (rule_id r) ∧ py_source y = body ∧
    ACTION_ORDER (clamp_action (rule_action r) (Some (rg_max_action g))) < ACTION_ORDER (py_action y).
Proof.
  unfold build_rule_sync. intros (v & _ & [= <-])%res_bind_ok Hin Hen Hk Hb Hne _ Hlt.
  exists (mkYara (uuid_str (rule_id r)) (rule_name r) body (rule_severity r) (rule_action r)).
  split_and!; [|done|done|].
  - cbn [rs_yara]. rewrite list_elem_of_In, in_flat_map. exists r. split.
    + apply list_elem_of_In, elem_of_filterb. done.
    + unfold sync_yara. rewrite Hk, Hb. destruct body; [done|]. by left.
  - rewrite clamp_action_min. cbn [py_action]. lia.
Qed.

Lemma max_mtime_spec rules m :
  max_mtime rules = Some m ↔ (∃ r, (r, m) ∈ rules) ∧ ∀ r t, (r, t) ∈ rules → t ≤ m.
Proof.
  revert m. induction rules as [|[r t] rules IH]; intros m; simpl.
  { split; [done|]. intros [[r Hr%elem_of_nil] _]. done. }
  destruct (max_mtime rules) as [k|] eqn:Hk.
  - destruct (proj1 (IH k) eq_refl) as [[r0 Hr0] Hle]. split.
    + intros [= <-]. split.
      * destruct (Z.max_spec t k) as [[_ ->]|[_ ->]]; [exists r0|exists r]; set_solver.
      * intros r' t' [[= -> ->]|H]%elem_of_cons; [lia|]. apply Hle in H. lia.
    + intros [[r' Hr'] Hm]. f_equal. apply elem_of_cons in Hr' as [[= -> ->]|Hr'].
      * apply Z.max_l. apply (Hm r0). set_solver.
      * pose proof (Hle _ _ Hr'). pose proof (Hm r0 k ltac:(set_solver)). pose proof (Hm r t ltac:(set_solver)). lia.
  - assert (rules = []) as -> by (by destruct rules). split.
    + intros [= <-]. split; [exists r; set_solver|]. intros r' t'. rewrite list_elem_of_singleton. by intros [= -> ->].
    + intros [[r' Hr'] _]. apply list_elem_of_singleton in Hr'. by simplify_eq.
Qed.

(** Deleting a rule does not reach the connected agents when another rule
    was modified at the same time or later: the dispatcher sees the same latest
    modification and pushes nothing. *)
Theorem resync_misses_deletion now before r t after iocs r' t' :
  (r', t') ∈ before ++ after → t ≤ t' →
  resync_step now (before ++ after) iocs (max_mtime (before ++ (r, t) :: after)) =
    Ok (None, max_mtime (before ++ (r, t) :: after)).
Proof.
  intros Hin Ht. assert (max_mtime (before ++ (r, t) :: after) = max_mtime (before ++ after)) as ->.
  { destruct (max_mtime (before ++ after)) as [m|] eqn:Hm; cycle 1.
    { by destruct (before ++ after) as [|]; [apply elem_of_nil in Hin|]. }
    apply max_mtime_spec in Hm as [[r0 Hr0] Hle]. apply max_mtime_spec. split.
    - exists r0. set_solver.
    - intros r1 t1 [H|[[= -> ->]|H]%elem_of_cons]%elem_of_app.
      + apply (Hle r1). set_solver.
      + etrans; [exact Ht|by eapply Hle].
      + apply (Hle r1). set_solver. }
  unfold resync_step. destruct (max_mtime (before ++ after)); [|done]. by rewrite bool_decide_true.
Qed.

(** ** Examples *)

Definition demo_gw : gw_db := mkGw demo_created.1.1 [].
Definition demo_rl : rl_settings := mkRl 1000 5000.
Definition demo_topics : topics := mkTopics "telemetry.raw" "auth".
Definition no_json (_ : str) : option pyval := None.

Lemma decommission_undone_witness :
  ∃ db1 db2, update_host demo_env 100 None (Some H_DECOMMISSIONED) (demo_admin 1) demo_jobs = Ok db1 ∧
    host_stream_open 0 (Some (uuid_str 100)) None (host_stream_close 100 db1) = Ok (100, db2) ∧
    status_of 100 db2 = Some H_ONLINE.
Proof.
  destruct (decommission_undone demo_env demo_settings demo_rl demo_topics no_json (S754_zero false) (uuid_str 100) 100
              (demo_host 100 1) (demo_admin 1) demo_jobs (mkStream 0 None) 0 None)
    as (db1 & H1 & _ & _ & db2 & H2 & H3).
  - apply uuid_of_str_uuid_str. unfold uuid_ok. lia.
  - reflexivity.
  - reflexivity.
  - reflexivity.
  - simpl. lia.
  - reflexivity.
  - exists db1, db2. split; [exact H1|]. split; [exact H2|exact H3].
Defined.

Definition demo_run : JobRun :=
  mkJobRun 0 DEFAULT_TENANT_ID 0 100 (Some 0) RUN_QUEUED None None 0 None None.

Lemma demo_runs_nodup : NoDup (map run_id (jd_runs demo_created.1.1)).
Proof. apply (bool_decide_unpack _). vm_compute. exact I. Qed.


Lemma progress_confined_witness :
  demo_run ∈ jd_runs (handle_job_progress 5 999 (mkProgress (uuid_str 0) (Some RUN_FAILED) 7 "" "x") demo_created.1.1).
Proof.
  apply (progress_confined 5 999 (mkProgress (uuid_str 0) (Some RUN_FAILED) 7 "" "x") demo_created.1.1 demo_run).
  - exact demo_runs_nodup.
  - vm_compute. by left.
  - discriminate.
Defined.

Definition demo_gw_cmd : gw_db :=
  mkGw (with_commands (λ _, [demo_cmd 7 KILL_PROCESS [("pid", PInt 3)] 10]) demo_jobs) [].
Definition result_msg : client_msg := GCommandResult (uuid_str 7) true "".

Lemma foreign_result_settles_witness :
  ∃ db', consume demo_env demo_settings demo_rl demo_topics no_json (S754_zero false) 999 result_msg (mkStream 0 None)
           demo_gw_cmd = Ok (mkStream 0 None, db', []) ∧
    finish_command (env_now demo_env) true "" (demo_cmd 7 KILL_PROCESS [("pid", PInt 3)] 10) ∈ jd_commands (gw_jobs db').
Proof.
  destruct (foreign_result_settles demo_env demo_settings demo_rl demo_topics no_json (S754_zero false) 999 (mkStream 0 None)
              demo_gw_cmd (demo_cmd 7 KILL_PROCESS [("pid", PInt 3)] 10) true "") as (db' & H1 & H2 & _).
  - apply (bool_decide_unpack _). vm_compute. exact I.
  - by left.
  - unfold uuid_ok. simpl. lia.
  - discriminate.
  - simpl. lia.
  - exists db'. split; [exact H1|exact H2].
Defined.

Definition demo_canceled : job_db :=
  update_run 0 (cancel_run 5) demo_created.1.1.

Lemma canceled_run_revived_witness :
  ∃ r', r' ∈ jd_runs (handle_job_progress 9 100 (mkProgress (uuid_str 0) (Some RUN_RUNNING) 50 "" "") demo_canceled) ∧
    run_status r' = RUN_RUNNING.
Proof.
  destruct (canceled_run_revived 9 demo_canceled (cancel_run 5 demo_run) 50 "" "") as [(r' & H1 & _ & H2) _].
  - apply (bool_decide_unpack _). vm_compute. exact I.
  - vm_compute. by left.
  - unfold uuid_ok. simpl. lia.
  - reflexivity.
  - exists r'. split; [exact H1|exact H2].
Defined.

Lemma artifact_key_unchecked_witness :
  ∃ db'', download_artifact demo_env 0 demo_analyst
    (handle_job_artifact demo_env demo_settings no_json 100
       (mkReport (uuid_str 0) "vigil-artifacts" "runs/2026/01/other/secret" "" 1 "" "") demo_gw) =
    Ok (db'', ("vigil-artifacts", "runs/2026/01/other/secret"), after_last "/" "runs/2026/01/other/secret").
Proof.
  apply (artifact_key_unchecked demo_env demo_settings no_json demo_run "vigil-artifacts" "runs/2026/01/other/secret"
           1 "" demo_gw demo_analyst 0).
  - exact demo_runs_nodup.
  - vm_compute. by left.
  - unfold uuid_ok. simpl. lia.
  - simpl. by left.
  - simpl. lia.
  - reflexivity.
  - intros a Ha. by apply elem_of_nil in Ha.
  - reflexivity.
  - vm_compute. reflexivity.
Defined.

Definition demo_yara : Rule :=
  mkRule 5 2 YARA "r" None HIGH QUARANTINE true (Some 9) (Some "rule r {}") 1 None false.

Lemma rule_sync_ignores_ceiling_witness :
  ∃ sync y, build_rule_sync 1700000000000000 [demo_yara] [] = Ok sync ∧ y ∈ rs_yara sync ∧
    ACTION_ORDER (clamp_action QUARANTINE (Some ALERT)) < ACTION_ORDER (py_action y).
Proof.
  destruct (build_rule_sync 1700000000000000 [demo_yara] []) as [sync|] eqn:H; [|vm_compute in H; discriminate H].
  exists sync.
  destruct (rule_sync_ignores_ceiling _ _ _ sync demo_yara (mkRuleGroup 9 2 YARA "g" None ALERT) "rule r {}" H)
    as (y & Hy & _ & _ & Hlt).
  - by left.
  - reflexivity.
  - reflexivity.
  - reflexivity.
  - discriminate.
  - reflexivity.
  - simpl. lia.
  - exists y. split; [reflexivity|]. split; [exact Hy|exact Hlt].
Defined.

Lemma resync_misses_deletion_witness :
  resync_step 0 [(demo_yara, 20)] [] (Some 20) = Ok (None, Some 20).
Proof.
  apply (resync_misses_deletion 0 [(demo_yara, 20)] demo_yara 10 [] [] demo_yara 20); [by left|lia].
Defined.
