(* ===== verification/Enrollment.v ===== *)
(** * Enrollment: one-time tokens and new hosts

    services/enrollment.py, api/enrollment.py and the [Enroll] call of
    grpc/services.py: an administrator mints a one-time token, an agent trades it
    for a host row and a client certificate, over REST or gRPC, and a host that
    enrolls again under a recent hostname raises an alert.

    Signing the certificate request ([CaService.sign_csr]) is X.509 library code
    and a parameter: it answers with the certificate's fingerprint or fails.
    Either handler runs in one transaction, rolled back when it raises. *)

From Stdlib Require Import Ascii String.
From S2P Require Import Prelude PyStr PyVal PyTime Crypto PyText Models AuditChain Rollout Scoping Jobs.
From S2P Require Import Gateway.
Local Open Scope string_scope.
Local Open Scope list_scope.
Local Open Scope Z_scope.

(** ** Tables *)

Record EnrollmentToken := mkToken {
  et_id : uuid;
  et_tenant_id : uuid;
  et_token_hash : str;
  et_label : option str;
  et_expires_at : datetime;
  et_used_at : option datetime;
  et_used_by_host_id : option uuid;
  et_created_by : option uuid;
  et_created_at : datetime
}.

Record enroll_db := mkEnrollDb {
  ed_tokens : list EnrollmentToken;
  ed_hosts : list Host;
  ed_rules : list Rule;
  ed_alerts : list Alert;
  ed_audit : audit_db
}.

Definition hash_enrollment_token (token : str) : str := hexdigest (sha256 (utf8 token)).

Definition REENROLLMENT_RULE_ID : uuid := 0xa0a0a0a0000000000000000000000005.

(** ** Tokens *)

Definition token_live (now : datetime) (th : str) (t : EnrollmentToken) : bool :=
  String.eqb (et_token_hash t) th && match et_used_at t with None => true | Some _ => false end &&
  (now <? et_expires_at t).
Definition use_token (now : datetime) (t : EnrollmentToken) : EnrollmentToken :=
  mkToken (et_id t) (et_tenant_id t) (et_token_hash t) (et_label t) (et_expires_at t) (Some now)
    (et_used_by_host_id t) (et_created_by t) (et_created_at t).

(** [consume_token]: one [UPDATE … WHERE … RETURNING]; [None] is
    [EnrollmentTokenInvalid]. *)
Definition consume_token (now : datetime) (raw_token : str) (tokens : list EnrollmentToken) :
    option (uuid * uuid * list EnrollmentToken) :=
  let th := hash_enrollment_token raw_token in
  match List.find (token_live now th) tokens with
  | None => None
  | Some t => Some (et_id t, et_tenant_id t, map (λ t, if token_live now th t then use_token now t else t) tokens)
  end.

Definition bind_token_to_host (token_id host : uuid) (tokens : list EnrollmentToken) : list EnrollmentToken :=
  map (λ t, if et_id t =? token_id
            then mkToken (et_id t) (et_tenant_id t) (et_token_hash t) (et_label t) (et_expires_at t) (et_used_at t)
                   (Some host) (et_created_by t) (et_created_at t)
            else t) tokens.

Definition with_tokens (tokens : list EnrollmentToken) (db : enroll_db) : enroll_db :=
  mkEnrollDb tokens (ed_hosts db) (ed_rules db) (ed_alerts db) (ed_audit db).

(** [create_token]; [plaintext] is the token drawn by [generate_enrollment_token].
    The hash is a unique column. *)
Definition create_token (E : env) (plaintext : str) (label : option str) (ttl_hours : Z) (tenant : option uuid)
    (actor : Actor) (db : enroll_db) : py enroll_db :=
  if negb (is_admin actor) then Err (HTTPException 403)
  else if negb ((1 <=? ttl_hours) && (ttl_hours <=? 24 * 30)) then Err (HTTPException 422)
  else
    let target := default (actor_tenant_id actor) tenant in
    if negb (target =? actor_tenant_id actor) && negb (actor_is_super_admin actor) then Err (HTTPException 400)
    else if existsb (λ t, String.eqb (et_token_hash t) (hash_enrollment_token plaintext)) (ed_tokens db) then
      Err IntegrityError
    else
      let tid := env_uuid4 E (length (ed_tokens db)) in
      let token := mkToken tid target (hash_enrollment_token plaintext) label
                     (env_now E + ttl_hours * 3600 * 1000000) None None (Some (actor_user_id actor)) (env_now E) in
      Ok (mkEnrollDb (ed_tokens db ++ [token]) (ed_hosts db) (ed_rules db) (ed_alerts db)
            (record (env_audit_key E) (Some actor) "enrollment_token.create" (Some "enrollment_token")
               (Some (uuid_str tid))
               (Some [("label", match label with Some l => PStr l | None => PNone end); ("ttl_hours", PInt ttl_hours);
                      ("tenant_id", PStr (uuid_str target))]) None (Some target) (env_now E)
               (env_uuid4 E (length (log (ed_audit db)))) (ed_audit db))).

Definition revoke_token (E : env) (token_id : uuid) (actor : Actor) (db : enroll_db) : py enroll_db :=
  if negb (is_admin actor) then Err (HTTPException 403)
  else match List.find (λ t, et_id t =? token_id) (ed_tokens db) with
  | None => Err (HTTPException 404)
  | Some _ =>
      Ok (mkEnrollDb (List.filter (λ t, negb (et_id t =? token_id)) (ed_tokens db)) (ed_hosts db) (ed_rules db)
            (ed_alerts db)
            (record (env_audit_key E) (Some actor) "enrollment_token.revoke" (Some "enrollment_token")
               (Some (uuid_str token_id)) None None None (env_now E)
               (env_uuid4 E (length (log (ed_audit db)))) (ed_audit db)))
  end.

(** ** The re-enrollment detector *)

(** The synthetic rule, without its description (prose with a character outside
    the model). *)
Definition reenrollment_rule : Rule :=
  mkRule REENROLLMENT_RULE_ID DEFAULT_TENANT_ID IOC "M12 self-protection: agent re-enrollment anomaly" None
    HIGH ALERT true None None 1 None false.

Definition ensure_rule (r : Rule) (rules : list Rule) : list Rule :=
  match List.find (λ x, rule_id x =? rule_id r) rules with Some _ => rules | None => rules ++ [r] end.

(** The most recent of the rows with [enrolled_at >= cutoff] and the hostname,
    other than the new one and not decommissioned. *)
Definition prior_match (hostname : str) (new_host : uuid) (cutoff : datetime) (h : Host) : bool :=
  String.eqb (host_hostname h) hostname && negb (host_id h =? new_host) &&
  match host_enrolled_at h with Some t => cutoff <=? t | None => false end &&
  negb (bool_decide (host_status h = H_DECOMMISSIONED)).
Definition enrolled_key (h : Host) : Z := - default 0 (host_enrolled_at h).
Definition prior_host (hostname : str) (new_host : uuid) (cutoff : datetime) (hosts : list Host) : option Host :=
  head (sort_by enrolled_key (List.filter (prior_match hostname new_host cutoff) hosts)).


(** [int((now - t).total_seconds())]: the truncated quotient. *)
Definition seconds_between (now t : datetime) : Z := Z.quot (now - t) 1000000.

Definition reenrollment_alert (E : env) (id : uuid) (window_s : Z) (hostname : str) (os : OsFamily) (new_host : uuid)
    (now : datetime) (source : str) (source_ip : option str) (prior : Host) (at_ : datetime) : Alert :=
  let age := seconds_between now at_ in
  mkAlert id (host_tenant_id prior) (Some new_host) REENROLLMENT_RULE_ID HIGH ALERT NEW
    ("Re-enrollment of '" +:+ hostname +:+ "' (" +:+ str_of_Z age +:+ "s after prior enrollment)")
    (Some [("hostname", PStr hostname); ("new_host_id", PStr (uuid_str new_host));
           ("prior_host_id", PStr (uuid_str (host_id prior))); ("prior_enrolled_at", PStr (isoformat at_));
           ("prior_age_seconds", PInt age); ("same_os_family", PBool (bool_decide (host_os_family prior = os)));
           ("window_seconds", PInt window_s); ("source", PStr source); ("ip", opt_str source_ip);
           ("detector", PStr "reenrollment_v1")])
    None None None (env_now E) None None None None 1 (env_now E).

Definition detect_reenrollment (E : env) (window_s : Z) (hostname : str) (os : OsFamily) (new_host : uuid)
    (now : datetime) (source : str) (source_ip : option str) (db : enroll_db) : enroll_db :=
  let cutoff := now - window_s * 1000000 in
  match prior_host hostname new_host cutoff (ed_hosts db) with
  | Some prior =>
      match host_enrolled_at prior with
      | Some at_ =>
          mkEnrollDb (ed_tokens db) (ed_hosts db) (ensure_rule reenrollment_rule (ed_rules db))
            (ed_alerts db ++ [reenrollment_alert E (env_uuid4 E (length (ed_alerts db))) window_s hostname os new_host
                                now source source_ip prior at_]) (ed_audit db)
      | None => db
      end
  | None => db
  end.

(** ** Enrolling *)

Record enroll_request := mkEnroll {
  er_token : str;
  er_hostname : str;
  er_os_family : OsFamily;
  er_os_version : option str;
  er_os_platform : option str;
  er_os_arch : option str;
  er_agent_version : option str;
  er_csr : str
}.

(** [VARCHAR(n)] *)
Definition fits (n : nat) (o : option str) : bool :=
  match o with Some s => (String.length s <=? n)%nat | None => true end.
Definition host_fits (q : enroll_request) : bool :=
  fits 255 (Some (er_hostname q)) && fits 64 (er_os_version q) && fits 128 (er_os_platform q) &&
  fits 32 (er_os_arch q) && fits 32 (er_agent_version q).

Section enroll.
Context (E : env) (window_s : Z) (sign_csr : str → str → str → option str).

(** What both transports do once the request is accepted: [source] and [payload]
    are what they write in the alert and in the audit row. *)
Definition enroll_core (q : enroll_request) (source : str) (source_ip audit_ip : option str) (payload : dict)
    (invalid : pyexc) (db : enroll_db) : py (uuid * enroll_db) :=
  match consume_token (env_now E) (er_token q) (ed_tokens db) with
  | None => Err invalid
  | Some (token_id, tenant, tokens) =>
      if negb (host_fits q) then Err DataError
      else
        let hid := env_uuid4 E (length (ed_hosts db)) in
        let host := mkHost hid tenant (er_hostname q) (er_os_family q) (er_agent_version q) None H_PENDING None
                      (er_os_version q) (er_os_platform q) (er_os_arch q) None (Some (env_now E)) None in
        let db := mkEnrollDb tokens (ed_hosts db ++ [host]) (ed_rules db) (ed_alerts db) (ed_audit db) in
        let db := detect_reenrollment E window_s (er_hostname q) (er_os_family q) hid (env_now E) source source_ip db in
        match sign_csr (er_csr q) (uuid_str hid) (er_hostname q) with
        | None => Err ValueError
        | Some fingerprint =>
            Ok (hid,
                mkEnrollDb (bind_token_to_host token_id hid (ed_tokens db))
                  (map (λ h, if host_id h =? hid then set_host_fingerprint fingerprint h else h) (ed_hosts db))
                  (ed_rules db) (ed_alerts db)
                  (record (env_audit_key E) None "host.enroll" (Some "host") (Some (uuid_str hid)) (Some payload)
                     audit_ip (Some tenant) (env_now E) (env_uuid4 E (length (log (ed_audit db)))) (ed_audit db)))
        end
  end.

Definition OsFamily_value (o : OsFamily) : str :=
  match o with WINDOWS => "windows" | LINUX => "linux" | MACOS => "macos" end.

(** [POST /api/enrollment/enroll]; the schema bounds the hostname. *)
Definition enroll_rest (client : option str) (q : enroll_request) (db : enroll_db) : py (uuid * enroll_db) :=
  if negb (nonempty (er_hostname q) && (String.length (er_hostname q) <=? 255)%nat) then Err (HTTPException 422)
  else enroll_core q "rest" client client
         [("hostname", PStr (er_hostname q)); ("os_family", PStr (OsFamily_value (er_os_family q)))]
         (HTTPException 400) db.

(** [Enroll] over gRPC: absent strings are empty, and any failure after the first
    checks is answered [INTERNAL] by the caller, except the ones it aborts with
    itself. *)
Definition none_if_empty (s : str) : option str := if nonempty s then Some s else None.
Definition os_of (family : str) : option OsFamily :=
  match lower family with "windows" => Some WINDOWS | "linux" => Some LINUX | "macos" => Some MACOS | _ => None end.

Definition enroll_grpc (peer : option str) (token csr hostname os_family os_version os_platform os_arch agent_version : str)
    (db : enroll_db) : py (uuid * enroll_db) :=
  if negb (nonempty token) || negb (nonempty csr) || negb (nonempty hostname) then Err (RpcAbort "INVALID_ARGUMENT")
  else match consume_token (env_now E) token (ed_tokens db) with
  | None => Err (RpcAbort "PERMISSION_DENIED")
  | Some _ =>
      match os_of os_family with
      | None => Err (RpcAbort "INVALID_ARGUMENT")
      | Some os =>
          match enroll_core (mkEnroll token hostname os (none_if_empty os_version) (none_if_empty os_platform)
                               (none_if_empty os_arch) (none_if_empty agent_version) csr)
                  "grpc" peer None [("via", PStr "grpc"); ("hostname", PStr hostname)]
                  (RpcAbort "PERMISSION_DENIED") db with
          | Err (RpcAbort c) => Err (RpcAbort c)
          | Err _ => Err (RpcAbort "INTERNAL")
          | r => r
          end
      end
  end.
End enroll.

(** ** A token enrolls one host *)

(** No token with this hash can be consumed any more. *)
Definition spent (th : str) (tokens : list EnrollmentToken) : Prop :=
  ∀ t, t ∈ tokens → et_token_hash t = th → et_used_at t ≠ None.
Definition hashes_unique (tokens : list EnrollmentToken) : Prop := NoDup (map et_token_hash tokens).

Lemma consume_ok now raw tokens id tenant tokens' :
  consume_token now raw tokens = Some (id, tenant, tokens') →
  ∃ t, t ∈ tokens ∧ token_live now (hash_enrollment_token raw) t = true ∧ id = et_id t ∧ tenant = et_tenant_id t ∧
    tokens' = map (λ t, if token_live now (hash_enrollment_token raw) t then use_token now t else t) tokens.
Proof.
  unfold consume_token. destruct (List.find _ _) as [t|] eqn:Hf; [|done]. intros [= <- <- <-].
  apply List.find_some in Hf as [Hin Hl]. apply list_elem_of_In in Hin. eauto 10.
Qed.

Lemma spent_none th now raw tokens : spent th tokens → hash_enrollment_token raw = th → consume_token now raw tokens = None.
Proof.
  intros Hs <-. unfold consume_token. destruct (List.find _ _) as [t|] eqn:Hf; [|done].
  apply List.find_some in Hf as [Hin Hl]. apply list_elem_of_In in Hin. unfold token_live in Hl.
  rewrite !andb_true_iff in Hl. destruct Hl as [[Hh Hu] _].
  exfalso. apply (Hs t Hin); [by apply String.eqb_eq|]. by destruct (et_used_at t).
Qed.

Lemma token_map_hash (f : EnrollmentToken → EnrollmentToken) tokens :
  (∀ t, et_token_hash (f t) = et_token_hash t) → map et_token_hash (map f tokens) = map et_token_hash tokens.
Proof. intros Hf. rewrite map_map. apply map_ext. done. Qed.

Lemma consume_spends now raw tokens id tenant tokens' :
  hashes_unique tokens → consume_token now raw tokens = Some (id, tenant, tokens') →
  spent (hash_enrollment_token raw) tokens' ∧ hashes_unique tokens'.
Proof.
  intros Hu (t & Hin & Hl & -> & -> & ->)%consume_ok. split.
  - intros t' (x & -> & Hx)%list_elem_of_fmap Hh.
    assert (et_token_hash x = hash_enrollment_token raw) as Hxh.
    { by destruct (token_live _ _ x) in Hh. }
    assert (x = t) as ->.
    { apply (NoDup_key_inj et_token_hash tokens); [done..|]. rewrite Hxh. unfold token_live in Hl.
      rewrite !andb_true_iff in Hl. symmetry. by apply String.eqb_eq, Hl. }
    by rewrite Hl.
  - unfold hashes_unique. rewrite token_map_hash; [done|]. intros x. by destruct (token_live _ _ x).
Qed.

Lemma spent_map th (f : EnrollmentToken → EnrollmentToken) tokens :
  (∀ t, et_token_hash (f t) = et_token_hash t) → (∀ t, et_used_at t ≠ None → et_used_at (f t) ≠ None) →
  spent th tokens → spent th (map f tokens).
Proof.
  intros Hh Hu Hs t' (t & -> & Hin)%list_elem_of_fmap. rewrite Hh. intros Ht. apply Hu. by apply Hs.
Qed.

(** The operations on the enrollment tables, each in its own transaction. *)
Inductive enroll_op :=
| OpRest (E : env) (client : option str) (q : enroll_request)
| OpGrpc (E : env) (peer : option str) (token csr hostname os_family os_version os_platform os_arch agent_version : str)
| OpCreate (E : env) (plaintext : str) (label : option str) (ttl_hours : Z) (tenant : option uuid) (actor : Actor)
| OpRevoke (E : env) (token_id : uuid) (actor : Actor).

Section ops.
Context (window_s : Z) (sign_csr : str → str → str → option str).

Definition apply_op (o : enroll_op) (db : enroll_db) : py enroll_db :=
  match o with
  | OpRest E client q => snd <$> enroll_rest E window_s sign_csr client q db
  | OpGrpc E peer token csr hn f v p a av => snd <$> enroll_grpc E window_s sign_csr peer token csr hn f v p a av db
  | OpCreate E plaintext label ttl tenant actor => create_token E plaintext label ttl tenant actor db
  | OpRevoke E tid actor => revoke_token E tid actor db
  end.
Definition run_op (db : enroll_db) (o : enroll_op) : enroll_db :=
  match apply_op o db with Ok db' => db' | Err _ => db end.

(** The token an operation tries to enroll with; the token one mints. *)
Definition enrolls_with (o : enroll_op) : option str :=
  match o with OpRest _ _ q => Some (er_token q) | OpGrpc _ _ t _ _ _ _ _ _ _ => Some t | _ => None end.
Definition mints (o : enroll_op) : option str :=
  match o with OpCreate _ plaintext _ _ _ _ => Some plaintext | _ => None end.

Lemma detect_tokens E hostname os hid now source ip db :
  ed_tokens (detect_reenrollment E window_s hostname os hid now source ip db) = ed_tokens db.
Proof. unfold detect_reenrollment. destruct (prior_host _ _ _ _) as [h|]; [|done]. by destruct (host_enrolled_at h). Qed.

Lemma enroll_core_tokens E q source ip ip' payload inv db hid db' :
  enroll_core E window_s sign_csr q source ip ip' payload inv db = Ok (hid, db') →
  ∃ tid tenant tokens, consume_token (env_now E) (er_token q) (ed_tokens db) = Some (tid, tenant, tokens) ∧
    ed_tokens db' = bind_token_to_host tid hid tokens.
Proof.
  unfold enroll_core. destruct (consume_token _ _ _) as [[[tid tenant] tokens]|]; [|done].
  destruct (negb _); [done|]. cbv zeta. destruct (sign_csr _ _ _); [|done]. intros [= <- <-]. cbn [ed_tokens].
  rewrite detect_tokens. eauto.
Qed.

Lemma bind_spent th tid hid tokens : spent th tokens → spent th (bind_token_to_host tid hid tokens).
Proof. apply spent_map; intros t; by destruct (et_id t =? tid). Qed.
Lemma bind_unique tid hid tokens : hashes_unique tokens → hashes_unique (bind_token_to_host tid hid tokens).
Proof.
  unfold hashes_unique, bind_token_to_host. rewrite token_map_hash; [done|]. intros t. by destruct (et_id t =? tid).
Qed.

(** An operation that enrolls has gone through [enroll_core]. *)
Lemma enroll_op_core o db db' :
  apply_op o db = Ok db' → is_Some (enrolls_with o) →
  ∃ E raw tid tenant hid tokens, enrolls_with o = Some raw ∧
    consume_token (env_now E) raw (ed_tokens db) = Some (tid, tenant, tokens) ∧
    ed_tokens db' = bind_token_to_host tid hid tokens.
Proof.
  destruct o; simpl; intros H [raw Hraw]; try done; injection Hraw as <-.
  - destruct (enroll_rest _ _ _ _ _ _) as [[hid db1]|] eqn:He; [|done]. injection H as <-.
    unfold enroll_rest in He. destruct (negb _); [done|].
    apply enroll_core_tokens in He as (tid & tenant & tokens & Hc & Ht). eauto 10.
  - destruct (enroll_grpc _ _ _ _ _ _ _ _ _ _ _ _ _) as [[hid db1]|] eqn:He; [|done]. injection H as <-.
    unfold enroll_grpc in He. destruct (_ || _); [done|]. destruct (consume_token _ _ _) in He; [|done].
    destruct (os_of os_family); [|done]. destruct (enroll_core _ _ _ _ _ _ _ _ _ _) as [[hid' db2]|[]] eqn:Hc in He; try done.
    injection He as <- <-. apply enroll_core_tokens in Hc as (tid & tenant & tokens & Hc & Ht). eauto 10.
Qed.

Lemma consume_keeps th now raw tokens id tenant tokens' :
  consume_token now raw tokens = Some (id, tenant, tokens') →
  (spent th tokens → spent th tokens') ∧ (hashes_unique tokens → hashes_unique tokens').
Proof.
  intros (t & Hin & Hl & -> & -> & ->)%consume_ok. split.
  - apply spent_map; intros x; by destruct (token_live _ _ x).
  - unfold hashes_unique. rewrite token_map_hash; [done|]. intros x. by destruct (token_live _ _ x).
Qed.

Lemma run_op_keeps th o db :
  (∀ plaintext, mints o = Some plaintext → hash_enrollment_token plaintext ≠ th) →
  (spent th (ed_tokens db) → spent th (ed_tokens (run_op db o))) ∧
  (hashes_unique (ed_tokens db) → hashes_unique (ed_tokens (run_op db o))).
Proof.
  intros Hm. unfold run_op. destruct (apply_op o db) as [db'|] eqn:Ho; [|done].
  destruct (enrolls_with o) as [raw|] eqn:He.
  - apply enroll_op_core in Ho as (E & raw' & tid & tenant & hid & tokens & _ & Hc & ->); [|by rewrite He].
    destruct (consume_keeps th _ _ _ _ _ _ Hc). auto using bind_spent, bind_unique.
  - destruct o as [| |E plaintext label ttl tenant actor|E tid actor]; try done; simpl in Ho.
    + unfold create_token in Ho. destruct (negb _); [done|]. destruct (negb _); [done|]. destruct (_ && _); [done|].
      destruct (existsb _ _) eqn:Hex; [done|]. injection Ho as <-. cbn [ed_tokens]. split.
      * intros Hs t [Ht|Ht]%elem_of_app; [by apply Hs|]. apply list_elem_of_singleton in Ht as ->. simpl.
        intros Hh. by destruct (Hm plaintext eq_refl).
      * unfold hashes_unique. rewrite map_app. intros Hu. apply NoDup_app. split_and!; [done| |apply NoDup_singleton].
        intros h (t & -> & Ht)%list_elem_of_fmap Hx. apply list_elem_of_singleton in Hx. simpl in Hx.
        apply not_true_iff_false in Hex. apply Hex, existsb_exists. exists t. split; [by apply list_elem_of_In|].
        by apply String.eqb_eq.
    + unfold revoke_token in Ho. destruct (negb _); [done|]. destruct (List.find _ _); [|done]. injection Ho as <-.
      cbn [ed_tokens]. split.
      * intros Hs t [Ht _]%elem_of_filterb. by apply Hs.
      * intros Hu. by apply NoDup_map_filterb.
Qed.

Lemma run_ops_keep th ops db :
  (∀ o plaintext, o ∈ ops → mints o = Some plaintext → hash_enrollment_token plaintext ≠ th) →
  (spent th (ed_tokens db) → spent th (ed_tokens (foldl run_op db ops))) ∧
  (hashes_unique (ed_tokens db) → hashes_unique (ed_tokens (foldl run_op db ops))).
Proof.
  revert db. induction ops as [|o ops IH]; intros db H; [done|]. simpl.
  destruct (IH (run_op db o)) as [H1 H2]; [set_solver|]. destruct (run_op_keeps th o db) as [H3 H4]; [set_solver|]. auto.
Qed.
End ops.

(** C37: an enrollment token enrolls one host.  Once an agent has enrolled with
    it, over REST or gRPC, every further attempt with it fails, on either
    transport, whatever other operations come in between, unless a token with
    the same hash is minted again. *)
Theorem token_enrolls_once window_s sign_csr o ops o' raw db db' :
  hashes_unique (ed_tokens db) → enrolls_with o = Some raw → enrolls_with o' = Some raw →
  apply_op window_s sign_csr o db = Ok db' →
  (∀ p plaintext, p ∈ ops → mints p = Some plaintext → hash_enrollment_token plaintext ≠ hash_enrollment_token raw) →
  is_ok (apply_op window_s sign_csr o' (foldl (run_op window_s sign_csr) db' ops)) = false.
Proof.
  intros Hu Ho Ho' Hok Hm. apply enroll_op_core in Hok as (E & raw' & tid & tenant & hid & tokens & Hr & Hc & Ht); [|by rewrite Ho].
  rewrite Ho in Hr. injection Hr as <-. apply consume_spends in Hc as [Hs Hu']; [|done].
  destruct (run_ops_keep window_s sign_csr (hash_enrollment_token raw) ops db' Hm) as [Hkeep _].
  rewrite Ht in Hkeep. specialize (Hkeep (bind_spent _ _ _ _ Hs)).
  destruct (apply_op window_s sign_csr o' _) as [db2|] eqn:Hop; [|done].
  apply enroll_op_core in Hop as (E' & raw' & ? & ? & ? & ? & Hr & Hc' & _); [|by rewrite Ho'].
  rewrite Ho' in Hr. injection Hr as <-. by rewrite (spent_none _ _ _ _ Hkeep eq_refl) in Hc'.
Qed.

(** ** What an enrolled host is *)

Lemma detect_hosts E window_s hostname os hid now source ip db :
  ed_hosts (detect_reenrollment E window_s hostname os hid now source ip db) = ed_hosts db.
Proof. unfold detect_reenrollment. destruct (prior_host _ _ _ _) as [h|]; [|done]. by destruct (host_enrolled_at h). Qed.

Lemma enroll_rest_ok E window_s sign_csr client q db hid db' :
  enroll_rest E window_s sign_csr client q db = Ok (hid, db') →
  ∃ t fp, t ∈ ed_tokens db ∧ token_live (env_now E) (hash_enrollment_token (er_token q)) t = true ∧
    sign_csr (er_csr q) (uuid_str hid) (er_hostname q) = Some fp ∧
    let fresh := mkHost hid (et_tenant_id t) (er_hostname q) (er_os_family q) (er_agent_version q) None H_PENDING None
                   (er_os_version q) (er_os_platform q) (er_os_arch q) None (Some (env_now E)) None in
    ed_hosts db' = map (λ h, if host_id h =? hid then set_host_fingerprint fp h else h) (ed_hosts db ++ [fresh]).
Proof.
  unfold enroll_rest. destruct (negb _); [done|]. unfold enroll_core.
  destruct (consume_token _ _ _) as [[[tid tenant] tokens]|] eqn:Hc; [|done].
  apply consume_ok in Hc as (t & Hin & Hl & -> & -> & ->). destruct (negb _); [done|]. cbv zeta.
  destruct (sign_csr _ _ _) as [fp|] eqn:Hs; [|done]. intros [= <- <-]. cbn [ed_hosts].
  rewrite detect_hosts. eauto 10.
Qed.

(** The tables of the gateway with the hosts of the enrollment. *)
Definition as_jobs (db : enroll_db) : job_db := mkJobDb (mkScopeDb (ed_hosts db) [] []) [] [] [] [] (ed_audit db).

(** A host enrolls into the tenant of its token and no other, and from then
    on its stream is opened by the certificate that was issued to it, and by no
    other certificate for the same host id. *)
Theorem enrolled_host_admitted E window_s sign_csr client q db hid db' now :
  enroll_rest E window_s sign_csr client q db = Ok (hid, db') →
  hid ∉ map host_id (ed_hosts db) → uuid_ok hid →
  ∃ t h fp, t ∈ ed_tokens db ∧ et_token_hash t = hash_enrollment_token (er_token q) ∧ env_now E < et_expires_at t ∧
    sign_csr (er_csr q) (uuid_str hid) (er_hostname q) = Some fp ∧
    find_host (as_jobs db') hid = Some h ∧ host_tenant_id h = et_tenant_id t ∧ host_hostname h = er_hostname q ∧
    (∃ jobs, host_stream_open now (Some (uuid_str hid)) (Some fp) (as_jobs db') = Ok (hid, jobs)) ∧
    ∀ other, other ≠ "" → fp ≠ "" → other ≠ fp →
      host_stream_open now (Some (uuid_str hid)) (Some other) (as_jobs db') = Err (RpcAbort "UNAUTHENTICATED").
Proof.
  intros (t & fp & Hin & Hl & Hs & Hh)%enroll_rest_ok Hfresh Hok. cbv zeta in Hh.
  unfold token_live in Hl. rewrite !andb_true_iff in Hl. destruct Hl as [[Hth _] Hexp].
  apply String.eqb_eq in Hth. apply Z.ltb_lt in Hexp.
  set (fresh := mkHost hid _ _ _ _ _ _ _ _ _ _ _ _ _) in Hh.
  assert (find_host (as_jobs db') hid = Some (set_host_fingerprint fp fresh)) as Hf.
  { unfold find_host, hosts, as_jobs. cbn [jd_scope sc_hosts]. rewrite Hh. clear -Hfresh.
    induction (ed_hosts db) as [|h l IH]; simpl; [by rewrite ?Z.eqb_refl; simpl; rewrite ?Z.eqb_refl|].
    simpl in Hfresh. apply not_elem_of_cons in Hfresh as [Hne Hl].
    rewrite (proj2 (Z.eqb_neq (host_id h) hid)), (proj2 (Z.eqb_neq (host_id h) hid)) by congruence. by apply IH. }
  exists t, (set_host_fingerprint fp fresh), fp. split_and!; try done.
  - unfold host_stream_open. rewrite uuid_of_str_uuid_str, Hf by done. unfold check_host_admission.
    cbn [host_status fresh set_host_fingerprint set_host host_cert_fingerprint].
    rewrite bool_decide_false by done. rewrite String.eqb_refl, andb_false_r. eauto.
  - intros other Ho Hfp Hne. unfold host_stream_open. rewrite uuid_of_str_uuid_str, Hf by done.
    unfold check_host_admission. cbn [host_status fresh set_host_fingerprint set_host host_cert_fingerprint].
    rewrite bool_decide_false by done. destruct other as [|c other]; [done|]. destruct fp as [|c' fp]; [done|].
    apply String.eqb_neq in Hne. by rewrite Hne.
Qed.

(** ** Re-enrollment *)

Lemma enroll_rest_alerts E window_s sign_csr client q db hid db' h at_ :
  enroll_rest E window_s sign_csr client q db = Ok (hid, db') →
  List.filter (prior_match (er_hostname q) hid (env_now E - window_s * 1000000)) (ed_hosts db) = [h] →
  host_enrolled_at h = Some at_ →
  ed_alerts db' = ed_alerts db ++ [reenrollment_alert E (env_uuid4 E (length (ed_alerts db))) window_s (er_hostname q)
                                     (er_os_family q) hid (env_now E) "rest" client h at_].
Proof.
  unfold enroll_rest. destruct (negb _); [done|]. unfold enroll_core.
  destruct (consume_token _ _ _) as [[[tid tenant] tokens]|]; [|done]. destruct (negb _); [done|]. cbv zeta.
  destruct (sign_csr _ _ _); [|done]. intros [= <- <-] Hf Ha. cbn [ed_alerts].
  unfold detect_reenrollment, prior_host. cbn [ed_hosts]. cbv zeta. rewrite List.filter_app, Hf.
  set (fresh := mkHost _ _ _ _ _ _ _ _ _ _ _ _ _ _).
  assert (List.filter (prior_match (er_hostname q) (host_id fresh) (env_now E - window_s * 1000000)) [fresh] = []) as Hz.
  { simpl. unfold prior_match. simpl. by rewrite Z.eqb_refl, andb_false_r. }
  change (env_uuid4 E (length (ed_hosts db))) with (host_id fresh). rewrite Hz. cbn [app sort_by insert_by head].
  by rewrite Ha.
Qed.

(** The re-enrollment detector does not keep tenants apart: a host that
    enrolls with a token of one tenant raises an alert in another tenant, when
    that one has the only recent host of the same name; the alert shows the other
    tenant the new host. *)
Theorem reenrollment_crosses_tenants E window_s sign_csr client q db hid db' h at_ :
  enroll_rest E window_s sign_csr client q db = Ok (hid, db') →
  List.filter (prior_match (er_hostname q) hid (env_now E - window_s * 1000000)) (ed_hosts db) = [h] →
  host_enrolled_at h = Some at_ →
  ∃ a t, ed_alerts db' = ed_alerts db ++ [a] ∧ al_tenant_id a = host_tenant_id h ∧ al_host_id a = Some hid ∧
    t ∈ ed_tokens db ∧ et_token_hash t = hash_enrollment_token (er_token q) ∧
    ∃ n, n ∈ ed_hosts db' ∧ host_id n = hid ∧ host_tenant_id n = et_tenant_id t.
Proof.
  intros He Hf Ha. pose proof (enroll_rest_alerts _ _ _ _ _ _ _ _ _ _ He Hf Ha) as Hal.
  apply enroll_rest_ok in He as (t & fp & Hin & Hl & Hs & Hh). cbv zeta in Hh.
  unfold token_live in Hl. rewrite !andb_true_iff in Hl. destruct Hl as [[Hth _] _]. apply String.eqb_eq in Hth.
  eexists _, t. split_and!; [exact Hal|done..|]. rewrite Hh. set (fresh := mkHost hid _ _ _ _ _ _ _ _ _ _ _ _ _).
  exists (set_host_fingerprint fp fresh). split; [|done]. apply list_elem_of_fmap. exists fresh.
  split; [simpl; by rewrite Z.eqb_refl|set_solver].
Qed.

(** An administrator can revoke the enrollment tokens of any tenant. *)
Theorem revoke_crosses_tenants E t actor db :
  is_admin actor = true → t ∈ ed_tokens db → et_tenant_id t ≠ actor_tenant_id actor →
  ∃ db', revoke_token E (et_id t) actor db = Ok db' ∧ t ∉ ed_tokens db'.
Proof.
  intros Ha Hin _. unfold revoke_token. rewrite Ha. cbn [negb].
  destruct (List.find _ _) as [t'|] eqn:Hf; cycle 1.
  { apply list_elem_of_In in Hin. apply List.find_none with (x := t) in Hf; [|done]. by rewrite Z.eqb_refl in Hf. }
  eexists. split; [reflexivity|]. cbn [ed_tokens]. rewrite elem_of_filterb. intros [_ Hn].
  by rewrite Z.eqb_refl in Hn.
Qed.

(** ** Examples *)

Definition demo_sign (_ _ _ : str) : option str := Some "ab12".
Definition demo_old_host : Host :=
  mkHost 300 2 "web" LINUX None None H_ONLINE None None None None None (Some 1699999000000000) None.
Definition demo_enroll_db : enroll_db :=
  mkEnrollDb [mkToken 40 1 (hash_enrollment_token "enr_x") None 1800000000000000 None None None 0] [demo_old_host] [] []
    empty_db.
Definition demo_enroll_request : enroll_request := mkEnroll "enr_x" "web" LINUX None None None None "csr".
Definition demo_enrolled : py (uuid * enroll_db) :=
  enroll_rest demo_env 3600 demo_sign None demo_enroll_request demo_enroll_db.

Lemma demo_enrolled_ok : match demo_enrolled with Ok (hid, _) => hid = 1 | Err _ => False end.
Proof. vm_compute. reflexivity. Qed.

Lemma token_enrolls_once_witness :
  is_ok (apply_op 3600 demo_sign (OpRest demo_env None demo_enroll_request)
           (run_op 3600 demo_sign demo_enroll_db (OpRest demo_env None demo_enroll_request))) = false.
Proof.
  pose proof demo_enrolled_ok as Hd. destruct demo_enrolled as [[hid db']|] eqn:He; [|destruct Hd].
  unfold demo_enrolled in He.
  assert (apply_op 3600 demo_sign (OpRest demo_env None demo_enroll_request) demo_enroll_db = Ok db') as Hop.
  { cbn [apply_op]. by rewrite He. }
  unfold run_op. rewrite Hop.
  apply (token_enrolls_once 3600 demo_sign (OpRest demo_env None demo_enroll_request) []
           (OpRest demo_env None demo_enroll_request) "enr_x" demo_enroll_db db').
  - apply NoDup_singleton.
  - reflexivity.
  - reflexivity.
  - exact Hop.
  - intros p plaintext Hp. apply elem_of_nil in Hp. destruct Hp.
Defined.

Lemma enrolled_host_admitted_witness :
  ∃ db' jobs, demo_enrolled = Ok (1, db') ∧
    host_stream_open 5 (Some (uuid_str 1)) (Some "ab12") (as_jobs db') = Ok (1, jobs) ∧
    host_stream_open 5 (Some (uuid_str 1)) (Some "ff") (as_jobs db') = Err (RpcAbort "UNAUTHENTICATED").
Proof.
  pose proof demo_enrolled_ok as Hd. destruct demo_enrolled as [[hid db']|] eqn:He; [|destruct Hd]. subst hid.
  unfold demo_enrolled in He. exists db'.
  destruct (enrolled_host_admitted demo_env 3600 demo_sign None demo_enroll_request demo_enroll_db 1 db' 5 He)
    as (t & h & fp & _ & _ & _ & Hs & _ & _ & _ & (jobs & Hj) & Hno).
  - apply (bool_decide_unpack _). vm_compute. exact I.
  - unfold uuid_ok. lia.
  - injection Hs as <-. exists jobs. split; [reflexivity|]. split; [exact Hj|]. apply Hno; discriminate.
Defined.

Lemma reenrollment_crosses_tenants_witness :
  ∃ db' a, demo_enrolled = Ok (1, db') ∧ ed_alerts db' = [a] ∧ al_tenant_id a = 2 ∧ al_host_id a = Some 1.
Proof.
  pose proof demo_enrolled_ok as Hd. destruct demo_enrolled as [[hid db']|] eqn:He; [|destruct Hd]. subst hid.
  unfold demo_enrolled in He. exists db'.
  destruct (reenrollment_crosses_tenants demo_env 3600 demo_sign None demo_enroll_request demo_enroll_db 1 db'
              demo_old_host 1699999000000000 He) as (a & t & Ha & Ht & Hh & _).
  - reflexivity.
  - reflexivity.
  - exists a. split; [reflexivity|]. split; [exact Ha|]. split; [exact Ht|exact Hh].
Defined.

Lemma revoke_crosses_tenants_witness :
  ∃ db', revoke_token demo_env 40 (demo_admin 2) demo_enroll_db = Ok db'.
Proof.
  destruct (revoke_crosses_tenants demo_env
              (mkToken 40 1 (hash_enrollment_token "enr_x") None 1800000000000000 None None None 0) (demo_admin 2)
              demo_enroll_db) as (db' & H & _).
  - reflexivity.
  - by left.
  - discriminate.
  - exists db'. exact H.
Defined.
