(* ===== verification/Honeytokens.v ===== *)
(** * Honeytokens: decoys planted on the hosts

    services/honeytoken.py, api/honeytokens.py and the [honeytoken_hit] branch of
    grpc/services.py.  Each change sends the hosts it reaches the whole set of
    decoys that applies to them; a touched decoy comes back as a hit and raises a
    critical alert. *)

From Stdlib Require Import Ascii String.
From S2P Require Import Prelude PyStr PyVal PyJson PyTime Crypto PyText Models AuditChain Rollout Scoping Jobs.
From S2P Require Import Commands Fleet Enrollment.
Local Open Scope string_scope.
Local Open Scope list_scope.
Local Open Scope Z_scope.

(** ** The wire form of a decoy *)

(** [base64.b64encode]: the standard alphabet. *)
Definition std_char (c : ascii) : ascii :=
  if Ascii.eqb c "-" then "+"%char else if Ascii.eqb c "_" then "/"%char else c.
Definition b64encode (b : bytes) : str := string_map std_char (urlsafe_b64encode b).

Definition payload_bytes (t : Honeytoken) : bytes :=
  match ht_payload t with
  | [] => ""
  | d =>
      let as_json := utf8 (json_enc ", " ": " (sort_keys (PDict d))) in
      match get_none "body" d with
      | PStr body => match b64decode_validate body with Ok b => b | Err _ => as_json end
      | _ => as_json
      end
  end.

Definition spec_for (t : Honeytoken) : dict :=
  [("id", PStr (uuid_str (ht_id t))); ("kind", PStr (ht_kind t)); ("name", PStr (ht_name t));
   ("target_path", PStr (default "" (ht_target_path t))); ("payload_b64", PStr (b64encode (payload_bytes t)))].

(** ** The service *)

(** [ORDER BY name], by code point. *)
Fixpoint insert_token (t : Honeytoken) (l : list Honeytoken) : list Honeytoken :=
  match l with
  | [] => [t]
  | u :: l' => if String.leb (ht_name t) (ht_name u) then t :: l else u :: insert_token t l'
  end.
Definition sort_tokens (l : list Honeytoken) : list Honeytoken := foldr insert_token [] l.

Definition in_scope (tenant : uuid) (gids : list uuid) (t : Honeytoken) : bool :=
  (ht_tenant_id t =? tenant) && ht_enabled t && applies gids (ht_group t).
Definition effective_tokens_for_host (rows : list Honeytoken) (tenant : uuid) (gids : list uuid) : list Honeytoken :=
  sort_tokens (List.filter (in_scope tenant gids) rows).

Definition decoys_for (db : fleet_db) (h : Host) : list Honeytoken :=
  effective_tokens_for_host (fl_tokens db) (host_tenant_id h) (groups_of (scope db) (host_id h)).

Definition count_deployed (t : Honeytoken) : Honeytoken :=
  mkHoneytoken (ht_id t) (ht_tenant_id t) (ht_group t) (ht_kind t) (ht_name t) (ht_payload t) (ht_target_path t)
    (ht_enabled t) (ht_deployed_count t + 1) (ht_hit_count t).

Definition push_to_host (E : env) (user : option uuid) (db : fleet_db) (h : Host) : fleet_db :=
  match decoys_for db h with
  | [] => db
  | tokens =>
      let gids := groups_of (scope db) (host_id h) in
      let db := add_command E (host_tenant_id h) (host_id h) DEPLOY_HONEYTOKEN
                  [("specs", PList (map (λ t, PDict (spec_for t)) tokens))] user db in
      set_tokens (map (λ t, if in_scope (host_tenant_id h) gids t then count_deployed t else t) (fl_tokens db)) db
  end.
Definition tenant_hosts (s : scope_db) (tenant : uuid) (gid : option uuid) : list Host :=
  List.filter (λ h, (host_tenant_id h =? tenant) && in_edit_scope s gid h) (sc_hosts s).
Definition push_to_group (E : env) (tenant : uuid) (gid user : option uuid) (db : fleet_db) : fleet_db :=
  fold_left (push_to_host E user) (tenant_hosts (scope db) tenant gid) db.

(** ** The routes *)

Inductive HoneytokenKind := CREDS_IN_LSASS | FAKE_FILE | FAKE_REGKEY.
Definition HoneytokenKind_value (k : HoneytokenKind) : str :=
  match k with CREDS_IN_LSASS => "creds_in_lsass" | FAKE_FILE => "fake_file" | FAKE_REGKEY => "fake_regkey" end.

Record HoneytokenCreate := mkTokenCreate {
  tc_group : option uuid;
  tc_kind : HoneytokenKind;
  tc_name : str;
  tc_payload : dict;
  tc_target_path : option str;
  tc_enabled : bool
}.
Record HoneytokenUpdate := mkTokenUpdate {
  tu_kind : option HoneytokenKind;
  tu_name : option str;
  tu_payload : option dict;
  tu_target_path : option str;
  tu_enabled : option bool
}.

Definition same_name (tenant : uuid) (name : str) (t : Honeytoken) : bool :=
  (ht_tenant_id t =? tenant) && String.eqb (ht_name t) name.

Definition create_honeytoken (E : env) (b : HoneytokenCreate) (actor : Actor) (db : fleet_db) : py fleet_db :=
  if negb (is_admin actor) then Err (HTTPException 403)
  else if negb (text_ok 1 128 (tc_name b) && opt_ok (text_ok 0 1024) (tc_target_path b)) then Err (HTTPException 422)
  else
    dup ← scalar_one_or_none (List.filter (same_name (actor_tenant_id actor) (tc_name b)) (fl_tokens db));
    match dup with
    | Some _ => Err (HTTPException 409)
    | None =>
        if negb (group_fk db (tc_group b)) then Err IntegrityError
        else
          let t := mkHoneytoken (env_uuid4 E (length (fl_tokens db))) (actor_tenant_id actor) (tc_group b)
                     (HoneytokenKind_value (tc_kind b)) (tc_name b) (tc_payload b) (tc_target_path b) (tc_enabled b) 0 0 in
          let db := audited E actor "honeytoken.create" "honeytoken" (uuid_str (ht_id t))
                      (Some [("name", PStr (ht_name t)); ("kind", PStr (ht_kind t));
                             ("host_group_id", opt_uuid_str (ht_group t));
                             ("target_path", opt_str (ht_target_path t)); ("enabled", PBool (ht_enabled t))])
                      (set_tokens (fl_tokens db ++ [t]) db) in
          Ok (push_to_group E (actor_tenant_id actor) (tc_group b) (Some (actor_user_id actor)) db)
    end.

Definition find_token (db : fleet_db) (tid : uuid) : option Honeytoken := List.find (λ t, ht_id t =? tid) (fl_tokens db).
(** The token, or a 404 when it is another tenant's. *)
Definition own_token (db : fleet_db) (tid : uuid) (actor : Actor) : py Honeytoken :=
  match find_token db tid with
  | None => Err (HTTPException 404)
  | Some t => if ht_tenant_id t =? actor_tenant_id actor then Ok t else Err (HTTPException 404)
  end.

Definition patch_token (u : HoneytokenUpdate) (t : Honeytoken) : Honeytoken :=
  mkHoneytoken (ht_id t) (ht_tenant_id t) (ht_group t)
    (match tu_kind u with Some k => HoneytokenKind_value k | None => ht_kind t end)
    (default (ht_name t) (tu_name u)) (default (ht_payload t) (tu_payload u))
    (match tu_target_path u with Some p => Some p | None => ht_target_path t end)
    (default (ht_enabled t) (tu_enabled u)) (ht_deployed_count t) (ht_hit_count t).
Definition token_changes (u : HoneytokenUpdate) : dict :=
  let entry {A} (k : str) (f : A → pyval) (o : option A) : dict :=
    match o with Some x => [(k, f x)] | None => [] end in
  entry "kind" (λ k, PStr (HoneytokenKind_value k)) (tu_kind u) ++ entry "name" PStr (tu_name u) ++
  entry "payload_json" (λ _, PStr "<updated>") (tu_payload u) ++ entry "target_path" PStr (tu_target_path u) ++
  entry "enabled" PBool (tu_enabled u).

Definition update_honeytoken (E : env) (tid : uuid) (u : HoneytokenUpdate) (actor : Actor) (db : fleet_db) : py fleet_db :=
  if negb (is_admin actor) then Err (HTTPException 403)
  else if negb (opt_ok (text_ok 1 128) (tu_name u) && opt_ok (text_ok 0 1024) (tu_target_path u))
  then Err (HTTPException 422)
  else
    t ← own_token db tid actor;
    dup ← match tu_name u with
          | Some n =>
              if String.eqb n (ht_name t) then Ok None
              else scalar_one_or_none
                     (List.filter (λ x, same_name (actor_tenant_id actor) n x && negb (ht_id x =? ht_id t)) (fl_tokens db))
          | None => Ok None
          end;
    match dup with
    | Some _ => Err (HTTPException 409)
    | None =>
        let db := audited E actor "honeytoken.update" "honeytoken" (uuid_str tid)
                    (Some [("changes", PDict (token_changes u))])
                    (set_tokens (map (λ x, if ht_id x =? tid then patch_token u x else x) (fl_tokens db)) db) in
        Ok (push_to_group E (actor_tenant_id actor) (ht_group t) (Some (actor_user_id actor)) db)
    end.

Definition delete_honeytoken (E : env) (tid : uuid) (actor : Actor) (db : fleet_db) : py fleet_db :=
  if negb (is_admin actor) then Err (HTTPException 403)
  else
    t ← own_token db tid actor;
    let db := audited E actor "honeytoken.delete" "honeytoken" (uuid_str tid)
                (Some [("name", PStr (ht_name t)); ("kind", PStr (ht_kind t));
                       ("host_group_id", opt_uuid_str (ht_group t))])
                (set_tokens (List.filter (λ x, negb (ht_id x =? tid)) (fl_tokens db)) db) in
    Ok (push_to_group E (actor_tenant_id actor) (ht_group t) (Some (actor_user_id actor)) db).

(** ** Hits *)

Record HoneytokenHit := mkHit {
  hh_id : uuid;
  hh_tenant_id : uuid;
  hh_token_id : uuid;
  hh_host_id : uuid;
  hh_at : datetime;
  hh_pid : option Z;
  hh_executable : option str;
  hh_alert_id : uuid
}.
Record decoy_db := mkDecoyDb {
  de_fleet : fleet_db;
  de_hits : list HoneytokenHit;
  de_rules : list Rule;
  de_alerts : list Alert
}.

Definition HONEYTOKEN_HIT_RULE_ID : uuid := 0xa0a0a0a0000000000000000000000013.
Definition honeytoken_rule : Rule :=
  mkRule HONEYTOKEN_HIT_RULE_ID DEFAULT_TENANT_ID IOC "Honeytoken touched" None CRITICAL ALERT true None None 1 None false.

Definition count_hit (t : Honeytoken) : Honeytoken :=
  mkHoneytoken (ht_id t) (ht_tenant_id t) (ht_group t) (ht_kind t) (ht_name t) (ht_payload t) (ht_target_path t)
    (ht_enabled t) (ht_deployed_count t) (ht_hit_count t + 1).

(** [None] when the token or the host is gone; a summary or a process id that does
    not fit its column is refused by the database. *)
Definition record_hit (E : env) (tid hid : uuid) (pid : option Z) (executable : option str) (hit_at : option datetime)
    (db : decoy_db) : py (option HoneytokenHit * decoy_db) :=
  match find_token (de_fleet db) tid, find_host (fl_jobs (de_fleet db)) hid with
  | Some t, Some h =>
      let when := default (env_now E) hit_at in
      let alert := mkAlert (env_uuid4 E (length (de_alerts db))) (ht_tenant_id t) (Some (host_id h))
                     HONEYTOKEN_HIT_RULE_ID CRITICAL ALERT NEW ("Honeytoken touched: " +:+ str_repr (ht_name t))
                     (Some [("honeytoken_id", PStr (uuid_str (ht_id t))); ("honeytoken_name", PStr (ht_name t));
                            ("honeytoken_kind", PStr (ht_kind t)); ("target_path", opt_str (ht_target_path t));
                            ("process_pid", match pid with Some p => PInt p | None => PNone end);
                            ("process_executable", opt_str executable); ("host_id", PStr (uuid_str (host_id h)));
                            ("hit_at", PStr (isoformat when)); ("detector", PStr "honeytoken_hit_v1")])
                     None None None (env_now E) None None None None 1 (env_now E) in
      let hit := mkHit (env_uuid4 E (length (de_hits db))) (ht_tenant_id t) (ht_id t) (host_id h) when pid executable
                   (al_id alert) in
      if text_ok 0 512 (al_summary alert) && opt_ok (λ p, (p <=? 2147483647) && (-2147483648 <=? p)) pid then
        Ok (Some hit,
            mkDecoyDb (set_tokens (map (λ x, if ht_id x =? tid then count_hit x else x) (fl_tokens (de_fleet db))) (de_fleet db))
              (de_hits db ++ [hit]) (ensure_rule honeytoken_rule (de_rules db)) (de_alerts db ++ [alert]))
      else Err DataError
  | _, _ => Ok (None, db)
  end.

(** The message: token id, process id, executable, and the time already converted
    from its seconds and nanoseconds ([None] for the zero timestamp). *)
Definition handle_honeytoken_hit (E : env) (hid : uuid) (honeytoken_id : str) (process_pid : Z) (executable : str)
    (hit_at : option datetime) (db : decoy_db) : decoy_db :=
  match uuid_of_str honeytoken_id with
  | None => db
  | Some tid =>
      match record_hit E tid hid (if process_pid =? 0 then None else Some process_pid)
              (if nonempty executable then Some executable else None) hit_at db with
      | Ok (_, db') => db'
      | Err _ => db
      end
  end.

(** ** The decoy the agent plants is the one that was meant *)

Lemma std_char_spec v :
  0 ≤ v < 64 → b64_std_value (std_char (b64_char v)) = Some v ∧ in_alphabet (std_char (b64_char v)) = true.
Proof.
  intros Hv. assert (v ∈ seqZ 0 64) as Hin by (apply elem_of_seqZ; lia).
  assert (forallb (λ v, bool_decide (b64_std_value (std_char (b64_char v)) = Some v) && in_alphabet (std_char (b64_char v)))
    (seqZ 0 64) = true) as HF by (vm_compute; done).
  rewrite forallb_forall in HF. specialize (HF v). rewrite <- list_elem_of_In in HF.
  specialize (HF Hin). by rewrite andb_true_iff, bool_decide_eq_true in HF.
Qed.
Lemma a2b_strict_step quad left_ pads v s :
  0 ≤ v < 64 →
  a2b_strict quad left_ pads false (String (std_char (b64_char v)) s) =
    match quad with
    | 0%nat => a2b_strict 1 v 0 false s
    | 1%nat => r ← a2b_strict 2 (v mod 16) 0 false s; Ok (String (byte_of_Z (left_ * 4 + v / 16)) r)
    | 2%nat => r ← a2b_strict 3 (v mod 4) 0 false s; Ok (String (byte_of_Z (left_ * 16 + v / 4)) r)
    | _ => r ← a2b_strict 0 0 0 false s; Ok (String (byte_of_Z (left_ * 64 + v)) r)
    end.
Proof.
  intros Hv. destruct (std_char_spec v Hv) as [H1 H2]. cbn [a2b_strict]. by rewrite (in_alphabet_eq _ H2), H1.
Qed.
Lemma a2b_strict_encode b : a2b_strict 0 0 0 false (b64encode b) = Ok b.
Proof.
  unfold b64encode. induction b as [|x|x y|x y z b IH] using bytes3_ind; [done|..];
    cbn [urlsafe_b64encode string_map]; rewrite !a2b_strict_step by b64_arith; cbn [a2b_strict mbind res_bind];
    rewrite ?IH; cbn; repeat f_equal; apply byte_eq; b64_arith.
Qed.
Lemma b64encode_ascii b :
  string_forallb (λ c, (code c <? 128)%N) (b64encode b) = true ∧
  match b64encode b with String c _ => Ascii.eqb c "=" = false | "" => True end.
Proof.
  assert (∀ v, 0 ≤ v < 64 → (code (std_char (b64_char v)) <? 128)%N = true ∧ Ascii.eqb (std_char (b64_char v)) "=" = false) as H.
  { intros v Hv. destruct (std_char_spec v Hv) as [_ Ha]. split; [|by apply in_alphabet_eq].
    unfold in_alphabet in Ha. by apply andb_true_iff in Ha as [[_ ->]%andb_true_iff _]. }
  unfold b64encode. induction b as [|x|x y|x y z b [IH _]] using bytes3_ind; [done|..];
    cbn [urlsafe_b64encode string_map string_forallb]; (split; [|apply H; b64_arith]);
    rewrite !(λ v Hv, proj1 (H v Hv)) by b64_arith; [done..|]. by rewrite IH.
Qed.
(** [b64decode(b64encode(b), validate=True) == b] *)
Lemma b64encode_roundtrip b : b64decode_validate (b64encode b) = Ok b.
Proof.
  destruct (b64encode_ascii b) as [Ha Hc]. pose proof (a2b_strict_encode b) as Hd.
  unfold b64decode_validate. destruct (b64encode b) as [|c s]; [done|]. rewrite Ha, Hd.
  destruct c as [[] [] [] [] [] [] [] []]; done.
Qed.

(** What the agent is to plant for a token. *)
Definition decoy (t : Honeytoken) : pb_spec :=
  mkPbSpec (uuid_str (ht_id t)) (ht_kind t) (ht_name t) (default "" (ht_target_path t)) (payload_bytes t).

Lemma uuid_str_nonempty u : nonempty (uuid_str u) = true.
Proof. unfold uuid_str. by destruct (digits_fixed 16 8 _). Qed.

Lemma honeytoken_spec_for t : nonempty (ht_kind t) = true → honeytoken_spec (PDict (spec_for t)) = Some (decoy t).
Proof.
  intros Hk. unfold honeytoken_spec.
  rewrite (str_or_empty_get "id" _ (uuid_str (ht_id t))) by done.
  rewrite (str_or_empty_get "kind" _ (ht_kind t)) by done.
  rewrite (str_or_empty_get "name" _ (ht_name t)) by done.
  rewrite (str_or_empty_get "target_path" _ (default "" (ht_target_path t))) by done.
  rewrite uuid_str_nonempty, Hk. cbn [negb orb].
  change (get_none "payload_b64" (spec_for t)) with (PStr (b64encode (payload_bytes t))). cbn beta iota.
  unfold decoy. pose proof (b64encode_roundtrip (payload_bytes t)) as Hr.
  destruct (b64encode (payload_bytes t)) as [|c s]; cbn [nonempty]; [by injection Hr as <-|by rewrite Hr].
Qed.

Definition specs_payload (tokens : list Honeytoken) : dict := [("specs", PList (map (λ t, PDict (spec_for t)) tokens))].
Definition decoys_carry (d : dict) (v : list pb_spec) : Prop :=
  ∃ tokens, d = specs_payload tokens ∧ v = map decoy tokens ∧ ∀ t, t ∈ tokens → nonempty (ht_kind t) = true.
Definition decoys_read (pb : pb_command) : option (list pb_spec) :=
  match pb with PbDeployHoneytoken specs => Some specs | _ => None end.
Lemma decoys_read_back c v :
  cmd_kind c = DEPLOY_HONEYTOKEN → decoys_carry (cmd_payload c) v →
  ∃ pb, command_to_pb c = Ok (Some pb) ∧ decoys_read pb = Some v.
Proof.
  intros Hk (tokens & Hp & -> & Hok). exists (PbDeployHoneytoken (map decoy tokens)). split; [|done].
  unfold command_to_pb. rewrite Hk, Hp. rewrite (items_of_get "specs" _ (map (λ t, PDict (spec_for t)) tokens)) by done.
  cbn [mbind res_bind]. do 3 f_equal. clear Hp. induction tokens as [|t l IH]; [done|]. cbn [map omap list_omap].
  rewrite honeytoken_spec_for by (apply Hok; by left). rewrite IH; [done|]. intros u Hu. apply Hok. by right.
Qed.
#[global] Instance decoys_wire : WireSync (list pb_spec) := {|
  wire_kind := DEPLOY_HONEYTOKEN;
  wire_about _ := true;
  wire_carries := decoys_carry;
  wire_read := decoys_read;
  wire_selected _ _ _ := eq_refl;
  wire_read_back := decoys_read_back
|}.

(** ** The counters do not change what is deployed *)

Lemma sort_tokens_perm l : sort_tokens l ≡ₚ l.
Proof.
  assert (∀ t l, insert_token t l ≡ₚ t :: l) as Hi.
  { clear. intros t l. induction l as [|u l IH]; [done|]. simpl. case_match; [done|]. rewrite IH. constructor. }
  induction l as [|t l IH]; [done|]. simpl. by rewrite Hi, IH.
Qed.
Lemma sort_tokens_map f l : (∀ t, ht_name (f t) = ht_name t) → sort_tokens (map f l) = map f (sort_tokens l).
Proof.
  intros Hn. assert (∀ t l, insert_token (f t) (map f l) = map f (insert_token t l)) as Hi.
  { intros t l'. induction l' as [|u l' IH]; [done|]. simpl. rewrite !Hn. case_match; [done|]. simpl. by rewrite IH. }
  induction l as [|t l IH]; [done|]. simpl. by rewrite IH, Hi.
Qed.

(** The same tokens up to the counters. *)
Definition same_decoys (rows rows' : list Honeytoken) : Prop :=
  ∃ f, rows' = map f rows ∧ ∀ t, ht_name (f t) = ht_name t ∧ spec_for (f t) = spec_for t ∧ decoy (f t) = decoy t ∧
    ht_kind (f t) = ht_kind t ∧ ht_id (f t) = ht_id t ∧ ∀ tenant gids, in_scope tenant gids (f t) = in_scope tenant gids t.

Lemma same_decoys_effective rows rows' tenant gids :
  same_decoys rows rows' →
  ∃ f, effective_tokens_for_host rows' tenant gids = map f (effective_tokens_for_host rows tenant gids) ∧
    ∀ t, spec_for (f t) = spec_for t ∧ decoy (f t) = decoy t ∧ ht_kind (f t) = ht_kind t.
Proof.
  intros (f & -> & Hf). exists f. split; [|naive_solver]. unfold effective_tokens_for_host.
  rewrite <- sort_tokens_map by naive_solver. f_equal. induction rows as [|t l IH]; [done|]. simpl.
  destruct (Hf t) as (_ & _ & _ & _ & _ & ->). destruct (in_scope tenant gids t); simpl; by rewrite IH.
Qed.
Lemma same_decoys_refl rows : same_decoys rows rows.
Proof. exists id. by rewrite map_id. Qed.
Lemma same_decoys_trans a b c : same_decoys a b → same_decoys b c → same_decoys a c.
Proof.
  intros (f & -> & Hf) (g & -> & Hg). exists (g ∘ f). rewrite map_map. split; [done|]. intros t.
  destruct (Hf t) as (Hf1 & Hf2 & Hf3 & Hf4 & Hf5 & Hft), (Hg (f t)) as (Hg1 & Hg2 & Hg3 & Hg4 & Hg5 & Hgt).
  simpl. split_and!; intros; congruence.
Qed.
Lemma same_decoys_counted (p : Honeytoken → bool) rows : same_decoys rows (map (λ t, if p t then count_deployed t else t) rows).
Proof. eexists. split; [reflexivity|]. intros t. simpl. by destruct (p t). Qed.

(** ** Pushing *)

Lemma decoy_host_told E user h db :
  let db' := push_to_host E user db h in
  scope db' = scope db ∧ same_decoys (fl_tokens db) (fl_tokens db') ∧
  ∃ new, commands db' = commands db ++ new ∧
    map told new = match decoys_for db h with
                   | [] => []
                   | tokens => [(host_id h, DEPLOY_HONEYTOKEN, specs_payload tokens)]
                   end.
Proof.
  cbn zeta. unfold push_to_host. destruct (decoys_for db h) as [|t l].
  - split; [done|]. split; [apply same_decoys_refl|]. exists []. by rewrite app_nil_r.
  - split; [done|]. split; [apply same_decoys_counted|]. eexists [_]. split; [reflexivity|]. reflexivity.
Qed.

Definition deploy_items (db : fleet_db) (h : Host) : list (uuid * CommandKind * dict) :=
  match decoys_for db h with [] => [] | tokens => [(host_id h, DEPLOY_HONEYTOKEN, specs_payload tokens)] end.
Lemma deploy_items_same db db' h :
  scope db' = scope db → same_decoys (fl_tokens db) (fl_tokens db') → deploy_items db' h = deploy_items db h.
Proof.
  intros Hs Hd. unfold deploy_items, decoys_for. rewrite Hs.
  destruct (same_decoys_effective _ _ (host_tenant_id h) (groups_of (scope db) (host_id h)) Hd) as (f & -> & Hf).
  destruct (effective_tokens_for_host _ _ _) as [|t l]; [done|]. cbn [map]. unfold specs_payload. do 4 f_equal.
  rewrite <- (map_cons f), map_map. f_equal. apply map_ext. intros x. by destruct (Hf x) as (-> & _).
Qed.

Lemma decoy_push_told E user hosts db :
  let db' := fold_left (push_to_host E user) hosts db in
  scope db' = scope db ∧ same_decoys (fl_tokens db) (fl_tokens db') ∧
  ∃ new, commands db' = commands db ++ new ∧ map told new = flat_map (deploy_items db) hosts.
Proof.
  revert db. induction hosts as [|h hosts IH]; intros db; cbn zeta.
  - split; [done|]. split; [apply same_decoys_refl|]. exists []. by rewrite app_nil_r.
  - cbn [fold_left]. destruct (decoy_host_told E user h db) as (Hs1 & Hd1 & new1 & Hc1 & Ht1).
    destruct (IH (push_to_host E user db h)) as (Hs & Hd & new & Hc & Ht).
    split; [by rewrite Hs|]. split; [by eapply same_decoys_trans|].
    exists (new1 ++ new). rewrite Hc, Hc1, <- app_assoc. split; [done|].
    rewrite map_app, Ht1, Ht. cbn [flat_map]. f_equal. apply flat_map_ext. intros x. by apply deploy_items_same.
Qed.

(** What a push leaves a host with: the whole set that applies to it, and nothing
    new when none does. *)
Lemma decoy_push_view E tenant gid user db h :
  hosts_ok (scope db) → (∀ t, t ∈ fl_tokens db → nonempty (ht_kind t) = true) →
  h ∈ tenant_hosts (scope db) tenant gid →
  agent_view (host_id h) (commands (push_to_group E tenant gid user db)) =
  match decoys_for db h with [] => agent_view (host_id h) (commands db) | tokens => Some (map decoy tokens) end.
Proof.
  intros Hok Hk Hh. unfold push_to_group.
  destruct (decoy_push_told E user (tenant_hosts (scope db) tenant gid) db) as (_ & _ & new & Hc & Ht). rewrite Hc.
  assert (NoDup (map host_id (tenant_hosts (scope db) tenant gid))) as Hnd by (by apply NoDup_map_filterb).
  assert (∀ x t, t ∈ deploy_items db x → t.1.1 = host_id x) as Hown.
  { intros x t. unfold deploy_items. destruct (decoys_for db x); [by intros ?%elem_of_nil|]. by intros ->%list_elem_of_singleton. }
  assert (∀ t, t ∈ decoys_for db h → nonempty (ht_kind t) = true) as Hkind.
  { intros t Hin. unfold decoys_for, effective_tokens_for_host in Hin. rewrite sort_tokens_perm, elem_of_filterb in Hin.
    destruct Hin. by apply Hk. }
  destruct (decoys_for db h) as [|t l] eqn:Hd.
  - apply (fan_out_other _ _ _ _ _ Ht Hown). intros x Hx Hid.
    assert (x = h) as -> by (by apply (NoDup_key_inj host_id (tenant_hosts (scope db) tenant gid))).
    unfold deploy_items. by rewrite Hd.
  - apply (fan_out_view (deploy_items db) _ (map told (commands db)) (tenant_hosts (scope db) tenant gid) h
      DEPLOY_HONEYTOKEN (specs_payload (t :: l))); try done.
    + by rewrite map_app, Ht.
    + unfold deploy_items. rewrite Hd. cbn [List.filter]. unfold concerns. cbn [fst snd]. by rewrite Z.eqb_refl.
    + exists (t :: l). split; [reflexivity|]. split; [reflexivity|exact Hkind].
Qed.

Inductive token_op :=
| TCreate (b : HoneytokenCreate)
| TUpdate (tid : uuid) (u : HoneytokenUpdate)
| TDelete (tid : uuid).
Definition run_token_op (E : env) (op : token_op) (actor : Actor) (db : fleet_db) : py fleet_db :=
  match op with
  | TCreate b => create_honeytoken E b actor db
  | TUpdate tid u => update_honeytoken E tid u actor db
  | TDelete tid => delete_honeytoken E tid actor db
  end.
(** The scope of the edited token. *)
Definition edited_group (op : token_op) (db : fleet_db) : option uuid :=
  match op with
  | TCreate b => tc_group b
  | TUpdate tid _ | TDelete tid => match find_token db tid with Some t => ht_group t | None => None end
  end.

Definition kinds_ok (db : fleet_db) : Prop := ∀ t, t ∈ fl_tokens db → nonempty (ht_kind t) = true.

Lemma own_token_ok db tid actor t :
  own_token db tid actor = Ok t → find_token db tid = Some t ∧ ht_tenant_id t = actor_tenant_id actor.
Proof.
  unfold own_token. destruct (find_token db tid) as [x|]; [|done]. destruct (Z.eqb_spec (ht_tenant_id x) (actor_tenant_id actor));
    [|done]. by intros [= ->].
Qed.

(** Each route changes the table, then pushes to the scope of the token within the
    tenant of the caller. *)
Lemma token_op_pushes E op actor db db' :
  kinds_ok db → run_token_op E op actor db = Ok db' →
  ∃ db1, db' = push_to_group E (actor_tenant_id actor) (edited_group op db) (Some (actor_user_id actor)) db1 ∧
    scope db1 = scope db ∧ commands db1 = commands db ∧ kinds_ok db1 ∧
    match op with
    | TDelete tid => fl_tokens db1 = List.filter (λ x, negb (ht_id x =? tid)) (fl_tokens db)
    | _ => True
    end.
Proof.
  intros Hk. destruct op as [b|tid u|tid]; cbn [run_token_op edited_group];
    [unfold create_honeytoken|unfold update_honeytoken|unfold delete_honeytoken]; destruct (negb (is_admin actor)); try done.
  - destruct (negb _); [done|]. destruct (scalar_one_or_none _) as [[x|]|]; cbn [mbind res_bind]; [done| |done].
    destruct (negb _); [done|]. intros H. injection H as <-. eexists. split; [reflexivity|]. split_and!; try done.
    intros t [Ht| ->%list_elem_of_singleton]%elem_of_app; [by apply Hk|]. simpl. by destruct (tc_kind b).
  - destruct (negb _); [done|]. destruct (own_token db tid actor) as [t|] eqn:Ho; cbn [mbind res_bind]; [|done].
    apply own_token_ok in Ho as [-> _].
    match goal with |- context [mbind _ ?m] => destruct m as [[x|]|] end; cbn [mbind res_bind]; [done| |done].
    intros H. injection H as <-. eexists. split; [reflexivity|]. split_and!; try done.
    intros x (y & -> & Hy)%list_elem_of_fmap. destruct (ht_id y =? tid); [|by apply Hk]. simpl.
    destruct (tu_kind u) as [[]|]; [done..|by apply Hk].
  - destruct (own_token db tid actor) as [t|] eqn:Ho; cbn [mbind res_bind]; [|done]. apply own_token_ok in Ho as [-> _].
    intros H. injection H as <-. eexists. split; [reflexivity|]. split_and!; try done.
    intros x [Hx _]%elem_of_filterb. by apply Hk.
Qed.

(** After a decoy is created, changed or deleted, each live host in its scope
    that any decoy applies to holds exactly the enabled decoys of its tenant that
    are global or of its groups, with the very bytes each is to contain. *)
Theorem decoys_reach_host E op actor db db' h t0 :
  hosts_ok (scope db) → kinds_ok db → run_token_op E op actor db = Ok db' →
  h ∈ sc_hosts (scope db) → host_tenant_id h = actor_tenant_id actor →
  in_edit_scope (scope db) (edited_group op db) h = true →
  t0 ∈ fl_tokens db' → in_scope (host_tenant_id h) (groups_of (scope db) (host_id h)) t0 = true →
  ∃ specs, agent_view (host_id h) (commands db') = Some specs ∧
    ∀ s, s ∈ specs ↔ ∃ t, t ∈ fl_tokens db' ∧ ht_tenant_id t = host_tenant_id h ∧ ht_enabled t = true ∧
      applies (groups_of (scope db) (host_id h)) (ht_group t) = true ∧
      s = mkPbSpec (uuid_str (ht_id t)) (ht_kind t) (ht_name t) (default "" (ht_target_path t)) (payload_bytes t).
Proof.
  intros Hok Hk H Hh Hten He Ht0 Hsc. destruct (token_op_pushes E op actor db db' Hk H) as (db1 & -> & Hs & Hc & Hk1 & _).
  set (gid := edited_group op db) in *. set (us := Some (actor_user_id actor)) in *.
  destruct (decoy_push_told E us (tenant_hosts (scope db1) (actor_tenant_id actor) gid) db1) as (_ & Hd & _).
  fold (push_to_group E (actor_tenant_id actor) gid us db1) in Hd.
  set (db2 := push_to_group E (actor_tenant_id actor) gid us db1) in *.
  destruct (same_decoys_effective _ _ (host_tenant_id h) (groups_of (scope db) (host_id h)) Hd) as (f & Heff & Hf).
  assert (∀ t, t ∈ effective_tokens_for_host (fl_tokens db2) (host_tenant_id h) (groups_of (scope db) (host_id h)) ↔
    t ∈ fl_tokens db2 ∧ in_scope (host_tenant_id h) (groups_of (scope db) (host_id h)) t = true) as Hel.
  { intros t. unfold effective_tokens_for_host. by rewrite sort_tokens_perm, elem_of_filterb. }
  assert (decoys_for db1 h ≠ []) as Hne.
  { unfold decoys_for. rewrite Hs. intros Hnil. rewrite Hnil in Heff. simpl in Heff. apply (not_elem_of_nil t0).
    rewrite <- Heff. by apply Hel. }
  exists (map decoy (decoys_for db1 h)). split.
  - unfold db2. rewrite decoy_push_view; [by destruct (decoys_for db1 h)|by rewrite Hs|done|].
    apply elem_of_filterb. rewrite Hs. split; [done|]. by rewrite He, Hten, Z.eqb_refl.
  - intros s. unfold decoys_for. rewrite Hs.
    assert (map decoy (effective_tokens_for_host (fl_tokens db1) (host_tenant_id h) (groups_of (scope db) (host_id h))) =
      map decoy (effective_tokens_for_host (fl_tokens db2) (host_tenant_id h) (groups_of (scope db) (host_id h)))) as ->.
    { rewrite Heff, map_map. apply map_ext. intros t. by destruct (Hf t) as (_ & -> & _). }
    rewrite list_elem_of_fmap. setoid_rewrite Hel. unfold in_scope. setoid_rewrite andb_true_iff.
    setoid_rewrite andb_true_iff. setoid_rewrite Z.eqb_eq. unfold decoy. naive_solver.
Qed.

(** Deleting the last decoy that applies to a host lifts it nowhere: the host
    is told nothing, keeps the decoy it holds, and when that is touched afterwards
    the hit raises no alert. *)
Theorem removed_decoy_silent E E' tid actor fl fl' h hits rules alerts pid exe at_ :
  hosts_ok (scope fl) → kinds_ok fl → uuid_ok tid →
  delete_honeytoken E tid actor fl = Ok fl' →
  h ∈ sc_hosts (scope fl) →
  (∀ t, t ∈ fl_tokens fl → ht_id t ≠ tid → in_scope (host_tenant_id h) (groups_of (scope fl) (host_id h)) t = false) →
  host_tenant_id h = actor_tenant_id actor → in_edit_scope (scope fl) (edited_group (TDelete tid) fl) h = true →
  agent_view (host_id h) (commands fl') = agent_view (host_id h) (commands fl) ∧
  de_alerts (handle_honeytoken_hit E' (host_id h) (uuid_str tid) pid exe at_ (mkDecoyDb fl' hits rules alerts)) = alerts.
Proof.
  intros Hok Hk Hu H Hh Hlast Hten He.
  destruct (token_op_pushes E (TDelete tid) actor fl fl' Hk H) as (db1 & -> & Hs & Hc & Hk1 & Hd).
  set (gid := edited_group (TDelete tid) fl) in *. split.
  - rewrite decoy_push_view; [|by rewrite Hs|done|].
    + assert (decoys_for db1 h = []) as ->; [|by rewrite Hc].
      unfold decoys_for, effective_tokens_for_host. rewrite Hd, Hs.
      assert (List.filter (in_scope (host_tenant_id h) (groups_of (scope fl) (host_id h)))
        (List.filter (λ x, negb (ht_id x =? tid)) (fl_tokens fl)) = []) as ->; [|done].
      apply elem_of_nil_inv. intros t [[Ht Hid]%elem_of_filterb Hin]%elem_of_filterb.
      rewrite (Hlast t Ht) in Hin; [done|]. rewrite negb_true_iff in Hid. by apply Z.eqb_neq in Hid.
    + apply elem_of_filterb. rewrite Hs. split; [done|]. by rewrite He, Hten, Z.eqb_refl.
  - unfold handle_honeytoken_hit. rewrite uuid_of_str_uuid_str by done. unfold record_hit. cbn [de_fleet].
    set (us := Some (actor_user_id actor)).
    destruct (decoy_push_told E us (tenant_hosts (scope db1) (actor_tenant_id actor) gid) db1) as (_ & (f & Hf & Hfp) & _).
    assert (find_token (push_to_group E (actor_tenant_id actor) gid us db1) tid = None) as ->; [|done].
    unfold find_token, push_to_group. rewrite Hf, Hd. apply eq_None_not_Some. intros [x [Hx Hid%Z.eqb_eq]%find_some].
    apply list_elem_of_In, list_elem_of_fmap in Hx as (y & -> & [_ Hy]%elem_of_filterb).
    destruct (Hfp y) as (_ & _ & _ & _ & Hidf & _). rewrite Hidf in Hid. rewrite negb_true_iff in Hy. by apply Z.eqb_neq in Hy.
Qed.

(** A hit on a decoy that still exists raises one critical alert in the
    tenant of the decoy, links the hit to it, and counts on that decoy alone. *)
Theorem decoy_hit_alerts E hid t h pid exe at_ db :
  NoDup (map ht_id (fl_tokens (de_fleet db))) → t ∈ fl_tokens (de_fleet db) → uuid_ok (ht_id t) →
  find_host (fl_jobs (de_fleet db)) hid = Some h →
  (String.length (str_repr (ht_name t)) <= 492)%nat → 0 <= pid <= 2147483647 →
  let db' := handle_honeytoken_hit E hid (uuid_str (ht_id t)) pid exe at_ db in
  ∃ a hit, de_alerts db' = de_alerts db ++ [a] ∧ de_hits db' = de_hits db ++ [hit] ∧
    al_severity a = CRITICAL ∧ al_tenant_id a = ht_tenant_id t ∧ al_host_id a = Some (host_id h) ∧
    hh_alert_id hit = al_id a ∧ hh_token_id hit = ht_id t ∧
    count_hit t ∈ fl_tokens (de_fleet db') ∧
    ∀ u, u ∈ fl_tokens (de_fleet db) → u ≠ t → u ∈ fl_tokens (de_fleet db').
Proof.
  intros Hnd Ht Hu Hh Hlen Hp. cbn zeta. unfold handle_honeytoken_hit. rewrite uuid_of_str_uuid_str by done.
  unfold record_hit.
  assert (find_token (de_fleet db) (ht_id t) = Some t) as ->.
  { unfold find_token. destruct (List.find _ _) as [x|] eqn:Hf.
    - apply find_some in Hf as [Hin Heq%Z.eqb_eq]. f_equal. apply list_elem_of_In in Hin.
      by apply (NoDup_key_inj ht_id (fl_tokens (de_fleet db))).
    - apply list_elem_of_In in Ht. apply List.find_none with (x := t) in Hf; [|done]. by rewrite Z.eqb_refl in Hf. }
  rewrite Hh. set (a := mkAlert _ _ _ _ _ _ _ _ _ _ _ _ _ _ _ _ _ _ _). set (hit := mkHit _ _ _ _ _ _ _ _).
  assert (text_ok 0 512 (al_summary a) = true) as ->.
  { unfold text_ok, a. cbn [al_summary]. rewrite append_length. cbn [String.length]. apply Nat.leb_le. lia. }
  assert (opt_ok (λ p, (p <=? 2147483647) && (-2147483648 <=? p)) (if pid =? 0 then None else Some pid) = true) as ->.
  { destruct (pid =? 0); [done|]. simpl. apply andb_true_iff. rewrite !Z.leb_le. lia. }
  cbn [andb]. exists a, hit. split_and!; try done; cbn [de_fleet fl_tokens set_tokens].
  - rewrite list_elem_of_fmap. exists t. by rewrite Z.eqb_refl.
  - intros u Hin Hne. rewrite list_elem_of_fmap. exists u. split; [|done].
    destruct (Z.eqb_spec (ht_id u) (ht_id t)) as [Heq|]; [|done]. destruct Hne.
    by apply (NoDup_key_inj ht_id (fl_tokens (de_fleet db))).
Qed.

(** ** Examples *)

Definition demo_decoy : HoneytokenCreate :=
  mkTokenCreate None FAKE_FILE "aws keys" [("body", PStr "AKFL")] (Some "/root/.aws/credentials") true.
Definition demo_token : Honeytoken :=
  mkHoneytoken 0 1 None "fake_file" "aws keys" [("body", PStr "AKFL")] (Some "/root/.aws/credentials") true 2 0.
Definition demo_decoys : py fleet_db := create_honeytoken demo_env demo_decoy (demo_admin 1) demo_fleet.
Lemma demo_decoys_rows db : demo_decoys = Ok db → scope db = scope demo_fleet ∧ fl_tokens db = [demo_token].
Proof. intros H. vm_compute in H. injection H as <-. split; reflexivity. Qed.

Lemma decoys_reach_host_witness :
  ∃ db specs, demo_decoys = Ok db ∧ agent_view 100 (commands db) = Some specs ∧ decoy demo_token ∈ specs.
Proof.
  destruct demo_decoys as [db|] eqn:H; [|vm_compute in H; discriminate H]. destruct (demo_decoys_rows db H) as [Hs Ht].
  destruct (decoys_reach_host demo_env (TCreate demo_decoy) (demo_admin 1) demo_fleet db (demo_host 100 1) demo_token)
    as (specs & Hv & Hx); try reflexivity.
  - exact demo_scope_ok.
  - intros t Hin. by apply elem_of_nil in Hin.
  - exact H.
  - left.
  - rewrite Ht. left.
  - exists db, specs. split; [reflexivity|]. split; [exact Hv|]. apply Hx. exists demo_token. rewrite Ht.
    split; [left|]. split; [reflexivity|]. split; [reflexivity|]. split; reflexivity.
Defined.

Lemma removed_decoy_silent_witness :
  ∃ db db', demo_decoys = Ok db ∧ delete_honeytoken demo_env 0 (demo_admin 1) db = Ok db' ∧
    agent_view 100 (commands db') = agent_view 100 (commands db) ∧
    de_alerts (handle_honeytoken_hit demo_env 100 (uuid_str 0) 7 "" None (mkDecoyDb db' [] [] [])) = [].
Proof.
  destruct demo_decoys as [db|] eqn:H; [|vm_compute in H; discriminate H]. destruct (demo_decoys_rows db H) as [Hs Ht].
  destruct (delete_honeytoken demo_env 0 (demo_admin 1) db) as [db'|] eqn:Hdel.
  2: { unfold delete_honeytoken, own_token, find_token in Hdel. rewrite Ht in Hdel. discriminate Hdel. }
  exists db, db'. split; [reflexivity|]. split; [exact Hdel|].
  apply (removed_decoy_silent demo_env demo_env 0 (demo_admin 1) db db' (demo_host 100 1) [] [] [] 7 "" None).
  - rewrite Hs. exact demo_scope_ok.
  - unfold kinds_ok. rewrite Ht. intros t Hin. apply list_elem_of_singleton in Hin as ->. reflexivity.
  - unfold uuid_ok. lia.
  - exact Hdel.
  - rewrite Hs. left.
  - rewrite Ht. intros t Hin Hne. apply list_elem_of_singleton in Hin as ->. by destruct Hne.
  - reflexivity.
  - rewrite Hs. unfold edited_group, find_token. rewrite Ht. reflexivity.
Defined.

Lemma decoy_hit_alerts_witness :
  ∃ db a, demo_decoys = Ok db ∧
    de_alerts (handle_honeytoken_hit demo_env 100 (uuid_str 0) 7 "" None (mkDecoyDb db [] [] [])) = [] ++ [a] ∧
    al_severity a = CRITICAL.
Proof.
  destruct demo_decoys as [db|] eqn:H; [|vm_compute in H; discriminate H]. destruct (demo_decoys_rows db H) as [Hs Ht].
  destruct (decoy_hit_alerts demo_env 100 demo_token (demo_host 100 1) 7 "" None (mkDecoyDb db [] [] []))
    as (a & hit & H1 & _ & H2 & _).
  - cbn [de_fleet]. rewrite Ht. apply NoDup_singleton.
  - cbn [de_fleet]. rewrite Ht. left.
  - unfold uuid_ok, demo_token. simpl. lia.
  - cbn [de_fleet]. unfold find_host, hosts. change (jd_scope (fl_jobs db)) with (scope db). rewrite Hs. reflexivity.
  - simpl. lia.
  - lia.
  - exists db, a. split; [reflexivity|]. split; [exact H1|exact H2].
Defined.
