(* ===== verification/Attestation.v ===== *)
(** * Attestation: measured-boot reports against a golden baseline

    services/attestation.py, api/attestation.py, the [_handle_tpm_attestation]
    half of grpc/services.py and the status pane of api/hosts.py.  The X.509
    library is a parameter ([x509]). *)

From Stdlib Require Import Ascii String.
From S2P Require Import Prelude PyStr PyVal PyTime Crypto PyText Models AuditChain Rollout Scoping Jobs.
From S2P Require Import Commands Enrollment.
Local Open Scope string_scope.
Local Open Scope list_scope.
Local Open Scope Z_scope.

(** One measured register. *)
Record pcr := mkPcr { pcr_bank : str; pcr_index : Z; pcr_digest_hex : str }.
#[global] Instance pcr_eq_dec : EqDecision pcr.
Proof. solve_decision. Defined.

Record AttestationGolden := mkGolden {
  go_host_id : uuid;
  go_tenant_id : uuid;
  go_pcr_values : list pcr;
  go_recorded_by : option uuid
}.
Record AttestationEvent := mkAttEvent {
  ae_id : uuid;
  ae_tenant_id : uuid;
  ae_host_id : uuid;
  ae_pcr_values : list pcr;
  ae_matches_golden : bool;
  ae_diverged_pcrs : list Z;
  ae_recorded_at : datetime
}.

Record att_db := mkAttDb {
  at_jobs : job_db;
  at_golden : list AttestationGolden;
  at_events : list AttestationEvent;
  at_rules : list Rule;
  at_alerts : list Alert
}.

Definition ATTESTATION_FAILED_RULE_ID : uuid := 0xa0a0a0a0000000000000000000000007.

(** ** The service *)

(** The order [(bank, index)] of [out.sort]. *)
Definition pcr_le (a b : pcr) : bool :=
  if String.eqb (pcr_bank a) (pcr_bank b) then pcr_index a <=? pcr_index b
  else String.leb (pcr_bank a) (pcr_bank b).
Fixpoint insert_pcr (p : pcr) (l : list pcr) : list pcr :=
  match l with [] => [p] | q :: l' => if pcr_le p q then p :: q :: l' else q :: insert_pcr p l' end.
Definition sort_pcrs (l : list pcr) : list pcr := foldr insert_pcr [] l.

(** The wire values: index, bank, raw digest. *)
Definition pcrs_from_pb (pb : list (Z * str * bytes)) : list pcr :=
  sort_pcrs
    (omap (λ p, let '(index, bank, digest) := p in
                if nonempty digest
                then Some (mkPcr (if nonempty bank then bank else "sha256") index (hexdigest digest))
                else None) pb).

(** The X.509 library: the two parsers and the check of a certificate's
    signature under the public key of another. *)
Record x509 := mkX509 {
  x5_cert : Type;
  load_pem_x509_certificate : bytes → option x5_cert;
  load_der_x509_certificate : bytes → option x5_cert;
  signed_by : x5_cert → x5_cert → bool
}.

(** [settings.attestation_trust_anchor_pem]. *)
Definition check_trust_anchor (X : x509) (trust_anchor_pem : str) (ak_cert : x5_cert X) : bool :=
  let trust_pem := strip trust_anchor_pem in
  if negb (nonempty trust_pem) then true
  else match load_pem_x509_certificate X trust_pem with
       | None => false
       | Some anchor => signed_by X anchor ak_cert
       end.

(** The nonce and the registers are not looked at. *)
Definition verify_quote (X : x509) (trust_anchor_pem : str) (quote_signature ak_cert : bytes) (expected_nonce : str)
    (pcrs : list pcr) : bool :=
  if negb (nonempty quote_signature) || negb (nonempty ak_cert) then false
  else match load_pem_x509_certificate X ak_cert with
       | Some cert => check_trust_anchor X trust_anchor_pem cert
       | None => match load_der_x509_certificate X ak_cert with
                 | Some cert => check_trust_anchor X trust_anchor_pem cert
                 | None => false
                 end
       end.

(** The dictionaries keyed by bank and index; a later entry wins. *)
Abbreviation pcr_map := (gmap (str * Z) str).
Definition to_map (l : list pcr) : pcr_map :=
  fold_left (λ m p, <[(pcr_bank p, pcr_index p) := pcr_digest_hex p]> m) l ∅.

Definition sorted_set (l : list Z) : list Z := sort_by (λ z, z) (dedup l).

Definition compare_to_golden (golden : option AttestationGolden) (current : list pcr) : bool * list Z :=
  match golden with
  | Some g =>
      match go_pcr_values g with
      | [] => (false, sorted_set (map pcr_index current))
      | values =>
          let golden_map := to_map values in
          let current_map := to_map current in
          let diverged :=
            map (λ kv, kv.1.2) (List.filter (λ kv, negb (bool_decide (golden_map !! kv.1 = Some kv.2)))
                                  (map_to_list current_map)) ++
            map (λ kv, kv.1.2) (List.filter (λ kv, bool_decide (current_map !! kv.1 = None))
                                  (map_to_list golden_map)) in
          (match diverged with [] => true | _ => false end, sorted_set diverged)
      end
  | None => (false, sorted_set (map pcr_index current))
  end.

Definition attestation_rule (tenant : uuid) : Rule :=
  mkRule ATTESTATION_FAILED_RULE_ID tenant IOC "Phase 4 #4.10: TPM attestation diverged from golden baseline" None
    HIGH ALERT true None None 1 (Some ["T1542"]) false.

Definition pcr_json (p : pcr) : pyval :=
  PDict [("index", PInt (pcr_index p)); ("bank", PStr (pcr_bank p)); ("digest_hex", PStr (pcr_digest_hex p))].

Definition drift_summary (h : Host) (diverged : list Z) : str :=
  "TPM attestation diverged on '" +:+ host_hostname h +:+ "' (PCRs: " +:+ join ", " (map str_of_Z diverged) +:+ ")".

(** The database refuses a summary of more than 512 characters. *)
Definition record_event (E : env) (h : Host) (current : list pcr) (golden : option AttestationGolden) (db : att_db) :
    py att_db :=
  let '(matches, diverged) := compare_to_golden golden current in
  let event := mkAttEvent (env_uuid4 E (length (at_events db))) (host_tenant_id h) (host_id h) current matches
                 diverged (env_now E) in
  let events := at_events db ++ [event] in
  match golden with
  | Some g =>
      if negb matches then
        if (512 <? String.length (drift_summary h diverged))%nat then Err DataError
        else Ok
         (mkAttDb (at_jobs db) (at_golden db) events (ensure_rule (attestation_rule (host_tenant_id h)) (at_rules db))
          (at_alerts db ++
           [mkAlert (env_uuid4 E (length (at_alerts db))) (host_tenant_id h) (Some (host_id h))
              ATTESTATION_FAILED_RULE_ID HIGH ALERT NEW (drift_summary h diverged)
              (Some [("host_id", PStr (uuid_str (host_id h))); ("diverged_pcrs", PList (map PInt diverged));
                     ("current_pcrs", PList (map pcr_json current));
                     ("golden_pcrs", PList (map pcr_json (go_pcr_values g)));
                     ("detector", PStr "tpm_attestation_v1")])
              None None (Some ["T1542"]) (env_now E) None None None None 1 (env_now E)]))
      else Ok (mkAttDb (at_jobs db) (at_golden db) events (at_rules db) (at_alerts db))
  | None => Ok (mkAttDb (at_jobs db) (at_golden db) events (at_rules db) (at_alerts db))
  end.

(** ** The agent's report *)

Record TpmAttestation := mkTpm {
  tp_pcrs : list (Z * str * bytes);
  tp_quote_signature : bytes;
  tp_ak_cert : bytes;
  tp_nonce : str
}.

Definition find_golden (db : att_db) (hid : uuid) : option AttestationGolden :=
  List.find (λ g, go_host_id g =? hid) (at_golden db).

(** The verdict on the quote is logged ([verified]) and changes nothing. *)
Definition handle_tpm_attestation (E : env) (X : x509) (trust_anchor_pem : str) (hid : uuid) (payload : TpmAttestation)
    (db : att_db) : option bool * py att_db :=
  let current := pcrs_from_pb (tp_pcrs payload) in
  match current with
  | [] => (None, Ok db)
  | _ =>
      let verified :=
        if nonempty (tp_quote_signature payload) && nonempty (tp_ak_cert payload)
        then Some (verify_quote X trust_anchor_pem (tp_quote_signature payload) (tp_ak_cert payload) (tp_nonce payload)
                     current)
        else None in
      (verified,
       match find_host (at_jobs db) hid with
       | None => Ok db
       | Some h => record_event E h current (find_golden db hid) db
       end)
  end.

(** ** The routes *)

Definition latest_event (hid : uuid) (db : att_db) : option AttestationEvent :=
  head (sort_by (λ e, - ae_recorded_at e) (List.filter (λ e, ae_host_id e =? hid) (at_events db))).

Definition with_att_audit (E : env) (actor : Actor) (action : str) (hid tenant : uuid) (payload : dict) (j : job_db) :
    job_db :=
  mkJobDb (jd_scope j) (jd_policies j) (jd_jobs j) (jd_runs j) (jd_commands j)
    (record (env_audit_key E) (Some actor) action (Some "host") (Some (uuid_str hid)) (Some payload) None
       (Some tenant) (env_now E) (env_uuid4 E (length (log (jd_audit j)))) (jd_audit j)).

(** [nonce] is the random value of [_new_nonce]. *)
Definition request_attestation (E : env) (nonce : str) (hid : uuid) (actor : Actor) (db : att_db) : py att_db :=
  if negb (is_admin actor) then Err (HTTPException 403)
  else match find_host (at_jobs db) hid with
  | None => Err (HTTPException 404)
  | Some h =>
      if negb (host_visible_to actor (Some hid) (jd_scope (at_jobs db))) then Err (HTTPException 404)
      else
        let j := at_jobs db in
        let cid := env_uuid4 E (length (jd_commands j)) in
        let cmd := new_command cid (host_tenant_id h) (host_id h) REQUEST_ATTESTATION [("nonce", PStr nonce)] None None
                     (Some (actor_user_id actor)) (env_now E) in
        let j := mkJobDb (jd_scope j) (jd_policies j) (jd_jobs j) (jd_runs j) (jd_commands j ++ [cmd]) (jd_audit j) in
        Ok (mkAttDb (with_att_audit E actor "attestation.request" hid (host_tenant_id h)
                       [("command_id", PStr (uuid_str cid)); ("nonce_prefix", PStr (take_str 16 nonce))] j)
              (at_golden db) (at_events db) (at_rules db) (at_alerts db))
  end.

Definition promote_attestation (E : env) (hid : uuid) (actor : Actor) (db : att_db) : py att_db :=
  if negb (is_admin actor) then Err (HTTPException 403)
  else match find_host (at_jobs db) hid with
  | None => Err (HTTPException 404)
  | Some h =>
      if negb (host_visible_to actor (Some hid) (jd_scope (at_jobs db))) then Err (HTTPException 404)
      else match latest_event hid db with
      | None => Err (HTTPException 400)
      | Some latest =>
          let g := mkGolden hid (host_tenant_id h) (ae_pcr_values latest) (Some (actor_user_id actor)) in
          let golden := match find_golden db hid with
                        | None => at_golden db ++ [g]
                        | Some _ => map (λ x, if go_host_id x =? hid then g else x) (at_golden db)
                        end in
          Ok (mkAttDb (with_att_audit E actor "attestation.promote" hid (host_tenant_id h)
                         [("pcr_count", PInt (Z.of_nat (length (go_pcr_values g))))] (at_jobs db))
                golden (at_events db) (at_rules db) (at_alerts db))
      end
  end.

(** [_attestation_block]: the label of the host pane. *)
Definition attestation_status (hid : uuid) (db : att_db) : str :=
  match latest_event hid db, find_golden db hid with
  | None, None => "unknown"
  | None, Some _ => "unverified"
  | Some _, None => "unverified"
  | Some e, Some _ => if ae_matches_golden e then "ok" else "diverged"
  end.

Definition list_events (hid : uuid) (actor : Actor) (limit offset : Z) (db : att_db) :
    py (list AttestationEvent * Z) :=
  _ ← require_analyst actor;
  if (limit <=? 0) || (200 <? limit) then Err (HTTPException 400)
  else match find_host (at_jobs db) hid with
  | None => Err (HTTPException 404)
  | Some _ =>
      if negb (host_visible_to actor (Some hid) (jd_scope (at_jobs db))) then Err (HTTPException 404)
      else
        let rows := List.filter (λ e, ae_host_id e =? hid) (at_events db) in
        if offset <? 0 then Err DataError
        else Ok (take (Z.to_nat limit) (drop (Z.to_nat offset) (sort_by (λ e, - ae_recorded_at e) rows)),
                 Z.of_nat (length rows))
  end.

(** ** What the comparison decides *)

Lemma elem_of_sorted_set i l : i ∈ sorted_set l ↔ i ∈ l.
Proof. unfold sorted_set. by rewrite sort_by_perm, elem_of_dedup. Qed.

(** The registers on which two reports differ. *)
Definition differs (a b : list pcr) (i : Z) : Prop := ∃ bank, to_map a !! (bank, i) ≠ to_map b !! (bank, i).

Lemma compare_diverged g current i :
  go_pcr_values g ≠ [] → i ∈ (compare_to_golden (Some g) current).2 ↔ differs (go_pcr_values g) current i.
Proof.
  intros Hne. unfold compare_to_golden, differs. destruct (go_pcr_values g) as [|p l] eqn:Hg; [done|].
  rewrite <- Hg in *. clear Hg Hne. cbn [snd]. rewrite elem_of_sorted_set, elem_of_app, !list_elem_of_fmap.
  setoid_rewrite elem_of_filterb. split.
  - intros [([[b j] d] & -> & [Hin Hn])|([[b j] d] & -> & [Hin Hn])]; simpl in *; exists b;
      apply elem_of_map_to_list in Hin.
    + rewrite Hin. by rewrite negb_true_iff, bool_decide_eq_false in Hn.
    + apply bool_decide_eq_true in Hn. by rewrite Hin, Hn.
  - intros [b Hd]. destruct (to_map current !! (b, i)) as [d|] eqn:Hc.
    + left. exists (b, i, d). rewrite elem_of_map_to_list. repeat split; try done.
      by rewrite negb_true_iff, bool_decide_eq_false.
    + right. destruct (to_map (go_pcr_values g) !! (b, i)) as [d|] eqn:Hgd; [|done].
      exists (b, i, d). rewrite elem_of_map_to_list. by repeat split; try apply bool_decide_eq_true.
Qed.

(** The verdict is the emptiness of the list it comes with. *)
Lemma compare_matches g current :
  go_pcr_values g ≠ [] → (compare_to_golden (Some g) current).1 = true ↔
  to_map (go_pcr_values g) = to_map current.
Proof.
  intros Hne. transitivity (∀ i, ¬ differs (go_pcr_values g) current i).
  - setoid_rewrite <- (compare_diverged _ _ _ Hne). unfold compare_to_golden.
    destruct (go_pcr_values g) as [|p l]; [done|]. cbn [fst snd]. setoid_rewrite elem_of_sorted_set.
    case_match; split; try done; [set_solver|]. intros H'. by destruct (H' z); left.
  - unfold differs. split.
    + intros H. apply map_eq. intros [b i]. destruct (decide (to_map (go_pcr_values g) !! (b, i) = to_map current !! (b, i)));
        [done|]. destruct (H i). eauto.
    + intros -> i [b Hb]. done.
Qed.

(** ** Promotion, then a report *)

Lemma promote_golden E hid actor db db1 :
  promote_attestation E hid actor db = Ok db1 →
  ∃ base g, latest_event hid db = Some base ∧ find_golden db1 hid = Some g ∧ go_pcr_values g = ae_pcr_values base ∧
    (∃ h, find_host (at_jobs db1) hid = Some h ∧ host_id h = hid) ∧
    at_events db1 = at_events db ∧ at_alerts db1 = at_alerts db.
Proof.
  unfold promote_attestation. intros H. destruct (negb (is_admin actor)); [done|].
  destruct (find_host _ _) as [h|] eqn:Hh; [|done]. destruct (negb _); [done|].
  destruct (latest_event hid db) as [base|] eqn:Hb; [|done]. injection H as <-.
  assert (host_id h = hid) as Hid by (apply find_some in Hh as [_ Hh]; by apply Z.eqb_eq in Hh).
  exists base. eexists (mkGolden hid (host_tenant_id h) (ae_pcr_values base) (Some (actor_user_id actor))). split; [done|]. refine (conj _ (conj eq_refl (conj (ex_intro _ h (conj Hh Hid)) (conj eq_refl eq_refl)))).
  unfold find_golden. cbn [at_golden]. destruct (List.find _ (at_golden db)) as [g0|] eqn:Hf.
  - clear Hb. induction (at_golden db) as [|x l IH]; [done|]. simpl in *.
    destruct (go_host_id x =? hid) eqn:Hx; simpl; [by rewrite Z.eqb_refl|]. rewrite Hx. auto.
  - apply find_snoc; [done|]. simpl. by rewrite Z.eqb_refl.
Qed.

Lemma record_event_shows E h current golden db db' :
  record_event E h current golden db = Ok db' →
  (∀ e, e ∈ at_events db → ae_host_id e = host_id h → ae_recorded_at e < env_now E) →
  ∃ e, latest_event (host_id h) db' = Some e ∧ ae_pcr_values e = current ∧
    ae_matches_golden e = (compare_to_golden golden current).1 ∧ at_golden db' = at_golden db.
Proof.
  intros H Hlt. unfold record_event in H. destruct (compare_to_golden golden current) as [m d].
  assert (∀ e, ae_host_id e = host_id h → ae_recorded_at e = env_now E →
    head (sort_by (λ e, - ae_recorded_at e) (List.filter (λ e, ae_host_id e =? host_id h) (at_events db ++ [e]))) = Some e)
    as Hhead.
  { intros e He Ht. rewrite List.filter_app. simpl. rewrite He, Z.eqb_refl. apply head_sort_by_last.
    intros y [Hy Hyh]%elem_of_filterb. apply Z.eqb_eq in Hyh. specialize (Hlt y Hy Hyh). lia. }
  unfold latest_event. destruct golden; [destruct (negb m); [destruct (_ <? _)%nat; [done|]|]|];
    injection H as <-; cbn [at_events at_golden]; rewrite Hhead by done; eauto.
Qed.

(** Once an administrator has promoted a baseline, a later report shows the
    host as "ok" exactly when every register has the promoted value; otherwise it
    shows "diverged" and raises one HIGH alert that lists exactly the registers
    that differ.  The signature, certificate and nonce sent along, and the trust
    anchor, play no part. *)
Theorem boot_drift_alerts E0 E X pem hid actor db db1 base payload v db2 :
  promote_attestation E0 hid actor db = Ok db1 →
  latest_event hid db = Some base →
  ae_pcr_values base ≠ [] →
  (∀ e, e ∈ at_events db → ae_host_id e = hid → ae_recorded_at e < env_now E) →
  pcrs_from_pb (tp_pcrs payload) ≠ [] →
  handle_tpm_attestation E X pem hid payload db1 = (v, Ok db2) →
  let current := pcrs_from_pb (tp_pcrs payload) in
  (to_map (ae_pcr_values base) = to_map current →
     attestation_status hid db2 = "ok" ∧ at_alerts db2 = at_alerts db) ∧
  (to_map (ae_pcr_values base) ≠ to_map current →
     attestation_status hid db2 = "diverged" ∧
     ∃ a details diverged, at_alerts db2 = at_alerts db ++ [a] ∧ al_host_id a = Some hid ∧ al_severity a = HIGH ∧
       al_details a = Some details ∧ dict_get "diverged_pcrs" details = Some (PList (map PInt diverged)) ∧
       ∀ i, i ∈ diverged ↔ differs (ae_pcr_values base) current i).
Proof.
  intros Hp Hbase Hne Hlt Hcur H current.
  destruct (promote_golden _ _ _ _ _ Hp) as (base' & g & Hb' & Hg & Hgv & (h & Hh & Hid) & Hev & Hal). simplify_eq.
  assert (record_event E h current (Some g) db1 = Ok db2) as Hre.
  { unfold handle_tpm_attestation in H. fold current in H, Hcur. destruct current; [done|]. injection H as _ H.
    by rewrite Hh, Hg in H. }
  rewrite <- Hev in Hlt. destruct (record_event_shows E h current (Some g) db1 db2 Hre Hlt) as (e & Hl & _ & Hm & Hgo).
  assert (attestation_status (host_id h) db2 = if ae_matches_golden e then "ok" else "diverged") as Hst.
  { unfold attestation_status. rewrite Hl. unfold find_golden. rewrite Hgo. fold (find_golden db1 (host_id h)). by rewrite Hg. }
  rewrite Hst, Hm, <- Hgv, <- Hal in *. clear Hst Hl. rewrite <- (compare_matches g current) by congruence.
  assert (∀ i, i ∈ (compare_to_golden (Some g) current).2 ↔ differs (go_pcr_values g) current i) as Hd
    by (intros; apply compare_diverged; congruence).
  unfold record_event in Hre. destruct (compare_to_golden (Some g) current) as [m d]. cbn [fst snd] in *.
  split; intros Hmm; destruct m; try done; cbn [negb] in Hre.
  - injection Hre as <-. done.
  - destruct (_ <? _)%nat; [done|]. injection Hre as <-. split; [done|]. eexists _, _, d. split_and!; done.
Qed.

(** On a host that has reported once and had that report promoted, the pane
    shows "diverged" although the latest report and the baseline hold the same
    registers: the verdict is stored when the report comes in, and promotion does
    not compute it again. *)
Theorem promoted_shows_diverged E0 E1 X pem hid actor payload db v db1 db2 :
  find_golden db hid = None →
  (∀ e, e ∈ at_events db → ae_host_id e ≠ hid) →
  pcrs_from_pb (tp_pcrs payload) ≠ [] →
  handle_tpm_attestation E0 X pem hid payload db = (v, Ok db1) →
  promote_attestation E1 hid actor db1 = Ok db2 →
  attestation_status hid db2 = "diverged" ∧
  ∃ e g, latest_event hid db2 = Some e ∧ find_golden db2 hid = Some g ∧ go_pcr_values g = ae_pcr_values e.
Proof.
  intros Hng Hnone Hcur H Hp. destruct (promote_golden _ _ _ _ _ Hp) as (base & g & Hb & Hg & Hgv & (h & Hh & Hid) & Hev & Hal).
  assert (latest_event hid db2 = Some base) as Hb2 by (unfold latest_event in *; by rewrite Hev).
  split; [|eauto]. unfold attestation_status. rewrite Hb2, Hg.
  assert (ae_matches_golden base = false) as ->; [|done].
  unfold handle_tpm_attestation in H. destruct (pcrs_from_pb _) as [|p l] eqn:Hc; [done|]. injection H as _ H.
  rewrite Hng in H. destruct (find_host (at_jobs db) hid) as [h0|] eqn:Hh0.
  - apply find_some in Hh0 as [_ Hh0%Z.eqb_eq].
    destruct (record_event_shows E0 h0 (p :: l) None db db1 H) as (e & He & _ & Hm & _).
    { intros e He Heq. destruct (Hnone e He). congruence. }
    rewrite Hh0 in He. simplify_eq. exact Hm.
  - injection H as <-. unfold latest_event in Hb. apply head_Some_elem_of in Hb.
    rewrite sort_by_perm, elem_of_filterb in Hb. destruct Hb as [Hin Heq%Z.eqb_eq]. by destruct (Hnone base Hin).
Qed.

(** ** Examples *)

Definition no_x509 : x509 := mkX509 unit (λ _, None) (λ _, None) (λ _ _, false).
Definition demo_tpm (digest : bytes) : TpmAttestation := mkTpm [(0, "", "aa"); (7, "sha256", digest)] "" "" "".
Definition demo_later : env := mkEnv Z.of_nat 1700000001000000 None.
Definition demo_att : att_db := mkAttDb demo_jobs [] [] [] [].
Definition demo_report (E : env) (digest : bytes) (db : att_db) : py att_db :=
  (handle_tpm_attestation E no_x509 "" 100 (demo_tpm digest) db).2.
Definition demo_promoted (E : env) : py att_db :=
  db ← demo_report demo_env "bb" demo_att; promote_attestation E 100 (demo_admin 1) db.
Definition demo_event : AttestationEvent :=
  mkAttEvent 0 1 100 [mkPcr "sha256" 0 "6161"; mkPcr "sha256" 7 "6262"] false [0; 7] 1700000000000000.
Definition demo_reported : att_db := mkAttDb demo_jobs [] [demo_event] [] [].

Lemma boot_drift_alerts_witness :
  ∃ db1 db2 db3, demo_promoted demo_env = Ok db1 ∧
    demo_report demo_later "bb" db1 = Ok db2 ∧ attestation_status 100 db2 = "ok" ∧
    demo_report demo_later "cc" db1 = Ok db3 ∧ attestation_status 100 db3 = "diverged".
Proof.
  assert (demo_report demo_env "bb" demo_att = Ok demo_reported) as Hr by (vm_compute; reflexivity).
  unfold demo_promoted. rewrite Hr. cbn [mbind res_bind].
  destruct (promote_attestation demo_env 100 (demo_admin 1) demo_reported) as [db1|] eqn:Hp; [|discriminate Hp].
  destruct (handle_tpm_attestation demo_later no_x509 "" 100 (demo_tpm "bb") db1) as [v2 [db2|]] eqn:H2;
    [|injection Hp as <-; vm_compute in H2; discriminate H2].
  destruct (handle_tpm_attestation demo_later no_x509 "" 100 (demo_tpm "cc") db1) as [v3 [db3|]] eqn:H3;
    [|injection Hp as <-; vm_compute in H3; discriminate H3].
  exists db1, db2, db3. unfold demo_report. rewrite H2, H3. split; [reflexivity|]. split; [reflexivity|].
  assert (∀ e, e ∈ at_events demo_reported → ae_host_id e = 100 → ae_recorded_at e < env_now demo_later) as Hlt
    by (intros e He _; apply list_elem_of_singleton in He as ->; reflexivity).
  split; [|split; [reflexivity|]].
  - eapply (boot_drift_alerts demo_env demo_later no_x509 "" 100 (demo_admin 1) demo_reported db1 demo_event
      (demo_tpm "bb") v2 db2 Hp); [reflexivity|discriminate|exact Hlt|discriminate|exact H2|vm_compute; reflexivity].
  - eapply (boot_drift_alerts demo_env demo_later no_x509 "" 100 (demo_admin 1) demo_reported db1 demo_event
      (demo_tpm "cc") v3 db3 Hp); [reflexivity|discriminate|exact Hlt|discriminate|exact H3|].
    intros H. apply (f_equal (lookup ("sha256", 7))) in H. vm_compute in H. discriminate H.
Defined.

Lemma promoted_shows_diverged_witness :
  ∃ db2, demo_promoted demo_later = Ok db2 ∧ attestation_status 100 db2 = "diverged".
Proof.
  destruct (handle_tpm_attestation demo_env no_x509 "" 100 (demo_tpm "bb") demo_att) as [v [db1|]] eqn:H;
    [|vm_compute in H; discriminate H].
  unfold demo_promoted, demo_report. rewrite H. cbn [snd mbind res_bind].
  destruct (promote_attestation demo_later 100 (demo_admin 1) db1) as [db2|] eqn:Hp;
    [|vm_compute in H; injection H as _ <-; discriminate Hp].
  exists db2. split; [reflexivity|].
  apply (promoted_shows_diverged demo_env demo_later no_x509 "" 100 (demo_admin 1) (demo_tpm "bb") demo_att v db1 db2).
  - reflexivity.
  - intros e He. by apply elem_of_nil in He.
  - discriminate.
  - exact H.
  - exact Hp.
Defined.
