(* ===== verification/Dedup.v ===== *)
(** * Dedup: coalescing repeated alerts (services/alert_dedup.py)

    A producer computes a key from the rule, the host and the most specific
    signal of the event.  When an open alert with that key was last seen inside
    the window, its counter is bumped; otherwise a row is inserted.  The pattern
    "probe, then update or insert" that every producer follows is
    [upsert_alert]. *)

From Stdlib Require Import Ascii String Sorted.
From S2P Require Import Prelude PyStr PyVal PyTime Crypto Models.
Local Open Scope string_scope.
Local Open Scope list_scope.
Local Open Scope Z_scope.

(** ** The key *)

(** [a or b] where [b] may raise. *)
Definition or_else (a : pyval) (b : py pyval) : py pyval := if truthy a then Ok a else b.

Definition dedup_signal (ecs : dict) : py pyval :=
  exe ← py_get "executable" (sub "process" ecs);
  or_else exe (
    path ← py_get "path" (sub "file" ecs);
    or_else path (
      ip ← py_get "ip" (sub "destination" ecs);
      or_else ip (
        id ← py_get "id" (sub "event" ecs);
        or_else id (Ok (PStr ""))))).

Definition opt_uuid_str (u : option uuid) : str :=
  match u with Some u => uuid_str u | None => "None" end.

Definition dedup_canonical (rule_id : uuid) (host_id : option uuid) (signal : pyval) : str :=
  uuid_str rule_id +:+ "|" +:+ opt_uuid_str host_id +:+ "|" +:+ py_str signal.

Definition dedup_key_for (rule_id : uuid) (host_id : option uuid) (ecs : dict) : py str :=
  signal ← dedup_signal ecs;
  Ok (hexdigest (sha256 (utf8 (dedup_canonical rule_id host_id signal)))).

(** ** The probe *)

Definition is_open (a : Alert) : bool := bool_decide (al_state a ∈ [NEW; INVESTIGATING]).

Definition open_dupe (key : str) (cutoff : datetime) (a : Alert) : bool :=
  bool_decide (al_dedup_key a = Some key) && (cutoff <? al_last_occurred_at a) && is_open a.

(** [ORDER BY last_occurred_at DESC LIMIT 1] *)
Fixpoint most_recent (rows : list Alert) : option Alert :=
  match rows with
  | [] => None
  | a :: rows =>
      match most_recent rows with
      | Some b => if al_last_occurred_at a <? al_last_occurred_at b then Some b else Some a
      | None => Some a
      end
  end.

Definition find_open_dupe (key : str) (window_seconds : Z) (now : datetime) (alerts : list Alert) :
    option Alert :=
  most_recent (List.filter (open_dupe key (now - window_seconds * 1000000)) alerts).

(** Probe, then bump the row found or insert a new one; the identifier of the
    row with whether it was created. *)
Definition upsert_alert (key : str) (window_seconds : Z) (now : datetime) (new : Alert)
    (alerts : list Alert) : list Alert * (uuid * bool) :=
  match find_open_dupe key window_seconds now alerts with
  | Some a =>
      (map (λ b, if al_id b =? al_id a then bump_occurrence now b else b) alerts, (al_id a, false))
  | None => (alerts ++ [new], (al_id new, true))
  end.

(** ** Bursts of detections *)

(** Consecutive detections of one key, [mk n t] being the row inserted as the
    [n]-th of the table at time [t]. *)
Definition detect (key : str) (window_seconds : Z) (mk : nat → datetime → Alert)
    (alerts : list Alert) (t : datetime) : list Alert :=
  (upsert_alert key window_seconds t (mk (length alerts) t) alerts).1.

(** Specification: a burst is a maximal run of detections in which each follows
    the one before it by less than the window.  A burst is kept as its number of
    detections and the time of the last one. *)
Definition burst_step (window : Z) (bursts : list (Z * datetime)) (t : datetime) : list (Z * datetime) :=
  match last bursts with
  | Some (n, l) => if t - l <? window then removelast bursts ++ [(n + 1, t)] else bursts ++ [(1, t)]
  | None => [(1, t)]
  end.
Definition bursts (window : Z) (ts : list datetime) : list (Z * datetime) :=
  foldl (burst_step window) [] ts.

(** The rows of one key, as a burst each. *)
Definition has_key (key : str) (a : Alert) : bool := bool_decide (al_dedup_key a = Some key).
Definition summary_of (a : Alert) : Z * datetime := (al_occurrence_count a, al_last_occurred_at a).
Definition rows_of (key : str) (alerts : list Alert) : list (Z * datetime) :=
  map summary_of (List.filter (has_key key) alerts).

(** A new row of the producer: open, with the key, seen once, at [t]. *)
Definition fresh_row (key : str) (mk : nat → datetime → Alert) : Prop :=
  (∀ n t, al_state (mk n t) = NEW ∧ al_dedup_key (mk n t) = Some key ∧
          al_occurrence_count (mk n t) = 1 ∧ al_last_occurred_at (mk n t) = t).
(** Identifiers are drawn from [uuid4], which repeats none. *)
Definition ids_drawn (uuid4 : nat → uuid) (alerts : list Alert) : Prop :=
  map al_id alerts = map uuid4 (seq 0 (length alerts)).

Section bursts.
Context (key : str) (window_seconds : Z) (uuid4 : nat → uuid) (mk : nat → datetime → Alert).
Context (Hids : ∀ n t, al_id (mk n t) = uuid4 n) (Hinj : Inj (=) (=) uuid4) (Hmk : fresh_row key mk).
Let W := window_seconds * 1000000.

(** Between two detections: the rows of the key are the bursts so far, they are
    open, and all but the last one ended at least a window before it. *)
Record burst_inv (others alerts : list Alert) (bs : list (Z * datetime)) (now : datetime) : Prop := {
  bi_ids : ids_drawn uuid4 alerts;
  bi_rows : rows_of key alerts = bs;
  bi_open : ∀ a, a ∈ List.filter (has_key key) alerts → is_open a = true ∧ 1 ≤ al_occurrence_count a;
  bi_others : List.filter (λ a, negb (has_key key a)) alerts = others;
  bi_spaced : ∀ bs' n l, bs = bs' ++ [(n, l)] → l ≤ now ∧ ∀ n' l', (n', l') ∈ bs' → l' ≤ l - W
}.

Lemma ids_drawn_NoDup alerts : ids_drawn uuid4 alerts → NoDup (map al_id alerts).
Proof. intros ->. apply NoDup_fmap_2; [done|]. apply NoDup_seq. Qed.

Lemma ids_drawn_map f alerts :
  (∀ a, al_id (f a) = al_id a) → ids_drawn uuid4 alerts → ids_drawn uuid4 (map f alerts).
Proof.
  unfold ids_drawn. intros Hf H. rewrite length_map, <-H, map_map. apply map_ext. intros a. apply Hf.
Qed.

(** The candidates of the probe are the rows of the key that are recent. *)
Lemma open_dupe_rows cutoff alerts :
  (∀ a, a ∈ List.filter (has_key key) alerts → is_open a = true) →
  List.filter (open_dupe key cutoff) alerts =
  List.filter (λ a, cutoff <? al_last_occurred_at a) (List.filter (has_key key) alerts).
Proof.
  intros Hopen. induction alerts as [|a alerts IH]; [done|]. simpl in *.
  unfold open_dupe at 1. fold (has_key key a). destruct (has_key key a) eqn:Hk; simpl.
  - rewrite (Hopen a), andb_true_r, IH; [done| |by left]. intros b Hb. apply Hopen. by right.
  - by apply IH.
Qed.

(** A detection after the last one: in the window of the last burst, it joins
    that burst; otherwise it opens a new one. *)
Lemma find_last_row alerts rows a t :
  (∀ b, b ∈ List.filter (has_key key) alerts → is_open b = true) →
  List.filter (has_key key) alerts = rows ++ [a] →
  (∀ b, b ∈ rows → al_last_occurred_at b ≤ al_last_occurred_at a - W) → al_last_occurred_at a ≤ t →
  find_open_dupe key window_seconds t alerts =
  if t - al_last_occurred_at a <? W then Some a else None.
Proof.
  intros Hopen Hrows Hsp Ht. unfold find_open_dupe. fold W. rewrite open_dupe_rows, Hrows by done.
  rewrite List.filter_app, filter_none; simpl.
  - replace (t - W <? al_last_occurred_at a) with (t - al_last_occurred_at a <? W)
      by (destruct (Z.ltb_spec (t - al_last_occurred_at a) W), (Z.ltb_spec (t - W) (al_last_occurred_at a)); lia || done).
    by destruct (_ <? W).
  - intros b Hb. apply Hsp in Hb. apply Z.ltb_ge. lia.
Qed.

Lemma insert_inv others alerts bs now t :
  burst_inv others alerts bs now → now ≤ t →
  (∀ bs' n l, bs = bs' ++ [(n, l)] → W ≤ t - l) → 0 ≤ W →
  burst_inv others (alerts ++ [mk (length alerts) t]) (bs ++ [(1, t)]) t.
Proof.
  intros [Hi Hr Ho Hot Hsp] Ht Hgap HW. destruct (Hmk (length alerts) t) as (Hs & Hk & Hc & Hl).
  assert (Hkey : has_key key (mk (length alerts) t) = true) by (unfold has_key; by rewrite Hk, bool_decide_true).
  split.
  - unfold ids_drawn in *. rewrite length_app, Nat.add_1_r, seq_S, !map_app, Hi. simpl. by rewrite Hids.
  - unfold rows_of in *. rewrite List.filter_app. simpl. rewrite Hkey, map_app, Hr. simpl.
    unfold summary_of. by rewrite Hc, Hl.
  - intros a. rewrite List.filter_app. simpl. rewrite Hkey.
    intros [Ha| ->%list_elem_of_singleton]%elem_of_app; [by apply Ho|].
    unfold is_open. rewrite Hs, Hc. split; [done|lia].
  - rewrite List.filter_app. simpl. by rewrite Hkey, app_nil_r.
  - intros bs0 n l [<- [= <- <-]]%app_inj_tail. split; [lia|]. intros n' l' Hin.
    destruct (exists_last (l := bs)) as (bs' & [n0 l0] & ->); [by intros ->; apply not_elem_of_nil in Hin|].
    destruct (Hsp _ _ _ eq_refl) as [_ Hall]. specialize (Hgap _ _ _ eq_refl).
    apply elem_of_app in Hin as [Hin|[= -> ->]%list_elem_of_singleton]; [|lia].
    apply Hall in Hin. lia.
Qed.

(** Bumping the last row of the key touches that row only. *)
Definition bump_row (a : Alert) (t : datetime) (b : Alert) : Alert :=
  if al_id b =? al_id a then bump_occurrence t b else b.

Lemma bump_row_other a t l :
  (∀ b, b ∈ l → al_id b ≠ al_id a) → map (bump_row a t) l = l.
Proof.
  intros H. rewrite <-(map_id l) at 2. apply map_ext_in. intros b Hb%list_elem_of_In. unfold bump_row.
  apply H in Hb. by rewrite (proj2 (Z.eqb_neq _ _)).
Qed.

Lemma has_key_bump a t b : has_key key (bump_row a t b) = has_key key b.
Proof. unfold bump_row. by case_match. Qed.

Lemma bump_last_row alerts rows a t :
  NoDup (map al_id alerts) → List.filter (has_key key) alerts = rows ++ [a] →
  List.filter (has_key key) (map (bump_row a t) alerts) = rows ++ [bump_occurrence t a] ∧
  List.filter (λ b, negb (has_key key b)) (map (bump_row a t) alerts) =
  List.filter (λ b, negb (has_key key b)) alerts.
Proof.
  intros Hnd Hf.
  assert (Ha : a ∈ alerts ∧ has_key key a = true).
  { apply elem_of_filterb. rewrite Hf. apply elem_of_app. right. by left. }
  rewrite !filter_map_key by (intros b; by rewrite has_key_bump). rewrite Hf. split.
  - rewrite map_app. simpl. unfold bump_row at 2. rewrite Z.eqb_refl. f_equal. apply bump_row_other.
    intros b Hb He.
    assert (NoDup (rows ++ [a])) as Hnr by (rewrite <-Hf; apply NoDup_filterb; by apply NoDup_fmap_1 in Hnd).
    apply NoDup_app in Hnr as (_ & Hd & _). apply (Hd b Hb), list_elem_of_singleton.
    assert (b ∈ List.filter (has_key key) alerts) as [Hb2 _]%elem_of_filterb
      by (rewrite Hf; by apply elem_of_app; left).
    apply (NoDup_key_inj al_id alerts); naive_solver.
  - apply bump_row_other. intros b [Hb Hnk]%elem_of_filterb He.
    rewrite (NoDup_key_inj al_id alerts b a) in Hnk by naive_solver.
    by rewrite (proj2 Ha) in Hnk.
Qed.

Lemma bump_inv others alerts bs now n l t :
  burst_inv others alerts (bs ++ [(n, l)]) now → now ≤ t → t - l < W →
  burst_inv others (detect key window_seconds mk alerts t) (bs ++ [(n + 1, t)]) t.
Proof.
  intros [Hi Hr Ho Hot Hsp] Ht Hin.
  unfold rows_of in Hr. apply map_eq_app in Hr as (rows & tl & Hf & Hm1 & Hm2).
  apply map_eq_cons in Hm2 as (a & tl' & -> & Ha & ->%map_eq_nil). unfold summary_of in Ha.
  injection Ha as Hna Hla. destruct (Hsp _ _ _ eq_refl) as [Hln Hall].
  assert (Hdet : detect key window_seconds mk alerts t = map (bump_row a t) alerts).
  { unfold detect, upsert_alert. rewrite (find_last_row alerts rows a t); [|naive_solver|done| |lia].
    - by rewrite Hla, (proj2 (Z.ltb_lt _ _)) by lia.
    - intros b Hb. rewrite Hla. apply (Hall (al_occurrence_count b)). rewrite <-Hm1.
      by apply (list_elem_of_fmap_2 summary_of). }
  destruct (bump_last_row alerts rows a t (ids_drawn_NoDup _ Hi) Hf) as [Hff Hoth].
  destruct (Ho a) as [Hoa Hc]; [rewrite Hf; apply elem_of_app; right; by left|].
  rewrite Hdet. split.
  - apply ids_drawn_map; [|done]. intros b. unfold bump_row. by case_match.
  - unfold rows_of. rewrite Hff, map_app, Hm1. simpl. unfold summary_of. simpl.
    rewrite (proj2 (Z.eqb_neq _ _)) by lia. by rewrite Hna.
  - intros b. rewrite Hff. intros [Hb| ->%list_elem_of_singleton]%elem_of_app.
    + apply Ho. rewrite Hf. apply elem_of_app. by left.
    + split; [done|]. simpl. case_match; lia.
  - by rewrite Hoth.
  - intros bs0 n0 l0 [<- [= <- <-]]%app_inj_tail. split; [lia|].
    intros n' l' Hn. apply Hall in Hn. lia.
Qed.

Lemma find_no_row alerts t : rows_of key alerts = [] → find_open_dupe key window_seconds t alerts = None.
Proof.
  unfold rows_of. intros Hr%map_eq_nil. unfold find_open_dupe. rewrite open_dupe_rows; rewrite Hr; [done|].
  intros a Ha. by apply not_elem_of_nil in Ha.
Qed.

Lemma detect_inv others alerts bs now t :
  0 ≤ W → burst_inv others alerts bs now → now ≤ t →
  burst_inv others (detect key window_seconds mk alerts t) (burst_step W bs t) t.
Proof.
  intros HW Hinv Ht. unfold burst_step. destruct bs as [|[n l] bs _] using rev_ind.
  - unfold detect, upsert_alert. rewrite find_no_row by apply Hinv.
    apply (insert_inv others alerts [] now); [done..| |done]. intros bs' n l H. by destruct bs'.
  - rewrite last_snoc, removelast_last. destruct (Z.ltb_spec (t - l) W) as [Hlt|Hge].
    { by apply (bump_inv others alerts bs now n l). }
    assert (detect key window_seconds mk alerts t = alerts ++ [mk (length alerts) t]) as ->.
    { pose proof (bi_rows _ _ _ _ Hinv) as Hr. unfold rows_of in Hr.
      apply map_eq_app in Hr as (rows & tl & Hf & Hm1 & Hm2).
      apply map_eq_cons in Hm2 as (a & tl' & -> & [= Hna Hla] & ->%map_eq_nil).
      destruct (bi_spaced _ _ _ _ Hinv _ _ _ eq_refl) as [Hln Hall].
      unfold detect, upsert_alert. rewrite (find_last_row alerts rows a t); [| |done| |lia].
      - by rewrite Hla, (proj2 (Z.ltb_ge _ _)) by lia.
      - intros b Hb. by apply (bi_open _ _ _ _ Hinv).
      - intros b Hb. rewrite Hla. apply (Hall (al_occurrence_count b)). rewrite <-Hm1.
        by apply (list_elem_of_fmap_2 summary_of). }
    apply (insert_inv others alerts _ now); [done..| |done].
    by intros bs' n' l' [<- [= <- <-]]%app_inj_tail.
Qed.

Lemma detect_all others alerts bs now ts :
  0 ≤ W → burst_inv others alerts bs now → Sorted Z.le (now :: ts) →
  ∃ now', burst_inv others (foldl (detect key window_seconds mk) alerts ts) (foldl (burst_step W) bs ts) now'.
Proof.
  intros HW. revert alerts bs now. induction ts as [|t ts IH]; intros alerts bs now Hinv Hs; [by exists now|].
  simpl. inversion_clear Hs as [|? ? Hs' Hhd]. inversion_clear Hhd as [|? ? Hle].
  apply (IH _ _ t); [by apply (detect_inv others alerts bs now)|done].
Qed.
End bursts.

(** Coalescing groups detections into bursts.  Starting from a table without
    rows of the key, detections of one key at non-decreasing times leave exactly
    one open row per burst, a burst being a maximal run in which each detection
    follows the one before by less than the window; the row's counter is the
    number of detections of the burst and its last occurrence the time of the
    last one.  Rows of other keys are untouched. *)
Theorem bursts_coalesce key window_seconds uuid4 mk alerts ts :
  (∀ n t, al_id (mk n t) = uuid4 n) → Inj (=) (=) uuid4 → fresh_row key mk →
  0 ≤ window_seconds → ids_drawn uuid4 alerts → rows_of key alerts = [] → Sorted Z.le ts →
  let alerts' := foldl (detect key window_seconds mk) alerts ts in
  rows_of key alerts' = bursts (window_seconds * 1000000) ts ∧
  List.filter (λ a, negb (has_key key a)) alerts' = List.filter (λ a, negb (has_key key a)) alerts.
Proof.
  intros Hids Hinj Hmk HW Hd Hr Hs.
  assert (Hinv : ∀ now, burst_inv key window_seconds uuid4
    (List.filter (λ a, negb (has_key key a)) alerts) alerts [] now).
  { intros now. split; [done..| |done|].
    - unfold rows_of in Hr. apply map_eq_nil in Hr. rewrite Hr. intros a Ha. by apply not_elem_of_nil in Ha.
    - intros bs' n l H. by destruct bs'. }
  destruct ts as [|t ts]; [done|]. destruct (detect_all key window_seconds uuid4 mk Hids Hinj Hmk
    _ alerts [] t (t :: ts) ltac:(lia) (Hinv t)) as [now' Hfin]; [by constructor; [|constructor]|].
  split; [apply (bi_rows _ _ _ _ _ _ _ Hfin)|apply (bi_others _ _ _ _ _ _ _ Hfin)].
Qed.

(** Detections at 0, 100 and 250 s make one burst of the 300 s window; the one
    at 700 s starts another. *)
Definition demo_row (n : nat) (t : datetime) : Alert :=
  mkAlert (Z.of_nat n) DEFAULT_TENANT_ID (Some 5) 9 HIGH ALERT NEW "match" None None None None t None
    None None (Some "k") 1 t.
Definition demo_times : list datetime := [0; 100000000; 250000000; 700000000].

Lemma bursts_coalesce_witness :
  rows_of "k" (foldl (detect "k" 300 demo_row) [] demo_times) = [(3, 250000000); (1, 700000000)].
Proof.
  destruct (bursts_coalesce "k" 300 Z.of_nat demo_row [] demo_times) as [H _];
    [done|apply _|by repeat split|lia|done|done|repeat constructor; lia|exact H].
Defined.

(** ** Keys *)

Lemma hex2_split c c' t t' : hex2 c +:+ t = hex2 c' +:+ t' → c = c' ∧ t = t'.
Proof.
  intros H. apply append_inj in H as [Hc ->]; [|done]. split; [|done].
  unfold hex2 in Hc. injection Hc as Hhi Hlo. pose proof (N_ascii_bounded c). pose proof (N_ascii_bounded c').
  apply hex_digit_inj in Hhi; [|by apply N.Div0.div_lt_upper_bound..].
  apply hex_digit_inj in Hlo; [|by apply N.mod_lt..].
  rewrite <-(ascii_N_embedding c), <-(ascii_N_embedding c'). f_equal.
  change (N_of_ascii c) with (code c). change (N_of_ascii c') with (code c').
  rewrite (N.div_mod (code c) 16), (N.div_mod (code c') 16) by done. congruence.
Qed.

Lemma hexdigest_inj b b' : hexdigest b = hexdigest b' → b = b'.
Proof.
  unfold hexdigest. revert b'. induction b as [|c b IH]; intros [|c' b'] H; [done..|].
  simpl in H. apply hex2_split in H as [-> H]. f_equal. by apply IH.
Qed.

Lemma opt_uuid_str_split host host' t t' :
  (∀ h, host = Some h → uuid_ok h) → (∀ h, host' = Some h → uuid_ok h) →
  opt_uuid_str host +:+ t = opt_uuid_str host' +:+ t' → host = host' ∧ t = t'.
Proof.
  assert (Hno : ∀ h x y, uuid_str h +:+ x ≠ "None" +:+ y).
  { intros h x y He. pose proof (uuid_str_chars h) as Hc. pose proof (uuid_str_length h) as Hl.
    destruct (uuid_str h) as [|c s]; [done|]. rewrite append_cons in He. injection He as -> _.
    by apply andb_true_iff in Hc as [? _]. }
  destruct host as [h|], host' as [h'|]; intros Hh Hh' He; simpl in He.
  - apply append_inj in He as [Hu ->]; [|by rewrite !uuid_str_length].
    apply uuid_str_inj in Hu as ->; auto.
  - by apply Hno in He.
  - symmetry in He. by apply Hno in He.
  - by apply append_inj in He as [_ ->].
Qed.

(** Two detections share a deduplication key only when they agree on the
    rule, on the host (or both have none) and on the text of the signal, or else
    their two canonical strings are distinct and collide under SHA-256. *)
Theorem dedup_key_injective rule rule' host host' ecs ecs' k :
  uuid_ok rule → uuid_ok rule' → (∀ h, host = Some h → uuid_ok h) → (∀ h, host' = Some h → uuid_ok h) →
  dedup_key_for rule host ecs = Ok k → dedup_key_for rule' host' ecs' = Ok k →
  ∃ s s', dedup_signal ecs = Ok s ∧ dedup_signal ecs' = Ok s' ∧
    (rule = rule' ∧ host = host' ∧ py_str s = py_str s' ∨
     let m := utf8 (dedup_canonical rule host s) in
     let m' := utf8 (dedup_canonical rule' host' s') in m ≠ m' ∧ sha256 m = sha256 m').
Proof.
  intros Hr Hr' Hh Hh' Hk Hk'. unfold dedup_key_for in *.
  apply res_bind_ok in Hk as (s & Hs & Hk). apply res_bind_ok in Hk' as (s' & Hs' & Hk').
  exists s, s'. split; [done|]. split; [done|].
  set (m := dedup_canonical rule host s) in *. set (m' := dedup_canonical rule' host' s') in *.
  apply Ok_inj in Hk, Hk'. rewrite <-Hk' in Hk. apply hexdigest_inj in Hk.
  destruct (decide (utf8 m = utf8 m')) as [He|Hne]; [left|right; by split].
  apply utf8_inj in He. unfold m, m', dedup_canonical in He.
  apply append_inj in He as [Hu He]; [|by rewrite !uuid_str_length].
  apply uuid_str_inj in Hu as ->; [|done..]. split; [done|].
  apply append_inj in He as [_ He]; [|done]. apply opt_uuid_str_split in He as [-> He]; [|done..].
  split; [done|]. by apply append_inj in He as [_ He].
Qed.

(** The same binary detected twice on one host, in two events. *)
Definition demo_ecs (id : str) : dict :=
  [("event", PDict [("id", PStr id)]); ("process", PDict [("executable", PStr "/bin/x")])].
Lemma dedup_key_injective_witness :
  ∃ k, dedup_key_for 9 (Some 5) (demo_ecs "a") = Ok k ∧ dedup_key_for 9 (Some 5) (demo_ecs "b") = Ok k ∧
  ∃ s s', dedup_signal (demo_ecs "a") = Ok s ∧ dedup_signal (demo_ecs "b") = Ok s' ∧
    (9 = 9 ∧ Some 5 = Some 5 ∧ py_str s = py_str s' ∨
     let m := utf8 (dedup_canonical 9 (Some 5) s) in
     let m' := utf8 (dedup_canonical 9 (Some 5) s') in m ≠ m' ∧ sha256 m = sha256 m').
Proof.
  eexists. split; [reflexivity|]. split; [reflexivity|].
  eapply (dedup_key_injective 9 9 (Some 5) (Some 5) (demo_ecs "a") (demo_ecs "b"));
    [done|done|by intros h [= <-]|by intros h [= <-]|reflexivity|reflexivity].
Defined.
