(* ===== verification/Response.v ===== *)
(** * Response: commands queued for an alert (services/response.py)

    What the manager sends to the agent when a rule with an action matches: kill,
    block and quarantine commands according to the effective action, a memory
    scan when the rule asks for one, and the playbooks that match the alert.  The
    detection tables are one state, shared with Detector; the job engine's part
    of it is that of Jobs. *)

From Stdlib Require Import Ascii String.
From S2P Require Import Prelude PyStr PyVal PyTime Crypto Models AuditChain Scoping Jobs.
Local Open Scope string_scope.
Local Open Scope list_scope.
Local Open Scope Z_scope.

(** ** State *)

(** models/alert.py, [AlertStateHistory] *)
Record AlertStateHistory := mkHistory {
  ash_alert_id : uuid;
  ash_tenant_id : uuid;
  ash_from_state : option AlertState;
  ash_to_state : AlertState;
  ash_by_user_id : option uuid;
  ash_comment : option str;
  ash_ts : datetime
}.

Record detect_db := mkDetectDb {
  dd_job : job_db;
  dd_rules : list Rule;
  dd_groups : list RuleGroup;
  dd_iocs : list IocEntry;
  dd_feeds : list (uuid * str);        (* intel_feeds: id, name *)
  dd_alerts : list Alert;
  dd_history : list AlertStateHistory;
  dd_published : list (uuid * uuid)    (* playbook.runs: playbook id, alert id *)
}.

Definition set_job_db (j : job_db) (db : detect_db) : detect_db :=
  mkDetectDb j (dd_rules db) (dd_groups db) (dd_iocs db) (dd_feeds db) (dd_alerts db) (dd_history db)
    (dd_published db).
Definition add_commands (cs : list Command) (j : job_db) : job_db :=
  mkJobDb (jd_scope j) (jd_policies j) (jd_jobs j) (jd_runs j) (jd_commands j ++ cs) (jd_audit j).
Definition publish (m : list (uuid * uuid)) (db : detect_db) : detect_db :=
  mkDetectDb (dd_job db) (dd_rules db) (dd_groups db) (dd_iocs db) (dd_feeds db) (dd_alerts db)
    (dd_history db) (dd_published db ++ m).
Definition commands (db : detect_db) : list Command := jd_commands (dd_job db).

(** ** The block pattern *)

(** [_basename] on a value that may be missing: [path.rfind] is an attribute of
    strings only. *)
Definition rbasename (path : pyval) : py pyval :=
  if negb (truthy path) then Ok PNone
  else match path with
       | PStr s => Ok (PStr (after_last backslash (after_last "/" s)))
       | _ => Err AttributeError
       end.

(** A non-empty string. *)
Definition path_str (v : pyval) : option str :=
  match v with PStr s => if nonempty s then Some s else None | _ => None end.

(** [d.get(k1) or _basename(d.get(k2))] *)
Definition name_or_basename (k1 k2 : str) (d : pyval) : py pyval :=
  name ← py_get k1 d;
  if truthy name then Ok name else p ← py_get k2 d; rbasename p.

Definition pick_block_pattern (ecs : dict) : py (option (CommandKind * pyval)) :=
  let process := sub "process" ecs in
  let file_ := sub "file" ecs in
  proc_path ← py_get "executable" process;
  match path_str proc_path with
  | Some p => Ok (Some (BLOCK_PROCESS, PStr p))
  | None =>
      proc_basename ← name_or_basename "name" "executable" process;
      if truthy proc_basename then Ok (Some (BLOCK_PROCESS, proc_basename))
      else
        file_path ← py_get "path" file_;
        match path_str file_path with
        | Some p => Ok (Some (BLOCK_FILE, PStr p))
        | None =>
            file_basename ← name_or_basename "name" "path" file_;
            if truthy file_basename then Ok (Some (BLOCK_FILE, file_basename)) else Ok None
        end
  end.

(** ** Detonation verdicts *)

(** [_matched_hash_is_detonation_ioc]: the process hash is an entry of a feed
    whose name starts with [detonation:]. *)
Definition matched_hash_is_detonation_ioc (db : detect_db) (ecs : dict) : py bool :=
  hash ← py_get "hash" (sub "process" ecs);
  let hash_block := py_or hash (PDict []) in
  let sha := match hash_block with PDict d => get_none "sha256" d | _ => PNone end in
  match path_str sha with
  | None => Ok false
  | Some s =>
      let normalised := strip (lower s) in
      Ok (existsb
            (λ e, bool_decide (ioc_kind e = HASH_SHA256) &&
                  String.eqb (ioc_value_normalized e) normalised &&
                  existsb (λ f, bool_decide (ioc_source_id e = Some f.1) && starts_with "detonation:" f.2)
                    (dd_feeds db))
            (dd_iocs db))
  end.

(** ** Commands *)

(** [isinstance(pid, int) and pid > 0] of [process.pid]. *)
Definition event_pid (ecs : dict) : py (option Z) :=
  v ← py_get "pid" (sub "process" ecs);
  Ok (match as_int v with Some n => if 0 <? n then Some n else None | None => None end).

Section response.
Context (E : env) (host : uuid) (rule_id' : uuid) (alert_id : uuid).

(** [Command(host_id=…, kind=…, …)] with the [n]-th identifier; no tenant is
    passed. *)
Definition response_command (n : nat) (kind : CommandKind) (payload : dict) : Command :=
  new_command (env_uuid4 E n) DEFAULT_TENANT_ID host kind payload (Some alert_id) (Some rule_id') None
    (env_now E).

(** The kind and payload of each command of an action, in order. *)
Definition action_commands (action : RuleAction) (ecs : dict) : py (list (CommandKind * dict)) :=
  if bool_decide (action = ALERT) then Ok []
  else
    pid ← event_pid ecs;
    let kill := match pid with Some n => [(KILL_PROCESS, [("pid", PInt n)])] | None => [] end in
    picked ← pick_block_pattern ecs;
    let block := match picked with Some (k, p) => [(k, [("pattern", p)])] | None => [] end in
    quarantine ←
      (if bool_decide (action = QUARANTINE) then
         p ← py_get "path" (sub "file" ecs);
         Ok (match path_str p with
             | Some s => [(QUARANTINE_FILE, [("path", PStr s); ("delete_original", PBool true)])]
             | None => []
             end)
       else Ok []);
    Ok (kill ++ block ++ quarantine).

(** [_queue_memory_yara_job]: a job, its run and the bridging command. *)
Definition queue_memory_yara_job (pid : Z) (j : job_db) : job_db :=
  let jid := env_uuid4 E (length (jd_jobs j)) in
  let rid := env_uuid4 E (length (jd_runs j)) in
  let cmd := response_command (length (jd_commands j)) RUN_JOB
    [("job_id", PStr (uuid_str jid)); ("run_id", PStr (uuid_str rid));
     ("job_kind", PStr (JobKind.value JobKind.MEMORY_YARA_SCAN));
     ("parameters", PDict [("pid", PInt pid)])] in
  let job := mkJob jid DEFAULT_TENANT_ID JobKind.MEMORY_YARA_SCAN [("pid", PInt pid)] HOST_IDS
    (Some [uuid_str host]) None J_RUNNING
    ("Auto memory YARA scan " +:+ String (ascii_of_N 183) (" pid " +:+ str_of_Z pid))
    None (Some alert_id) "rule" None in
  let run := mkJobRun rid DEFAULT_TENANT_ID jid host (Some (cmd_id cmd)) RUN_QUEUED None None 0 None None in
  mkJobDb (jd_scope j) (jd_policies j) (jd_jobs j ++ [job]) (jd_runs j ++ [run])
    (jd_commands j ++ [cmd]) (jd_audit j).

(** The playbook service: the identifiers of the playbooks whose triggers match
    a rule, a severity and techniques. *)
Context (find_matching_playbooks : uuid → Severity → option (list str) → py (list uuid)).

(** [_fire_matching_playbooks]: every failure is swallowed. *)
Definition fire_matching_playbooks (db : detect_db) : detect_db :=
  match List.find (λ a, al_id a =? alert_id) (dd_alerts db) with
  | None => db
  | Some a =>
      match find_matching_playbooks rule_id' (al_severity a) (al_mitre a) with
      | Ok pbs => publish (map (λ pb, (pb, alert_id)) pbs) db
      | Err _ => db
      end
  end.

(** The whole of [queue_command_for_match]; its result is the commands added. *)
Definition queue_command_for_match (rule_action : RuleAction) (ecs : dict) (db : detect_db) :
    py detect_db :=
  detonated ← matched_hash_is_detonation_ioc db ecs;
  let action := if detonated : bool then QUARANTINE else rule_action in
  specs ← action_commands action ecs;
  let n := length (commands db) in
  let cmds := imap (λ i '(k, p), response_command (n + i) k p) specs in
  let j := add_commands cmds (dd_job db) in
  j ← (match List.find (λ r, rule_id r =? rule_id') (dd_rules db) with
       | Some r =>
           if rule_auto_memory_scan r then
             pid ← event_pid ecs;
             Ok (match pid with Some p => queue_memory_yara_job p j | None => j end)
           else Ok j
       | None => Ok j
       end);
  Ok (fire_matching_playbooks (set_job_db j db)).
End response.

(** ** What an action may queue *)

(** The kinds of command that an effective action allows; a job envelope is the
    memory scan, which does not depend on the action. *)
Definition allowed_kind (action : RuleAction) (k : CommandKind) : bool :=
  match k with
  | RUN_JOB => true
  | KILL_PROCESS | BLOCK_PROCESS | BLOCK_FILE => negb (bool_decide (action = ALERT))
  | QUARANTINE_FILE => bool_decide (action = QUARANTINE)
  | _ => false
  end.

(** The command is a pending one for the host, with the breadcrumbs of the alert
    and the rule that caused it, of a kind the action allows. *)
Definition caused_by (host rule alert : uuid) (action : RuleAction) (c : Command) : Prop :=
  cmd_host_id c = host ∧ cmd_status c = C_PENDING ∧ cmd_alert_id c = Some alert ∧
  cmd_rule_id c = Some rule ∧ allowed_kind action (cmd_kind c) = true.

Lemma pick_block_kind ecs k p :
  pick_block_pattern ecs = Ok (Some (k, p)) → k = BLOCK_PROCESS ∨ k = BLOCK_FILE.
Proof.
  unfold pick_block_pattern. intros H. apply res_bind_ok in H as (v & _ & H).
  destruct (path_str v); [naive_solver|]. apply res_bind_ok in H as (b & _ & H).
  destruct (truthy b); [naive_solver|]. apply res_bind_ok in H as (w & _ & H).
  destruct (path_str w); [naive_solver|]. apply res_bind_ok in H as (f & _ & H).
  destruct (truthy f); naive_solver.
Qed.

Lemma action_commands_kinds action ecs specs :
  action_commands action ecs = Ok specs → Forall (λ kp, allowed_kind action kp.1 = true) specs.
Proof.
  unfold action_commands. case_bool_decide as Ha; [intros [= <-]; constructor|]. intros H.
  apply res_bind_ok in H as (pid & _ & H). apply res_bind_ok in H as (picked & Hp & H).
  apply res_bind_ok in H as (q & Hq & H). injection H as <-.
  assert (Hn : negb (bool_decide (action = ALERT)) = true) by (by rewrite bool_decide_false).
  apply Forall_app. split; [destruct pid; repeat constructor; exact Hn|]. apply Forall_app. split.
  - destruct picked as [[k p]|]; [|constructor]. constructor; [|constructor].
    apply pick_block_kind in Hp as [-> | ->]; exact Hn.
  - destruct (bool_decide_reflect (action = QUARANTINE)) as [Hqa|]; [|injection Hq as <-; constructor].
    apply res_bind_ok in Hq as (v & _ & Hq). injection Hq as <-. destruct (path_str v); [|constructor].
    repeat constructor. simpl. by rewrite bool_decide_true.
Qed.

Lemma Forall_imap {A B} (f : nat → A → B) (P : B → Prop) l :
  (∀ i x, x ∈ l → P (f i x)) → Forall P (imap f l).
Proof.
  intros H. apply Forall_forall. intros y Hy. apply elem_of_lookup_imap in Hy as (i & x & -> & Hx).
  apply H. by eapply list_elem_of_lookup_2.
Qed.

Lemma fire_commands rule alert fmp db :
  dd_job (fire_matching_playbooks rule alert fmp db) = dd_job db.
Proof. unfold fire_matching_playbooks. by repeat case_match. Qed.

(** The tables that the response path only reads. *)
Definition same_config (db db' : detect_db) : Prop :=
  dd_rules db' = dd_rules db ∧ dd_groups db' = dd_groups db ∧ dd_iocs db' = dd_iocs db ∧
  dd_feeds db' = dd_feeds db.

Lemma fire_keeps rule alert fmp db :
  let db' := fire_matching_playbooks rule alert fmp db in
  dd_alerts db' = dd_alerts db ∧ dd_history db' = dd_history db ∧ same_config db db'.
Proof. unfold fire_matching_playbooks. by repeat case_match. Qed.

(** The action after the detonation feedback. *)
Definition effective_action (detonated : bool) (action : RuleAction) : RuleAction :=
  if detonated then QUARANTINE else action.

Lemma queue_command_ok E host rule alert fmp action ecs db db' :
  queue_command_for_match E host rule alert fmp action ecs db = Ok db' →
  ∃ detonated new, matched_hash_is_detonation_ioc db ecs = Ok detonated ∧
    commands db' = commands db ++ new ∧
    Forall (caused_by host rule alert (effective_action detonated action)) new ∧
    dd_alerts db' = dd_alerts db ∧ dd_history db' = dd_history db ∧ same_config db db'.
Proof.
  unfold queue_command_for_match. intros H.
  apply res_bind_ok in H as (det & Hdet & H). apply res_bind_ok in H as (specs & Hs & H).
  apply res_bind_ok in H as (j & Hj & H). injection H as <-.
  apply action_commands_kinds in Hs. fold (effective_action det action) in Hs.
  set (cmds := imap _ specs) in Hj.
  assert (Hcmds : Forall (caused_by host rule alert (effective_action det action)) cmds).
  { apply Forall_imap. intros i [k p] Hin. rewrite Forall_forall in Hs. by specialize (Hs _ Hin). }
  exists det. unfold commands. rewrite fire_commands.
  destruct (fire_keeps rule alert fmp (set_job_db j db)) as (-> & -> & Hcfg). simpl.
  destruct (List.find _ _) as [r|]; [|by injection Hj as <-; exists cmds].
  destruct (rule_auto_memory_scan r); [|by injection Hj as <-; exists cmds].
  apply res_bind_ok in Hj as ([p|] & _ & Hj); injection Hj as <-; [|by exists cmds].
  simpl. eexists (cmds ++ [_]). rewrite <-app_assoc. split_and!; [done..| |done|done|done].
  apply Forall_app. split; [done|]. by repeat constructor.
Qed.
