(* ===== verification/Detector.v ===== *)
(** * Detector: indicators of compromise (services/detector.py, workers/detector.py)

    The snapshot of the enabled IOC rules, the evaluation of an ECS event against
    it, the alerts emitted for its matches, and the step of the worker that does
    the three for one message.  Alerts coalesce as in Dedup and queue commands as
    in Response. *)

From Stdlib Require Import Ascii String.
From S2P Require Import Prelude PyStr PyVal PyTime Crypto Models AuditChain Scoping Jobs Dedup Response.
Local Open Scope string_scope.
Local Open Scope list_scope.
Local Open Scope Z_scope.

(** ** The snapshot *)

(** rule id, name, severity, effective action, techniques *)
Record ioc_target := mkTarget {
  it_rule_id : uuid;
  it_name : str;
  it_severity : Severity;
  it_action : RuleAction;
  it_mitre : option (list str)
}.

Record IocSnapshot := mkSnapshot {
  by_sha256 : list (str * ioc_target);
  by_md5 : list (str * ioc_target);
  by_sha1 : list (str * ioc_target);
  by_filename : list (str * ioc_target);
  by_filepath : list (str * ioc_target)
}.
Definition empty_snapshot : IocSnapshot := mkSnapshot [] [] [] [] [].

(** [table[value] = tup] on the table of the entry's kind. *)
Definition snap_set (k : IocKind) (v : str) (t : ioc_target) (s : IocSnapshot) : IocSnapshot :=
  match s with
  | mkSnapshot a b c d e =>
      match k with
      | HASH_SHA256 => mkSnapshot (dict_set v t a) b c d e
      | HASH_MD5 => mkSnapshot a (dict_set v t b) c d e
      | HASH_SHA1 => mkSnapshot a b (dict_set v t c) d e
      | FILENAME => mkSnapshot a b c (dict_set v t d) e
      | FILEPATH => mkSnapshot a b c d (dict_set v t e)
      end
  end.

Definition ceiling (groups : list RuleGroup) (r : Rule) : option RuleAction :=
  match rule_group_id r with
  | Some g => rg_max_action <$> List.find (λ x, rg_id x =? g) groups
  | None => None
  end.

(** [tuple(techniques) if techniques else None] *)
Definition nonempty_list {A} (l : option (list A)) : option (list A) :=
  match l with Some (_ :: _) => l | _ => None end.

Definition target_of (groups : list RuleGroup) (r : Rule) : ioc_target :=
  mkTarget (rule_id r) (rule_name r) (rule_severity r)
    (clamp_action (rule_action r) (ceiling groups r)) (nonempty_list (rule_mitre r)).

Definition load_rule (db : detect_db) (s : IocSnapshot) (r : Rule) : IocSnapshot :=
  foldl (λ s e, snap_set (ioc_kind e) (ioc_value_normalized e) (target_of (dd_groups db) r) s) s
    (List.filter (λ e, ioc_rule_id e =? rule_id r) (dd_iocs db)).

Definition ioc_rules (db : detect_db) : list Rule :=
  List.filter (λ r, bool_decide (rule_kind r = IOC) && rule_enabled r) (dd_rules db).

Definition load (db : detect_db) : IocSnapshot := foldl (load_rule db) empty_snapshot (ioc_rules db).

(** ** Evaluation *)

Record Match := mkMatch {
  m_target : ioc_target;
  m_summary : str;
  m_field : str;
  m_value : str
}.

Definition norm_path (s : str) : str := lower (replace_char backslash "/" s).
Definition basename (s : str) : str := lower (after_last "/" (replace_char backslash "/" s)).

(** [(v or "").lower()] *)
Definition lower_or_empty (v : pyval) : py str :=
  if negb (truthy v) then Ok ""
  else match v with PStr s => Ok (lower s) | _ => Err AttributeError end.

Definition hit (table : list (str * ioc_target)) (v summary field : str) : list Match :=
  if nonempty v then
    match dict_get v table with Some t => [mkMatch t summary field v] | None => [] end
  else [].

(** The three digests of one source, in order. *)
Definition hash_hits (snap : IocSnapshot) (label : str) (src : pyval) : py (list Match) :=
  h ← py_get "hash" src;
  let h := py_or h (PDict []) in
  let one algo table :=
    v ← py_get algo h; s ← lower_or_empty v;
    Ok (hit table s (label +:+ " hash " +:+ algo +:+ " matches IOC") (label +:+ ".hash." +:+ algo)) in
  a ← one "sha256" (by_sha256 snap);
  b ← one "md5" (by_md5 snap);
  c ← one "sha1" (by_sha1 snap);
  Ok (a ++ b ++ c).

Definition path_hits (snap : IocSnapshot) (label : str) (src : pyval) : py (list Match) :=
  exe ← py_get "executable" src;
  path ← or_else exe (py_get "path" src);
  if negb (truthy path) then Ok []
  else match path with
       | PStr s =>
           Ok (hit (by_filename snap) (basename s) (label +:+ " basename matches IOC") "name" ++
               hit (by_filepath snap) (norm_path s) (label +:+ " path matches IOC") "path")
       | _ => Err AttributeError
       end.

Definition evaluate (ecs : dict) (snap : IocSnapshot) : py (list Match) :=
  let process := sub "process" ecs in
  let file_ := sub "file" ecs in
  a ← hash_hits snap "process" process;
  b ← hash_hits snap "file" file_;
  c ← path_hits snap "process" process;
  d ← path_hits snap "file" file_;
  Ok (a ++ b ++ c ++ d).

(** ** Emission *)

(** services/host_cache.py, [resolve_alert_tenant_id] *)
Definition resolve_alert_tenant_id (db : detect_db) (hid : uuid) (ecs_tenant_id : pyval) :
    py (option uuid) :=
  let from_host := host_tenant_id <$> find_host (dd_job db) hid in
  if negb (truthy ecs_tenant_id) then Ok from_host
  else match ecs_tenant_id with
       | PStr s => match uuid_of_str s with Some t => Ok (Some t) | None => Ok from_host end
       | _ => Err AttributeError
       end.

Section emit.
Context (E : env) (window_s : Z)
  (find_matching_playbooks : uuid → Severity → option (list str) → py (list uuid)).

Definition set_alerts (l : list Alert) (h : list AlertStateHistory) (db : detect_db) : detect_db :=
  mkDetectDb (dd_job db) (dd_rules db) (dd_groups db) (dd_iocs db) (dd_feeds db) l h (dd_published db).

(** [ecs.get("event", {}).get("id")] *)
Definition event_id (ecs : dict) : py pyval := py_get "id" (get_default "event" ecs (PDict [])).

(** The row inserted for a match. *)
Definition match_alert (id tenant hid : uuid) (m : Match) (dkey : str) (eid : pyval) : Alert :=
  mkAlert id tenant (Some hid) (it_rule_id (m_target m)) (it_severity (m_target m))
    (it_action (m_target m)) NEW (m_summary m)
    (Some [("rule_name", PStr (it_name (m_target m))); ("matched_field", PStr (m_field m));
           ("matched_value", PStr (m_value m)); ("event_id", eid)])
    None None (nonempty_list (it_mitre (m_target m))) (env_now E) None None None (Some dkey) 1 (env_now E).

(** One iteration of the loop of [emit_alerts]. *)
Definition emit_one (tenant hid : uuid) (ecs : dict) (m : Match) (db : detect_db) :
    py (detect_db * (uuid * bool)) :=
  dkey ← dedup_key_for (it_rule_id (m_target m)) (Some hid) ecs;
  match find_open_dupe dkey window_s (env_now E) (dd_alerts db) with
  | Some a =>
      Ok (set_alerts (map (λ b, if al_id b =? al_id a then bump_occurrence (env_now E) b else b)
                        (dd_alerts db)) (dd_history db) db, (al_id a, false))
  | None =>
      eid ← event_id ecs;
      let id := env_uuid4 E (length (dd_alerts db)) in
      let alert := match_alert id tenant hid m dkey eid in
      let history := mkHistory id DEFAULT_TENANT_ID None NEW None (Some "auto-generated by IOC detector")
        (env_now E) in
      db ← queue_command_for_match E hid (it_rule_id (m_target m)) id find_matching_playbooks
             (it_action (m_target m)) ecs
             (set_alerts (dd_alerts db ++ [alert]) (dd_history db ++ [history]) db);
      Ok (db, (id, true))
  end.

Fixpoint emit_loop (tenant hid : uuid) (ecs : dict) (ms : list Match) (db : detect_db)
    (out : list (uuid * bool)) : py (detect_db * list (uuid * bool)) :=
  match ms with
  | [] => Ok (db, out)
  | m :: ms => '(db, r) ← emit_one tenant hid ecs m db; emit_loop tenant hid ecs ms db (out ++ [r])
  end.

Definition emit_alerts (hid : uuid) (ms : list Match) (ecs : dict) (db : detect_db) :
    py (detect_db * list (uuid * bool)) :=
  ecs_tenant ← py_get "id" (sub "tenant" ecs);
  tenant ← resolve_alert_tenant_id db hid ecs_tenant;
  match tenant with
  | None => Ok (db, [])
  | Some t => emit_loop t hid ecs ms db []
  end.

(** ** The worker *)

Definition REFRESH_us : Z := 30 * 1000000.

(** [DetectorState]: the cached snapshot and when it was loaded. *)
Record DetectorState := mkDetState { ds_snapshot : IocSnapshot; ds_last_load : option datetime }.
Definition init_state : DetectorState := mkDetState empty_snapshot None.

Definition get_snapshot (db : detect_db) (st : DetectorState) : DetectorState :=
  let now := env_now E in
  if match ds_last_load st with None => true | Some t => REFRESH_us <? now - t end
  then mkDetState (load db) (Some now)
  else st.

(** [UUID(ecs.get("host", {}).get("id"))], [None] when the id is missing. *)
Definition event_host (ecs : dict) : py (option uuid) :=
  hid ← py_get "id" (get_default "host" ecs (PDict []));
  if negb (truthy hid) then Ok None
  else match hid with
       | PStr s => Some <$> of_option ValueError (uuid_of_str s)
       | _ => Err AttributeError
       end.

(** One decoded message.  A failing evaluation is logged and yields no match;
    any later exception stops the worker before its offset is committed, and
    its transaction is rolled back. *)
Definition detector_step (ecs : dict) (st : DetectorState) (db : detect_db) :
    py (DetectorState * detect_db) :=
  let st := get_snapshot db st in
  let matches := match evaluate ecs (ds_snapshot st) with Ok ms => ms | Err _ => [] end in
  match matches with
  | [] => Ok (st, db)
  | _ =>
      host ← event_host ecs;
      match host with
      | None => Ok (st, db)
      | Some host => '(db, _) ← emit_alerts host matches ecs db; Ok (st, db)
      end
  end.
End emit.

(** ** Targets come from rules *)

(** Every entry of every table of the snapshot. *)
Definition snap_targets (s : IocSnapshot) : list ioc_target :=
  map snd (by_sha256 s ++ by_md5 s ++ by_sha1 s ++ by_filename s ++ by_filepath s).

Lemma elem_of_dict_set_values {A} k (v : A) d x : x ∈ map snd (dict_set k v d) → x = v ∨ x ∈ map snd d.
Proof.
  induction d as [|[k' v'] d IH]; simpl; [set_solver|].
  case_match; simpl; rewrite !elem_of_cons; naive_solver.
Qed.

Lemma snap_set_targets k v t s x : x ∈ snap_targets (snap_set k v t s) → x = t ∨ x ∈ snap_targets s.
Proof.
  destruct s as [a b c d e]. unfold snap_targets.
  destruct k; simpl; rewrite !map_app, !elem_of_app;
    pose proof (elem_of_dict_set_values v t a x); pose proof (elem_of_dict_set_values v t b x);
    pose proof (elem_of_dict_set_values v t c x); pose proof (elem_of_dict_set_values v t d x);
    pose proof (elem_of_dict_set_values v t e x); tauto.
Qed.

Lemma load_rule_targets db s r x :
  x ∈ snap_targets (load_rule db s r) → x = target_of (dd_groups db) r ∨ x ∈ snap_targets s.
Proof.
  unfold load_rule. generalize (List.filter (λ e, ioc_rule_id e =? rule_id r) (dd_iocs db)) as es.
  intros es. revert s. induction es as [|e es IH]; intros s; simpl; [by right|].
  intros [H|H]%IH; [by left|]. by apply snap_set_targets in H.
Qed.

Lemma load_targets db x :
  x ∈ snap_targets (load db) → ∃ r, r ∈ ioc_rules db ∧ x = target_of (dd_groups db) r.
Proof.
  unfold load.
  assert (H : ∀ rs s, (∀ r, r ∈ rs → r ∈ ioc_rules db) → x ∈ snap_targets (foldl (load_rule db) s rs) →
    (∃ r, r ∈ ioc_rules db ∧ x = target_of (dd_groups db) r) ∨ x ∈ snap_targets s).
  { induction rs as [|r rs IH]; intros s Hrs Hx; [by right|]. simpl in Hx.
    apply IH in Hx as [Hx|Hx]; [by left| |set_solver]. apply load_rule_targets in Hx as [->|Hx]; [|by right].
    left. exists r. split; [|done]. apply Hrs. by left. }
  intros [Hr|Hr]%H; [done| |done]. by apply not_elem_of_nil in Hr.
Qed.

Lemma hit_target table v s f m : m ∈ hit table v s f → m_target m ∈ map snd table.
Proof.
  unfold hit. destruct (nonempty v); [|by intros H%not_elem_of_nil].
  destruct (dict_get v table) as [t|] eqn:Ht; [|by intros H%not_elem_of_nil].
  intros ->%list_elem_of_singleton. simpl. apply dict_get_elem in Ht.
  by apply (list_elem_of_fmap_2 snd _ _ Ht).
Qed.

Lemma hash_hits_targets snap label src ms m :
  hash_hits snap label src = Ok ms → m ∈ ms → m_target m ∈ snap_targets snap.
Proof.
  unfold hash_hits, snap_targets. intros H. apply res_bind_ok in H as (h & _ & H).
  apply res_bind_ok in H as (a & Ha & H). apply res_bind_ok in H as (b & Hb & H).
  apply res_bind_ok in H as (c & Hc & H). injection H as <-. rewrite !map_app, !elem_of_app.
  repeat match goal with
  | Hx : mbind _ _ = Ok _ |- _ => apply res_bind_ok in Hx as (? & _ & Hx)
  end. injection Ha as <-. injection Hb as <-. injection Hc as <-.
  intros [H%hit_target|[H%hit_target|H%hit_target]]; tauto.
Qed.

Lemma path_hits_targets snap label src ms m :
  path_hits snap label src = Ok ms → m ∈ ms → m_target m ∈ snap_targets snap.
Proof.
  unfold path_hits, snap_targets. intros H. apply res_bind_ok in H as (exe & _ & H).
  apply res_bind_ok in H as (path & _ & H).
  destruct (negb (truthy path)); [injection H as <-; intros Hm; by apply not_elem_of_nil in Hm|].
  destruct path; try discriminate H. injection H as <-. rewrite !map_app, !elem_of_app.
  intros [H%hit_target|H%hit_target]; tauto.
Qed.

Lemma evaluate_targets ecs snap ms m :
  evaluate ecs snap = Ok ms → m ∈ ms → m_target m ∈ snap_targets snap.
Proof.
  unfold evaluate. intros H. apply res_bind_ok in H as (a & Ha & H).
  apply res_bind_ok in H as (b & Hb & H). apply res_bind_ok in H as (c & Hc & H).
  apply res_bind_ok in H as (d & Hd & H). injection H as <-. rewrite !elem_of_app.
  intros [H|[H|[H|H]]]; eauto using hash_hits_targets, path_hits_targets.
Qed.

(** ** Commands stay within the ceiling *)

(** The command is allowed by the action of some enabled rule, clamped by the
    ceiling of its group, or raised by a detonation verdict. *)
Definition within_ceiling (db : detect_db) (detonated : bool) (host : uuid) (c : Command) : Prop :=
  ∃ r, r ∈ ioc_rules db ∧ cmd_host_id c = host ∧ cmd_status c = C_PENDING ∧
    cmd_rule_id c = Some (rule_id r) ∧
    allowed_kind (effective_action detonated (clamp_action (rule_action r) (ceiling (dd_groups db) r)))
      (cmd_kind c) = true.

Lemma detonation_config db db' ecs :
  same_config db db' → matched_hash_is_detonation_ioc db' ecs = matched_hash_is_detonation_ioc db ecs.
Proof. intros (_ & _ & Hi & Hf). unfold matched_hash_is_detonation_ioc. by rewrite Hi, Hf. Qed.

Section ceiling.
Context (E : env) (window_s : Z) (fmp : uuid → Severity → option (list str) → py (list uuid)).

Lemma emit_one_commands tenant hid ecs m db db' r det :
  emit_one E window_s fmp tenant hid ecs m db = Ok (db', r) →
  matched_hash_is_detonation_ioc db ecs = Ok det →
  same_config db db' ∧
  ∃ new, commands db' = commands db ++ new ∧
    Forall (λ c, cmd_host_id c = hid ∧ cmd_status c = C_PENDING ∧
                 cmd_rule_id c = Some (it_rule_id (m_target m)) ∧
                 allowed_kind (effective_action det (it_action (m_target m))) (cmd_kind c) = true) new.
Proof.
  unfold emit_one. intros H Hdet. apply res_bind_ok in H as (dkey & _ & H).
  destruct (find_open_dupe _ _ _ _) as [a|].
  - injection H as <- _. split; [done|]. exists []. by rewrite app_nil_r.
  - apply res_bind_ok in H as (eid & _ & H). apply res_bind_ok in H as (db1 & Hq & H). injection H as <- _.
    apply queue_command_ok in Hq as (det' & new & Hd & Hc & Hall & _ & _ & Hcfg).
    split; [done|]. exists new. split; [done|].
    rewrite (detonation_config db) in Hd by done. rewrite Hd in Hdet. apply Ok_inj in Hdet as ->.
    eapply Forall_impl; [exact Hall|]. unfold caused_by. naive_solver.
Qed.

Lemma emit_loop_commands tenant hid ecs ms db out db' out' det (P : Command → Prop) :
  emit_loop E window_s fmp tenant hid ecs ms db out = Ok (db', out') →
  matched_hash_is_detonation_ioc db ecs = Ok det →
  (∀ m c, m ∈ ms → cmd_host_id c = hid → cmd_status c = C_PENDING →
     cmd_rule_id c = Some (it_rule_id (m_target m)) →
     allowed_kind (effective_action det (it_action (m_target m))) (cmd_kind c) = true → P c) →
  ∃ new, commands db' = commands db ++ new ∧ Forall P new.
Proof.
  revert db out. induction ms as [|m ms IH]; intros db out H Hdet HP; simpl in H.
  - injection H as <- _. exists []. by rewrite app_nil_r.
  - apply res_bind_ok in H as ([db1 r] & H1 & H).
    destruct (emit_one_commands _ _ _ _ _ _ _ _ H1 Hdet) as (Hcfg & new & Hc & Hall).
    destruct (IH db1 (out ++ [r]) H) as (new' & Hc' & Hall').
    + by rewrite (detonation_config db).
    + intros m' c Hm'. apply HP. by right.
    + exists (new ++ new'). rewrite Hc', Hc, app_assoc. split; [done|]. apply Forall_app. split; [|done].
      eapply Forall_impl; [exact Hall|]. intros c (Hh & Hs & Hr & Hk). apply (HP m); [by left|done..].
Qed.
End ceiling.


(** ** Tenants *)

Definition retenant (f : uuid → uuid) (r : Rule) : Rule :=
  mkRule (rule_id r) (f (rule_tenant_id r)) (rule_kind r) (rule_name r) (rule_description r)
    (rule_severity r) (rule_action r) (rule_enabled r) (rule_group_id r) (rule_body r) (rule_revision r)
    (rule_mitre r) (rule_auto_memory_scan r).
Definition retenant_rules (f : uuid → uuid) (db : detect_db) : detect_db :=
  mkDetectDb (dd_job db) (map (retenant f) (dd_rules db)) (dd_groups db) (dd_iocs db) (dd_feeds db)
    (dd_alerts db) (dd_history db) (dd_published db).

(** The tenant of an IOC rule plays no part in detection: moving rules
    between tenants in any way leaves the snapshot as it is, so the rules of every
    tenant match, alert and queue commands on the hosts of all tenants. *)
Theorem ioc_rules_ignore_tenants f db ecs :
  load (retenant_rules f db) = load db ∧
  evaluate ecs (load (retenant_rules f db)) = evaluate ecs (load db).
Proof.
  assert (Hl : load (retenant_rules f db) = load db); [|by rewrite Hl].
  unfold load, ioc_rules, retenant_rules. simpl.
  rewrite filter_map_key by done.
  generalize (List.filter (λ r, bool_decide (rule_kind r = IOC) && rule_enabled r) (dd_rules db)).
  intros rs. generalize empty_snapshot. induction rs as [|r rs IH]; intros s; [done|]. simpl. apply IH.
Qed.

(** ** No match is lost *)

Section represented.
Context (E : env) (window_s : Z) (fmp : uuid → Severity → option (list str) → py (list uuid)).
Context (tenant hid : uuid) (ecs : dict).

(** An open alert with the key of the match, seen at the current time; when it
    was created for the match, it carries the match's rule, severity and action,
    the tenant and the host. *)
Definition represented (alerts : list Alert) (m : Match) (r : uuid * bool) : Prop :=
  ∃ a key, a ∈ alerts ∧ al_id a = r.1 ∧
    dedup_key_for (it_rule_id (m_target m)) (Some hid) ecs = Ok key ∧ al_dedup_key a = Some key ∧
    is_open a = true ∧ al_last_occurred_at a = env_now E ∧
    (r.2 = true → al_tenant_id a = tenant ∧ al_host_id a = Some hid ∧
       al_rule_id a = it_rule_id (m_target m) ∧ al_severity a = it_severity (m_target m) ∧
       al_action_taken a = it_action (m_target m)).

(** Later iterations only insert rows and bump counters. *)
Definition evolves (old new : list Alert) : Prop :=
  ∀ a, a ∈ old → a ∈ new ∨ bump_occurrence (env_now E) a ∈ new.

Lemma represented_evolves old new m r :
  evolves old new → represented old m r → represented new m r.
Proof.
  intros Hev (a & key & Ha & Hid & Hk & Hak & Hop & Hl & Hc). destruct (Hev a Ha) as [Hin|Hin].
  - exists a, key. by split_and!.
  - exists (bump_occurrence (env_now E) a), key. by split_and!.
Qed.

Lemma most_recent_elem rows a : most_recent rows = Some a → a ∈ rows.
Proof.
  revert a. induction rows as [|b rows IH]; intros a H; [done|]. simpl in H.
  destruct (most_recent rows) as [c|].
  - destruct (_ <? _); injection H as <-; [right; by apply IH|by left].
  - injection H as <-. by left.
Qed.

Lemma emit_one_represented m db db' r :
  emit_one E window_s fmp tenant hid ecs m db = Ok (db', r) →
  evolves (dd_alerts db) (dd_alerts db') ∧ represented (dd_alerts db') m r.
Proof.
  unfold emit_one. intros H. apply res_bind_ok in H as (dkey & Hk & H).
  destruct (find_open_dupe _ _ _ _) as [a|] eqn:Hf.
  - injection H as <- <-. simpl. split.
    + intros b Hb. destruct (Z.eqb_spec (al_id b) (al_id a)) as [He|He]; [right|left];
        apply list_elem_of_fmap; exists b; split; try done;
        by rewrite ?He, ?Z.eqb_refl, ?(proj2 (Z.eqb_neq _ _) He).
    + apply most_recent_elem, elem_of_filterb in Hf as [Hin Ho]. unfold open_dupe in Ho. breflect.
      destruct Ho as [[Hak _] Hop]. exists (bump_occurrence (env_now E) a), dkey. split_and!; try done.
      apply list_elem_of_fmap. exists a. by rewrite Z.eqb_refl.
  - apply res_bind_ok in H as (eid & _ & H). apply res_bind_ok in H as (db1 & Hq & H). injection H as <- <-.
    apply queue_command_ok in Hq as (_ & _ & _ & _ & _ & Ha & _). rewrite Ha. simpl. split.
    + intros b Hb. left. apply elem_of_app. by left.
    + eexists _, dkey. split; [apply elem_of_app; right; by left|]. by split_and!.
Qed.

Lemma emit_loop_represented ms db out db' out' done_ms :
  emit_loop E window_s fmp tenant hid ecs ms db out = Ok (db', out') →
  Forall2 (represented (dd_alerts db)) done_ms out →
  Forall2 (represented (dd_alerts db')) (done_ms ++ ms) out'.
Proof.
  revert db out done_ms. induction ms as [|m ms IH]; intros db out done_ms H Hd; simpl in H.
  - injection H as <- <-. by rewrite app_nil_r.
  - apply res_bind_ok in H as ([db1 r] & H1 & H). destruct (emit_one_represented _ _ _ _ H1) as [Hev Hr].
    rewrite cons_middle, app_assoc. apply (IH db1 (out ++ [r])); [done|].
    apply Forall2_app; [|by constructor]. eapply Forall2_impl; [exact Hd|].
    intros m' r' ?. by eapply represented_evolves.
Qed.
End represented.

(** No match is lost: unless the event carries no tenant and its host is
    unknown, every match of the event, in order, is represented afterwards by an
    open alert with the match's deduplication key, last seen now; the rows created
    carry the match's rule, severity and effective action, and the tenant and the
    host of the event. *)
Theorem matches_represented E window_s fmp hid ms ecs db db' out :
  emit_alerts E window_s fmp hid ms ecs db = Ok (db', out) →
  (∃ v, py_get "id" (sub "tenant" ecs) = Ok v ∧ resolve_alert_tenant_id db hid v = Ok None ∧
        db' = db ∧ out = []) ∨
  ∃ v tenant, py_get "id" (sub "tenant" ecs) = Ok v ∧
    resolve_alert_tenant_id db hid v = Ok (Some tenant) ∧
    Forall2 (represented E tenant hid ecs (dd_alerts db')) ms out.
Proof.
  unfold emit_alerts. intros H. apply res_bind_ok in H as (v & Hv & H).
  apply res_bind_ok in H as (tenant & Ht & H). destruct tenant as [tenant|].
  - right. exists v, tenant. split_and!; [done..|].
    by apply (emit_loop_represented E window_s fmp tenant hid ecs ms db [] db' out []).
  - left. injection H as <- <-. by exists v.
Qed.

(** ** Example *)

(** A blocking rule in a group capped at alerting, and a process whose
    executable has the rule's file name. *)
Definition demo_ioc_rule : Rule :=
  mkRule 900 1 IOC "mimikatz" None HIGH BLOCK true (Some 70) None 1 None false.
Definition demo_group : RuleGroup := mkRuleGroup 70 1 IOC "tuning" None ALERT.
Definition demo_entry : IocEntry := mkIocEntry 901 1 900 FILENAME "mimikatz.exe" "mimikatz.exe" None.
Definition demo_detect_db : detect_db :=
  mkDetectDb demo_jobs [demo_ioc_rule] [demo_group] [demo_entry] [] [] [] [].
Definition demo_event : dict :=
  [("event", PDict [("id", PStr "e1")]); ("host", PDict [("id", PStr (uuid_str 100))]);
   ("process", PDict [("executable", PStr "C:\Tools\Mimikatz.EXE"); ("pid", PInt 42)])].
Definition demo_fmp : uuid → Severity → option (list str) → py (list uuid) := λ _ _ _, Ok [].
Definition demo_step : py (DetectorState * detect_db) :=
  detector_step demo_env 300 demo_fmp demo_event init_state demo_detect_db.


Definition demo_matches : list Match :=
  match evaluate demo_event (load demo_detect_db) with Ok ms => ms | Err _ => [] end.

Lemma matches_represented_witness :
  ∃ db' out, emit_alerts demo_env 300 demo_fmp 100 demo_matches demo_event demo_detect_db = Ok (db', out) ∧
    length demo_matches = 1%nat ∧ map snd out = [true] ∧
    ((∃ v, py_get "id" (sub "tenant" demo_event) = Ok v ∧
           resolve_alert_tenant_id demo_detect_db 100 v = Ok None ∧ db' = demo_detect_db ∧ out = []) ∨
     ∃ v tenant, py_get "id" (sub "tenant" demo_event) = Ok v ∧
       resolve_alert_tenant_id demo_detect_db 100 v = Ok (Some tenant) ∧
       Forall2 (represented demo_env tenant 100 demo_event (dd_alerts db')) demo_matches out).
Proof.
  eexists _, _. split; [reflexivity|]. split; [reflexivity|]. split; [reflexivity|].
  eapply (matches_represented demo_env 300 demo_fmp 100 demo_matches demo_event demo_detect_db).
  reflexivity.
Defined.
