(* ===== verification/Incidents.v ===== *)
(** * Incidents: grouping alerts (services/incident_grouping.py)

    The pass that attaches recent, ungrouped alerts to incidents host by host, and
    the refinement that relabels an incident when two of its alerts share a
    process ancestor.  The OpenSearch fallback of the refinement is the argument
    [fetch_process_started]. *)

From Stdlib Require Import Ascii String.
From S2P Require Import Prelude PyStr PyVal PyTime Models.
Local Open Scope string_scope.
Local Open Scope list_scope.
Local Open Scope Z_scope.

(** ** State *)

(** The tables the pass reads and writes; a row of [process_chain] is a host, a
    pid and the pid of its parent. *)
Record inc_db := mkIncDb {
  id_alerts : list Alert;
  id_incidents : list Incident;
  id_rules : list Rule;
  id_chain : list (uuid * Z * option Z)
}.

Definition SEVERITY_RANK (s : Severity) : Z :=
  match s with INFO => 0 | LOW => 1 | MEDIUM => 2 | HIGH => 3 | CRITICAL => 4 end.

Definition max_severity (a b : Severity) : Severity :=
  if SEVERITY_RANK b <=? SEVERITY_RANK a then a else b.

(** [alert.incident_id = i] on one row. *)
Definition attach (aid i : uuid) (db : inc_db) : inc_db :=
  mkIncDb (map (λ a, if al_id a =? aid then set_incident i a else a) (id_alerts db))
    (id_incidents db) (id_rules db) (id_chain db).
Definition add_incident (i : Incident) (db : inc_db) : inc_db :=
  mkIncDb (id_alerts db) (id_incidents db ++ [i]) (id_rules db) (id_chain db).
Definition update_incidents (f : Incident → Incident) (db : inc_db) : inc_db :=
  mkIncDb (id_alerts db) (map f (id_incidents db)) (id_rules db) (id_chain db).

Definition set_inc_severity (s : Severity) (i : Incident) : Incident :=
  mkIncident (inc_id i) (inc_tenant_id i) (inc_host_id i) (inc_title i) (inc_summary i) s
    (inc_status i) (inc_opened_at i) (inc_closed_at i) (inc_assignee_id i) (inc_reason i).
Definition set_inc_reason (r : IncidentGroupingReason) (i : Incident) : Incident :=
  mkIncident (inc_id i) (inc_tenant_id i) (inc_host_id i) (inc_title i) (inc_summary i) (inc_severity i)
    (inc_status i) (inc_opened_at i) (inc_closed_at i) (inc_assignee_id i) r.

(** ** Selection *)

(** The [WHERE] clause: ungrouped, on a real host, recent. *)
Definition eligible (cutoff : datetime) (a : Alert) : bool :=
  match al_incident_id a, al_host_id a with
  | None, Some _ => cutoff <=? al_opened_at a
  | _, _ => false
  end.

(** [ORDER BY host_id, opened_at], bucketed by host. *)
Definition hosts_of (rows : list Alert) : list uuid := sort_by id (dedup (omap al_host_id rows)).
Definition bucket (rows : list Alert) (h : uuid) : list Alert :=
  sort_by al_opened_at (List.filter (λ a, bool_decide (al_host_id a = Some h)) rows).

(** The most recent open incident of the host; ties keep the earlier row. *)
Definition is_live (i : Incident) : bool := bool_decide (inc_status i ∈ [IOPEN; IINVESTIGATING]).
Definition latest_by {A} (key : A → Z) : list A → option A :=
  foldl (λ best x, match best with
                   | Some b => if key b <? key x then Some x else best
                   | None => Some x
                   end) None.
Definition prev_open (db : inc_db) (h : uuid) : option Incident :=
  latest_by inc_opened_at
    (List.filter (λ i, bool_decide (inc_host_id i = Some h) && is_live i) (id_incidents db)).
Definition latest_attached (db : inc_db) (i : uuid) : option datetime :=
  latest_by id (map al_opened_at
    (List.filter (λ a, bool_decide (al_incident_id a = Some i)) (id_alerts db))).

Definition rule_name_of (db : inc_db) (rid : uuid) : option str :=
  match List.find (λ r, rule_id r =? rid) (id_rules db) with
  | Some r => if nonempty (rule_name r) then Some (rule_name r) else None
  | None => None
  end.

(** ** The pass over one host *)

Definition new_incident (E : env) (db : inc_db) (h : uuid) (a : Alert) : Incident :=
  let title :=
    match rule_name_of db (al_rule_id a) with
    | Some name => name +:+ " on host " +:+ uuid_str h
    | None => "Incident on host " +:+ uuid_str h
    end in
  mkIncident (env_uuid4 E (length (id_incidents db))) (al_tenant_id a) (Some h) (take_str 256 title)
    (if nonempty (al_summary a) then Some (take_str 512 (al_summary a)) else None) (al_severity a) IOPEN
    (al_opened_at a) None None WINDOW.

(** The rolling head: the current incident with the time of the last alert
    attached to it. *)
Definition head : Type := option (Incident * datetime).

Definition group_one (E : env) (window : Z) (h : uuid) (st : inc_db * head * list uuid) (a : Alert) :
    inc_db * head * list uuid :=
  let '(db, hd, touched) := st in
  let open_new :=
    let i := new_incident E db h a in
    (attach (al_id a) (inc_id i) (add_incident i db), Some (i, al_opened_at a), touched ++ [inc_id i]) in
  match hd with
  | Some (i, ts) =>
      if al_opened_at a - ts <=? window then
        (attach (al_id a) (inc_id i) db, Some (i, al_opened_at a), touched ++ [inc_id i])
      else open_new
  | None => open_new
  end.

(** The head at the start of the host: the open incident, if the first alert
    lands within the window of its last attached alert. *)
Definition initial_head (window : Z) (db : inc_db) (h : uuid) (alerts : list Alert) : head :=
  match prev_open db h, alerts with
  | Some i, a :: _ =>
      let ts := default (inc_opened_at i) (latest_attached db (inc_id i)) in
      if al_opened_at a - ts <=? window then Some (i, ts) else None
  | _, _ => None
  end.

(** The severity of the last incident of the host is raised to that of its
    alerts of this pass. *)
Definition bump_severity (alerts : list Alert) (hd : head) (db : inc_db) : inc_db :=
  match hd with
  | None => db
  | Some (i, _) =>
      let attached a :=
        existsb (λ b, (al_id b =? al_id a) && bool_decide (al_incident_id b = Some (inc_id i))) (id_alerts db) in
      let m := foldl (λ s a, if attached a then max_severity s (al_severity a) else s)
                 (inc_severity i) alerts in
      if bool_decide (m = inc_severity i) then db
      else update_incidents (λ x, if inc_id x =? inc_id i then set_inc_severity m x else x) db
  end.

Definition group_host (E : env) (window : Z) (rows : list Alert) (st : inc_db * list uuid) (h : uuid) :
    inc_db * list uuid :=
  let '(db, touched) := st in
  let alerts := bucket rows h in
  let '(db, hd, touched) := foldl (group_one E window h) (db, initial_head window db h alerts, touched) alerts in
  (bump_severity alerts hd db, touched).

(** ** Process trees *)

Definition TREE_DEPTH_LIMIT : nat := 32.

(** [_alert_pid] *)
Definition proc_pid (v : pyval) : option Z :=
  match v with
  | PDict d => match as_int (get_none "pid" d) with Some n => if 0 <? n then Some n else None | None => None end
  | _ => None
  end.
Definition alert_pid (a : Alert) : option Z :=
  match al_details a with
  | None => None
  | Some d =>
      match proc_pid (get_none "process" d) with
      | Some p => Some p
      | None => match get_none "metadata" d with PDict m => proc_pid (get_none "process" m) | _ => None end
      end
  end.

(** The walk towards init: at most 32 parents, none seen before, all positive. *)
Fixpoint walk_parents (fuel : nat) (parent_of : Z → option Z) (seen : list Z) (pid : Z) : list Z :=
  match fuel with
  | O => []
  | S fuel =>
      match parent_of pid with
      | Some p =>
          if bool_decide (p ∈ seen) || (p <=? 0) then []
          else p :: walk_parents fuel parent_of (p :: seen) p
      | None => []
      end
  end.
Definition ancestor_pids_from_pg (db : inc_db) (h : uuid) (pid : Z) : list Z :=
  walk_parents TREE_DEPTH_LIMIT
    (λ p, match List.find (λ r, (r.1.1 =? h) && (r.1.2 =? p)) (id_chain db) with
          | Some r => r.2
          | None => None
          end) [pid] pid.

Section refine.
(** The [process_started] document of a host and a pid. *)
Context (fetch_process_started : uuid → Z → option dict).

Definition os_parent (h : uuid) (pid : Z) : option Z :=
  match fetch_process_started h pid with
  | Some ((_ :: _) as doc) =>
      match sub "process" doc with
      | PDict proc =>
          match get_default "parent" proc (PDict []) with
          | PDict parent => as_int (get_none "pid" parent)
          | _ => None
          end
      | _ => None
      end
  | _ => None
  end.
Definition ancestor_pids_from_os (h : uuid) (pid : Z) : list Z :=
  walk_parents TREE_DEPTH_LIMIT (os_parent h) [pid] pid.

Definition shares_pid (trees : list (list Z)) : bool :=
  existsb (λ p, (2 <=? countb (λ t, bool_decide (p ∈ t)) trees)%nat) (concat trees).

(** Whether an incident is relabelled. *)
Definition promote (db : inc_db) (i : uuid) : bool :=
  let host_alerts :=
    omap (λ a, match al_host_id a with
               | Some h => if bool_decide (al_incident_id a = Some i) then Some (h, a) else None
               | None => None
               end) (id_alerts db) in
  if (length host_alerts <? 2)%nat then false
  else
    let pairs := omap (λ ha, (λ p, (ha.1, p)) <$> alert_pid ha.2) host_alerts in
    let pg := map (λ hp, (hp.2, ancestor_pids_from_pg db hp.1 hp.2)) pairs in
    let trees :=
      if existsb (λ t, negb (bool_decide (t.2 = []))) pg then map (λ t, t.1 :: t.2) pg
      else map (λ hp, hp.2 :: ancestor_pids_from_os hp.1 hp.2) pairs in
    if (length trees <? 2)%nat then false else shares_pid trees.

Definition refine_process_tree (touched : list uuid) (db : inc_db) : inc_db :=
  update_incidents
    (λ i, if bool_decide (inc_id i ∈ touched) && promote db (inc_id i) then set_inc_reason PROCESS_TREE i
          else i) db.

(** ** The whole pass *)

Definition regroup_recent (E : env) (window_s : Z) (db : inc_db) : inc_db * Z :=
  if window_s <=? 0 then (db, 0)
  else
    let cutoff := env_now E - window_s * 2 * 1000000 in
    let rows := List.filter (eligible cutoff) (id_alerts db) in
    let '(db', touched) :=
      foldl (group_host E (window_s * 1000000) rows) (db, []) (hosts_of rows) in
    (refine_process_tree touched db', Z.of_nat (length touched)).
End refine.

(** ** The alerts after a pass *)

(** Attachments in the order they are made: an alert and its incident. *)
Definition apply_tags (tags : list (uuid * uuid)) (l : list Alert) : list Alert :=
  foldl (λ l '(aid, i), map (λ a, if al_id a =? aid then set_incident i a else a) l) l tags.

Fixpoint tag_of (aid : uuid) (tags : list (uuid * uuid)) : option uuid :=
  match tags with
  | [] => None
  | (a, i) :: tags => if a =? aid then Some i else tag_of aid tags
  end.

Definition tagged (tags : list (uuid * uuid)) (a : Alert) : Alert :=
  match tag_of (al_id a) tags with Some i => set_incident i a | None => a end.

Lemma tag_of_None aid tags : tag_of aid tags = None ↔ aid ∉ map fst tags.
Proof.
  induction tags as [|[a i] tags IH]; simpl; [split; [intros _; apply not_elem_of_nil|done]|].
  rewrite not_elem_of_cons. destruct (Z.eqb_spec a aid); naive_solver.
Qed.

Lemma tag_of_Some aid i tags : NoDup (map fst tags) → (aid, i) ∈ tags → tag_of aid tags = Some i.
Proof.
  induction tags as [|[a j] tags IH]; simpl; intros Hnd Hin; [by apply not_elem_of_nil in Hin|].
  apply NoDup_cons in Hnd as [Ha Hnd]. apply elem_of_cons in Hin as [[= <- <-]|Hin]; [by rewrite Z.eqb_refl|].
  destruct (Z.eqb_spec a aid) as [->|]; [|auto].
  exfalso. apply Ha. by apply (list_elem_of_fmap_2 fst _ _ Hin).
Qed.

Lemma apply_tags_spec tags l : NoDup (map fst tags) → apply_tags tags l = map (tagged tags) l.
Proof.
  revert l. induction tags as [|[aid i] tags IH]; intros l Hnd; [by rewrite <-(map_id l) at 1|].
  apply NoDup_cons in Hnd as [Ha Hnd]. unfold apply_tags in *. simpl. rewrite IH, map_map by done.
  apply map_ext. intros a. unfold tagged. simpl. rewrite Z.eqb_sym.
  destruct (Z.eqb_spec aid (al_id a)) as [He|]; [|done]. simpl.
  by rewrite (proj2 (tag_of_None _ _)) by (by rewrite <-He).
Qed.

Lemma apply_tags_app t1 t2 l : apply_tags (t1 ++ t2) l = apply_tags t2 (apply_tags t1 l).
Proof. unfold apply_tags. by rewrite foldl_app. Qed.

(** ** Incidents are only added, and keep their host *)

(** Identifiers are drawn in order. *)
Definition inc_ids_drawn (E : env) (db : inc_db) : Prop :=
  map inc_id (id_incidents db) = map (env_uuid4 E) (seq 0 (length (id_incidents db))).


Definition has_incident (db : inc_db) (i h : uuid) : Prop :=
  ∃ inc, inc ∈ id_incidents db ∧ inc_id inc = i ∧ inc_host_id inc = Some h.

Lemma update_keeps f db i h :
  (∀ x, inc_id (f x) = inc_id x ∧ inc_host_id (f x) = inc_host_id x) →
  has_incident db i h → has_incident (update_incidents f db) i h.
Proof.
  intros Hf (inc & Hin & Hi & Hh). exists (f inc). destruct (Hf inc) as [-> ->]. split; [|done].
  by apply list_elem_of_fmap_2.
Qed.

(** The specification of a host's tags: an alert joins the incident of the alert
    before it exactly when it follows it within the window. *)
Fixpoint gaps_ok (window : Z) (prev : option (uuid * datetime)) (alerts : list Alert) (tags : list uuid) : Prop :=
  match alerts, tags with
  | [], [] => True
  | a :: alerts, t :: tags =>
      match prev with
      | Some (i, ts) => t = i ↔ al_opened_at a - ts ≤ window
      | None => True
      end ∧ gaps_ok window (Some (t, al_opened_at a)) alerts tags
  | _, _ => False
  end.

Section fold.
Context (E : env) (window : Z) (Hinj : Inj (=) (=) (env_uuid4 E)).

Definition head_ok (db : inc_db) (h : uuid) (hd : head) : Prop :=
  match hd with Some (i, _) => has_incident db (inc_id i) h | None => True end.
Definition head_prev (hd : head) : option (uuid * datetime) := (λ it, (inc_id it.1, it.2)) <$> hd.

(** What the pass over one host does. *)
Record host_pass (h : uuid) (alerts : list Alert) (db db' : inc_db) (tags : list uuid) : Prop := {
  hp_alerts : id_alerts db' = apply_tags (zip (map al_id alerts) tags) (id_alerts db);
  hp_tags : Forall (λ i, has_incident db' i h) tags;
  hp_keeps : ∀ i h', has_incident db i h' → has_incident db' i h';
  hp_others : ∀ inc, inc ∈ id_incidents db' →
    inc_host_id inc = Some h ∨ ∃ inc0, inc0 ∈ id_incidents db ∧ inc_host_id inc = inc_host_id inc0;
  hp_ids : inc_ids_drawn E db → inc_ids_drawn E db'
}.

Lemma fresh_incident_id db h a i h' :
  inc_ids_drawn E db → has_incident db i h' → inc_id (new_incident E db h a) ≠ i.
Proof.
  intros Hd (inc & Hin & <- & _) He. simpl in He.
  apply (list_elem_of_fmap_2 inc_id) in Hin. change (inc_id <$> ?l) with (map inc_id l) in Hin.
  rewrite Hd, <-He in Hin. apply list_elem_of_fmap in Hin as (n & Hn%Hinj & Hs).
  apply elem_of_seq in Hs. lia.
Qed.

Lemma open_new_pass h a db :
  let i := new_incident E db h a in
  let db' := attach (al_id a) (inc_id i) (add_incident i db) in
  host_pass h [a] db db' [inc_id i].
Proof.
  split; simpl.
  - done.
  - constructor; [|constructor]. exists (new_incident E db h a). simpl.
    split; [apply elem_of_app; right; by left|done].
  - intros i h' (inc & Hin & Hi & Hh). exists inc. split; [apply elem_of_app; by left|done].
  - intros inc [Hin|Hin%list_elem_of_singleton]%elem_of_app; [right; by exists inc|left; by subst].
  - unfold inc_ids_drawn. simpl. intros Hd. rewrite length_app, Nat.add_1_r, seq_S, !map_app, Hd. done.
Qed.

Lemma host_pass_trans h alerts1 alerts2 db db1 db2 tags1 tags2 :
  length tags1 = length alerts1 → host_pass h alerts1 db db1 tags1 → host_pass h alerts2 db1 db2 tags2 →
  host_pass h (alerts1 ++ alerts2) db db2 (tags1 ++ tags2).
Proof.
  intros Hl [Ha Ht Hk Ho Hi] [Ha' Ht' Hk' Ho' Hi']. split.
  - rewrite Ha', Ha, map_app, zip_with_app, apply_tags_app by (by rewrite length_map). done.
  - apply Forall_app. split; [|done]. eapply Forall_impl; [exact Ht|]. auto.
  - auto.
  - intros inc [H|(inc0 & Hin & He)]%Ho'; [by left|]. apply Ho in Hin as [Hin|(inc1 & Hin & He')];
      [left; congruence|right; exists inc1; split; [done|congruence]].
  - auto.
Qed.

Lemma group_fold h alerts db hd touched db' hd' touched' :
  foldl (group_one E window h) (db, hd, touched) alerts = (db', hd', touched') →
  head_ok db h hd → inc_ids_drawn E db →
  ∃ tags, touched' = touched ++ tags ∧ length tags = length alerts ∧ host_pass h alerts db db' tags ∧
    gaps_ok window (head_prev hd) alerts tags ∧ head_ok db' h hd'.
Proof.
  revert db hd touched. induction alerts as [|a alerts IH]; intros db hd touched Hf Hok Hd.
  { simpl in Hf. injection Hf as <- <- <-. exists []. rewrite app_nil_r. split_and!; try done.
    split; [done|constructor|done| |done]. intros inc Hin. right. by exists inc. }
  assert (Hone : ∃ db1 i, group_one E window h (db, hd, touched) a
      = (db1, Some (i, al_opened_at a), touched ++ [inc_id i]) ∧
      host_pass h [a] db db1 [inc_id i] ∧
      match head_prev hd with
      | Some (j, ts) => inc_id i = j ↔ al_opened_at a - ts ≤ window
      | None => True
      end).
  { unfold group_one. destruct hd as [[j ts]|]; simpl.
    - destruct (Z.leb_spec (al_opened_at a - ts) window) as [Hle|Hgt].
      + eexists _, j. split; [done|]. split; [|done]. split; simpl; [done| |done| |done].
        * by repeat constructor.
        * intros inc Hin. right. by exists inc.
      + eexists _, (new_incident E db h a). split; [reflexivity|]. split; [apply open_new_pass|]. split; [|lia].
        intros He. exfalso. by eapply fresh_incident_id.
    - eexists _, (new_incident E db h a). split; [reflexivity|]. split; [apply open_new_pass|done]. }
  destruct Hone as (db1 & i & He & Hp & Hg). cbn [foldl] in Hf. rewrite He in Hf.
  apply IH in Hf as (tags & -> & Hl & Hp' & Hg' & Hok').
  - exists (inc_id i :: tags). rewrite <-app_assoc. split_and!; [done|simpl; congruence| |by split|done].
    by apply (host_pass_trans h [a] alerts db db1 db' [inc_id i] tags).
  - simpl. pose proof (hp_tags _ _ _ _ _ Hp) as Ht. by inversion_clear Ht.
  - by apply (hp_ids _ _ _ _ _ Hp).
Qed.
End fold.

(** ** All hosts *)

Section pass.
Context (E : env) (window : Z) (Hinj : Inj (=) (=) (env_uuid4 E)) (rows : list Alert).

Lemma bump_pass h alerts hd db db' tags :
  host_pass E h alerts db db' tags → host_pass E h alerts db (bump_severity alerts hd db') tags.
Proof.
  unfold bump_severity. destruct hd as [[i ts]|]; [|done]. cbv zeta. case_bool_decide; [done|].
  set (f := λ x, if inc_id x =? inc_id i then _ else x).
  assert (Hf : ∀ x, inc_id (f x) = inc_id x ∧ inc_host_id (f x) = inc_host_id x)
    by (intros x; unfold f; by destruct (_ =? _)).
  intros [Ha Ht Hk Ho Hi]. split; [done| | | |].
  - eapply Forall_impl; [exact Ht|]. intros j Hj. by apply update_keeps.
  - intros j h' Hj. apply update_keeps; auto.
  - intros inc (x & -> & Hx)%list_elem_of_fmap. destruct (Hf x) as [_ ->]. auto.
  - unfold inc_ids_drawn in *. simpl. intros Hd%Hi. rewrite length_map, <-Hd, map_map.
    apply map_ext. intros x. by destruct (Hf x).
Qed.

Lemma latest_by_elem {A} (key : A → Z) l x : latest_by key l = Some x → x ∈ l.
Proof.
  unfold latest_by. assert (H : ∀ best, foldl (λ best x, match best with
      | Some b => if key b <? key x then Some x else best | None => Some x end) best l = Some x →
      best = Some x ∨ x ∈ l).
  { induction l as [|y l IH]; intros best Hb; [by left|]. simpl in Hb. apply IH in Hb as [Hb|Hb];
      [|right; by right]. destruct best as [b|]; [destruct (key b <? key y)|]; simplify_eq; auto;
      right; by left. }
  intros [?|?]%H; done.
Qed.

Lemma initial_head_ok db h alerts : head_ok db h (initial_head window db h alerts).
Proof.
  unfold initial_head. destruct (prev_open db h) as [i|] eqn:Hp; [|done]. destruct alerts; [done|].
  destruct (_ <=? window); [|done]. simpl. apply latest_by_elem, elem_of_filterb in Hp as [Hin Hb].
  apply andb_true_iff in Hb as [Hb%bool_decide_eq_true _]. by exists i.
Qed.

Lemma initial_head_none db h alerts :
  (∀ inc, inc ∈ id_incidents db → inc_host_id inc ≠ Some h) → initial_head window db h alerts = None.
Proof.
  intros Hno. unfold initial_head. destruct (prev_open db h) as [i|] eqn:Hp; [|done]. exfalso.
  apply latest_by_elem, elem_of_filterb in Hp as [Hin Hb].
  apply andb_true_iff in Hb as [Hb%bool_decide_eq_true _]. by eapply Hno.
Qed.

Lemma group_host_spec db touched h db' touched' :
  group_host E window rows (db, touched) h = (db', touched') → inc_ids_drawn E db →
  ∃ tags, touched' = touched ++ tags ∧ length tags = length (bucket rows h) ∧
    host_pass E h (bucket rows h) db db' tags ∧
    gaps_ok window (head_prev (initial_head window db h (bucket rows h))) (bucket rows h) tags.
Proof.
  unfold group_host. intros H Hd.
  destruct (foldl _ _ (bucket rows h)) as [[db1 hd1] touched1] eqn:Hf. injection H as <- <-.
  apply group_fold in Hf as (tags & -> & Hl & Hp & Hg & _); [|done|apply initial_head_ok|done].
  exists tags. split_and!; try done. by apply bump_pass.
Qed.

(** The attachments of one host. *)
Definition host_tags (h : uuid) (tags : list uuid) : list (uuid * uuid) := zip (map al_id (bucket rows h)) tags.

(** What the pass over several hosts does, one list of tags per host. *)
Record hosts_pass (hs : list uuid) (db db' : inc_db) (tagss : list (list uuid)) : Prop := {
  hps_len : Forall2 (λ h tags, length tags = length (bucket rows h)) hs tagss;
  hps_alerts : id_alerts db' = apply_tags (concat (zip_with host_tags hs tagss)) (id_alerts db);
  hps_tags : Forall2 (λ h tags, Forall (λ i, has_incident db' i h) tags) hs tagss;
  hps_keeps : ∀ i h', has_incident db i h' → has_incident db' i h';
  hps_gaps : Forall2 (λ h tags, (∀ inc, inc ∈ id_incidents db → inc_host_id inc ≠ Some h) →
                        gaps_ok window None (bucket rows h) tags) hs tagss
}.

Lemma group_hosts_spec hs db touched db' touched' :
  foldl (group_host E window rows) (db, touched) hs = (db', touched') → NoDup hs → inc_ids_drawn E db →
  ∃ tagss, touched' = touched ++ concat tagss ∧ hosts_pass hs db db' tagss.
Proof.
  revert db touched. induction hs as [|h hs IH]; intros db touched H Hnd Hd.
  { simpl in H. injection H as <- <-. exists []. rewrite app_nil_r. split; [done|]. by split. }
  cbn [foldl] in H. destruct (group_host E window rows (db, touched) h) as [db1 touched1] eqn:Hg.
  apply group_host_spec in Hg as (tags & -> & Hl & Hp & Hgap); [|done].
  apply NoDup_cons in Hnd as [Hh Hnd].
  apply IH in H as (tagss & -> & [Hls Has Hts Hks Hgs]); [|done|by apply (hp_ids _ _ _ _ _ _ Hp)].
  exists (tags :: tagss). simpl. rewrite app_assoc. split; [done|]. split.
  - by constructor.
  - simpl. rewrite apply_tags_app. by rewrite Has, (hp_alerts _ _ _ _ _ _ Hp).
  - constructor; [|done]. eapply Forall_impl; [apply (hp_tags _ _ _ _ _ _ Hp)|]. auto.
  - intros i h' Hi. by apply Hks, (hp_keeps _ _ _ _ _ _ Hp).
  - constructor.
    + intros Hno. by rewrite initial_head_none in Hgap.
    + apply Forall2_same_length_lookup in Hgs as [Hlen Hgs]. apply Forall2_same_length_lookup.
      split; [done|]. intros k h' t' Hk Ht Hno. apply (Hgs k h' t' Hk Ht). intros inc Hin He.
      apply (hp_others _ _ _ _ _ _ Hp) in Hin as [Hin|(inc0 & Hin & He')].
      * apply Hh. rewrite He in Hin. injection Hin as <-. by eapply list_elem_of_lookup_2.
      * eapply Hno; [done|]. congruence.
Qed.

End pass.

(** ** The buckets partition the selected rows *)

Section buckets.
Context (rows : list Alert).

Definition on_hosts (hs : list uuid) (a : Alert) : bool :=
  match al_host_id a with Some h => bool_decide (h ∈ hs) | None => false end.

Lemma buckets_perm hs : NoDup hs → concat (map (bucket rows) hs) ≡ₚ List.filter (on_hosts hs) rows.
Proof.
  induction hs as [|h hs IH]; intros Hnd.
  { simpl. rewrite (filter_none _ rows); [done|]. intros a _. unfold on_hosts. by destruct (al_host_id a). }
  apply NoDup_cons in Hnd as [Hh Hnd]. simpl. rewrite IH by done. unfold bucket. rewrite sort_by_perm.
  rewrite <-filter_or_disjoint.
  - apply Permutation_refl'. apply List.filter_ext. intros a. unfold on_hosts.
    destruct (al_host_id a) as [h'|]; [|done].
    destruct (decide (h' = h)) as [->|Hne].
    + rewrite (bool_decide_true (Some h = Some h)) by done. symmetry. apply bool_decide_true. by left.
    + rewrite (bool_decide_false (Some h' = Some h)) by congruence. simpl. apply bool_decide_ext.
      set_solver.
  - intros a Ha%bool_decide_eq_true. unfold on_hosts. rewrite Ha. by apply bool_decide_false.
Qed.

Lemma hosts_of_NoDup : NoDup (hosts_of rows).
Proof. unfold hosts_of. rewrite sort_by_perm. apply NoDup_dedup. Qed.

Lemma elem_of_hosts_of a h : a ∈ rows → al_host_id a = Some h → h ∈ hosts_of rows.
Proof.
  intros Ha Hh. unfold hosts_of. rewrite sort_by_perm, elem_of_dedup, list_elem_of_omap. eauto.
Qed.

Lemma buckets_all :
  (∀ a, a ∈ rows → is_Some (al_host_id a)) → concat (map (bucket rows) (hosts_of rows)) ≡ₚ rows.
Proof.
  intros Hall. rewrite buckets_perm by apply hosts_of_NoDup. rewrite filter_all; [done|].
  intros a Ha. destruct (Hall a Ha) as [h Hh]. unfold on_hosts. rewrite Hh. apply bool_decide_true.
  by eapply elem_of_hosts_of.
Qed.
End buckets.

(** ** The attachments of a whole pass *)

Lemma all_tags_keys rows hs (tagss : list (list uuid)) :
  Forall2 (λ h tags, length tags = length (bucket rows h)) hs tagss →
  map fst (concat (zip_with (host_tags rows) hs tagss)) = map al_id (concat (map (bucket rows) hs)).
Proof.
  induction 1 as [|h tags hs tagss Hl _ IH]; [done|]. simpl. rewrite !map_app, IH. f_equal.
  unfold host_tags. apply fst_zip. rewrite length_map. lia.
Qed.

Lemma all_tags_length rows hs (tagss : list (list uuid)) :
  Forall2 (λ h tags, length tags = length (bucket rows h)) hs tagss →
  length (concat tagss) = length (concat (map (bucket rows) hs)).
Proof. induction 1 as [|h tags hs tagss Hl _ IH]; [done|]. simpl. rewrite !length_app. lia. Qed.

Lemma elem_of_all_tags rows hs tagss (P : uuid → uuid → Prop) aid i :
  Forall2 (λ h tags, Forall (P h) tags) hs tagss →
  (aid, i) ∈ concat (zip_with (host_tags rows) hs tagss) →
  ∃ h b, b ∈ bucket rows h ∧ al_id b = aid ∧ P h i.
Proof.
  induction 1 as [|h tags hs tagss Hp _ IH]; simpl; [by intros H%not_elem_of_nil|].
  intros [Hin|Hin]%elem_of_app; [|auto]. unfold host_tags in Hin.
  exists h. pose proof (elem_of_zip_l _ _ _ _ Hin) as Hl. pose proof (elem_of_zip_r _ _ _ _ Hin) as Hr.
  apply list_elem_of_fmap in Hl as (b & -> & Hb). exists b. split_and!; [done..|].
  rewrite Forall_forall in Hp. by apply Hp.
Qed.

Lemma elem_of_bucket rows h b : b ∈ bucket rows h ↔ b ∈ rows ∧ al_host_id b = Some h.
Proof. unfold bucket. by rewrite sort_by_perm, elem_of_filterb, bool_decide_eq_true. Qed.

(** An alert that a pass has to group. *)
Definition ungrouped (cutoff : datetime) (a : Alert) : Prop :=
  al_incident_id a = None ∧ is_Some (al_host_id a) ∧ cutoff ≤ al_opened_at a.

(** What a pass does to one alert: such a one is attached to an incident of its
    host, any other is untouched. *)
Definition alert_outcome (cutoff : datetime) (db' : inc_db) (a a' : Alert) : Prop :=
  (ungrouped cutoff a → ∃ i h, a' = set_incident i a ∧ al_host_id a = Some h ∧ has_incident db' i h) ∧
  (¬ ungrouped cutoff a → a' = a).

#[global] Instance ungrouped_dec cutoff a : Decision (ungrouped cutoff a).
Proof. unfold ungrouped. apply _. Defined.

Lemma eligible_ungrouped cutoff a : eligible cutoff a = true ↔ ungrouped cutoff a.
Proof.
  unfold eligible, ungrouped, is_Some. destruct (al_incident_id a), (al_host_id a); rewrite ?Z.leb_le; naive_solver.
Qed.

Lemma countb_ungrouped cutoff l : countb (eligible cutoff) l = length (filter (ungrouped cutoff) l).
Proof.
  induction l as [|a l IH]; [done|]. rewrite countb_cons, filter_cons, IH. pose proof (eligible_ungrouped cutoff a).
  destruct (eligible cutoff a); case_decide; naive_solver.
Qed.

Lemma alert_outcome_intro cutoff db' a a' :
  (if eligible cutoff a
   then ∃ i h, a' = set_incident i a ∧ al_host_id a = Some h ∧ has_incident db' i h
   else a' = a) → alert_outcome cutoff db' a a'.
Proof.
  unfold alert_outcome. pose proof (eligible_ungrouped cutoff a). destruct (eligible cutoff a); [tauto|].
  assert (¬ ungrouped cutoff a) by (intros ?; naive_solver). tauto.
Qed.

Section regroup.
Context (fetch : uuid → Z → option dict) (E : env) (window_s : Z).
Context (Hinj : Inj (=) (=) (env_uuid4 E)) (Hw : 0 < window_s).
Let cutoff := env_now E - window_s * 2 * 1000000.
Let rows (db : inc_db) := List.filter (eligible cutoff) (id_alerts db).

Lemma rows_hosts db a : a ∈ rows db → is_Some (al_host_id a).
Proof.
  intros [_ He]%elem_of_filterb. unfold eligible in He. by destruct (al_incident_id a), (al_host_id a).
Qed.

(** The pass as one list of attachments. *)
Lemma regroup_tags db :
  NoDup (map al_id (id_alerts db)) → inc_ids_drawn E db →
  ∃ db1 tagss, let tags := concat (zip_with (host_tags (rows db)) (hosts_of (rows db)) tagss) in
    regroup_recent fetch E window_s db
      = (refine_process_tree fetch (concat tagss) db1, Z.of_nat (length (concat tagss))) ∧
    hosts_pass (window_s * 1000000) (rows db) (hosts_of (rows db)) db db1 tagss ∧
    NoDup (map fst tags) ∧ map fst tags ≡ₚ map al_id (rows db) ∧
    length (concat tagss) = length (rows db).
Proof.
  intros Hnd Hd. unfold regroup_recent. rewrite (proj2 (Z.leb_gt _ _)) by lia. fold cutoff. fold (rows db).
  destruct (foldl _ _ (hosts_of (rows db))) as [db1 touched] eqn:Hf.
  apply group_hosts_spec in Hf as (tagss & -> & Hp); [|done|apply hosts_of_NoDup|done].
  exists db1, tagss. cbv zeta. split; [done|]. split; [done|].
  pose proof (buckets_all (rows db) (rows_hosts db)) as Hb. pose proof (hps_len _ _ _ _ _ _ Hp) as Hl.
  assert (Hperm : map al_id (concat (map (bucket (rows db)) (hosts_of (rows db)))) ≡ₚ map al_id (rows db))
    by (by apply Permutation_map).
  rewrite all_tags_keys, all_tags_length with (1 := Hl); [|done]. split_and!; [|done|by rewrite Hb].
  rewrite Hperm. by apply NoDup_map_filterb.
Qed.

(** Every alert has its outcome, and the count is that of the eligible ones. *)
Lemma regroup_outcome db :
  NoDup (map al_id (id_alerts db)) → inc_ids_drawn E db →
  let '(db', n) := regroup_recent fetch E window_s db in
  Forall2 (alert_outcome cutoff db') (id_alerts db) (id_alerts db') ∧
  n = Z.of_nat (countb (eligible cutoff) (id_alerts db)).
Proof.
  intros Hnd Hd. destruct (regroup_tags db Hnd Hd) as (db1 & tagss & -> & Hp & Hkn & Hkp & Hlen).
  set (tags := concat (zip_with _ _ _)) in *. split; [|unfold countb; fold (rows db); by rewrite Hlen].
  simpl. rewrite (hps_alerts _ _ _ _ _ _ Hp). fold tags. rewrite apply_tags_spec by done.
  apply Forall2_fmap_r, Forall_Forall2_diag, Forall_forall. intros a Ha. unfold compose, tagged.
  apply alert_outcome_intro.
  destruct (eligible cutoff a) eqn:He.
  - assert (Hrow : a ∈ rows db) by (by apply elem_of_filterb).
    assert (Hkey : al_id a ∈ map fst tags) by (rewrite Hkp; by apply list_elem_of_fmap_2).
    apply list_elem_of_fmap in Hkey as ([aid i] & Hai & Hin). simpl in Hai. rewrite Hai.
    rewrite (tag_of_Some aid i) by done. exists i.
    eapply (elem_of_all_tags _ _ _ (λ h i, has_incident db1 i h)) in Hin
      as (h & b & [Hb Hbh]%elem_of_bucket & Hid & Hinc); [|apply (hps_tags _ _ _ _ _ _ Hp)].
    assert (a = b) as ->.
    { apply (NoDup_key_inj al_id (id_alerts db)); [done..| |congruence]. by apply elem_of_filterb in Hb as [? _]. }
    exists h. split_and!; [done..|]. apply update_keeps; [|done]. intros x. by destruct (_ && _).
  - rewrite (proj2 (tag_of_None _ _)); [done|]. rewrite Hkp. intros (b & Hid & Hb)%list_elem_of_fmap.
    apply elem_of_filterb in Hb as [Hb Hbe]. rewrite (NoDup_key_inj al_id (id_alerts db) b a) in Hbe; by try congruence.
Qed.
End regroup.

(** ** Correctness of the pass *)

Lemma refine_nothing fetch db : refine_process_tree fetch [] db = db.
Proof.
  unfold refine_process_tree, update_incidents. destruct db as [al inc ru ch]. simpl. f_equal.
  rewrite <-(map_id inc) at 2. by apply map_ext.
Qed.

Lemma outcome_ineligible cutoff db' a a' : alert_outcome cutoff db' a a' → eligible cutoff a' = false.
Proof.
  unfold alert_outcome. rewrite <-eligible_ungrouped. destruct (eligible cutoff a) eqn:He; intros [H1 H2].
  - by destruct H1 as (i & h & -> & _).
  - by rewrite H2.
Qed.

(** C34: a grouping pass leaves no recent alert ungrouped: every alert that was
    ungrouped, on a host and opened within twice the window is attached to an
    incident of its own host; every other alert keeps its row; the number
    returned is the number attached; and the pass is idempotent, a second one
    attaching nothing and changing nothing. *)
Theorem regroup_complete fetch E window_s db :
  Inj (=) (=) (env_uuid4 E) → 0 < window_s → NoDup (map al_id (id_alerts db)) → inc_ids_drawn E db →
  let cutoff := env_now E - window_s * 2 * 1000000 in
  let '(db', n) := regroup_recent fetch E window_s db in
  Forall2 (alert_outcome cutoff db') (id_alerts db) (id_alerts db') ∧
  n = Z.of_nat (length (filter (ungrouped cutoff) (id_alerts db))) ∧
  regroup_recent fetch E window_s db' = (db', 0).
Proof.
  intros Hinj Hw Hnd Hd cutoff. pose proof (regroup_outcome fetch E window_s Hinj Hw db Hnd Hd) as H.
  destruct (regroup_recent fetch E window_s db) as [db' n]. destruct H as [Hout ->].
  split_and!; [done|by rewrite countb_ungrouped|]. unfold regroup_recent.
  rewrite (proj2 (Z.leb_gt _ _)) by lia. fold cutoff.
  assert (List.filter (eligible cutoff) (id_alerts db') = []) as ->.
  { apply filter_none. intros a' Ha'. apply list_elem_of_lookup in Ha' as [k Hk].
    destruct (Forall2_lookup_r _ _ _ _ _ Hout Hk) as (a & _ & Ho). by eapply outcome_ineligible. }
  simpl. by rewrite refine_nothing.
Qed.

Lemma gaps_ok_adjacent window prev alerts tags k a b i j :
  gaps_ok window prev alerts tags → alerts !! k = Some a → alerts !! S k = Some b →
  tags !! k = Some i → tags !! S k = Some j → (j = i ↔ al_opened_at b - al_opened_at a ≤ window).
Proof.
  revert prev alerts tags. induction k as [|k IH]; intros prev [|a0 alerts] [|t0 tags] Hg Ha Hb Hi Hj;
    try done; destruct Hg as [_ Hg].
  - simpl in Ha, Hb, Hi, Hj. destruct alerts as [|b0 alerts], tags as [|t1 tags]; try done.
    simpl in Hb, Hj. simplify_eq. by destruct Hg as [Hg _].
  - by eapply (IH _ alerts tags).
Qed.

(** The tags of one host, and the rows they end up on. *)
Lemma regroup_host_tags fetch E window_s db h a :
  Inj (=) (=) (env_uuid4 E) → 0 < window_s → NoDup (map al_id (id_alerts db)) → inc_ids_drawn E db →
  (∀ inc, inc ∈ id_incidents db → inc_host_id inc ≠ Some h) →
  let cutoff := env_now E - window_s * 2 * 1000000 in
  let alerts := bucket (List.filter (eligible cutoff) (id_alerts db)) h in
  a ∈ alerts →
  ∃ ts, length ts = length alerts ∧ gaps_ok (window_s * 1000000) None alerts ts ∧
    ∀ n c i, alerts !! n = Some c → ts !! n = Some i →
      set_incident i c ∈ id_alerts (regroup_recent fetch E window_s db).1.
Proof.
  intros Hinj Hw Hnd Hd Hno cutoff alerts Ha.
  destruct (regroup_tags fetch E window_s Hinj Hw db Hnd Hd) as (db1 & tagss & Hre & Hp & Hkn & _).
  fold cutoff in Hre, Hp, Hkn. set (rows := List.filter (eligible cutoff) (id_alerts db)) in *.
  apply elem_of_bucket in Ha as [Har Hah]. pose proof (elem_of_hosts_of rows a h Har Hah) as Hh.
  apply list_elem_of_lookup in Hh as [m Hm].
  destruct (Forall2_lookup_l _ _ _ _ _ (hps_gaps _ _ _ _ _ _ Hp) Hm) as (ts & Hts & Hg).
  pose proof (Forall2_lookup_lr _ _ _ _ _ _ (hps_len _ _ _ _ _ _ Hp) Hm Hts) as Hl. cbv beta in Hl, Hg.
  exists ts. split_and!; [done|by apply Hg|]. intros n c i Hc Hi. rewrite Hre. simpl.
  rewrite (hps_alerts _ _ _ _ _ _ Hp), apply_tags_spec by done.
  apply list_elem_of_fmap. exists c. split.
  - unfold tagged. rewrite (tag_of_Some (al_id c) i); [done..|].
    apply list_elem_of_In, in_concat. exists (host_tags rows h ts). rewrite <-!list_elem_of_In. split.
    + apply (list_elem_of_lookup_2 _ m). apply lookup_zip_with_Some. by exists h, ts.
    + unfold host_tags. apply (list_elem_of_lookup_2 _ n). apply lookup_zip_Some. split; [|done].
      by apply list_lookup_fmap_Some_2.
  - apply list_elem_of_lookup_2, elem_of_bucket in Hc as [Hc _]. by apply elem_of_filterb in Hc as [? _].
Qed.

(** On a host without incidents, the pass splits the host's eligible alerts
    at the gaps: of two alerts that follow each other in time, the later joins
    the incident of the earlier exactly when it was opened within the window of
    it. *)
Theorem window_partition fetch E window_s db h k a b :
  Inj (=) (=) (env_uuid4 E) → 0 < window_s → NoDup (map al_id (id_alerts db)) → inc_ids_drawn E db →
  (∀ inc, inc ∈ id_incidents db → inc_host_id inc ≠ Some h) →
  let cutoff := env_now E - window_s * 2 * 1000000 in
  let alerts := bucket (List.filter (eligible cutoff) (id_alerts db)) h in
  let db' := (regroup_recent fetch E window_s db).1 in
  alerts !! k = Some a → alerts !! S k = Some b →
  ∃ i j, set_incident i a ∈ id_alerts db' ∧ set_incident j b ∈ id_alerts db' ∧
    (j = i ↔ al_opened_at b - al_opened_at a ≤ window_s * 1000000).
Proof.
  intros Hinj Hw Hnd Hd Hno cutoff alerts db' Ha Hb.
  destruct (regroup_host_tags fetch E window_s db h a Hinj Hw Hnd Hd Hno) as (ts & Hl & Hg & Hrow);
    [by eapply list_elem_of_lookup_2|].
  destruct (lookup_lt_is_Some_2 ts k) as [i Hi]; [rewrite Hl; by eapply lookup_lt_Some|].
  destruct (lookup_lt_is_Some_2 ts (S k)) as [j Hj]; [rewrite Hl; by eapply lookup_lt_Some|].
  exists i, j. split_and!; [by eapply Hrow..|]. by eapply gaps_ok_adjacent.
Qed.

(** ** Examples *)

Definition demo_alert (id : uuid) (sev : Severity) (t : datetime) : Alert :=
  mkAlert id DEFAULT_TENANT_ID (Some 100) 9 sev ALERT NEW "match" None None None None t None None None
    None 1 t.
(** Two alerts a minute apart, and a third one twelve minutes later. *)
Definition demo_inc_db : inc_db :=
  mkIncDb [demo_alert 1 LOW 0; demo_alert 2 CRITICAL 60000000; demo_alert 3 LOW 780000000] [] [] [].
Definition demo_inc_env : env := mkEnv Z.of_nat 800000000 None.
Definition demo_regrouped : inc_db := (regroup_recent (λ _ _, None) demo_inc_env 600 demo_inc_db).1.

Lemma demo_alert_ids : NoDup (map al_id (id_alerts demo_inc_db)).
Proof. by apply (bool_decide_unpack _). Qed.

Lemma regroup_complete_witness :
  map al_incident_id (id_alerts demo_regrouped) = [Some 0; Some 0; Some 1] ∧
  regroup_recent (λ _ _, None) demo_inc_env 600 demo_regrouped = (demo_regrouped, 0).
Proof.
  split; [reflexivity|].
  destruct (regroup_complete (λ _ _, None) demo_inc_env 600 demo_inc_db) as (_ & _ & H);
    [apply _|lia|apply demo_alert_ids|reflexivity|exact H].
Defined.

Lemma window_partition_witness :
  ∃ i j, set_incident i (demo_alert 2 CRITICAL 60000000) ∈ id_alerts demo_regrouped ∧
    set_incident j (demo_alert 3 LOW 780000000) ∈ id_alerts demo_regrouped ∧
    (j = i ↔ 780000000 - 60000000 ≤ 600 * 1000000).
Proof.
  apply (window_partition (λ _ _, None) demo_inc_env 600 demo_inc_db 100 1
    (demo_alert 2 CRITICAL 60000000) (demo_alert 3 LOW 780000000));
    [apply _|lia|apply demo_alert_ids|reflexivity|intros inc Hin; by apply not_elem_of_nil in Hin
    |reflexivity|reflexivity].
Defined.

(** The severity of an incident can stay below that of its alerts: only the
    last incident of a host is raised at the end of a pass, so when the same pass
    opens a further incident for the host, an earlier one keeps the severity of
    the alert that opened it.  Here an incident of low severity holds a critical
    alert. *)
Theorem earlier_incident_underrated :
  ∃ inc a, inc ∈ id_incidents demo_regrouped ∧ a ∈ id_alerts demo_regrouped ∧
    al_incident_id a = Some (inc_id inc) ∧ inc_severity inc = LOW ∧ al_severity a = CRITICAL.
Proof.
  eexists _, _. split; [left|]. split; [right; left|]. by split_and!.
Qed.
