(* ===== verification/Cron.v ===== *)
(** * Cron: the five-field matcher of scheduled hunts (services/hunt.py)

    [_parse_field] and [cron_matches], with the meaning of a cron expression given
    independently by an abstract syntax, its printed form and its denotation.
    The matcher is shown to compute the denotation. *)

From Stdlib Require Import Ascii String.
From S2P Require Import Prelude PyStr PyVal PyTime PyText.
Local Open Scope string_scope.
Local Open Scope list_scope.
Local Open Scope Z_scope.

(** ** The code *)

(** [range(start, end + 1, step)] for [start <= end] and [step >= 1]. *)
Definition py_range (start end_ step : Z) : list Z :=
  map (λ k, start + step * k) (seqZ 0 ((end_ - start) / step + 1)).

(** [base, step_s = chunk.split("/", 1)] *)
Definition chunk_step (chunk : str) : py (str * Z) :=
  match split_first "/" chunk with
  | Some (base, step_s) =>
      step ← of_option ValueError (py_int step_s);
      if step <? 1 then Err ValueError else Ok (base, step)
  | None => Ok (chunk, 1)
  end.

Definition chunk_bounds (lo hi : Z) (base : str) : py (Z * Z) :=
  if String.eqb base "*" then Ok (lo, hi)
  else match split_first "-" base with
       | Some (a, b) => a ← of_option ValueError (py_int a); b ← of_option ValueError (py_int b); Ok (a, b)
       | None => v ← of_option ValueError (py_int base); Ok (v, v)
       end.

Definition parse_chunk (lo hi : Z) (chunk : str) : py (list Z) :=
  '(base, step) ← chunk_step chunk;
  '(start, end_) ← chunk_bounds lo hi base;
  if (start <? lo) || (hi <? end_) || (end_ <? start) then Err ValueError
  else Ok (py_range start end_ step).

Fixpoint parse_chunks (lo hi : Z) (chunks : list str) : py (list Z) :=
  match chunks with
  | [] => Ok []
  | chunk :: chunks =>
      let chunk := strip chunk in
      if nonempty chunk then
        vs ← parse_chunk lo hi chunk; rest ← parse_chunks lo hi chunks; Ok (vs ++ rest)
      else parse_chunks lo hi chunks
  end.
Definition parse_field (spec : str) (lo hi : Z) : py (list Z) := parse_chunks lo hi (split_on "," spec).

(** The broken-down time of a UTC datetime. *)
Record civil := mkCivil { c_minute : Z; c_hour : Z; c_day : Z; c_month : Z; c_year : Z; c_weekday : Z }.
Definition civil_of (when_ : Z) : civil :=
  let days := when_ / us_per_day in
  let '(y, m, d) := civil_of_days days in
  let s := when_ mod us_per_day / 1000000 in
  mkCivil (s / 60 mod 60) (s / 3600) d m y ((days + 3) mod 7).

Definition mem (v : Z) (l : list Z) : bool := bool_decide (v ∈ l).

Definition cron_matches (cron : str) (when_ : Z) : py bool :=
  match split_ws cron with
  | [p0; p1; p2; p3; p4] =>
      minute_set ← parse_field p0 0 59;
      hour_set ← parse_field p1 0 23;
      dom_set ← parse_field p2 1 31;
      mon_set ← parse_field p3 1 12;
      dow_set ← parse_field p4 0 6;
      let c := civil_of when_ in
      if negb (mem (c_minute c) minute_set) then Ok false
      else if negb (mem (c_hour c) hour_set) then Ok false
      else if negb (mem (c_month c) mon_set) then Ok false
      else
        let cron_dow := (c_weekday c + 1) mod 7 in
        let dom_match := mem (c_day c) dom_set in
        let dow_match := mem cron_dow dow_set in
        if negb (String.eqb p2 "*") && negb (String.eqb p4 "*") then Ok (dom_match || dow_match)
        else Ok (dom_match && dow_match)
  | _ => Err ValueError
  end.

(** ** The meaning of a cron expression *)

Inductive cron_base := Any | At (v : Z) | Span (a b : Z).
Record cron_item := mkItem { ci_base : cron_base; ci_step : option Z }.
Definition cron_field : Type := list cron_item.

Definition print_base (b : cron_base) : str :=
  match b with Any => "*" | At v => str_of_Z v | Span a b => str_of_Z a +:+ "-" +:+ str_of_Z b end.
Definition print_item (i : cron_item) : str :=
  match ci_step i with
  | Some n => print_base (ci_base i) +:+ "/" +:+ str_of_Z n
  | None => print_base (ci_base i)
  end.
Definition print_field (f : cron_field) : str := join "," (map print_item f).

Definition base_bounds (lo hi : Z) (b : cron_base) : Z * Z :=
  match b with Any => (lo, hi) | At v => (v, v) | Span a b => (a, b) end.

(** The values an item stands for: from the start, by steps, up to the end. *)
Definition item_denotes (lo hi : Z) (i : cron_item) (v : Z) : Prop :=
  let '(start, end_) := base_bounds lo hi (ci_base i) in
  start ≤ v ≤ end_ ∧ (v - start) mod (default 1 (ci_step i)) = 0.
Definition field_denotes (lo hi : Z) (f : cron_field) (v : Z) : Prop :=
  ∃ i, i ∈ f ∧ item_denotes lo hi i v.

(** An item the syntax allows: natural numbers, within the bounds, in order. *)
Definition item_valid (lo hi : Z) (i : cron_item) : Prop :=
  let '(start, end_) := base_bounds lo hi (ci_base i) in
  0 ≤ start ∧ lo ≤ start ∧ end_ ≤ hi ∧ start ≤ end_ ∧ 1 ≤ default 1 (ci_step i).

Record cron_expr := mkCron { cx_min : cron_field; cx_hour : cron_field; cx_dom : cron_field;
                             cx_mon : cron_field; cx_dow : cron_field }.
Definition print_cron (c : cron_expr) : str :=
  join " " [print_field (cx_min c); print_field (cx_hour c); print_field (cx_dom c);
            print_field (cx_mon c); print_field (cx_dow c)].

Definition field_valid (lo hi : Z) (f : cron_field) : Prop := f ≠ [] ∧ Forall (item_valid lo hi) f.
Definition cron_valid (c : cron_expr) : Prop :=
  field_valid 0 59 (cx_min c) ∧ field_valid 0 23 (cx_hour c) ∧ field_valid 1 31 (cx_dom c) ∧
  field_valid 1 12 (cx_mon c) ∧ field_valid 0 6 (cx_dow c).

(** The days: when both fields are restricted either may match, otherwise both
    must, the unrestricted one always matching. *)
Definition is_star (f : cron_field) : Prop := f = [mkItem Any None].
Definition cron_denotes (c : cron_expr) (t : civil) : Prop :=
  field_denotes 0 59 (cx_min c) (c_minute t) ∧ field_denotes 0 23 (cx_hour c) (c_hour t) ∧
  field_denotes 1 12 (cx_mon c) (c_month t) ∧
  let dom := field_denotes 1 31 (cx_dom c) (c_day t) in
  let dow := field_denotes 0 6 (cx_dow c) ((c_weekday t + 1) mod 7) in
  (¬ is_star (cx_dom c) ∧ ¬ is_star (cx_dow c) ∧ (dom ∨ dow)) ∨
  ((is_star (cx_dom c) ∨ is_star (cx_dow c)) ∧ dom ∧ dow).

(** ** Fields *)

Lemma elem_of_py_range start end_ step v :
  1 ≤ step → start ≤ end_ →
  v ∈ py_range start end_ step ↔ start ≤ v ≤ end_ ∧ (v - start) mod step = 0.
Proof.
  intros Hs Hse. unfold py_range. rewrite list_elem_of_fmap. split.
  - intros (k & -> & Hk%elem_of_seqZ).
    assert (step * ((end_ - start) / step) ≤ end_ - start) by (apply Z.mul_div_le; lia).
    replace (start + step * k - start) with (k * step) by lia. rewrite Z.mod_mul by lia. nia.
  - intros [Hv Hm]. exists ((v - start) / step).
    assert (v - start = step * ((v - start) / step)) as Hd.
    { pose proof (Z.div_mod (v - start) step). lia. }
    split; [lia|]. apply elem_of_seqZ. split; [apply Z.div_pos; lia|].
    assert ((v - start) / step ≤ (end_ - start) / step) by (apply Z.div_le_mono; lia). lia.
Qed.

Definition is_item_char (c : ascii) : bool :=
  (is_decimal c || Ascii.eqb c "*" || Ascii.eqb c "-" || Ascii.eqb c "/")%char.

Lemma decimals_impl q z :
  (∀ a, is_decimal a = true → q a = true) → 0 ≤ z → string_forallb q (str_of_Z z) = true.
Proof. intros Hq Hz. by eapply string_forallb_impl, str_of_Z_decimal. Qed.

Ltac char_cases := by intros [[] [] [] [] [] [] [] []].

Lemma print_item_chars lo hi i :
  item_valid lo hi i → string_forallb is_item_char (print_item i) = true.
Proof.
  intros Hi. unfold item_valid in Hi. unfold print_item.
  assert (string_forallb is_item_char (print_base (ci_base i)) = true) as Hb.
  { destruct (ci_base i) as [|v|a b]; simpl in *; [done|apply decimals_impl; [char_cases|lia]|].
    rewrite !string_forallb_app, !decimals_impl; [done|char_cases|lia|char_cases|lia]. }
  destruct (ci_step i) as [n|]; [|done].
  rewrite !string_forallb_app, Hb, decimals_impl; [done|char_cases|].
  destruct (base_bounds lo hi (ci_base i)). simpl in Hi. lia.
Qed.

Lemma str_of_Z_ne z s : 0 ≤ z → (∀ c s', s = String c s' → is_decimal c = false) → str_of_Z z ≠ s.
Proof.
  intros Hz Hs Heq. pose proof (str_of_Z_decimal z Hz) as Hd. pose proof (py_int_str_of_Z z Hz) as Hv.
  rewrite Heq in *. destruct s as [|c s]; [done|]. simpl in Hd. rewrite (Hs c s) in Hd; done.
Qed.

Lemma print_item_nonempty lo hi i : item_valid lo hi i → nonempty (print_item i) = true.
Proof.
  intros Hi. unfold item_valid in Hi. unfold print_item.
  assert (nonempty (print_base (ci_base i)) = true) as Hb.
  { destruct (ci_base i) as [|v|a b]; simpl in *; [done| |].
    - destruct (str_of_Z v) eqn:E; [|done]. apply str_of_Z_ne in E; [done|lia|done].
    - destruct (str_of_Z a) eqn:E; [|done]. apply str_of_Z_ne in E; [done|lia|done]. }
  destruct (ci_step i) as [n|]; [|done]. destruct (print_base (ci_base i)); [done|].
  by rewrite append_cons.
Qed.

Lemma chunk_bounds_print lo hi i :
  item_valid lo hi i →
  chunk_bounds lo hi (print_base (ci_base i)) = Ok (base_bounds lo hi (ci_base i)).
Proof.
  intros Hi. unfold item_valid in Hi. unfold chunk_bounds.
  destruct (ci_base i) as [|v|a b]; simpl in *; [done| |].
  - destruct (String.eqb_spec (str_of_Z v) "*") as [E|_].
    { apply str_of_Z_ne in E; [done|lia|]. by intros c s' [= <- <-]. }
    rewrite split_first_absent, py_int_str_of_Z; [done|lia|].
    apply decimals_impl; [char_cases|lia].
  - destruct (String.eqb_spec (str_of_Z a +:+ "-" +:+ str_of_Z b) "*") as [E|_].
    { destruct (str_of_Z a) as [|c s] eqn:Ea; [done|]. rewrite append_cons in E.
      injection E as -> _. apply str_of_Z_ne in Ea; [done|lia|]. by intros ?? [= <- <-]. }
    change ("-" +:+ str_of_Z b) with (String "-" (str_of_Z b)).
    rewrite split_first_at, !py_int_str_of_Z; [done|lia|lia|].
    apply decimals_impl; [char_cases|lia].
Qed.

Lemma print_base_lacks_slash lo hi i : item_valid lo hi i → lacks "/" (print_base (ci_base i)) = true.
Proof.
  intros Hi. unfold item_valid in Hi. unfold lacks.
  destruct (ci_base i) as [|v|a b]; simpl in *; [done|apply decimals_impl; [char_cases|lia]|].
  rewrite !string_forallb_app, !decimals_impl; [done|char_cases|lia|char_cases|lia].
Qed.

Lemma chunk_step_print lo hi i :
  item_valid lo hi i →
  chunk_step (print_item i) = Ok (print_base (ci_base i), default 1 (ci_step i)).
Proof.
  intros Hi. unfold chunk_step, print_item. pose proof (print_base_lacks_slash lo hi i Hi) as Hl.
  unfold item_valid in Hi. destruct (base_bounds lo hi (ci_base i)) as [start end_].
  destruct (ci_step i) as [n|]; simpl in *; [|by rewrite split_first_absent].
  change ("/" +:+ str_of_Z n) with (String "/" (str_of_Z n)).
  rewrite split_first_at by done. rewrite py_int_str_of_Z by lia. simpl.
  by destruct (Z.ltb_spec n 1); [lia|].
Qed.

Lemma parse_chunk_print lo hi i :
  item_valid lo hi i →
  ∃ vs, parse_chunk lo hi (print_item i) = Ok vs ∧ ∀ v, v ∈ vs ↔ item_denotes lo hi i v.
Proof.
  intros Hi. unfold parse_chunk. rewrite (chunk_step_print lo hi) by done. simpl.
  rewrite chunk_bounds_print by done. simpl. unfold item_valid, item_denotes in *.
  destruct (base_bounds lo hi (ci_base i)) as [start end_].
  replace ((start <? lo) || (hi <? end_) || (end_ <? start)) with false by lia.
  eexists; split; [done|]. intros v. apply elem_of_py_range; lia.
Qed.

Lemma parse_field_print lo hi f :
  field_valid lo hi f →
  ∃ vs, parse_field (print_field f) lo hi = Ok vs ∧ ∀ v, v ∈ vs ↔ field_denotes lo hi f v.
Proof.
  intros [Hne Hf]. unfold parse_field, print_field. rewrite split_on_join; cycle 1.
  { by destruct f. }
  { apply Forall_fmap. eapply Forall_impl; [exact Hf|]. intros i Hi. unfold compose, lacks.
    eapply string_forallb_impl; [|by eapply print_item_chars]. char_cases. }
  clear Hne. unfold field_denotes.
  induction Hf as [|i f Hi Hf (vs & Hvs & Hin)]; simpl.
  { exists []. split; [done|]. intros v. split; [by intros ?%elem_of_nil|by intros (i & ?%elem_of_nil & _)]. }
  unfold strip. rewrite strip_by_absent; cycle 1.
  { eapply string_forallb_impl; [|by eapply print_item_chars]. char_cases. }
  rewrite (print_item_nonempty lo hi) by done.
  destruct (parse_chunk_print lo hi i Hi) as (us & Hus & Hiu). rewrite Hus. simpl. rewrite Hvs. simpl.
  eexists; split; [done|]. intros v. rewrite elem_of_app, Hiu, Hin. split.
  - intros [H|(j & Hj & H)]; [by exists i; split; [left|]|by exists j; split; [right|]].
  - intros (j & [->|Hj]%elem_of_cons & H); [by left|right; by exists j].
Qed.

Lemma print_field_word lo hi f : field_valid lo hi f → word (print_field f) = true.
Proof.
  intros [Hne Hf]. unfold word, print_field, join. apply andb_true_iff. split.
  - destruct Hf as [|i f Hi Hf]; [done|]. pose proof (print_item_nonempty lo hi i Hi) as Hn.
    simpl. destruct f; [done|]. destruct (print_item i); [done|]. by rewrite append_cons.
  - clear Hne. induction Hf as [|i f Hi Hf IH]; [done|].
    assert (string_forallb (λ a, negb (is_space a)) (print_item i) = true) as Hc.
    { eapply string_forallb_impl; [|by eapply print_item_chars]. char_cases. }
    destruct f as [|j f]; [done|].
    change (String.concat "," (map print_item (i :: j :: f)))
      with (print_item i +:+ "," +:+ String.concat "," (map print_item (j :: f))).
    by rewrite !string_forallb_app, Hc, IH.
Qed.

Lemma print_item_star lo hi i : item_valid lo hi i → print_item i = "*" → i = mkItem Any None.
Proof.
  intros Hi Hp. pose proof (chunk_step_print lo hi i Hi) as Hc. rewrite Hp in Hc.
  injection Hc as Hb _. pose proof (chunk_bounds_print lo hi i Hi) as Hbb. unfold item_valid in Hi.
  unfold print_item in Hp. destruct i as [b [n|]]; simpl in *.
  { assert (lacks "/" (print_base b +:+ "/" +:+ str_of_Z n) = true) as Hl by by rewrite Hp.
    rewrite !lacks_app in Hl. by rewrite andb_false_r in Hl. }
  destruct b as [|v|a b]; [done| |]; exfalso; simpl in *.
  - symmetry in Hb. apply str_of_Z_ne in Hb; [done|lia|]. by intros ?? [= <- <-].
  - destruct (str_of_Z a) as [|c s] eqn:Ea; [done|]. rewrite append_cons in Hb.
    injection Hb as <- _. apply str_of_Z_ne in Ea; [done|lia|]. by intros ?? [= <- <-].
Qed.

Lemma print_field_star lo hi f : field_valid lo hi f → print_field f = "*" ↔ is_star f.
Proof.
  intros [Hne Hf]. split; [|by intros ->]. intros Hp.
  assert (split_on "," (print_field f) = map print_item f) as Hs.
  { unfold print_field. apply split_on_join; [by destruct f|].
    apply Forall_fmap. eapply Forall_impl; [exact Hf|]. intros i Hi. unfold compose, lacks.
    eapply string_forallb_impl; [|by eapply print_item_chars]. char_cases. }
  rewrite Hp in Hs. destruct f as [|i [|j f]]; [done| |done]. injection Hs as Hs.
  apply Forall_cons in Hf as [Hi _]. unfold is_star. f_equal. by eapply print_item_star.
Qed.

Lemma print_field_starb lo hi f :
  field_valid lo hi f → Bool.reflect (is_star f) (String.eqb (print_field f) "*").
Proof.
  intros Hf. apply iff_reflect. rewrite String.eqb_eq. symmetry. by eapply print_field_star.
Qed.

Lemma mem_true v l : mem v l = true ↔ v ∈ l.
Proof. apply bool_decide_eq_true. Qed.

(** C33: the matcher computes the meaning of cron expressions: on the printed form
    of every well-formed five-field expression (lists of stars, values and ranges,
    each with an optional step, within the field's bounds) [cron_matches] returns a
    truth value, which is true at exactly the times whose minute, hour, month and
    day the expression denotes, the two day fields combining as alternatives when
    neither is a plain star. *)
Theorem cron_matches_denotes (c : cron_expr) (when_ : Z) :
  cron_valid c →
  ∃ b, cron_matches (print_cron c) when_ = Ok b ∧ (b = true ↔ cron_denotes c (civil_of when_)).
Proof.
  intros (Hmi & Hh & Hd & Hmo & Hw). unfold cron_matches, print_cron, cron_denotes.
  generalize (civil_of when_). intros t.
  rewrite split_ws_join by (repeat constructor; by eapply print_field_word).
  destruct (parse_field_print _ _ _ Hmi) as (mins & -> & Emi).
  destruct (parse_field_print _ _ _ Hh) as (hours & -> & Eh).
  destruct (parse_field_print _ _ _ Hd) as (doms & -> & Ed).
  destruct (parse_field_print _ _ _ Hmo) as (mons & -> & Emo).
  destruct (parse_field_print _ _ _ Hw) as (dows & -> & Ew). simpl.
  setoid_rewrite <- (Emi (c_minute t)). setoid_rewrite <- (Eh (c_hour t)).
  setoid_rewrite <- (Ed (c_day t)). setoid_rewrite <- (Emo (c_month t)).
  setoid_rewrite <- (Ew ((c_weekday t + 1) mod 7)). setoid_rewrite <- mem_true.
  destruct (print_field_starb _ _ _ Hd) as [Sd|Sd], (print_field_starb _ _ _ Hw) as [Sw|Sw];
    destruct (mem _ mins), (mem _ hours), (mem _ mons), (mem _ doms), (mem _ dows);
    simpl; eexists; (split; [reflexivity|]); naive_solver.
Qed.

(** Twenty past and twenty to nine to five, every second day of the month or on
    Mondays: the first instant of 1970 (a Thursday, the first) does not match. *)
Definition office_hours : cron_expr :=
  mkCron [mkItem (At 20) None; mkItem (At 40) None] [mkItem (Span 9 17) None]
         [mkItem Any (Some 2)] [mkItem Any None] [mkItem (At 1) None].

Lemma office_hours_valid : cron_valid office_hours.
Proof. unfold cron_valid, field_valid; repeat split; try done; repeat constructor; simpl; lia. Qed.

Lemma cron_matches_denotes_witness :
  print_cron office_hours = "20,40 9-17 */2 * 1" ∧
  cron_matches (print_cron office_hours) 0 = Ok false ∧
  cron_matches (print_cron office_hours) ((9 * 60 + 40) * 60 * 1000000) = Ok true ∧
  ∃ b, cron_matches (print_cron office_hours) 0 = Ok b ∧ (b = true ↔ cron_denotes office_hours (civil_of 0)).
Proof.
  split; [vm_compute; reflexivity|]. split; [vm_compute; reflexivity|].
  split; [vm_compute; reflexivity|]. apply (cron_matches_denotes office_hours 0). apply office_hours_valid.
Defined.

(** ** Any string *)

(** A parsed value is within the field's bounds. *)
Lemma parse_field_bounds spec lo hi vs :
  parse_field spec lo hi = Ok vs → Forall (λ v, lo ≤ v ≤ hi) vs.
Proof.
  unfold parse_field. generalize (split_on "," spec). intros chunks. revert vs.
  induction chunks as [|chunk chunks IH]; intros vs; simpl; [by intros [= <-]|].
  destruct (nonempty (strip chunk)); [|apply IH]. unfold parse_chunk.
  destruct (chunk_step (strip chunk)) as [[base step]|] eqn:Hs; simpl; [|done].
  destruct (chunk_bounds lo hi base) as [[start end_]|]; simpl; [|done].
  destruct ((start <? lo) || (hi <? end_) || (end_ <? start)) eqn:Hb; simpl; [done|].
  destruct (parse_chunks lo hi chunks) as [rest|]; simpl; [|done]. intros [= <-].
  apply Forall_app. split; [|by apply IH]. apply Forall_forall. intros v.
  assert (1 ≤ step).
  { unfold chunk_step in Hs. destruct (split_first "/" (strip chunk)) as [[b s]|];
      [|by injection Hs as <- <-].
    destruct (py_int s) as [n|]; simpl in Hs; [|done]. destruct (Z.ltb_spec n 1); [done|].
    by injection Hs as <- <-. }
  rewrite elem_of_py_range by lia. lia.
Qed.

Lemma parse_chunk_error lo hi chunk e : parse_chunk lo hi chunk = Err e → e = ValueError.
Proof.
  unfold parse_chunk, chunk_step, chunk_bounds, of_option. intros H.
  repeat (case_match; simplify_eq/=; try done).
Qed.

Lemma parse_field_error spec lo hi e : parse_field spec lo hi = Err e → e = ValueError.
Proof.
  unfold parse_field. generalize (split_on "," spec). intros chunks.
  induction chunks as [|chunk chunks IH]; simpl; [done|].
  destruct (nonempty (strip chunk)); [|apply IH].
  destruct (parse_chunk lo hi (strip chunk)) eqn:Hc; simpl; [|intros [= <-]; by eapply parse_chunk_error].
  by destruct (parse_chunks lo hi chunks).
Qed.

(** Whether the matcher accepts a string does not depend on the time. *)
Lemma cron_matches_cases cron :
  (∀ t, cron_matches cron t = Err ValueError) ∨ (∀ t, ∃ b, cron_matches cron t = Ok b).
Proof.
  unfold cron_matches.
  destruct (split_ws cron) as [|p0 [|p1 [|p2 [|p3 [|p4 [|]]]]]]; try by left.
  destruct (parse_field p0 0 59) eqn:H0; simpl; [|left; intros t; f_equal; by eapply parse_field_error].
  destruct (parse_field p1 0 23) eqn:H1; simpl; [|left; intros t; f_equal; by eapply parse_field_error].
  destruct (parse_field p2 1 31) eqn:H2; simpl; [|left; intros t; f_equal; by eapply parse_field_error].
  destruct (parse_field p3 1 12) eqn:H3; simpl; [|left; intros t; f_equal; by eapply parse_field_error].
  destruct (parse_field p4 0 6) eqn:H4; simpl; [|left; intros t; f_equal; by eapply parse_field_error].
  right. intros t. repeat case_match; by eexists.
Qed.
