(* ===== verification/Hunt.v ===== *)
(** * Hunt: saved hunts, their runner and their scheduler

    services/hunt.py, workers/hunt_scheduler.py and the routes of api/hunt.py that
    change saved hunts, with the compilation of Sigma bodies (services/sigma.py).
    The runner threads one database session through calls that may raise: code in
    the monad [hs] keeps the rows added before an exception, which is what the
    scheduler commits when it swallows one.  A flush checks the foreign key of the
    alerts to the hosts.  A flush that fails leaves the session unusable until it
    is rolled back, which the scheduler does not do.

    pySigma, OpenSearch and the text of an exception are arguments. *)

From Stdlib Require Import Ascii String.
From S2P Require Import Prelude PyStr PyVal PyTime Models AuditChain Scoping Jobs Response Cron.
Local Open Scope string_scope.
Local Open Scope list_scope.
Local Open Scope Z_scope.

(** ** Rows and session *)

Record SavedHunt := mkHunt {
  hunt_id : uuid;
  hunt_tenant_id : uuid;
  hunt_owner_user_id : uuid;
  hunt_name : str;
  hunt_description : option str;
  hunt_query_dsl : str;
  hunt_query_language : str;
  hunt_schedule_cron : option str;
  hunt_last_run_at : option datetime;
  hunt_last_run_hit_count : option Z;
  hunt_alert_on_hit : bool;
  hunt_severity : option str;
  hunt_mitre_techniques : option (list str);
  hunt_host_scope_json : option dict;
  hunt_managed_rule_id : option uuid
}.

Record HuntRun := mkHuntRun {
  hr_id : uuid;
  hr_tenant_id : uuid;
  hr_hunt_id : uuid;
  hr_started_at : datetime;
  hr_finished_at : option datetime;
  hr_hit_count : option Z;
  hr_error : option str;
  hr_alert_count : option Z
}.

(** The tables a run reads and writes; of the hosts, their identifiers. *)
Record hunt_db := mkHuntDb {
  hd_hunts : list SavedHunt;
  hd_runs : list HuntRun;
  hd_rules : list Rule;
  hd_alerts : list Alert;
  hd_history : list AlertStateHistory;
  hd_hosts : list uuid;
  hd_audit : audit_db
}.

Definition set_hunts (l : list SavedHunt) (db : hunt_db) : hunt_db :=
  mkHuntDb l (hd_runs db) (hd_rules db) (hd_alerts db) (hd_history db) (hd_hosts db) (hd_audit db).
Definition set_runs (l : list HuntRun) (db : hunt_db) : hunt_db :=
  mkHuntDb (hd_hunts db) l (hd_rules db) (hd_alerts db) (hd_history db) (hd_hosts db) (hd_audit db).
Definition set_rules (l : list Rule) (db : hunt_db) : hunt_db :=
  mkHuntDb (hd_hunts db) (hd_runs db) l (hd_alerts db) (hd_history db) (hd_hosts db) (hd_audit db).
Definition add_alert (a : Alert) (h : AlertStateHistory) (db : hunt_db) : hunt_db :=
  mkHuntDb (hd_hunts db) (hd_runs db) (hd_rules db) (hd_alerts db ++ [a]) (hd_history db ++ [h])
    (hd_hosts db) (hd_audit db).
Definition set_audit (l : audit_db) (db : hunt_db) : hunt_db :=
  mkHuntDb (hd_hunts db) (hd_runs db) (hd_rules db) (hd_alerts db) (hd_history db) (hd_hosts db) l.

Definition update_hunt (hid : uuid) (f : SavedHunt → SavedHunt) (db : hunt_db) : hunt_db :=
  set_hunts (map (λ h, if hunt_id h =? hid then f h else h) (hd_hunts db)) db.
Definition update_run (rid : uuid) (f : HuntRun → HuntRun) (db : hunt_db) : hunt_db :=
  set_runs (map (λ r, if hr_id r =? rid then f r else r) (hd_runs db)) db.

(** A computation over the session: the rows it leaves, and a value or an
    exception. *)
Definition hs (A : Type) : Type := hunt_db → hunt_db * py A.
#[global] Instance hs_ret : MRet hs := λ A a db, (db, Ok a).
#[global] Instance hs_bind : MBind hs := λ A B k m db,
  match m db with (db', Ok a) => k a db' | (db', Err e) => (db', Err e) end.
Definition modify (f : hunt_db → hunt_db) : hs unit := λ db, (f db, Ok tt).
Definition gets {A} (f : hunt_db → A) : hs A := λ db, (db, Ok (f db)).
Definition raise {A} (e : pyexc) : hs A := λ db, (db, Err e).
Definition lift {A} (m : py A) : hs A := λ db, (db, m).

(** [db.flush()]: the foreign key of the alerts to the hosts. *)
Definition alert_host_ok (hosts : list uuid) (a : Alert) : bool :=
  match al_host_id a with Some h => bool_decide (h ∈ hosts) | None => true end.
Definition flush : hs unit := λ db,
  if forallb (alert_host_ok (hd_hosts db)) (hd_alerts db) then (db, Ok tt) else (db, Err IntegrityError).

(** ** Sigma (services/sigma.py) *)

Inductive pysigma_error :=
  | YAMLError (mark : option (Z * Z)) (problem : option str) (text : str)
  | SigmaError (text : str).
Record sigma_rule := mkSigmaRule { sr_title : option str; sr_description : option str; sr_id : option str }.
Record CompiledSigma := mkCompiled {
  cs_query : str; cs_title : str; cs_description : option str; cs_rule_id : option str }.

(** [x or y] and [str(x) if x else None] on optional strings. *)
Definition str_or (x : option str) (y : str) : str :=
  match x with Some (String _ _ as s) => s | _ => y end.
Definition some_truthy (x : option str) : option str :=
  match x with Some (String _ _) => x | _ => None end.

(** pySigma: a collection is its rules and what the backend makes of it; a
    failing [convert] raises a [SigmaError]. *)
Record pysigma := mkPysigma {
  ps_from_yaml : str → res pysigma_error (list sigma_rule * res str (list str)) }.

Definition compile_yaml (S : pysigma) (body : str) : res str CompiledSigma :=
  if negb (nonempty body) || negb (nonempty (strip body)) then Err "empty rule body" else
  match ps_from_yaml S body with
  | Err (YAMLError mark problem text) =>
      let problem :=
        str_or problem (match split_first newline text with Some (l, _) => l | None => text end) in
      match mark with
      | Some (line, column) =>
          Err ("yaml parse error at line " +:+ str_of_Z (line + 1) +:+ " column " +:+
               str_of_Z (column + 1) +:+ ": " +:+ problem)
      | None => Err ("yaml parse error: " +:+ problem)
      end
  | Err (SigmaError text) => Err ("sigma parse error: " +:+ text)
  | Ok ([rule], convert) =>
      match convert with
      | Err text => Err ("sigma backend error: " +:+ text)
      | Ok [] => Err "backend produced no query"
      | Ok (q :: _) =>
          Ok (mkCompiled q (str_or (sr_title rule) "") (some_truthy (sr_description rule))
                (some_truthy (sr_id rule)))
      end
  | Ok (rules, _) =>
      Err ("expected exactly one rule per body, got " +:+ str_of_nat (length rules))
  end.

(** ** The search body *)

Definition DEFAULT_RESULT_LIMIT : Z := 10000.

Definition query_string (q : str) : pyval := PDict [("query_string", PDict [("query", PStr q)])].

Definition translate_to_dsl (S : pysigma) (query language : str) : py pyval :=
  let body := strip query in
  if negb (nonempty body) then Err (HuntCompileError "query is empty")
  else if String.eqb language "lucene" || String.eqb language "kql" then Ok (query_string body)
  else if String.eqb language "sigma" then
    match compile_yaml S body with
    | Ok compiled => Ok (query_string (cs_query compiled))
    | Err msg => Err (HuntCompileError ("sigma compile failed: " +:+ msg))
    end
  else Err (HuntCompileError ("unknown query language: " +:+ language)).

(** [int(settings.hunt_result_limit or DEFAULT_RESULT_LIMIT)] *)
Definition result_limit (hunt_result_limit : Z) : Z :=
  if hunt_result_limit =? 0 then DEFAULT_RESULT_LIMIT else hunt_result_limit.

(** The host ids of a saved scope, when it has a list of them. *)
Definition scope_ids (host_scope : option dict) : option (list str) :=
  match host_scope with
  | Some d => match get_none "host_ids" d with PList l => Some (map py_str l) | _ => None end
  | None => None
  end.

Definition rbac_ids (visible : option (list uuid)) : option (list str) := map uuid_str <$> visible.

Definition effective (rbac scope : option (list str)) : option (list str) :=
  match rbac, scope with
  | None, None => None
  | None, Some s => Some s
  | Some r, None => Some r
  | Some r, Some s => Some (List.filter (λ h, bool_decide (h ∈ r)) s)
  end.

Definition build_search_body (query_clause : pyval) (lower upper : datetime)
    (visible_host_ids : option (list uuid)) (host_scope : option dict) (size : Z)
    (tenant_id : option uuid) : pyval :=
  let filters :=
    [PDict [("range", PDict [("@timestamp", PDict [("gte", PStr (isoformat lower));
                                                  ("lte", PStr (isoformat upper))])])];
     query_clause] ++
    match tenant_id with
    | Some t => [PDict [("term", PDict [("tenant.id", PStr (uuid_str t))])]]
    | None => []
    end ++
    match effective (rbac_ids visible_host_ids) (scope_ids host_scope) with
    | Some ids => [PDict [("terms", PDict [("host.id", PList (map PStr ids))])]]
    | None => []
    end in
  PDict [("size", PInt size); ("track_total_hits", PBool true);
         ("sort", PList [PDict [("@timestamp", PDict [("order", PStr "desc")])]]);
         ("query", PDict [("bool", PDict [("filter", PList filters)])])].

Definition effective_host_filter_empty (visible_host_ids : option (list uuid))
    (host_scope : option dict) : bool :=
  match rbac_ids visible_host_ids, scope_ids host_scope with
  | None, None => false
  | None, Some s => (length s =? 0)%nat
  | Some r, None => (length r =? 0)%nat
  | Some r, Some s => negb (existsb (λ h, bool_decide (h ∈ r)) s)
  end.

(** [resp.get("hits", {}).get("total", 0)] and the hits of the response. *)
Definition execute_search (search : pyval → py pyval) (body : pyval) : py (Z * list pyval) :=
  resp ← search body;
  match resp with
  | PDict d =>
      match get_default "hits" d (PDict []) with
      | PDict h =>
          total ← match get_default "total" h (PInt 0) with
                  | PDict t => match get_default "value" t (PInt 0) with PInt n => Ok n | _ => Err Unmodelled end
                  | v => py_int_of v
                  end;
          match get_default "hits" h (PList []) with
          | PList l => Ok (total, l)
          | _ => Err Unmodelled
          end
      | _ => Err AttributeError
      end
  | _ => Err AttributeError
  end.

(** ** The runner *)

(** [_SEVERITY_MAP.get((hunt.severity or "medium").lower(), Severity.MEDIUM)] *)
Definition hunt_alert_severity (h : SavedHunt) : Severity :=
  default MEDIUM (Severity_of (lower (str_or (hunt_severity h) "medium"))).

Section runner.
Context (E : env) (S : pysigma) (search : pyval → py pyval) (exc_str : pyexc → str).
Context (hunt_result_limit : Z).

Definition set_managed_rule (rid : uuid) (h : SavedHunt) : SavedHunt :=
  mkHunt (hunt_id h) (hunt_tenant_id h) (hunt_owner_user_id h) (hunt_name h) (hunt_description h)
    (hunt_query_dsl h) (hunt_query_language h) (hunt_schedule_cron h) (hunt_last_run_at h)
    (hunt_last_run_hit_count h) (hunt_alert_on_hit h) (hunt_severity h) (hunt_mitre_techniques h)
    (hunt_host_scope_json h) (Some rid).

Definition managed_rule (id : uuid) (h : SavedHunt) : Rule :=
  mkRule id DEFAULT_TENANT_ID SIGMA ("hunt:" +:+ hunt_name h)
    (Some ("Auto-managed: alerts emitted by scheduled hunt '" +:+ hunt_name h +:+
           "'. Edit the hunt in /hunt/saved; this rule itself is a stub used only for FK + alert dedup attribution."))
    (hunt_alert_severity h) ALERT true None None 1 None false.

Definition ensure_managed_rule (h : SavedHunt) : hs uuid :=
  existing ← gets (λ db,
    match hunt_managed_rule_id h with
    | Some rid => List.find (λ r, rule_id r =? rid) (hd_rules db)
    | None => None
    end);
  match existing with
  | Some rule => mret (rule_id rule)
  | None =>
      rid ← gets (λ db, env_uuid4 E (length (hd_rules db)));
      _ ← modify (λ db, set_rules (hd_rules db ++ [managed_rule rid h]) db);
      _ ← flush;
      _ ← modify (update_hunt (hunt_id h) (set_managed_rule rid));
      mret rid
  end.

(** [UUID(host_id_str)] on any truthy value: a string parses or raises the
    [ValueError] that is caught; another value has no [replace]. *)
Definition hit_host (hit : pyval) : py (option uuid) :=
  src ← py_get_dict "_source" hit;
  host ← py_get_dict "host" src;
  host_id_str ← py_get "id" host;
  if negb (truthy host_id_str) then Ok None
  else match host_id_str with
       | PStr s => Ok (uuid_of_str s)
       | _ => Err AttributeError
       end.
Definition hit_event_id (hit : pyval) : py pyval :=
  src ← py_get_dict "_source" hit; event ← py_get_dict "event" src; py_get "id" event.

Definition hunt_alert (id hid rid : uuid) (h : SavedHunt) (event_id : pyval) : Alert :=
  mkAlert id DEFAULT_TENANT_ID (Some hid) rid (hunt_alert_severity h) ALERT NEW
    ("Hunt match: " +:+ hunt_name h)
    (Some [("engine", PStr "hunt"); ("hunt_id", PStr (uuid_str (hunt_id h)));
           ("hunt_name", PStr (hunt_name h)); ("event_id", event_id);
           ("query_language", PStr (hunt_query_language h))])
    None None
    (match hunt_mitre_techniques h with Some ((_ :: _) as l) => Some l | _ => None end)
    (env_now E) None None None None 1 (env_now E).

(** One iteration of the loop over the hits: whether an alert was added. *)
Definition emit_hit (h : SavedHunt) (rid : uuid) (hit : pyval) : hs bool :=
  hid ← lift (hit_host hit);
  match hid with
  | None => mret false
  | Some hid =>
      event_id ← lift (hit_event_id hit);
      id ← gets (λ db, env_uuid4 E (length (hd_alerts db)));
      _ ← modify (add_alert (hunt_alert id hid rid h event_id)
             (mkHistory id DEFAULT_TENANT_ID None NEW None
                (Some ("auto-generated by hunt '" +:+ hunt_name h +:+ "'")) (env_now E)));
      mret true
  end.

Fixpoint emit_hits (h : SavedHunt) (rid : uuid) (hits : list pyval) (inserted : Z) : hs Z :=
  match hits with
  | [] => mret inserted
  | hit :: hits =>
      added ← emit_hit h rid hit;
      emit_hits h rid hits (if added : bool then inserted + 1 else inserted)
  end.

Definition emit_alerts_for_hits (h : SavedHunt) (rid : uuid) (hits : list pyval) : hs Z :=
  inserted ← emit_hits h rid hits 0;
  _ ← (if 0 <? inserted then flush else mret tt);
  mret inserted.

Definition fail_run (msg : str) (r : HuntRun) : HuntRun :=
  mkHuntRun (hr_id r) (hr_tenant_id r) (hr_hunt_id r) (hr_started_at r) (Some (env_now E)) (Some 0)
    (Some msg) (Some 0).
Definition set_hit_count (total : Z) (r : HuntRun) : HuntRun :=
  mkHuntRun (hr_id r) (hr_tenant_id r) (hr_hunt_id r) (hr_started_at r) (hr_finished_at r) (Some total)
    (hr_error r) (hr_alert_count r).
Definition complete_run (alerts : Z) (r : HuntRun) : HuntRun :=
  mkHuntRun (hr_id r) (hr_tenant_id r) (hr_hunt_id r) (hr_started_at r) (Some (env_now E)) (hr_hit_count r)
    (hr_error r) (Some alerts).
Definition set_last_run (now : datetime) (total : Z) (h : SavedHunt) : SavedHunt :=
  mkHunt (hunt_id h) (hunt_tenant_id h) (hunt_owner_user_id h) (hunt_name h) (hunt_description h)
    (hunt_query_dsl h) (hunt_query_language h) (hunt_schedule_cron h) (Some now) (Some total)
    (hunt_alert_on_hit h) (hunt_severity h) (hunt_mitre_techniques h) (hunt_host_scope_json h)
    (hunt_managed_rule_id h).

Definition find_hunt (hid : uuid) (db : hunt_db) : option SavedHunt :=
  List.find (λ h, hunt_id h =? hid) (hd_hunts db).

Definition us_per_hour : Z := 3600000000.
Definition hunt_body (h : SavedHunt) (clause : pyval) (now : datetime) (lookback_hours : Z) : pyval :=
  build_search_body clause (now - lookback_hours * us_per_hour) now None (hunt_host_scope_json h)
    (Z.min (result_limit hunt_result_limit) 10000) (Some (hunt_tenant_id h)).

Definition end_run (rid : uuid) (msg : str) : hs uuid :=
  _ ← modify (update_run rid (fail_run msg)); _ ← flush; mret rid.

(** The identifier of the run is returned for the row. *)
Definition run_hunt (hid : uuid) (dry_run : bool) (now : datetime) (lookback_hours : Z) : hs uuid :=
  hunt ← gets (find_hunt hid);
  match hunt with
  | None => raise ValueError
  | Some h =>
      rid ← gets (λ db, env_uuid4 E (length (hd_runs db)));
      _ ← modify (λ db,
            set_runs (hd_runs db ++ [mkHuntRun rid DEFAULT_TENANT_ID (hunt_id h) now None None None None]) db);
      _ ← flush;
      match translate_to_dsl S (hunt_query_dsl h) (hunt_query_language h) with
      | Err (HuntCompileError msg) => end_run rid msg
      | Err e => raise e
      | Ok clause =>
          match execute_search search (hunt_body h clause now lookback_hours) with
          | Err e => end_run rid ("search failed: " +:+ exc_str e)
          | Ok (total, hits) =>
              _ ← modify (update_run rid (set_hit_count total));
              alert_count ←
                (if hunt_alert_on_hit h && negb dry_run && negb (length hits =? 0)%nat then
                   rule ← ensure_managed_rule h; emit_alerts_for_hits h rule hits
                 else mret 0);
              _ ← modify (λ db, if dry_run then db else update_hunt (hunt_id h) (set_last_run now total) db);
              _ ← modify (update_run rid (complete_run alert_count));
              _ ← flush;
              mret rid
          end
      end
  end.

(** ** The scheduler (workers/hunt_scheduler.py) *)

Definition same_minute (a b : datetime) : bool :=
  let ca := civil_of a in
  let cb := civil_of b in
  (c_year ca =? c_year cb) && (c_month ca =? c_month cb) && (c_day ca =? c_day cb) &&
  (c_hour ca =? c_hour cb) && (c_minute ca =? c_minute cb).

Definition is_due (h : SavedHunt) (now : datetime) : bool :=
  match hunt_schedule_cron h with
  | None | Some "" => false
  | Some cron =>
      match cron_matches cron now with
      | Ok true => match hunt_last_run_at h with
                   | Some last => negb (same_minute last now)
                   | None => true
                   end
      | _ => false
      end
  end.

(** The loop over the hunts the pass selected: [None] when a flush has failed, as
    the session then refuses every further operation, the commit included. *)
Fixpoint run_selected (force : bool) (now : datetime) (hunts : list SavedHunt) (fired : Z)
    (db : hunt_db) : option (hunt_db * Z) :=
  match hunts with
  | [] => Some (db, fired)
  | h :: hunts =>
      if negb force && negb (is_due h now) then run_selected force now hunts fired db
      else match run_hunt (hunt_id h) false now 24 db with
           | (db', Ok _) => run_selected force now hunts (fired + 1) db'
           | (_, Err IntegrityError) => None
           | (db', Err _) => run_selected force now hunts fired db'
           end
  end.

Definition selected (force : option uuid) (db : hunt_db) : list SavedHunt :=
  List.filter (λ h, match force with
                    | Some hid => hunt_id h =? hid
                    | None => match hunt_schedule_cron h with Some _ => true | None => false end
                    end) (hd_hunts db).

(** One pass, in its own transaction: an exception leaves the tables as they were. *)
Definition run_once (now : datetime) (force : option uuid) : hs Z := λ db,
  match run_selected (match force with Some _ => true | None => false end) now (selected force db) 0 db with
  | None => (db, Err PendingRollbackError)
  | Some (db', fired) =>
      match flush db' with
      | (_, Ok _) => (db', Ok fired)
      | (_, Err e) => (db, Err e)
      end
  end.

End runner.

(** ** The routes (api/hunt.py) *)

(** [alert_on_hit or schedule_cron] is truthy. *)
Definition has_side_effects (alert_on_hit : bool) (schedule_cron : option str) : bool :=
  alert_on_hit || match schedule_cron with Some c => nonempty c | None => false end.
Definition require_admin_for_side_effects (actor : Actor) (alert_on_hit : bool)
    (schedule_cron : option str) : py unit :=
  if negb (has_side_effects alert_on_hit schedule_cron) then Ok tt
  else if negb (has_role actor [ADMIN]) then Err (HTTPException 403)
  else Ok tt.

(** [validate_cron], with its [ValueError] turned into a 400. *)
Definition check_cron (now : datetime) (schedule_cron : option str) : py unit :=
  match schedule_cron with
  | None | Some "" => Ok tt
  | Some c => match cron_matches c now with
              | Ok _ => Ok tt
              | Err ValueError => Err (HTTPException 400)
              | Err e => Err e
              end
  end.
Definition check_query (S : pysigma) (query language : str) : py pyval :=
  match translate_to_dsl S query language with
  | Err (HuntCompileError _) => Err (HTTPException 400)
  | r => r
  end.

Definition audit_hunt (E : env) (actor : Actor) (action resource_type : str) (hid : option uuid)
    (payload : option dict) (db : hunt_db) : hunt_db :=
  set_audit (record (env_audit_key E) (Some actor) action (Some resource_type) (uuid_str <$> hid) payload
               None None (env_now E) (env_uuid4 E (length (log (hd_audit db)))) (hd_audit db)) db.

Record SavedHuntCreate := mkHuntCreate {
  shc_name : str; shc_description : option str; shc_query_dsl : str; shc_query_language : str;
  shc_schedule_cron : option str; shc_alert_on_hit : bool; shc_severity : option str;
  shc_mitre_techniques : option (list str); shc_host_scope_json : option dict }.

Definition opt_pstr (o : option str) : pyval := match o with Some s => PStr s | None => PNone end.

Definition create_saved (E : env) (S : pysigma) (payload : SavedHuntCreate) (actor : Actor) (db : hunt_db) :
    py (hunt_db * SavedHunt) :=
  _ ← require_analyst actor;
  _ ← require_admin_for_side_effects actor (shc_alert_on_hit payload) (shc_schedule_cron payload);
  _ ← check_query S (shc_query_dsl payload) (shc_query_language payload);
  _ ← check_cron (env_now E) (shc_schedule_cron payload);
  let h := mkHunt (env_uuid4 E (length (hd_hunts db))) (actor_tenant_id actor) (actor_user_id actor)
             (shc_name payload) (shc_description payload) (shc_query_dsl payload)
             (shc_query_language payload) (shc_schedule_cron payload) None None
             (shc_alert_on_hit payload) (shc_severity payload) (shc_mitre_techniques payload)
             (shc_host_scope_json payload) None in
  Ok (audit_hunt E actor "hunt.create" "saved_hunt" (Some (hunt_id h))
        (Some [("name", PStr (hunt_name h)); ("query_language", PStr (hunt_query_language h));
               ("alert_on_hit", PBool (hunt_alert_on_hit h));
               ("schedule_cron", opt_pstr (hunt_schedule_cron h))])
        (set_hunts (hd_hunts db ++ [h]) db), h).

Definition load_or_404 (db : hunt_db) (hid : uuid) (actor : Actor) : py SavedHunt :=
  match find_hunt hid db with
  | None => Err (HTTPException 404)
  | Some h => if negb (hunt_tenant_id h =? actor_tenant_id actor) then Err (HTTPException 404) else Ok h
  end.
Definition assert_owner_or_admin (actor : Actor) (h : SavedHunt) : py unit :=
  if has_role actor [ADMIN] then Ok tt
  else if negb (hunt_owner_user_id h =? actor_user_id actor) then Err (HTTPException 403)
  else Ok tt.

(** A field outside [model_fields_set] is [None]; of the fields whose explicit
    null is ignored, only the value is kept. *)
Record SavedHuntUpdate := mkHuntUpdate {
  shu_name : option str; shu_description : option (option str); shu_query_dsl : option str;
  shu_query_language : option str; shu_schedule_cron : option (option str);
  shu_alert_on_hit : option bool; shu_severity : option (option str);
  shu_mitre_techniques : option (option (list str)); shu_host_scope_json : option (option dict) }.

Definition apply_update (p : SavedHuntUpdate) (h : SavedHunt) : SavedHunt :=
  mkHunt (hunt_id h) (hunt_tenant_id h) (hunt_owner_user_id h)
    (default (hunt_name h) (shu_name p)) (default (hunt_description h) (shu_description p))
    (default (hunt_query_dsl h) (shu_query_dsl p)) (default (hunt_query_language h) (shu_query_language p))
    (default (hunt_schedule_cron h) (shu_schedule_cron p)) (hunt_last_run_at h)
    (hunt_last_run_hit_count h) (default (hunt_alert_on_hit h) (shu_alert_on_hit p))
    (default (hunt_severity h) (shu_severity p)) (default (hunt_mitre_techniques h) (shu_mitre_techniques p))
    (default (hunt_host_scope_json h) (shu_host_scope_json p)) (hunt_managed_rule_id h).

Definition update_saved (E : env) (S : pysigma) (hid : uuid) (p : SavedHuntUpdate) (actor : Actor)
    (db : hunt_db) : py (hunt_db * SavedHunt) :=
  _ ← require_analyst actor;
  h ← load_or_404 db hid actor;
  _ ← assert_owner_or_admin actor h;
  _ ← require_admin_for_side_effects actor (default (hunt_alert_on_hit h) (shu_alert_on_hit p))
        (default (hunt_schedule_cron h) (shu_schedule_cron p));
  _ ← match shu_query_dsl p, shu_query_language p with
      | None, None => Ok PNone
      | q, l => check_query S (default (hunt_query_dsl h) q) (default (hunt_query_language h) l)
      end;
  _ ← match shu_schedule_cron p with Some c => check_cron (env_now E) c | None => Ok tt end;
  let h' := apply_update p h in
  Ok (audit_hunt E actor "hunt.update" "saved_hunt" (Some (hunt_id h')) (Some [("name", PStr (hunt_name h'))])
        (update_hunt hid (λ _, h') db), h').

(** The runs of a deleted hunt go with it (ON DELETE CASCADE). *)
Definition delete_saved (E : env) (hid : uuid) (actor : Actor) (db : hunt_db) : py hunt_db :=
  _ ← require_analyst actor;
  h ← load_or_404 db hid actor;
  _ ← assert_owner_or_admin actor h;
  Ok (audit_hunt E actor "hunt.delete" "saved_hunt" (Some hid) None
        (set_runs (List.filter (λ r, negb (hr_hunt_id r =? hid)) (hd_runs db))
           (set_hunts (List.filter (λ h, negb (hunt_id h =? hid)) (hd_hunts db)) db))).

(** The tenant of a search made on behalf of an actor. *)
Definition eff_tenant (actor : Actor) (tenant : option uuid) : option uuid :=
  if actor_is_super_admin actor then tenant else Some (actor_tenant_id actor).

Definition manual_run (rid hid : uuid) (started finished : datetime) (total : Z) : HuntRun :=
  mkHuntRun rid DEFAULT_TENANT_ID hid started (Some finished) (Some total) None (Some 0).

(** The rows, the total and the hits; an exception of the search escapes after
    the audit row is committed, which is the state kept here beside it. *)
Definition run_saved (E : env) (S : pysigma) (search : pyval → py pyval) (sdb : scope_db) (hid : uuid)
    (tenant : option uuid) (actor : Actor) : hs (Z * list pyval) :=
  _ ← lift (require_analyst actor);
  db ← gets id;
  h ← lift (load_or_404 db hid actor);
  _ ← lift (assert_owner_or_admin actor h);
  _ ← modify (audit_hunt E actor "hunt.run_saved" "saved_hunt" (Some (hunt_id h))
                (Some [("name", PStr (hunt_name h))]));
  let visible := visible_host_ids actor sdb in
  rid ← gets (λ db, env_uuid4 E (length (hd_runs db)));
  let now := env_now E in
  if effective_host_filter_empty visible (hunt_host_scope_json h) then
    _ ← modify (λ db, set_runs (hd_runs db ++ [manual_run rid (hunt_id h) now now 0]) db);
    mret (0, [])
  else
    clause ← lift (check_query S (hunt_query_dsl h) (hunt_query_language h));
    let body := build_search_body clause (now - 24 * us_per_hour) now visible (hunt_host_scope_json h)
                  1000 (eff_tenant actor tenant) in
    '(total, hits) ← lift (execute_search search body);
    _ ← modify (λ db, set_runs (hd_runs db ++ [manual_run rid (hunt_id h) now now total]) db);
    mret (total, hits).

Definition run_adhoc (E : env) (S : pysigma) (search : pyval → py pyval) (sdb : scope_db)
    (query language : str) (lookback_hours size : Z) (tenant : option uuid) (actor : Actor) :
    hs (Z * list pyval) :=
  _ ← lift (require_analyst actor);
  clause ← lift (check_query S query language);
  let visible := visible_host_ids actor sdb in
  _ ← modify (audit_hunt E actor "hunt.run_adhoc" "hunt" None
                (Some [("language", PStr language); ("lookback_hours", PInt lookback_hours);
                       ("size", PInt size)]));
  if effective_host_filter_empty visible None then mret (0, [])
  else
    let now := env_now E in
    lift (execute_search search
            (build_search_body clause (now - lookback_hours * us_per_hour) now visible None size
               (eff_tenant actor tenant))).

(** ** The host filter *)

(** The host clause of a search body, when it has one. *)
Definition clause_hosts (c : pyval) : option pyval :=
  match c with
  | PDict [("terms", PDict [("host.id", ids)])] => Some ids
  | _ => None
  end.
Definition body_hosts (body : pyval) : list pyval :=
  match body with
  | PDict [_; _; _; ("query", PDict [("bool", PDict [("filter", PList (_ :: _ :: filters))])])] =>
      omap clause_hosts filters
  | _ => []
  end.

(** A host id that both the actor's visibility and the saved scope admit. *)
Definition admitted (visible : option (list uuid)) (host_scope : option dict) (id : str) : Prop :=
  (∀ ids, visible = Some ids → id ∈ map uuid_str ids) ∧
  (∀ ids, scope_ids host_scope = Some ids → id ∈ ids).

Lemma body_hosts_effective clause lower upper visible scope size tenant :
  body_hosts (build_search_body clause lower upper visible scope size tenant) =
  match effective (rbac_ids visible) (scope_ids scope) with
  | Some ids => [PList (map PStr ids)]
  | None => []
  end.
Proof. unfold build_search_body. by destruct tenant, (effective _ _). Qed.

Lemma effective_admitted visible scope :
  match effective (rbac_ids visible) (scope_ids scope) with
  | Some ids => ∀ id, id ∈ ids ↔ admitted visible scope id
  | None => ∀ id, admitted visible scope id
  end.
Proof.
  unfold admitted, rbac_ids. destruct visible as [v|], (scope_ids scope) as [s|]; simpl; try naive_solver.
  intros id. rewrite elem_of_filterb, bool_decide_eq_true. naive_solver.
Qed.

Lemma effective_empty visible scope :
  effective_host_filter_empty visible scope = true ↔
  effective (rbac_ids visible) (scope_ids scope) = Some [].
Proof.
  unfold effective_host_filter_empty. destruct (rbac_ids visible) as [r|], (scope_ids scope) as [s|]; simpl.
  - rewrite negb_true_iff. split.
    + intros H. f_equal. induction s as [|x s IH]; [done|]. simpl in *.
      apply orb_false_iff in H as [-> H]. by apply IH.
    + intros [= H]. induction s as [|x s IH]; [done|]. simpl in *.
      destruct (bool_decide (x ∈ r)); [done|]. by apply IH.
  - rewrite Nat.eqb_eq, length_zero_iff_nil. naive_solver.
  - rewrite Nat.eqb_eq, length_zero_iff_nil. naive_solver.
  - done.
Qed.

(** The host filter of a hunt is exact: the search body has a host clause
    unless every host is admitted, the clause lists exactly the host ids that are
    both visible to the actor and in the saved scope, and the short circuit
    [effective_host_filter_empty] is taken exactly when no host id is admitted. *)
Theorem host_filter_exact clause lower upper visible scope size tenant :
  (match body_hosts (build_search_body clause lower upper visible scope size tenant) with
   | [] => ∀ id, admitted visible scope id
   | [PList ids] => ∀ v, v ∈ ids ↔ ∃ id, v = PStr id ∧ admitted visible scope id
   | _ => False
   end) ∧
  (effective_host_filter_empty visible scope = true ↔ ∀ id, ¬ admitted visible scope id).
Proof.
  rewrite body_hosts_effective, effective_empty. pose proof (effective_admitted visible scope) as He.
  destruct (effective _ _) as [ids|]; split.
  - intros v. rewrite list_elem_of_fmap. by setoid_rewrite He.
  - setoid_rewrite <- He. split; [intros [= ->] id; apply not_elem_of_nil|].
    intros H. f_equal. by apply elem_of_nil_inv.
  - done.
  - split; [done|]. intros H. exfalso. by apply (H ""), He.
Qed.

(** ** Minutes *)

Definition minute_of (t : datetime) : Z := t / 60000000.

Lemma minute_of_parts t :
  minute_of t = t / us_per_day * 1440 + t mod us_per_day / 1000000 / 3600 * 60 +
                t mod us_per_day / 1000000 / 60 mod 60.
Proof. unfold minute_of, us_per_day. Z.to_euclidean_division_equations. lia. Qed.

Lemma same_minute_iff a b : same_minute a b = true ↔ minute_of a = minute_of b.
Proof.
  unfold same_minute, civil_of.
  destruct (civil_of_days (a / us_per_day)) as [[ya ma] da] eqn:Ea.
  destruct (civil_of_days (b / us_per_day)) as [[yb mb] db] eqn:Eb. simpl.
  rewrite !andb_true_iff, !Z.eqb_eq. split.
  - intros [[[[-> ->] ->] Hh] Hm].
    assert (a / us_per_day = b / us_per_day) as Hd by (apply civil_of_days_inj; congruence).
    rewrite !minute_of_parts. rewrite Hd, Hh, Hm. done.
  - intros Hab. rewrite !minute_of_parts in Hab.
    assert (∀ t, 0 ≤ t mod us_per_day / 1000000 < 86400) as Hb.
    { intros t. unfold us_per_day. Z.to_euclidean_division_equations. lia. }
    pose proof (Hb a) as Ha. pose proof (Hb b) as Hb'. clear Hb.
    assert (a / us_per_day = b / us_per_day ∧
            a mod us_per_day / 1000000 / 3600 = b mod us_per_day / 1000000 / 3600 ∧
            a mod us_per_day / 1000000 / 60 mod 60 = b mod us_per_day / 1000000 / 60 mod 60) as (Hd & Hh & Hm).
    { revert Ha Hb' Hab. generalize (a mod us_per_day / 1000000), (b mod us_per_day / 1000000).
      generalize (a / us_per_day), (b / us_per_day). intros p q r s ???.
      Z.to_euclidean_division_equations. lia. }
    rewrite Hd, Eb in Ea. by simplify_eq.
Qed.

(** ** What a run leaves alone *)

Definition run_count (hid : uuid) (db : hunt_db) : nat :=
  length (List.filter (λ r, hr_hunt_id r =? hid) (hd_runs db)).

(** A step of the runner for the hunt [hid]: the hosts, the other hunts and the
    number of their runs stay. *)
Definition run_frame (hid : uuid) (db db' : hunt_db) : Prop :=
  hd_hosts db' = hd_hosts db ∧
  ∀ id, id ≠ hid → find_hunt id db' = find_hunt id db ∧ run_count id db' = run_count id db.

#[global] Instance run_frame_refl hid : Reflexive (run_frame hid).
Proof. by intros db. Qed.
#[global] Instance run_frame_trans hid : Transitive (run_frame hid).
Proof.
  intros a b c [Hh1 H1] [Hh2 H2]. split; [congruence|]. intros id Hid.
  destruct (H1 id Hid), (H2 id Hid). split; congruence.
Qed.

Definition framed {A} (hid : uuid) (m : hs A) : Prop := ∀ db, run_frame hid db (m db).1.

Lemma framed_bind {A B} hid (m : hs A) (k : A → hs B) :
  framed hid m → (∀ a, framed hid (k a)) → framed hid (m ≫= k).
Proof.
  intros Hm Hk db. unfold mbind, hs_bind. specialize (Hm db). destruct (m db) as [db' [a|e]]; simpl in *.
  - etrans; [exact Hm|apply Hk].
  - exact Hm.
Qed.
Lemma bind_gets {A B} (f : hunt_db → A) (k : A → hs B) db : (gets f ≫= k) db = k (f db) db.
Proof. done. Qed.
Lemma framed_pure {A} hid (m : hs A) : (∀ db, (m db).1 = db) → framed hid m.
Proof. intros H db. by rewrite H. Qed.
Lemma framed_flush hid : framed hid flush.
Proof. apply framed_pure. intros db. unfold flush. by case_match. Qed.

Lemma map_update_find {A} (key : A → Z) (k k' : Z) (f : A → A) (l : list A) :
  (∀ x, key (f x) = key x) → k' ≠ k →
  List.find (λ x, key x =? k') (map (λ x, if key x =? k then f x else x) l) = List.find (λ x, key x =? k') l.
Proof.
  intros Hf Hk. induction l as [|x l IH]; [done|]. simpl.
  destruct (Z.eqb_spec (key x) k) as [<-|Hx]; [rewrite Hf|by destruct (key x =? k')].
  destruct (Z.eqb_spec (key x) k'); [congruence|done].
Qed.

Lemma map_update_count {A} (key key' : A → Z) (k k' : Z) (f : A → A) (l : list A) :
  (∀ x, key' (f x) = key' x) →
  length (List.filter (λ x, key' x =? k') (map (λ x, if key x =? k then f x else x) l)) =
  length (List.filter (λ x, key' x =? k') l).
Proof.
  intros Hf. induction l as [|x l IH]; [done|]. simpl.
  destruct (key x =? k); rewrite ?Hf; destruct (key' x =? k'); simpl; lia.
Qed.

Lemma framed_update_hunt hid f : (∀ h, hunt_id (f h) = hunt_id h) → framed hid (modify (update_hunt hid f)).
Proof.
  intros Hf db. split; [done|]. intros id Hid. split; [|done].
  unfold find_hunt. simpl. by apply map_update_find.
Qed.
Lemma framed_update_run hid rid f :
  (∀ r, hr_hunt_id (f r) = hr_hunt_id r) → framed hid (modify (update_run rid f)).
Proof. intros Hf db. split; [done|]. intros id Hid. split; [done|]. by apply map_update_count. Qed.
Lemma framed_add_run hid f : (∀ db, hr_hunt_id (f db) = hid) →
  framed hid (modify (λ db, set_runs (hd_runs db ++ [f db]) db)).
Proof.
  intros Hr db. split; [done|]. intros id Hid. split; [done|].
  unfold run_count. simpl. rewrite List.filter_app, length_app. simpl.
  destruct (Z.eqb_spec (hr_hunt_id (f db)) id); [congruence|]. simpl. lia.
Qed.

Create HintDb hunt_frame.
#[export] Hint Resolve framed_bind framed_flush framed_update_hunt framed_update_run framed_add_run : hunt_frame.

(** Walk through the code of a runner. *)
Ltac frame_step :=
  match goal with
  | |- framed _ (mbind _ _) => apply framed_bind; [|intros]
  | |- framed _ (mret _) => by apply framed_pure
  | |- framed _ (gets _) => by apply framed_pure
  | |- framed _ (lift _) => by apply framed_pure
  | |- framed _ (raise _) => by apply framed_pure
  | |- framed _ (modify (add_alert _ _)) => by intros ?
  | |- framed _ flush => apply framed_flush
  | |- framed _ (match ?x with _ => _ end) => destruct x eqn:?
  | |- framed _ (if ?x then _ else _) => destruct x eqn:?
  | _ => progress auto with hunt_frame
  end.

Section frames.
Context (E : env) (S : pysigma) (search : pyval → py pyval) (exc_str : pyexc → str) (lim : Z).

Lemma framed_ensure h : framed (hunt_id h) (ensure_managed_rule E h).
Proof. unfold ensure_managed_rule. repeat frame_step. by intros db. Qed.

Lemma framed_emit_hits hid h rid hits n : framed hid (emit_hits E h rid hits n).
Proof.
  revert n. induction hits as [|hit hits IH]; intros n; simpl; [by apply framed_pure|].
  unfold emit_hit. repeat frame_step; apply IH.
Qed.

Lemma framed_run_hunt hid dry now lb : framed hid (run_hunt E S search exc_str lim hid dry now lb).
Proof.
  intros db. unfold run_hunt. rewrite bind_gets.
  destruct (find_hunt hid db) as [h|] eqn:Hh; [|done].
  assert (hunt_id h = hid) as <-.
  { unfold find_hunt in Hh. apply List.find_some in Hh as [_ ?]. lia. }
  match goal with |- run_frame _ _ (?m db).1 => enough (framed (hunt_id h) m) as Hm by apply Hm end.
  unfold end_run, emit_alerts_for_hits. repeat frame_step; auto using framed_ensure, framed_emit_hits.
  intros db'. destruct dry; [done|]. by apply (framed_update_hunt (hunt_id h) (set_last_run now z)).
Qed.
End frames.

Lemma bind_modify {A} f (k : unit → hs A) db : (modify f ≫= k) db = k tt (f db).
Proof. done. Qed.
Lemma bind_ok {A B} (m : hs A) (k : A → hs B) db db' b :
  (m ≫= k) db = (db', Ok b) → ∃ db1 a, m db = (db1, Ok a) ∧ k a db1 = (db', Ok b).
Proof. unfold mbind, hs_bind. destruct (m db) as [db1 [a|e]]; [by eauto|done]. Qed.
Lemma flush_cases db : flush db = (db, Ok tt) ∨ flush db = (db, Err IntegrityError).
Proof. unfold flush. case_match; auto. Qed.
Lemma bind_flush_ok {A} (k : unit → hs A) db : flush db = (db, Ok tt) → (flush ≫= k) db = k tt db.
Proof. unfold mbind, hs_bind. by intros ->. Qed.
Lemma flush_ok_same db db' u : flush db = (db', Ok u) → db' = db.
Proof. destruct (flush_cases db) as [-> | ->]; by intros [= <-]. Qed.

Lemma run_count_update_run hid rid f db :
  (∀ r, hr_hunt_id (f r) = hr_hunt_id r) → run_count hid (update_run rid f db) = run_count hid db.
Proof. apply map_update_count. Qed.

Lemma run_count_add hid r db :
  run_count hid (set_runs (hd_runs db ++ [r]) db) =
  (run_count hid db + (if (hr_hunt_id r =? hid)%Z then 1 else 0))%nat.
Proof.
  unfold run_count. simpl. rewrite List.filter_app, length_app. simpl. by destruct (hr_hunt_id r =? hid).
Qed.

Lemma find_hunt_id hid db h : find_hunt hid db = Some h → hunt_id h = hid.
Proof. unfold find_hunt. intros [_ H]%List.find_some. lia. Qed.

Lemma elem_update_hunt hid f db h' :
  h' ∈ hd_hunts (update_hunt hid f db) →
  (∃ h, h ∈ hd_hunts db ∧ hunt_id h = hid ∧ h' = f h) ∨ (h' ∈ hd_hunts db ∧ hunt_id h' ≠ hid).
Proof.
  simpl. intros (h & -> & Hh)%list_elem_of_fmap. destruct (Z.eqb_spec (hunt_id h) hid); eauto.
Qed.

Section scheduler.
Context (E : env) (S : pysigma) (search : pyval → py pyval) (exc_str : pyexc → str) (lim : Z).

(** A step that leaves the runs alone. *)
Definition keeps_runs {A} (m : hs A) : Prop := ∀ db, hd_runs (m db).1 = hd_runs db.

Lemma keeps_runs_bind {A B} (m : hs A) (k : A → hs B) :
  keeps_runs m → (∀ a, keeps_runs (k a)) → keeps_runs (m ≫= k).
Proof.
  intros Hm Hk db. unfold mbind, hs_bind. specialize (Hm db). destruct (m db) as [db' [a|e]]; simpl in *.
  - etrans; [apply Hk|exact Hm].
  - exact Hm.
Qed.
Lemma keeps_runs_flush : keeps_runs flush.
Proof. intros db. by destruct (flush_cases db) as [-> | ->]. Qed.

Lemma keeps_runs_alerts h hits :
  keeps_runs (rule ← ensure_managed_rule E h; emit_alerts_for_hits E h rule hits).
Proof.
  apply keeps_runs_bind.
  - unfold ensure_managed_rule. apply keeps_runs_bind; [done|]. intros [r|]; [done|].
    repeat (apply keeps_runs_bind; [first [done|apply keeps_runs_flush]|intros]). done.
  - intros rid. unfold emit_alerts_for_hits. apply keeps_runs_bind.
    + generalize 0. induction hits as [|hit hits IH]; intros n; [done|]. simpl.
      apply keeps_runs_bind; [|intros; apply IH]. unfold emit_hit.
      apply keeps_runs_bind; [done|]. intros [hid|]; [|done].
      repeat (apply keeps_runs_bind; [done|intros]). done.
    + intros n. apply keeps_runs_bind; [|done]. case_match; [apply keeps_runs_flush|done].
Qed.

(** A run whose query compiles and whose search answers stamps the hunt and adds
    one row to its history. *)
Lemma run_hunt_stamps hid now lb db db1 rid h clause r :
  find_hunt hid db = Some h →
  translate_to_dsl S (hunt_query_dsl h) (hunt_query_language h) = Ok clause →
  execute_search search (hunt_body lim h clause now lb) = Ok r →
  run_hunt E S search exc_str lim hid false now lb db = (db1, Ok rid) →
  (∀ h', h' ∈ hd_hunts db1 → hunt_id h' = hid → hunt_last_run_at h' = Some now) ∧
  run_count hid db1 = (run_count hid db + 1)%nat.
Proof.
  intros Hh Ht Hs. destruct r as [total hits]. pose proof (find_hunt_id _ _ _ Hh) as <-.
  unfold run_hunt. rewrite bind_gets, Hh, bind_gets, bind_modify.
  intros (db2 & [] & ->%flush_ok_same & H)%bind_ok. rewrite Ht, Hs, bind_modify in H.
  apply bind_ok in H as (db3 & n & Ha & H). rewrite !bind_modify in H.
  apply bind_ok in H as (db4 & [] & ->%flush_ok_same & H). unfold mret, hs_ret in H. injection H as <- <-.
  split.
  - intros h' [(h0 & _ & _ & ->)|[_ Hne]]%elem_update_hunt ?; [done|]. by destruct Hne.
  - rewrite run_count_update_run by done. unfold run_count at 1. simpl.
    match type of Ha with ?m ?d = _ => assert (hd_runs (m d).1 = hd_runs d) as Hk end.
    { case_match; [apply keeps_runs_alerts|done]. }
    rewrite Ha in Hk. simpl in Hk. rewrite Hk.
    etrans; [by apply map_update_count|]. etrans; [apply run_count_add|]. simpl. by rewrite Z.eqb_refl.
Qed.

Lemma run_selected_rests hid now hunts fired db db' n :
  (∀ h, h ∈ hunts → hunt_id h = hid → is_due h now = false) →
  run_selected E S search exc_str lim false now hunts fired db = Some (db', n) →
  run_count hid db' = run_count hid db.
Proof.
  intros Hd. revert fired db. induction hunts as [|h hunts IH]; intros fired db; simpl.
  { by intros [= <- <-]. }
  assert (∀ h, h ∈ hunts → hunt_id h = hid → is_due h now = false) as Hd'.
  { intros h' Hh'. apply Hd. by right. }
  destruct (is_due h now) eqn:Hdue; simpl; [|by apply IH].
  assert (hid ≠ hunt_id h) as Hne. { intros ->. rewrite Hd in Hdue; [done|by left|done]. }
  destruct (framed_run_hunt E S search exc_str lim (hunt_id h) false now 24 db) as [_ Hf].
  destruct (Hf hid Hne) as [_ Hc]. clear Hf.
  destruct (run_hunt E S search exc_str lim (hunt_id h) false now 24 db) as [db1 [r|e]]; simpl in Hc.
  - intros H. rewrite <- Hc. by eapply IH.
  - destruct e; (done || (intros H; rewrite <- Hc; by eapply IH)).
Qed.

Lemma is_due_minute h now last :
  hunt_last_run_at h = Some last → minute_of last = minute_of now → is_due h now = false.
Proof.
  intros Hl Hm. unfold is_due. rewrite Hl. apply same_minute_iff in Hm. rewrite Hm.
  by repeat case_match.
Qed.
End scheduler.

(** The scheduler does not fire a hunt twice in a minute: once a run of a hunt
    whose query compiles and whose search answers has completed, which adds one
    row to its history, a later pass within the same minute completes without
    running that hunt again, whatever it does with the others. *)
Theorem completed_hunt_rests E S search exc_str lim hid now lb db db1 rid h clause r
    E' search' now' db2 fired :
  find_hunt hid db = Some h →
  translate_to_dsl S (hunt_query_dsl h) (hunt_query_language h) = Ok clause →
  execute_search search (hunt_body lim h clause now lb) = Ok r →
  run_hunt E S search exc_str lim hid false now lb db = (db1, Ok rid) →
  minute_of now' = minute_of now →
  run_once E' S search' exc_str lim now' None db1 = (db2, Ok fired) →
  run_count hid db1 = (run_count hid db + 1)%nat ∧ run_count hid db2 = run_count hid db1.
Proof.
  intros Hh Ht Hs Hr Hm Ho. destruct (run_hunt_stamps _ _ _ _ _ _ _ _ _ _ _ _ _ _ Hh Ht Hs Hr) as [Hst Hc].
  split; [done|]. unfold run_once in Ho.
  destruct (run_selected _ _ _ _ _ _ _ _ _) as [[db3 n]|] eqn:Hsel; [|done].
  destruct (flush_cases db3) as [Hf|Hf]; rewrite Hf in Ho; [|done]. injection Ho as <- <-.
  eapply run_selected_rests; [|exact Hsel]. intros h' Hh' Hid.
  eapply is_due_minute; [|by symmetry].
  apply Hst; [|done]. unfold selected in Hh'. by apply elem_of_filterb in Hh' as [? _].
Qed.

(** A lucene hunt on every minute, a search that finds one event of host 7, and one
    that fails. *)
Definition demo_hunt : SavedHunt :=
  mkHunt 50 1 2 "psexec" None "process.name: psexec" "lucene" (Some "* * * * *") None None true None None
    None None.
Definition demo_hit : pyval :=
  PDict [("_source", PDict [("host", PDict [("id", PStr (uuid_str 7))]); ("event", PDict [("id", PStr "e")])])].
Definition demo_search : pyval → py pyval := λ _,
  Ok (PDict [("hits", PDict [("total", PDict [("value", PInt 1)]); ("hits", PList [demo_hit])])]).
Definition down_search : pyval → py pyval := λ _, Err (RuntimeError "connection refused").
Definition no_sigma : pysigma := mkPysigma (λ _, Err (SigmaError "")).
Definition demo_hunt_db (hosts : list uuid) : hunt_db := mkHuntDb [demo_hunt] [] [] [] [] hosts empty_db.
Definition demo_hunt_env : env := mkEnv (λ n, 100 + Z.of_nat n) 5 None.
Definition demo_exc_str : pyexc → str := λ _, "down".

Definition demo_run : hunt_db * py uuid :=
  run_hunt demo_hunt_env no_sigma demo_search demo_exc_str 0 50 false 0 24 (demo_hunt_db [7]).
Definition demo_pass : hunt_db * py Z :=
  run_once demo_hunt_env no_sigma demo_search demo_exc_str 0 59000000 None demo_run.1.

Lemma completed_hunt_rests_witness :
  run_count 50 demo_run.1 = 1%nat ∧ length (hd_alerts demo_run.1) = 1%nat ∧
  run_count 50 demo_pass.1 = run_count 50 demo_run.1.
Proof.
  split; [vm_compute; reflexivity|]. split; [vm_compute; reflexivity|].
  apply (completed_hunt_rests demo_hunt_env no_sigma demo_search demo_exc_str 0 50 0 24 (demo_hunt_db [7])
           demo_run.1 100 demo_hunt (query_string "process.name: psexec") (1, [demo_hit])
           demo_hunt_env demo_search 59000000 demo_pass.1 0); vm_compute; reflexivity.
Defined.

(** ** A failing search *)

Lemma translate_error S q l e : translate_to_dsl S q l = Err e → ∃ msg, e = HuntCompileError msg.
Proof. unfold translate_to_dsl. intros H. repeat case_match; simplify_eq; eauto. Qed.

Lemma flush_stable db db' :
  hd_hosts db' = hd_hosts db → hd_alerts db' = hd_alerts db → flush db = (db, Ok tt) → flush db' = (db', Ok tt).
Proof. unfold flush. intros -> ->. by case_match. Qed.

Section failing.
Context (E : env) (S : pysigma) (search : pyval → py pyval) (exc_str : pyexc → str) (lim : Z).
Hypothesis search_down : ∀ body, ∃ e, search body = Err e.

(** A run then only adds a row to the history. *)
Definition only_run (hid : uuid) (db db' : hunt_db) : Prop :=
  hd_hunts db' = hd_hunts db ∧ hd_alerts db' = hd_alerts db ∧ hd_hosts db' = hd_hosts db ∧
  ∀ id, run_count id db' = (run_count id db + (if (hid =? id)%Z then 1 else 0))%nat.

Lemma run_hunt_down h now lb db :
  find_hunt (hunt_id h) db = Some h → flush db = (db, Ok tt) →
  ∃ db' rid, run_hunt E S search exc_str lim (hunt_id h) false now lb db = (db', Ok rid) ∧
             only_run (hunt_id h) db db'.
Proof.
  intros Hh Hf. unfold run_hunt. rewrite bind_gets, Hh, bind_gets, bind_modify.
  rewrite bind_flush_ok by (by apply (flush_stable db)).
  assert (∀ msg, ∃ db' rid,
    end_run E (env_uuid4 E (length (hd_runs db))) msg
      (set_runs (hd_runs db ++ [mkHuntRun (env_uuid4 E (length (hd_runs db))) DEFAULT_TENANT_ID (hunt_id h)
                                  now None None None None]) db) = (db', Ok rid) ∧
    only_run (hunt_id h) db db') as Hend.
  { intros msg. unfold end_run. rewrite bind_modify, bind_flush_ok by (by apply (flush_stable db)).
    do 2 eexists. split; [done|]. repeat split. intros id.
    rewrite run_count_update_run by done. by rewrite run_count_add. }
  destruct (translate_to_dsl _ _ _) as [clause|e] eqn:Ht.
  - assert (∃ e, execute_search search (hunt_body lim h clause now lb) = Err e) as [e ->]; [|apply Hend].
    unfold execute_search. destruct (search_down (hunt_body lim h clause now lb)) as [e ->]. by exists e.
  - destruct (translate_error _ _ _ _ Ht) as [msg ->]. apply Hend.
Qed.

(** How many of the hunts with that identifier are due. *)
Definition due_count (id : uuid) (now : datetime) (hunts : list SavedHunt) : nat :=
  length (List.filter (λ h, (hunt_id h =? id) && is_due h now) hunts).

Lemma run_selected_down now hunts fired db :
  (∀ h, h ∈ hunts → find_hunt (hunt_id h) db = Some h) → flush db = (db, Ok tt) →
  ∃ db' n, run_selected E S search exc_str lim false now hunts fired db = Some (db', n) ∧
    hd_hunts db' = hd_hunts db ∧ hd_alerts db' = hd_alerts db ∧ hd_hosts db' = hd_hosts db ∧
    ∀ id, run_count id db' = (run_count id db + due_count id now hunts)%nat.
Proof.
  revert fired db. induction hunts as [|h hunts IH]; intros fired db Hall Hf; simpl.
  { exists db, fired. repeat split. intros id. unfold due_count. simpl. lia. }
  assert (∀ h', h' ∈ hunts → find_hunt (hunt_id h') db = Some h') as Hall' by (intros; apply Hall; by right).
  destruct (is_due h now) eqn:Hdue; simpl.
  - destruct (run_hunt_down h now 24 db) as (db1 & rid & -> & Hh & Ha & Ho & Hc); [apply Hall; by left|done|].
    destruct (IH (fired + 1) db1) as (db2 & n & -> & Hh2 & Ha2 & Ho2 & Hc2).
    { intros h' Hh'. unfold find_hunt. rewrite Hh. by apply Hall'. }
    { by eapply (flush_stable db). }
    exists db2, n. split; [done|]. repeat split; try congruence. intros id.
    rewrite Hc2, Hc. unfold due_count. simpl. rewrite Hdue, andb_true_r.
    destruct (hunt_id h =? id); simpl; lia.
  - destruct (IH fired db Hall' Hf) as (db2 & n & -> & Hrest). exists db2, n. split; [done|].
    unfold due_count. simpl. rewrite Hdue. by setoid_rewrite andb_false_r.
Qed.

(** [k] passes in a row at the same time. *)
Definition passes (k : nat) (now : datetime) (db : hunt_db) : hunt_db :=
  Nat.iter k (λ db, (run_once E S search exc_str lim now None db).1) db.
End failing.

Lemma find_hunt_unique db h :
  NoDup (map hunt_id (hd_hunts db)) → h ∈ hd_hunts db → find_hunt (hunt_id h) db = Some h.
Proof.
  unfold find_hunt. intros Hnd Hin. destruct (List.find _ _) as [h'|] eqn:Hf.
  - apply List.find_some in Hf as [Hin' Hid]. simpl in Hid. f_equal. apply list_elem_of_In in Hin'.
    eapply (NoDup_key_inj hunt_id); [exact Hnd|done|done|lia].
  - apply list_elem_of_In in Hin. pose proof (List.find_none _ _ Hf _ Hin) as Hn. simpl in Hn. lia.
Qed.

Lemma due_count_one now hunts h :
  NoDup (map hunt_id hunts) → h ∈ hunts → is_due h now = true → due_count (hunt_id h) now hunts = 1%nat.
Proof.
  unfold due_count. induction hunts as [|x hunts IH]; intros Hnd Hin Hdue; [by apply elem_of_nil in Hin|].
  apply NoDup_cons in Hnd as [Hx Hnd]. simpl. apply elem_of_cons in Hin as [<-|Hin].
  - rewrite Z.eqb_refl, Hdue. simpl. f_equal.
    rewrite filter_none; [done|]. intros y Hy. apply andb_false_iff. left.
    apply Z.eqb_neq. intros He. apply Hx. rewrite <- He. by apply list_elem_of_fmap_2.
  - assert (hunt_id x ≠ hunt_id h) as Hne.
    { intros He. apply Hx. rewrite He. by apply list_elem_of_fmap_2. }
    apply Z.eqb_neq in Hne. rewrite Hne. simpl. by apply IH.
Qed.

Lemma run_once_down E S search exc_str lim now db h :
  (∀ body, ∃ e, search body = Err e) → NoDup (map hunt_id (hd_hunts db)) → h ∈ hd_hunts db →
  is_due h now = true → flush db = (db, Ok tt) →
  let db' := (run_once E S search exc_str lim now None db).1 in
  hd_hunts db' = hd_hunts db ∧ flush db' = (db', Ok tt) ∧
  run_count (hunt_id h) db' = (run_count (hunt_id h) db + 1)%nat.
Proof.
  intros Hdown Hnd Hin Hdue Hf. unfold run_once.
  assert (∀ x, x ∈ selected None db → x ∈ hd_hunts db) as Hsel.
  { unfold selected. intros x Hx. by apply elem_of_filterb in Hx as [? _]. }
  destruct (run_selected_down E S search exc_str lim Hdown now (selected None db) 0 db)
    as (db' & n & Hr & Hh & Ha & Ho & Hc); [by auto using find_hunt_unique|done|].
  rewrite Hr. assert (flush db' = (db', Ok tt)) as Hf' by by apply (flush_stable db). rewrite Hf'. simpl.
  split; [done|]. split; [done|]. rewrite Hc, due_count_one; [done| | |done].
  - unfold selected. by apply NoDup_map_filterb.
  - unfold selected. apply elem_of_filterb. split; [done|].
    unfold is_due in Hdue. by destruct (hunt_schedule_cron h).
Qed.

(** A hunt whose search fails fires on every pass: its run records the error
    but does not stamp the hunt, so the guard against a second run in the same
    minute never applies and [k] passes add [k] rows to its history. *)
Theorem failing_hunt_refires E S search exc_str lim now k db h :
  (∀ body, ∃ e, search body = Err e) → NoDup (map hunt_id (hd_hunts db)) → h ∈ hd_hunts db →
  is_due h now = true → flush db = (db, Ok tt) →
  run_count (hunt_id h) (passes E S search exc_str lim k now db) = (run_count (hunt_id h) db + k)%nat.
Proof.
  intros Hdown Hnd Hin Hdue Hf. unfold passes. set (f := λ db, (run_once E S search exc_str lim now None db).1).
  enough (hd_hunts (Nat.iter k f db) = hd_hunts db ∧
          flush (Nat.iter k f db) = (Nat.iter k f db, Ok tt) ∧
          run_count (hunt_id h) (Nat.iter k f db) = (run_count (hunt_id h) db + k)%nat) by tauto.
  induction k as [|k (Hh & Hfk & Hc)]; [simpl; auto with lia|].
  change (Nat.iter (Datatypes.S k) f db) with (f (Nat.iter k f db)).
  destruct (run_once_down E S search exc_str lim now (Nat.iter k f db) h) as (Hh' & Hf' & Hc');
    [done|by rewrite Hh|by rewrite Hh|done|done|].
  fold (f (Nat.iter k f db)) in Hh', Hf', Hc'. rewrite Hh', Hc', Hc. split; [done|]. split; [done|lia].
Qed.

Lemma failing_hunt_refires_witness :
  run_count 50 (passes demo_hunt_env no_sigma down_search demo_exc_str 0 3 0 (demo_hunt_db [7])) = 3%nat.
Proof.
  apply (failing_hunt_refires demo_hunt_env no_sigma down_search demo_exc_str 0 0 3 (demo_hunt_db [7]) demo_hunt).
  - intros body. by eexists.
  - apply NoDup_singleton.
  - by left.
  - vm_compute. reflexivity.
  - vm_compute. reflexivity.
Defined.

(** ** A hit on a deleted host *)

Section orphan.
Context (E : env) (S : pysigma) (search : pyval → py pyval) (exc_str : pyexc → str) (lim : Z).

(** A hit the loop can read. *)
Definition readable (hit : pyval) : Prop :=
  (∃ o, hit_host hit = Ok o) ∧ (∃ v, hit_event_id hit = Ok v).

Lemma emit_hit_some h rid hit x v db :
  hit_host hit = Ok (Some x) → hit_event_id hit = Ok v →
  ∃ a hist, emit_hit E h rid hit db = (add_alert a hist db, Ok true) ∧ al_host_id a = Some x.
Proof.
  intros Ho Hv. unfold emit_hit, mbind, hs_bind, lift, gets, modify, mret, hs_ret. rewrite Ho, Hv.
  do 2 eexists. split; reflexivity.
Qed.
Lemma emit_hit_none h rid hit db : hit_host hit = Ok None → emit_hit E h rid hit db = (db, Ok false).
Proof. intros Ho. unfold emit_hit, mbind, hs_bind, lift. by rewrite Ho. Qed.

Lemma emit_hits_adds h rid hits n db :
  Forall readable hits →
  ∃ db' n', emit_hits E h rid hits n db = (db', Ok n') ∧ hd_hosts db' = hd_hosts db ∧ n ≤ n' ∧
    (∀ a, a ∈ hd_alerts db → a ∈ hd_alerts db') ∧
    (∀ hit x, hit ∈ hits → hit_host hit = Ok (Some x) →
       n < n' ∧ ∃ a, a ∈ hd_alerts db' ∧ al_host_id a = Some x).
Proof.
  intros Hall. revert n db. induction Hall as [|hit hits [[o Ho] [v Hv]] Hall IH]; intros n db.
  { exists db, n. split; [done|]. split; [done|]. split; [lia|]. split; [done|]. by intros ?? ?%elem_of_nil. }
  cbn [emit_hits]. unfold mbind, hs_bind. destruct o as [x|].
  - destruct (emit_hit_some h rid hit x v db Ho Hv) as (a & hist & -> & Ha).
    destruct (IH (n + 1) (add_alert a hist db)) as (db' & n' & -> & Hh & Hn & Hold & Hnew).
    exists db', n'. split; [done|]. split; [done|]. split; [lia|]. split.
    { intros b Hb. apply Hold. simpl. apply elem_of_app. by left. }
    intros hit' y [->|Hin]%elem_of_cons Hy.
    + split; [lia|]. exists a. split; [apply Hold; simpl; apply elem_of_app; right; by left|]. congruence.
    + destruct (Hnew hit' y Hin Hy) as [??]. split; [lia|done].
  - rewrite emit_hit_none by done. destruct (IH n db) as (db' & n' & -> & Hh & Hn & Hold & Hnew).
    exists db', n'. split; [done|]. split; [done|]. split; [done|]. split; [done|].
    intros hit' y [->|Hin]%elem_of_cons Hy; [congruence|]. by eapply Hnew.
Qed.

Lemma flush_orphan db a x :
  a ∈ hd_alerts db → al_host_id a = Some x → x ∉ hd_hosts db → flush db = (db, Err IntegrityError).
Proof.
  intros Ha Hx Hn. unfold flush. destruct (forallb _ _) eqn:Hf; [|done].
  rewrite forallb_forall in Hf. specialize (Hf a). rewrite <- list_elem_of_In in Hf. specialize (Hf Ha).
  unfold alert_host_ok in Hf. rewrite Hx, bool_decide_eq_true in Hf. done.
Qed.
End orphan.

Section abort.
Context (E : env) (S : pysigma) (search : pyval → py pyval) (exc_str : pyexc → str) (lim : Z).

(** Every way to end is the failure of a flush. *)
Definition integrity {A} (r : hunt_db * py A) : Prop := r.2 = Err IntegrityError.

Lemma integrity_flush {A} (k : unit → hs A) db : integrity (k tt db) → integrity ((flush ≫= k) db).
Proof. unfold integrity, mbind, hs_bind. by destruct (flush_cases db) as [-> | ->]. Qed.

Lemma integrity_emit h rid hits db x :
  Forall readable hits → (∃ hit, hit ∈ hits ∧ hit_host hit = Ok (Some x)) → x ∉ hd_hosts db →
  integrity (emit_alerts_for_hits E h rid hits db).
Proof.
  intros Hr (hit & Hin & Hx) Hn. unfold emit_alerts_for_hits, integrity, mbind, hs_bind.
  destruct (emit_hits_adds E h rid hits 0 db Hr) as (db' & n & -> & Hh & _ & _ & Hnew).
  destruct (Hnew hit x Hin Hx) as [Hpos (a & Ha & Hax)].
  destruct (Z.ltb_spec 0 n); [|lia]. rewrite (flush_orphan db' a x); [done|done|done|by rewrite Hh].
Qed.

Lemma integrity_alerts h hits db x :
  Forall readable hits → (∃ hit, hit ∈ hits ∧ hit_host hit = Ok (Some x)) → x ∉ hd_hosts db →
  integrity ((rule ← ensure_managed_rule E h; emit_alerts_for_hits E h rule hits) db).
Proof.
  intros Hr Hx Hn. unfold integrity, mbind, hs_bind at 1.
  pose proof (framed_ensure E h db) as [Hh _].
  destruct (ensure_managed_rule E h db) as [db' [rid|e]] eqn:He; simpl in *.
  - eapply integrity_emit; [done|done|]. by rewrite Hh.
  - unfold ensure_managed_rule in He. rewrite bind_gets in He. case_match; [done|].
    rewrite bind_gets, bind_modify in He. unfold mbind, hs_bind in He.
    destruct (flush_cases (set_rules (hd_rules db ++ [managed_rule (env_uuid4 E (length (hd_rules db))) h]) db))
      as [Hf|Hf]; rewrite Hf in He; [done|]. by injection He as _ <-.
Qed.

Lemma integrity_run_hunt h now lb db clause total hits x :
  find_hunt (hunt_id h) db = Some h → hunt_alert_on_hit h = true →
  translate_to_dsl S (hunt_query_dsl h) (hunt_query_language h) = Ok clause →
  execute_search search (hunt_body lim h clause now lb) = Ok (total, hits) →
  Forall readable hits → (∃ hit, hit ∈ hits ∧ hit_host hit = Ok (Some x)) → x ∉ hd_hosts db →
  integrity (run_hunt E S search exc_str lim (hunt_id h) false now lb db).
Proof.
  intros Hh Ha Ht Hs Hr Hx Hn. unfold run_hunt. rewrite bind_gets, Hh, bind_gets, bind_modify.
  apply integrity_flush. rewrite Ht, Hs, bind_modify, Ha.
  destruct hits as [|hit hits]; [by destruct Hx as (? & ?%elem_of_nil & _)|]. cbn [andb negb length Nat.eqb].
  unfold integrity, mbind at 1, hs_bind at 1.
  match goal with |- context [(ensure_managed_rule E h ≫= ?k) ?d] =>
    assert (integrity ((ensure_managed_rule E h ≫= k) d)) as Hi by (by eapply integrity_alerts);
    unfold integrity in Hi; destruct ((ensure_managed_rule E h ≫= k) d) as [db' [n|e]] end; [done|].
  simpl in *. by injection Hi as ->.
Qed.

Lemma run_selected_aborts h now hunts fired db clause total hits x :
  NoDup (map hunt_id hunts) → h ∈ hunts → is_due h now = true →
  find_hunt (hunt_id h) db = Some h → hunt_alert_on_hit h = true →
  translate_to_dsl S (hunt_query_dsl h) (hunt_query_language h) = Ok clause →
  execute_search search (hunt_body lim h clause now 24) = Ok (total, hits) →
  Forall readable hits → (∃ hit, hit ∈ hits ∧ hit_host hit = Ok (Some x)) → x ∉ hd_hosts db →
  run_selected E S search exc_str lim false now hunts fired db = None.
Proof.
  intros Hnd Hin Hdue Hh Ha Ht Hs Hr Hx Hn. revert fired db Hh Hn.
  induction hunts as [|y hunts IH]; intros fired db Hh Hn; [by apply elem_of_nil in Hin|].
  apply NoDup_cons in Hnd as [Hy Hnd]. apply elem_of_cons in Hin as [->|Hin]; simpl.
  { rewrite Hdue. simpl.
    assert (integrity (run_hunt E S search exc_str lim (hunt_id y) false now 24 db)) as Hi
      by by eapply integrity_run_hunt.
    unfold integrity in Hi. destruct (run_hunt _ _ _ _ _ _ _ _ _ db) as [db' r]. simpl in Hi. by rewrite Hi. }
  destruct (is_due y now); simpl; [|by apply IH].
  assert (hunt_id h ≠ hunt_id y) as Hne. { intros He. apply Hy. rewrite <- He. by apply list_elem_of_fmap_2. }
  destruct (framed_run_hunt E S search exc_str lim (hunt_id y) false now 24 db) as [Ho Hf].
  destruct (Hf _ Hne) as [Hf' _]. clear Hf. rewrite Hh in Hf'. rewrite <- Ho in Hn.
  destruct (run_hunt E S search exc_str lim (hunt_id y) false now 24 db) as [db1 [r|e]]; simpl in *.
  - by apply IH.
  - destruct e; (done || by apply IH).
Qed.
End abort.

(** One hit on a deleted host aborts a whole scheduler pass: if a due hunt that
    alerts on hits finds an event of a host that is no longer in the hosts table,
    the insertion of its alert violates the foreign key, and since the session is
    not rolled back where the exception is swallowed, the pass raises and no run,
    alert or time stamp of any hunt is kept. *)
Theorem deleted_host_aborts_pass E S search exc_str lim now db h clause total hits x :
  NoDup (map hunt_id (hd_hunts db)) → h ∈ hd_hunts db → is_due h now = true → hunt_alert_on_hit h = true →
  translate_to_dsl S (hunt_query_dsl h) (hunt_query_language h) = Ok clause →
  execute_search search (hunt_body lim h clause now 24) = Ok (total, hits) →
  Forall readable hits → (∃ hit, hit ∈ hits ∧ hit_host hit = Ok (Some x)) → x ∉ hd_hosts db →
  run_once E S search exc_str lim now None db = (db, Err PendingRollbackError).
Proof.
  intros Hnd Hin Hdue Ha Ht Hs Hr Hx Hn. unfold run_once.
  rewrite (run_selected_aborts E S search exc_str lim h now _ 0 db clause total hits x); try done.
  - unfold selected. by apply NoDup_map_filterb.
  - unfold selected. apply elem_of_filterb. split; [done|].
    unfold is_due in Hdue. by destruct (hunt_schedule_cron h).
  - by apply find_hunt_unique.
Qed.

Lemma deleted_host_aborts_pass_witness :
  run_once demo_hunt_env no_sigma demo_search demo_exc_str 0 0 None (demo_hunt_db [8]) =
  (demo_hunt_db [8], Err PendingRollbackError).
Proof.
  apply (deleted_host_aborts_pass demo_hunt_env no_sigma demo_search demo_exc_str 0 0 (demo_hunt_db [8]) demo_hunt
           (query_string "process.name: psexec") 1 [demo_hit] 7).
  - apply NoDup_singleton.
  - by left.
  - vm_compute. reflexivity.
  - reflexivity.
  - vm_compute. reflexivity.
  - vm_compute. reflexivity.
  - repeat constructor; eexists; vm_compute; reflexivity.
  - exists demo_hit. split; [by left|]. vm_compute. reflexivity.
  - simpl. set_solver.
Defined.

(** ** Who may schedule *)

Inductive hunt_call :=
  | CreateSaved (payload : SavedHuntCreate)
  | UpdateSaved (hid : uuid) (payload : SavedHuntUpdate)
  | DeleteSaved (hid : uuid).

Definition hunt_route (E : env) (S : pysigma) (actor : Actor) (c : hunt_call) (db : hunt_db) : py hunt_db :=
  match c with
  | CreateSaved p => '(db, _) ← create_saved E S p actor db; Ok db
  | UpdateSaved hid p => '(db, _) ← update_saved E S hid p actor db; Ok db
  | DeleteSaved hid => delete_saved E hid actor db
  end.

(** The hunt is in the actor's tenant, and theirs unless they are an administrator. *)
Definition may_touch (actor : Actor) (h : SavedHunt) : Prop :=
  hunt_tenant_id h = actor_tenant_id actor ∧ (has_role actor [ADMIN] = true ∨ hunt_owner_user_id h = actor_user_id actor).
Definition scheduled_or_alerting (h : SavedHunt) : bool :=
  has_side_effects (hunt_alert_on_hit h) (hunt_schedule_cron h).
(** The scheduler never has to skip the hunt for its cron string. *)
Definition schedule_ok (h : SavedHunt) : Prop :=
  ∀ c, hunt_schedule_cron h = Some c → c ≠ "" → ∀ t, ∃ b, cron_matches c t = Ok b.

Lemma load_ok db hid actor h :
  load_or_404 db hid actor = Ok h → assert_owner_or_admin actor h = Ok tt →
  find_hunt hid db = Some h ∧ may_touch actor h.
Proof.
  unfold load_or_404, assert_owner_or_admin, may_touch. destruct (find_hunt hid db) as [h'|]; [|done].
  destruct (Z.eqb_spec (hunt_tenant_id h') (actor_tenant_id actor)); [|done]. intros [= <-] Ho.
  split; [done|]. split; [done|]. destruct (has_role actor [ADMIN]); [by left|]. right.
  by destruct (Z.eqb_spec (hunt_owner_user_id h') (actor_user_id actor)).
Qed.

Lemma gate_ok actor a c :
  require_admin_for_side_effects actor a c = Ok tt → has_role actor [ADMIN] = true ∨ has_side_effects a c = false.
Proof.
  unfold require_admin_for_side_effects. destruct (has_side_effects a c); [|by right].
  destruct (has_role actor [ADMIN]); [by left|done].
Qed.

Lemma check_cron_ok now c : check_cron now (Some c) = Ok tt → c ≠ "" → ∀ t, ∃ b, cron_matches c t = Ok b.
Proof.
  intros Hc Hne. destruct (cron_matches_cases c) as [He|Hok]; [|done]. unfold check_cron in Hc.
  destruct c as [|a c]; [done|]. by rewrite He in Hc.
Qed.

(** What a route does to the rows: a row it writes, and a row it takes away. *)
Definition touches (actor : Actor) (db db' : hunt_db) : Prop :=
  (∀ h', h' ∈ hd_hunts db' →
     h' ∈ hd_hunts db ∨
     (may_touch actor h' ∧ (has_role actor [ADMIN] = true ∨ scheduled_or_alerting h' = false))) ∧
  (∀ h, h ∈ hd_hunts db → h ∈ hd_hunts db' ∨ may_touch actor h).

Lemma create_touches E S p actor db db' h :
  create_saved E S p actor db = Ok (db', h) →
  touches actor db db' ∧ (Forall schedule_ok (hd_hunts db) → Forall schedule_ok (hd_hunts db')).
Proof.
  unfold create_saved. destruct (require_analyst actor) as [[]|]; simpl; [|done].
  destruct (require_admin_for_side_effects _ _ _) as [[]|] eqn:Hg; simpl; [|done].
  destruct (check_query _ _ _); simpl; [|done].
  destruct (check_cron _ _) as [[]|] eqn:Hc; simpl; [|done]. intros [= <- _]. simpl. split.
  - split; [|intros h0 Hh0; left; apply elem_of_app; by left].
    intros h' [Hh'|Hh'%list_elem_of_singleton]%elem_of_app; [by left|]. subst h'. right. split.
    + split; [done|by right].
    + by apply gate_ok.
  - intros Hall. apply Forall_app. split; [done|]. constructor; [|done]. intros cr Hcr Hne. simpl in Hcr.
    rewrite Hcr in Hc. by eapply check_cron_ok.
Qed.

Lemma update_touches E S hid p actor db db' h :
  NoDup (map hunt_id (hd_hunts db)) → update_saved E S hid p actor db = Ok (db', h) →
  touches actor db db' ∧ (Forall schedule_ok (hd_hunts db) → Forall schedule_ok (hd_hunts db')).
Proof.
  intros Hnd. unfold update_saved. destruct (require_analyst actor) as [[]|]; simpl; [|done].
  destruct (load_or_404 db hid actor) as [h0|] eqn:Hl; simpl; [|done].
  destruct (assert_owner_or_admin actor h0) as [[]|] eqn:Ho; simpl; [|done].
  destruct (require_admin_for_side_effects _ _ _) as [[]|] eqn:Hg; simpl; [|done].
  match goal with |- (?m ≫= _) = _ → _ => destruct m end; simpl; [|done].
  match goal with |- (?m ≫= _) = _ → _ => destruct m as [[]|] eqn:Hc end; simpl; [|done].
  intros [= <- _]. destruct (load_ok _ _ _ _ Hl Ho) as [Hf Ht].
  pose proof (find_hunt_id _ _ _ Hf) as Hid.
  assert (h0 ∈ hd_hunts db) as Hin. { apply List.find_some in Hf as [? _]. by apply list_elem_of_In. }
  split; [split|].
  - intros h' [(h1 & _ & _ & ->)|[Hh' _]]%elem_update_hunt; [|by left]. right. split; [done|by apply gate_ok].
  - intros h1 Hh1. destruct (decide (hunt_id h1 = hid)) as [He|Hne].
    + right. replace h1 with h0; [done|]. eapply (NoDup_key_inj hunt_id); [exact Hnd|done|done|congruence].
    + left. simpl. apply list_elem_of_fmap. exists h1. apply Z.eqb_neq in Hne. by rewrite Hne.
  - rewrite !Forall_forall. intros Hall h' [(h1 & _ & _ & ->)|[Hh' _]]%elem_update_hunt; [|by apply Hall].
    intros cr Hcr Hne. simpl in Hcr. destruct (shu_schedule_cron p) as [c|]; simpl in *.
    + subst c. by eapply check_cron_ok.
    + by apply (Hall h0 Hin).
Qed.

Lemma delete_touches E hid actor db db' :
  NoDup (map hunt_id (hd_hunts db)) → delete_saved E hid actor db = Ok db' →
  touches actor db db' ∧ (Forall schedule_ok (hd_hunts db) → Forall schedule_ok (hd_hunts db')).
Proof.
  intros Hnd. unfold delete_saved. destruct (require_analyst actor) as [[]|]; simpl; [|done].
  destruct (load_or_404 db hid actor) as [h0|] eqn:Hl; simpl; [|done].
  destruct (assert_owner_or_admin actor h0) as [[]|] eqn:Ho; simpl; [|done].
  intros [= <-]. destruct (load_ok _ _ _ _ Hl Ho) as [Hf Ht]. pose proof (find_hunt_id _ _ _ Hf) as Hid.
  assert (h0 ∈ hd_hunts db) as Hin. { apply List.find_some in Hf as [? _]. by apply list_elem_of_In. }
  simpl. split; [split|].
  - intros h' Hh'. apply elem_of_filterb in Hh' as [? _]. by left.
  - intros h1 Hh1. destruct (decide (hunt_id h1 = hid)) as [He|Hne].
    + right. replace h1 with h0; [done|]. eapply (NoDup_key_inj hunt_id); [exact Hnd|done|done|congruence].
    + left. apply elem_of_filterb. split; [done|]. by apply negb_true_iff, Z.eqb_neq.
  - rewrite !Forall_forall. intros Hall h' Hh'. apply elem_of_filterb in Hh' as [? _]. by apply Hall.
Qed.

(** The routes on saved hunts keep their gates: a call writes or removes only
    hunts of the actor's tenant, and only the actor's own unless they are an
    administrator; a hunt it writes neither has a schedule nor alerts unless the
    actor is an administrator; and every schedule it stores is one the scheduler's
    matcher accepts at every time, so none is skipped later as malformed. *)
Theorem hunt_routes_gated E S actor c db db' :
  NoDup (map hunt_id (hd_hunts db)) → hunt_route E S actor c db = Ok db' →
  touches actor db db' ∧ (Forall schedule_ok (hd_hunts db) → Forall schedule_ok (hd_hunts db')).
Proof.
  intros Hnd. destruct c as [p|hid p|hid]; simpl.
  - destruct (create_saved E S p actor db) as [[db1 h]|] eqn:Hc; simpl; [|done]. intros [= <-].
    by eapply create_touches.
  - destruct (update_saved E S hid p actor db) as [[db1 h]|] eqn:Hc; simpl; [|done]. intros [= <-].
    by eapply update_touches.
  - by apply delete_touches.
Qed.

Definition demo_analyst : Actor := mkActor 2 ANALYST "user" None [] 1 false.
(** Their own hunt, once an administrator has scheduled it: they may switch both
    side effects off, not keep one. *)
Definition switch_off : SavedHuntUpdate := mkHuntUpdate None None None None (Some None) (Some false) None None None.
Definition keep_cron : SavedHuntUpdate := mkHuntUpdate None None None None None (Some false) None None None.
Definition switched_off : hunt_db :=
  match hunt_route demo_hunt_env no_sigma demo_analyst (UpdateSaved 50 switch_off) (demo_hunt_db [7]) with
  | Ok db => db | Err _ => demo_hunt_db []
  end.

Lemma hunt_routes_gated_witness :
  hunt_route demo_hunt_env no_sigma demo_analyst (UpdateSaved 50 keep_cron) (demo_hunt_db [7]) =
    Err (HTTPException 403) ∧
  hunt_route demo_hunt_env no_sigma demo_analyst (UpdateSaved 50 switch_off) (demo_hunt_db [7]) = Ok switched_off ∧
  map hunt_schedule_cron (hd_hunts switched_off) = [None] ∧
  touches demo_analyst (demo_hunt_db [7]) switched_off.
Proof.
  split; [vm_compute; reflexivity|]. split; [vm_compute; reflexivity|]. split; [vm_compute; reflexivity|].
  apply (hunt_routes_gated demo_hunt_env no_sigma demo_analyst (UpdateSaved 50 switch_off)
           (demo_hunt_db [7]) switched_off); [apply NoDup_singleton|vm_compute; reflexivity].
Defined.
