(* ===== verification/SeqWorker.v ===== *)
(** * The sequence worker: from telemetry to alerts

    workers/sequence_detector.py, api/sequence_rules.py and
    models/sequence_rule.py.  The evaluator is that of SeqEval, the detection
    tables those of Response, and the probe for open duplicates that of Dedup;
    [yaml.safe_load] is an argument.

    An object of the ORM writes back only while the session that loaded it is
    open.  The one-pass helpers keep one session; the long-lived worker reads its
    rules in a session it closes, so the objects it caches are detached: what it
    assigns to them stays in memory until the next refresh replaces them. *)

From Stdlib Require Import Ascii String SpecFloat.
From S2P Require Import Prelude PyStr PyVal PyJson PyTime Crypto PyText PyJsonRead Models SeqExpr SeqRule SeqEval.
From S2P Require Import AuditChain Scoping Jobs Fleet Dedup Response Detector.
Local Open Scope string_scope.
Local Open Scope list_scope.
Local Open Scope Z_scope.

(** ** Tables *)

Record SequenceRule := mkSequenceRule {
  sr_id : uuid;
  sr_tenant_id : uuid;
  sr_name : str;
  sr_description : option str;
  sr_yaml_body : str;
  sr_window_s : Z;
  sr_enabled : bool;
  sr_severity : Severity;
  sr_mitre : option (list str);
  sr_hit_count : Z;
  sr_last_hit_at : option datetime;
  sr_created_by : option uuid;
  sr_managed_rule_id : option uuid
}.

Record seq_db := mkSeqDb { sq_detect : detect_db; sq_rules : list SequenceRule }.

Definition set_managed (r : uuid) (s : SequenceRule) : SequenceRule :=
  mkSequenceRule (sr_id s) (sr_tenant_id s) (sr_name s) (sr_description s) (sr_yaml_body s) (sr_window_s s)
    (sr_enabled s) (sr_severity s) (sr_mitre s) (sr_hit_count s) (sr_last_hit_at s) (sr_created_by s) (Some r).

(** [srule.hit_count = (srule.hit_count or 0) + 1; srule.last_hit_at = ts] *)
Definition count_hit (ts : datetime) (s : SequenceRule) : SequenceRule :=
  mkSequenceRule (sr_id s) (sr_tenant_id s) (sr_name s) (sr_description s) (sr_yaml_body s) (sr_window_s s)
    (sr_enabled s) (sr_severity s) (sr_mitre s) (sr_hit_count s + 1) (Some ts) (sr_created_by s)
    (sr_managed_rule_id s).

(** The compiled rules by [str(srule.id)]: the object and its parsed body. *)
Abbreviation compiled := (list (str * (SequenceRule * ParsedSequence))) (only parsing).

(** The tables inside a transaction, and the cached objects. *)
Record world := mkWorld { w_db : seq_db; w_compiled : compiled }.

Definition set_detect (d : detect_db) (w : world) : world :=
  mkWorld (mkSeqDb d (sq_rules (w_db w))) (w_compiled w).
Definition w_detect (w : world) : detect_db := sq_detect (w_db w).

Definition set_rules (rs : list Rule) (db : detect_db) : detect_db :=
  mkDetectDb (dd_job db) rs (dd_groups db) (dd_iocs db) (dd_feeds db) (dd_alerts db) (dd_history db)
    (dd_published db).

(** An assignment to the object cached under a key.  It reaches the row when the
    object is attached to the session. *)
Definition assign (attached : bool) (key : str) (f : SequenceRule → SequenceRule) (w : world) : world :=
  match dict_get key (w_compiled w) with
  | None => w
  | Some (s, parsed) =>
      mkWorld
        (if attached
         then mkSeqDb (sq_detect (w_db w))
                (map (λ r, if sr_id r =? sr_id s then f r else r) (sq_rules (w_db w)))
         else w_db w)
        (dict_set key (f s, parsed) (w_compiled w))
  end.

(** ** Compiling the rules *)

Definition resolve_severity (label : pyval) (fallback : Severity) : Severity :=
  match label with
  | PNone => fallback
  | _ => default fallback (Severity_of (lower (py_str label)))
  end.

Section worker.
Context (safe_load : str → yaml_result).

Definition parse_rule (body : str) (window : Z) : py ParsedSequence :=
  parse_yaml safe_load None body (Some window).

Fixpoint compile_rules (rules : list SequenceRule) (acc : compiled) : py compiled :=
  match rules with
  | [] => Ok acc
  | srule :: rules =>
      if negb (sr_enabled srule) then compile_rules rules acc
      else
        match parse_rule (sr_yaml_body srule) (sr_window_s srule) with
        | Ok parsed => compile_rules rules (dict_set (uuid_str (sr_id srule)) (srule, parsed) acc)
        | Err SequenceParseError => compile_rules rules acc
        | Err e => Err e
        end
  end.

(** [select(SequenceRule).where(SequenceRule.enabled.is_(True))], compiled. *)
Definition load_rules (db : seq_db) : py compiled :=
  compile_rules (List.filter sr_enabled (sq_rules db)) [].

(** ** Emission *)

Section emission.
Context (E : env) (window_seconds : Z) (attached : bool).

Definition managed_rule (id : uuid) (s : SequenceRule) : Rule :=
  mkRule id DEFAULT_TENANT_ID SIGMA ("sequence:" +:+ sr_name s)
    (Some ("Auto-managed: backs the sequence rule '" +:+ sr_name s +:+
           "'. Edit the sequence rule in /sequence-rules; this Rule row exists so emitted alerts have a valid rule_id FK target."))
    (sr_severity s) ALERT true None None 1 (nonempty_list (sr_mitre s)) false.

Definition get_rule (id : uuid) (db : detect_db) : option Rule :=
  List.find (λ r, rule_id r =? id) (dd_rules db).

(** The rule behind the alerts.  The name column has 255 characters. *)
Definition ensure_managed_rule (key : str) (s : SequenceRule) (w : world) : world * py Rule :=
  match (sr_managed_rule_id s ≫= λ id, get_rule id (w_detect w)) with
  | Some rule => (w, Ok rule)
  | None =>
      let rule := managed_rule (env_uuid4 E (length (dd_rules (w_detect w)))) s in
      if (255 <? String.length (rule_name rule))%nat then (w, Err DataError)
      else
        (assign attached key (set_managed (rule_id rule))
           (set_detect (set_rules (dd_rules (w_detect w) ++ [rule]) (w_detect w)) w), Ok rule)
  end.

Definition sequence_alert (id tenant hid rid : uuid) (s : SequenceRule) (parsed : ParsedSequence)
    (m : SequenceMatch) (dkey : str) : Alert :=
  let summary := if nonempty (e_message (emit parsed)) then e_message (emit parsed)
                 else "sequence match: " +:+ sr_name s in
  mkAlert id tenant (Some hid) rid (resolve_severity (e_severity (emit parsed)) (sr_severity s)) ALERT NEW
    (take_str 512 summary)
    (Some [("engine", PStr "sequence"); ("rule_name", PStr (sr_name s));
           ("sequence_rule_id", PStr (uuid_str (sr_id s)));
           ("event_ids", PList (map PStr (m_event_ids m))); ("window_s", PInt (sr_window_s s))])
    None None (nonempty_list (sr_mitre s)) (env_now E) None None None (Some dkey) 1 (env_now E).

(** The identifier of the alert when a row was inserted. *)
Definition emit_alert (key : str) (s : SequenceRule) (parsed : ParsedSequence) (m : SequenceMatch)
    (ecs : dict) (w : world) : world * py (option uuid) :=
  match uuid_of_str (m_host_id m) with
  | None => (w, Ok None)
  | Some hid =>
      match (t ← py_get "id" (sub "tenant" ecs); resolve_alert_tenant_id (w_detect w) hid t) with
      | Err e => (w, Err e)
      | Ok None => (w, Ok None)
      | Ok (Some tenant) =>
          let '(w, rule) := ensure_managed_rule key s w in
          match (rule ← rule; k ← dedup_key_for (rule_id rule) (Some hid) ecs; Ok (rule, k)) with
          | Err e => (w, Err e)
          | Ok (rule, dkey) =>
              let db := w_detect w in
              let id := env_uuid4 E (length (dd_alerts db)) in
              let '(alerts, (aid, created)) :=
                upsert_alert dkey window_seconds (env_now E)
                  (sequence_alert id tenant hid (rule_id rule) s parsed m dkey) (dd_alerts db) in
              let history :=
                if created
                then [mkHistory id DEFAULT_TENANT_ID None NEW None (Some "auto-generated by sequence detector")
                        (env_now E)]
                else [] in
              (assign attached key (count_hit (env_now E))
                 (set_detect (set_alerts alerts (dd_history db ++ history) db) w),
               Ok (if created then Some aid else None))
          end
      end
  end.

(** The loop over the matches of one event. *)
Fixpoint emit_matches (ms : list SequenceMatch) (ecs : dict) (w : world) (emitted : list uuid) :
    world * py (list uuid) :=
  match ms with
  | [] => (w, Ok emitted)
  | m :: ms =>
      match dict_get (m_rule_id m) (w_compiled w) with
      | None => emit_matches ms ecs w emitted
      | Some (s, parsed) =>
          let '(w, r) := emit_alert (m_rule_id m) s parsed m ecs w in
          match r with
          | Err e => (w, Err e)
          | Ok alert => emit_matches ms ecs w (emitted ++ option_list alert)
          end
      end
  end.

(** What is assigned before an exception stays assigned: the evaluator and the
    objects are returned with it. *)
Definition process_event (ev : evaluator) (ecs : dict) (now_ts : float) (w : world) :
    evaluator * world * py (list uuid) :=
  let '(ev, ms) := feed_event ev ecs now_ts in
  match ms with
  | Err e => (ev, w, Err e)
  | Ok ms => let '(w, r) := emit_matches ms ecs w [] in (ev, w, r)
  end.
End emission.

(** ** One pass over given events *)

(** A reading of the two clocks: [datetime.now(UTC)] and [time.time()]. *)
Record instant := mkInstant { at_utc : datetime; at_ts : float }.
Definition env_at (E : env) (t : instant) : env := mkEnv (env_uuid4 E) (at_utc t) (env_audit_key E).

Fixpoint process_events (E : env) (window_seconds : Z) (events : list (instant * dict)) (ev : evaluator)
    (w : world) (emitted : nat) : evaluator * py (world * nat) :=
  match events with
  | [] => (ev, Ok (w, emitted))
  | (t, ecs) :: events =>
      let '(ev, w, r) := process_event (env_at E t) window_seconds true ev ecs (at_ts t) w in
      match r with
      | Err e => (ev, Err e)
      | Ok alerts => process_events E window_seconds events ev w (emitted + length alerts)
      end
  end.

Definition register_all (c : compiled) (ev : evaluator) : evaluator :=
  fold_left (λ ev r, register_rule r.1 r.2.2 ev) c ev.

(** [_run_once]: one session, committed at the end; an exception leaves the
    tables as they were. *)
Definition run_once (E : env) (window_seconds : Z) (events : list (instant * dict)) (ev : evaluator)
    (db : seq_db) : evaluator * py (seq_db * nat) :=
  match load_rules db with
  | Err e => (ev, Err e)
  | Ok c =>
      let '(ev, r) := process_events E window_seconds events (register_all c ev) (mkWorld db c) 0 in
      (ev, '(w, n) ← r; Ok (w_db w, n))
  end.

(** ** The long-lived worker *)

Record SequenceDetector := mkSequenceDetector {
  sd_evaluator : evaluator;
  sd_compiled : compiled;
  sd_last_refresh_ts : float;
  sd_gc_counter : nat
}.

Definition REFRESH_INTERVAL_S : float := float_of_Z 30.
Definition init_worker : SequenceDetector := mkSequenceDetector init_evaluator [] (float_of_Z 0) 0.

Definition forget_missing (c : compiled) (ev : evaluator) : evaluator :=
  fold_left (λ ev rid, match dict_get rid c with None => forget_rule rid ev | Some _ => ev end)
    (map fst (rules ev)) ev.

Definition refresh_rules (force : bool) (now : float) (db : seq_db) (st : SequenceDetector) :
    py SequenceDetector :=
  if negb force && flt (fsub now (sd_last_refresh_ts st)) REFRESH_INTERVAL_S then Ok st
  else
    c ← load_rules db;
    Ok (mkSequenceDetector (register_all c (forget_missing c (sd_evaluator st))) c now (sd_gc_counter st)).

(** An exception the handler swallows; what lies outside the model it does not. *)
Definition swallowed (e : pyexc) : bool := negb (bool_decide (e = Unmodelled ∨ e = OutOfFuel)).

(** One message in a session of its own, committed, or rolled back when the
    processing raises. *)
Definition process_message (E : env) (window_seconds : Z) (t : instant) (value : option bytes)
    (db : seq_db) (st : SequenceDetector) : py (seq_db * SequenceDetector) :=
  match value with
  | None => Ok (db, st)
  | Some b =>
      match json_loads_bytes b with
      | Err e => if swallowed e then Ok (db, st) else Err e
      | Ok (PDict ecs) =>
          let '(ev, w, r) :=
            process_event (env_at E t) window_seconds false (sd_evaluator st) ecs (at_ts t)
              (mkWorld db (sd_compiled st)) in
          let st := mkSequenceDetector ev (w_compiled w) (sd_last_refresh_ts st) (sd_gc_counter st) in
          match r with
          | Ok _ => Ok (w_db w, st)
          | Err e => if swallowed e then Ok (db, st) else Err e
          end
      | Ok _ => Ok (db, st)
      end
  end.

(** One round of [run]; [None] is a poll that timed out. *)
Definition run_step (E : env) (window_seconds : Z) (t : instant) (msg : option (option bytes))
    (db : seq_db) (st : SequenceDetector) : py (seq_db * SequenceDetector) :=
  match msg with
  | None => st ← refresh_rules false (at_ts t) db st; Ok (db, st)
  | Some value =>
      '(db, st) ← process_message E window_seconds t value db st;
      let counter := S (sd_gc_counter st) in
      let st :=
        if (256 <=? counter)%nat
        then mkSequenceDetector (gc (at_ts t) (sd_evaluator st)).1 (sd_compiled st) (sd_last_refresh_ts st) 0
        else mkSequenceDetector (sd_evaluator st) (sd_compiled st) (sd_last_refresh_ts st) counter in
      st ← refresh_rules false (at_ts t) db st;
      Ok (db, st)
  end.

Fixpoint run_steps (E : env) (window_seconds : Z) (msgs : list (instant * option (option bytes)))
    (db : seq_db) (st : SequenceDetector) : py (seq_db * SequenceDetector) :=
  match msgs with
  | [] => Ok (db, st)
  | (t, msg) :: msgs =>
      '(db, st) ← run_step E window_seconds t msg db st; run_steps E window_seconds msgs db st
  end.

(** ** Routes *)

Definition seq_audited (E : env) (actor : Actor) (action rid : str) (payload : dict) (db : seq_db) : seq_db :=
  let j := dd_job (sq_detect db) in
  mkSeqDb
    (set_job_db
       (mkJobDb (jd_scope j) (jd_policies j) (jd_jobs j) (jd_runs j) (jd_commands j)
          (record (env_audit_key E) (Some actor) action (Some "sequence_rule") (Some rid) (Some payload) None None
             (env_now E) (env_uuid4 E (length (log (jd_audit j)))) (jd_audit j))) (sq_detect db))
    (sq_rules db).

Definition set_sequence_rules (rs : list SequenceRule) (db : seq_db) : seq_db := mkSeqDb (sq_detect db) rs.

(** [_validate_or_400]: another exception of the parser is not a 400. *)
Definition validate_or_400 (body : str) (window : Z) : py unit :=
  match parse_rule body window with
  | Ok _ => Ok tt
  | Err SequenceParseError => Err (HTTPException 400)
  | Err e => Err e
  end.

Definition load_in_tenant (db : seq_db) (id : uuid) (actor : Actor) : py SequenceRule :=
  match List.find (λ s, sr_id s =? id) (sq_rules db) with
  | Some s => if sr_tenant_id s =? actor_tenant_id actor then Ok s else Err (HTTPException 404)
  | None => Err (HTTPException 404)
  end.

Definition get_sequence_rule (id : uuid) (actor : Actor) (db : seq_db) : py SequenceRule :=
  load_in_tenant db id actor.

Definition window_ok (w : Z) : bool := (1 <=? w) && (w <=? 3600).
Definition body_ok (b : str) : bool := nonempty b.

(** The probe of the two routes, in the caller's tenant. *)
Definition seq_name_taken (db : seq_db) (tenant : uuid) (name : str) : bool :=
  existsb (λ s, String.eqb (sr_name s) name && (sr_tenant_id s =? tenant)) (sq_rules db).
(** The UNIQUE constraint of the name column, over all tenants. *)
Definition seq_names_unique (rs : list SequenceRule) : bool := bool_decide (NoDup (map sr_name rs)).

Definition create_sequence_rule (E : env) (name : str) (description : option str) (yaml_body : str)
    (window_s : Z) (enabled : bool) (severity : Severity) (mitre : option (list str)) (actor : Actor)
    (db : seq_db) : py (seq_db * SequenceRule) :=
  if negb (is_admin actor) then Err (HTTPException 403)
  else if negb (text_ok 1 255 name && body_ok yaml_body && window_ok window_s) then Err (HTTPException 422)
  else if seq_name_taken db (actor_tenant_id actor) name then Err (HTTPException 400)
  else
    _ ← validate_or_400 yaml_body window_s;
    let s := mkSequenceRule (env_uuid4 E (length (sq_rules db))) (actor_tenant_id actor) name description
               yaml_body window_s enabled severity mitre 0 None (Some (actor_user_id actor)) None in
    let rs := sq_rules db ++ [s] in
    if negb (seq_names_unique rs) then Err IntegrityError
    else Ok (seq_audited E actor "sequence_rule.create" (uuid_str (sr_id s))
               [("name", PStr name); ("window_s", PInt window_s); ("enabled", PBool enabled);
                ("severity", PStr (Severity_value severity))]
               (set_sequence_rules rs db), s).

(** SequenceRuleUpdate: a field left out is [None]. *)
Record SequenceRuleUpdate := mkUpdate {
  up_name : option str;
  up_description : option str;
  up_yaml_body : option str;
  up_window_s : option Z;
  up_enabled : option bool;
  up_severity : option Severity;
  up_mitre : option (list str)
}.

Definition update_ok (u : SequenceRuleUpdate) : bool :=
  opt_ok (text_ok 1 255) (up_name u) && opt_ok body_ok (up_yaml_body u) && opt_ok window_ok (up_window_s u).

(** [payload.model_dump(exclude_none=True, mode="json")] *)
Definition update_dump (u : SequenceRuleUpdate) : dict :=
  let field {A} (k : str) (v : A → pyval) (o : option A) : dict :=
    match o with Some x => [(k, v x)] | None => [] end in
  field "name" PStr (up_name u) ++ field "description" PStr (up_description u) ++
  field "yaml_body" PStr (up_yaml_body u) ++ field "window_s" PInt (up_window_s u) ++
  field "enabled" PBool (up_enabled u) ++
  field "severity" (λ s, PStr (Severity_value s)) (up_severity u) ++
  field "mitre_techniques" (λ l, PList (map PStr l)) (up_mitre u).

Definition updated (u : SequenceRuleUpdate) (s : SequenceRule) : SequenceRule :=
  mkSequenceRule (sr_id s) (sr_tenant_id s) (default (sr_name s) (up_name u))
    (match up_description u with Some d => Some d | None => sr_description s end)
    (default (sr_yaml_body s) (up_yaml_body u)) (default (sr_window_s s) (up_window_s u))
    (default (sr_enabled s) (up_enabled u)) (default (sr_severity s) (up_severity u))
    (match up_mitre u with Some l => Some l | None => sr_mitre s end)
    (sr_hit_count s) (sr_last_hit_at s) (sr_created_by s) (sr_managed_rule_id s).

Definition update_sequence_rule (E : env) (id : uuid) (u : SequenceRuleUpdate) (actor : Actor)
    (db : seq_db) : py seq_db :=
  if negb (is_admin actor) then Err (HTTPException 403)
  else if negb (update_ok u) then Err (HTTPException 422)
  else
    s ← load_in_tenant db id actor;
    if match up_name u with
       | Some n => negb (String.eqb n (sr_name s)) && seq_name_taken db (actor_tenant_id actor) n
       | None => false
       end
    then Err (HTTPException 400)
    else
      _ ← (match up_yaml_body u with
           | Some body => validate_or_400 body (default (sr_window_s s) (up_window_s u))
           | None => Ok tt
           end);
      let rs := map (λ x, if sr_id x =? id then updated u s else x) (sq_rules db) in
      if negb (seq_names_unique rs) then Err IntegrityError
      else Ok (seq_audited E actor "sequence_rule.update" (uuid_str id) (update_dump u) (set_sequence_rules rs db)).

Definition delete_sequence_rule (E : env) (id : uuid) (actor : Actor) (db : seq_db) : py seq_db :=
  if negb (is_admin actor) then Err (HTTPException 403)
  else
    s ← load_in_tenant db id actor;
    Ok (seq_audited E actor "sequence_rule.delete" (uuid_str id) [("name", PStr (sr_name s))]
          (set_sequence_rules (List.filter (λ x, negb (sr_id x =? id)) (sq_rules db)) db)).
End worker.

(** ** What a worker writes *)

Section writes.
Context (attached : bool).

(** The columns that only the routes change. *)
Definition settings (s : SequenceRule) : uuid * uuid * str * str * Z * bool * Severity :=
  (sr_id s, sr_tenant_id s, sr_name s, sr_yaml_body s, sr_window_s s, sr_enabled s, sr_severity s).

(** Everything the emission does is a write to the detection tables or an
    assignment that keeps the settings of a cached object. *)
Inductive writes : world → world → Prop :=
| writes_refl w : writes w w
| writes_detect d w w' : dd_job d = dd_job (w_detect w') → writes w w' → writes w (set_detect d w')
| writes_assign key f w w' :
    (∀ s, settings (f s) = settings s) → writes w w' → writes w (assign attached key f w').

Lemma writes_trans w1 w2 w3 : writes w1 w2 → writes w2 w3 → writes w1 w3.
Proof. intros H12 H23. induction H23; eauto using writes. Qed.

Context (E : env) (window_seconds : Z).

Lemma ensure_writes key s w w' r :
  ensure_managed_rule E attached key s w = (w', r) → writes w w'.
Proof.
  unfold ensure_managed_rule. destruct (_ ≫= _); [intros [= <- _]; constructor|].
  destruct (_ <? _)%nat; intros [= <- _]; eauto using writes.
Qed.

Lemma emit_writes key s parsed m ecs w w' r :
  emit_alert E window_seconds attached key s parsed m ecs w = (w', r) → writes w w'.
Proof.
  unfold emit_alert. destruct (uuid_of_str _) as [hid|]; [|intros [= <- _]; constructor].
  destruct (py_get _ _ ≫= _) as [[tenant|]|]; [|intros [= <- _]; constructor..].
  destruct (ensure_managed_rule _ _ _ _ _) as [w1 rule] eqn:He. apply ensure_writes in He.
  destruct (rule ≫= _) as [[rule' dkey]|]; [|by intros [= <- _]].
  destruct (upsert_alert _ _ _ _ _) as [alerts [aid created]]. intros [= <- _].
  apply writes_assign; [done|]. by apply writes_detect.
Qed.

Lemma emit_matches_writes ms ecs w out w' r :
  emit_matches E window_seconds attached ms ecs w out = (w', r) → writes w w'.
Proof.
  revert w out. induction ms as [|m ms IH]; intros w out H; simpl in H; [injection H as <- _; constructor|].
  destruct (dict_get _ _) as [[s parsed]|]; [|by eapply IH].
  destruct (emit_alert _ _ _ _ _ _ _ _ _) as [w1 r1] eqn:He. apply emit_writes in He.
  destruct r1; [|by injection H as <- _]. eapply writes_trans; [done|by eapply IH].
Qed.

Lemma process_event_writes ev ecs t w ev' w' r :
  process_event E window_seconds attached ev ecs t w = (ev', w', r) → writes w w'.
Proof.
  unfold process_event. destruct (feed_event ev ecs t) as [ev1 [ms|]]; [|intros [= _ <- _]; constructor].
  destruct (emit_matches _ _ _ _ _ _ _) as [w1 r1] eqn:He. intros [= _ <- _]. by eapply emit_matches_writes.
Qed.

(** The parsed bodies stay, and so do the settings of the rows and of the
    objects; jobs, hosts and commands are not touched. *)
Lemma writes_compiled w w' k :
  writes w w' →
  (λ x, (settings x.1, x.2)) <$> dict_get k (w_compiled w') = (λ x, (settings x.1, x.2)) <$> dict_get k (w_compiled w).
Proof.
  induction 1 as [| |key f w w' Hf _ IH]; [done..|]. rewrite <- IH. unfold assign.
  destruct (dict_get key (w_compiled w')) as [[s p]|] eqn:Hk; [|done]. simpl. rewrite dict_get_set.
  destruct (String.eqb_spec k key) as [->|]; [|done]. rewrite Hk. simpl. by rewrite Hf.
Qed.

Lemma writes_rows w w' :
  writes w w' → map settings (sq_rules (w_db w')) = map settings (sq_rules (w_db w)).
Proof.
  induction 1 as [| |key f w w' Hf _ IH]; [done..|]. rewrite <- IH. unfold assign.
  destruct (dict_get _ _) as [[s p]|]; [|done]. destruct attached; [|done]. simpl.
  rewrite map_map. apply map_ext. intros r. by destruct (_ =? _).
Qed.

Lemma writes_jobs w w' : writes w w' → dd_job (w_detect w') = dd_job (w_detect w).
Proof.
  induction 1 as [|d w w' Hd _ IH|key f w w' _ _ IH]; [done|by rewrite <- IH|]. rewrite <- IH. unfold assign, w_detect.
  destruct (dict_get _ _) as [[s p]|]; [|done]. by destruct attached.
Qed.
End writes.

Lemma writes_detached w w' : writes false w w' → sq_rules (w_db w') = sq_rules (w_db w).
Proof.
  induction 1 as [| |key f w w' _ _ IH]; [done..|]. rewrite <- IH. unfold assign.
  by destruct (dict_get _ _) as [[s p]|].
Qed.
#[export] Hint Resolve process_event_writes : vigil.

Section table.
Context (safe_load : str → yaml_result) (E : env) (window_seconds : Z).


Lemma process_message_rows t value db st db' st' :
  process_message E window_seconds t value db st = Ok (db', st') → sq_rules db' = sq_rules db.
Proof.
  unfold process_message. destruct value as [b|]; [|by intros [= <- _]].
  destruct (json_loads_bytes b) as [v|e].
  - destruct v; try by intros [= <- _].
    destruct (process_event _ _ _ _ _ _ _) as [[ev w] r] eqn:Hp. apply process_event_writes, writes_detached in Hp.
    destruct r as [|e]; [by intros [= <- _]|]. by destruct (swallowed e); intros [= <- _].
  - by destruct (swallowed e); intros [= <- _].
Qed.
End table.

(** ** Stored rules compile *)

Section stored.
Context (safe_load : str → yaml_result).

Lemma window_float w : window_ok w = true → is_ok (py_float_of_int w) = true.
Proof.
  unfold window_ok. intros [H1 H2]%andb_true_iff. apply Z.leb_le in H1, H2.
  assert (forallb (λ n, is_ok (py_float_of_int (Z.of_nat n))) (List.seq 1 3600) = true) as H by (vm_compute; reflexivity).
  rewrite forallb_forall in H. rewrite <- (Z2Nat.id w) by lia. apply H, in_seq. lia.
Qed.

Lemma parse_leg_fallback fb fb' raw : is_ok (parse_leg fb raw) = is_ok (parse_leg fb' raw).
Proof.
  destruct raw; try done. simpl. destruct (known_kind _) as [known|]; [|done]. simpl.
  destruct known; [|done]. simpl. destruct (get_none "within" d); try done; simpl; by destruct (compile_predicate _).
Qed.

Lemma parse_legs_fallback fb fb' raws : is_ok (parse_legs fb raws) = is_ok (parse_legs fb' raws).
Proof.
  induction raws as [|r raws IH]; [done|]. simpl. pose proof (parse_leg_fallback fb fb' r) as H.
  destruct (parse_leg fb r), (parse_leg fb' r); simpl in *; try done.
  destruct (parse_legs fb raws), (parse_legs fb' raws); done.
Qed.

(** Whether a body parses does not depend on the window of its row. *)
Lemma parse_rule_window body w w' :
  window_ok w = true → window_ok w' = true → is_ok (parse_rule safe_load body w) = is_ok (parse_rule safe_load body w').
Proof.
  intros Hw%window_float Hw'%window_float. unfold parse_rule, parse_yaml.
  destruct (_ || _); [done|]. destruct (safe_load body) as [v| |e]; [|done..]. destruct v; try done.
  destruct (get_none "trigger" d) as [| | | | | |traw]; try done. destruct (parse_trigger traw) as [trig|]; [|done].
  cbn [mbind res_bind].
  set (legs_raw := match get_none "followed_by" d with PNone => _ | _ => _ end).
  destruct legs_raw as [[|l ls]|]; [done| |done]. cbn [mbind res_bind].
  destruct (py_float_of_int w) as [fb|], (py_float_of_int w') as [fb'|]; try done. cbn [mbind res_bind].
  pose proof (parse_legs_fallback fb fb' (l :: ls)) as H.
  destruct (parse_legs fb (l :: ls)), (parse_legs fb' (l :: ls)); try done. cbn [mbind res_bind].
  destruct (parse_emit d); [|done]. cbn [mbind res_bind].
  destruct (get_none "window_s" d); try done; cbn [mbind res_bind]; by destruct (py_int_of _).
Qed.

Definition parses (s : SequenceRule) : Prop :=
  window_ok (sr_window_s s) = true ∧ is_ok (parse_rule safe_load (sr_yaml_body s) (sr_window_s s)) = true.

(** An entry of the compiled rules, and the row it was compiled from. *)
Definition entry_of (rows : list SequenceRule) (key : str) (s : SequenceRule) (p : ParsedSequence) : Prop :=
  s ∈ rows ∧ sr_enabled s = true ∧ key = uuid_str (sr_id s) ∧ parse_rule safe_load (sr_yaml_body s) (sr_window_s s) = Ok p.

Lemma compile_entries rows acc c key s p :
  compile_rules safe_load rows acc = Ok c → dict_get key c = Some (s, p) →
  dict_get key acc = Some (s, p) ∨ entry_of rows key s p.
Proof.
  revert acc. induction rows as [|x rows IH]; intros acc H Hk; simpl in H; [left; by injection H as ->|].
  destruct (sr_enabled x) eqn:Hx; simpl in H.
  - destruct (parse_rule safe_load _ _) as [q|e] eqn:Hq.
    + destruct (IH _ H Hk) as [Hin|(? & ?)]; [|right; split; [by right|done]].
      rewrite dict_get_set in Hin. destruct (String.eqb_spec key (uuid_str (sr_id x))) as [->|]; [|by left].
      injection Hin as <- <-. right. split; [by left|done].
    + destruct e; try done. destruct (IH _ H Hk) as [|(? & ?)]; [by left|right; split; [by right|done]].
  - destruct (IH _ H Hk) as [|(? & ?)]; [by left|right; split; [by right|done]].
Qed.

Lemma compile_total rows acc :
  Forall parses rows →
  ∃ c, compile_rules safe_load rows acc = Ok c ∧ (∀ k, is_Some (dict_get k acc) → is_Some (dict_get k c)) ∧
    ∀ s, s ∈ rows → sr_enabled s = true → is_Some (dict_get (uuid_str (sr_id s)) c).
Proof.
  intros H. revert acc. induction H as [|x rows [_ Hx] _ IH]; intros acc; simpl.
  - exists acc. split_and!; [done..|]. by intros s ?%elem_of_nil.
  - destruct (sr_enabled x) eqn:Hen; simpl.
    + destruct (parse_rule safe_load _ _) as [q|]; [|done].
      destruct (IH (dict_set (uuid_str (sr_id x)) (x, q) acc)) as (c & -> & Hacc & Hrows). exists c.
      split_and!; [done| |].
      * intros k Hk. apply Hacc. rewrite dict_get_set. by destruct (String.eqb _ _).
      * intros s [-> |Hs]%elem_of_cons Hse; [|by apply Hrows]. apply Hacc. by rewrite dict_get_set_eq.
    + destruct (IH acc) as (c & -> & Hacc & Hrows). exists c. split_and!; [done..|].
      intros s [-> |Hs]%elem_of_cons Hse; [by rewrite Hse in Hen|by apply Hrows].
Qed.

Lemma parses_settings s s' : settings s' = settings s → parses s → parses s'.
Proof. unfold settings, parses. intros [= _ _ _ -> -> _ _]. done. Qed.

Lemma Forall_settings rows rows' :
  map settings rows' = map settings rows → Forall parses rows → Forall parses rows'.
Proof.
  revert rows'. induction rows as [|s rows IH]; intros [|s' rows'] H; try done. simpl in H.
  injection H as H1 H2 H3 H4 H5 H6 H7 Hm. intros [Hs Hr]%Forall_cons. constructor; [|by apply IH].
  apply (parses_settings s); [|done]. unfold settings. congruence.
Qed.

(** ** Who writes the table *)

Context (E : env) (window_seconds : Z).

Lemma process_events_rows events ev w n ev' w' n' :
  process_events E window_seconds events ev w n = (ev', Ok (w', n')) →
  map settings (sq_rules (w_db w')) = map settings (sq_rules (w_db w)).
Proof.
  revert ev w n. induction events as [|[t ecs] events IH]; intros ev w n H; simpl in H; [by injection H as _ <- _|].
  destruct (process_event _ _ _ _ _ _ _) as [[ev1 w1] r] eqn:Hp. apply process_event_writes, writes_rows in Hp.
  destruct r; [|done]. by rewrite (IH _ _ _ H).
Qed.

Lemma run_steps_rows msgs db st db' st' :
  run_steps safe_load E window_seconds msgs db st = Ok (db', st') → sq_rules db' = sq_rules db.
Proof.
  revert db st. induction msgs as [|[t msg] msgs IH]; intros db st H; simpl in H; [by injection H as <- _|].
  apply res_bind_ok in H as ([db1 st1] & H1 & H). rewrite (IH _ _ H). clear IH H.
  destruct msg as [value|]; simpl in H1.
  - apply res_bind_ok in H1 as ([db2 st2] & Hm & H1). apply res_bind_ok in H1 as (st3 & _ & H1).
    injection H1 as <- _. by eapply process_message_rows.
  - apply res_bind_ok in H1 as (st3 & _ & H1). by injection H1 as <- _.
Qed.

(** A request, a replay, rounds of the worker, or anything that leaves the
    sequence rules alone. *)
Inductive seq_step : seq_db → seq_db → Prop :=
| step_create name description body w enabled severity mitre actor db db' s :
    create_sequence_rule safe_load E name description body w enabled severity mitre actor db = Ok (db', s) →
    seq_step db db'
| step_update id u actor db db' : update_sequence_rule safe_load E id u actor db = Ok db' → seq_step db db'
| step_delete id actor db db' : delete_sequence_rule E id actor db = Ok db' → seq_step db db'
| step_replay events ev ev' n db db' :
    run_once safe_load E window_seconds events ev db = (ev', Ok (db', n)) → seq_step db db'
| step_worker msgs st st' db db' :
    run_steps safe_load E window_seconds msgs db st = Ok (db', st') → seq_step db db'
| step_other db db' : sq_rules db' = sq_rules db → seq_step db db'.

Lemma validate_parses body w : validate_or_400 safe_load body w = Ok tt → is_ok (parse_rule safe_load body w) = true.
Proof. unfold validate_or_400. destruct (parse_rule _ _ _) as [|[]]; done. Qed.

Lemma update_parses id u actor db db' :
  update_sequence_rule safe_load E id u actor db = Ok db' → Forall parses (sq_rules db) → Forall parses (sq_rules db').
Proof.
  unfold update_sequence_rule. destruct (negb _); [done|]. destruct (update_ok u) eqn:Hu; [|done]. simpl.
  intros H Hdb. apply res_bind_ok in H as (s & Hs & H). destruct (match up_name u with Some _ => _ | None => _ end); [done|].
  apply res_bind_ok in H as ([] & Hv & H). cbv zeta in H. destruct (negb (seq_names_unique _)); [done|]. injection H as <-. simpl.
  assert (parses s) as [Hw Hp].
  { unfold load_in_tenant in Hs. destruct (List.find _ _) as [x|] eqn:Hf; [|done].
    apply List.find_some in Hf as [Hin _]. destruct (_ =? _); [|done]. injection Hs as <-.
    rewrite Forall_forall in Hdb. by apply Hdb, list_elem_of_In. }
  unfold update_ok in Hu. rewrite !andb_true_iff in Hu. destruct Hu as [[_ _] Huw].
  assert (window_ok (default (sr_window_s s) (up_window_s u)) = true) as Hw' by (by destruct (up_window_s u)).
  apply Forall_map, (Forall_impl parses); [done|]. intros x Hx. destruct (_ =? _); [|done]. split; [done|]. simpl.
  destruct (up_yaml_body u) as [body|]; [by apply validate_parses in Hv|].
  simpl. by rewrite (parse_rule_window _ _ (sr_window_s s)).
Qed.

Lemma seq_step_parses db db' : seq_step db db' → Forall parses (sq_rules db) → Forall parses (sq_rules db').
Proof.
  destruct 1 as [name description body w enabled severity mitre actor db db' s H|id u actor db db' H|id actor db db' H
    |events ev ev' n db db' H|msgs st st' db db' H|db db' H]; intros Hdb.
  - unfold create_sequence_rule in H. destruct (negb _); [done|]. destruct (negb (_ && _)) eqn:Hok; [done|].
    destruct (seq_name_taken _ _ _); [done|]. apply res_bind_ok in H as ([] & Hv & H).
    cbv zeta in H. destruct (negb (seq_names_unique _)); [done|]. injection H as <- _. simpl. apply Forall_app. split; [done|].
    apply Forall_singleton. apply negb_false_iff in Hok. rewrite !andb_true_iff in Hok.
    split; [naive_solver|by apply validate_parses in Hv].
  - by eapply update_parses.
  - unfold delete_sequence_rule in H. destruct (negb _); [done|]. apply res_bind_ok in H as (s & _ & H).
    injection H as <-. simpl. apply Forall_forall. intros x [Hx _]%elem_of_filterb. rewrite Forall_forall in Hdb.
    by apply Hdb.
  - unfold run_once in H. destruct (load_rules _ _) as [c|]; [|done].
    destruct (process_events _ _ _ _ _ _) as [ev1 r] eqn:Hp. injection H as _ H.
    apply res_bind_ok in H as ([w' n'] & -> & H). injection H as <- _.
    apply process_events_rows in Hp. by eapply Forall_settings.
  - by rewrite (run_steps_rows _ _ _ _ _ H).
  - by rewrite H.
Qed.
End stored.

(** ** From sequences to alerts *)

Lemma upsert_cases key window now new alerts alerts' r :
  upsert_alert key window now new alerts = (alerts', r) →
  is_open new = true → al_dedup_key new = Some key → al_last_occurred_at new = now →
  (∀ a, a ∈ alerts → a ∈ alerts' ∨ bump_occurrence now a ∈ alerts') ∧
  ∃ a, a ∈ alerts' ∧ is_open a = true ∧ al_dedup_key a = Some key ∧ al_last_occurred_at a = now ∧
    ∀ a', a' ∈ alerts' → a' ∈ alerts ∨ al_id a' = al_id a.
Proof.
  unfold upsert_alert. intros H Hopen Hkey Hlast. destruct (find_open_dupe _ _ _ _) as [a|] eqn:Hf.
  - injection H as <- _. apply most_recent_elem, elem_of_filterb in Hf as [Hin Ho]. unfold open_dupe in Ho. breflect.
    destruct Ho as [[Hak _] Hop]. split.
    + intros b Hb. destruct (Z.eqb_spec (al_id b) (al_id a)) as [He|He]; [right|left];
        apply list_elem_of_fmap; exists b; split; try done;
        by rewrite ?He, ?Z.eqb_refl, ?(proj2 (Z.eqb_neq _ _) He).
    + exists (bump_occurrence now a). split_and!; [|done..|].
      * apply list_elem_of_fmap. exists a. by rewrite Z.eqb_refl.
      * intros b' (b & -> & Hb)%list_elem_of_fmap. destruct (Z.eqb_spec (al_id b) (al_id a)); [by right|by left].
  - injection H as <- _. split; [intros a Ha; left; apply elem_of_app; by left|].
    exists new. split_and!; [apply elem_of_app; right; by left|done..|].
    intros a' [Ha|Ha%list_elem_of_singleton]%elem_of_app; [by left|right; by subst].
Qed.

Section composition.
Context (E : env) (window_seconds : Z) (attached : bool) (hid tenant : uuid) (ecs : dict) (signal : pyval).
Context (Hsignal : dedup_signal ecs = Ok signal).

Definition alerts_of (w : world) : list Alert := dd_alerts (w_detect w).

(** The object cached under the key names an existing rule. *)
Definition settled (key : str) (r : uuid) (w : world) : Prop :=
  ∃ s p, dict_get key (w_compiled w) = Some (s, p) ∧ sr_managed_rule_id s = Some r ∧
    is_Some (get_rule r (w_detect w)).

(** An open alert of the rule cached under the key for this host and signal,
    last seen now. *)
Definition carries (w : world) (key : str) (a : Alert) : Prop :=
  a ∈ alerts_of w ∧ is_open a = true ∧ al_last_occurred_at a = env_now E ∧
  ∃ r dkey, settled key r w ∧ dedup_key_for r (Some hid) ecs = Ok dkey ∧ al_dedup_key a = Some dkey.

(** The host resolves to a tenant, and the name of a managed rule fits its column. *)
Definition ready (w : world) : Prop :=
  (t ← py_get "id" (sub "tenant" ecs); resolve_alert_tenant_id (w_detect w) hid t) = Ok (Some tenant) ∧
  ∀ key s p, dict_get key (w_compiled w) = Some (s, p) → (String.length (sr_name s) ≤ 246)%nat.

Lemma ready_writes w w' : writes attached w w' → ready w → ready w'.
Proof.
  intros Hw [Ht Hn]. pose proof (writes_jobs _ _ _ Hw) as Hj. split.
  - rewrite <- Ht. destruct (py_get _ _); [|done]. simpl. unfold resolve_alert_tenant_id. by rewrite Hj.
  - intros key s p Hk. pose proof (writes_compiled _ _ _ key Hw) as Hc. rewrite Hk in Hc. simpl in Hc.
    destruct (dict_get key (w_compiled w)) as [[s' p']|] eqn:Hk'; [|done]. simpl in Hc.
    injection Hc as _ _ -> _ _ _ _ _. by eapply Hn.
Qed.

Lemma get_rule_app r rs d :
  is_Some (get_rule r d) → is_Some (get_rule r (set_rules (dd_rules d ++ rs) d)).
Proof.
  unfold get_rule. simpl. intros [x Hx]. induction (dd_rules d) as [|y l IH]; [done|]. simpl in *.
  destruct (_ =? _); [by eexists|auto].
Qed.

Lemma get_rule_new x d : is_Some (get_rule (rule_id x) (set_rules (dd_rules d ++ [x]) d)).
Proof.
  unfold get_rule. simpl. induction (dd_rules d) as [|y l IH]; simpl; [rewrite Z.eqb_refl; by eexists|].
  destruct (rule_id y =? rule_id x); [by eexists|exact IH].
Qed.

Lemma assign_compiled key f w k :
  dict_get k (w_compiled (assign attached key f w)) =
  if String.eqb k key then (λ x, (f x.1, x.2)) <$> dict_get k (w_compiled w) else dict_get k (w_compiled w).
Proof.
  unfold assign. destruct (dict_get key (w_compiled w)) as [[s p]|] eqn:Hk; simpl.
  - rewrite dict_get_set. destruct (String.eqb_spec k key) as [->|]; [by rewrite Hk|done].
  - destruct (String.eqb_spec k key) as [->|]; [by rewrite Hk|done].
Qed.

Lemma assign_detect key f w : w_detect (assign attached key f w) = w_detect w.
Proof. unfold assign, w_detect. destruct (dict_get _ _) as [[s p]|]; [|done]. by destruct attached. Qed.

Lemma ensure_settles key s p w :
  ready w → dict_get key (w_compiled w) = Some (s, p) →
  ∃ w1 rule, ensure_managed_rule E attached key s w = (w1, Ok rule) ∧ settled key (rule_id rule) w1 ∧
    alerts_of w1 = alerts_of w ∧ ∀ k r, settled k r w → settled k r w1.
Proof.
  intros [_ Hn] Hk. unfold ensure_managed_rule. destruct (_ ≫= _) as [rule|] eqn:Hm.
  - exists w, rule. split_and!; [done| |done..]. destruct (sr_managed_rule_id s) as [id|] eqn:Hid; [|done]. simpl in Hm.
    exists s, p. unfold get_rule in *. pose proof (List.find_some _ _ Hm) as [_ He]. apply Z.eqb_eq in He. subst id.
    split_and!; [done..|]. by rewrite Hm.
  - set (rule := managed_rule _ _). destruct (_ <? _)%nat eqn:Hlen.
    { apply Nat.ltb_lt in Hlen. specialize (Hn _ _ _ Hk).
      assert (String.length (rule_name rule) = 9 + String.length (sr_name s))%nat by reflexivity. lia. }
    eexists _, rule. split_and!; [done| |unfold alerts_of; by rewrite assign_detect|].
    + exists (set_managed (rule_id rule) s), p. rewrite assign_compiled, String.eqb_refl, assign_detect. simpl. rewrite Hk.
      split_and!; [done..|]. exact (get_rule_new rule (w_detect w)).
    + intros k r (s' & p' & Hk' & Hr & Hg). rewrite <- (assign_detect key (set_managed (rule_id rule))) in Hg.
      unfold settled. rewrite assign_compiled, !assign_detect in *. simpl.
      destruct (String.eqb_spec k key) as [->|].
      * rewrite Hk in Hk'. injection Hk' as <- <-. exfalso. rewrite Hr in Hm. simpl in Hm. by rewrite Hm in Hg; destruct Hg.
      * exists s', p'. split_and!; [done..|]. by apply get_rule_app.
Qed.

Lemma emit_carries m s p w :
  ready w → uuid_of_str (m_host_id m) = Some hid → dict_get (m_rule_id m) (w_compiled w) = Some (s, p) →
  ∃ w' out, emit_alert E window_seconds attached (m_rule_id m) s p m ecs w = (w', Ok out) ∧
    (∀ a, a ∈ alerts_of w → a ∈ alerts_of w' ∨ bump_occurrence (env_now E) a ∈ alerts_of w') ∧
    (∀ k r, settled k r w → settled k r w') ∧
    ∃ a, carries w' (m_rule_id m) a ∧ ∀ a', a' ∈ alerts_of w' → a' ∈ alerts_of w ∨ al_id a' = al_id a.
Proof.
  intros Hr Hh Hk. unfold emit_alert. rewrite Hh. destruct Hr as [Ht Hn]. rewrite Ht.
  destruct (ensure_settles _ _ _ _ (conj Ht Hn) Hk) as (w1 & rule & -> & Hs & Ha & Hmono). cbn [mbind res_bind].
  assert (∃ dkey, dedup_key_for (rule_id rule) (Some hid) ecs = Ok dkey) as [dkey Hd].
  { unfold dedup_key_for. rewrite Hsignal. by eexists. }
  rewrite Hd. cbn [mbind res_bind]. destruct (upsert_alert _ _ _ _ _) as [alerts [aid created]] eqn:Hu.
  apply upsert_cases in Hu as (Hold & a & Hin & Ho & Hak & Hl & Hnew); [|done..]. fold (alerts_of w1) in Hold, Hnew.
  rewrite Ha in Hold, Hnew. set (w2 := set_detect _ _).
  assert (∀ k r, settled k r w1 → settled k r (assign attached (m_rule_id m) (count_hit (env_now E)) w2)) as Hmono2.
  { intros k r (s' & p' & Hk' & Hr' & Hg). unfold settled. rewrite assign_compiled, assign_detect. simpl. rewrite Hk'.
    destruct (String.eqb _ _); [exists (count_hit (env_now E) s'), p'|exists s', p']; by split_and!. }
  set (w3 := assign _ _ _ w2) in *. assert (alerts_of w3 = alerts) as Ha3 by (unfold alerts_of, w3; by rewrite assign_detect).
  exists w3. eexists. split; [done|]. rewrite Ha3. split_and!; [done|auto|]. exists a. split; [|done].
  split_and!; [by rewrite Ha3|done..|]. exists (rule_id rule), dkey. split_and!; [auto|done..].
Qed.

Lemma carries_later w w' k a :
  (∀ a, a ∈ alerts_of w → a ∈ alerts_of w' ∨ bump_occurrence (env_now E) a ∈ alerts_of w') →
  (∀ k r, settled k r w → settled k r w') → carries w k a →
  ∃ a', carries w' k a' ∧ al_id a' = al_id a.
Proof.
  intros Hev Hmono (Hin & Ho & Hl & r & dkey & Hs & Hd & Hak). destruct (Hev a Hin) as [H|H].
  - exists a. split; [|done]. split_and!; [done..|]. exists r, dkey. split_and!; [auto|done..].
  - exists (bump_occurrence (env_now E) a). split; [|done]. split_and!; [done..|]. exists r, dkey. split_and!; [auto|done..].
Qed.

(** The matches of one event of the host, one after the other. *)
Lemma emit_matches_carries ms w out :
  ready w → (∀ m, m ∈ ms → uuid_of_str (m_host_id m) = Some hid ∧ is_Some (dict_get (m_rule_id m) (w_compiled w))) →
  ∃ w' out', emit_matches E window_seconds attached ms ecs w out = (w', Ok out') ∧
    (∀ a, a ∈ alerts_of w → ∃ a', a' ∈ alerts_of w' ∧ al_id a' = al_id a) ∧
    (∀ k a, carries w k a → ∃ a', carries w' k a' ∧ al_id a' = al_id a) ∧
    (∀ m, m ∈ ms → ∃ a, carries w' (m_rule_id m) a) ∧
    ∀ a', a' ∈ alerts_of w' → a' ∈ alerts_of w ∨ ∃ m a, m ∈ ms ∧ carries w' (m_rule_id m) a ∧ al_id a' = al_id a.
Proof.
  revert w out. induction ms as [|m ms IH]; intros w out Hr Hms; simpl.
  - eexists _, _. split; [done|]. split_and!; [by eauto|by eauto|by intros m ?%elem_of_nil|by left].
  - destruct (Hms m) as [Hh [[s p] Hk]]; [by left|]. rewrite Hk.
    destruct (emit_carries m s p w Hr Hh Hk) as (w1 & o & He & Hev & Hmono & a & Ha & Hnew). rewrite He.
    pose proof (emit_writes _ _ _ _ _ _ _ _ _ _ _ He) as Hw.
    destruct (IH w1 (out ++ option_list o)) as (w' & out' & -> & Hids & Hcar & Hall & Hback).
    { by eapply ready_writes. }
    { intros m' Hm'. destruct (Hms m') as [? [x Hx]]; [by right|]. split; [done|].
      pose proof (writes_compiled _ _ _ (m_rule_id m') Hw) as Hc. rewrite Hx in Hc.
      destruct (dict_get (m_rule_id m') (w_compiled w1)); [by eexists|done]. }
    eexists _, _. split; [done|]. split_and!.
    + intros b Hb. destruct (Hev b Hb) as [Hb1|Hb1]; destruct (Hids _ Hb1) as (b' & ? & ?); by exists b'.
    + intros k b Hb. destruct (carries_later _ _ _ _ Hev Hmono Hb) as (b1 & Hb1 & He1).
      destruct (Hcar _ _ Hb1) as (b2 & ? & ?). exists b2. split; [done|congruence].
    + intros m' [-> |Hm']%elem_of_cons; [|auto]. destruct (Hcar _ _ Ha) as (a2 & ? & _). by exists a2.
    + intros b Hb. destruct (Hback b Hb) as [Hb1|(m' & a' & Hm' & Hc & Hi)].
      * destruct (Hnew b Hb1) as [|Hi]; [by left|]. right. destruct (Hcar _ _ Ha) as (a2 & Hc & Hi2).
        exists m, a2. split_and!; [by left|done|congruence].
      * right. exists m', a'. split_and!; [by right|done..].
Qed.
End composition.

(** ** Hits of a replay *)

Section hits.
Context (E : env) (window_seconds : Z).

(** Whether a match on this event is counted: its host is a UUID that resolves to
    a tenant. *)
Definition counted (d : detect_db) (ecs : dict) (m : SequenceMatch) : bool :=
  match uuid_of_str (m_host_id m) with
  | None => false
  | Some hid =>
      match (t ← py_get "id" (sub "tenant" ecs); resolve_alert_tenant_id d hid t) with
      | Ok (Some _) => true
      | _ => false
      end
  end.

(** Whether a match is of the rule with this identifier. *)
Definition fired (c : compiled) (i : uuid) (m : SequenceMatch) : bool :=
  match dict_get (m_rule_id m) c with Some (s, _) => sr_id s =? i | None => false end.

Definition hits_in (c : compiled) (d : detect_db) (ecs : dict) (i : uuid) (ms : list SequenceMatch) : Z :=
  Z.of_nat (length (List.filter (λ m, fired c i m && counted d ecs m) ms)).

(** The matches of a rule that the evaluator alone finds in the events. *)
Fixpoint hits (c : compiled) (d : detect_db) (i : uuid) (events : list (instant * dict)) (ev : evaluator) : Z :=
  match events with
  | [] => 0
  | (t, ecs) :: events =>
      let '(ev, r) := feed_event ev ecs (at_ts t) in
      match r with Ok ms => hits_in c d ecs i ms + hits c d i events ev | Err _ => 0 end
  end.

Definition counters (w : world) : list (uuid * Z) := map (λ r, (sr_id r, sr_hit_count r)) (sq_rules (w_db w)).
Definition plus (f : uuid → Z) (l : list (uuid * Z)) : list (uuid * Z) := map (λ x, (x.1, x.2 + f x.1)) l.

Lemma plus_plus f g l : plus g (plus f l) = plus (λ i, f i + g i) l.
Proof. unfold plus. rewrite map_map. apply map_ext. intros [i n]. simpl. f_equal. lia. Qed.

Lemma plus_ext f g l : (∀ i, f i = g i) → plus f l = plus g l.
Proof. intros H. apply map_ext. intros [i n]. simpl. by rewrite H. Qed.

Lemma plus_zero l : plus (λ _, 0) l = l.
Proof. unfold plus. rewrite <- (map_id l) at 2. apply map_ext. intros [i n]. simpl. f_equal. lia. Qed.

Lemma counters_assign key f w s p n :
  dict_get key (w_compiled w) = Some (s, p) →
  (∀ x, sr_id (f x) = sr_id x ∧ sr_hit_count (f x) = sr_hit_count x + n) →
  counters (assign true key f w) = plus (λ i, if sr_id s =? i then n else 0) (counters w).
Proof.
  intros Hk Hf. unfold assign, counters, plus. rewrite Hk. simpl. rewrite !map_map. apply map_ext. intros r. simpl.
  rewrite (Z.eqb_sym (sr_id s)). destruct (Hf r) as [H1 H2]. destruct (_ =? _); [by rewrite H1, H2|].
  f_equal. lia.
Qed.

Lemma same_key w w' key s p :
  writes true w w' → dict_get key (w_compiled w) = Some (s, p) →
  ∃ s', dict_get key (w_compiled w') = Some (s', p) ∧ sr_id s' = sr_id s.
Proof.
  intros Hw Hk. pose proof (writes_compiled _ _ _ key Hw) as H. rewrite Hk in H.
  destruct (dict_get key (w_compiled w')) as [[s' p']|]; [|done]. simpl in H. injection H as ? _ _ _ _ _ _ ->.
  by exists s'.
Qed.

Lemma ensure_counters key s p w w' r :
  ensure_managed_rule E true key s w = (w', Ok r) → dict_get key (w_compiled w) = Some (s, p) → counters w' = counters w.
Proof.
  unfold ensure_managed_rule. destruct (_ ≫= _); [by intros [= <- _]|]. destruct (_ <? _)%nat; [done|].
  intros [= <- _] Hk. rewrite (counters_assign _ _ _ s p 0); [|done|intros x; simpl; split; [done|lia]].
  rewrite <- (plus_zero (counters w)). apply plus_ext. intros i. by destruct (_ =? _).
Qed.

Lemma emit_counters key s p m ecs w w' out :
  emit_alert E window_seconds true key s p m ecs w = (w', Ok out) → dict_get key (w_compiled w) = Some (s, p) →
  counters w' = plus (λ i, if (sr_id s =? i) && counted (w_detect w) ecs m then 1 else 0) (counters w).
Proof.
  unfold emit_alert, counted. intros H Hk.
  assert (∀ l, plus (λ i, if (sr_id s =? i) && false then 1 else 0) l = l) as Hz.
  { intros l. rewrite <- (plus_zero l) at 2. apply plus_ext. intros i. by rewrite andb_false_r. }
  destruct (uuid_of_str _) as [hid|]; [|injection H as <- _; by rewrite Hz].
  destruct (py_get _ _ ≫= _) as [[tenant|]|]; [|injection H as <- _; by rewrite Hz|done].
  destruct (ensure_managed_rule _ _ _ _ _) as [w1 rule] eqn:He. pose proof (ensure_writes _ _ _ _ _ _ _ He) as Hw.
  destruct rule as [rule|]; [|done]. cbn [mbind res_bind] in H. destruct (dedup_key_for _ _ _) as [dkey|]; [|done].
  cbn [mbind res_bind] in H. destruct (upsert_alert _ _ _ _ _) as [alerts [aid created]]. injection H as <- _.
  destruct (same_key _ _ _ _ _ Hw Hk) as (s' & Hk' & Hs'). rewrite (counters_assign _ _ _ s' p 1); [|done..].
  change (counters (set_detect _ w1)) with (counters w1). rewrite (ensure_counters _ _ _ _ _ _ He Hk). apply plus_ext.
  intros i. by rewrite Hs', andb_true_r.
Qed.

Lemma counted_jobs d d' ecs m : dd_job d' = dd_job d → counted d' ecs m = counted d ecs m.
Proof.
  intros H. unfold counted. destruct (uuid_of_str _); [|done]. destruct (py_get _ _); [|done]. simpl.
  unfold resolve_alert_tenant_id. by rewrite H.
Qed.

Lemma fired_writes w w' i m : writes true w w' → fired (w_compiled w') i m = fired (w_compiled w) i m.
Proof.
  intros Hw. unfold fired. pose proof (writes_compiled _ _ _ (m_rule_id m) Hw) as H.
  destruct (dict_get _ (w_compiled w')) as [[s' p']|], (dict_get _ (w_compiled w)) as [[s p]|]; try done.
  simpl in H. by injection H as -> _ _ _ _ _ _ _.
Qed.

Lemma hits_in_writes w w' ecs i ms :
  writes true w w' → hits_in (w_compiled w') (w_detect w') ecs i ms = hits_in (w_compiled w) (w_detect w) ecs i ms.
Proof.
  intros Hw. unfold hits_in. do 2 f_equal. apply List.filter_ext. intros m.
  by rewrite (fired_writes w), (counted_jobs (w_detect w)) by (done || by eapply writes_jobs).
Qed.

Lemma emit_matches_counters ms ecs w out w' out' :
  emit_matches E window_seconds true ms ecs w out = (w', Ok out') →
  counters w' = plus (λ i, hits_in (w_compiled w) (w_detect w) ecs i ms) (counters w).
Proof.
  revert w out. induction ms as [|m ms IH]; intros w out H; simpl in H.
  { injection H as <- _. symmetry. apply plus_zero. }
  destruct (dict_get _ _) as [[s p]|] eqn:Hk; last first.
  { rewrite (IH _ _ H). apply plus_ext. intros i. unfold hits_in. simpl. unfold fired at 2. by rewrite Hk. }
  destruct (emit_alert _ _ _ _ _ _ _ _ _) as [w1 r] eqn:He. pose proof (emit_writes _ _ _ _ _ _ _ _ _ _ _ He) as Hw.
  destruct r as [o|]; [|done]. rewrite (IH _ _ H), (emit_counters _ _ _ _ _ _ _ _ He Hk), plus_plus. apply plus_ext.
  intros i. rewrite (hits_in_writes w w1) by done. unfold hits_in. simpl. unfold fired at 2. rewrite Hk.
  destruct (_ && _); simpl; lia.
Qed.

End hits.

Lemma process_events_counters E window_seconds events ev w n ev' w' n' :
  process_events E window_seconds events ev w n = (ev', Ok (w', n')) →
  counters w' = plus (λ i, hits (w_compiled w) (w_detect w) i events ev) (counters w).
Proof.
  revert ev w n. induction events as [|[t ecs] events IH]; intros ev w n H; simpl in H.
  { injection H as _ <- _. symmetry. apply plus_zero. }
  destruct (process_event _ _ _ _ _ _ _) as [[ev1 w1] r] eqn:Hp. pose proof (process_event_writes _ _ _ _ _ _ _ _ _ _ Hp) as Hw.
  destruct r as [alerts|]; [|done]. rewrite (IH _ _ _ H). unfold process_event in Hp. simpl.
  destruct (feed_event ev ecs (at_ts t)) as [ev2 [ms|]]; [|done].
  destruct (emit_matches _ _ _ _ _ _ _) as [w2 r2] eqn:Hm. injection Hp as -> -> ->.
  rewrite (emit_matches_counters _ _ _ _ _ _ _ _ Hm), plus_plus. apply plus_ext. intros i. f_equal.
  clear -Hw. revert ev1. induction events as [|[t ecs] events IH]; intros ev; [done|]. simpl.
  destruct (feed_event ev ecs (at_ts t)) as [ev2 [ms|]]; [|done]. by rewrite (hits_in_writes w), IH.
Qed.

(** ** A rule that lost a leg *)

(** What [feed_event] can raise once the event is read. *)
Definition feed_error (e : pyexc) : Prop := e = IndexError ∨ e = OverflowError.

Lemma feed_error_swallowed e : feed_error e → swallowed e = true.
Proof. by intros [-> | ->]. Qed.

Lemma lookup_leg_errors parsed i : errors_in feed_error (lookup_leg parsed i).
Proof. unfold lookup_leg. destruct (_ !! _); simpl; [done|by left]. Qed.

Lemma advance_errors rid parsed e l : errors_in feed_error (advance rid parsed e l).
Proof.
  induction l as [|p l IH]; [done|]. simpl. destruct (flt _ _); [done|].
  apply errors_bind; [apply lookup_leg_errors|]. intros leg ?. destruct (leg_matches _ _).
  - destruct (_ <=? _)%nat.
    + apply errors_bind; [done|]. by intros [].
    + apply errors_bind; [apply lookup_leg_errors|]. intros ? ?. apply errors_bind; [done|]. by intros [].
  - apply errors_bind; [done|]. by intros [].
Qed.

Lemma fresh_partial_errors parsed e : errors_in feed_error (fresh_partial parsed e).
Proof.
  unfold fresh_partial. apply errors_bind; [apply lookup_leg_errors|]. intros leg ?. apply errors_bind; [|done].
  unfold py_float_of_int. destruct (float_of_Z _); simpl; try done. by right.
Qed.

Section stuck.
Context (rid h : str) (parsed : ParsedSequence) (p : partial).
Context (Hlong : (length (legs parsed) < leg_idx p)%nat).

(** The partial waits for a leg that its rule no longer has. *)
Definition stuck (ev : evaluator) : Prop :=
  NoDup (rules ev).*1 ∧ dict_get rid (rules ev) = Some parsed ∧ p ∈ pending_of (rid, h) (partials ev).

Lemma fle_not_flt x y : fle x y = true → flt y x = false.
Proof. float_order_cases. Qed.

Lemma advance_stuck e l :
  p ∈ l → fle (now e) (deadline_ts p) = true → ∃ x, advance rid parsed e l = Err x.
Proof.
  intros Hin Hd%fle_not_flt. induction l as [|q l IH]; [by apply elem_of_nil in Hin|]. simpl.
  apply elem_of_cons in Hin as [<-|Hin].
  - rewrite Hd. unfold lookup_leg. rewrite (lookup_ge_None_2 _ (leg_idx p - 1)) by lia. by exists IndexError.
  - destruct (IH Hin) as [x ->]. destruct (flt (deadline_ts q) (now e)); [by eexists|].
    destruct (lookup_leg parsed (leg_idx q - 1)); simpl; [|by eexists]. destruct (leg_matches _ _); simpl; [|by eexists].
    destruct (_ <=? _)%nat; simpl; [by eexists|]. destruct (lookup_leg _ _); simpl; by eexists.
Qed.

Lemma feed_rule_other rid' parsed' e ps ps' r :
  rid' ≠ rid → feed_rule rid' parsed' e ps = (ps', r) →
  pending_of (rid, h) ps' = pending_of (rid, h) ps ∧ errors_in feed_error r.
Proof.
  intros Hne. unfold feed_rule. pose proof (advance_errors rid' parsed' e (pending_of (rid', host e) ps)) as Ha.
  destruct (advance _ _ _ _) as [[survivors ms]|x]; [|by intros [= <- <-]].
  pose proof (fresh_partial_errors parsed' e) as Hf. destruct (trigger_matches _ _).
  - destruct (fresh_partial _ _); intros [= <- <-]; rewrite ?pending_of_insert, ?pending_of_store, ?decide_False by naive_solver; done.
  - intros [= <- <-]. by rewrite pending_of_store, decide_False by naive_solver.
Qed.

Lemma feed_rules_stuck rs e ps :
  host e = h → fle (now e) (deadline_ts p) = true → dict_get rid rs = Some parsed → p ∈ pending_of (rid, h) ps →
  ∃ ps' x, feed_rules rs e ps = (ps', Err x) ∧ feed_error x ∧ p ∈ pending_of (rid, h) ps'.
Proof.
  intros Hh Hd. revert ps. induction rs as [|[rid' parsed'] rs IH]; intros ps Hget Hp; [done|]. simpl in *.
  destruct (String.eqb_spec rid rid') as [<-|Hne].
  - injection Hget as ->. unfold feed_rule. rewrite Hh. pose proof (advance_errors rid parsed e (pending_of (rid, h) ps)) as Ha.
    destruct (advance_stuck e _ Hp Hd) as [x Hx]. rewrite Hx in *. by exists ps, x.
  - destruct (feed_rule rid' parsed' e ps) as [ps1 r] eqn:Hf. apply feed_rule_other in Hf as [Hps Hr]; [|done].
    destruct r as [ms|x]; [|exists ps1, x; by rewrite Hps]. destruct (IH ps1) as (ps2 & x & -> & ? & ?); [done|by rewrite Hps|].
    by exists ps2, x.
Qed.

Lemma stuck_feed ev ecs t e :
  stuck ev → read_event ecs t = Ok (Some e) → host e = h → fle (now e) (deadline_ts p) = true →
  ∃ ev' x, feed_event ev ecs t = (ev', Err x) ∧ feed_error x ∧ stuck ev'.
Proof.
  intros (Hnd & Hr & Hp) He Hh Hd. unfold feed_event. destruct (rules ev) as [|r rs] eqn:Hrs; [done|]. rewrite <- Hrs in Hr, Hnd. rewrite He.
  unfold feed. destruct (feed_rules_stuck (rules ev) e (partials ev)) as (ps' & x & -> & Hx & Hp'); [done..|].
  exists (mkEval (rules ev) ps'), x. unfold stuck. by split_and!.
Qed.

Lemma stuck_gc t ev : stuck ev → fle t (deadline_ts p) = true → stuck (gc t ev).1.
Proof.
  intros (Hnd & Hr & Hp) Hd. split_and!; [done..|]. rewrite pending_of_gc. apply list_elem_of_In, List.filter_In.
  by rewrite <- list_elem_of_In.
Qed.

Lemma stuck_forget rid' ev : rid' ≠ rid → stuck ev → stuck (forget_rule rid' ev).
Proof.
  intros Hne (Hnd & Hr & Hp). split_and!; simpl.
  - eapply sublist_NoDup; [done|apply dict_pop_keys].
  - rewrite dict_get_pop by done. by destruct (String.eqb_spec rid rid').
  - pose proof (pending_of_forget rid' (rid, h) ev) as Hf. simpl in Hf. by rewrite Hf, decide_False.
Qed.

Lemma stuck_forget_missing c ev : is_Some (dict_get rid c) → stuck ev → stuck (forget_missing c ev).
Proof.
  intros [x Hx]. unfold forget_missing. generalize (map fst (rules ev)) as ks. intros ks. revert ev.
  induction ks as [|k ks IH]; intros ev Hev; [done|]. simpl. apply IH. destruct (dict_get k c) eqn:Hk; [done|].
  apply stuck_forget; [|done]. intros ->. by rewrite Hx in Hk.
Qed.

Lemma register_all_get c ev k :
  NoDup c.*1 → dict_get k (rules (register_all c ev)) =
    match dict_get k c with Some (_, q) => Some q | None => dict_get k (rules ev) end.
Proof.
  unfold register_all. revert ev. induction c as [|[k' [s q]] c IH]; intros ev Hnd; [done|].
  apply NoDup_cons in Hnd as [Hk' Hnd]. simpl. rewrite IH by done. simpl.
  destruct (String.eqb_spec k k') as [->|Hne].
  - rewrite (proj2 (dict_get_None k' c)) by done. by rewrite dict_get_set_eq.
  - destruct (dict_get k c) as [[? ?]|]; [done|]. by rewrite dict_get_set_ne.
Qed.

Lemma stuck_register_all c ev s :
  NoDup c.*1 → dict_get rid c = Some (s, parsed) → stuck ev → stuck (register_all c ev).
Proof.
  intros Hc Hk (Hnd & Hr & Hp). split_and!.
  - clear -Hnd. unfold register_all. revert ev Hnd. induction c as [|r c IH]; intros ev Hnd; [done|]. simpl. apply IH.
    by apply dict_set_NoDup.
  - by rewrite register_all_get, Hk.
  - assert (partials (register_all c ev) = partials ev) as ->; [|done]. clear. unfold register_all. revert ev.
    induction c as [|r c IH]; intros ev; [done|]. simpl. by rewrite IH.
Qed.
End stuck.

Lemma compile_NoDup safe_load rows acc c : compile_rules safe_load rows acc = Ok c → NoDup acc.*1 → NoDup c.*1.
Proof.
  revert acc. induction rows as [|s rows IH]; intros acc H Hnd; simpl in H; [by injection H as <-|].
  destruct (negb _); [by eapply IH|]. destruct (parse_rule _ _ _) as [q|[]]; try done; [|by eapply IH].
  eapply IH; [done|]. by apply dict_set_NoDup.
Qed.

Section starve.
Context (safe_load : str → yaml_result) (E : env) (window_seconds : Z).
Context (rid h : str) (s : SequenceRule) (parsed : ParsedSequence) (p : partial) (db : seq_db) (c : compiled).
Context (Hlong : (length (legs parsed) < leg_idx p)%nat).
Context (Hload : load_rules safe_load db = Ok c) (Hget : dict_get rid c = Some (s, parsed)).

(** A round with nothing to process, or with an event of this host, not later
    than the deadline of the partial. *)
Definition host_round (x : instant * option (option bytes)) : Prop :=
  fle (at_ts x.1) (deadline_ts p) = true ∧
  match x.2 with
  | Some (Some b) =>
      ∃ ecs e, json_loads_bytes b = Ok (PDict ecs) ∧ read_event ecs (at_ts x.1) = Ok (Some e) ∧ host e = h
  | _ => True
  end.

Lemma read_event_now ecs t e : read_event ecs t = Ok (Some e) → now e = t.
Proof.
  unfold read_event. intros H. apply res_bind_ok in H as (id & _ & H). destruct (negb _); [done|].
  apply res_bind_ok in H as (v & _ & H). destruct id; try done. by injection H as <-.
Qed.

Lemma stuck_refresh force t st :
  stuck rid h parsed p (sd_evaluator st) →
  ∃ st', refresh_rules safe_load force t db st = Ok st' ∧ stuck rid h parsed p (sd_evaluator st').
Proof.
  intros Hst. unfold refresh_rules. destruct (_ && _); [by exists st|]. rewrite Hload. cbn [mbind res_bind].
  eexists. split; [done|]. simpl. eapply stuck_register_all; [|done|].
  - unfold load_rules in Hload. eapply compile_NoDup; [done|constructor].
  - apply stuck_forget_missing; [|done]. by rewrite Hget.
Qed.

Lemma stuck_message t value st :
  host_round (t, Some value) → stuck rid h parsed p (sd_evaluator st) →
  ∃ st', process_message E window_seconds t value db st = Ok (db, st') ∧ stuck rid h parsed p (sd_evaluator st').
Proof.
  intros [Hd Hm] Hst. simpl in *. destruct value as [b|]; [|by exists st]. destruct Hm as (ecs & e & Hb & He & Hh).
  unfold process_message. rewrite Hb. unfold process_event.
  destruct (stuck_feed rid h parsed p Hlong (sd_evaluator st) ecs (at_ts t) e Hst He Hh) as (ev' & x & -> & Hx & Hst').
  { by rewrite (read_event_now _ _ _ He). }
  rewrite (feed_error_swallowed x Hx). by eexists.
Qed.

Lemma stuck_rounds msgs st :
  Forall host_round msgs → stuck rid h parsed p (sd_evaluator st) →
  ∃ st', run_steps safe_load E window_seconds msgs db st = Ok (db, st') ∧ stuck rid h parsed p (sd_evaluator st').
Proof.
  intros Hm. revert st. induction Hm as [|[t msg] msgs Hx _ IH]; intros st Hst; [by exists st|]. simpl.
  assert (∃ st1, run_step safe_load E window_seconds t msg db st = Ok (db, st1) ∧ stuck rid h parsed p (sd_evaluator st1))
    as (st1 & -> & Hst1); [|simpl; by apply IH].
  unfold run_step. destruct msg as [value|].
  - destruct (stuck_message t value st Hx Hst) as (st1 & -> & Hst1). cbn [mbind res_bind].
    match goal with |- context [refresh_rules _ _ _ _ ?st2] =>
      assert (stuck rid h parsed p (sd_evaluator st2)) as Hst2 end.
    { destruct (_ <=? _)%nat; [|done]. simpl. apply stuck_gc; [done|]. apply Hx. }
    destruct (stuck_refresh false (at_ts t) _ Hst2) as (st3 & -> & Hst3). by exists st3.
  - destruct (stuck_refresh false (at_ts t) st Hst) as (st1 & -> & Hst1). by exists st1.
Qed.
End starve.

(** ** The first hit after a refresh *)

Section first_hit.
Context (E : env) (window_seconds : Z) (attached : bool).

Definition rule_count (w : world) : nat := length (dd_rules (w_detect w)).

Lemma ensure_count key s w w' r :
  ensure_managed_rule E attached key s w = (w', Ok r) →
  (rule_count w ≤ rule_count w' ∧ (sr_managed_rule_id s = None → rule_count w < rule_count w'))%nat.
Proof.
  unfold ensure_managed_rule. destruct (sr_managed_rule_id s) as [id|]; simpl.
  - destruct (get_rule id _); [intros [= <- _]; by split; [lia|]|]. destruct (_ <? _)%nat; [done|]. intros [= <- _].
    unfold rule_count. rewrite assign_detect. simpl. rewrite length_app. split; [simpl; lia|done].
  - destruct (_ <? _)%nat; [done|]. intros [= <- _]. unfold rule_count. rewrite assign_detect. simpl.
    rewrite length_app. simpl. lia.
Qed.

Lemma emit_count key s p m ecs w w' o :
  emit_alert E window_seconds attached key s p m ecs w = (w', Ok o) →
  (rule_count w ≤ rule_count w')%nat ∧
  if counted (w_detect w) ecs m then sr_managed_rule_id s = None → (rule_count w < rule_count w')%nat else w' = w.
Proof.
  unfold emit_alert, counted. destruct (uuid_of_str _) as [hid|]; [|by intros [= <- _]].
  destruct (py_get _ _ ≫= _) as [[tenant|]|]; [|by intros [= <- _]|done].
  destruct (ensure_managed_rule _ _ _ _ _) as [w1 [rule|]] eqn:He; [|done]. apply ensure_count in He. cbn [mbind res_bind].
  destruct (dedup_key_for _ _ _) as [dkey|]; [|done]. cbn [mbind res_bind].
  destruct (upsert_alert _ _ _ _ _) as [alerts [aid created]]. intros [= <- _]. unfold rule_count in *.
  rewrite assign_detect. exact He.
Qed.

Lemma emit_matches_count ms ecs w out w' o :
  emit_matches E window_seconds attached ms ecs w out = (w', Ok o) →
  (rule_count w ≤ rule_count w')%nat ∧
  ((∀ key s p, dict_get key (w_compiled w) = Some (s, p) → sr_managed_rule_id s = None) →
   (∃ m, m ∈ ms ∧ is_Some (dict_get (m_rule_id m) (w_compiled w)) ∧ counted (w_detect w) ecs m = true) →
   (rule_count w < rule_count w')%nat).
Proof.
  revert w out. induction ms as [|m ms IH]; intros w out H; simpl in H.
  { injection H as <- _. split; [done|]. by intros _ (m & ?%elem_of_nil & _). }
  destruct (dict_get (m_rule_id m) (w_compiled w)) as [[s p]|] eqn:Hk.
  - destruct (emit_alert _ _ _ _ _ _ _ _ _) as [w1 [o1|]] eqn:He; [|done]. apply emit_count in He as [Hle Hc].
    destruct (IH _ _ H) as [Hle' IH']. split; [lia|]. intros Hn (m' & Hm' & Hk' & Hc').
    destruct (counted (w_detect w) ecs m) eqn:Hcm; [specialize (Hc (Hn _ _ _ Hk)); lia|]. subst w1. apply IH'; [done|].
    exists m'. apply elem_of_cons in Hm' as [-> |?]; [congruence|done].
  - destruct (IH _ _ H) as [Hle' IH']. split; [done|]. intros Hn (m' & Hm' & Hk' & Hc'). apply IH'; [done|].
    exists m'. apply elem_of_cons in Hm' as [-> |?]; [by rewrite Hk in Hk'; destruct Hk'|done].
Qed.
End first_hit.

Lemma emit_other E window_seconds attached key s p m ecs w w' r k :
  k ≠ key → emit_alert E window_seconds attached key s p m ecs w = (w', r) →
  dict_get k (w_compiled w') = dict_get k (w_compiled w).
Proof.
  intros Hne. unfold emit_alert. destruct (uuid_of_str _) as [hid|]; [|by intros [= <- _]].
  destruct (py_get _ _ ≫= _) as [[tenant|]|]; [|by intros [= <- _]..].
  destruct (ensure_managed_rule _ _ _ _ _) as [w1 rule] eqn:He.
  assert (dict_get k (w_compiled w1) = dict_get k (w_compiled w)) as Hw1.
  { unfold ensure_managed_rule in He. destruct (_ ≫= _); [by injection He as <- _|].
    destruct (_ <? _)%nat; injection He as <- _; [done|]. rewrite assign_compiled. by destruct (String.eqb_spec k key). }
  destruct (rule ≫= _) as [[rule' dkey]|]; [|by intros [= <- _]].
  destruct (upsert_alert _ _ _ _ _) as [alerts [aid created]]. intros [= <- _]. rewrite assign_compiled.
  by destruct (String.eqb_spec k key).
Qed.

Lemma emit_long E window_seconds attached key s p m ecs w :
  counted (w_detect w) ecs m = true → (246 < String.length (sr_name s))%nat → sr_managed_rule_id s = None →
  emit_alert E window_seconds attached key s p m ecs w = (w, Err DataError).
Proof.
  unfold emit_alert, counted, ensure_managed_rule. intros Hc Hl ->. destruct (uuid_of_str _) as [hid|]; [|done].
  destruct (py_get _ _ ≫= _) as [[tenant|]|]; [|done..]. cbn [mbind option_bind]. set (rule := managed_rule _ _).
  assert (String.length (rule_name rule) = 9 + String.length (sr_name s))%nat as Hlen by reflexivity.
  by rewrite (proj2 (Nat.ltb_lt 255 (String.length (rule_name rule)))) by lia.
Qed.

(** A rule whose managed rule cannot be inserted stops the loop. *)
Lemma long_name_raises E window_seconds ms ecs w out w' o m s p :
  emit_matches E window_seconds false ms ecs w out = (w', Ok o) → m ∈ ms →
  dict_get (m_rule_id m) (w_compiled w) = Some (s, p) → counted (w_detect w) ecs m = true →
  (246 < String.length (sr_name s))%nat → sr_managed_rule_id s = None → False.
Proof.
  revert w out. induction ms as [|m' ms IH]; intros w out H Hm Hk Hc Hl Hn; [by apply elem_of_nil in Hm|]. simpl in H.
  destruct (counted (w_detect w) ecs m') eqn:Hc'; last first.
  { assert (m ∈ ms) by (apply elem_of_cons in Hm as [-> |?]; [congruence|done]).
    destruct (dict_get (m_rule_id m') (w_compiled w)) as [[s' p']|]; [|by eapply IH].
    destruct (emit_alert _ _ _ _ _ _ _ _ _) as [w1 [o1|]] eqn:He; [|done].
    apply emit_count in He as [_ He]. rewrite Hc' in He. subst w1. by eapply IH. }
  destruct (String.eqb_spec (m_rule_id m) (m_rule_id m')) as [Heq|Hne].
  { rewrite <- Heq, Hk, emit_long in H; done. }
  assert (m ∈ ms) by (apply elem_of_cons in Hm as [-> |?]; done).
  destruct (dict_get (m_rule_id m') (w_compiled w)) as [[s' p']|]; [|by eapply IH].
  destruct (emit_alert _ _ _ _ _ _ _ _ _) as [w1 [o1|]] eqn:He; [|done]. pose proof (emit_writes _ _ _ _ _ _ _ _ _ _ _ He) as Hw.
  eapply IH; [done..| | |done|done].
  - by rewrite (emit_other _ _ _ _ _ _ _ _ _ _ _ _ Hne He).
  - by rewrite (counted_jobs (w_detect w)) by (by eapply writes_jobs).
Qed.

Lemma load_unmanaged safe_load db c key s p :
  load_rules safe_load db = Ok c → Forall (λ r, sr_managed_rule_id r = None) (sq_rules db) →
  dict_get key c = Some (s, p) → sr_managed_rule_id s = None.
Proof.
  intros Hc Hn Hk. destruct (compile_entries _ _ _ _ _ _ _ Hc Hk) as [|(Hs & _)]; [done|].
  apply elem_of_filterb in Hs as [Hs _]. rewrite Forall_forall in Hn. by apply Hn.
Qed.

(** ** Examples *)

(** A rule with two legs, and the same rule cut to one. *)
Definition kind_spec (k : str) : pyval := PDict [("event_kind", PStr k)].
Definition demo_yaml (body : str) : yaml_result :=
  if String.eqb body "two" then
    YDoc (PDict [("trigger", kind_spec "process_started");
                 ("followed_by", PList [kind_spec "file_created"; kind_spec "network_connection"])])
  else if String.eqb body "one" then
    YDoc (PDict [("trigger", kind_spec "process_started"); ("followed_by", kind_spec "file_created")])
  else YError.
Definition demo_srule (id : uuid) (name body : str) : SequenceRule :=
  mkSequenceRule id 1 name None body 600 true HIGH None 0 None None None.
Definition demo_seq_db : seq_db := mkSeqDb demo_detect_db [demo_srule 7 "dropper" "two"].

Definition demo_ecs_of (kind : str) (id : str) : dict :=
  [("event", PDict [("id", PStr id); ("action", PStr (if String.eqb kind "process" then "start" else "create"));
                    ("category", PList [PStr kind])]);
   ("host", PDict [("id", PStr (uuid_str 100))]); (kind, PDict [("name", PStr "x")])].
Definition demo_at (t : Z) : instant := mkInstant (t * 1000000) (float_of_Z t).
Definition demo_msg (t : Z) (kind : str) : instant * option (option bytes) :=
  (demo_at t, Some (Some (utf8 (json_canonical (PDict (demo_ecs_of kind "e")))))).
Definition demo_burst (t : Z) : list (instant * dict) :=
  map (λ x, (demo_at (t + x.1), demo_ecs_of x.2 "e")) [(0, "process"); (1, "file"); (2, "network")].
Definition demo_started : py SequenceDetector := refresh_rules demo_yaml true (float_of_Z 0) demo_seq_db init_worker.

(** ** Properties *)


(** Every rule the routes accepted compiles.  Whatever requests, replays,
    worker rounds and other writes follow each other from a table without rules,
    loading the rules succeeds, no enabled rule is dropped, and each entry is the
    parse of an enabled row under its current window. *)
Theorem stored_rules_compile safe_load E window_seconds db0 db :
  sq_rules db0 = [] → rtc (seq_step safe_load E window_seconds) db0 db →
  ∃ c, load_rules safe_load db = Ok c ∧
    (∀ s, s ∈ sq_rules db → sr_enabled s = true → is_Some (dict_get (uuid_str (sr_id s)) c)) ∧
    (∀ key s p, dict_get key c = Some (s, p) → entry_of safe_load (sq_rules db) key s p).
Proof.
  intros H0 Hrtc. assert (Forall (parses safe_load) (sq_rules db)) as Hp.
  { assert (Forall (parses safe_load) (sq_rules db0)) as H by (rewrite H0; constructor). clear H0.
    induction Hrtc as [|x y z Hxy _ IH]; [done|]. apply IH. by eapply seq_step_parses. }
  unfold load_rules. destruct (compile_total safe_load (List.filter sr_enabled (sq_rules db)) []) as (c & Hc & _ & Hall).
  { apply Forall_forall. intros s [Hs _]%elem_of_filterb. rewrite Forall_forall in Hp. by apply Hp. }
  exists c. split_and!; [done| |].
  - intros s Hs Hen. apply Hall; [|done]. by apply elem_of_filterb.
  - intros key s p Hk. destruct (compile_entries _ _ _ _ _ _ _ Hc Hk) as [|(Hs & ? & ? & ?)]; [done|].
    apply elem_of_filterb in Hs as [Hs _]. by split_and!.
Qed.

(** A replay counts its hits.  After one pass over any events, the hit counter
    of every rule has grown by the number of its matches, as the evaluator alone
    finds them, on hosts that belong to a tenant. *)
Theorem replay_counts_hits safe_load E window_seconds events ev ev' db db' n c :
  load_rules safe_load db = Ok c →
  run_once safe_load E window_seconds events ev db = (ev', Ok (db', n)) →
  map (λ r, (sr_id r, sr_hit_count r)) (sq_rules db') =
  map (λ r, (sr_id r, sr_hit_count r + hits c (sq_detect db) (sr_id r) events (register_all c ev))) (sq_rules db).
Proof.
  intros Hc H. unfold run_once in H. rewrite Hc in H.
  destruct (process_events _ _ _ _ _ _) as [ev1 r] eqn:Hp. injection H as _ H.
  apply res_bind_ok in H as ([w' n'] & -> & H). injection H as <- _. apply process_events_counters in Hp.
  unfold counters, plus in Hp. rewrite map_map in Hp. exact Hp.
Qed.

(** The long-lived worker loses what it learns about its rules.  No round of
    it changes a row of the sequence rules, so the hit counters and the managed
    rules it assigns are gone with the next refresh; and while the rows name no
    managed rule, the first counted hit after every refresh inserts another one,
    under whose identifier no earlier alert can be found. *)
Theorem worker_forgets_managed_rule safe_load E window_seconds msgs db0 st0 db st t t' b st1 db' st2 ecs ev ms :
  Forall (λ r, sr_managed_rule_id r = None) (sq_rules db0) →
  run_steps safe_load E window_seconds msgs db0 st0 = Ok (db, st) →
  refresh_rules safe_load true t db st = Ok st1 →
  process_message E window_seconds t' (Some b) db st1 = Ok (db', st2) →
  json_loads_bytes b = Ok (PDict ecs) → feed_event (sd_evaluator st1) ecs (at_ts t') = (ev, Ok ms) →
  (∃ m, m ∈ ms ∧ is_Some (dict_get (m_rule_id m) (sd_compiled st1)) ∧ counted (sq_detect db) ecs m = true) →
  sq_rules db' = sq_rules db0 ∧
  (db' = db ∨ length (dd_rules (sq_detect db)) < length (dd_rules (sq_detect db')))%nat.
Proof.
  intros Hn Hrun Hre Hp Hb Hf Hm. apply run_steps_rows in Hrun. pose proof (process_message_rows _ _ _ _ _ _ _ _ Hp) as Hrows.
  split; [congruence|]. unfold refresh_rules in Hre. simpl in Hre. apply res_bind_ok in Hre as (c & Hc & Hre).
  injection Hre as <-. simpl in *. unfold process_message in Hp. rewrite Hb in Hp. unfold process_event in Hp. simpl in Hp.
  rewrite Hf in Hp. destruct (emit_matches _ _ _ _ _ _ _) as [w r] eqn:He. destruct r as [o|x].
  - injection Hp as <- _. right. apply emit_matches_count in He as [_ He]. apply He; [|done]. simpl. intros key s p Hk.
    eapply load_unmanaged; [done| |done]. by rewrite Hrun.
  - left. destruct (swallowed x); [|done]. by injection Hp as <- _.
Qed.

(** A rule that lost a leg silences its host.  When an edit leaves a partial of
    a host waiting for a leg that the stored rule no longer has, then up to the
    deadline of the partial no round that consumes an event of that host changes
    anything in the database, whichever rules the event would complete and
    however often the rules are refreshed. *)
Theorem shortened_rule_silences_host safe_load E window_seconds rid h s parsed p db c st msgs :
  (length (legs parsed) < leg_idx p)%nat →
  load_rules safe_load db = Ok c → dict_get rid c = Some (s, parsed) →
  stuck rid h parsed p (sd_evaluator st) → Forall (host_round h p) msgs →
  ∃ st', run_steps safe_load E window_seconds msgs db st = Ok (db, st').
Proof.
  intros Hl Hc Hg Hst Hm. destruct (stuck_rounds safe_load E window_seconds rid h s parsed p db c Hl Hc Hg msgs st Hm Hst)
    as (st' & H & _). by exists st'.
Qed.

(** A rule whose name is longer than 246 characters, which the routes accept,
    never alerts: the name of its managed rule does not fit the column.  An event
    that completes it on an enrolled host leaves the database as it was, and the
    alerts that other rules would have raised for the event are lost with it. *)
Theorem long_name_loses_alerts E window_seconds t b db st ecs ev ms m s p db' st' :
  json_loads_bytes b = Ok (PDict ecs) → feed_event (sd_evaluator st) ecs (at_ts t) = (ev, Ok ms) →
  m ∈ ms → dict_get (m_rule_id m) (sd_compiled st) = Some (s, p) → counted (sq_detect db) ecs m = true →
  (246 < String.length (sr_name s))%nat → sr_managed_rule_id s = None →
  process_message E window_seconds t (Some b) db st = Ok (db', st') → db' = db.
Proof.
  intros Hb Hf Hm Hk Hc Hl Hn Hp. unfold process_message in Hp. rewrite Hb in Hp. unfold process_event in Hp. rewrite Hf in Hp.
  destruct (emit_matches _ _ _ _ _ _ _) as [w [o|x]] eqn:He.
  - exfalso. eapply long_name_raises in He; [done|done..].
  - destruct (swallowed x); [|done]. by injection Hp as <- _.
Qed.

(** ** Witnesses *)

Definition demo_two : ParsedSequence := Eval vm_compute in
  match parse_rule demo_yaml "two" 600 with Ok p => p | Err _ => demo_rule end.
Definition demo_read (t : Z) (kind : str) : event :=
  match read_event (demo_ecs_of kind "e") (float_of_Z t) with Ok (Some e) => e | _ => SeqEval.demo_event 0 "" "" end.
Definition demo_world : world := mkWorld demo_seq_db [(uuid_str 7, (demo_srule 7 "dropper" "two", demo_two))].


Lemma stored_rules_compile_witness :
  ∃ db s c, create_sequence_rule demo_yaml demo_env "dropper" None "two" 600 true HIGH None (demo_admin 1)
      (mkSeqDb demo_detect_db []) = Ok (db, s) ∧
    load_rules demo_yaml db = Ok c ∧ is_Some (dict_get (uuid_str (sr_id s)) c).
Proof.
  destruct (create_sequence_rule demo_yaml demo_env "dropper" None "two" 600 true HIGH None (demo_admin 1)
      (mkSeqDb demo_detect_db [])) as [[db s]|] eqn:H; [|vm_compute in H; discriminate H].
  destruct (stored_rules_compile demo_yaml demo_env 300 (mkSeqDb demo_detect_db []) db) as (c & Hc & Hall & _).
  - reflexivity.
  - apply rtc_once. eapply step_create. exact H.
  - exists db, s, c. split; [reflexivity|]. split; [exact Hc|]. vm_compute in H. injection H as <- <-.
    apply Hall; [by left|reflexivity].
Defined.

Lemma replay_counts_hits_witness :
  ∃ ev' db' n, run_once demo_yaml demo_env 300 (demo_burst 100 ++ demo_burst 140) init_evaluator demo_seq_db
      = (ev', Ok (db', n)) ∧
    map (λ r, (sr_id r, sr_hit_count r)) (sq_rules db') = [(7, 2)].
Proof.
  destruct (run_once demo_yaml demo_env 300 (demo_burst 100 ++ demo_burst 140) init_evaluator demo_seq_db)
    as [ev' [[db' n]|]] eqn:H; [|vm_compute in H; discriminate H].
  exists ev', db', n. split; [reflexivity|].
  destruct (load_rules demo_yaml demo_seq_db) as [c|] eqn:Hc; [|vm_compute in Hc; discriminate Hc].
  rewrite (replay_counts_hits demo_yaml demo_env 300 _ _ _ _ _ _ c Hc H).
  vm_compute in Hc. injection Hc as <-. vm_compute. reflexivity.
Defined.

(** What a run of the example gives, with a default for the error. *)
Definition ran (r : py (seq_db * SequenceDetector)) : seq_db * SequenceDetector :=
  match r with Ok x => x | Err _ => (demo_seq_db, init_worker) end.
Definition refreshed (t : Z) (x : seq_db * SequenceDetector) : SequenceDetector :=
  match refresh_rules demo_yaml true (float_of_Z t) x.1 x.2 with Ok st => st | Err _ => init_worker end.
Definition demo_st : SequenceDetector := Eval vm_compute in refreshed 0 (demo_seq_db, init_worker).
Definition demo_bytes (kind : str) : bytes := utf8 (json_canonical (PDict (demo_ecs_of kind "e"))).
Definition demo_doc (kind : str) : dict :=
  match json_loads_bytes (demo_bytes kind) with Ok (PDict d) => d | _ => [] end.

Definition demo_msgs : list (instant * option (option bytes)) :=
  [demo_msg 100 "process"; demo_msg 101 "file"; demo_msg 102 "network"; demo_msg 103 "process"; demo_msg 104 "file"].
Definition demo_ran : seq_db * SequenceDetector := Eval vm_compute in
  ran (run_steps demo_yaml demo_env 300 demo_msgs demo_seq_db demo_st).
Definition demo_again : SequenceDetector := Eval vm_compute in refreshed 110 demo_ran.
Definition demo_network : bytes := Eval vm_compute in demo_bytes "network".
Definition demo_hit : seq_db * SequenceDetector := Eval vm_compute in
  ran (process_message demo_env 300 (demo_at 111) (Some demo_network) demo_ran.1 demo_again).
Definition demo_fed : evaluator * py (list SequenceMatch) := Eval vm_compute in
  feed_event (sd_evaluator demo_again) (demo_doc "network") (at_ts (demo_at 111)).
Definition demo_found : list SequenceMatch := Eval vm_compute in match demo_fed.2 with Ok ms => ms | Err _ => [] end.

Definition demo_got (t : Z) (kind : str) : event :=
  match read_event (demo_doc kind) (float_of_Z t) with Ok (Some e) => e | _ => SeqEval.demo_event 0 "" "" end.

(** Two bursts with a refresh between them: a second managed rule, and two alerts
    of one occurrence each, where the replay above has one alert seen twice. *)
Lemma worker_forgets_managed_rule_witness :
  map al_occurrence_count (dd_alerts (sq_detect demo_hit.1)) = [1; 1] ∧
  sq_rules demo_hit.1 = sq_rules demo_seq_db ∧
  (demo_hit.1 = demo_ran.1 ∨
   length (dd_rules (sq_detect demo_ran.1)) < length (dd_rules (sq_detect demo_hit.1)))%nat.
Proof.
  split; [reflexivity|].
  apply (worker_forgets_managed_rule demo_yaml demo_env 300 demo_msgs demo_seq_db demo_st demo_ran.1 demo_ran.2
    (float_of_Z 110) (demo_at 111) demo_network demo_again demo_hit.1 demo_hit.2 (demo_doc "network")
    demo_fed.1 demo_found).
  - repeat constructor.
  - vm_compute. reflexivity.
  - vm_compute. reflexivity.
  - vm_compute. reflexivity.
  - vm_compute. reflexivity.
  - vm_compute. reflexivity.
  - eexists. split; [left|]. split; [by eexists|vm_compute; reflexivity].
Defined.

(** The worker holds a partial for the second leg when the rule is cut to one. *)
Definition demo_waiting : seq_db * SequenceDetector := Eval vm_compute in
  ran (run_steps demo_yaml demo_env 300 [demo_msg 100 "process"; demo_msg 101 "file"] demo_seq_db demo_st).
Definition demo_cut : seq_db := Eval vm_compute in
  match update_sequence_rule demo_yaml demo_env 7 (mkUpdate None None (Some "one") None None None None) (demo_admin 1)
    demo_waiting.1 with Ok db => db | Err _ => demo_seq_db end.
Definition demo_cut_st : SequenceDetector := Eval vm_compute in refreshed 110 (demo_cut, demo_waiting.2).
Definition demo_loaded : compiled := Eval vm_compute in
  match load_rules demo_yaml demo_cut with Ok c => c | Err _ => [] end.
Definition demo_one : ParsedSequence := Eval vm_compute in
  match parse_rule demo_yaml "one" 600 with Ok p => p | Err _ => demo_rule end.
Definition demo_left : partial := Eval vm_compute in
  match pending_of (uuid_str 7, uuid_str 100) (partials (sd_evaluator demo_cut_st)) with
  | p :: _ => p | [] => mkPartial 0 (float_of_Z 0) [] end.

Lemma shortened_rule_silences_host_witness :
  update_sequence_rule demo_yaml demo_env 7 (mkUpdate None None (Some "one") None None None None) (demo_admin 1)
    demo_waiting.1 = Ok demo_cut ∧
  ∃ st', run_steps demo_yaml demo_env 300 [demo_msg 111 "process"; demo_msg 112 "file"] demo_cut demo_cut_st = Ok (demo_cut, st').
Proof.
  split; [vm_compute; reflexivity|].
  apply (shortened_rule_silences_host demo_yaml demo_env 300 (uuid_str 7) (uuid_str 100) (demo_srule 7 "dropper" "one")
    demo_one demo_left demo_cut demo_loaded demo_cut_st).
  - vm_compute. lia.
  - vm_compute. reflexivity.
  - vm_compute. reflexivity.
  - split_and!; [|vm_compute; reflexivity|vm_compute; left]. vm_compute. apply NoDup_singleton.
  - apply Forall_cons. split; [|apply Forall_singleton]; (split; [vm_compute; reflexivity|]).
    + exists (demo_doc "process"), (demo_got 111 "process"). split_and!; vm_compute; reflexivity.
    + exists (demo_doc "file"), (demo_got 112 "file"). split_and!; vm_compute; reflexivity.
Defined.

(** A name of 250 characters. *)
Fixpoint letters (n : nat) : str := match n with O => "" | S n => String "a" (letters n) end.
Definition demo_named : seq_db := Eval vm_compute in mkSeqDb demo_detect_db [demo_srule 7 (letters 250) "two"].
Definition demo_named_ran : seq_db * SequenceDetector := Eval vm_compute in
  ran (run_steps demo_yaml demo_env 300 [demo_msg 100 "process"; demo_msg 101 "file"] demo_named
         (refreshed 0 (demo_named, init_worker))).
Definition demo_named_fed : evaluator * py (list SequenceMatch) := Eval vm_compute in
  feed_event (sd_evaluator demo_named_ran.2) (demo_doc "network") (at_ts (demo_at 102)).
Definition demo_named_found : SequenceMatch := Eval vm_compute in
  match demo_named_fed.2 with Ok (m :: _) => m | _ => SeqEval.mkMatch "" "" PNone "" [] end.
Definition demo_named_hit : seq_db * SequenceDetector := Eval vm_compute in
  ran (process_message demo_env 300 (demo_at 102) (Some demo_network) demo_named_ran.1 demo_named_ran.2).

Lemma long_name_loses_alerts_witness :
  process_message demo_env 300 (demo_at 102) (Some demo_network) demo_named_ran.1 demo_named_ran.2
    = Ok (demo_named_hit.1, demo_named_hit.2) ∧ demo_named_hit.1 = demo_named_ran.1.
Proof.
  split; [vm_compute; reflexivity|].
  apply (long_name_loses_alerts demo_env 300 (demo_at 102) demo_network demo_named_ran.1 demo_named_ran.2
    (demo_doc "network") demo_named_fed.1 [demo_named_found] demo_named_found (demo_srule 7 (letters 250) "two")
    demo_two demo_named_hit.1 demo_named_hit.2); try (vm_compute; reflexivity).
  - left.
  - vm_compute. lia.
Defined.
