(* ===== verification/ProcGraph.v ===== *)
(** * The process graph: which process started which

    workers/process_chain_indexer.py, services/process_graph.py,
    api/process_chain.py and models/process_chain.py: the indexer writes one row
    per observed process, and the recursive queries walk the parent links.

    A recursive query is a loop over levels.  Its recursion stops at depth 64, so
    64 rounds are enough whatever the table holds. *)

From Stdlib Require Import Ascii String Sorted.
From S2P Require Import Prelude PyStr PyVal PyJson PyTime Crypto PyText PyIso PyJsonRead Models.
From S2P Require Import AuditChain Scoping Jobs Fleet Response Detector.
Local Open Scope string_scope.
Local Open Scope list_scope.
Local Open Scope Z_scope.

(** ** Table *)

Record ProcessChain := mkProcess {
  pc_id : uuid;
  pc_tenant_id : uuid;
  pc_host_id : uuid;
  pc_pid : Z;
  pc_parent_pid : option Z;
  pc_exec_path : option str;
  pc_image_sha256 : option str;
  pc_command_line : option str;
  pc_started_at : datetime;
  pc_ended_at : option datetime;
  pc_created_at : datetime
}.

Record proc_db := mkProcDb { pd_detect : detect_db; pd_chain : list ProcessChain }.
Definition set_chain (l : list ProcessChain) (db : proc_db) : proc_db := mkProcDb (pd_detect db) l.

Definition set_ended (t : datetime) (r : ProcessChain) : ProcessChain :=
  mkProcess (pc_id r) (pc_tenant_id r) (pc_host_id r) (pc_pid r) (pc_parent_pid r) (pc_exec_path r)
    (pc_image_sha256 r) (pc_command_line r) (pc_started_at r) (Some t) (pc_created_at r).

(** ** Reading a document *)

(** [_parse_iso]: a naive timestamp is taken as UTC. *)
Definition parse_iso (v : pyval) : py (option datetime) :=
  match v with
  | PStr s =>
      if nonempty s then
        match fromisoformat (replace_char "Z" "+00:00" s) with
        | Ok (t, _) => Ok (Some t)
        | Err ValueError => Ok None
        | Err e => Err e
        end
      else Ok None
  | _ => Ok None
  end.

Definition extract_host_id (doc : dict) : py (option uuid) :=
  raw ← py_get "id" (sub "host" doc);
  if negb (truthy raw) then Ok None
  else match raw with PStr s => Ok (uuid_of_str s) | _ => Err AttributeError end.

(** An integer that is positive. *)
Definition positive_int (v : pyval) : option Z :=
  match as_int v with Some n => if 0 <? n then Some n else None | None => None end.

Definition extract_pid (proc : pyval) : py (option Z) := raw ← py_get "pid" proc; Ok (positive_int raw).

Definition or_parse (v : pyval) (k : py datetime) : py datetime :=
  t ← parse_iso v; match t with Some t => Ok t | None => k end.

Definition doc_started_at (now : datetime) (doc : dict) (proc : pyval) : py datetime :=
  start ← py_get "start" proc;
  created ← py_get "created" (sub "event" doc);
  or_parse start (or_parse created (or_parse (get_none "@timestamp" doc) (Ok now))).

(** What the driver accepts for an Integer and for a Text column. *)
Definition int4 (z : Z) : py Z := if (- 2 ^ 31 <=? z) && (z <? 2 ^ 31) then Ok z else Err DataError.
Definition opt_int4 (o : option Z) : py (option Z) :=
  match o with Some z => z ← int4 z; Ok (Some z) | None => Ok None end.
Definition text_value (v : pyval) : py (option str) :=
  match v with
  | PNone => Ok None
  | PStr s => if has_char (ascii_of_nat 0) s then Err DataError else Ok (Some s)
  | _ => Err DataError
  end.

Definition image_hash (v : pyval) : option str :=
  match v with
  | PStr s => if (String.length (lower s) =? 64)%nat then Some (lower s) else None
  | _ => None
  end.

(** ** The indexer *)

Definition same_start (host : uuid) (pid : Z) (t : datetime) (r : ProcessChain) : bool :=
  (pc_host_id r =? host) && (pc_pid r =? pid) && (pc_started_at r =? t).

(** [INSERT … ON CONFLICT (host_id, pid, started_at) DO NOTHING].  The host is a
    foreign key. *)
Definition insert_process (E : env) (host : uuid) (pid : Z) (parent : option Z) (exec sha cmd : option str)
    (started : datetime) (db : proc_db) : py proc_db :=
  if existsb (same_start host pid started) (pd_chain db) then Ok db
  else
    match find_host (dd_job (pd_detect db)) host with
    | None => Err IntegrityError
    | Some _ =>
        Ok (set_chain (pd_chain db ++
              [mkProcess (env_uuid4 E (length (pd_chain db))) DEFAULT_TENANT_ID host pid parent exec sha cmd
                 started None (env_now E)]) db)
    end.

Definition handle_process_started (E : env) (doc : dict) (db : proc_db) : py (proc_db * bool) :=
  host ← extract_host_id doc;
  match host with
  | None => Ok (db, false)
  | Some host =>
      let proc := sub "process" doc in
      pid ← extract_pid proc;
      match pid with
      | None => Ok (db, false)
      | Some pid =>
          parent_raw ← (x ← py_get_dict "parent" proc; py_get "pid" x);
          sha ← (x ← py_get_dict "hash" proc; py_get "sha256" x);
          started ← doc_started_at (env_now E) doc proc;
          exec ← py_get "executable" proc;
          cmd ← py_get "command_line" proc;
          pid ← int4 pid;
          parent ← opt_int4 (positive_int parent_raw);
          exec ← text_value exec;
          cmd ← text_value cmd;
          db ← insert_process E host pid parent exec (image_hash sha) cmd started db;
          Ok (db, true)
      end
  end.

(** The latest of the rows, the first of several that started together. *)
Fixpoint latest (rows : list ProcessChain) : option ProcessChain :=
  match rows with
  | [] => None
  | r :: rows =>
      match latest rows with
      | Some r' => if pc_started_at r <? pc_started_at r' then Some r' else Some r
      | None => Some r
      end
  end.

(** [WHERE host_id = … AND pid = … AND ended_at IS NULL] *)
Definition open_row (host : uuid) (pid : Z) (r : ProcessChain) : bool :=
  (pc_host_id r =? host) && (pc_pid r =? pid) && match pc_ended_at r with None => true | Some _ => false end.

Definition handle_process_exited (E : env) (doc : dict) (db : proc_db) : py (proc_db * bool) :=
  host ← extract_host_id doc;
  match host with
  | None => Ok (db, false)
  | Some host =>
      pid ← extract_pid (sub "process" doc);
      match pid with
      | None => Ok (db, false)
      | Some pid =>
          created ← py_get "created" (sub "event" doc);
          ended ← or_parse created (or_parse (get_none "@timestamp" doc) (Ok (env_now E)));
          pid ← int4 pid;
          match latest (List.filter (open_row host pid) (pd_chain db)) with
          | None => Ok (db, false)
          | Some row =>
              Ok (set_chain (map (λ r, if pc_id r =? pc_id row then set_ended ended r else r) (pd_chain db)) db, true)
          end
      end
  end.

Definition handle_doc (E : env) (doc : dict) (db : proc_db) : py (proc_db * bool) :=
  action ← py_get "action" (sub "event" doc);
  if py_eq action (PStr "process_started") then handle_process_started E doc db
  else if py_eq action (PStr "process_exited") then handle_process_exited E doc db
  else Ok (db, false).

(** One round of the consumer: what cannot be decoded or handled is logged and
    skipped, its transaction rolled back. *)
Definition skipped {A} (x : A) (e : pyexc) : py A :=
  if bool_decide (e = Unmodelled ∨ e = OutOfFuel) then Err e else Ok x.

Definition index_message (E : env) (value : option bytes) (db : proc_db) : py proc_db :=
  match value with
  | None => Ok db
  | Some b =>
      match json_loads_bytes b with
      | Err e => skipped db e
      | Ok (PDict doc) =>
          match handle_doc E doc db with Ok (db', _) => Ok db' | Err e => skipped db e end
      | Ok _ => Ok db
      end
  end.

(** The clock of each message. *)
Fixpoint index_messages (msgs : list (env * option bytes)) (db : proc_db) : py proc_db :=
  match msgs with [] => Ok db | (E, m) :: msgs => db ← index_message E m db; index_messages msgs db end.

(** ** Retention *)

(** [raw] is the environment variable, or the configured number as a string. *)
Definition retention_days (raw : str) (configured : Z) : Z :=
  match py_int raw with Some n => Z.max 1 n | None => configured end.

Definition sweep_retention (now : datetime) (days : Z) (db : proc_db) : proc_db * nat :=
  let cutoff := now - days * us_per_day in
  let kept := List.filter (λ r, negb (pc_started_at r <? cutoff)) (pd_chain db) in
  (set_chain kept db, (length (pd_chain db) - length kept)%nat).

(** ** Walking the graph *)

Definition MAX_DEPTH : nat := 64.

(** The join of the recursive part: [p] is a possible parent of [c]. *)
Definition parent_row (c p : ProcessChain) : bool :=
  (pc_host_id p =? pc_host_id c) && bool_decide (pc_parent_pid c = Some (pc_pid p)) &&
  (pc_started_at p <=? pc_started_at c).

(** The rows of a recursive query with their depths, level by level. *)
Fixpoint walk (rounds : nat) (depth : Z) (next : ProcessChain → list ProcessChain) (level : list ProcessChain) :
    list (ProcessChain * Z) :=
  map (λ r, (r, depth)) level ++
  match rounds with O => [] | S n => walk n (depth + 1) next (flat_map next level) end.

(** [SELECT DISTINCT ON (pid) … ORDER BY pid, started_at DESC] *)
Fixpoint newest (pid : Z) (rows : list (ProcessChain * Z)) : option (ProcessChain * Z) :=
  match rows with
  | [] => None
  | x :: rows =>
      if pc_pid x.1 =? pid then
        match newest pid rows with
        | Some y => if pc_started_at x.1 <? pc_started_at y.1 then Some y else Some x
        | None => Some x
        end
      else newest pid rows
  end.
Definition distinct_on_pid (rows : list (ProcessChain * Z)) : list (ProcessChain * Z) :=
  omap (λ pid, newest pid rows) (sort_by id (remove_dups (map (λ x, pc_pid x.1) rows))).

Definition ancestors (tbl : list ProcessChain) (host : uuid) (pid : Z) : list ProcessChain :=
  match latest (List.filter (λ r, (pc_host_id r =? host) && (pc_pid r =? pid)) tbl) with
  | None => []
  | Some r =>
      map fst (sort_by (λ x, - x.2)
        (distinct_on_pid (walk MAX_DEPTH 0 (λ c, List.filter (parent_row c) tbl) [r])))
  end.

Definition child_row (c p : ProcessChain) : bool :=
  (pc_host_id p =? pc_host_id c) && bool_decide (pc_parent_pid p = Some (pc_pid c)) &&
  (pc_started_at c <=? pc_started_at p).

(** [ORDER BY depth, started_at] *)
Definition descendants (tbl : list ProcessChain) (host : uuid) (pid : Z) : list ProcessChain :=
  map fst (sort_by snd (sort_by (λ x, pc_started_at x.1)
    (List.filter (λ x, 0 <? x.2)
       (walk MAX_DEPTH 0 (λ c, List.filter (child_row c) tbl)
          (List.filter (λ r, (pc_host_id r =? host) && (pc_pid r =? pid)) tbl))))).

Definition cross_host_lineage (tbl : list ProcessChain) (sha : str) (limit : nat) : list ProcessChain :=
  take limit (sort_by (λ r, - pc_started_at r) (List.filter (λ r, bool_decide (pc_image_sha256 r = Some sha)) tbl)).

(** ** Routes *)

Record ProcessChainResponse := mkResponse {
  rs_host_id : uuid;
  rs_pid : Z;
  rs_ancestors : list ProcessChain;
  rs_descendants : list ProcessChain
}.

Definition to_response (tbl : list ProcessChain) (host : uuid) (pid : Z) : ProcessChainResponse :=
  mkResponse host pid (ancestors tbl host pid) (descendants tbl host pid).

Definition pd_scope (db : proc_db) : scope_db := jd_scope (dd_job (pd_detect db)).

Definition host_process_chain (host : uuid) (pid : Z) (actor : Actor) (db : proc_db) : py ProcessChainResponse :=
  if negb (0 <? pid) then Err (HTTPException 422)
  else if negb (host_visible_to actor (Some host) (pd_scope db)) then Err (HTTPException 404)
  else Ok (to_response (pd_chain db) host pid).

Definition alert_trigger_pid (a : Alert) : option Z :=
  match al_details a with
  | None => None
  | Some details =>
      match get_none "pid" details with
      | PStr s => match py_int s with Some n => if 0 <? n then Some n else None | None => None end
      | v => positive_int v
      end
  end.

Definition alert_process_chain (id : uuid) (actor : Actor) (db : proc_db) : py ProcessChainResponse :=
  match List.find (λ a, al_id a =? id) (dd_alerts (pd_detect db)) with
  | None => Err (HTTPException 404)
  | Some a =>
      if negb (host_visible_to actor (al_host_id a) (pd_scope db)) then Err (HTTPException 404)
      else
        match al_host_id a with
        | None => Err (HTTPException 404)
        | Some host =>
            match alert_trigger_pid a with
            | None => Err (HTTPException 400)
            | Some pid => Ok (to_response (pd_chain db) host pid)
            end
        end
  end.

(** ** Sorting *)

Section sorting.
Context {A : Type} (key : A → Z).
Let R (x y : A) : Prop := key x ≤ key y.

Lemma insert_by_sorted x l : StronglySorted R l → StronglySorted R (insert_by key x l).
Proof.
  induction 1 as [|y l Hs IH Hy]; [repeat constructor|]. simpl. destruct (Z.leb_spec (key x) (key y)).
  - constructor; [by constructor|]. constructor; [done|]. eapply Forall_impl; [exact Hy|]. unfold R. intros; lia.
  - constructor; [done|]. rewrite insert_by_perm. constructor; [unfold R; lia|done].
Qed.

Lemma sort_by_sorted l : StronglySorted R (sort_by key l).
Proof. induction l; [constructor|]. by apply insert_by_sorted. Qed.

(** Sorting a permutation of a list with increasing keys gives that list. *)
Lemma sort_by_unique l l' : l ≡ₚ l' → StronglySorted (λ x y, key x < key y) l' → sort_by key l = l'.
Proof.
  intros Hp Hs. assert (sort_by key l ≡ₚ l') as Hp' by (by rewrite sort_by_perm). pose proof (sort_by_sorted l) as Hso.
  clear Hp. revert Hp' Hso. generalize (sort_by key l) as m. clear l. induction Hs as [|x l' Hs IH Hx]; intros m Hp Hso.
  { by apply Permutation_nil_r in Hp. }
  destruct m as [|y m]; [by apply Permutation_nil_l in Hp|]. apply StronglySorted_inv in Hso as [Hso Hy].
  assert (y = x) as ->.
  { assert (y ∈ x :: l') as Hin by (rewrite <- Hp; by left). apply elem_of_cons in Hin as [|Hin]; [done|].
    rewrite Forall_forall in Hx. pose proof (Hx y Hin). assert (x ∈ y :: m) as Hin' by (rewrite Hp; by left).
    apply elem_of_cons in Hin' as [|Hin']; [done|]. rewrite Forall_forall in Hy. specialize (Hy x Hin'). unfold R in Hy. lia. }
  f_equal. apply IH; [|done]. by apply Permutation_cons_inv in Hp.
Qed.
End sorting.

(** ** The lineage of a process *)

(** [p] started [c]: on the same host, under the pid that [c] names, not later. *)
Definition started (p c : ProcessChain) : Prop :=
  pc_host_id p = pc_host_id c ∧ pc_parent_pid c = Some (pc_pid p) ∧ pc_started_at p ≤ pc_started_at c.

(** The rows from the root to a process. *)
Inductive lineage (tbl : list ProcessChain) : ProcessChain → list ProcessChain → Prop :=
| lineage_root r : (∀ p, p ∈ tbl → ¬ started p r) → lineage tbl r [r]
| lineage_step r p l : p ∈ tbl → started p r → lineage tbl p l → lineage tbl r (l ++ [r]).

(** No pid of the host is used twice. *)
Definition no_reuse (tbl : list ProcessChain) (host : uuid) : Prop :=
  ∀ r r', r ∈ tbl → r' ∈ tbl → pc_host_id r = host → pc_host_id r' = host → pc_pid r = pc_pid r' → r = r'.

Lemma parent_row_spec c p : parent_row c p = true ↔ started p c.
Proof. unfold parent_row, started. rewrite !andb_true_iff, Z.eqb_eq, bool_decide_eq_true, Z.leb_le. tauto. Qed.

Lemma latest_elem rows r : latest rows = Some r → r ∈ rows.
Proof.
  revert r. induction rows as [|x rows IH]; intros r H; [done|]. simpl in H. destruct (latest rows) as [y|].
  - destruct (_ <? _); injection H as <-; [right; by apply IH|by left].
  - injection H as <-. by left.
Qed.

Lemma latest_some rows r : r ∈ rows → is_Some (latest rows).
Proof.
  destruct rows as [|x rows]; [by intros ?%elem_of_nil|]. intros _. simpl.
  destruct (latest rows); [destruct (_ <? _)|]; by eexists.
Qed.

(** A filter that one row of the table passes. *)
Lemma filter_unique {A} (P : A → bool) (l : list A) x :
  NoDup l → x ∈ l → P x = true → (∀ y, y ∈ l → P y = true → y = x) → List.filter P l = [x].
Proof.
  intros Hnd Hin Hx Hu. induction Hnd as [|z l Hz Hnd IH]; [by apply elem_of_nil in Hin|]. simpl.
  apply elem_of_cons in Hin as [<-|Hin].
  - rewrite Hx. f_equal. clear IH. induction l as [|y l IH]; [done|]. simpl. destruct (P y) eqn:Hy.
    + exfalso. apply Hz. rewrite (Hu y); [by left|right; by left|done].
    + apply IH; [by intros ?; apply Hz; right|by apply NoDup_cons in Hnd as [_ ?]|].
      intros w Hw. apply Hu. apply elem_of_cons in Hw as [->|]; [by left|right; by right].
  - destruct (P z) eqn:Hpz; [|apply IH; [done|intros y Hy; apply Hu; by right]].
    exfalso. apply Hz. rewrite (Hu z); [done|by left|done].
Qed.

Section unique.
Context (tbl : list ProcessChain) (host : uuid) (Hnd : NoDup tbl) (Hun : no_reuse tbl host).
Abbreviation parents := (λ c, List.filter (parent_row c) tbl).

Lemma walk_nil n d : walk n d parents [] = [].
Proof. revert d. induction n as [|n IH]; intros d; [done|]. simpl. apply IH. Qed.

Lemma walk_lineage r l n d :
  lineage tbl r l → pc_host_id r = host → (length l ≤ S n)%nat →
  walk n d parents [r] = imap (λ i x, (x, d + Z.of_nat i)) (reverse l).
Proof.
  intros Hl. revert n d. induction Hl as [r Hr|r p l Hp Hs Hl IH]; intros n d Hh Hn.
  - simpl. rewrite Z.add_0_r. f_equal. destruct n as [|n]; [done|]. simpl. rewrite app_nil_r.
    assert (List.filter (parent_row r) tbl = []) as ->; [|by rewrite walk_nil].
    apply elem_of_nil_inv. intros p [Hp Hs%parent_row_spec]%elem_of_filterb. by eapply Hr.
  - rewrite length_app in Hn. simpl in Hn. destruct n as [|n].
    { assert (length l = 0)%nat as H0 by lia. destruct l; [|done]. inversion Hl. by destruct l. }
    rewrite reverse_app. simpl. rewrite app_nil_r, Z.add_0_r. f_equal.
    assert (List.filter (parent_row r) tbl = [p]) as ->.
    { apply filter_unique; [done..|by apply parent_row_spec|]. intros y Hy (Hyh & Hyp & _)%parent_row_spec.
      destruct Hs as (Hph & Hpp & _). apply Hun; congruence. }
    rewrite IH by (lia || destruct Hs; congruence). apply imap_ext. intros i x _. simpl. f_equal. lia.
Qed.
End unique.

Lemma newest_unique rows x :
  NoDup (map (λ x, pc_pid x.1) rows) → x ∈ rows → newest (pc_pid x.1) rows = Some x.
Proof.
  induction rows as [|y rows IH]; intros Hnd Hin; [by apply elem_of_nil in Hin|]. simpl in *.
  apply NoDup_cons in Hnd as [Hy Hnd]. apply elem_of_cons in Hin as [->|Hin].
  - rewrite Z.eqb_refl. destruct (newest (pc_pid y.1) rows) as [z|] eqn:Hz; [|done]. exfalso. apply Hy.
    clear -Hz. induction rows as [|w rows IH]; [done|]. simpl in *. destruct (Z.eqb_spec (pc_pid w.1) (pc_pid y.1)) as [He|].
    + rewrite <- He. left.
    + right. by apply IH.
  - destruct (Z.eqb_spec (pc_pid y.1) (pc_pid x.1)) as [He|]; [|by apply IH]. exfalso. apply Hy. rewrite He.
    apply list_elem_of_fmap. by exists x.
Qed.

Lemma distinct_on_unique rows : NoDup (map (λ x, pc_pid x.1) rows) → distinct_on_pid rows ≡ₚ rows.
Proof.
  intros Hnd. unfold distinct_on_pid.
  assert (sort_by id (remove_dups (map (λ x, pc_pid x.1) rows)) ≡ₚ map (λ x, pc_pid x.1) rows) as Hp.
  { rewrite sort_by_perm. apply NoDup_Permutation; [apply NoDup_remove_dups|done|]. intros x. apply elem_of_remove_dups. }
  rewrite Hp. clear Hp. assert (∀ sub, (∀ x, x ∈ sub → x ∈ rows) → omap (λ pid, newest pid rows) (map (λ x, pc_pid x.1) sub) = sub) as H.
  { induction sub as [|x sub IH]; intros Hsub; [done|]. cbn [map omap list_omap]. rewrite newest_unique by (try done; apply Hsub; by left).
    f_equal. apply IH. intros y Hy. apply Hsub. by right. }
  by rewrite H.
Qed.

(** ** What the indexer keeps *)

(** The key of the table, over all hosts. *)
Definition start_key (r : ProcessChain) : uuid * Z * datetime := (pc_host_id r, pc_pid r, pc_started_at r).

(** The indexer adds rows and sets the end of rows, and nothing else. *)
Inductive chain_grows : list ProcessChain → list ProcessChain → Prop :=
| grows_refl l : chain_grows l l
| grows_add l l' r : start_key r ∉ map start_key l' → chain_grows l l' → chain_grows l (l' ++ [r])
| grows_end l l' id t : chain_grows l l' → chain_grows l (map (λ r, if pc_id r =? id then set_ended t r else r) l').

Lemma keys_end id t l : map start_key (map (λ r, if pc_id r =? id then set_ended t r else r) l) = map start_key l.
Proof. rewrite map_map. apply map_ext. intros r. by destruct (_ =? _). Qed.

Lemma grows_trans l1 l2 l3 : chain_grows l1 l2 → chain_grows l2 l3 → chain_grows l1 l3.
Proof. intros H12 H23. induction H23; eauto using chain_grows. Qed.

Lemma grows_keys l l' k : chain_grows l l' → k ∈ map start_key l → k ∈ map start_key l'.
Proof.
  induction 1 as [|l l' r _ _ IH|l l' id t _ IH]; intros Hk; [done| |by rewrite keys_end; auto].
  rewrite map_app. apply elem_of_app. left. auto.
Qed.

Lemma grows_NoDup l l' : chain_grows l l' → NoDup (map start_key l) → NoDup (map start_key l').
Proof.
  induction 1 as [|l l' r Hr _ IH|l l' id t _ IH]; intros Hnd; [done| |by rewrite keys_end; auto].
  rewrite map_app. apply NoDup_app. split_and!; [auto| |apply NoDup_singleton].
  intros k Hk ->%list_elem_of_singleton. done.
Qed.

Lemma same_start_key host pid t r : same_start host pid t r = true ↔ start_key r = (host, pid, t).
Proof. unfold same_start, start_key. rewrite !andb_true_iff, !Z.eqb_eq. split; [intros [[-> ->] ->]|intros [= -> -> ->]]; done. Qed.

Lemma existsb_key host pid t l : existsb (same_start host pid t) l = true ↔ (host, pid, t) ∈ map start_key l.
Proof.
  rewrite existsb_exists. setoid_rewrite same_start_key. setoid_rewrite <- list_elem_of_In. rewrite list_elem_of_fmap.
  split; intros (r & H); exists r; naive_solver.
Qed.

Lemma insert_grows E host pid parent exec sha cmd t db db' :
  insert_process E host pid parent exec sha cmd t db = Ok db' →
  chain_grows (pd_chain db) (pd_chain db') ∧ pd_detect db' = pd_detect db ∧ (host, pid, t) ∈ map start_key (pd_chain db').
Proof.
  unfold insert_process. destruct (existsb _ _) eqn:Hx.
  - intros [= <-]. split_and!; [constructor|done|by apply existsb_key].
  - destruct (find_host _ _); [|done]. intros [= <-]. simpl. split_and!; [|done|].
    + apply grows_add; [|constructor]. intros Hk. apply not_true_iff_false in Hx. by apply Hx, existsb_key.
    + rewrite map_app. apply elem_of_app. right. by left.
Qed.

Lemma insert_again E host pid parent exec sha cmd t db :
  (host, pid, t) ∈ map start_key (pd_chain db) → insert_process E host pid parent exec sha cmd t db = Ok db.
Proof. intros H%existsb_key. unfold insert_process. by rewrite H. Qed.

Lemma handle_started_again E doc db db1 :
  handle_process_started E doc db = Ok (db1, true) →
  ∃ host pid t, doc_started_at (env_now E) doc (sub "process" doc) = Ok t ∧ (host, pid, t) ∈ map start_key (pd_chain db1) ∧
    ∀ E' db2, doc_started_at (env_now E') doc (sub "process" doc) = Ok t → (host, pid, t) ∈ map start_key (pd_chain db2) →
      handle_process_started E' doc db2 = Ok (db2, true).
Proof.
  unfold handle_process_started. destruct (extract_host_id doc) as [[host|]|]; try done. cbn [mbind res_bind].
  destruct (extract_pid _) as [[pid0|]|]; try done. cbn [mbind res_bind].
  destruct (x ← py_get_dict "parent" _; _) as [parent_raw|]; [|done]. cbn [mbind res_bind].
  destruct (x ← py_get_dict "hash" _; _) as [sha|]; [|done]. cbn [mbind res_bind]. intros H.
  apply res_bind_ok in H as (t & Ht & H). destruct (py_get "executable" _) as [exec0|]; [|done]. cbn [mbind res_bind] in *.
  destruct (py_get "command_line" _) as [cmd0|]; [|done]. cbn [mbind res_bind] in *.
  destruct (int4 pid0) as [pid|]; [|done]. cbn [mbind res_bind] in *. destruct (opt_int4 _) as [parent|]; [|done].
  cbn [mbind res_bind] in *. destruct (text_value exec0) as [exec|]; [|done]. cbn [mbind res_bind] in *.
  destruct (text_value cmd0) as [cmd|]; [|done]. cbn [mbind res_bind] in *.
  apply res_bind_ok in H as (db' & Hi & H). injection H as <-. apply insert_grows in Hi as (_ & _ & Hk).
  exists host, pid, t. split_and!; [done..|]. intros E' db2 -> Hk2. cbn [mbind res_bind]. by rewrite insert_again.
Qed.

Lemma handle_doc_grows E doc db db' b :
  handle_doc E doc db = Ok (db', b) → chain_grows (pd_chain db) (pd_chain db') ∧ pd_detect db' = pd_detect db.
Proof.
  unfold handle_doc. intros H. apply res_bind_ok in H as (action & _ & H).
  destruct (py_eq action _); [|destruct (py_eq action _); [|injection H as <- _; split; [constructor|done]]].
  - unfold handle_process_started in H. apply res_bind_ok in H as ([host|] & _ & H); [|injection H as <- _; split; [constructor|done]].
    apply res_bind_ok in H as ([pid|] & _ & H); [|injection H as <- _; split; [constructor|done]].
    do 9 (apply res_bind_ok in H as (? & _ & H)). apply res_bind_ok in H as (db1 & Hi & H). injection H as <- _.
    apply insert_grows in Hi. naive_solver.
  - unfold handle_process_exited in H. apply res_bind_ok in H as ([host|] & _ & H); [|injection H as <- _; split; [constructor|done]].
    apply res_bind_ok in H as ([pid|] & _ & H); [|injection H as <- _; split; [constructor|done]].
    do 3 (apply res_bind_ok in H as (? & _ & H)). destruct (latest _); injection H as <- _; (split; [|done]); repeat constructor.
Qed.

Lemma index_grows E value db db' :
  index_message E value db = Ok db' → chain_grows (pd_chain db) (pd_chain db') ∧ pd_detect db' = pd_detect db.
Proof.
  assert (∀ e, skipped db e = Ok db' → db' = db) as Hs by (intros e; unfold skipped; by destruct (bool_decide _); intros [= <-]).
  unfold index_message. destruct value as [b|]; [|intros [= <-]; split; [constructor|done]].
  destruct (json_loads_bytes b) as [v|e]; [|intros ->%Hs; split; [constructor|done]].
  destruct v; try (intros [= <-]; split; [constructor|done]).
  destruct (handle_doc E d db) as [[db1 r]|e] eqn:Hd; [|intros ->%Hs; split; [constructor|done]].
  intros [= <-]. by apply handle_doc_grows in Hd.
Qed.

Lemma index_messages_grow msgs db db' : index_messages msgs db = Ok db' → chain_grows (pd_chain db) (pd_chain db').
Proof.
  revert db. induction msgs as [|[E m] msgs IH]; intros db H; simpl in H; [injection H as <-; constructor|].
  apply res_bind_ok in H as (db1 & H1 & H). eapply grows_trans; [by apply index_grows in H1 as [? _]|by apply IH].
Qed.

(** ** The rows of a walk *)

Lemma walk_all (P : ProcessChain → Prop) n d next level x :
  (∀ c p, P c → p ∈ next c → P p) → Forall P level → x ∈ walk n d next level → P x.1.
Proof.
  intros Hnext. revert d level. induction n as [|n IH]; intros d level Hl Hx; simpl in Hx.
  - rewrite app_nil_r in Hx. apply list_elem_of_fmap in Hx as (r & -> & Hr). rewrite Forall_forall in Hl. by apply Hl.
  - apply elem_of_app in Hx as [Hx|Hx].
    + apply list_elem_of_fmap in Hx as (r & -> & Hr). rewrite Forall_forall in Hl. by apply Hl.
    + eapply IH; [|done]. apply Forall_forall. intros p Hp. apply list_elem_of_In, in_flat_map in Hp as (c & Hc & Hp).
      rewrite Forall_forall in Hl. eapply Hnext; [apply Hl|]; by apply list_elem_of_In.
Qed.

Lemma newest_elem pid rows x : newest pid rows = Some x → x ∈ rows.
Proof.
  revert x. induction rows as [|y rows IH]; intros x H; [done|]. simpl in H. destruct (_ =? _); [|right; by apply IH].
  destruct (newest pid rows) as [z|]; [|injection H as <-; by left].
  destruct (_ <? _); injection H as <-; [right; by apply IH|by left].
Qed.

Lemma ancestors_host tbl host pid r : r ∈ ancestors tbl host pid → r ∈ tbl ∧ pc_host_id r = host.
Proof.
  unfold ancestors. destruct (latest _) as [s|] eqn:Hs; [|by intros ?%elem_of_nil].
  apply latest_elem, elem_of_filterb in Hs as [Hin Hs]. apply andb_true_iff in Hs as [Hh%Z.eqb_eq _].
  intros (x & -> & Hx)%list_elem_of_fmap. rewrite sort_by_perm in Hx.
  apply list_elem_of_omap in Hx as (p & _ & Hx%newest_elem).
  apply (walk_all (λ r, r ∈ tbl ∧ pc_host_id r = host)) in Hx; [done| |by apply Forall_singleton].
  intros c p' [_ Hc] [Hp (Hph & _)%parent_row_spec]%elem_of_filterb. split; [done|congruence].
Qed.

Lemma descendants_host tbl host pid r : r ∈ descendants tbl host pid → r ∈ tbl ∧ pc_host_id r = host.
Proof.
  unfold descendants. intros (x & -> & Hx)%list_elem_of_fmap. rewrite !sort_by_perm in Hx. apply elem_of_filterb in Hx as [Hx _].
  apply (walk_all (λ r, r ∈ tbl ∧ pc_host_id r = host)) in Hx; [done| |].
  - intros c p [_ Hc] [Hp Hr]%elem_of_filterb. unfold child_row in Hr. rewrite !andb_true_iff, Z.eqb_eq in Hr.
    split; [done|]. destruct Hr as [[-> _] _]. done.
  - apply Forall_forall. intros y [Hy Hr]%elem_of_filterb. apply andb_true_iff in Hr as [Hr%Z.eqb_eq _]. done.
Qed.

Lemma imap_fst {A} (f : nat → Z) (l : list A) : map fst (imap (λ i x, (x, f i)) l) = l.
Proof. revert f. induction l as [|x l IH]; intros f; [done|]. simpl. f_equal. apply (IH (f ∘ S)). Qed.

Lemma imap_sorted {A} (l : list A) d :
  StronglySorted (λ x y : A * Z, - x.2 < - y.2) (reverse (imap (λ i x, (x, d + Z.of_nat i)) l)).
Proof.
  revert d. induction l as [|x l IH]; intros d; [constructor|]. simpl.
  replace (imap _ l) with (imap (λ i x, (x, d + 1 + Z.of_nat i)) l)
    by (apply imap_ext; intros i y _; simpl; f_equal; lia).
  rewrite reverse_cons. apply StronglySorted_snoc; [apply IH|]. apply Forall_reverse, Forall_forall.
  intros [y e] (i & y' & [= -> ->] & _)%elem_of_lookup_imap. simpl. lia.
Qed.

(** ** Properties *)

(** C22: on a host whose pids are not reused, the ancestors of a process are its
    lineage.  Whatever the table holds, when the parent links lead from the
    process to a root through at most 65 processes with different pids, the query
    returns exactly these rows, the root first and the process last. *)
Theorem ancestors_are_lineage tbl r l :
  NoDup tbl → no_reuse tbl (pc_host_id r) → r ∈ tbl → lineage tbl r l →
  NoDup (map pc_pid l) → (length l ≤ 65)%nat →
  ancestors tbl (pc_host_id r) (pc_pid r) = l.
Proof.
  intros Hnd Hun Hr Hl Hpids Hlen. unfold ancestors.
  assert (List.filter (λ x, (pc_host_id x =? pc_host_id r) && (pc_pid x =? pc_pid r)) tbl = [r]) as ->.
  { apply filter_unique; [done..|by rewrite !Z.eqb_refl|]. intros y Hy [Hh%Z.eqb_eq Hp%Z.eqb_eq]%andb_true_iff. by apply Hun. }
  cbn [latest]. rewrite (walk_lineage tbl (pc_host_id r) Hnd Hun r l) by done.
  set (W := imap _ _). assert (map fst W = reverse l) as Hfst by apply (imap_fst (λ i, 0 + Z.of_nat i)).
  rewrite (sort_by_unique _ _ (reverse W)); [|rewrite distinct_on_unique; [by rewrite reverse_Permutation|]|apply imap_sorted].
  - change (map fst (reverse W)) with (fst <$> reverse W). rewrite fmap_reverse. change (fst <$> W) with (map fst W).
    by rewrite Hfst, reverse_involutive.
  - rewrite <- (map_map fst pc_pid), Hfst. change (map pc_pid (reverse l)) with (pc_pid <$> reverse l).
    by rewrite fmap_reverse, reverse_Permutation.
Qed.

(** A shell on a reused pid: 4000 was a service of root process 1 before it was the
    shell that started the editor. *)
Definition demo_proc (id pid : Z) (parent : option Z) (t : datetime) : ProcessChain :=
  mkProcess id 1 100 pid parent None None None t None 0.
Definition demo_reused : list ProcessChain :=
  [demo_proc 1 1 None 0; demo_proc 2 700 (Some 1) 10; demo_proc 3 4000 (Some 700) 20;
   demo_proc 4 900 None 30; demo_proc 5 4000 (Some 900) 40; demo_proc 6 5000 (Some 4000) 50].

(** When a pid is reused, the ancestors mix lineages: the query joins every
    earlier process that had the pid of a parent, so a process is reported as an
    ancestor although the parent that is reported did not descend from it. *)
Theorem pid_reuse_mixes_lineages :
  let editor := demo_proc 6 5000 (Some 4000) 50 in
  let shell := demo_proc 5 4000 (Some 900) 40 in
  lineage demo_reused editor [demo_proc 4 900 None 30; shell; editor] ∧
  ancestors demo_reused 100 5000 =
    [demo_proc 1 1 None 0; demo_proc 2 700 (Some 1) 10; demo_proc 4 900 None 30; shell; editor].
Proof.
  split; [|vm_compute; reflexivity].
  apply (lineage_step _ _ (demo_proc 5 4000 (Some 900) 40) [_; _]); [by repeat constructor|by repeat constructor|].
  apply (lineage_step _ _ (demo_proc 4 900 None 30) [_]); [by repeat constructor|by repeat constructor|].
  apply lineage_root. intros p _ (_ & H & _). done.
Qed.

(** Redelivered starts collapse.  Once a [process_started] document that
    carries a readable timestamp was indexed, then after any further messages
    indexing it again changes nothing, at whatever time it comes. *)
Theorem redelivery_collapses E E' b doc t msgs db db1 db2 :
  json_loads_bytes b = Ok (PDict doc) → py_get "action" (sub "event" doc) = Ok (PStr "process_started") →
  (∀ now, doc_started_at now doc (sub "process" doc) = Ok t) →
  handle_doc E doc db = Ok (db1, true) → index_messages msgs db1 = Ok db2 →
  index_message E' (Some b) db2 = Ok db2.
Proof.
  intros Hb Ha Ht H Hm. unfold index_message. rewrite Hb. unfold handle_doc in *. rewrite Ha in *. cbn [mbind res_bind] in *.
  replace (py_eq (PStr "process_started") (PStr "process_started")) with true in * by reflexivity.
  destruct (handle_started_again _ _ _ _ H) as (host & pid & t' & Ht' & Hk & Hagain). rewrite Ht in Ht'. injection Ht' as <-.
  rewrite (Hagain E' db2); [done|apply Ht|]. eapply grows_keys; [by eapply index_messages_grow|done].
Qed.

(** The lineage routes answer only for hosts the caller may see, and with rows of
    that host only. *)
Theorem lineage_stays_visible actor db resp :
  (∃ host pid, host_process_chain host pid actor db = Ok resp) ∨ (∃ id, alert_process_chain id actor db = Ok resp) →
  host_visible_to actor (Some (rs_host_id resp)) (pd_scope db) = true ∧
  ∀ r, r ∈ rs_ancestors resp ++ rs_descendants resp → r ∈ pd_chain db ∧ pc_host_id r = rs_host_id resp.
Proof.
  assert (∀ host pid r, r ∈ rs_ancestors (to_response (pd_chain db) host pid) ++ rs_descendants (to_response (pd_chain db) host pid) →
    r ∈ pd_chain db ∧ pc_host_id r = host) as Hr.
  { intros host pid r [H|H]%elem_of_app; [exact (ancestors_host _ _ pid _ H)|exact (descendants_host _ _ pid _ H)]. }
  intros [(host & pid & H)|(id & H)].
  - unfold host_process_chain in H. destruct (negb _); [done|].
    destruct (host_visible_to _ _ _) eqn:Hv; [|done]. injection H as <-. split; [done|]. apply Hr.
  - unfold alert_process_chain in H. destruct (List.find _ _) as [a|]; [|done].
    destruct (host_visible_to _ _ _) eqn:Hv; [|done]. simpl in H. destruct (al_host_id a) as [host|]; [|done].
    destruct (alert_trigger_pid a); [|done]. injection H as <-. split; [done|]. apply Hr.
Qed.

(** A service manager, a shell and an editor. *)
Definition demo_tree : list ProcessChain :=
  [demo_proc 1 1 None 0; demo_proc 2 700 (Some 1) 10; demo_proc 3 4000 (Some 700) 20].

Lemma ancestors_are_lineage_witness : ancestors demo_tree 100 4000 = demo_tree.
Proof.
  apply (ancestors_are_lineage demo_tree (demo_proc 3 4000 (Some 700) 20) demo_tree).
  - apply (NoDup_fmap_1 pc_pid). apply (bool_decide_unpack (NoDup (pc_pid <$> demo_tree))). vm_compute. exact I.
  - intros r r' Hr Hr' _ _. unfold demo_tree in Hr, Hr'. set_unfold in Hr. set_unfold in Hr'.
    destruct Hr as [-> | [-> | [-> |[]]]], Hr' as [-> | [-> | [-> |[]]]]; vm_compute; try done.
  - right. right. left.
  - apply (lineage_step _ _ (demo_proc 2 700 (Some 1) 10) [_; _]); [by repeat constructor|by repeat constructor|].
    apply (lineage_step _ _ (demo_proc 1 1 None 0) [_]); [by repeat constructor|by repeat constructor|].
    apply lineage_root. intros p _ (_ & H & _). discriminate H.
  - apply (bool_decide_unpack (NoDup (map pc_pid demo_tree))). vm_compute. exact I.
  - simpl. lia.
Defined.

Definition demo_start_doc : dict :=
  [("@timestamp", PStr "2024-05-13T10:00:00Z"); ("event", PDict [("action", PStr "process_started")]);
   ("host", PDict [("id", PStr (uuid_str 100))]);
   ("process", PDict [("executable", PStr "/bin/sh"); ("parent", PDict [("pid", PInt 700)]); ("pid", PInt 4000)])].
Definition demo_start_bytes : bytes := Eval vm_compute in utf8 (json_canonical (PDict demo_start_doc)).
Definition demo_next : env := mkEnv Z.of_nat 1800000000000000 None.
Definition demo_proc_db : proc_db := mkProcDb demo_detect_db [].
Definition demo_indexed : proc_db := Eval vm_compute in
  match handle_doc demo_env demo_start_doc demo_proc_db with Ok (db, _) => db | Err _ => demo_proc_db end.

Lemma redelivery_collapses_witness :
  length (pd_chain demo_indexed) = 1%nat ∧
  index_message demo_next (Some demo_start_bytes) demo_indexed = Ok demo_indexed.
Proof.
  split; [reflexivity|].
  apply (redelivery_collapses demo_env demo_next demo_start_bytes demo_start_doc 1715594400000000 [] demo_proc_db
    demo_indexed demo_indexed); try (vm_compute; reflexivity).
Defined.

Lemma lineage_stays_visible_witness :
  ∃ resp, host_process_chain 100 4000 (demo_admin 1) demo_indexed = Ok resp ∧
  host_visible_to (demo_admin 1) (Some (rs_host_id resp)) (pd_scope demo_indexed) = true ∧
  (∀ r, r ∈ rs_ancestors resp ++ rs_descendants resp → r ∈ pd_chain demo_indexed ∧ pc_host_id r = rs_host_id resp).
Proof.
  destruct (host_process_chain 100 4000 (demo_admin 1) demo_indexed) as [resp|] eqn:H; [|vm_compute in H; discriminate H].
  exists resp. split; [reflexivity|]. apply lineage_stays_visible. left. by exists 100, 4000.
Defined.
