(* ===== verification/Cases.v ===== *)
(** * Cases: mirroring alerts into Jira and ServiceNow

    services/case_management.py, services/case/jira.py and servicenow.py,
    services/encryption.py, workers/case_sync.py, api/case_destinations.py and
    models/case_destination.py.  The tracker behind the HTTP client and Fernet are
    arguments of the definitions that use them. *)

From Stdlib Require Import Ascii String.
From S2P Require Import Prelude PyStr PyVal PyJson PyTime Crypto PyText PyJsonRead Models AuditChain Rollout.
From S2P Require Import Scoping Jobs Commands Fleet Routing Response.
Local Open Scope string_scope.
Local Open Scope list_scope.
Local Open Scope Z_scope.

(** ** Tables *)

Inductive CaseDestinationKind := JIRA | SERVICENOW.
#[global] Instance CaseDestinationKind_eq_dec : EqDecision CaseDestinationKind.
Proof. solve_decision. Defined.
Definition CaseDestinationKind_value (k : CaseDestinationKind) : str :=
  match k with JIRA => "jira" | SERVICENOW => "servicenow" end.

Inductive CaseSyncState := CS_OPEN | CS_IN_PROGRESS | CS_RESOLVED | CS_CLOSED | CS_FAILED.
#[global] Instance CaseSyncState_eq_dec : EqDecision CaseSyncState.
Proof. solve_decision. Defined.

Record CaseDestination := mkDestination {
  cd_id : uuid;
  cd_kind : CaseDestinationKind;
  cd_name : str;
  cd_config_encrypted : bytes;
  cd_enabled : bool;
  cd_created_at : datetime
}.

Record CaseLink := mkLink {
  cl_id : uuid;
  cl_alert_id : uuid;
  cl_destination_id : uuid;
  cl_external_id : str;
  cl_external_url : option str;
  cl_last_synced_at : option datetime;
  cl_sync_state : CaseSyncState;
  cl_error : option str;
  cl_created_at : datetime
}.

Record case_db := mkCaseDb {
  cs_detect : detect_db;
  cs_destinations : list CaseDestination;
  cs_links : list CaseLink
}.

Definition set_links (l : list CaseLink) (db : case_db) : case_db := mkCaseDb (cs_detect db) (cs_destinations db) l.
Definition set_destinations (l : list CaseDestination) (db : case_db) : case_db :=
  mkCaseDb (cs_detect db) l (cs_links db).

(** ** The configuration blob (services/encryption.py) *)

Module Encryption.
Definition encrypt_config (F : fernet) (plaintext : dict) : bytes :=
  fernet_encrypt F (utf8 (json_canonical (PDict plaintext))).

Definition decrypt_config (F : fernet) (blob : bytes) : py pyval :=
  match fernet_decrypt F blob with
  | None => Err (RuntimeError "stored config could not be decrypted; VIGIL_NOTIFICATION_ENCRYPTION_KEY may have been rotated")
  | Some plain => json_loads_bytes plain
  end.
End Encryption.

(** ** The trackers *)

Inductive http_method := GET | POST.
Record http_request := mkHttpRequest {
  hr_method : http_method;
  hr_url : str;
  hr_auth : str * str;
  hr_json : option pyval;
  hr_params : list (str * str)
}.
Record http_response := mkHttpResponse { rs_status_code : Z; rs_text : str; rs_json : py pyval }.

(** How a request ends: an [httpx.HTTPError] with its text, another exception of
    the client (an invalid URL), or a response. *)
Inductive http_answer := HTTPError (text : str) | Raised (exc : pyexc) | Response (resp : http_response).

(** What the tracker answers to the request made for a row: the destination when
    an issue is opened, the link when it is polled. *)
Definition tracker : Type := uuid → http_request → http_answer.

(** [async with httpx.AsyncClient(…)] with its [except httpx.HTTPError]. *)
Definition send (what : str) (answer : http_answer) : py http_response :=
  match answer with
  | HTTPError text => Err (CaseSyncError (what +:+ " request failed: " +:+ text) true)
  | Raised exc => Err exc
  | Response resp => Ok resp
  end.

Definition check_response (what : str) (resp : http_response) : py unit :=
  let status := rs_status_code resp in
  if (500 <=? status) || (status =? 429) then
    Err (CaseSyncError (what +:+ " transient error " +:+ str_of_Z status +:+ ": " +:+ take_str 200 (rs_text resp)) true)
  else if 400 <=? status then
    Err (CaseSyncError (what +:+ " rejected " +:+ str_of_Z status +:+ ": " +:+ take_str 200 (rs_text resp)) false)
  else Ok tt.

(** [[k for k in keys if not config.get(k)]] *)
Definition missing_fields (keys : list str) (config : dict) : list str :=
  List.filter (λ k, negb (truthy (get_none k config))) keys.

(** [str(config[k])] of a key that is present. *)
Definition field (k : str) (config : dict) : str := py_str (get_none k config).

Definition or_str (s other : str) : str := if nonempty s then s else other.

Module Jira.
Definition DEFAULT_ISSUE_TYPE : str := "Task".
Definition CREATE_PATH : str := "/rest/api/3/issue".

Definition required_fields : list str := ["base_url"; "email"; "api_token"; "project_key"].
Definition required (config : pyval) : py (str * str * str * str * str) :=
  d ← of_option AttributeError (as_dict config);
  match missing_fields required_fields d with
  | [] =>
      Ok (rstrip_by (Ascii.eqb "/") (field "base_url" d), field "email" d, field "api_token" d,
          field "project_key" d, py_str (py_or (get_none "issue_type" d) (PStr DEFAULT_ISSUE_TYPE)))
  | missing => Err (CaseSyncError ("jira destination missing config fields: " +:+ join "," missing) false)
  end.

Definition paragraph (line : str) : pyval :=
  PDict [("type", PStr "paragraph");
         ("content", PList (if nonempty line then [PDict [("type", PStr "text"); ("text", PStr line)]] else []))].

Definition alert_to_description (a : Alert) : pyval :=
  let lines := ["Vigil alert " +:+ uuid_str (al_id a); "Severity: " +:+ Severity_value (al_severity a);
                "State: " +:+ AlertState_value (al_state a); "Opened: " +:+ isoformat (al_opened_at a)] in
  let lines := if nonempty (al_summary a) then lines ++ [""; al_summary a] else lines in
  PDict [("type", PStr "doc"); ("version", PInt 1); ("content", PList (map paragraph lines))].

Definition create_issue (T : http_request → http_answer) (config : pyval) (a : Alert) : py (str * str) :=
  fields ← required config;
  let '(base_url, email, api_token, project_key, issue_type) := fields in
  let summary := take_str 255 (or_str (al_summary a) ("Vigil alert " +:+ uuid_str (al_id a))) in
  let body := PDict [("fields", PDict [("project", PDict [("key", PStr project_key)]); ("summary", PStr summary);
                                       ("issuetype", PDict [("name", PStr issue_type)]);
                                       ("description", alert_to_description a)])] in
  resp ← send "jira create" (T (mkHttpRequest POST (base_url +:+ CREATE_PATH) (email, api_token) (Some body) []));
  _ ← check_response "jira create" resp;
  data ← rs_json resp;
  key ← py_get "key" data;
  match key with
  | PStr k => if nonempty k then Ok (k, base_url +:+ "/browse/" +:+ k)
              else Err (CaseSyncError "jira create returned no issue key" false)
  | _ => Err (CaseSyncError "jira create returned no issue key" false)
  end.

Definition map_category (category : pyval) : CaseSyncState :=
  match category with
  | PStr c => if String.eqb c "done" then CS_CLOSED
              else if String.eqb c "indeterminate" then CS_IN_PROGRESS else CS_OPEN
  | _ => CS_OPEN
  end.

Definition fetch_status (T : http_request → http_answer) (config : pyval) (external_id : str) : py CaseSyncState :=
  fields ← required config;
  let '(base_url, email, api_token, _, _) := fields in
  resp ← send "jira fetch" (T (mkHttpRequest GET (base_url +:+ CREATE_PATH +:+ "/" +:+ external_id) (email, api_token)
                                 None [("fields", "status")]));
  if rs_status_code resp =? 404 then Ok CS_CLOSED
  else
    _ ← check_response "jira fetch" resp;
    data ← rs_json resp;
    fields ← py_get_dict "fields" (py_or data (PDict []));
    status ← py_get_dict "status" fields;
    category ← py_get_dict "statusCategory" status;
    key ← py_get "key" category;
    Ok (map_category key).
End Jira.

Module ServiceNow.
Definition CREATE_PATH : str := "/api/now/table/incident".

Definition IMPACT_BY_SEVERITY (s : Severity) : Z :=
  match s with CRITICAL | HIGH => 1 | MEDIUM => 2 | LOW | INFO => 3 end.

Definition STATE_BY_CODE : list (str * CaseSyncState) :=
  [("1", CS_OPEN); ("2", CS_IN_PROGRESS); ("3", CS_IN_PROGRESS); ("4", CS_IN_PROGRESS); ("5", CS_IN_PROGRESS);
   ("6", CS_RESOLVED); ("7", CS_CLOSED); ("8", CS_CLOSED)].

Definition required_fields : list str := ["instance_url"; "username"; "password"].
Definition required (config : pyval) : py (str * str * str) :=
  d ← of_option AttributeError (as_dict config);
  match missing_fields required_fields d with
  | [] => Ok (rstrip_by (Ascii.eqb "/") (field "instance_url" d), field "username" d, field "password" d)
  | missing => Err (CaseSyncError ("servicenow destination missing config fields: " +:+ join "," missing) false)
  end.

(** [if config.get(k): body[k] = config[k]] *)
Definition copy_field (k : str) (config body : dict) : dict :=
  if truthy (get_none k config) then body ++ [(k, get_none k config)] else body.

Definition build_body (a : Alert) (config : dict) : dict :=
  let lines := ["Vigil alert " +:+ uuid_str (al_id a); "Severity: " +:+ Severity_value (al_severity a);
                "State:    " +:+ AlertState_value (al_state a); "Opened:   " +:+ isoformat (al_opened_at a)] in
  let lines := if nonempty (al_summary a) then lines ++ [""; al_summary a] else lines in
  copy_field "assignment_group" config (copy_field "caller_id" config
    [("short_description", PStr (take_str 160 (or_str (al_summary a) ("Vigil alert " +:+ uuid_str (al_id a)))));
     ("description", PStr (join (String newline "") lines));
     ("impact", PInt (IMPACT_BY_SEVERITY (al_severity a)));
     ("urgency", PInt (IMPACT_BY_SEVERITY (al_severity a)))]).

Definition create_issue (T : http_request → http_answer) (config : pyval) (a : Alert) : py (str * str) :=
  fields ← required config;
  let '(instance_url, username, password) := fields in
  d ← of_option AttributeError (as_dict config);
  resp ← send "servicenow create" (T (mkHttpRequest POST (instance_url +:+ CREATE_PATH) (username, password)
                                        (Some (PDict (build_body a d))) []));
  _ ← check_response "servicenow create" resp;
  data ← rs_json resp;
  result ← py_get_dict "result" (py_or data (PDict []));
  sys_id ← py_get "sys_id" result;
  match sys_id with
  | PStr s => if nonempty s then Ok (s, instance_url +:+ "/nav_to.do?uri=incident.do?sys_id=" +:+ s)
              else Err (CaseSyncError "servicenow create returned no sys_id" false)
  | _ => Err (CaseSyncError "servicenow create returned no sys_id" false)
  end.

Definition fetch_status (T : http_request → http_answer) (config : pyval) (external_id : str) : py CaseSyncState :=
  fields ← required config;
  let '(instance_url, username, password) := fields in
  resp ← send "servicenow fetch"
           (T (mkHttpRequest GET (instance_url +:+ CREATE_PATH +:+ "/" +:+ external_id) (username, password)
                 None [("sysparm_fields", "state,sys_id")]));
  if rs_status_code resp =? 404 then Ok CS_CLOSED
  else
    _ ← check_response "servicenow fetch" resp;
    data ← rs_json resp;
    result ← py_get_dict "result" (py_or data (PDict []));
    state_raw ← py_get "state" result;
    Ok (default CS_OPEN (dict_get (py_str state_raw) STATE_BY_CODE)).
End ServiceNow.

(** ** Mirroring an alert (services/case_management.py) *)

Section management.
Context (E : env) (F : fernet) (T : tracker).

Definition create_external_issue (dest : CaseDestination) (a : Alert) : py (str * str) :=
  config ← Encryption.decrypt_config F (cd_config_encrypted dest);
  match cd_kind dest with
  | JIRA => Jira.create_issue (T (cd_id dest)) config a
  | SERVICENOW => ServiceNow.create_issue (T (cd_id dest)) config a
  end.

Definition fetch_external_status (dest : CaseDestination) (link : CaseLink) : py CaseSyncState :=
  config ← Encryption.decrypt_config F (cd_config_encrypted dest);
  match cd_kind dest with
  | JIRA => Jira.fetch_status (T (cl_id link)) config (cl_external_id link)
  | SERVICENOW => ServiceNow.fetch_status (T (cl_id link)) config (cl_external_id link)
  end.

Definition opened_link (id : uuid) (a : Alert) (dest : CaseDestination) (external_id external_url : str) : CaseLink :=
  mkLink id (al_id a) (cd_id dest) external_id (Some external_url) (Some (env_now E)) CS_OPEN None (env_now E).
Definition failed_link (id : uuid) (a : Alert) (dest : CaseDestination) (error : str) : CaseLink :=
  mkLink id (al_id a) (cd_id dest) "" None None CS_FAILED (Some (take_str 512 error)) (env_now E).

(** [existing_by_dest]: the last link of a destination. *)
Definition existing_by_dest (existing : list CaseLink) (dest : CaseDestination) : option CaseLink :=
  List.find (λ l, cl_destination_id l =? cd_id dest) (rev existing).

(** The loop over the destinations: the rows of [case_link], and the links
    returned or the exception that left the loop. *)
Fixpoint sync_loop (a : Alert) (existing : list CaseLink) (dests : list CaseDestination) (links : list CaseLink) :
    list CaseLink * py (list CaseLink) :=
  let add link rest :=
    let '(links', r) := sync_loop a existing rest (links ++ [link]) in (links', l ← r; Ok (link :: l)) in
  match dests with
  | [] => (links, Ok [])
  | dest :: rest =>
      match existing_by_dest existing dest with
      | Some link => let '(links', r) := sync_loop a existing rest links in (links', l ← r; Ok (link :: l))
      | None =>
          let id := env_uuid4 E (length links) in
          match create_external_issue dest a with
          | Ok (external_id, external_url) => add (opened_link id a dest external_id external_url) rest
          | Err (CaseSyncError text _) => add (failed_link id a dest text) rest
          | Err exc => (links, Err exc)
          end
      end
  end.

Definition enabled_destinations (db : case_db) : list CaseDestination :=
  List.filter cd_enabled (cs_destinations db).
Definition links_of (aid : uuid) (links : list CaseLink) : list CaseLink :=
  List.filter (λ l, cl_alert_id l =? aid) links.

Definition sync_alert_to_destinations (a : Alert) (db : case_db) : case_db * py (list CaseLink) :=
  let '(links, r) := sync_loop a (links_of (al_id a) (cs_links db)) (enabled_destinations db) (cs_links db) in
  (set_links links db, r).

(** ** Polling *)

Definition update_link (id : uuid) (f : CaseLink → CaseLink) (links : list CaseLink) : list CaseLink :=
  map (λ l, if cl_id l =? id then f l else l) links.
Definition poll_error (text : str) (l : CaseLink) : CaseLink :=
  mkLink (cl_id l) (cl_alert_id l) (cl_destination_id l) (cl_external_id l) (cl_external_url l) (cl_last_synced_at l)
    (cl_sync_state l) (Some (take_str 512 text)) (cl_created_at l).
Definition poll_ok (state : CaseSyncState) (l : CaseLink) : CaseLink :=
  mkLink (cl_id l) (cl_alert_id l) (cl_destination_id l) (cl_external_id l) (cl_external_url l) (Some (env_now E))
    state None (cl_created_at l).

Definition active (l : CaseLink) : bool := bool_decide (cl_sync_state l ∉ [CS_CLOSED; CS_FAILED]).

Fixpoint poll_rows (dest : CaseDestination) (rows links : list CaseLink) (changed : Z) : list CaseLink * py Z :=
  match rows with
  | [] => (links, Ok changed)
  | link :: rest =>
      if negb (nonempty (cl_external_id link)) then poll_rows dest rest links changed
      else
        match fetch_external_status dest link with
        | Ok new_state =>
            poll_rows dest rest (update_link (cl_id link) (poll_ok new_state) links)
              (if bool_decide (cl_sync_state link = new_state) then changed else changed + 1)
        | Err (CaseSyncError text _) => poll_rows dest rest (update_link (cl_id link) (poll_error text) links) changed
        | Err exc => (links, Err exc)
        end
  end.

Definition poll_destination (dest : CaseDestination) (links : list CaseLink) : list CaseLink * py Z :=
  if negb (cd_enabled dest) then (links, Ok 0)
  else poll_rows dest (List.filter (λ l, (cl_destination_id l =? cd_id dest) && active l) links) links 0.

(** workers/case_sync.py, [_run_once]: an exception ends the poll of its
    destination only. *)
Definition run_once (db : case_db) : case_db * Z :=
  let '(links, total) :=
    foldl (λ st dest,
             let '(links, r) := poll_destination dest st.1 in
             (links, st.2 + match r with Ok changed => changed | Err _ => 0 end))
      (cs_links db, 0) (enabled_destinations db) in
  (set_links links db, total).
End management.

(** [_interval_seconds] *)
Definition interval_seconds (raw : option str) (setting : Z) : Z :=
  match raw ≫= py_int with Some n => Z.max 30 n | None => Z.max 30 setting end.

(** ** Routes (api/case_destinations.py) *)

Section routes.
Context (E : env) (F : fernet).

Definition case_audited (actor : Actor) (action rid : str) (payload : dict) (db : case_db) : case_db :=
  let j := dd_job (cs_detect db) in
  mkCaseDb
    (set_job_db
       (mkJobDb (jd_scope j) (jd_policies j) (jd_jobs j) (jd_runs j) (jd_commands j)
          (record (env_audit_key E) (Some actor) action (Some "case_destination") (Some rid) (Some payload) None None
             (env_now E) (env_uuid4 E (length (log (jd_audit j)))) (jd_audit j))) (cs_detect db))
    (cs_destinations db) (cs_links db).

Definition kind_required_fields (kind : CaseDestinationKind) : list str :=
  match kind with
  | JIRA => ["base_url"; "email"; "api_token"; "project_key"]
  | SERVICENOW => ["instance_url"; "username"; "password"]
  end.

Definition check_required (kind : CaseDestinationKind) (config : dict) : py unit :=
  match missing_fields (kind_required_fields kind) config with [] => Ok tt | _ => Err (HTTPException 400) end.

Definition get_destination (db : case_db) (id : uuid) : py CaseDestination :=
  of_option (HTTPException 404) (List.find (λ d, cd_id d =? id) (cs_destinations db)).

(** [ORDER BY created_at DESC] *)
Definition list_destinations (actor : Actor) (db : case_db) : py (list CaseDestination) :=
  if negb (is_admin actor) then Err (HTTPException 403)
  else Ok (sort_by (λ d, - cd_created_at d) (cs_destinations db)).

Definition create_destination (kind : CaseDestinationKind) (name : str) (config : dict) (enabled : bool) (actor : Actor)
    (db : case_db) : py (case_db * CaseDestination) :=
  if negb (is_admin actor) then Err (HTTPException 403)
  else if negb (text_ok 1 128 name) then Err (HTTPException 422)
  else if existsb (λ d, String.eqb (cd_name d) name) (cs_destinations db) then Err (HTTPException 409)
  else
    _ ← check_required kind config;
    let dest := mkDestination (env_uuid4 E (length (cs_destinations db))) kind name
                  (Encryption.encrypt_config F config) enabled (env_now E) in
    Ok (case_audited actor "case_destination.create" (uuid_str (cd_id dest))
          [("name", PStr name); ("kind", PStr (CaseDestinationKind_value kind)); ("enabled", PBool enabled)]
          (set_destinations (cs_destinations db ++ [dest]) db), dest).

Definition update_destination (id : uuid) (name : option str) (config : option dict) (enabled : option bool)
    (actor : Actor) (db : case_db) : py case_db :=
  if negb (is_admin actor) then Err (HTTPException 403)
  else if negb (opt_ok (text_ok 1 128) name) then Err (HTTPException 422)
  else
    dest ← get_destination db id;
    let renamed := match name with Some n => negb (String.eqb n (cd_name dest)) | None => false end in
    if renamed && existsb (λ d, String.eqb (cd_name d) (default "" name) && negb (cd_id d =? id)) (cs_destinations db)
    then Err (HTTPException 409)
    else
      _ ← match config with Some c => check_required (cd_kind dest) c | None => Ok tt end;
      let dest' := mkDestination (cd_id dest) (cd_kind dest) (default (cd_name dest) name)
                     (match config with Some c => Encryption.encrypt_config F c | None => cd_config_encrypted dest end)
                     (default (cd_enabled dest) enabled) (cd_created_at dest) in
      let payload :=
        (if renamed then [("name", PStr (default "" name))] else []) ++
        match enabled with Some b => [("enabled", PBool b)] | None => [] end ++
        match config with Some _ => [("config_rotated", PBool true)] | None => [] end in
      Ok (case_audited actor "case_destination.update" (uuid_str id) payload
            (set_destinations (map (λ d, if cd_id d =? id then dest' else d) (cs_destinations db)) db)).

(** The links go with the destination. *)
Definition delete_destination (id : uuid) (actor : Actor) (db : case_db) : py case_db :=
  if negb (is_admin actor) then Err (HTTPException 403)
  else
    dest ← get_destination db id;
    Ok (case_audited actor "case_destination.delete" (uuid_str id)
          [("name", PStr (cd_name dest)); ("kind", PStr (CaseDestinationKind_value (cd_kind dest)))]
          (mkCaseDb (cs_detect db) (List.filter (λ d, negb (cd_id d =? id)) (cs_destinations db))
             (List.filter (λ l, negb (cl_destination_id l =? id)) (cs_links db)))).

(** The alert of a dry run; [test_summary] is the text of its summary, which has
    a character outside the range of the model. *)
Definition fake_alert (test_summary : str) : Alert :=
  mkAlert (env_uuid4 E 0) DEFAULT_TENANT_ID None (env_uuid4 E 1) INFO ALERT NEW test_summary
    (Some [("reason", PStr "case_destination.test")]) None None None (env_now E) None None None None 1 (env_now E).

Record CaseDestinationTestResult := mkTestResult {
  tr_ok : bool;
  tr_external_id : option str;
  tr_external_url : option str;
  tr_error : option str
}.

Definition test_destination (T : tracker) (test_summary : str) (id : uuid) (actor : Actor) (db : case_db) :
    py (case_db * CaseDestinationTestResult) :=
  if negb (is_admin actor) then Err (HTTPException 403)
  else
    dest ← get_destination db id;
    result ← match create_external_issue F T dest (fake_alert test_summary) with
             | Ok (external_id, external_url) => Ok (mkTestResult true (Some external_id) (Some external_url) None)
             | Err (CaseSyncError text _) => Ok (mkTestResult false None None (Some text))
             | Err exc => Err exc
             end;
    Ok (case_audited actor "case_destination.test" (uuid_str id)
          [("ok", PBool (tr_ok result)); ("error", match tr_error result with Some e => PStr e | None => PNone end)] db,
        result).
End routes.

(** api/alerts.py, [_load_case_links]: the links of the alert with the name of
    their destination, in the order of their creation. *)
Definition load_case_links (db : case_db) (aid : uuid) : list (CaseLink * str) :=
  omap (λ l, (λ d, (l, cd_name d)) <$> List.find (λ d, cd_id d =? cl_destination_id l) (cs_destinations db))
    (sort_by cl_created_at (links_of aid (cs_links db))).

(** ** What the loops write *)

Lemma nonempty_false s : nonempty s = false → s = "".
Proof. by destruct s. Qed.

(** The answer of the client, up to the last test of the identifier. *)
Ltac client_cases H :=
  repeat first
    [ discriminate H
    | match type of H with
      | (_ ≫= _) = Ok _ => let x := fresh "x" in let Hx := fresh "Hx" in apply res_bind_ok in H as (x & Hx & H)
      | (let '(_, _) := ?x in _) = Ok _ => destruct x
      | (match ?x with _ => _ end) = Ok _ => destruct x eqn:?
      | (if ?x then _ else _) = Ok _ => destruct x eqn:?
      end ].

Lemma create_external_issue_nonempty F T dest a eid url :
  create_external_issue F T dest a = Ok (eid, url) → eid ≠ "".
Proof.
  unfold create_external_issue, Jira.create_issue, ServiceNow.create_issue. intros H.
  client_cases H; injection H as -> _; intros ->; done.
Qed.

Lemma state_by_code_live k : default CS_OPEN (dict_get k ServiceNow.STATE_BY_CODE) ≠ CS_FAILED.
Proof.
  destruct (dict_get k ServiceNow.STATE_BY_CODE) as [st|] eqn:Hd; [|done]. simpl. intros ->.
  apply dict_get_elem, list_elem_of_In in Hd. cbn [In ServiceNow.STATE_BY_CODE] in Hd. intuition congruence.
Qed.

Lemma fetch_external_status_live F T dest l st : fetch_external_status F T dest l = Ok st → st ≠ CS_FAILED.
Proof.
  unfold fetch_external_status, Jira.fetch_status, ServiceNow.fetch_status. intros H.
  client_cases H; injection H as <-; try done.
  - unfold Jira.map_category. by repeat case_match.
  - apply state_by_code_live.
Qed.

(** The state of a link and its handle on the tracker go together. *)
Definition link_ok (l : CaseLink) : Prop := cl_sync_state l = CS_FAILED ↔ cl_external_id l = "".
Definition pair_of (l : CaseLink) : uuid * uuid := (cl_alert_id l, cl_destination_id l).

(** What an outcome of [_create_external_issue] writes, if it writes a link. *)
Definition outcome_link (E : env) (id : uuid) (a : Alert) (dest : CaseDestination) (r : py (str * str)) :
    option CaseLink :=
  match r with
  | Ok (eid, url) => Some (opened_link E id a dest eid url)
  | Err (CaseSyncError text _) => Some (failed_link E id a dest text)
  | Err _ => None
  end.

Section loop.
Context (E : env) (F : fernet) (T : tracker) (a : Alert) (existing : list CaseLink).

Lemma sync_loop_cons dest rest links :
  sync_loop E F T a existing (dest :: rest) links =
  match existing_by_dest existing dest with
  | Some link => let '(links', r) := sync_loop E F T a existing rest links in (links', l ← r; Ok (link :: l))
  | None =>
      match outcome_link E (env_uuid4 E (length links)) a dest (create_external_issue F T dest a) with
      | Some link =>
          let '(links', r) := sync_loop E F T a existing rest (links ++ [link]) in (links', l ← r; Ok (link :: l))
      | None => (links, match create_external_issue F T dest a with Err exc => Err exc | Ok _ => Ok [] end)
      end
  end.
Proof.
  cbn [sync_loop]. destruct (existing_by_dest _ _); [done|].
  by destruct (create_external_issue _ _ _ _) as [[??]|[]].
Qed.

Lemma outcome_link_ok id dest l :
  outcome_link E id a dest (create_external_issue F T dest a) = Some l →
  link_ok l ∧ pair_of l = (al_id a, cd_id dest) ∧ cl_id l = id.
Proof.
  unfold outcome_link. destruct (create_external_issue _ _ _ _) as [[eid url]|exc] eqn:Hc; [|destruct exc]; try done.
  - intros [= <-]. split; [|done]. apply create_external_issue_nonempty in Hc. unfold link_ok. simpl. naive_solver.
  - by intros [= <-].
Qed.

(** The rows that are added: for destinations without a link, in their order,
    under identifiers that are drawn one after the other. *)
Lemma sync_loop_adds dests links :
  ∃ new, (sync_loop E F T a existing dests links).1 = links ++ new ∧
    Forall (λ l, link_ok l ∧ cl_alert_id l = al_id a) new ∧
    map cl_destination_id new `sublist_of`
      map cd_id (List.filter (λ d, bool_decide (existing_by_dest existing d = None)) dests) ∧
    map cl_id new = map (env_uuid4 E) (List.seq (length links) (length new)).
Proof.
  revert links. induction dests as [|dest rest IH]; intros links.
  { exists []. rewrite app_nil_r. repeat split; constructor. }
  rewrite sync_loop_cons. cbn [List.filter]. destruct (existing_by_dest existing dest) as [link|] eqn:He.
  { destruct (IH links) as (new & Hn & Hrest). exists new.
    destruct (sync_loop _ _ _ _ _ rest _). rewrite bool_decide_eq_false_2 by done. done. }
  rewrite bool_decide_eq_true_2 by done. cbn [map].
  destruct (outcome_link _ _ _ _ _) as [link|] eqn:Ho.
  - apply outcome_link_ok in Ho as (Hok & [= Ha Hd] & Hid). destruct (IH (links ++ [link])) as (new & Hn & Hf & Hs & Hi).
    exists (link :: new). destruct (sync_loop _ _ _ _ _ rest _). simpl in Hn |- *. subst.
    rewrite <-app_assoc, Hid, Hi, length_app, Nat.add_1_r. rewrite Hd.
    split_and!; [done|by constructor|by apply sublist_skip|done].
  - exists []. rewrite app_nil_r. repeat split; [constructor|apply sublist_nil_l].
Qed.

End loop.

(** No request is made for a destination that has a link. *)
Lemma sync_loop_tracker E F T T' a existing did dests links :
  (∃ l, l ∈ existing ∧ cl_destination_id l = did) → (∀ i, i ≠ did → T i = T' i) →
  sync_loop E F T a existing dests links = sync_loop E F T' a existing dests links.
Proof.
  intros (l & Hl & Hld) HT. revert links. induction dests as [|dest rest IH]; intros links; [done|].
  rewrite !sync_loop_cons. destruct (existing_by_dest existing dest) eqn:He; [by rewrite IH|].
  assert (cd_id dest ≠ did) as Hne.
  { intros <-. unfold existing_by_dest in He. eapply find_none in He; [|rewrite <-in_rev; by apply list_elem_of_In].
    by rewrite Hld, Z.eqb_refl in He. }
  unfold create_external_issue. rewrite (HT _ Hne). destruct (outcome_link _ _ _ _ _); [|done]. by rewrite IH.
Qed.

(** *** Polling *)

Lemma update_link_fields {A} (key : CaseLink → A) id f links :
  (∀ l, key (f l) = key l) → map key (update_link id f links) = map key links.
Proof. intros Hf. unfold update_link. rewrite map_map. apply map_ext. intros l. by destruct (_ =? _). Qed.

(** What a poll leaves of a row: its keys always, all of it when it is not
    active. *)
Definition poll_keeps (links links' : list CaseLink) : Prop :=
  map cl_id links' = map cl_id links ∧ map pair_of links' = map pair_of links ∧
  (Forall link_ok links → Forall link_ok links') ∧
  (∀ l, l ∈ links → active l = false → l ∈ links').

#[global] Instance poll_keeps_preorder : PreOrder poll_keeps.
Proof.
  split; [by intros l|]. intros l1 l2 l3 (Hi & Hp & Ho & Hk) (Hi' & Hp' & Ho' & Hk').
  split_and!; [congruence|congruence|auto|auto].
Qed.

Lemma update_link_keeps f id links :
  (∀ l, cl_id (f l) = cl_id l ∧ pair_of (f l) = pair_of l) →
  (∀ l, l ∈ links → cl_id l = id → link_ok l → link_ok (f l)) →
  (∀ l, l ∈ links → cl_id l = id → active l = true) →
  poll_keeps links (update_link id f links).
Proof.
  intros Hf Hok Hact. split_and!.
  - apply update_link_fields. intros l. apply Hf.
  - apply update_link_fields. intros l. apply Hf.
  - rewrite !Forall_forall. intros Hall l Hl. unfold update_link in Hl. apply list_elem_of_fmap in Hl as (l0 & -> & Hl0).
    destruct (Z.eqb_spec (cl_id l0) id); [|by apply Hall]. apply Hok; auto.
  - intros l Hl Ha. unfold update_link. apply list_elem_of_fmap. exists l. split; [|done].
    destruct (Z.eqb_spec (cl_id l) id) as [Hid|]; [|done]. by rewrite (Hact l Hl Hid) in Ha.
Qed.

Section poll.
Context (E : env) (F : fernet) (T : tracker).

Lemma poll_rows_keeps dest rows links changed :
  NoDup (map cl_id rows) → NoDup (map cl_id links) → rows ⊆ links → Forall (λ l, active l = true) rows →
  poll_keeps links (poll_rows E F T dest rows links changed).1.
Proof.
  revert links changed. induction rows as [|l rows IH]; intros links changed Hr Hl Hsub Hact; [done|].
  cbn [map] in Hr. apply NoDup_cons in Hr as [Hnin Hr]. apply Forall_cons in Hact as [Ha Hact].
  assert (∀ x, x ∈ links → cl_id x = cl_id l → x = l) as Huniq.
  { intros x Hx Hid. apply (NoDup_key_inj cl_id links); [done|done|apply Hsub; by left|done]. }
  assert (∀ f, (∀ l, cl_id (f l) = cl_id l ∧ pair_of (f l) = pair_of l) → (link_ok l → link_ok (f l)) →
    ∀ changed, poll_keeps links (poll_rows E F T dest rows (update_link (cl_id l) f links) changed).1) as Hstep.
  { intros f Hf Hok ch. transitivity (update_link (cl_id l) f links).
    - apply update_link_keeps; [done|..]; intros x Hx Hid; rewrite (Huniq x Hx Hid); done.
    - apply IH; [done|by rewrite update_link_fields by apply Hf| |done].
      intros x Hx. unfold update_link. apply list_elem_of_fmap. exists x. split; [|apply Hsub; by right].
      destruct (Z.eqb_spec (cl_id x) (cl_id l)) as [Hid|]; [|done]. destruct Hnin. rewrite <-Hid. by apply list_elem_of_fmap_2. }
  cbn [poll_rows]. destruct (negb (nonempty (cl_external_id l))) eqn:Hne; [apply IH; [done|done|set_solver|done]|].
  destruct (fetch_external_status F T dest l) as [st|exc] eqn:Hf.
  - apply Hstep; [done|]. intros _. apply fetch_external_status_live in Hf. apply negb_false_iff in Hne.
    unfold link_ok. simpl. destruct (cl_external_id l); [done|]. naive_solver.
  - destruct exc; try done. by apply Hstep.
Qed.

Lemma poll_destination_keeps dest links :
  NoDup (map cl_id links) → poll_keeps links (poll_destination E F T dest links).1.
Proof.
  intros Hnd. unfold poll_destination. destruct (negb (cd_enabled dest)); [done|].
  apply poll_rows_keeps; [|done|intros l Hl; by apply elem_of_filterb in Hl as [? _]|].
  - by apply NoDup_map_filterb.
  - apply Forall_forall. intros l Hl. apply elem_of_filterb in Hl as [_ Hl]. by apply andb_true_iff in Hl as [_ ?].
Qed.

Lemma run_once_keeps db :
  NoDup (map cl_id (cs_links db)) → poll_keeps (cs_links db) (cs_links (run_once E F T db).1).
Proof.
  intros Hnd. unfold run_once. generalize (enabled_destinations db) as dests. intros dests.
  enough (∀ links total, NoDup (map cl_id links) → poll_keeps links (foldl (λ st dest,
    let '(links, r) := poll_destination E F T dest st.1 in
    (links, st.2 + match r with Ok changed => changed | Err _ => 0 end)) (links, total) dests).1) as Hgen.
  { specialize (Hgen _ 0 Hnd). by destruct (foldl _ _ _). }
  induction dests as [|dest rest IH]; intros links total Hl; [done|]. cbn [foldl].
  pose proof (poll_destination_keeps dest links Hl) as Hk. cbn [fst].
  destruct (poll_destination E F T dest links) as [links' r]. transitivity links'; [done|].
  apply IH. destruct Hk as [Hi _]. simpl in Hi. by rewrite Hi.
Qed.
End poll.

(** ** Runs *)

(** The identifiers drawn for new links are new. *)
Definition fresh_ids (E : env) (links : list CaseLink) : Prop :=
  Inj (=) (=) (env_uuid4 E) ∧ ∀ n, env_uuid4 E n ∉ map cl_id links.

(** One action on the tables, with the destination it deletes: the hook of a
    state change, a pass of the poller, a request of an administrator. *)
Inductive case_step : option uuid → case_db → case_db → Prop :=
| CST_sync E F T a db :
    fresh_ids E (cs_links db) → case_step None db (sync_alert_to_destinations E F T a db).1
| CST_poll E F T db : case_step None db (run_once E F T db).1
| CST_create E F kind name config enabled actor db db' dest :
    create_destination E F kind name config enabled actor db = Ok (db', dest) →
    cd_id dest ∉ map cd_id (cs_destinations db) → case_step None db db'
| CST_update E F id name config enabled actor db db' :
    update_destination E F id name config enabled actor db = Ok db' → case_step None db db'
| CST_delete E id actor db db' : delete_destination E id actor db = Ok db' → case_step (Some id) db db'
| CST_test E F T summary id actor db db' r :
    test_destination E F T summary id actor db = Ok (db', r) → case_step None db db'.

(** A sequence of actions with the destinations deleted on the way. *)
Inductive case_run : list uuid → case_db → case_db → Prop :=
| CR_nil db : case_run [] db db
| CR_cons d dels db db' db'' :
    case_step d db db' → case_run dels db' db'' → case_run (option_list d ++ dels) db db''.

Record case_ok (db : case_db) : Prop := {
  co_link_ids : NoDup (map cl_id (cs_links db));
  co_pairs : NoDup (map pair_of (cs_links db));
  co_destinations : NoDup (map cd_id (cs_destinations db));
  co_refs : ∀ l, l ∈ cs_links db → cl_destination_id l ∈ map cd_id (cs_destinations db);
  co_states : Forall link_ok (cs_links db)
}.

(** A link is kept: the row if it is not active, its keys in any case. *)
Definition link_kept (l : CaseLink) (links : list CaseLink) : Prop :=
  (∃ l', l' ∈ links ∧ cl_id l' = cl_id l ∧ pair_of l' = pair_of l) ∧ (active l = false → l ∈ links).

Lemma link_kept_elem l links : l ∈ links → link_kept l links.
Proof. intros Hl. split; [by exists l|done]. Qed.
#[local] Hint Resolve link_kept_elem : vigil.

Lemma existing_None existing d :
  existing_by_dest existing d = None → cd_id d ∉ map cl_destination_id existing.
Proof.
  unfold existing_by_dest. intros Hf Hin. apply list_elem_of_fmap in Hin as (l & Hd & Hl).
  eapply find_none in Hf; [|rewrite <-in_rev; by apply list_elem_of_In]. by rewrite <-Hd, Z.eqb_refl in Hf.
Qed.

Section sync.
Context (E : env) (F : fernet) (T : tracker) (a : Alert).

Lemma sync_adds db : ∃ new, cs_links (sync_alert_to_destinations E F T a db).1 = cs_links db ++ new ∧
    cs_destinations (sync_alert_to_destinations E F T a db).1 = cs_destinations db ∧
    cs_detect (sync_alert_to_destinations E F T a db).1 = cs_detect db ∧
    Forall (λ l, link_ok l ∧ cl_alert_id l = al_id a) new ∧
    map cl_destination_id new `sublist_of` map cd_id (List.filter
      (λ d, bool_decide (existing_by_dest (links_of (al_id a) (cs_links db)) d = None)) (enabled_destinations db)) ∧
    map cl_id new = map (env_uuid4 E) (List.seq (length (cs_links db)) (length new)).
Proof.
  unfold sync_alert_to_destinations.
  destruct (sync_loop_adds E F T a (links_of (al_id a) (cs_links db)) (enabled_destinations db) (cs_links db))
    as (new & Hn & Hrest). exists new. by destruct (sync_loop _ _ _ _ _ _ _).
Qed.

Lemma sync_new_destinations db dids :
  dids `sublist_of` map cd_id (List.filter
    (λ d, bool_decide (existing_by_dest (links_of (al_id a) (cs_links db)) d = None)) (enabled_destinations db)) →
  NoDup (map cd_id (cs_destinations db)) →
  NoDup dids ∧ ∀ did, did ∈ dids → did ∈ map cd_id (cs_destinations db) ∧ (al_id a, did) ∉ map pair_of (cs_links db).
Proof.
  intros Hs Hnd. split.
  { eapply sublist_NoDup; [|exact Hs]. by apply NoDup_map_filterb, NoDup_map_filterb. }
  intros did Hin. apply (sublist_subseteq _ _ Hs) in Hin.
  apply list_elem_of_fmap in Hin as (d & -> & [Hd Hex%bool_decide_eq_true]%elem_of_filterb).
  apply elem_of_filterb in Hd as [Hd _]. split; [by apply list_elem_of_fmap_2|].
  intros Hp. apply existing_None in Hex. apply Hex. apply list_elem_of_fmap in Hp as (l & [= Ha Hl] & Hin).
  apply list_elem_of_fmap. exists l. split; [done|]. apply elem_of_filterb. by rewrite Z.eqb_eq.
Qed.

Lemma sync_case_ok db :
  fresh_ids E (cs_links db) → case_ok db → case_ok (sync_alert_to_destinations E F T a db).1.
Proof.
  intros [Hinj Hfresh] [Hi Hp Hd Hr Hs]. destruct (sync_adds db) as (new & Hl & Hd' & _ & Hf & Hsub & Hids).
  apply sync_new_destinations in Hsub as [Hnd Hnew]; [|done].
  split; rewrite ?Hl, ?Hd', ?map_app; [| |done| |].
  - apply NoDup_app. split_and!; [done| |rewrite Hids; apply NoDup_fmap_2; [done|apply NoDup_ListNoDup, seq_NoDup]].
    intros i Hin. rewrite Hids. intros (n & -> & _)%list_elem_of_fmap. by apply (Hfresh n).
  - assert (map pair_of new = map (pair (al_id a)) (map cl_destination_id new)) as Heq.
    { rewrite map_map. apply map_ext_in. intros l Hin%list_elem_of_In. rewrite Forall_forall in Hf.
      unfold pair_of. by destruct (Hf l Hin) as [_ ->]. }
    rewrite Heq. apply NoDup_app. split_and!; [done| |by apply NoDup_fmap_2; [intros ?? [=]|]].
    intros p Hin (did & -> & Hdid)%list_elem_of_fmap. by apply (Hnew did Hdid).
  - intros l [Hin|Hin]%elem_of_app; [auto|]. by apply Hnew, list_elem_of_fmap_2.
  - apply Forall_app. split; [done|]. eapply Forall_impl; [exact Hf|]. by intros l [? _].
Qed.
End sync.

Lemma case_audited_tables E actor action rid payload db :
  cs_links (case_audited E actor action rid payload db) = cs_links db ∧
  cs_destinations (case_audited E actor action rid payload db) = cs_destinations db.
Proof. done. Qed.

Lemma get_destination_ok db id d :
  get_destination db id = Ok d → d ∈ cs_destinations db ∧ cd_id d = id.
Proof.
  unfold get_destination. destruct (List.find _ _) as [x|] eqn:Hf; [|done]. intros [= <-].
  apply find_some in Hf as [Hin Hid%Z.eqb_eq]. by rewrite list_elem_of_In.
Qed.


(** *** One action *)

Section admin.
Context (E : env) (F : fernet).

Lemma create_destination_tables kind name config enabled actor db db' dest :
  create_destination E F kind name config enabled actor db = Ok (db', dest) →
  cs_links db' = cs_links db ∧ cs_destinations db' = cs_destinations db ++ [dest] ∧
  check_required kind config = Ok tt ∧ cd_kind dest = kind ∧
  cd_config_encrypted dest = Encryption.encrypt_config F config.
Proof.
  unfold create_destination. destruct (negb (is_admin actor)); [done|]. destruct (negb (text_ok 1 128 name)); [done|].
  destruct (existsb _ _); [done|]. destruct (check_required kind config) as [[]|]; [|done]. by intros [= <- <-].
Qed.

Lemma update_destination_tables id name config enabled actor db db' :
  update_destination E F id name config enabled actor db = Ok db' →
  cs_links db' = cs_links db ∧ map cd_id (cs_destinations db') = map cd_id (cs_destinations db).
Proof.
  unfold update_destination. destruct (negb (is_admin actor)); [done|]. destruct (negb (opt_ok _ name)); [done|].
  intros H. apply res_bind_ok in H as (dest & Hg & H). cbv zeta in H.
  destruct (_ && _) in H; [done|]. apply res_bind_ok in H as ([] & _ & H). injection H as <-.
  apply get_destination_ok in Hg as [_ Hid]. split; [done|]. cbn. rewrite map_map. apply map_ext. intros d.
  destruct (Z.eqb_spec (cd_id d) id); simpl; congruence.
Qed.

Lemma delete_destination_tables id actor db db' :
  delete_destination E id actor db = Ok db' →
  cs_links db' = List.filter (λ l, negb (cl_destination_id l =? id)) (cs_links db) ∧
  cs_destinations db' = List.filter (λ d, negb (cd_id d =? id)) (cs_destinations db).
Proof.
  unfold delete_destination. destruct (negb (is_admin actor)); [done|].
  destruct (get_destination db id); [|done]. by intros [= <-].
Qed.

Lemma test_destination_tables T summary id actor db db' r :
  test_destination E F T summary id actor db = Ok (db', r) →
  cs_links db' = cs_links db ∧ cs_destinations db' = cs_destinations db.
Proof.
  unfold test_destination. destruct (negb (is_admin actor)); [done|]. intros H.
  apply res_bind_ok in H as (d & _ & H). apply res_bind_ok in H as (r' & _ & H). by injection H as <- _.
Qed.
End admin.

Lemma run_once_destinations E F T db : cs_destinations (run_once E F T db).1 = cs_destinations db.
Proof. unfold run_once. by destruct (foldl _ _ _). Qed.

Lemma elem_of_pairs l links : pair_of l ∈ map pair_of links → cl_destination_id l ∈ map cl_destination_id links.
Proof. intros (l' & [= _ ->] & Hin)%list_elem_of_fmap. by apply list_elem_of_fmap_2. Qed.

Lemma case_step_ok d db db' : case_step d db db' → case_ok db → case_ok db'.
Proof.
  intros Hst Hok. destruct Hst as [E F T a db Hf|E F T db|E F kind name config enabled actor db db' dest H Hnew
    |E F id name config enabled actor db db' H|E id actor db db' H|E F T summary id actor db db' r H].
  - by apply sync_case_ok.
  - destruct Hok as [Hi Hp Hd Hr Hs]. destruct (run_once_keeps E F T db Hi) as (Hi' & Hp' & Hs' & _).
    split; rewrite ?Hi', ?Hp', ?run_once_destinations; auto.
    intros l Hl. assert (pair_of l ∈ map pair_of (cs_links (run_once E F T db).1)) as Hin by (by apply list_elem_of_fmap_2).
    rewrite Hp' in Hin. apply elem_of_pairs in Hin. clear Hl. rename Hin into Hl.
    apply list_elem_of_fmap in Hl as (l' & -> & Hl'). auto.
  - apply create_destination_tables in H as (Hl & Hd' & _). destruct Hok as [Hi Hp Hd Hr Hs].
    split; rewrite ?Hl, ?Hd', ?map_app; auto; [|set_solver].
    apply NoDup_app. split_and!; [done|set_solver|apply NoDup_singleton].
  - apply update_destination_tables in H as [Hl Hd']. destruct Hok. split; rewrite ?Hl, ?Hd'; auto.
  - apply delete_destination_tables in H as [Hl Hd']. destruct Hok as [Hi Hp Hd Hr Hs].
    split; rewrite ?Hl, ?Hd'; [by apply NoDup_map_filterb..| |].
    + intros l [Hin Hne]%elem_of_filterb. destruct (proj1 (list_elem_of_fmap _ _ _) (Hr l Hin)) as (dest & Hid & Hdest).
      rewrite Hid. apply list_elem_of_fmap_2, elem_of_filterb. by rewrite <-Hid.
    + rewrite Forall_forall in *. intros l [Hin _]%elem_of_filterb. auto.
  - apply test_destination_tables in H as [Hl Hd']. destruct Hok. split; rewrite ?Hl, ?Hd'; auto.
Qed.

Lemma poll_keeps_link links links' l : poll_keeps links links' → l ∈ links → link_kept l links'.
Proof.
  intros (Hi & Hp & _ & Hk) Hl. split; [|by apply Hk].
  apply list_elem_of_lookup in Hl as [n Hn].
  assert (map cl_id links' !! n = Some (cl_id l)) as H1 by (rewrite Hi; by apply list_lookup_fmap_Some_2).
  assert (map pair_of links' !! n = Some (pair_of l)) as H2 by (rewrite Hp; by apply list_lookup_fmap_Some_2).
  apply list_lookup_fmap_Some in H1 as (l1 & H1 & Hn1). apply list_lookup_fmap_Some in H2 as (l2 & H2 & Hn2).
  rewrite Hn1 in Hn2. injection Hn2 as <-. exists l1. split_and!; [by eapply list_elem_of_lookup_2|done..].
Qed.

Lemma case_step_keeps d db db' l :
  case_step d db db' → case_ok db → l ∈ cs_links db → d ≠ Some (cl_destination_id l) → link_kept l (cs_links db').
Proof.
  intros Hst Hok Hl Hd. destruct Hst as [E F T a db Hf|E F T db|E F kind name config enabled actor db db' dest H Hnew
    |E F id name config enabled actor db db' H|E id actor db db' H|E F T summary id actor db db' r H].
  - destruct (sync_adds E F T a db) as (new & -> & _). apply link_kept_elem, elem_of_app. by left.
  - eapply poll_keeps_link; [apply run_once_keeps, Hok|done].
  - apply create_destination_tables in H as (-> & _). auto with vigil.
  - apply update_destination_tables in H as [-> _]. auto with vigil.
  - apply delete_destination_tables in H as [-> _]. apply link_kept_elem, elem_of_filterb. split; [done|].
    apply negb_true_iff, Z.eqb_neq. congruence.
  - apply test_destination_tables in H as [-> _]. auto with vigil.
Qed.

(** *** Sequences of actions *)

Lemma case_run_ok dels db db' : case_run dels db db' → case_ok db → case_ok db'.
Proof. induction 1 as [|d dels db db' db'' Hst _ IH]; [done|]. eauto using case_step_ok. Qed.

Lemma case_run_keeps dels db db' l :
  case_run dels db db' → case_ok db → l ∈ cs_links db → cl_destination_id l ∉ dels → link_kept l (cs_links db').
Proof.
  intros Hrun. revert l. induction Hrun as [db|d dels db db' db'' Hst Hrun IH]; intros l Hok Hl Hd; [auto with vigil|].
  rewrite elem_of_app in Hd. assert (d ≠ Some (cl_destination_id l)) as Hd' by (intros ->; set_solver).
  pose proof (case_step_ok _ _ _ Hst Hok) as Hok'.
  destruct (case_step_keeps _ _ _ _ Hst Hok Hl Hd') as [(l1 & Hl1 & Hid & Hp) Hina].
  injection Hp as Ha Hdest. split.
  - destruct (IH l1) as [(l2 & Hl2 & Hid2 & Hp2) _]; [done|done|rewrite Hdest; tauto|]. exists l2.
    split_and!; [done|congruence|]. rewrite Hp2. unfold pair_of. by rewrite Ha, Hdest.
  - intros Hact. destruct (IH l) as [_ Hk]; auto.
Qed.

Lemma empty_case_ok detect : case_ok (mkCaseDb detect [] []).
Proof. split; simpl; try constructor. intros l Hl. by apply not_elem_of_nil in Hl. Qed.

(** *** Requests that are not made *)

Lemma poll_rows_tracker E F T T' lid dest rows links changed :
  lid ∉ map cl_id rows → (∀ i, i ≠ lid → T i = T' i) →
  poll_rows E F T dest rows links changed = poll_rows E F T' dest rows links changed.
Proof.
  intros Hnin HT. revert links changed. induction rows as [|l rows IH]; intros links changed; [done|].
  cbn [map] in Hnin. apply not_elem_of_cons in Hnin as [Hne Hnin]. cbn [poll_rows].
  unfold fetch_external_status. rewrite (HT (cl_id l)) by congruence.
  destruct (negb _); [by apply IH|]. by repeat case_match; try apply IH.
Qed.

Lemma poll_destination_tracker E F T T' l dest links :
  NoDup (map cl_id links) → l ∈ links → active l = false → (∀ i, i ≠ cl_id l → T i = T' i) →
  poll_destination E F T dest links = poll_destination E F T' dest links.
Proof.
  intros Hnd Hl Ha HT. unfold poll_destination. destruct (negb (cd_enabled dest)); [done|].
  apply (poll_rows_tracker _ _ _ _ (cl_id l)); [|done].
  intros (x & Hid & [Hx Hb]%elem_of_filterb)%list_elem_of_fmap. apply andb_true_iff in Hb as [_ Hact].
  rewrite (NoDup_key_inj cl_id links x l) in Hact by done. congruence.
Qed.

Lemma run_once_tracker E F T T' l db :
  NoDup (map cl_id (cs_links db)) → l ∈ cs_links db → active l = false → (∀ i, i ≠ cl_id l → T i = T' i) →
  run_once E F T db = run_once E F T' db.
Proof.
  intros Hnd Hl Ha HT. unfold run_once. generalize (enabled_destinations db) as dests. intros dests.
  match goal with |- (let '(_, _) := ?x in _) = (let '(_, _) := ?y in _) => enough (x = y) as -> by done end.
  change (cs_links db) with (cs_links db, 0).1 in Hnd, Hl. revert Hnd Hl. generalize (cs_links db, 0) as st.
  induction dests as [|dest rest IH]; intros st Hnd Hl; [done|]. cbn [foldl].
  rewrite (poll_destination_tracker E F T T' l dest st.1) by done.
  pose proof (poll_destination_keeps E F T' dest st.1 Hnd) as (Hi & _ & _ & Hk).
  destruct (poll_destination E F T' dest st.1) as [links' r]. simpl in Hi, Hk. apply IH; simpl; [by rewrite Hi|by apply Hk].
Qed.

(** *** The outcome of a synchronisation *)

Section outcome.
Context (E : env) (F : fernet) (T : tracker) (a : Alert) (existing : list CaseLink).

(** The link of a destination: the one it had, or the one the outcome writes. *)
Definition mirrors (links : list CaseLink) (d : CaseDestination) (l : CaseLink) : Prop :=
  existing_by_dest existing d = Some l ∨
  existing_by_dest existing d = None ∧ l ∈ links ∧ ∃ id, outcome_link E id a d (create_external_issue F T d a) = Some l.

Lemma sync_loop_Ok dests links links' ls :
  sync_loop E F T a existing dests links = (links', Ok ls) → Forall2 (mirrors links') dests ls.
Proof.
  revert links ls. induction dests as [|d rest IH]; intros links ls.
  { intros [= _ <-]. constructor. }
  rewrite sync_loop_cons. destruct (existing_by_dest existing d) as [link|] eqn:He.
  - destruct (sync_loop _ _ _ _ _ rest links) as [links1 r] eqn:Hs. destruct r as [ls1|]; [|done].
    intros [= -> <-]. constructor; [by left|eauto].
  - destruct (outcome_link _ _ _ _ _) as [link|] eqn:Ho.
    + destruct (sync_loop_adds E F T a existing rest (links ++ [link])) as (new & Hnew & _).
      destruct (sync_loop _ _ _ _ _ rest _) as [links1 r] eqn:Hs. destruct r as [ls1|]; [|done].
      intros [= -> <-]. constructor; [|eauto]. right. split_and!; [done| |eauto].
      simpl in Hnew. rewrite Hnew. set_solver.
    + unfold outcome_link in Ho. by destruct (create_external_issue _ _ _ _) as [[]|[]].
Qed.

Lemma sync_loop_Err dests links links' exc :
  sync_loop E F T a existing dests links = (links', Err exc) →
  ∃ pre d post, dests = pre ++ d :: post ∧ existing_by_dest existing d = None ∧
    create_external_issue F T d a = Err exc ∧ (∀ text b, exc ≠ CaseSyncError text b) ∧
    ∀ l, l ∈ links' → l ∈ links ∨ cl_destination_id l ∈ map cd_id pre.
Proof.
  revert links. induction dests as [|d rest IH]; intros links; [done|].
  rewrite sync_loop_cons. destruct (existing_by_dest existing d) as [link|] eqn:He.
  - destruct (sync_loop _ _ _ _ _ rest links) as [links1 r] eqn:Hs. destruct r as [|exc1]; [done|].
    intros [= -> ->]. destruct (IH _ Hs) as (pre & d' & post & -> & H1 & H2 & H3 & H4).
    exists (d :: pre), d', post. split_and!; [done..|]. intros l [Hl|Hl]%H4; [by left|right; by right].
  - destruct (outcome_link _ _ _ _ _) as [link|] eqn:Ho.
    + apply outcome_link_ok in Ho as (_ & [= _ Hd] & _).
      destruct (sync_loop _ _ _ _ _ rest _) as [links1 r] eqn:Hs. destruct r as [|exc1]; [done|].
      intros [= -> ->]. destruct (IH _ Hs) as (pre & d' & post & -> & H1 & H2 & H3 & H4).
      exists (d :: pre), d', post. split_and!; [done..|]. intros l Hl. cbn [map]. rewrite elem_of_cons, <-Hd.
      destruct (H4 l Hl) as [[Hin| ->%list_elem_of_singleton]%elem_of_app|Hin]; auto.
    + destruct (create_external_issue F T d a) as [[]|exc1] eqn:Hc; [done|]. intros [= -> ->].
      exists [], d, rest. split_and!; [done..| |by left]. intros text b ->. by destruct b.
Qed.

(** Nothing is written for the destinations after one whose request fails with
    another exception. *)
Lemma sync_loop_blocked pre d post links :
  existing_by_dest existing d = None → (∀ id, outcome_link E id a d (create_external_issue F T d a) = None) →
  ∀ l, l ∈ (sync_loop E F T a existing (pre ++ d :: post) links).1 → l ∈ links ∨ cl_destination_id l ∈ map cd_id pre.
Proof.
  intros He Ho. revert links. induction pre as [|p pre IH]; intros links l; cbn [app]; rewrite sync_loop_cons.
  { rewrite He, Ho. by left. }
  cbn [map]. rewrite elem_of_cons. destruct (existing_by_dest existing p) as [link|].
  - specialize (IH links l). destruct (sync_loop _ _ _ _ _ _ links). intros Hl. destruct (IH Hl); auto.
  - destruct (outcome_link _ _ _ _ _) as [link|] eqn:Hout; [|by left].
    apply outcome_link_ok in Hout as (_ & [= _ Hd] & _). specialize (IH (links ++ [link]) l).
    destruct (sync_loop _ _ _ _ _ _ _). intros Hl. rewrite <-Hd.
    destruct (IH Hl) as [[Hin| ->%list_elem_of_singleton]%elem_of_app|Hin]; auto.
Qed.
End outcome.

Lemma existing_Some aid links d l :
  existing_by_dest (links_of aid links) d = Some l → l ∈ links ∧ pair_of l = (aid, cd_id d).
Proof.
  unfold existing_by_dest. intros [Hin Hd%Z.eqb_eq]%find_some. rewrite <-in_rev in Hin.
  apply list_elem_of_In, elem_of_filterb in Hin as [Hin Ha%Z.eqb_eq]. split; [done|]. unfold pair_of. congruence.
Qed.
Lemma existing_None_pair aid links d :
  existing_by_dest (links_of aid links) d = None ↔ (aid, cd_id d) ∉ map pair_of links.
Proof.
  split.
  - intros Hn%existing_None Hin. apply Hn. apply list_elem_of_fmap in Hin as (l & [= Ha Hd] & Hl).
    apply list_elem_of_fmap. exists l. split; [done|]. apply elem_of_filterb. by rewrite Z.eqb_eq.
  - intros Hn. destruct (existing_by_dest _ d) as [l|] eqn:He; [|done]. apply existing_Some in He as [Hl Hp].
    destruct Hn. rewrite <-Hp. by apply list_elem_of_fmap_2.
Qed.

(** ** Correctness *)

(** The links of the case tables are well formed after any sequence of state
    changes, polls and requests of administrators: an alert has at most one link
    to a destination, every link belongs to a registered destination, and a link
    has no handle on the tracker exactly when it has failed, so the poller always
    has an issue to ask about. *)
Theorem case_links_well_formed detect dels db :
  case_run dels (mkCaseDb detect [] []) db →
  NoDup (map pair_of (cs_links db)) ∧
  ∀ l, l ∈ cs_links db →
    (∃ dest, dest ∈ cs_destinations db ∧ cd_id dest = cl_destination_id l) ∧
    (cl_sync_state l = CS_FAILED ↔ cl_external_id l = "") ∧ (active l = true → nonempty (cl_external_id l) = true).
Proof.
  intros Hrun. apply case_run_ok in Hrun as [Hi Hp Hd Hr Hs]; [|apply empty_case_ok]. split; [done|]. intros l Hl.
  rewrite Forall_forall in Hs. specialize (Hs l Hl). split_and!; [|done|].
  - destruct (proj1 (list_elem_of_fmap _ _ _) (Hr l Hl)) as (dest & Hid & Hin). by exists dest.
  - unfold active. rewrite bool_decide_eq_true. intros Ha. destruct (cl_external_id l) eqn:He; [|done].
    destruct Ha. rewrite (proj2 Hs He). set_solver.
Qed.

(** C30: an alert that has a link to a destination is never opened there a second
    time: after any further sequence of actions that does not delete the
    destination, what the tracker would answer to a request for it changes
    nothing of a synchronisation, so no such request is made. *)
Theorem linked_alert_not_reopened dels db db' l a E F T T' :
  case_ok db → l ∈ cs_links db → case_run dels db db' → cl_destination_id l ∉ dels → al_id a = cl_alert_id l →
  (∀ i, i ≠ cl_destination_id l → T i = T' i) →
  sync_alert_to_destinations E F T a db' = sync_alert_to_destinations E F T' a db'.
Proof.
  intros Hok Hl Hrun Hdel Ha HT. destruct (case_run_keeps _ _ _ _ Hrun Hok Hl Hdel) as [(l' & Hl' & _ & [= Ha' Hd']) _].
  unfold sync_alert_to_destinations. rewrite (sync_loop_tracker E F T T' _ _ (cl_destination_id l)); [done| |done].
  exists l'. split; [|done]. apply elem_of_filterb. split; [done|]. apply Z.eqb_eq. congruence.
Qed.

(** A failed link is final, also when the failure was transient: until its
    destination is deleted the row stays as it is, whatever the tracker answers
    later, and neither a state change of the alert nor the poller sends a request
    for it. *)
Theorem failed_link_final dels db db' l :
  case_ok db → l ∈ cs_links db → cl_sync_state l = CS_FAILED → case_run dels db db' → cl_destination_id l ∉ dels →
  l ∈ cs_links db' ∧
  (∀ E F T T', (∀ i, i ≠ cl_id l → T i = T' i) → run_once E F T db' = run_once E F T' db') ∧
  ∀ E F T T' a, al_id a = cl_alert_id l → (∀ i, i ≠ cl_destination_id l → T i = T' i) →
    sync_alert_to_destinations E F T a db' = sync_alert_to_destinations E F T' a db'.
Proof.
  intros Hok Hl Hf Hrun Hdel. assert (active l = false) as Ha by (unfold active; by rewrite Hf).
  pose proof (case_run_ok _ _ _ Hrun Hok) as [Hi _ _ _ _].
  destruct (case_run_keeps _ _ _ _ Hrun Hok Hl Hdel) as [_ Hk]. specialize (Hk Ha). split_and!; [done|..].
  - intros E F T T' HT. by apply (run_once_tracker E F T T' l).
  - intros E F T T' a Hid HT. unfold sync_alert_to_destinations.
    rewrite (sync_loop_tracker E F T T' _ _ (cl_destination_id l)); [done| |done].
    exists l. split; [|done]. apply elem_of_filterb. by rewrite Hid, Z.eqb_refl.
Qed.

(** C12: a synchronisation that returns has a link to every enabled destination,
    in their order: the one that was there, or a new one that says what the
    request came to.  One that raises stopped at the first destination whose
    request failed with something else than a CaseSyncError, and wrote nothing
    for that destination or a later one. *)
Theorem sync_mirrors_exactly E F T a db db' r :
  case_ok db → sync_alert_to_destinations E F T a db = (db', r) →
  match r with
  | Ok ls =>
      Forall2 (λ d l, l ∈ cs_links db' ∧ pair_of l = (al_id a, cd_id d) ∧
        (l ∈ cs_links db ∨
         pair_of l ∉ map pair_of (cs_links db) ∧
         match create_external_issue F T d a with
         | Ok (eid, url) => cl_external_id l = eid ∧ cl_external_url l = Some url ∧ cl_sync_state l = CS_OPEN
         | Err (CaseSyncError text _) => cl_sync_state l = CS_FAILED ∧ cl_error l = Some (take_str 512 text)
         | Err _ => False
         end)) (enabled_destinations db) ls
  | Err exc =>
      ∃ pre d post, enabled_destinations db = pre ++ d :: post ∧ (al_id a, cd_id d) ∉ map pair_of (cs_links db) ∧
        create_external_issue F T d a = Err exc ∧ (∀ text b, exc ≠ CaseSyncError text b) ∧
        ∀ l, l ∈ cs_links db' → l ∈ cs_links db ∨ cl_destination_id l ∈ map cd_id pre
  end.
Proof.
  intros Hok Hs. pose proof (sync_adds E F T a db) as (new & Hnew & _). rewrite Hs in Hnew. simpl in Hnew.
  unfold sync_alert_to_destinations in Hs. destruct (sync_loop _ _ _ _ _ _ _) as [links r'] eqn:Hl.
  injection Hs as <- <-. simpl in Hnew. destruct r' as [ls|exc].
  - eapply Forall2_impl; [by eapply sync_loop_Ok|]. intros d l [He|(He & Hin & id & Ho)].
    + apply existing_Some in He as [Hin Hp]. simpl. rewrite Hnew. split_and!; [set_solver|done|by left].
    + apply existing_None_pair in He. pose proof (outcome_link_ok _ _ _ _ _ _ _ Ho) as (_ & Hp & _). rewrite Hp.
      split_and!; [done|done|]. right. split; [done|]. unfold outcome_link in Ho.
      destruct (create_external_issue F T d a) as [[eid url]|exc]; [by injection Ho as <-|].
      destruct exc; try done. by injection Ho as <-.
  - apply sync_loop_Err in Hl as (pre & d & post & Hd & He & Hc & Hne & Hw). apply existing_None_pair in He.
    by exists pre, d, post.
Qed.

(** The hook of a sequence of state changes. *)
Definition state_changes (F : fernet) (events : list (env * tracker * Alert)) (db : case_db) : case_db :=
  foldl (λ db e, (sync_alert_to_destinations e.1.1 F e.1.2 e.2 db).1) db events.

(** A destination whose stored configuration can no longer be decrypted
    (the key was rotated) stops the mirroring into every destination after it:
    however many alerts change state and whatever the trackers answer, these get
    no new link, and neither does the broken one get a failed link. *)
Theorem unreadable_destination_starves F events db pre d post :
  case_ok db → enabled_destinations db = pre ++ d :: post →
  fernet_decrypt F (cd_config_encrypted d) = None → cd_id d ∉ map cl_destination_id (cs_links db) →
  ∀ l, l ∈ cs_links (state_changes F events db) → cl_destination_id l ∈ map cd_id (d :: post) → l ∈ cs_links db.
Proof.
  intros Hok Hen Hdec. assert (NoDup (map cd_id (pre ++ d :: post))) as Hnd.
  { rewrite <-Hen. apply NoDup_map_filterb, Hok. }
  rewrite map_app in Hnd. apply NoDup_app in Hnd as (_ & Hdisj & _). clear Hok. revert db Hen.
  induction events as [|[[E T] a] events IH]; intros db Hen Hun l Hl Hin; [done|]. cbn [state_changes foldl] in Hl.
  change (l ∈ cs_links (state_changes F events (sync_alert_to_destinations E F T a db).1)) in Hl.
  assert (∀ x, x ∈ cs_links (sync_alert_to_destinations E F T a db).1 → x ∈ cs_links db ∨ cl_destination_id x ∈ map cd_id pre)
    as Hnew.
  { intros x. unfold sync_alert_to_destinations. rewrite Hen.
    pose proof (sync_loop_blocked E F T a (links_of (al_id a) (cs_links db)) pre d post (cs_links db)) as Hb.
    destruct (sync_loop _ _ _ _ _ _ _). apply Hb.
    - apply existing_None_pair. intros (y & [= _ Hy] & Hiny)%list_elem_of_fmap. apply Hun. rewrite Hy.
      by apply list_elem_of_fmap_2.
    - intros id. unfold create_external_issue, Encryption.decrypt_config. by rewrite Hdec. }
  destruct (sync_adds E F T a db) as (_ & _ & Hd & _).
  apply IH in Hl; [|unfold enabled_destinations; by rewrite Hd| |done].
  - destruct (Hnew l Hl) as [|Hpre]; [done|]. by destruct (Hdisj _ Hpre).
  - intros (y & Hy & Hiny)%list_elem_of_fmap. destruct (Hnew y Hiny) as [|Hpre].
    + apply Hun. rewrite Hy. by apply list_elem_of_fmap_2.
    + rewrite <-Hy in Hpre. apply (Hdisj _ Hpre). by left.
Qed.

(** ** Registration *)

Lemma truthy_sort_keys v : truthy (sort_keys v) = truthy v.
Proof.
  destruct v as [| | | | |l|d]; try done; [by destruct l|]. cbn [sort_keys].
  pose proof (Permutation_length (sort_items_perm (map (λ kv, (kv.1, sort_keys kv.2)) d))) as Hlen.
  rewrite length_map in Hlen. by destruct d, (sort_items _).
Qed.

Lemma stored_case_config F config :
  (∀ b, fernet_decrypt F (fernet_encrypt F b) = Some b) → plain (PDict config) →
  ∃ config', Encryption.decrypt_config F (Encryption.encrypt_config F config) = Ok (PDict config') ∧
    ∀ k, get_none k config' = sort_keys (get_none k config).
Proof.
  intros HF Hp. assert (∀ k, ∃ config', Encryption.decrypt_config F (Encryption.encrypt_config F config) = Ok (PDict config') ∧
    dict_get k config' = sort_keys <$> dict_get k config) as Hk.
  { intros k. destruct (stored_config F config k HF Hp) as (config' & Hd & Hg). exists config'. split; [|done].
    rewrite <-Hd. unfold Encryption.decrypt_config, decrypt_config, encrypt_config, Encryption.encrypt_config. by rewrite HF. }
  destruct (Hk "") as (config' & Hd & _). exists config'. split; [done|]. intros k.
  destruct (Hk k) as (config2 & Hd2 & Hg). rewrite Hd in Hd2. injection Hd2 as <-.
  unfold get_none, get_default. rewrite Hg. by destruct (dict_get k config).
Qed.

Lemma missing_fields_stored keys config config' :
  (∀ k, get_none k config' = sort_keys (get_none k config)) → missing_fields keys config' = missing_fields keys config.
Proof.
  intros Hg. unfold missing_fields. apply filter_ext. intros k. by rewrite Hg, truthy_sort_keys.
Qed.

(** A request that gets no answer, or one of a server error. *)
Lemma request_fails {A} what ans (k : http_response → py A) :
  match ans with
  | HTTPError text => ∃ m, (resp ← send what ans; _ ← check_response what resp; k resp) = Err (CaseSyncError m true)
  | Raised exc => (resp ← send what ans; _ ← check_response what resp; k resp) = Err exc
  | Response resp => 500 <= rs_status_code resp →
      ∃ m, (resp ← send what ans; _ ← check_response what resp; k resp) = Err (CaseSyncError m true)
  end.
Proof.
  destruct ans as [text|exc|resp]; cbn [send mbind res_bind]; [by eexists|done|].
  intros Hr. unfold check_response. rewrite (proj2 (Z.leb_le 500 _)) by done. by eexists.
Qed.

(** The request a client makes first. *)
Definition first_request (a : Alert) (dest : CaseDestination) (base user secret : str) (q : http_request) : Prop :=
  hr_method q = POST ∧ hr_auth q = (user, secret) ∧
  hr_url q = base +:+ match cd_kind dest with JIRA => Jira.CREATE_PATH | SERVICENOW => ServiceNow.CREATE_PATH end.

(** The names of the fields a client reads its address and credentials from. *)
Definition credential_fields (k : CaseDestinationKind) : str * str * str :=
  match k with JIRA => ("base_url", "email", "api_token") | SERVICENOW => ("instance_url", "username", "password") end.

(** The test of the registration form is the test of the client: a
    destination that the API accepts never fails for a missing field, and every
    alert is posted to the address of the request with its credentials, although
    the configuration has been serialised, encrypted and read back in between. *)
Theorem registered_destination_posts E F kind name config enabled actor db db' dest a base user secret :
  create_destination E F kind name config enabled actor db = Ok (db', dest) →
  (∀ b, fernet_decrypt F (fernet_encrypt F b) = Some b) → plain (PDict config) →
  let '(kb, ku, ks) := credential_fields kind in
  dict_get kb config = Some (PStr base) → dict_get ku config = Some (PStr user) → dict_get ks config = Some (PStr secret) →
  dest ∈ cs_destinations db' ∧
  ∃ q, first_request a dest (rstrip_by (Ascii.eqb "/") base) user secret q ∧
    ∀ T, match T (cd_id dest) q with
         | HTTPError text => ∃ m, create_external_issue F T dest a = Err (CaseSyncError m true)
         | Raised exc => create_external_issue F T dest a = Err exc
         | Response resp => 500 <= rs_status_code resp → ∃ m, create_external_issue F T dest a = Err (CaseSyncError m true)
         end.
Proof.
  intros Hc HF Hp. apply create_destination_tables in Hc as (_ & Hd & Hreq & Hk & Hcfg).
  destruct (stored_case_config F config HF Hp) as (config' & Hdec & Hg).
  assert (∀ k s, dict_get k config = Some (PStr s) → field k config' = s) as Hfield.
  { intros k s Hs. unfold field. rewrite Hg. unfold get_none, get_default. by rewrite Hs. }
  rewrite Hd. unfold check_required in Hreq. rewrite <-(missing_fields_stored _ config config' Hg) in Hreq.
  destruct (missing_fields _ config') eqn:Hm; [|done].
  destruct kind; cbn [credential_fields]; intros Hb Hu Hs; (split; [set_solver|]);
    unfold create_external_issue; rewrite Hcfg, Hdec, Hk; cbn [mbind res_bind].
  - unfold Jira.create_issue, Jira.required. cbn [as_dict of_option mbind res_bind].
    change (missing_fields Jira.required_fields config' = []) in Hm. rewrite Hm. cbn [mbind res_bind].
    rewrite (Hfield _ _ Hb), (Hfield _ _ Hu), (Hfield _ _ Hs).
    eexists. split; [|intros T; exact (request_fails "jira create" (T (cd_id dest) _) _)].
    unfold first_request. rewrite Hk. split_and!; reflexivity.
  - unfold ServiceNow.create_issue, ServiceNow.required. cbn [as_dict of_option mbind res_bind].
    change (missing_fields ServiceNow.required_fields config' = []) in Hm. rewrite Hm. cbn [mbind res_bind].
    rewrite (Hfield _ _ Hb), (Hfield _ _ Hu), (Hfield _ _ Hs).
    eexists. split; [|intros T; exact (request_fails "servicenow create" (T (cd_id dest) _) _)].
    unfold first_request. rewrite Hk. split_and!; reflexivity.
Qed.

(** ** Examples *)

Definition demo_jira : dict :=
  [("base_url", PStr "https://acme.example/"); ("email", PStr "soc@acme.example"); ("api_token", PStr "t");
   ("project_key", PStr "SEC")].
Definition demo_tracker : tracker := λ _ _, Response (mkHttpResponse 201 "" (Ok (PDict [("key", PStr "SEC-1")]))).
Definition demo_down : tracker := λ _ _, HTTPError "timed out".
Definition demo_case0 : case_db := mkCaseDb (mkDetectDb demo_jobs [] [] [] [] [] [] []) [] [].
Definition demo_registered : py (case_db * CaseDestination) := Eval vm_compute in
  create_destination demo_env demo_fernet JIRA "soc" demo_jira true (demo_admin 1) demo_case0.
Definition demo_dest : CaseDestination := Eval vm_compute in
  match demo_registered with Ok (_, d) => d | Err _ => mkDestination 0 JIRA "" "" false 0 end.
Definition demo_case1 : case_db := Eval vm_compute in match demo_registered with Ok (db, _) => db | Err _ => demo_case0 end.
Definition demo_failed : case_db := Eval vm_compute in
  (sync_alert_to_destinations demo_env demo_fernet demo_down (demo_routed 1 1) demo_case1).1.
Definition demo_failed_row : CaseLink := Eval vm_compute in
  default (mkLink 0 0 0 "" None None CS_OPEN None 0) (head (cs_links demo_failed)).

Lemma demo_registered_eq :
  create_destination demo_env demo_fernet JIRA "soc" demo_jira true (demo_admin 1) demo_case0 = Ok (demo_case1, demo_dest).
Proof. vm_compute. reflexivity. Qed.
Lemma demo_step1 : case_step None demo_case0 demo_case1.
Proof. eapply CST_create; [apply demo_registered_eq|apply not_elem_of_nil]. Qed.
Lemma demo_step2 : case_step None demo_case1 demo_failed.
Proof.
  change demo_failed with (sync_alert_to_destinations demo_env demo_fernet demo_down (demo_routed 1 1) demo_case1).1.
  constructor. split; [exact Nat2Z.inj|]. intros n. apply not_elem_of_nil.
Qed.
Lemma demo_run : case_run [] demo_case0 demo_failed.
Proof. apply (CR_cons None [] _ _ _ demo_step1), (CR_cons None [] _ _ _ demo_step2), CR_nil. Qed.
Lemma demo_failed_ok : case_ok demo_failed.
Proof. eapply case_run_ok; [apply demo_run|apply empty_case_ok]. Qed.
Lemma demo_poll : case_run [] demo_failed (run_once demo_env demo_fernet demo_tracker demo_failed).1.
Proof. apply (CR_cons None [] _ _ _ (CST_poll demo_env demo_fernet demo_tracker _)), CR_nil. Qed.

Lemma case_links_well_formed_witness : NoDup (map pair_of (cs_links demo_failed)).
Proof. apply (case_links_well_formed (cs_detect demo_case0) [] demo_failed). exact demo_run. Defined.

Lemma linked_alert_not_reopened_witness :
  sync_alert_to_destinations demo_env demo_fernet demo_tracker (demo_routed 1 1) demo_failed =
  sync_alert_to_destinations demo_env demo_fernet (λ i q, if i =? 0 then HTTPError "never sent" else demo_tracker i q)
    (demo_routed 1 1) demo_failed.
Proof.
  apply (linked_alert_not_reopened [] demo_failed demo_failed demo_failed_row).
  - apply demo_failed_ok.
  - by left.
  - apply CR_nil.
  - apply not_elem_of_nil.
  - reflexivity.
  - intros i Hi. by rewrite (proj2 (Z.eqb_neq i 0)).
Defined.

Lemma failed_link_final_witness : demo_failed_row ∈ cs_links (run_once demo_env demo_fernet demo_tracker demo_failed).1.
Proof.
  apply (failed_link_final [] demo_failed _ demo_failed_row).
  - apply demo_failed_ok.
  - by left.
  - reflexivity.
  - apply demo_poll.
  - apply not_elem_of_nil.
Defined.

Lemma sync_mirrors_exactly_witness : ∃ db' ls,
  sync_alert_to_destinations demo_env demo_fernet demo_tracker (demo_routed 2 1) demo_failed = (db', Ok ls) ∧
  length ls = 1%nat.
Proof.
  pose proof (sync_mirrors_exactly demo_env demo_fernet demo_tracker (demo_routed 2 1) demo_failed) as H.
  destruct (sync_alert_to_destinations _ _ _ _ _) as [db' r] eqn:Hs. specialize (H db' r demo_failed_ok eq_refl).
  destruct r as [ls|exc]; [|vm_compute in Hs; discriminate Hs]. exists db', ls. split; [reflexivity|].
  apply Forall2_length in H. by rewrite <-H.
Defined.

Definition demo_broken : CaseDestination := mkDestination 500 JIRA "old key" "garbage" true 0.
Definition demo_case3 : case_db := set_destinations [demo_broken; demo_dest] demo_case0.
Lemma demo_case3_ok : case_ok demo_case3.
Proof.
  split; try apply NoDup_nil_2; try apply Forall_nil_2; [|intros l Hl; by apply not_elem_of_nil in Hl].
  vm_compute. repeat constructor; set_solver.
Qed.

Lemma unreadable_destination_starves_witness :
  ∀ l, l ∈ cs_links (state_changes demo_fernet [(demo_env, demo_tracker, demo_routed 1 1)] demo_case3) →
    cl_destination_id l ∈ [500; 0] → l ∈ [].
Proof.
  apply (unreadable_destination_starves demo_fernet [(demo_env, demo_tracker, demo_routed 1 1)] demo_case3 [] demo_broken [demo_dest]).
  - apply demo_case3_ok.
  - reflexivity.
  - reflexivity.
  - apply not_elem_of_nil.
Defined.

Lemma registered_destination_posts_witness :
  demo_dest ∈ cs_destinations demo_case1 ∧
  ∃ q, first_request (demo_routed 1 1) demo_dest "https://acme.example" "soc@acme.example" "t" q.
Proof.
  destruct (registered_destination_posts demo_env demo_fernet JIRA "soc" demo_jira true (demo_admin 1) demo_case0 demo_case1
              demo_dest (demo_routed 1 1) "https://acme.example/" "soc@acme.example" "t") as [Hin (q & Hq & _)].
  - apply demo_registered_eq.
  - done.
  - split; reflexivity.
  - reflexivity.
  - reflexivity.
  - reflexivity.
  - split; [exact Hin|]. exists q. exact Hq.
Defined.
