(* ===== verification/Triage.v ===== *)
(** * Triage: the alert and incident routes

    api/alerts.py (list, stats, stream, detail, state changes, assignment),
    api/incidents.py, services/sorting.py and services/event_bus.py.  A state
    change of an alert runs the hook of Cases; the other writers of the same
    tables are the detector (Detector) and the grouping pass (Incidents).  The
    order of a query, the search index and the webhook topic are arguments. *)

From Stdlib Require Import Ascii String.
From S2P Require Import Prelude PyStr PyVal PyJson PyTime Crypto PyText PyJsonRead Models AuditChain Rollout.
From S2P Require Import Scoping Jobs Commands Fleet Routing Dedup Response Detector Incidents Cases.
Local Open Scope string_scope.
Local Open Scope list_scope.
Local Open Scope Z_scope.

(** ** State *)

Record triage_db := mkTriageDb {
  tg_cases : case_db;
  tg_incidents : list Incident;
  tg_users : list (uuid * uuid);     (* users: id, tenant_id *)
  tg_events : list (str * dict)      (* the webhook topic *)
}.

Definition tg_detect (db : triage_db) : detect_db := cs_detect (tg_cases db).
Definition tg_scope (db : triage_db) : scope_db := jd_scope (dd_job (tg_detect db)).
Definition tg_alerts (db : triage_db) : list Alert := dd_alerts (tg_detect db).
Definition tg_history (db : triage_db) : list AlertStateHistory := dd_history (tg_detect db).

Definition set_cases (c : case_db) (db : triage_db) : triage_db :=
  mkTriageDb c (tg_incidents db) (tg_users db) (tg_events db).
Definition set_tg_detect (d : detect_db) (db : triage_db) : triage_db :=
  set_cases (mkCaseDb d (cs_destinations (tg_cases db)) (cs_links (tg_cases db))) db.
Definition set_tg_incidents (l : list Incident) (db : triage_db) : triage_db :=
  mkTriageDb (tg_cases db) l (tg_users db) (tg_events db).

Definition update_alert (aid : uuid) (f : Alert → Alert) (l : list Alert) : list Alert :=
  map (λ a, if al_id a =? aid then f a else a) l.
Definition update_incident (iid : uuid) (f : Incident → Incident) (l : list Incident) : list Incident :=
  map (λ i, if inc_id i =? iid then f i else i) l.

(** ** The webhook topic (services/event_bus.py) *)

Record event_bus := mkBus {
  bus_setting : option str;            (* VIGIL_WEBHOOK_EVENT_BUS_ENABLED *)
  bus_test_env : option str;           (* VIGIL_TEST_ENV *)
  bus_accepts : str → dict → bool      (* the producer takes the message *)
}.

Definition bus_enabled (B : event_bus) : bool :=
  match bus_setting B with
  | Some raw => negb (String.eqb raw "0")
  | None => negb (bool_decide (bus_test_env B = Some "1"))
  end.

(** A failure of the producer is swallowed. *)
Definition publish_event (B : event_bus) (event_type : str) (payload : dict) (db : triage_db) : triage_db :=
  if bus_enabled B && bus_accepts B event_type payload
  then mkTriageDb (tg_cases db) (tg_incidents db) (tg_users db) (tg_events db ++ [(event_type, payload)])
  else db.

(** ** Sorting (services/sorting.py) *)

(** The column and whether it descends; [None] is the default order. *)
Definition parse_sort (sort : option str) (allowed : list str) : py (option (str * bool)) :=
  match sort with
  | None | Some "" => Ok None
  | Some s =>
      let '(field, direction) := default (s, "") (split_first ":" s) in
      let direction := or_str direction "asc" in
      if negb (bool_decide (field ∈ allowed)) then Err (HTTPException 400)
      else if negb (bool_decide (direction ∈ ["asc"; "desc"])) then Err (HTTPException 400)
      else Ok (Some (field, String.eqb direction "desc"))
  end.

Definition ALERT_SORTABLE : list str := ["opened_at"; "severity"; "state"; "updated_at"; "host_hostname"; "rule_name"].
Definition INCIDENT_SORTABLE : list str := ["opened_at"; "severity"; "status"; "updated_at"; "host_hostname"].

(** schemas/common.py, [Page]: its bounds are checked when the answer is built. *)
Record Page (A : Type) := mkPage { pg_items : list A; pg_total : Z; pg_limit : Z; pg_offset : Z }.
Arguments mkPage {A} _ _ _ _.
Arguments pg_items {A} _.
Arguments pg_total {A} _.
Definition page {A} (rows : list A) (limit offset : Z) : py (Page A) :=
  if (limit <? 0) || (offset <? 0) then Err DataError
  else if negb ((1 <=? limit) && (limit <=? 500)) then Err ValueError
  else Ok (mkPage (take (Z.to_nat limit) (drop (Z.to_nat offset) rows)) (Z.of_nat (length rows)) limit offset).

(** ** Reading *)

Definition require_viewer (actor : Actor) : py unit :=
  if has_role actor [ADMIN; ANALYST; VIEWER] then Ok tt else Err (HTTPException 403).

Definition hostname_of (db : triage_db) (hid : option uuid) : option str :=
  hid ≫= λ h, host_hostname <$> List.find (λ x, host_id x =? h) (sc_hosts (tg_scope db)).
Definition rule_of (db : triage_db) (rid : uuid) : option Rule :=
  List.find (λ r, rule_id r =? rid) (dd_rules (tg_detect db)).

(** A row of [select(Alert, Host.hostname, Rule.name)] with the two joins. *)
Definition AlertRow : Type := Alert * option str * str.
Definition alert_row (db : triage_db) (a : Alert) : option AlertRow :=
  (λ r, (a, hostname_of db (al_host_id a), rule_name r)) <$> rule_of db (al_rule_id a).

(** [LIKE]: [%] is any text, [_] any character, a backslash escapes. *)
Fixpoint suffixes (s : str) : list str :=
  s :: match s with "" => [] | String _ s' => suffixes s' end.
Fixpoint like (p s : str) : bool :=
  match p with
  | "" => String.eqb s ""
  | String c p' =>
      if Ascii.eqb c "%" then existsb (like p') (suffixes s)
      else match s with
           | "" => false
           | String d s' =>
               if Ascii.eqb c backslash then
                 match p' with "" => false | String e p'' => Ascii.eqb e d && like p'' s' end
               else (Ascii.eqb c "_" || Ascii.eqb c d) && like p' s'
           end
  end.
Definition ilike (p s : str) : bool := like (lower p) (lower s).

Record AlertFilter := mkAlertFilter {
  af_state : option AlertState;
  af_severity : option Severity;
  af_host_id : option uuid;
  af_rule_id : option uuid;
  af_host_hostname : option str;
  af_rule_name : option str;
  af_q : option str
}.

(** [if x: stmt.where(col == x)]: the empty string does not filter. *)
Definition where_eq {A} `{EqDecision A} (x : option A) (col : option A) : bool :=
  match x with Some v => bool_decide (col = Some v) | None => true end.
Definition given (x : option str) : option str := match x with Some "" => None | _ => x end.

Definition alert_matches (f : AlertFilter) (row : AlertRow) : bool :=
  let '(a, hostname, rname) := row in
  where_eq (af_state f) (Some (al_state a)) && where_eq (af_severity f) (Some (al_severity a)) &&
  where_eq (af_host_id f) (al_host_id a) && where_eq (af_rule_id f) (Some (al_rule_id a)) &&
  where_eq (given (af_host_hostname f)) hostname && where_eq (given (af_rule_name f)) (Some rname) &&
  match given (af_q f) with Some q => ilike ("%" +:+ q +:+ "%") (al_summary a) | None => true end.

Definition matching_alerts (actor : Actor) (f : AlertFilter) (db : triage_db) : list AlertRow :=
  apply_host_scope (tg_scope db) actor (λ row, al_host_id row.1.1)
    (List.filter (alert_matches f) (omap (alert_row db) (tg_alerts db))).

Definition list_alerts (order_by : option (str * bool) → list AlertRow → list AlertRow) (f : AlertFilter)
    (sort : option str) (limit offset : Z) (actor : Actor) (db : triage_db) : py (Page AlertRow) :=
  _ ← require_viewer actor;
  order ← parse_sort sort ALERT_SORTABLE;
  page (order_by order (matching_alerts actor f db)) limit offset.

(** *** Charts *)

(** [select(key, count(id)) … group_by(key)], in the order of the first rows. *)
Definition group_count {K} `{EqDecision K} (keys : list K) : list (K * Z) :=
  map (λ k, (k, Z.of_nat (length (List.filter (λ x, bool_decide (x = k)) keys)))) (dedup keys).

(** [order_by(count.desc()).limit(10)] *)
Definition top10 (l : list (str * Z)) : list (str * Z) := take 10 (sort_by (λ kc, - kc.2) l).

Definition hour_us : Z := 3600000000.
Definition trunc_hour (t : datetime) : datetime := t - t mod hour_us.

(** [_hourly_stmt] *)
Definition hourly_rows (now : datetime) (alerts : list Alert) : list (datetime * Z) :=
  group_count (map (λ a, trunc_hour (al_opened_at a))
    (List.filter (λ a, now - 23 * hour_us <=? al_opened_at a) alerts)).

Definition fill_hourly (now : datetime) (rows : list (datetime * Z)) : list (str * Z) :=
  let count t := match List.find (λ r, trunc_hour r.1 =? t) (rev rows) with Some r => r.2 | None => 0 end in
  map (λ i, let ts := trunc_hour now - Z.of_nat i * hour_us in (isoformat ts, count ts)) (rev (List.seq 0 24)).

Definition visible_alerts (actor : Actor) (db : triage_db) : list Alert :=
  apply_host_scope (tg_scope db) actor al_host_id (tg_alerts db).

Definition alert_stats (E : env) (bucket : str) (actor : Actor) (db : triage_db) : py (list (str * Z)) :=
  _ ← require_viewer actor;
  let alerts := visible_alerts actor db in
  if String.eqb bucket "severity" then Ok (group_count (map (λ a, Severity_value (al_severity a)) alerts))
  else if String.eqb bucket "state" then Ok (group_count (map (λ a, AlertState_value (al_state a)) alerts))
  else if String.eqb bucket "host" then Ok (top10 (group_count (omap (λ a, hostname_of db (al_host_id a)) alerts)))
  else if String.eqb bucket "rule" then
    Ok (top10 (group_count (omap (λ a, rule_name <$> rule_of db (al_rule_id a)) alerts)))
  else if String.eqb bucket "hour" then Ok (fill_hourly (env_now E) (hourly_rows (env_now E) alerts))
  else Err (HTTPException 400).

(** *** The stream *)

(** What a subscriber gets of an event of the broker; [UUID(x)] of something that
    is no string is an AttributeError, which ends the stream. *)
Definition stream_event (actor : Actor) (event : dict) (db : triage_db) : py (option (str * str)) :=
  let send h :=
    Ok (if host_visible_to actor h (tg_scope db) then Some ("alert", json_dumps (PDict event)) else None) in
  match get_none "host_id" event with
  | PNone => send None
  | PStr s => match uuid_of_str s with Some h => send (Some h) | None => Ok None end
  | _ => Err AttributeError
  end.

(** *** One alert *)

(** The alert with its rule, if the actor may see it. *)
Definition visible_alert (actor : Actor) (aid : uuid) (db : triage_db) : py AlertRow :=
  row ← of_option (HTTPException 404) (List.find (λ a, al_id a =? aid) (tg_alerts db) ≫= alert_row db);
  if negb (host_visible_to actor (al_host_id row.1.1) (tg_scope db)) then Err (HTTPException 404) else Ok row.

Record ContainerInfo := mkContainer { ci_id : str; ci_image : option str; ci_runtime : option str }.

(** The identifiers of the triggering events. *)
Definition trigger_ids (a : Alert) : list str :=
  let ids := default [] (al_telemetry_doc_ids a) in
  match get_none "event_id" (default [] (al_details a)) with
  | PStr extra => if nonempty extra && negb (bool_decide (extra ∈ ids)) then ids ++ [extra] else ids
  | _ => ids
  end.

Definition doc_container (doc : pyval) : option ContainerInfo :=
  match doc with
  | PDict d =>
      match get_none "container" d with
      | PDict c =>
          if truthy (get_none "id" c) then
            Some (mkContainer (py_str (get_none "id" c))
                    (match py_or (get_none "image" c) (PDict []) with
                     | PDict image => as_str (get_none "name" image) | _ => None end)
                    (as_str (get_none "runtime" c)))
          else None
      | _ => None
      end
  | _ => None
  end.

(** [fetch_events_by_ids] is [None] when the search fails. *)
Definition resolve_alert_container (fetch_events_by_ids : list str → option (list pyval)) (a : Alert) :
    option ContainerInfo :=
  match trigger_ids a with
  | [] => None
  | ids => match omap doc_container (default [] (fetch_events_by_ids ids)) with c :: _ => Some c | [] => None end
  end.

Record AlertDetail := mkAlertDetail {
  ad_row : AlertRow;
  ad_history : list AlertStateHistory;
  ad_container : option ContainerInfo;
  ad_case_links : list (CaseLink * str)
}.

Definition history_of (aid : uuid) (l : list AlertStateHistory) : list AlertStateHistory :=
  List.filter (λ h, ash_alert_id h =? aid) l.

Definition get_alert (fetch : list str → option (list pyval)) (aid : uuid) (actor : Actor) (db : triage_db) :
    py AlertDetail :=
  _ ← require_viewer actor;
  row ← visible_alert actor aid db;
  Ok (mkAlertDetail row (history_of aid (tg_history db)) (resolve_alert_container fetch row.1.1)
        (load_case_links (tg_cases db) aid)).

(** ** Writing *)

Section writes.
Context (E : env) (F : fernet) (T : tracker) (B : event_bus).

Definition triage_audited (actor : Actor) (action rtype rid : str) (payload : dict) (db : triage_db) : triage_db :=
  let j := dd_job (tg_detect db) in
  set_tg_detect
    (set_job_db
       (mkJobDb (jd_scope j) (jd_policies j) (jd_jobs j) (jd_runs j) (jd_commands j)
          (record (env_audit_key E) (Some actor) action (Some rtype) (Some rid) (Some payload) None None
             (env_now E) (env_uuid4 E (length (log (jd_audit j)))) (jd_audit j))) (tg_detect db)) db.

Definition opt_pystr (o : option str) : pyval := match o with Some s => PStr s | None => PNone end.
Definition opt_pyuuid (o : option uuid) : pyval := opt_pystr (uuid_str <$> o).

Definition is_closed (s : AlertState) : bool := bool_decide (s ∈ [FALSE_POSITIVE; TRUE_POSITIVE]).

(** [alert.state = to_state] with the close time. *)
Definition set_state (to_state : AlertState) (a : Alert) : Alert :=
  mkAlert (al_id a) (al_tenant_id a) (al_host_id a) (al_rule_id a) (al_severity a) (al_action_taken a) to_state
    (al_summary a) (al_details a) (al_telemetry_index a) (al_telemetry_doc_ids a) (al_mitre a) (al_opened_at a)
    (if is_closed to_state then Some (env_now E) else al_closed_at a) (al_assignee_id a) (al_incident_id a)
    (al_dedup_key a) (al_occurrence_count a) (al_last_occurred_at a).
Definition set_assignee (assignee : option uuid) (a : Alert) : Alert :=
  mkAlert (al_id a) (al_tenant_id a) (al_host_id a) (al_rule_id a) (al_severity a) (al_action_taken a) (al_state a)
    (al_summary a) (al_details a) (al_telemetry_index a) (al_telemetry_doc_ids a) (al_mitre a) (al_opened_at a)
    (al_closed_at a) assignee (al_incident_id a) (al_dedup_key a) (al_occurrence_count a) (al_last_occurred_at a).

Definition set_alert_rows (f : list Alert → list Alert) (h : list AlertStateHistory) (db : triage_db) : triage_db :=
  set_tg_detect (set_alerts (f (tg_alerts db)) (tg_history db ++ h) (tg_detect db)) db.

(** The row of the history; no tenant is passed. *)
Definition state_change_row (a : Alert) (to_state : AlertState) (comment : option str) (actor : Actor) :
    AlertStateHistory :=
  mkHistory (al_id a) DEFAULT_TENANT_ID (Some (al_state a)) to_state (Some (actor_user_id actor)) comment (env_now E).

Definition state_change_event (a : Alert) (to_state : AlertState) (comment : option str) : dict :=
  [("alert_id", PStr (uuid_str (al_id a))); ("from_state", PStr (AlertState_value (al_state a)));
   ("to_state", PStr (AlertState_value to_state)); ("severity", PStr (Severity_value (al_severity a)));
   ("host_id", opt_pyuuid (al_host_id a)); ("rule_id", PStr (uuid_str (al_rule_id a)));
   ("comment", opt_pystr comment)].

(** The detail of the answer has no container. *)
Definition change_state (aid : uuid) (to_state : AlertState) (comment : option str) (actor : Actor) (db : triage_db) :
    py (triage_db * AlertDetail) :=
  _ ← require_analyst actor;
  row ← visible_alert actor aid db;
  let '(alert, hostname, rname) := row in
  if negb (bool_decide (to_state ∈ ALERT_STATE_TRANSITIONS (al_state alert))) then Err (HTTPException 400)
  else
    let alert' := set_state to_state alert in
    let db := set_alert_rows (update_alert aid (set_state to_state)) [state_change_row alert to_state comment actor] db in
    let db := triage_audited actor "alert.state_change" "alert" (uuid_str aid)
                [("to_state", PStr (AlertState_value to_state)); ("comment", opt_pystr comment)] db in
    let db := publish_event B "alert.state_changed" (state_change_event alert to_state comment) db in
    let db := set_cases (sync_alert_to_destinations E F T alert' (tg_cases db)).1 db in
    Ok (db, mkAlertDetail (alert', hostname, rname) (history_of aid (tg_history db)) None
              (load_case_links (tg_cases db) aid)).

(** [db.get(User, id)], whatever its tenant. *)
Definition user_exists (db : triage_db) (assignee : option uuid) : bool :=
  match assignee with Some u => existsb (λ x, x.1 =? u) (tg_users db) | None => true end.

Definition assign_alert (aid : uuid) (assignee : option uuid) (actor : Actor) (db : triage_db) :
    py (triage_db * AlertDetail) :=
  _ ← require_analyst actor;
  row ← visible_alert actor aid db;
  let '(alert, hostname, rname) := row in
  if negb (user_exists db assignee) then Err (HTTPException 404)
  else
    let db := set_alert_rows (update_alert aid (set_assignee assignee)) [] db in
    let db := triage_audited actor "alert.assign" "alert" (uuid_str aid) [("assignee_id", opt_pyuuid assignee)] db in
    Ok (db, mkAlertDetail (set_assignee assignee alert, hostname, rname) (history_of aid (tg_history db)) None
              (load_case_links (tg_cases db) aid)).

(** ** Incidents (api/incidents.py) *)

Definition IncidentStatus_value (s : IncidentStatus) : str :=
  match s with IOPEN => "open" | IINVESTIGATING => "investigating" | IRESOLVED => "resolved" | ICLOSED => "closed" end.

Record IncidentDetail := mkIncidentDetail {
  idt_incident : Incident;
  idt_hostname : option str;
  idt_alerts : list AlertRow
}.

Definition visible_incident (actor : Actor) (iid : uuid) (db : triage_db) : py Incident :=
  i ← of_option (HTTPException 404) (List.find (λ i, inc_id i =? iid) (tg_incidents db));
  if negb (host_visible_to actor (inc_host_id i) (tg_scope db)) then Err (HTTPException 404) else Ok i.

Definition incident_alerts (db : triage_db) (iid : uuid) : list AlertRow :=
  sort_by (λ row, al_opened_at row.1.1)
    (omap (alert_row db) (List.filter (λ a, bool_decide (al_incident_id a = Some iid)) (tg_alerts db))).

Definition get_incident (iid : uuid) (actor : Actor) (db : triage_db) : py IncidentDetail :=
  _ ← require_viewer actor;
  i ← visible_incident actor iid db;
  Ok (mkIncidentDetail i (hostname_of db (inc_host_id i)) (incident_alerts db iid)).

Definition set_status (to_state : IncidentStatus) (i : Incident) : Incident :=
  mkIncident (inc_id i) (inc_tenant_id i) (inc_host_id i) (inc_title i) (inc_summary i) (inc_severity i) to_state
    (inc_opened_at i)
    (if bool_decide (to_state ∈ [IRESOLVED; ICLOSED]) then Some (env_now E) else None)
    (inc_assignee_id i) (inc_reason i).
Definition set_inc_assignee (assignee : option uuid) (i : Incident) : Incident :=
  mkIncident (inc_id i) (inc_tenant_id i) (inc_host_id i) (inc_title i) (inc_summary i) (inc_severity i) (inc_status i)
    (inc_opened_at i) (inc_closed_at i) assignee (inc_reason i).

Definition incident_event (i : Incident) (to_state : IncidentStatus) (comment : option str) : dict :=
  [("incident_id", PStr (uuid_str (inc_id i))); ("host_id", opt_pyuuid (inc_host_id i));
   ("to_state", PStr (IncidentStatus_value to_state)); ("comment", opt_pystr comment)].

Definition change_incident_state (iid : uuid) (to_state : IncidentStatus) (comment : option str) (actor : Actor)
    (db : triage_db) : py (triage_db * IncidentDetail) :=
  _ ← require_analyst actor;
  i ← visible_incident actor iid db;
  if negb (bool_decide (to_state ∈ INCIDENT_STATUS_TRANSITIONS (inc_status i))) then Err (HTTPException 400)
  else
    let db := set_tg_incidents (update_incident iid (set_status to_state) (tg_incidents db)) db in
    let db := triage_audited actor "incident.state_change" "incident" (uuid_str iid)
                [("to_state", PStr (IncidentStatus_value to_state)); ("comment", opt_pystr comment)] db in
    let db := match to_state with
              | IRESOLVED => publish_event B "incident.resolved" (incident_event i to_state comment) db
              | IOPEN | IINVESTIGATING => publish_event B "incident.opened" (incident_event i to_state comment) db
              | ICLOSED => db
              end in
    d ← get_incident iid actor db; Ok (db, d).

Definition assign_incident (iid : uuid) (assignee : option uuid) (actor : Actor) (db : triage_db) :
    py (triage_db * IncidentDetail) :=
  _ ← require_analyst actor;
  i ← visible_incident actor iid db;
  if negb (user_exists db assignee) then Err (HTTPException 404)
  else
    let db := set_tg_incidents (update_incident iid (set_inc_assignee assignee) (tg_incidents db)) db in
    let db := triage_audited actor "incident.assign" "incident" (uuid_str iid) [("assignee_id", opt_pyuuid assignee)] db in
    d ← get_incident iid actor db; Ok (db, d).
End writes.

(** A row of the list: the incident, the name of its host, its alerts counted. *)
Definition IncidentRow : Type := Incident * option str * Z.
Definition incident_row (db : triage_db) (i : Incident) : IncidentRow :=
  (i, hostname_of db (inc_host_id i),
   Z.of_nat (length (List.filter (λ a, bool_decide (al_incident_id a = Some (inc_id i))) (tg_alerts db)))).

Definition matching_incidents (actor : Actor) (status : option IncidentStatus) (hid : option uuid) (db : triage_db) :
    list IncidentRow :=
  apply_host_scope (tg_scope db) actor (λ row, inc_host_id row.1.1)
    (List.filter (λ row : IncidentRow, where_eq status (Some (inc_status row.1.1)) && where_eq hid (inc_host_id row.1.1))
       (map (incident_row db) (tg_incidents db))).

Definition list_incidents (order_by : option (str * bool) → list IncidentRow → list IncidentRow)
    (status : option IncidentStatus) (hid : option uuid) (sort : option str) (limit offset : Z) (actor : Actor)
    (db : triage_db) : py (Page IncidentRow) :=
  _ ← require_viewer actor;
  order ← parse_sort sort INCIDENT_SORTABLE;
  page (order_by order (matching_incidents actor status hid db)) limit offset.

(** ** The life of an alert *)

(** The rows of an alert's history lead from its creation to its state. *)
Inductive state_path : list AlertStateHistory → AlertState → Prop :=
| SP_created h : ash_from_state h = None → ash_to_state h = NEW → state_path [h] NEW
| SP_changed l s h :
    state_path l s → ash_from_state h = Some s → ash_to_state h ∈ ALERT_STATE_TRANSITIONS s →
    state_path (l ++ [h]) (ash_to_state h).

Definition closed_iff (a : Alert) : Prop := is_Some (al_closed_at a) ↔ is_closed (al_state a) = true.

Record lifecycle_ok (alerts : list Alert) (history : list AlertStateHistory) : Prop := {
  lo_ids : NoDup (map al_id alerts);
  lo_known : ∀ h, h ∈ history → ash_alert_id h ∈ map al_id alerts;
  lo_paths : ∀ a, a ∈ alerts → state_path (history_of (al_id a) history) (al_state a) ∧ closed_iff a
}.

(** What the life of an alert depends on. *)
Definition core (a : Alert) : uuid * AlertState * option datetime := (al_id a, al_state a, al_closed_at a).

Lemma map_id_core l : map al_id l = map (λ c, c.1.1) (map core l).
Proof. by rewrite map_map. Qed.

Lemma lifecycle_core alerts alerts' history :
  map core alerts' = map core alerts → lifecycle_ok alerts history → lifecycle_ok alerts' history.
Proof.
  intros Hc [Hi Hk Hp]. assert (map al_id alerts' = map al_id alerts) as Hids by (by rewrite !map_id_core, Hc).
  split; rewrite ?Hids; [done|done|]. intros a Ha.
  assert (core a ∈ map core alerts) as Hin by (rewrite <-Hc; by apply list_elem_of_fmap_2).
  apply list_elem_of_fmap in Hin as (b & [= Hid Hst Hcl] & Hb). unfold closed_iff. rewrite Hid, Hst, Hcl. by apply Hp.
Qed.

Lemma history_of_app aid l1 l2 : history_of aid (l1 ++ l2) = history_of aid l1 ++ history_of aid l2.
Proof. unfold history_of. apply List.filter_app. Qed.

Lemma history_of_unknown aid history :
  (∀ h, h ∈ history → ash_alert_id h ≠ aid) → history_of aid history = [].
Proof.
  intros Hk. unfold history_of. apply filter_none. intros h Hh. apply Z.eqb_neq. auto.
Qed.

Lemma lifecycle_insert alerts history a h :
  lifecycle_ok alerts history → al_id a ∉ map al_id alerts → al_state a = NEW → al_closed_at a = None →
  ash_alert_id h = al_id a → ash_from_state h = None → ash_to_state h = NEW →
  lifecycle_ok (alerts ++ [a]) (history ++ [h]).
Proof.
  intros [Hi Hk Hp] Hnew Hst Hcl Hid Hfrom Hto. split; rewrite ?map_app.
  - apply NoDup_app. split_and!; [done| |apply NoDup_singleton]. intros x Hx ->%list_elem_of_singleton. done.
  - intros x [Hx| ->%list_elem_of_singleton]%elem_of_app; [|set_solver]. apply elem_of_app. left. auto.
  - intros b [Hb| ->%list_elem_of_singleton]%elem_of_app; rewrite history_of_app; unfold history_of at 2; cbn [List.filter].
    + rewrite Hid. rewrite (proj2 (Z.eqb_neq _ _)); [rewrite app_nil_r; auto|].
      intros He. apply Hnew. rewrite He. by apply list_elem_of_fmap_2.
    + rewrite Hid, Z.eqb_refl. rewrite history_of_unknown; [|intros x Hx He; apply Hnew; rewrite <-He; auto].
      rewrite Hst. split; [by constructor|]. unfold closed_iff. rewrite Hcl, Hst. split; [by intros [? ?]|done].
Qed.

Lemma open_not_closed s t : t ∈ ALERT_STATE_TRANSITIONS s → is_closed s = false.
Proof. by destruct s; intros Ht; [..|apply not_elem_of_nil in Ht|apply not_elem_of_nil in Ht]. Qed.

Lemma lifecycle_change E alerts history a to_state comment actor :
  lifecycle_ok alerts history → a ∈ alerts → to_state ∈ ALERT_STATE_TRANSITIONS (al_state a) →
  lifecycle_ok (update_alert (al_id a) (set_state E to_state) alerts)
    (history ++ [state_change_row E a to_state comment actor]).
Proof.
  intros [Hi Hk Hp] Ha Ht.
  assert (map al_id (update_alert (al_id a) (set_state E to_state) alerts) = map al_id alerts) as Hids.
  { unfold update_alert. rewrite map_map. apply map_ext. intros b. by destruct (_ =? _). }
  split; rewrite ?Hids; [done| |].
  - intros x [Hx| ->%list_elem_of_singleton]%elem_of_app; [auto|]. by apply (list_elem_of_fmap_2 al_id).
  - intros b' (b & -> & Hb)%list_elem_of_fmap. rewrite history_of_app. unfold history_of at 2. cbn [List.filter state_change_row ash_alert_id].
    destruct (Z.eqb_spec (al_id b) (al_id a)) as [He|He].
    + rewrite (NoDup_key_inj al_id alerts b a) by done. cbn [set_state al_id al_state]. rewrite Z.eqb_refl.
      destruct (Hp a Ha) as [Hpath Hcl]. split.
      * by apply (SP_changed _ (al_state a) (state_change_row E a to_state comment actor)).
      * unfold closed_iff in *. cbn [set_state al_state al_closed_at]. rewrite (open_not_closed _ _ Ht) in Hcl.
        destruct (is_closed to_state); [split; [done|by eexists]|]. naive_solver.
    + rewrite (proj2 (Z.eqb_neq _ _)) by congruence. rewrite app_nil_r. by apply Hp.
Qed.

(** *** The detector *)

(** Identifiers still to be drawn are not in the table. *)
Definition draws_new (E : env) (alerts : list Alert) : Prop :=
  Inj (=) (=) (env_uuid4 E) ∧ ∀ n, (length alerts <= n)%nat → env_uuid4 E n ∉ map al_id alerts.

Section detect.
Context (E : env) (window_s : Z) (fmp : uuid → Severity → option (list str) → py (list uuid)).

Lemma emit_one_lifecycle tenant hid ecs m db db' r :
  emit_one E window_s fmp tenant hid ecs m db = Ok (db', r) → draws_new E (dd_alerts db) →
  lifecycle_ok (dd_alerts db) (dd_history db) →
  draws_new E (dd_alerts db') ∧ lifecycle_ok (dd_alerts db') (dd_history db').
Proof.
  unfold emit_one. intros H [Hinj Hn] Hok. apply res_bind_ok in H as (dkey & _ & H).
  destruct (find_open_dupe _ _ _ _) as [a|].
  - injection H as <- <-. simpl. set (alerts' := map _ _).
    assert (map core alerts' = map core (dd_alerts db)) as Hc.
    { unfold alerts'. rewrite map_map. apply map_ext. intros b. by destruct (_ =? _). }
    split; [|by eapply lifecycle_core]. split; [done|]. unfold alerts'. rewrite length_map. fold alerts'.
    by rewrite map_id_core, Hc, <-map_id_core.
  - apply res_bind_ok in H as (eid & _ & H). apply res_bind_ok in H as (db1 & Hq & H). injection H as <- <-.
    apply queue_command_ok in Hq as (_ & _ & _ & _ & _ & Ha & Hh & _). rewrite Ha, Hh. simpl. split.
    + split; [done|]. intros n Hle. rewrite length_app in Hle. simpl in Hle. rewrite map_app. simpl.
      intros [Hin| He%list_elem_of_singleton]%elem_of_app; [by apply (Hn n); [lia|]|]. apply Hinj in He. lia.
    + apply lifecycle_insert; try done. simpl. by apply Hn.
Qed.

Lemma emit_alerts_lifecycle hid ms ecs db db' out :
  emit_alerts E window_s fmp hid ms ecs db = Ok (db', out) → draws_new E (dd_alerts db) →
  lifecycle_ok (dd_alerts db) (dd_history db) → lifecycle_ok (dd_alerts db') (dd_history db').
Proof.
  unfold emit_alerts. intros H. apply res_bind_ok in H as (t & _ & H). apply res_bind_ok in H as ([tenant|] & _ & H);
    [|by injection H as <- _].
  revert db H. generalize (@nil (uuid * bool)) as acc. induction ms as [|m ms IH]; intros acc db H Hn Hok.
  - by injection H as <- _.
  - cbn [emit_loop] in H. apply res_bind_ok in H as ([db1 r] & H1 & H).
    destruct (emit_one_lifecycle _ _ _ _ _ _ _ H1 Hn Hok) as [Hn1 Hok1]. eauto.
Qed.
End detect.

(** *** The grouping pass *)

Definition inc_closed_iff (i : Incident) : Prop :=
  is_Some (inc_closed_at i) ↔ inc_status i ∈ [IRESOLVED; ICLOSED].

(** What a pass keeps. *)
Definition pass_keeps (db db' : inc_db) : Prop :=
  map core (id_alerts db') = map core (id_alerts db) ∧
  (Forall inc_closed_iff (id_incidents db) → Forall inc_closed_iff (id_incidents db')).

#[global] Instance pass_keeps_preorder : PreOrder pass_keeps.
Proof. split; [done|]. intros a b c [H1 H2] [H3 H4]. split; [congruence|auto]. Qed.

Lemma attach_keeps aid i db : pass_keeps db (attach aid i db).
Proof. split; [|done]. simpl. rewrite map_map. apply map_ext. intros a. by destruct (_ =? _). Qed.
Lemma update_incidents_keeps f db :
  (∀ i, inc_closed_iff i → inc_closed_iff (f i)) → pass_keeps db (update_incidents f db).
Proof. intros Hf. split; [done|]. simpl. intros H. apply Forall_map. eapply Forall_impl; [exact H|]. auto. Qed.
Lemma new_incident_keeps E db h a : pass_keeps db (add_incident (new_incident E db h a) db).
Proof.
  split; [done|]. simpl. intros H. apply Forall_app. split; [done|]. constructor; [|done].
  unfold inc_closed_iff. cbn. split; [by intros [? ?]|]. set_solver.
Qed.

Section pass.
Context (fetch : uuid → Z → option dict) (E : env) (window : Z).

Lemma group_one_keeps h st a : pass_keeps st.1.1 (group_one E window h st a).1.1.
Proof.
  destruct st as [[db hd] touched]. unfold group_one. cbv zeta.
  assert (∀ i, pass_keeps db (attach (al_id a) i (add_incident (new_incident E db h a) db))) as Hn.
  { intros i. etransitivity; [apply new_incident_keeps|apply attach_keeps]. }
  destruct hd as [[i ts]|]; [|apply Hn]. destruct (_ <=? _); [apply attach_keeps|apply Hn].
Qed.

Lemma group_host_keeps rows st h : pass_keeps st.1 (group_host E window rows st h).1.
Proof.
  destruct st as [db touched]. unfold group_host.
  assert (∀ alerts st, pass_keeps st.1.1 (foldl (group_one E window h) st alerts).1.1) as Hf.
  { intros alerts. induction alerts as [|a alerts IH]; intros st; [done|]. simpl.
    etransitivity; [apply group_one_keeps|apply IH]. }
  specialize (Hf (bucket rows h) (db, initial_head window db h (bucket rows h), touched)).
  destruct (foldl _ _ _) as [[db1 hd] touched1]. simpl in Hf |- *. etransitivity; [exact Hf|].
  unfold bump_severity. destruct hd as [[i ts]|]; [|done]. destruct (bool_decide _); [done|].
  apply update_incidents_keeps. intros x Hx. by destruct (_ =? _).
Qed.
End pass.

Lemma regroup_recent_keeps fetch E window_s db : pass_keeps db (regroup_recent fetch E window_s db).1.
Proof.
  unfold regroup_recent. destruct (window_s <=? 0); [done|]. cbv zeta.
  set (rows := List.filter _ _). assert (∀ hs st, pass_keeps st.1 (foldl (group_host E (window_s * 1000000) rows) st hs).1) as Hf.
  { intros hs. induction hs as [|h hs IH]; intros st; [done|]. simpl. etransitivity; [apply group_host_keeps|apply IH]. }
  specialize (Hf (hosts_of rows) (db, [])). destruct (foldl _ _ _) as [db1 touched]. simpl in Hf |- *.
  etransitivity; [exact Hf|]. apply update_incidents_keeps. intros i Hi. by destruct (_ && _).
Qed.

(** *** Runs *)

(** The tables as the grouping pass sees them. *)
Definition inc_view (chain : list (uuid * Z * option Z)) (db : triage_db) : inc_db :=
  mkIncDb (tg_alerts db) (tg_incidents db) (dd_rules (tg_detect db)) chain.

(** One action: a request of an analyst, the emission of the detector, a pass of
    the grouper. *)
Inductive triage_step : triage_db → triage_db → Prop :=
| TS_state E F T B aid to_state comment actor db db' d :
    change_state E F T B aid to_state comment actor db = Ok (db', d) → triage_step db db'
| TS_assign E aid assignee actor db db' d :
    assign_alert E aid assignee actor db = Ok (db', d) → triage_step db db'
| TS_incident_state E B iid to_state comment actor db db' d :
    change_incident_state E B iid to_state comment actor db = Ok (db', d) → triage_step db db'
| TS_incident_assign E iid assignee actor db db' d :
    assign_incident E iid assignee actor db = Ok (db', d) → triage_step db db'
| TS_detect E window_s fmp hid ms ecs db det out :
    emit_alerts E window_s fmp hid ms ecs (tg_detect db) = Ok (det, out) → draws_new E (tg_alerts db) →
    triage_step db (set_tg_detect det db)
| TS_group fetch E window_s chain db inc n :
    regroup_recent fetch E window_s (inc_view chain db) = (inc, n) →
    triage_step db (set_tg_incidents (id_incidents inc) (set_alert_rows (λ _, id_alerts inc) [] db)).

Definition triage_run : triage_db → triage_db → Prop := rtc triage_step.

Record triage_ok (db : triage_db) : Prop := {
  to_lifecycle : lifecycle_ok (tg_alerts db) (tg_history db);
  to_incidents : Forall inc_closed_iff (tg_incidents db)
}.

Lemma publish_event_tables B e p db :
  tg_cases (publish_event B e p db) = tg_cases db ∧ tg_incidents (publish_event B e p db) = tg_incidents db ∧
  tg_users (publish_event B e p db) = tg_users db.
Proof. unfold publish_event. by destruct (_ && _). Qed.
Lemma publish_event_detect B e p db : tg_detect (publish_event B e p db) = tg_detect db.
Proof. unfold tg_detect. by destruct (publish_event_tables B e p db) as [-> _]. Qed.

Lemma publish_event_incidents B e p db : tg_incidents (publish_event B e p db) = tg_incidents db.
Proof. by destruct (publish_event_tables B e p db) as (_ & -> & _). Qed.

Lemma sync_detect E F T a db : cs_detect (sync_alert_to_destinations E F T a db).1 = cs_detect db.
Proof. by destruct (sync_adds E F T a db) as (new & _ & _ & H & _). Qed.

Lemma detect_after_sync E F T a db :
  tg_detect (set_cases (sync_alert_to_destinations E F T a (tg_cases db)).1 db) = tg_detect db.
Proof. unfold tg_detect. cbn [set_cases tg_cases]. apply sync_detect. Qed.

Lemma visible_alert_ok actor aid db a hn rn :
  visible_alert actor aid db = Ok (a, hn, rn) →
  a ∈ tg_alerts db ∧ al_id a = aid ∧ host_visible_to actor (al_host_id a) (tg_scope db) = true ∧
  alert_row db a = Some (a, hn, rn).
Proof.
  unfold visible_alert. intros H. apply res_bind_ok in H as (row & Hr & H).
  destruct (host_visible_to _ _ _) eqn:Hv; [|done]. injection H as ->.
  destruct (List.find _ _) as [b|] eqn:Hf; [|done]. cbn [mbind option_bind] in Hr. unfold of_option in Hr.
  destruct (alert_row db b) as [row|] eqn:Hrow; [|done]. injection Hr as ->.
  apply find_some in Hf as [Hin Hid%Z.eqb_eq]. rewrite list_elem_of_In.
  unfold alert_row in Hrow. destruct (rule_of db (al_rule_id b)) eqn:Hrule; [|done]. injection Hrow as -> <- <-.
  unfold alert_row. rewrite Hrule. done.
Qed.

Lemma change_state_ok E F T B aid to_state comment actor db db' d :
  change_state E F T B aid to_state comment actor db = Ok (db', d) →
  ∃ a, a ∈ tg_alerts db ∧ al_id a = aid ∧ host_visible_to actor (al_host_id a) (tg_scope db) = true ∧
    to_state ∈ ALERT_STATE_TRANSITIONS (al_state a) ∧
    tg_alerts db' = update_alert aid (set_state E to_state) (tg_alerts db) ∧
    tg_history db' = tg_history db ++ [state_change_row E a to_state comment actor] ∧
    tg_incidents db' = tg_incidents db.
Proof.
  unfold change_state. intros H. apply res_bind_ok in H as ([] & _ & H).
  apply res_bind_ok in H as ([[a hn] rn] & Hv & H). apply visible_alert_ok in Hv as (Hin & Hid & Hvis & _).
  destruct (bool_decide (to_state ∈ _)) eqn:Ht; [|done]. apply bool_decide_eq_true in Ht. cbn [negb] in H.
  injection H as <- _. exists a. split_and!; [done..| | |].
  - unfold tg_alerts. by rewrite detect_after_sync, publish_event_detect.
  - unfold tg_history. by rewrite detect_after_sync, publish_event_detect.
  - cbn [set_cases tg_incidents]. by rewrite publish_event_incidents.
Qed.

Lemma assign_alert_ok E aid assignee actor db db' d :
  assign_alert E aid assignee actor db = Ok (db', d) →
  map core (tg_alerts db') = map core (tg_alerts db) ∧ tg_history db' = tg_history db ∧
  tg_incidents db' = tg_incidents db.
Proof.
  unfold assign_alert. intros H. apply res_bind_ok in H as ([] & _ & H).
  apply res_bind_ok in H as ([[a hn] rn] & _ & H). destruct (negb (user_exists _ _)); [done|]. injection H as <- _.
  unfold tg_alerts, tg_history. cbn. rewrite app_nil_r. split_and!; [|done|done]. unfold update_alert. rewrite map_map.
  apply map_ext. intros b. by destruct (_ =? _).
Qed.

Lemma visible_incident_ok actor iid db i :
  visible_incident actor iid db = Ok i →
  i ∈ tg_incidents db ∧ inc_id i = iid ∧ host_visible_to actor (inc_host_id i) (tg_scope db) = true.
Proof.
  unfold visible_incident, of_option. intros H. destruct (List.find _ _) as [x|] eqn:Hf; [|done]. cbn [mbind res_bind] in H.
  destruct (host_visible_to _ _ _) eqn:Hv; [|done]. injection H as ->. apply find_some in Hf as [Hin Hid%Z.eqb_eq].
  by rewrite list_elem_of_In.
Qed.

Lemma change_incident_state_ok E B iid to_state comment actor db db' d :
  change_incident_state E B iid to_state comment actor db = Ok (db', d) →
  tg_incidents db' = update_incident iid (set_status E to_state) (tg_incidents db) ∧
  tg_alerts db' = tg_alerts db ∧ tg_history db' = tg_history db ∧
  ∃ i, i ∈ tg_incidents db ∧ inc_id i = iid ∧ to_state ∈ INCIDENT_STATUS_TRANSITIONS (inc_status i).
Proof.
  unfold change_incident_state. intros H. apply res_bind_ok in H as ([] & _ & H).
  apply res_bind_ok in H as (i & Hi & H). apply visible_incident_ok in Hi as (Hin & Hid & _).
  destruct (bool_decide _) eqn:Ht; [|done]. apply bool_decide_eq_true in Ht. cbn [negb] in H. cbv zeta in H.
  apply res_bind_ok in H as (det & _ & H). injection H as <- _. unfold tg_alerts, tg_history.
  split_and!; [..|by exists i]; destruct to_state; by rewrite ?publish_event_detect, ?publish_event_incidents.
Qed.

Lemma assign_incident_ok E iid assignee actor db db' d :
  assign_incident E iid assignee actor db = Ok (db', d) →
  tg_incidents db' = update_incident iid (set_inc_assignee assignee) (tg_incidents db) ∧
  tg_alerts db' = tg_alerts db ∧ tg_history db' = tg_history db.
Proof.
  unfold assign_incident. intros H. apply res_bind_ok in H as ([] & _ & H). apply res_bind_ok in H as (i & _ & H).
  destruct (negb (user_exists _ _)); [done|]. apply res_bind_ok in H as (det & _ & H). by injection H as <- _.
Qed.

Lemma update_incident_Forall (P : Incident → Prop) iid f l :
  (∀ i, P i → P (f i)) → Forall P l → Forall P (update_incident iid f l).
Proof.
  intros Hf H. apply Forall_map. eapply Forall_impl; [exact H|]. intros i Hi. destruct (_ =? _); auto.
Qed.

Lemma set_status_closed E s i : inc_closed_iff (set_status E s i).
Proof.
  unfold inc_closed_iff. cbn. destruct (bool_decide _) eqn:Hb; [apply bool_decide_eq_true in Hb; split; [done|by eexists]|].
  apply bool_decide_eq_false in Hb. split; [by intros [? ?]|done].
Qed.

Lemma triage_step_ok db db' : triage_step db db' → triage_ok db → triage_ok db'.
Proof.
  intros Hst [Hl Hi]. destruct Hst as [E F T B aid s c actor db db' d H|E aid asg actor db db' d H
    |E B iid s c actor db db' d H|E iid asg actor db db' d H|E w fmp hid ms ecs db det out H Hn|fetch E w chain db inc n H].
  - apply change_state_ok in H as (a & Ha & <- & _ & Ht & Hal & Hh & Hinc). split; [|by rewrite Hinc].
    rewrite Hal, Hh. by apply lifecycle_change.
  - apply assign_alert_ok in H as (Hc & Hh & Hinc). split; [|by rewrite Hinc]. rewrite Hh. by eapply lifecycle_core.
  - apply change_incident_state_ok in H as (Hinc & Ha & Hh & _). split; [by rewrite Ha, Hh|]. rewrite Hinc.
    apply update_incident_Forall; [|done]. intros i _. apply set_status_closed.
  - apply assign_incident_ok in H as (Hinc & Ha & Hh). split; [by rewrite Ha, Hh|]. rewrite Hinc.
    by apply update_incident_Forall.
  - split; [|done]. by eapply emit_alerts_lifecycle.
  - pose proof (regroup_recent_keeps fetch E w (inc_view chain db)) as [Hc Hinc]. rewrite H in Hc, Hinc.
    split; [|by apply Hinc]. unfold tg_alerts, tg_history. cbn. rewrite app_nil_r. by eapply lifecycle_core.
Qed.

Lemma triage_run_ok db db' : triage_run db db' → triage_ok db → triage_ok db'.
Proof. induction 1; eauto using triage_step_ok. Qed.

(** *** Closed alerts *)

Lemma core_elem alerts alerts' a : map core alerts' = map core alerts → a ∈ alerts → ∃ a', a' ∈ alerts' ∧ core a' = core a.
Proof.
  intros Hc Ha. assert (core a ∈ map core alerts') as Hin by (rewrite Hc; by apply list_elem_of_fmap_2).
  apply list_elem_of_fmap in Hin as (a' & He & Ha'). eauto.
Qed.

Lemma emit_alerts_core E window_s fmp hid ms ecs db db' out :
  emit_alerts E window_s fmp hid ms ecs db = Ok (db', out) →
  ∀ a, a ∈ dd_alerts db → ∃ a', a' ∈ dd_alerts db' ∧ core a' = core a.
Proof.
  unfold emit_alerts. intros H. apply res_bind_ok in H as (t & _ & H). apply res_bind_ok in H as ([tenant|] & _ & H);
    [|injection H as <- _; eauto].
  revert db H. generalize (@nil (uuid * bool)) as acc. induction ms as [|m ms IH]; intros acc db H a Ha.
  { injection H as <- _. eauto. }
  cbn [emit_loop] in H. apply res_bind_ok in H as ([db1 r] & H1 & H).
  apply emit_one_represented in H1 as [Hev _]. destruct (Hev a Ha) as [Hin|Hin]; destruct (IH _ _ H _ Hin) as (a' & ? & ?); eauto.
Qed.

Lemma triage_step_closed db db' a :
  triage_step db db' → triage_ok db → a ∈ tg_alerts db → is_closed (al_state a) = true →
  ∃ a', a' ∈ tg_alerts db' ∧ core a' = core a.
Proof.
  intros Hst [[Hids _ _] _] Ha Hcl. destruct Hst as [E F T B aid s c actor db db' d H|E aid asg actor db db' d H
    |E B iid s c actor db db' d H|E iid asg actor db db' d H|E w fmp hid ms ecs db det out H Hn|fetch E w chain db inc n H].
  - apply change_state_ok in H as (b & Hb & <- & _ & Ht & Hal & _). exists a. split; [|done]. rewrite Hal.
    apply list_elem_of_fmap. exists a. split; [|done]. destruct (Z.eqb_spec (al_id a) (al_id b)) as [He|]; [|done].
    rewrite (NoDup_key_inj al_id (tg_alerts db) a b) in Hcl by done. by rewrite (open_not_closed _ _ Ht) in Hcl.
  - apply assign_alert_ok in H as (Hc & _). by eapply core_elem.
  - apply change_incident_state_ok in H as (_ & -> & _). eauto.
  - apply assign_incident_ok in H as (_ & -> & _). eauto.
  - by eapply emit_alerts_core.
  - pose proof (regroup_recent_keeps fetch E w (inc_view chain db)) as [Hc _]. rewrite H in Hc. by eapply core_elem.
Qed.

(** ** Correctness *)

(** C7: from empty tables on, whatever the analysts, the detector and the grouper
    do, the history of every alert is one path of the transition table from its
    creation to its present state, and an alert or incident has a close time
    exactly when its state is a closed one. *)
Theorem alert_lifecycle db0 db :
  tg_alerts db0 = [] → tg_history db0 = [] → tg_incidents db0 = [] → triage_run db0 db →
  (∀ a, a ∈ tg_alerts db →
     state_path (history_of (al_id a) (tg_history db)) (al_state a) ∧
     (is_Some (al_closed_at a) ↔ al_state a ∈ [FALSE_POSITIVE; TRUE_POSITIVE])) ∧
  (∀ i, i ∈ tg_incidents db → is_Some (inc_closed_at i) ↔ inc_status i ∈ [IRESOLVED; ICLOSED]).
Proof.
  intros Ha Hh Hi Hrun. apply triage_run_ok in Hrun as [[_ _ Hp] Hinc].
  - split; [|by rewrite Forall_forall in Hinc]. intros a Hin. destruct (Hp a Hin) as [Hpath Hc]. split; [done|].
    unfold closed_iff, is_closed in Hc. by rewrite bool_decide_eq_true in Hc.
  - split; [|by rewrite Hi]. rewrite Ha, Hh. split; [constructor|..]; intros x Hx; by apply not_elem_of_nil in Hx.
Qed.

(** A closed alert stays closed: no later request, emission or grouping pass
    changes its state or its close time; a recurrence opens another alert. *)
Theorem closed_alert_final db db' a :
  triage_ok db → a ∈ tg_alerts db → al_state a ∈ [FALSE_POSITIVE; TRUE_POSITIVE] → triage_run db db' →
  ∃ a', a' ∈ tg_alerts db' ∧ al_id a' = al_id a ∧ al_state a' = al_state a ∧ al_closed_at a' = al_closed_at a.
Proof.
  intros Hok Ha Hcl Hrun. assert (is_closed (al_state a) = true) as Hc by (by apply bool_decide_eq_true).
  clear Hcl. revert a Ha Hc. induction Hrun as [db|db db1 db' Hst _ IH]; intros a Ha Hc; [by exists a|].
  destruct (triage_step_closed _ _ _ Hst Hok Ha Hc) as (a1 & Ha1 & [= Hid Hs Ht]).
  destruct (IH (triage_step_ok _ _ Hst Hok) a1 Ha1) as (a' & Ha' & ? & ? & ?); [by rewrite Hs|].
  exists a'. split_and!; congruence.
Qed.

(** The mirror never blocks triage: whether a state change is accepted, its
    rows, its audit entry and its event do not depend on what the trackers answer
    or on whether the stored configurations can be decrypted. *)
Theorem mirror_never_blocks_triage E B aid to_state comment actor db F F' T T' :
  match change_state E F T B aid to_state comment actor db, change_state E F' T' B aid to_state comment actor db with
  | Ok (db1, _), Ok (db2, _) =>
      tg_detect db1 = tg_detect db2 ∧ tg_events db1 = tg_events db2 ∧ tg_incidents db1 = tg_incidents db2 ∧
      cs_destinations (tg_cases db1) = cs_destinations (tg_cases db2)
  | Err e1, Err e2 => e1 = e2
  | _, _ => False
  end.
Proof.
  unfold change_state. destruct (require_analyst actor) as [[]|]; [|done]. cbn [mbind res_bind].
  destruct (visible_alert actor aid db) as [[[a hn] rn]|]; [|done]. cbn [mbind res_bind]. destruct (negb _); [done|].
  cbv zeta. set (db1 := publish_event _ _ _ _). rewrite !detect_after_sync. split_and!; [done..|].
  cbn [set_cases tg_cases]. destruct (sync_adds E F T (set_state E to_state a) (tg_cases db1)) as (? & _ & -> & _).
  by destruct (sync_adds E F' T' (set_state E to_state a) (tg_cases db1)) as (? & _ & -> & _).
Qed.

(** *** Pages *)

Lemma pages_concat {A} (L n : nat) (rows : list A) :
  concat (map (λ k, take L (drop (k * L) rows)) (List.seq 0 n)) = take (n * L) rows.
Proof.
  induction n as [|n IH]; [done|]. rewrite seq_S, map_app, concat_app, IH. simpl. rewrite app_nil_r.
  rewrite (Nat.add_comm L). apply take_take_drop.
Qed.

Lemma page_items {A} (rows : list A) limit k :
  1 <= limit <= 500 →
  page rows limit (Z.of_nat k * limit) =
  Ok (mkPage (take (Z.to_nat limit) (drop (k * Z.to_nat limit) rows)) (Z.of_nat (length rows)) limit (Z.of_nat k * limit)).
Proof.
  intros Hl. unfold page. rewrite (proj2 (Z.ltb_ge limit 0)), (proj2 (Z.ltb_ge (Z.of_nat k * limit) 0)) by lia.
  rewrite (proj2 (Z.leb_le 1 limit)), (proj2 (Z.leb_le limit 500)) by lia. cbn [orb andb negb].
  rewrite Z2Nat.inj_mul, Nat2Z.id by lia. done.
Qed.

Definition page_of {A} (r : py (Page A)) : list A := match r with Ok p => pg_items p | Err _ => [] end.

Lemma find_by_key {A} (key : A → Z) l x :
  NoDup (map key l) → x ∈ l → List.find (λ y, key y =? key x) l = Some x.
Proof.
  intros Hnd Hx. destruct (List.find _ l) as [y|] eqn:Hf.
  - apply find_some in Hf as [Hy He%Z.eqb_eq]. apply list_elem_of_In in Hy. by rewrite (NoDup_key_inj key l y x).
  - apply list_elem_of_In in Hx. apply (find_none _ _ Hf) in Hx. by rewrite Z.eqb_refl in Hx.
Qed.

(** The rows an actor can list are those whose detail they can open. *)
Lemma elem_of_matching_alerts actor f db row :
  hosts_ok (tg_scope db) → NoDup (map al_id (tg_alerts db)) →
  row ∈ matching_alerts actor f db ↔ visible_alert actor (al_id row.1.1) db = Ok row ∧ alert_matches f row = true.
Proof.
  intros Hhosts Hids. unfold matching_alerts. rewrite elem_of_apply_host_scope by done.
  rewrite elem_of_filterb, list_elem_of_omap. split.
  - intros [[(a & Ha & Hrow) Hm] Hv]. split; [|done]. unfold visible_alert.
    assert (row.1.1 = a) as He.
    { unfold alert_row in Hrow. destruct (rule_of _ _); [|done]. by injection Hrow as <-. }
    rewrite He. rewrite (find_by_key al_id (tg_alerts db) a) by done. cbn [mbind option_bind]. rewrite Hrow.
    cbn [of_option mbind res_bind]. by rewrite Hv.
  - intros [Hv Hm]. destruct row as [[a hn] rn]. apply visible_alert_ok in Hv as (Ha & _ & Hvis & Hrow). eauto.
Qed.

(** The list and the detail of alerts show the same rows: for any order the
    database delivers, the pages of a list cover the rows that match the filter
    and that the actor can open one by one, each of them once, and the total is
    their number. *)
Theorem alert_pages_cover_visible order_by f sort limit n actor db :
  (∀ o l, order_by o l ≡ₚ l) → 1 <= limit <= 500 → has_role actor [ADMIN; ANALYST; VIEWER] = true →
  (∃ o, parse_sort sort ALERT_SORTABLE = Ok o) → hosts_ok (tg_scope db) → NoDup (map al_id (tg_alerts db)) →
  let pages := map (λ k, list_alerts order_by f sort limit (Z.of_nat k * limit) actor db) (List.seq 0 n) in
  ∃ rows, Forall (λ r, ∃ p, r = Ok p ∧ pg_total p = Z.of_nat (length rows)) pages ∧
    (Z.of_nat (length rows) <= Z.of_nat n * limit → concat (map page_of pages) ≡ₚ rows) ∧
    NoDup (map (λ row : AlertRow, al_id row.1.1) rows) ∧
    ∀ row, row ∈ rows ↔ visible_alert actor (al_id row.1.1) db = Ok row ∧ alert_matches f row = true.
Proof.
  intros Hord Hl Hrole [o Ho] Hhosts Hids. exists (matching_alerts actor f db).
  assert (∀ k, list_alerts order_by f sort limit (Z.of_nat k * limit) actor db =
    page (order_by o (matching_alerts actor f db)) limit (Z.of_nat k * limit)) as Hpage.
  { intros k. unfold list_alerts, require_viewer. rewrite Hrole. cbn [mbind res_bind]. rewrite Ho. done. }
  split_and!.
  - apply Forall_map, Forall_forall. intros k _. rewrite Hpage, page_items by done. eexists. split; [done|]. simpl.
    by rewrite Hord.
  - intros Hn. rewrite map_map. rewrite (map_ext _ (λ k, take (Z.to_nat limit) (drop (k * Z.to_nat limit)
      (order_by o (matching_alerts actor f db))))) by (intros k; by rewrite Hpage, page_items).
    rewrite pages_concat, take_ge; [apply Hord|]. rewrite Hord. nia.
  - unfold matching_alerts, apply_host_scope.
    assert (NoDup (map (λ row : AlertRow, al_id row.1.1) (omap (alert_row db) (tg_alerts db)))) as Hnd.
    { revert Hids. generalize (tg_alerts db) as l. induction l as [|a l IH]; intros Hnd; [constructor|].
      cbn [map] in Hnd. apply NoDup_cons in Hnd as [Hna Hnd]. cbn. unfold alert_row at 1.
      destruct (rule_of _ _); simpl; [|by apply IH]. apply NoDup_cons. split; [|by apply IH].
      intros (row & Hid & Hin)%list_elem_of_fmap. apply Hna. apply list_elem_of_omap in Hin as (b & Hb & Hrow).
      unfold alert_row in Hrow. destruct (rule_of db (al_rule_id b)); [|done]. injection Hrow as <-. simpl in Hid.
      rewrite Hid. by apply list_elem_of_fmap_2. }
    destruct (is_admin actor); by repeat apply NoDup_map_filterb.
  - intros row. by apply elem_of_matching_alerts.
Qed.

(** *** Charts *)

Lemma trunc_hour_idem t : trunc_hour (trunc_hour t) = trunc_hour t.
Proof.
  unfold trunc_hour, hour_us. pose proof (Z.div_mod t 3600000000 ltac:(done)).
  replace (t - t mod 3600000000) with (t / 3600000000 * 3600000000) by lia. rewrite Z.mod_mul by done. lia.
Qed.

Lemma group_count_find keys t :
  (∀ k, k ∈ keys → trunc_hour k = k) →
  match List.find (λ r, trunc_hour r.1 =? t) (rev (group_count keys)) with Some r => r.2 | None => 0 end =
  Z.of_nat (length (List.filter (λ k, bool_decide (k = t)) keys)).
Proof.
  intros Ht. destruct (List.find _ _) as [[k c]|] eqn:Hf.
  - apply find_some in Hf as [Hin He%Z.eqb_eq]. rewrite <-in_rev in Hin. apply list_elem_of_In in Hin.
    apply list_elem_of_fmap in Hin as (k' & [= -> ->] & Hk). rewrite elem_of_dedup in Hk. simpl in He |- *.
    by rewrite (Ht k' Hk) in He; subst.
  - rewrite filter_none; [done|]. intros k Hk. apply bool_decide_eq_false. intros ->.
    assert (t ∈ dedup keys) as Hd by (by apply elem_of_dedup).
    assert ((t, Z.of_nat (length (List.filter (λ x, bool_decide (x = t)) keys))) ∈ rev (group_count keys)) as Hin.
    { apply list_elem_of_In. rewrite <-in_rev. apply list_elem_of_In. unfold group_count.
      apply list_elem_of_fmap. by exists t. }
    apply list_elem_of_In, (find_none _ _ Hf) in Hin. simpl in Hin. by rewrite (Ht t Hk), Z.eqb_refl in Hin.
Qed.

Lemma hourly_count now alerts t :
  match List.find (λ r, trunc_hour r.1 =? t) (rev (hourly_rows now alerts)) with Some r => r.2 | None => 0 end =
  Z.of_nat (countb (λ a, (trunc_hour (al_opened_at a) =? t) && (now - 23 * hour_us <=? al_opened_at a)) alerts).
Proof.
  unfold hourly_rows. rewrite group_count_find.
  - f_equal. unfold countb. induction alerts as [|a alerts IH]; [done|]. cbn [List.filter].
    destruct (now - 23 * hour_us <=? al_opened_at a); cbn [map List.filter]; rewrite ?andb_true_r, ?andb_false_r; [|done].
    destruct (Z.eqb_spec (trunc_hour (al_opened_at a)) t) as [He|He].
    + rewrite bool_decide_eq_true_2 by done. simpl. by rewrite IH.
    + by rewrite bool_decide_eq_false_2.
  - intros k (a & -> & _)%list_elem_of_fmap. apply trunc_hour_idem.
Qed.

(** The hourly chart has the 24 hours up to the present one, and the count of
    an hour is the number of alerts of that hour which the actor may see and which
    were opened in the last 23 hours; each such alert falls in one of the hours.
    So the first hour shown is counted only from its minute on. *)
Theorem hourly_chart_counts E actor db :
  has_role actor [ADMIN; ANALYST; VIEWER] = true →
  let hour i := trunc_hour (env_now E) - (23 - i) * hour_us in
  ∃ series, alert_stats E "hour" actor db = Ok series ∧ length series = 24%nat ∧
    (∀ i, (i < 24)%nat → series !! i = Some (isoformat (hour (Z.of_nat i)),
       Z.of_nat (countb (λ a, (trunc_hour (al_opened_at a) =? hour (Z.of_nat i)) &&
                              (env_now E - 23 * hour_us <=? al_opened_at a)) (visible_alerts actor db)))) ∧
    ∀ t, env_now E - 23 * hour_us <= t <= env_now E → ∃ i, (i < 24)%nat ∧ trunc_hour t = hour (Z.of_nat i).
Proof.
  intros Hrole hour. eexists. split; [unfold alert_stats, require_viewer; rewrite Hrole; reflexivity|]. split; [done|]. split.
  - intros i Hi. unfold fill_hourly. rewrite list_lookup_fmap. change (rev (List.seq 0 24)) with (map (λ i, (23 - i)%nat) (List.seq 0 24)).
    rewrite list_lookup_fmap. rewrite (proj2 (list.lookup_seq 0 24 i i)) by lia. cbn [fmap option_fmap option_map].
    rewrite hourly_count. unfold hour. by rewrite Nat2Z.inj_sub by lia.
  - intros t Ht. unfold hour, trunc_hour, hour_us in *. exists (Z.to_nat (23 - (env_now E / 3600000000 - t / 3600000000))).
    pose proof (Z.div_mod t 3600000000 ltac:(done)). pose proof (Z.div_mod (env_now E) 3600000000 ltac:(done)).
    pose proof (Z.mod_pos_bound t 3600000000 ltac:(done)). pose proof (Z.mod_pos_bound (env_now E) 3600000000 ltac:(done)).
    split; lia.
Qed.

(** ** Examples *)

Definition demo_bus : event_bus := mkBus None None (λ _ _, true).
Definition demo_tg0 : triage_db := mkTriageDb (mkCaseDb demo_detect_db [demo_dest] []) [] [(3, 1)] [].
Definition demo_emitted : detect_db * list (uuid * bool) := Eval vm_compute in
  match emit_alerts demo_env 300 demo_fmp 100 demo_matches demo_event demo_detect_db with
  | Ok r => r | Err _ => (demo_detect_db, []) end.
Definition demo_tg1 : triage_db := Eval vm_compute in set_tg_detect demo_emitted.1 demo_tg0.
Definition demo_closed : triage_db * AlertDetail := Eval vm_compute in
  match change_state demo_env demo_fernet demo_down demo_bus 0 FALSE_POSITIVE (Some "benign") (demo_admin 1) demo_tg1 with
  | Ok r => r | Err _ => (demo_tg1, mkAlertDetail (mkAlert 0 0 None 0 INFO ALERT NEW "" None None None None 0 None None None None 0 0, None, "") [] None []) end.

Lemma demo_closed_eq :
  change_state demo_env demo_fernet demo_down demo_bus 0 FALSE_POSITIVE (Some "benign") (demo_admin 1) demo_tg1 = Ok demo_closed.
Proof. vm_compute. reflexivity. Qed.
Lemma demo_step_detect : triage_step demo_tg0 demo_tg1.
Proof.
  change demo_tg1 with (set_tg_detect demo_emitted.1 demo_tg0).
  apply (TS_detect demo_env 300 demo_fmp 100 demo_matches demo_event _ _ demo_emitted.2).
  - vm_compute. reflexivity.
  - split; [exact Nat2Z.inj|]. intros n _. apply not_elem_of_nil.
Qed.
Lemma demo_step_close : triage_step demo_tg1 demo_closed.1.
Proof. eapply (TS_state _ _ _ _ _ _ _ _ _ _ demo_closed.2), demo_closed_eq. Qed.
Lemma demo_triage_run : triage_run demo_tg0 demo_closed.1.
Proof. eapply rtc_l; [apply demo_step_detect|]. eapply rtc_l; [apply demo_step_close|]. apply rtc_refl. Qed.
Lemma demo_tg0_ok : triage_ok demo_tg0.
Proof. split; [|constructor]. split; [constructor|..]; intros x Hx; by apply not_elem_of_nil in Hx. Qed.
Lemma demo_closed_ok : triage_ok demo_closed.1.
Proof. eapply triage_run_ok; [apply demo_triage_run|apply demo_tg0_ok]. Qed.

Definition demo_closed_alert : Alert := Eval vm_compute in demo_closed.2.(ad_row).1.1.

Lemma alert_lifecycle_witness : state_path (history_of 0 (tg_history demo_closed.1)) FALSE_POSITIVE.
Proof.
  refine (proj1 (proj1 (alert_lifecycle demo_tg0 demo_closed.1 _ _ _ _) demo_closed_alert _)).
  - reflexivity.
  - reflexivity.
  - reflexivity.
  - apply demo_triage_run.
  - by left.
Defined.

Lemma closed_alert_final_witness : ∃ a', a' ∈ tg_alerts demo_closed.1 ∧ al_id a' = 0 ∧ al_state a' = FALSE_POSITIVE ∧
  al_closed_at a' = Some 1700000000000000.
Proof.
  apply (closed_alert_final demo_closed.1 demo_closed.1 demo_closed_alert).
  - apply demo_closed_ok.
  - by left.
  - apply list_elem_of_here.
  - apply rtc_refl.
Defined.

Lemma alert_pages_cover_visible_witness :
  ∃ rows, NoDup (map (λ row : AlertRow, al_id row.1.1) rows) ∧
    concat (map page_of (map (λ k, list_alerts (λ _ l, l) (mkAlertFilter None None None None None None None) None 50
      (Z.of_nat k * 50) (demo_admin 1) demo_closed.1) (List.seq 0 2))) ≡ₚ rows.
Proof.
  destruct (alert_pages_cover_visible (λ _ l, l) (mkAlertFilter None None None None None None None) None 50 2 (demo_admin 1)
              demo_closed.1) as (rows & Hall & Hc & Hnd & _).
  - done.
  - lia.
  - reflexivity.
  - by eexists.
  - vm_compute. repeat constructor; set_solver.
  - vm_compute. repeat constructor; set_solver.
  - exists rows. split; [exact Hnd|]. apply Hc. apply Forall_cons in Hall as [(p & Hp & Htot) _]. rewrite <-Htot.
    revert Hp. vm_compute. intros [= <-]. by simpl.
Defined.

Lemma hourly_chart_counts_witness :
  ∃ series, alert_stats demo_env "hour" (demo_admin 1) demo_closed.1 = Ok series ∧ length series = 24%nat.
Proof.
  destruct (hourly_chart_counts demo_env (demo_admin 1) demo_closed.1 eq_refl) as (series & Hs & Hlen & _).
  exists series. split; [exact Hs|exact Hlen].
Defined.
