(* ===== verification/Investigate.v ===== *)
(** * Investigate: the investigation page of an alert

    api/alerts.py (context of an alert, process chain, detail of a process) and
    the searches of services/opensearch.py they run.  The search index is the
    argument [search], from the body of a query to the response. *)

From Stdlib Require Import Ascii String.
From S2P Require Import Prelude PyStr PyVal PyJson PyTime Crypto PyText PyIso PyJsonRead Models AuditChain Rollout.
From S2P Require Import Scoping Jobs Commands Fleet Routing Dedup Response Detector Incidents ProcGraph Cases Triage.
Local Open Scope string_scope.
Local Open Scope list_scope.
Local Open Scope Z_scope.

(** ** Searches (services/opensearch.py) *)

(** [d.get(k, default)] *)
Definition py_get_or (k : str) (dflt v : pyval) : py pyval :=
  match v with PDict d => Ok (get_default k d dflt) | _ => Err AttributeError end.

(** [resp.get("hits", {}).get("hits", [])] *)
Definition hits_of (resp : pyval) : py (list pyval) :=
  hits ← py_get_or "hits" (PDict []) resp;
  l ← py_get_or "hits" (PList []) hits;
  match l with PList l => Ok l | _ => Err Unmodelled end.

(** [h["_source"]] *)
Definition source_of (h : pyval) : py pyval :=
  match h with PDict d => of_option KeyError (dict_get "_source" d) | _ => Err TypeError end.

Definition term (path : str) (v : pyval) : pyval := PDict [("term", PDict [(path, v)])].
Definition range (bounds : dict) : pyval := PDict [("range", PDict [("@timestamp", PDict bounds)])].
Definition between (lo hi : datetime) : pyval := range [("gte", PStr (isoformat lo)); ("lte", PStr (isoformat hi))].
Definition sorted_by_time (order : str) : str * pyval :=
  ("sort", PList [PDict [("@timestamp", PDict [("order", PStr order)])]]).
Definition filter_query (filters : list pyval) : str * pyval :=
  ("query", PDict [("bool", PDict [("filter", PList filters)])]).
Definition hour : Z := 3600000000.

Section searches.
Context (search : pyval → py pyval).

Definition fetch_events_by_ids (event_ids : list str) : py (list pyval) :=
  match event_ids with
  | [] => Ok []
  | _ =>
      resp ← search (PDict [("size", PInt (Z.of_nat (length event_ids)));
                            ("query", PDict [("terms", PDict [("event.id", PList (map PStr event_ids))])]);
                            sorted_by_time "asc"]);
      hits ← hits_of resp;
      mapM source_of hits
  end.

Definition process_started_body (hid : str) (pid : Z) (before : datetime) : pyval :=
  PDict [("size", PInt 1); sorted_by_time "desc";
         filter_query [term "host.id" (PStr hid); term "process.pid" (PInt pid);
                       term "event.action" (PStr "process_started"); between (before - 24 * hour) before]].

Definition fetch_process_started (hid : str) (pid : Z) (before : datetime) : py (option pyval) :=
  resp ← search (process_started_body hid pid before);
  hits ← hits_of resp;
  match hits with [] => Ok None | h :: _ => src ← source_of h; Ok (Some src) end.

Definition fetch_host_window (hid : str) (start stop : datetime) (size : Z) : py (list pyval) :=
  resp ← search (PDict [("size", PInt size); ("track_total_hits", PBool true); sorted_by_time "asc";
                        filter_query [term "host.id" (PStr hid); between start stop]]);
  hits_of resp.

Definition fetch_host_since (E : env) (hid : str) (since : option datetime) (fallback_window size : Z) :
    py (list pyval) :=
  let '(op, lower) := match since with None => ("gte", env_now E - fallback_window) | Some t => ("gt", t) end in
  resp ← search (PDict [("size", PInt size); sorted_by_time "asc";
                        filter_query [term "host.id" (PStr hid); range [(op, PStr (isoformat lower))]]]);
  hits_of resp.

(** [pid in exclude_pids] *)
Definition excluded (pids : list Z) (pid : pyval) : py bool :=
  match pids with
  | [] => Ok false
  | _ =>
      match pid with
      | PList _ | PDict _ => Err TypeError
      | PFloat _ => Err Unmodelled
      | _ => Ok (match as_int pid with Some n => bool_decide (n ∈ pids) | None => false end)
      end
  end.

Fixpoint keep_children (exclude : list Z) (hits : list pyval) : py (list pyval) :=
  match hits with
  | [] => Ok []
  | h :: rest =>
      src ← py_get_dict "_source" h;
      proc ← py_get_or "process" (PDict []) src;
      pid ← py_get "pid" proc;
      skip ← excluded exclude pid;
      if (skip : bool) then keep_children exclude rest
      else s ← source_of h; l ← keep_children exclude rest; Ok (s :: l)
  end.

Definition fetch_process_children (hid : str) (parent_pid : Z) (before : datetime) (after : option datetime)
    (exclude : list Z) (size : Z) : py (list pyval) :=
  resp ← search (PDict [("size", PInt size); sorted_by_time "asc";
                        filter_query [term "host.id" (PStr hid); term "process.parent.pid" (PInt parent_pid);
                                      term "event.action" (PStr "process_started");
                                      between (before - 24 * hour) (default before after)]]);
  hits ← hits_of resp;
  keep_children exclude hits.

Definition fetch_pid_window (hid : str) (pid : Z) (start stop : datetime) (size : Z) : py (list pyval) :=
  resp ← search (PDict [("size", PInt size); sorted_by_time "asc";
                        filter_query [term "host.id" (PStr hid); term "process.pid" (PInt pid); between start stop]]);
  hits_of resp.

(** ** Nodes *)

(** The instant of a timestamp and whether it carries an offset. *)
Definition parse_iso_at (v : pyval) : py (option (datetime * bool)) :=
  match v with
  | PStr s =>
      if nonempty s then
        match fromisoformat (replace_char "Z" "+00:00" s) with
        | Ok r => Ok (Some r)
        | Err ValueError => Ok None
        | Err e => Err e
        end
      else Ok None
  | _ => Ok None
  end.

(** A field declared [str | None]. *)
Definition text_field (v : pyval) : py (option str) :=
  match v with PNone => Ok None | PStr s => Ok (Some s) | _ => Err ValueError end.

Record ProcessChainNode := mkNode {
  cn_pid : Z;
  cn_parent_pid : option Z;
  cn_name : option str;
  cn_executable : option str;
  cn_command_line : option str;
  cn_sha256 : option str;
  cn_user_name : option str;
  cn_integrity_level : option str;
  cn_working_directory : option str;
  cn_started_at : option (datetime * bool);
  cn_event_id : option str;
  cn_inferred : bool
}.

(** A node of the chain with its one level of siblings and children. *)
Record ChainEntry := mkEntry {
  ce_node : ProcessChainNode;
  ce_siblings : list ProcessChainNode;
  ce_children : list ProcessChainNode
}.

Definition doc_to_chain_node (doc : pyval) : py ProcessChainNode :=
  proc ← py_get_dict "process" doc;
  parent ← py_get_dict "parent" proc;
  hashes ← py_get_dict "hash" proc;
  user ← py_get_dict "user" proc;
  start ← py_get "start" proc;
  event ← py_get_dict "event" doc;
  created ← py_get "created" event;
  parent_pid ← py_get "pid" parent;
  pid ← py_get "pid" proc;
  sha ← py_get "sha256" hashes;
  started ← parse_iso_at (py_or start created);
  name ← (v ← py_get "name" proc; text_field v);
  executable ← (v ← py_get "executable" proc; text_field v);
  command_line ← (v ← py_get "command_line" proc; text_field v);
  sha256 ← text_field sha;
  user_name ← match user with PDict u => text_field (get_none "name" u) | _ => Ok None end;
  integrity ← (v ← py_get "integrity_level" proc; text_field v);
  wd ← (v ← py_get "working_directory" proc; text_field v);
  event_id ← (v ← py_get "id" event; text_field v);
  Ok (mkNode (default 0 (as_int pid)) (as_int parent_pid) name executable command_line sha256 user_name integrity wd
        started event_id false).

Definition inferred_node (pid : Z) : ProcessChainNode :=
  mkNode pid None None None None None None None None None None true.

Definition pg_row_to_chain_node (r : ProcessChain) : ProcessChainNode :=
  mkNode (pc_pid r) (pc_parent_pid r) None (pc_exec_path r) (pc_command_line r) (pc_image_sha256 r) None None None
    (Some (pc_started_at r, true)) None false.

(** ** The chain *)

(** [(doc.get("process") or {}).get("pid")] *)
Definition doc_pid (doc : pyval) : py pyval := proc ← py_get_dict "process" doc; py_get "pid" proc.

(** The first positive pid of the triggering documents. *)
Fixpoint start_pid (docs : list pyval) : py (option Z) :=
  match docs with
  | [] => Ok None
  | doc :: rest => v ← doc_pid doc; match positive_int v with Some p => Ok (Some p) | None => start_pid rest end
  end.

(** [rows[-max_depth:]] *)
Definition build_chain_from_pg (tbl : list ProcessChain) (host : uuid) (pid max_depth : Z) : list ProcessChainNode :=
  let rows := ancestors tbl host pid in
  map pg_row_to_chain_node (drop (length rows - Z.to_nat max_depth) rows).

(** [current_pid is not None and current_pid > 0] of a value from the document. *)
Definition next_pid (v : pyval) : py (option Z) :=
  match v with
  | PNone => Ok None
  | PInt _ | PBool _ => Ok (positive_int v)
  | PFloat _ => Err Unmodelled
  | _ => Err TypeError
  end.

(** The parent of a document on the way up: only a positive integer counts. *)
Definition parent_of (doc : pyval) : py (option Z) :=
  proc ← py_get_dict "process" doc;
  parent ← py_get_dict "parent" proc;
  pid ← py_get "pid" parent;
  Ok (positive_int pid).

(** The loop up the parents; [fuel] is what [max_depth] leaves. *)
Fixpoint walk_up (hid : str) (opened_at : datetime) (fuel : nat) (seen : list Z) (current : option Z)
    (chain : list ProcessChainNode) : py (list ProcessChainNode) :=
  match fuel, current with
  | O, _ | _, None => Ok chain
  | S fuel, Some pid =>
      if bool_decide (pid ∈ seen) then Ok chain
      else
        doc ← fetch_process_started hid pid opened_at;
        match doc with
        | None => Ok (chain ++ [inferred_node pid])
        | Some doc =>
            node ← doc_to_chain_node doc;
            next ← parent_of doc;
            walk_up hid opened_at fuel (pid :: seen) next (chain ++ [node])
        end
  end.

(** [except Exception: []] around a search. *)
Definition or_empty {A} (r : py (list A)) : list A := match r with Ok l => l | Err _ => [] end.

Definition siblings_of (hid : str) (opened_at : datetime) (chain_pids : list Z) (node : ProcessChainNode) :
    py (list ProcessChainNode) :=
  match cn_parent_pid node with
  | Some p =>
      if p <=? 0 then Ok []
      else mapM doc_to_chain_node (or_empty (fetch_process_children hid p opened_at None chain_pids 8))
  | None => Ok []
  end.

(** [leaf = chain[-1]] with its children; the others have none. *)
Fixpoint attach_children (hid : str) (opened_at : datetime) (chain_pids : list Z)
    (entries : list (ProcessChainNode * list ProcessChainNode)) : py (list ChainEntry) :=
  match entries with
  | [] => Ok []
  | [(leaf, sibs)] =>
      if 0 <? cn_pid leaf then
        children ← mapM doc_to_chain_node
          (or_empty (fetch_process_children hid (cn_pid leaf) (opened_at - 24 * hour) (Some (opened_at + 24 * hour))
                       chain_pids 32));
        Ok [mkEntry leaf sibs children]
      else Ok [mkEntry leaf sibs []]
  | (node, sibs) :: rest => l ← attach_children hid opened_at chain_pids rest; Ok (mkEntry node sibs [] :: l)
  end.

(** The walk through the index: the first document is used directly when it is
    the start of the process. *)
Definition os_walk (hid : str) (docs : list pyval) (start : option Z) (opened_at : datetime) (max_depth : Z) :
    py (list ProcessChainNode) :=
  seed ← match docs, start with
         | first :: _, Some _ =>
             event ← py_get_dict "event" first;
             action ← py_get "action" event;
             Ok (match action with PStr a => String.eqb a "process_started" | _ => false end)
         | first :: _, None => event ← py_get_dict "event" first; _ ← py_get "action" event; Ok false
         | [], _ => Ok false
         end;
  match start, docs, seed with
  | None, _, _ => Ok []
  | Some p, first :: _, true =>
      node ← doc_to_chain_node first;
      proc ← py_get_dict "process" first;
      parent ← py_get_or "parent" (PDict []) proc;
      raw ← py_get "pid" parent;
      current ← next_pid raw;
      walk_up hid opened_at (Z.to_nat max_depth - 1) [p] current [node]
  | Some p, _, _ => walk_up hid opened_at (Z.to_nat max_depth) [] (Some p) []
  end.

Definition build_process_chain (tbl : list ProcessChain) (host : uuid) (docs : list pyval) (opened_at : datetime)
    (max_depth : Z) : py (list ChainEntry) :=
  let hid := uuid_str host in
  start ← start_pid docs;
  match match start with Some p => build_chain_from_pg tbl host p max_depth | None => [] end with
  | (_ :: _) as pg => Ok (map (λ n, mkEntry n [] []) pg)
  | [] =>
      chain ← os_walk hid docs start opened_at max_depth;
      match start with
      | None => Ok (map (λ n, mkEntry n [] []) chain)
      | Some _ =>
          let chain_pids := map cn_pid chain in
          sibs ← mapM (siblings_of hid opened_at chain_pids) chain;
          attach_children hid opened_at chain_pids (zip chain sibs)
      end
  end.

(** ** The timeline *)

Record TimelineEvent := mkTimeline {
  te_event_id : str;
  te_timestamp : datetime * bool;
  te_category : list str;
  te_action : option str;
  te_outcome : option str;
  te_pid : option Z;
  te_executable : option str;
  te_command_line : option str;
  te_file_path : option str;
  te_destination_ip : option str;
  te_destination_port : option Z;
  te_is_trigger : bool
}.

(** [list(v)]: a string gives its characters, a dictionary its keys. *)
Definition list_of (v : pyval) : py (list pyval) :=
  match v with
  | PList l => Ok l
  | PStr s => Ok (map (λ c, PStr (String c "")) (list_ascii_of_string s))
  | PDict d => Ok (map (λ kv, PStr kv.1) d)
  | _ => Err TypeError
  end.

(** A field declared [list[str]]. *)
Definition str_list (l : list pyval) : py (list str) := of_option ValueError (mapM as_str l).

(** [_parse_iso(v) or datetime.now(UTC)] *)
Definition time_or_now (E : env) (v : pyval) : py (datetime * bool) :=
  t ← parse_iso_at v; Ok (default (env_now E, true) t).

(** [event_id in trigger_ids] of a set of strings. *)
Definition in_triggers (ids : list str) (v : pyval) : py bool :=
  match v with
  | PStr s => Ok (bool_decide (s ∈ ids))
  | PList _ | PDict _ => Err TypeError
  | _ => Ok false
  end.

Definition hit_to_timeline (E : env) (triggers : list str) (hit : pyval) : py TimelineEvent :=
  src ← py_get_dict "_source" hit;
  event ← py_get_dict "event" src;
  proc ← py_get_dict "process" src;
  file_ ← py_get_dict "file" src;
  dest ← py_get_dict "destination" src;
  eid ← py_get "id" event;
  hid ← py_get "_id" hit;
  let event_id := py_or (py_or eid hid) (PStr "") in
  pid ← py_get "pid" proc;
  port ← py_get "port" dest;
  ts ← (v ← py_get "@timestamp" src; time_or_now E v);
  cats ← (v ← py_get "category" event; list_of (py_or v (PList [])));
  file_path ← py_get "path" file_;
  trigger ← in_triggers triggers event_id;
  category ← str_list cats;
  action ← (v ← py_get "action" event; text_field v);
  outcome ← (v ← py_get "outcome" event; text_field v);
  executable ← (v ← py_get "executable" proc; text_field v);
  command_line ← (v ← py_get "command_line" proc; text_field v);
  path ← text_field file_path;
  ip ← (v ← py_get "ip" dest; text_field v);
  Ok (mkTimeline (py_str event_id) ts category action outcome (as_int pid) executable command_line path ip
        (as_int port) trigger).

Record InvestigationContext := mkContext {
  ic_row : AlertRow;
  ic_window_start : datetime;
  ic_window_end : datetime;
  ic_trigger_event_ids : list str;
  ic_chain : list ChainEntry;
  ic_events : list TimelineEvent;
  ic_events_truncated : bool
}.

Definition minute : Z := 60000000.

(** [telemetry_doc_ids] with the event of the details. *)
Definition context_triggers (a : Alert) : py (list str) :=
  let ids := default [] (al_telemetry_doc_ids a) in
  let extra := get_none "event_id" (default [] (al_details a)) in
  if negb (truthy extra) then Ok ids
  else match extra with
       | PStr s => Ok (if bool_decide (s ∈ ids) then ids else ids ++ [s])
       | _ => Err Unmodelled
       end.

(** The alert of a host that exists. *)
Definition hosted_alert (actor : Actor) (aid : uuid) (db : triage_db) : py (AlertRow * uuid) :=
  row ← of_option (HTTPException 404) (List.find (λ a, al_id a =? aid) (tg_alerts db) ≫= alert_row db);
  match al_host_id row.1.1, row.1.2 with
  | Some h, Some _ =>
      if negb (host_visible_to actor (Some h) (tg_scope db)) then Err (HTTPException 404) else Ok (row, h)
  | _, _ => Err (HTTPException 404)
  end.

Definition get_alert_context (E : env) (tbl : list ProcessChain) (aid : uuid) (window_minutes max_chain_depth max_events : Z)
    (actor : Actor) (db : triage_db) : py InvestigationContext :=
  _ ← require_viewer actor;
  if (window_minutes <=? 0) || (360 <? window_minutes) then Err (HTTPException 400)
  else if (max_chain_depth <=? 0) || (32 <? max_chain_depth) then Err (HTTPException 400)
  else if (max_events <=? 0) || (2000 <? max_events) then Err (HTTPException 400)
  else
    '(row, host) ← hosted_alert actor aid db;
    let alert := row.1.1 in
    let start := al_opened_at alert - window_minutes * minute in
    let stop := al_opened_at alert + window_minutes * minute in
    triggers ← context_triggers alert;
    trigger_docs ← fetch_events_by_ids triggers;
    chain ← build_process_chain tbl host trigger_docs (al_opened_at alert) max_chain_depth;
    hits ← fetch_host_window (uuid_str host) start stop max_events;
    events ← mapM (hit_to_timeline E triggers) hits;
    Ok (mkContext row start stop triggers chain events (max_events <=? Z.of_nat (length events))).

(** ** What one process did *)

Record ProcessImageLoad := mkImageLoad {
  il_timestamp : datetime * bool;
  il_path : option str;
  il_sha256 : option str;
  il_signed : option bool;
  il_signer : option str
}.
Record ProcessFileEvent := mkFileEvent {
  fe_timestamp : datetime * bool;
  fe_action : option str;
  fe_path : option str;
  fe_target_path : option str;
  fe_sha256 : option str;
  fe_size : option Z
}.
Record ProcessNetworkEvent := mkNetworkEvent {
  ne_timestamp : datetime * bool;
  ne_action : option str;
  ne_transport : option str;
  ne_direction : option str;
  ne_destination_ip : option str;
  ne_destination_port : option Z;
  ne_source_ip : option str;
  ne_source_port : option Z
}.
Record ProcessOtherEvent := mkOtherEvent {
  oe_timestamp : datetime * bool;
  oe_category : list str;
  oe_action : option str;
  oe_outcome : option str
}.

(** A hit on the panel it is shown in. *)
Inductive panel :=
| ImageLoad (e : ProcessImageLoad) | FileEvent (e : ProcessFileEvent)
| NetworkEvent (e : ProcessNetworkEvent) | OtherEvent (e : ProcessOtherEvent).

Definition action_or_none (a : str) : option str := if nonempty a then Some a else None.
Definition as_bool (v : pyval) : option bool := match v with PBool b => Some b | _ => None end.

Definition image_load (ts : datetime * bool) (src : pyval) : py panel :=
  file_doc ← py_get_dict "file" src;
  hashes ← py_get_dict "hash" file_doc;
  sig ← py_get_dict "code_signature" file_doc;
  path ← py_get "path" file_doc;
  sha ← py_get "sha256" hashes;
  signed ← py_get "signed" sig;
  name ← py_get "signer_name" sig;
  alt ← py_get "signer" sig;
  path ← text_field path;
  sha256 ← text_field sha;
  signer ← text_field (py_or name alt);
  Ok (ImageLoad (mkImageLoad ts path sha256 (as_bool signed) signer)).

Definition file_event (ts : datetime * bool) (action : str) (src : pyval) : py panel :=
  file_doc ← py_get_dict "file" src;
  hashes ← py_get_dict "hash" file_doc;
  size ← py_get "size" file_doc;
  sha ← py_get "sha256" hashes;
  path ← (v ← py_get "path" file_doc; text_field v);
  target ← (v ← py_get "target_path" file_doc; text_field v);
  sha256 ← text_field sha;
  Ok (FileEvent (mkFileEvent ts (action_or_none action) path target sha256 (as_int size))).

Definition network_event (ts : datetime * bool) (action : str) (src : pyval) : py panel :=
  net ← py_get_dict "network" src;
  dest ← py_get_dict "destination" src;
  source ← py_get_dict "source" src;
  dport ← py_get "port" dest;
  sport ← py_get "port" source;
  transport ← py_get "transport" net;
  transport ← text_field transport;
  direction ← (v ← py_get "direction" net; text_field v);
  dip ← (v ← py_get "ip" dest; text_field v);
  sip ← (v ← py_get "ip" source; text_field v);
  Ok (NetworkEvent (mkNetworkEvent ts (action_or_none action) transport direction dip (as_int dport) sip (as_int sport))).

Definition has_cat (c : str) (cats : list pyval) : bool := existsb (λ v, bool_decide (as_str v = Some c)) cats.

Definition hit_to_panel (E : env) (h : pyval) : py panel :=
  src ← py_get_dict "_source" h;
  event ← py_get_dict "event" src;
  raw ← py_get "action" event;
  ts ← (v ← py_get "@timestamp" src; time_or_now E v);
  cats ← (v ← py_get "category" event; list_of (py_or v (PList [])));
  match py_or raw (PStr "") with
  | PStr action =>
      if bool_decide (action ∈ ["image_loaded"; "library_loaded"]) || has_cat "library" cats then image_load ts src
      else if has_cat "file" cats || starts_with "file_" action then file_event ts action src
      else if has_cat "network" cats || has_cat "dns" cats then network_event ts action src
      else category ← str_list cats;
           outcome ← (v ← py_get "outcome" event; text_field v);
           Ok (OtherEvent (mkOtherEvent ts category (action_or_none action) outcome))
  | _ => Err Unmodelled
  end.

Record ProcessDetail := mkProcessDetail {
  pdt_process : option ProcessChainNode;
  pdt_image_loads : list ProcessImageLoad;
  pdt_files : list ProcessFileEvent;
  pdt_network : list ProcessNetworkEvent;
  pdt_other : list ProcessOtherEvent;
  pdt_truncated : bool
}.

Definition get_process_detail (E : env) (aid : uuid) (pid window_minutes max_events : Z) (actor : Actor) (db : triage_db) :
    py ProcessDetail :=
  _ ← require_viewer actor;
  if (window_minutes <=? 0) || (360 <? window_minutes) then Err (HTTPException 400)
  else if pid <=? 0 then Err (HTTPException 400)
  else
    alert ← of_option (HTTPException 404) (List.find (λ a, al_id a =? aid) (tg_alerts db));
    if negb (host_visible_to actor (al_host_id alert) (tg_scope db)) then Err (HTTPException 404)
    else
      host ← of_option (HTTPException 404) (al_host_id alert);
      let start := al_opened_at alert - window_minutes * minute in
      let stop := al_opened_at alert + window_minutes * minute in
      started ← fetch_process_started (uuid_str host) pid stop;
      hits ← fetch_pid_window (uuid_str host) pid start stop max_events;
      panels ← mapM (hit_to_panel E) hits;
      node ← match started with
             | Some doc => if truthy doc then n ← doc_to_chain_node doc; Ok (Some n) else Ok None
             | None => Ok None
             end;
      Ok (mkProcessDetail node
            (omap (λ p, match p with ImageLoad e => Some e | _ => None end) panels)
            (omap (λ p, match p with FileEvent e => Some e | _ => None end) panels)
            (omap (λ p, match p with NetworkEvent e => Some e | _ => None end) panels)
            (omap (λ p, match p with OtherEvent e => Some e | _ => None end) panels)
            (max_events <=? Z.of_nat (length hits))).
End searches.

Lemma mapM_res_length {A B} (f : A → py B) l k : mapM f l = Ok k → length l = length k.
Proof.
  revert k. induction l as [|x l IH]; intros k H; [by injection H as <-|]. cbn [mapM] in H.
  apply res_bind_ok in H as (y & _ & H). apply res_bind_ok in H as (k' & Hk & H). injection H as <-.
  simpl. by rewrite (IH _ Hk).
Qed.

(** ** The chain is a lineage *)

(** A search returns only documents that match its filter on [process.pid]. *)
Definition pid_filter_sound (search : pyval → py pyval) : Prop :=
  ∀ hid pid before resp hits h src,
    search (process_started_body hid pid before) = Ok resp → hits_of resp = Ok hits → h ∈ hits →
    source_of h = Ok src → doc_pid src = Ok (PInt pid).

(** The parent of a node, if it has a positive one. *)
Definition up (n : ProcessChainNode) : option Z := cn_parent_pid n ≫= λ p, if 0 <? p then Some p else None.

(** Each node is the parent of the one before it; the first is [current]. *)
Fixpoint linked (current : option Z) (l : list ProcessChainNode) : Prop :=
  match l with
  | [] => True
  | n :: rest => current = Some (cn_pid n) ∧ (cn_inferred n = true → rest = []) ∧ linked (up n) rest
  end.

Lemma doc_to_chain_node_pids doc n :
  doc_to_chain_node doc = Ok n → cn_inferred n = false ∧
  (∃ v, doc_pid doc = Ok v ∧ cn_pid n = default 0 (as_int v)) ∧ parent_of doc = Ok (up n).
Proof.
  unfold doc_to_chain_node, doc_pid, parent_of. intros H.
  apply res_bind_ok in H as (proc & Hproc & H). apply res_bind_ok in H as (parent & Hparent & H). rewrite Hproc.
  cbn [mbind res_bind]. rewrite Hparent.
  do 5 apply res_bind_ok in H as (? & _ & H). apply res_bind_ok in H as (ppid & Hpp & H).
  apply res_bind_ok in H as (pid & Hpid & H). do 10 apply res_bind_ok in H as (? & _ & H). injection H as <-.
  cbn [mbind res_bind]. rewrite Hpp. split; [done|]. split; [by exists pid|]. cbn [mbind res_bind]. unfold positive_int, up. simpl.
  by destruct (as_int ppid).
Qed.

Section lineage.
Context (search : pyval → py pyval) (Hsound : pid_filter_sound search).

Lemma fetch_process_started_pid hid pid before doc :
  fetch_process_started search hid pid before = Ok (Some doc) → doc_pid doc = Ok (PInt pid).
Proof.
  unfold fetch_process_started. intros H. apply res_bind_ok in H as (resp & Hr & H).
  apply res_bind_ok in H as (hits & Hh & H). destruct hits as [|h hits]; [done|].
  apply res_bind_ok in H as (src & Hs & H). injection H as <-. eapply Hsound; [done|done|by left|done].
Qed.

Lemma walk_up_spec hid opened fuel seen current chain chain' :
  walk_up search hid opened fuel seen current chain = Ok chain' →
  ∃ new, chain' = chain ++ new ∧ (length new <= fuel)%nat ∧ linked current new ∧ NoDup (map cn_pid new) ∧
    Forall (λ n, cn_pid n ∉ seen) new.
Proof.
  revert seen current chain. induction fuel as [|fuel IH]; intros seen current chain H.
  { injection H as <-. exists []. rewrite app_nil_r. repeat split; constructor. }
  destruct current as [pid|]; [|injection H as <-; exists []; rewrite app_nil_r; repeat split; simpl; [lia|constructor..]].
  cbn [walk_up] in H. destruct (bool_decide (pid ∈ seen)) eqn:Hs.
  { injection H as <-. exists []. rewrite app_nil_r. repeat split; simpl; [lia|constructor..]. }
  apply bool_decide_eq_false in Hs. apply res_bind_ok in H as ([doc|] & Hf & H).
  - apply res_bind_ok in H as (n & Hn & H). apply res_bind_ok in H as (next & Hnext & H).
    apply doc_to_chain_node_pids in Hn as (Hinf & (v & Hv & Hpid) & Hup).
    apply fetch_process_started_pid in Hf. rewrite Hf in Hv. injection Hv as <-. simpl in Hpid.
    rewrite Hup in Hnext. injection Hnext as <-.
    destruct (IH _ _ _ H) as (new & -> & Hlen & Hl & Hnd & Hfor). exists (n :: new). rewrite <-app_assoc.
    split_and!; [done|simpl; lia| | |].
    + cbn [linked]. rewrite Hpid, Hinf. done.
    + cbn [map]. apply NoDup_cons. split; [|done]. intros (m & He & Hm)%list_elem_of_fmap.
      rewrite Forall_forall in Hfor. apply (Hfor m Hm). rewrite <-He, Hpid. by left.
    + constructor; [by rewrite Hpid|]. eapply Forall_impl; [exact Hfor|]. intros m Hm. set_solver.
  - injection H as <-. exists [inferred_node pid]. split_and!; [done|simpl; lia|done| |by constructor].
    simpl. apply NoDup_singleton.
Qed.

Lemma os_walk_spec hid doc docs p opened max_depth chain :
  0 < max_depth → 0 < p → doc_pid doc = Ok (PInt p) →
  os_walk search hid (doc :: docs) (Some p) opened max_depth = Ok chain →
  (length chain <= Z.to_nat max_depth)%nat ∧ linked (Some p) chain ∧ NoDup (map cn_pid chain).
Proof.
  intros Hd Hp Hpid. unfold os_walk. intros H. apply res_bind_ok in H as (seed & _ & H).
  destruct seed; [|by apply walk_up_spec in H as (new & -> & ? & ? & ? & _)].
  apply res_bind_ok in H as (n & Hn & H). pose proof (doc_to_chain_node_pids _ _ Hn) as (Hinf & (v & Hv & Hnp) & Hup).
  rewrite Hpid in Hv. injection Hv as <-. simpl in Hnp.
  apply res_bind_ok in H as (proc & Hproc & H). apply res_bind_ok in H as (parent & Hparent & H).
  apply res_bind_ok in H as (raw & Hraw & H). apply res_bind_ok in H as (current & Hcur & H).
  assert (current = up n) as ->.
  { unfold parent_of in Hup. rewrite Hproc in Hup. cbn [mbind res_bind] in Hup. destruct proc as [| | | | | |d]; try done.
    cbn in Hparent. injection Hparent as Hparent. unfold py_get_dict, py_get in Hup. cbn [mbind res_bind] in Hup.
    unfold get_default in Hparent. destruct (dict_get "parent" d) as [x|]; simpl in Hparent, Hup; subst.
    - destruct parent as [| | | | | |d']; try done. assert (py_or (PDict d') (PDict []) = PDict d') as He by (by destruct d').
      rewrite He in Hup. simpl in Hup, Hraw. injection Hup as <-. injection Hraw as <-.
      destruct (default PNone _); simpl in Hcur; try done; by injection Hcur as <-.
    - simpl in Hraw. injection Hraw as <-. simpl in Hcur, Hup. injection Hcur as <-. injection Hup as <-. done. }
  apply walk_up_spec in H as (new & -> & Hlen & Hl & Hnd & Hfor). split_and!.
  - cbn [app length]. lia.
  - cbn [app linked]. by rewrite Hnp, Hinf.
  - cbn [app map]. apply NoDup_cons. split; [|done]. intros (m & He & Hm)%list_elem_of_fmap.
    rewrite Forall_forall in Hfor. apply (Hfor m Hm). rewrite <-He, Hnp. by left.
Qed.

Lemma attach_children_spec hid opened pids entries out :
  attach_children search hid opened pids entries = Ok out →
  map ce_node out = map fst entries ∧
  ∀ pre last, out = pre ++ [last] → Forall (λ e, ce_children e = []) pre.
Proof.
  revert out. induction entries as [|[n s] entries IH]; intros out H.
  { injection H as <-. split; [done|]. by intros [|] ? ?. }
  cbn [attach_children] in H. destruct entries as [|x entries].
  - assert (∃ c, out = [mkEntry n s c]) as [c ->].
    { destruct (0 <? cn_pid n); [|injection H as <-; eauto]. apply res_bind_ok in H as (c & _ & H). injection H as <-. eauto. }
    split; [done|]. intros [|? [|]] ? [=]; constructor.
  - apply res_bind_ok in H as (l & Hl & H). injection H as <-. destruct (IH _ Hl) as [Hm Hc].
    split; [by cbn [map ce_node fst]; rewrite Hm|]. intros [|e pre] last He; [constructor|].
    injection He as <- He. constructor; [done|]. by eapply Hc.
Qed.
End lineage.

(** The process chain built from the search index is a lineage: it starts at
    the process that triggered the alert, every further node is the recorded
    parent of the one before it, no process occurs twice, it is at most
    [max_depth] long and only its end may be inferred.  The children are attached
    to the end of the chain, the earliest ancestor found, and to no other node. *)
Theorem process_chain_lineage search tbl host doc docs p opened_at max_depth entries :
  pid_filter_sound search → 0 < max_depth → 0 < p → doc_pid doc = Ok (PInt p) → ancestors tbl host p = [] →
  build_process_chain search tbl host (doc :: docs) opened_at max_depth = Ok entries →
  linked (Some p) (map ce_node entries) ∧ NoDup (map cn_pid (map ce_node entries)) ∧
  Z.of_nat (length entries) <= max_depth ∧
  ∀ pre leaf, entries = pre ++ [leaf] → Forall (λ e, ce_children e = []) pre.
Proof.
  intros Hsound Hd Hp Hpid Hpg. unfold build_process_chain. cbn [start_pid]. rewrite Hpid. cbn [mbind res_bind].
  unfold positive_int at 1. cbn [as_int]. rewrite (proj2 (Z.ltb_lt 0 p) Hp). cbn [mbind res_bind].
  unfold build_chain_from_pg. rewrite Hpg. intros H. cbn [drop length map] in H. rewrite drop_nil in H. cbn [map] in H.
  apply res_bind_ok in H as (chain & Hc & H). apply res_bind_ok in H as (sibs & Hs & H).
  destruct (os_walk_spec search Hsound _ _ _ _ _ _ _ Hd Hp Hpid Hc) as (Hlen & Hl & Hnd).
  apply attach_children_spec in H as [Hm Hch].
  assert (map ce_node entries = chain) as Hnodes.
  { rewrite Hm. apply fst_zip. apply mapM_res_length in Hs. lia. }
  rewrite Hnodes. split_and!; [done|done| |done]. rewrite <-(length_map ce_node entries), Hnodes. lia.
Qed.

(** The panels of a process lose nothing: every event the index returns for
    the process is shown on exactly one of the four panels, and the page says when
    the window may have more. *)
Theorem process_panels_partition search E aid pid window_minutes max_events actor db d :
  get_process_detail search E aid pid window_minutes max_events actor db = Ok d →
  ∃ a host hits, a ∈ tg_alerts db ∧ al_id a = aid ∧ al_host_id a = Some host ∧
    host_visible_to actor (Some host) (tg_scope db) = true ∧
    fetch_pid_window search (uuid_str host) pid (al_opened_at a - window_minutes * minute)
      (al_opened_at a + window_minutes * minute) max_events = Ok hits ∧
    (length (pdt_image_loads d) + length (pdt_files d) + length (pdt_network d) + length (pdt_other d))%nat = length hits ∧
    (pdt_truncated d = true ↔ max_events <= Z.of_nat (length hits)).
Proof.
  unfold get_process_detail. intros H. apply res_bind_ok in H as ([] & _ & H).
  destruct (_ || _); [done|]. destruct (pid <=? 0); [done|]. apply res_bind_ok in H as (a & Ha & H).
  destruct (List.find _ _) as [a'|] eqn:Hf; [|done]. injection Ha as ->. apply find_some in Hf as [Hin Hid%Z.eqb_eq].
  destruct (negb (host_visible_to _ _ _)) eqn:Hv; [done|]. apply negb_false_iff in Hv.
  apply res_bind_ok in H as (host & Hh & H). unfold of_option in Hh. destruct (al_host_id a) as [h|] eqn:Hhost; [|done].
  injection Hh as ->. apply res_bind_ok in H as (started & _ & H). apply res_bind_ok in H as (hits & Hhits & H).
  apply res_bind_ok in H as (panels & Hp & H). apply res_bind_ok in H as (node & _ & H). injection H as <-.
  exists a, host, hits. rewrite list_elem_of_In. split_and!; try done.
  - cbn [pdt_image_loads pdt_files pdt_network pdt_other]. rewrite (mapM_res_length _ _ _ Hp).
    clear. induction panels as [|[] panels IH]; [done|..]; cbn [omap list_omap length] in *; lia.
  - cbn [pdt_truncated]. apply Z.leb_le.
Qed.

(** ** Examples *)

Definition demo_proc_doc (pid parent : Z) : pyval :=
  PDict [("event", PDict [("action", PStr "process_started")]);
         ("process", PDict [("pid", PInt pid); ("parent", PDict [("pid", PInt parent)])])].
Definition demo_hits (docs : list pyval) : pyval :=
  PDict [("hits", PDict [("hits", PList (map (λ d, PDict [("_source", d)]) docs))])].

(** An index with a shell (42) started by a service (7), and one file event. *)
Definition demo_search (body : pyval) : py pyval :=
  match body with
  | PDict [_; _; (_, PDict [(_, PDict [(_, PList [_; PDict [(_, PDict [(_, PInt pid)])]; _; _])])])] =>
      Ok (demo_hits (if pid =? 42 then [demo_proc_doc 42 7] else if pid =? 7 then [demo_proc_doc 7 1] else []))
  | PDict [_; _; (_, PDict [(_, PDict [(_, PList [_; _; _])])])] =>
      Ok (demo_hits [PDict [("event", PDict [("action", PStr "file_created")])]])
  | _ => Ok (PDict [])
  end.

Lemma demo_search_sound : pid_filter_sound demo_search.
Proof.
  intros hid pid before resp hits h src Hs Hh Hin Hsrc. cbn in Hs. injection Hs as <-.
  destruct (Z.eqb_spec pid 42) as [->|]; [|destruct (Z.eqb_spec pid 7) as [->|]]; cbn in Hh; injection Hh as <-;
    try (apply list_elem_of_singleton in Hin as ->; cbn in Hsrc; injection Hsrc as <-; done).
  by apply not_elem_of_nil in Hin.
Qed.

Definition demo_entries : list ChainEntry := Eval vm_compute in
  match build_process_chain demo_search [] 100 [demo_proc_doc 42 7] 0 8 with Ok l => l | Err _ => [] end.

Lemma process_chain_lineage_witness :
  map cn_pid (map ce_node demo_entries) = [42; 7; 1] ∧ linked (Some 42) (map ce_node demo_entries).
Proof.
  split; [reflexivity|].
  apply (process_chain_lineage demo_search [] 100 (demo_proc_doc 42 7) [] 42 0 8 demo_entries).
  - apply demo_search_sound.
  - lia.
  - lia.
  - reflexivity.
  - reflexivity.
  - vm_compute. reflexivity.
Defined.

Lemma process_panels_partition_witness :
  ∃ d, get_process_detail demo_search demo_env 0 42 15 100 (demo_admin 1) demo_closed.1 = Ok d ∧
    (length (pdt_image_loads d) + length (pdt_files d) + length (pdt_network d) + length (pdt_other d))%nat = 1%nat.
Proof.
  destruct (get_process_detail demo_search demo_env 0 42 15 100 (demo_admin 1) demo_closed.1) as [d|] eqn:H;
    [|vm_compute in H; discriminate H].
  exists d. split; [reflexivity|].
  destruct (process_panels_partition demo_search demo_env 0 42 15 100 (demo_admin 1) demo_closed.1 d H)
    as (a & host & hits & _ & _ & _ & _ & Hf & Hlen & _). rewrite Hlen. cbn in Hf. injection Hf as <-. reflexivity.
Defined.
