(* ===== verification/Webhooks.v ===== *)
(** * Webhooks: signed deliveries of events

    services/webhook_dispatcher.py, workers/webhook_dispatcher.py, api/webhooks.py,
    models/webhook.py and schemas/webhook.py.  The events come from the topic that
    Triage publishes to.  The receiver behind the HTTP client, Fernet and the random
    secrets are arguments. *)

From Stdlib Require Import Ascii String.
From S2P Require Import Prelude PyStr PyVal PyJson PyTime Crypto PyText PyJsonRead Models AuditChain Rollout.
From S2P Require Import Scoping Jobs Commands Fleet Routing Dedup Response Detector Incidents Cases Triage.
Local Open Scope string_scope.
Local Open Scope list_scope.
Local Open Scope Z_scope.

(** ** Tables *)

Definition WEBHOOK_EVENT_TYPES : list str :=
  ["alert.opened"; "alert.state_changed"; "alert.summary_ready"; "incident.opened"; "incident.resolved";
   "job.completed"; "job.failed"; "host.enrolled"; "host.disconnected"].

Record WebhookSubscription := mkSubscription {
  ws_id : uuid;
  ws_name : str;
  ws_url : str;
  ws_secret_encrypted : bytes;
  ws_event_types : list str;
  ws_enabled : bool;
  ws_failure_count : Z;
  ws_last_delivery_at : option datetime;
  ws_last_failure_at : option datetime;
  ws_created_at : datetime
}.

Inductive delivery_status := W_DELIVERED | W_FAILED.
#[global] Instance delivery_status_eq_dec : EqDecision delivery_status.
Proof. solve_decision. Defined.
Definition delivery_status_value (s : delivery_status) : str :=
  match s with W_DELIVERED => "delivered" | W_FAILED => "failed" end.

(** The body is a text and whether an ellipsis, which is outside the range of the
    model's characters, follows it. *)
Record WebhookDelivery := mkDelivery {
  wd_id : uuid;
  wd_subscription_id : uuid;
  wd_event_type : str;
  wd_payload_json : dict;
  wd_status : delivery_status;
  wd_attempts : Z;
  wd_response_status : option Z;
  wd_response_body_truncated : option (str * bool);
  wd_delivered_at : option datetime;
  wd_created_at : datetime
}.

Record hook_db := mkHookDb {
  hk_triage : triage_db;
  hk_subscriptions : list WebhookSubscription;
  hk_deliveries : list WebhookDelivery
}.
Definition set_subscriptions (l : list WebhookSubscription) (db : hook_db) : hook_db :=
  mkHookDb (hk_triage db) l (hk_deliveries db).
Definition put_subscription (s : WebhookSubscription) (l : list WebhookSubscription) : list WebhookSubscription :=
  map (λ x, if ws_id x =? ws_id s then s else x) l.

(** [db.add(delivery)], with the counters [deliver] has set on the subscription. *)
Definition record_delivery (s : WebhookSubscription) (d : WebhookDelivery) (db : hook_db) : hook_db :=
  mkHookDb (hk_triage db) (put_subscription s (hk_subscriptions db)) (hk_deliveries db ++ [d]).

(** ** Secrets and signatures *)

Definition encrypt_secret (F : fernet) (plaintext : str) : bytes := fernet_encrypt F (utf8 plaintext).

Definition decrypt_secret (F : fernet) (blob : bytes) : py str :=
  match fernet_decrypt F blob with
  | None => Err (RuntimeError "stored webhook secret could not be decrypted; VIGIL_NOTIFICATION_ENCRYPTION_KEY may have been rotated")
  | Some plain => utf8_decode plain
  end.

Definition sign_payload (secret : str) (body : bytes) : str := hexdigest (hmac_sha256 (utf8 secret) body).

Definition build_envelope (now : datetime) (event_type : str) (payload : dict) : dict :=
  [("event_type", PStr event_type); ("occurred_at", PStr (isoformat now)); ("data", PDict payload)].

Definition serialize_body (envelope : dict) : bytes := utf8 (json_canonical (PDict envelope)).

(** ** Delivery *)

Record hook_request := mkHookRequest { hq_url : str; hq_body : bytes; hq_headers : list (str * str) }.

(** What a receiver answers to the [i]-th attempt of a request. *)
Definition receiver : Type := nat → hook_request → http_answer.

(** The attempts from the [i]-th on, [n] of them left, after the last answer. *)
Fixpoint post_loop (post : nat → http_answer) (n i : nat) (last_response : option http_response)
    (last_error : option str) : py (option http_response * Z * option str) :=
  match n with
  | O => Ok (last_response, Z.of_nat i, last_error)
  | S n =>
      match post i with
      | HTTPError text => post_loop post n (S i) None (Some text)
      | Raised exc => Err exc
      | Response resp =>
          let status := rs_status_code resp in
          if status <? 400 then Ok (Some resp, Z.of_nat (S i), None)
          else if status <? 500 then Ok (Some resp, Z.of_nat (S i), Some ("permanent " +:+ str_of_Z status))
          else post_loop post n (S i) (Some resp) (Some ("5xx " +:+ str_of_Z status))
      end
  end.

Definition post_with_retries (post : nat → http_answer) (retry_max : Z) : py (option http_response * Z * option str) :=
  post_loop post (Z.to_nat (Z.max 1 (retry_max + 1))) 0 None None.

Definition RESPONSE_TRUNCATE_BYTES : nat := 512.
Definition truncate_body (text : str) : str * bool :=
  if (String.length text <=? RESPONSE_TRUNCATE_BYTES)%nat then (text, false)
  else (take_str RESPONSE_TRUNCATE_BYTES text, true).

(** The headers and the body of a delivery. *)
Definition signed_request (sub : WebhookSubscription) (secret : str) (delivery_id : uuid) (event_type : str) (body : bytes) :
    hook_request :=
  mkHookRequest (ws_url sub) body
    [("Content-Type", "application/json"); ("User-Agent", "vigil-webhook/1.0"); ("X-Vigil-Event-Type", event_type);
     ("X-Vigil-Delivery-Id", uuid_str delivery_id); ("X-Vigil-Signature", "sha256=" +:+ sign_payload secret body)].

(** The counters of a subscription after a delivery. *)
Definition count_delivery (now : datetime) (threshold : Z) (ok : bool) (sub : WebhookSubscription) : WebhookSubscription :=
  let failures := if ok then 0 else ws_failure_count sub + 1 in
  mkSubscription (ws_id sub) (ws_name sub) (ws_url sub) (ws_secret_encrypted sub) (ws_event_types sub)
    (if negb ok && (threshold <=? failures) then false else ws_enabled sub) failures
    (if ok then Some now else ws_last_delivery_at sub) (if ok then ws_last_failure_at sub else Some now) (ws_created_at sub).

Section deliver.
Context (E : env) (F : fernet) (retry_max threshold : Z).

Definition deliver (R : receiver) (delivery_id : uuid) (sub : WebhookSubscription) (event_type : str) (payload : dict) :
    py (WebhookSubscription * WebhookDelivery) :=
  let envelope := build_envelope (env_now E) event_type payload in
  let body := serialize_body envelope in
  secret ← decrypt_secret F (ws_secret_encrypted sub);
  let q := signed_request sub secret delivery_id event_type body in
  '(response, attempts, transport_error) ← post_with_retries (λ i, R i q) retry_max;
  let ok := match response with Some resp => rs_status_code resp <? 400 | None => false end in
  let body_text :=
    match response with
    | Some resp => Some (truncate_body (rs_text resp))
    | None => truncate_body <$> transport_error
    end in
  Ok (count_delivery (env_now E) threshold ok sub,
      mkDelivery delivery_id (ws_id sub) event_type envelope (if ok then W_DELIVERED else W_FAILED) attempts
        (rs_status_code <$> response) body_text (if ok then Some (env_now E) else None) (env_now E)).

(** ** The worker *)

Definition matching_subscriptions (event_type : str) (db : hook_db) : list WebhookSubscription :=
  List.filter (λ s, ws_enabled s && bool_decide (event_type ∈ ws_event_types s)) (hk_subscriptions db).

(** The loop over the subscriptions; [R] gives the receiver of each. *)
Fixpoint fan_out (R : uuid → receiver) (event_type : str) (payload : dict) (subs : list WebhookSubscription)
    (db : hook_db) : py hook_db :=
  match subs with
  | [] => Ok db
  | sub :: rest =>
      '(sub', d) ← deliver (R (ws_id sub)) (env_uuid4 E (length (hk_deliveries db))) sub event_type payload;
      fan_out R event_type payload rest (record_delivery sub' d db)
  end.

(** One transaction: an exception leaves the tables as they were. *)
Definition dispatch_event (R : uuid → receiver) (event_type : str) (payload : dict) (db : hook_db) :
    py (hook_db * nat) :=
  let subs := matching_subscriptions event_type db in
  db ← fan_out R event_type payload subs db;
  Ok (db, length subs).

(** One turn of the loop on the message at [position], with the committed offset;
    an exception that escapes ends the worker. *)
Definition consume_webhook (R : uuid → receiver) (position : nat) (value : option bytes) (st : hook_db * nat) :
    py (hook_db * nat) :=
  match value with
  | None => Ok st
  | Some value =>
      match utf8_decode value ≫= json_loads with
      | Err UnicodeDecodeError | Err ValueError => Ok st
      | Err e => Err e
      | Ok envelope =>
          event_type ← py_get "event_type" envelope;
          payload ← py_get "payload" envelope;
          match event_type, payload with
          | PStr event_type, PDict payload =>
              match dispatch_event R event_type payload st.1 with
              | Ok (db, _) => Ok (db, S position)
              | Err _ => Ok st
              end
          | _, _ => Ok st
          end
      end
  end.

Fixpoint consume_webhooks (R : nat → uuid → receiver) (position : nat) (values : list (option bytes))
    (st : hook_db * nat) : py (hook_db * nat) :=
  match values with
  | [] => Ok st
  | v :: rest => st ← consume_webhook (R position) position v st; consume_webhooks R (S position) rest st
  end.
End deliver.

(** services/kafka.py, [send_json]: the value of a message of the topic. *)
Definition event_message (event_type : str) (payload : dict) : bytes :=
  utf8 (json_enc "," ":" (PDict [("event_type", PStr event_type); ("payload", PDict payload)])).

(** ** Routes (api/webhooks.py) *)

(** [list[WebhookEventType]] with [min_length=1]. *)
Definition event_types_ok (l : list str) : bool :=
  (0 <? length l)%nat && forallb (λ t, bool_decide (t ∈ WEBHOOK_EVENT_TYPES)) l.

Definition fingerprint (secret_plain : str) : str := take_str 8 (hexdigest (sha256 (utf8 secret_plain))).

Section routes.
Context (E : env) (F : fernet).

Definition hook_audited (actor : Actor) (action rid : str) (payload : dict) (db : hook_db) : hook_db :=
  mkHookDb (triage_audited E actor action "webhook_subscription" rid payload (hk_triage db)) (hk_subscriptions db)
    (hk_deliveries db).

Definition find_subscription (db : hook_db) (sub_id : uuid) : py WebhookSubscription :=
  of_option (HTTPException 404) (List.find (λ s, ws_id s =? sub_id) (hk_subscriptions db)).

Definition list_subscriptions (actor : Actor) (db : hook_db) : py (list WebhookSubscription) :=
  _ ← require_viewer actor;
  Ok (sort_by (λ s, - ws_created_at s) (hk_subscriptions db)).

Definition get_subscription (sub_id : uuid) (actor : Actor) (db : hook_db) : py WebhookSubscription :=
  _ ← require_viewer actor; find_subscription db sub_id.

Definition pystrs (l : list str) : pyval := PList (map PStr l).

(** [url] is the normalised URL and [secret] the generated secret, which the
    answer carries. *)
Definition create_subscription (secret name url : str) (event_types : list str) (enabled : bool) (actor : Actor)
    (db : hook_db) : py (hook_db * (WebhookSubscription * str)) :=
  if negb (is_admin actor) then Err (HTTPException 403)
  else if negb (text_ok 1 128 name && event_types_ok event_types) then Err (HTTPException 422)
  else if existsb (λ s, String.eqb (ws_name s) name) (hk_subscriptions db) then Err (HTTPException 409)
  else
    let event_types := dedup event_types in
    let sub := mkSubscription (env_uuid4 E (length (hk_subscriptions db))) name url (encrypt_secret F secret) event_types
                 enabled 0 None None (env_now E) in
    Ok (hook_audited actor "webhook.create" (uuid_str (ws_id sub))
          [("name", PStr name); ("url", PStr url); ("event_types", pystrs event_types); ("enabled", PBool enabled);
           ("secret_fingerprint", PStr (fingerprint secret)); ("redacted", PBool true)]
          (set_subscriptions (hk_subscriptions db ++ [sub]) db), (sub, secret)).

Definition update_subscription (sub_id : uuid) (name url : option str) (event_types : option (list str))
    (enabled : option bool) (actor : Actor) (db : hook_db) : py (hook_db * WebhookSubscription) :=
  if negb (is_admin actor) then Err (HTTPException 403)
  else if negb (opt_ok (text_ok 1 128) name && opt_ok event_types_ok event_types) then Err (HTTPException 422)
  else
    sub ← find_subscription db sub_id;
    let renamed := match name with Some n => negb (String.eqb n (ws_name sub)) | None => false end in
    if renamed && existsb (λ s, String.eqb (ws_name s) (default "" name) && negb (ws_id s =? sub_id)) (hk_subscriptions db)
    then Err (HTTPException 409)
    else
      let event_types := dedup <$> event_types in
      let revived := bool_decide (enabled = Some true) && negb (ws_enabled sub) in
      let sub' := mkSubscription (ws_id sub) (default (ws_name sub) name) (default (ws_url sub) url)
                    (ws_secret_encrypted sub) (default (ws_event_types sub) event_types)
                    (default (ws_enabled sub) enabled) (if revived then 0 else ws_failure_count sub)
                    (ws_last_delivery_at sub) (ws_last_failure_at sub) (ws_created_at sub) in
      let audit_payload :=
        (if renamed then [("name", PStr (default "" name))] else []) ++
        match url with Some u => [("url", PStr u)] | None => [] end ++
        match event_types with Some l => [("event_types", pystrs l)] | None => [] end ++
        match enabled with Some b => [("enabled", PBool b)] | None => [] end ++
        (if revived then [("failure_count_reset", PBool true)] else []) in
      Ok (hook_audited actor "webhook.update" (uuid_str (ws_id sub)) audit_payload
            (set_subscriptions (put_subscription sub' (hk_subscriptions db)) db), sub').

(** The deliveries go with the subscription. *)
Definition delete_subscription (sub_id : uuid) (actor : Actor) (db : hook_db) : py hook_db :=
  if negb (is_admin actor) then Err (HTTPException 403)
  else
    sub ← find_subscription db sub_id;
    Ok (hook_audited actor "webhook.delete" (uuid_str sub_id) [("name", PStr (ws_name sub))]
          (mkHookDb (hk_triage db) (List.filter (λ s, negb (ws_id s =? sub_id)) (hk_subscriptions db))
             (List.filter (λ d, negb (wd_subscription_id d =? sub_id)) (hk_deliveries db)))).

Definition sample_event (sub : WebhookSubscription) (actor : Actor) : dict :=
  [("test", PBool true); ("subscription_id", PStr (uuid_str (ws_id sub))); ("subscription_name", PStr (ws_name sub));
   ("fired_at", PStr (isoformat (env_now E))); ("fired_by_user_id", PStr (uuid_str (actor_user_id actor)))].

Definition test_subscription (retry_max threshold : Z) (R : receiver) (sub_id : uuid) (event_type : str) (actor : Actor)
    (db : hook_db) : py (hook_db * WebhookDelivery) :=
  if negb (is_admin actor) then Err (HTTPException 403)
  else if negb (bool_decide (event_type ∈ WEBHOOK_EVENT_TYPES)) then Err (HTTPException 422)
  else
    sub ← find_subscription db sub_id;
    if negb (bool_decide (event_type ∈ ws_event_types sub)) then Err (HTTPException 400)
    else
      '(sub', d) ← deliver E F retry_max threshold R (env_uuid4 E (length (hk_deliveries db))) sub event_type
                     (sample_event sub actor);
      Ok (hook_audited actor "webhook.test" (uuid_str (ws_id sub))
            [("event_type", PStr event_type); ("delivery_id", PStr (uuid_str (wd_id d)));
             ("status", PStr (delivery_status_value (wd_status d)));
             ("response_status", match wd_response_status d with Some n => PInt n | None => PNone end)]
            (record_delivery sub' d db), d).

Definition set_secret (blob : bytes) (s : WebhookSubscription) : WebhookSubscription :=
  mkSubscription (ws_id s) (ws_name s) (ws_url s) blob (ws_event_types s) (ws_enabled s) (ws_failure_count s)
    (ws_last_delivery_at s) (ws_last_failure_at s) (ws_created_at s).

Definition rotate_secret (new_secret : str) (sub_id : uuid) (actor : Actor) (db : hook_db) :
    py (hook_db * (WebhookSubscription * str)) :=
  if negb (is_admin actor) then Err (HTTPException 403)
  else
    sub ← find_subscription db sub_id;
    let sub' := set_secret (encrypt_secret F new_secret) sub in
    Ok (hook_audited actor "webhook.rotate" (uuid_str (ws_id sub))
          [("secret_fingerprint", PStr (fingerprint new_secret)); ("redacted", PBool true)]
          (set_subscriptions (put_subscription sub' (hk_subscriptions db)) db), (sub', new_secret)).

Definition list_deliveries (sub_id : uuid) (limit offset : Z) (actor : Actor) (db : hook_db) :
    py (Page WebhookDelivery) :=
  _ ← require_viewer actor;
  if negb ((1 <=? limit) && (limit <=? 200) && (0 <=? offset)) then Err (HTTPException 422)
  else
    sub ← find_subscription db sub_id;
    page (sort_by (λ d, - wd_created_at d) (List.filter (λ d, wd_subscription_id d =? ws_id sub) (hk_deliveries db)))
      limit offset.
End routes.

(** ** Signatures *)

(** The routes that show a secret: at creation and at each rotation. *)
Definition hands_out (E : env) (F : fernet) (actor : Actor) (db db' : hook_db) (sub : WebhookSubscription) (secret : str) : Prop :=
  (∃ s name url types enabled, create_subscription E F s name url types enabled actor db = Ok (db', (sub, secret))) ∨
  (∃ s sub_id, rotate_secret E F s sub_id actor db = Ok (db', (sub, secret))).

Lemma find_subscription_ok db id sub :
  find_subscription db id = Ok sub → sub ∈ hk_subscriptions db ∧ ws_id sub = id.
Proof.
  unfold find_subscription. destruct (List.find _ _) eqn:Hf; [|done]. intros [= <-].
  apply List.find_some in Hf as [Hin He]. split; [by apply list_elem_of_In|lia].
Qed.

Lemma put_subscription_elem s x l : x ∈ l → ws_id x = ws_id s → s ∈ put_subscription s l.
Proof.
  intros Hx Hid. apply list_elem_of_fmap. exists x. split; [|done]. by rewrite (proj2 (Z.eqb_eq _ _) Hid).
Qed.

Lemma handed_out_stored E F actor db db' sub secret :
  hands_out E F actor db db' sub secret →
  sub ∈ hk_subscriptions db' ∧ ws_secret_encrypted sub = encrypt_secret F secret.
Proof.
  intros [(s & name & url & types & enabled & H)|(s & id & H)]; [unfold create_subscription in H|unfold rotate_secret in H];
    destruct (negb (is_admin actor)); try done.
  - destruct (negb (_ && _)); [done|]. destruct (existsb _ _); [done|]. injection H as <- <- <-. split; [|done].
    cbn [hook_audited set_subscriptions hk_subscriptions]. set_solver.
  - apply res_bind_ok in H as (sub0 & Hf & H). injection H as <- <- <-. split; [|done].
    apply find_subscription_ok in Hf as [Hin Hid]. cbn [hook_audited set_subscriptions hk_subscriptions].
    by apply (put_subscription_elem _ sub0).
Qed.

Lemma decrypt_encrypt F secret :
  (∀ b, fernet_decrypt F (fernet_encrypt F b) = Some b) → decrypt_secret F (encrypt_secret F secret) = Ok secret.
Proof. intros HF. unfold decrypt_secret, encrypt_secret. rewrite HF. apply utf8_decode_utf8. Qed.

Lemma post_loop_ext post post' n i r e :
  (∀ j, post j = post' j) → post_loop post n i r e = post_loop post' n i r e.
Proof.
  intros H. revert i r e. induction n as [|n IH]; intros i r e; [done|]. cbn [post_loop]. rewrite H.
  destruct (post' i) as [| |resp]; [apply IH|done|]. by rewrite IH.
Qed.

Lemma envelope_plain now et payload : plain (PDict payload) → plain (PDict (build_envelope now et payload)).
Proof.
  intros [Hf Hk]. split; [cbn in Hf |- *|cbn in Hk |- *].
  - by rewrite Hf.
  - by rewrite Hk.
Qed.

(** C29: every delivery verifies at the receiver: with the secret that creation or
    rotation has shown, the one request a delivery sends carries the HMAC of the
    exact bytes of its body, and the body reads back as the event. *)
Theorem deliveries_verify E F actor db db' sub secret :
  hands_out E F actor db db' sub secret →
  (∀ b, fernet_decrypt F (fernet_encrypt F b) = Some b) →
  sub ∈ hk_subscriptions db' ∧
  ∀ E' rmax threshold id sub1 event_type payload,
    ws_secret_encrypted sub1 = ws_secret_encrypted sub → plain (PDict payload) →
    ∃ q, hq_url q = ws_url sub1 ∧
      ("X-Vigil-Signature", "sha256=" +:+ hexdigest (hmac_sha256 (utf8 secret) (hq_body q))) ∈ hq_headers q ∧
      json_loads_bytes (hq_body q) =
        Ok (PDict [("data", sort_keys (PDict payload)); ("event_type", PStr event_type);
                   ("occurred_at", PStr (isoformat (env_now E')))]) ∧
      ∀ R R' : receiver, (∀ i, R i q = R' i q) →
        deliver E' F rmax threshold R id sub1 event_type payload = deliver E' F rmax threshold R' id sub1 event_type payload.
Proof.
  intros (Hin & Hs)%handed_out_stored HF. split; [done|].
  intros E' rmax threshold id sub1 et payload H1 Hp.
  exists (signed_request sub1 secret id et (serialize_body (build_envelope (env_now E') et payload))).
  split_and!.
  - done.
  - unfold signed_request, sign_payload. cbn [hq_headers hq_body]. set_solver.
  - cbn [signed_request hq_body]. unfold serialize_body. rewrite json_bytes_roundtrip by by apply envelope_plain. done.
  - intros R R' HR. unfold deliver. rewrite H1, Hs, decrypt_encrypt by done. cbn [mbind res_bind].
    unfold post_with_retries. by rewrite (post_loop_ext _ (λ i, R' i _) _ _ _ _ HR).
Qed.

(** ** Attempts *)

Definition transient (a : http_answer) : bool :=
  match a with HTTPError _ => true | Response r => 500 <=? rs_status_code r | Raised _ => false end.
Definition answered (a : http_answer) : option http_response := match a with Response r => Some r | _ => None end.

Lemma post_loop_S post n i r e :
  post_loop post (S n) i r e =
  match post i with
  | HTTPError text => post_loop post n (S i) None (Some text)
  | Raised exc => Err exc
  | Response resp =>
      if rs_status_code resp <? 400 then Ok (Some resp, Z.of_nat (S i), None)
      else if rs_status_code resp <? 500
           then Ok (Some resp, Z.of_nat (S i), Some ("permanent " +:+ str_of_Z (rs_status_code resp)))
           else post_loop post n (S i) (Some resp) (Some ("5xx " +:+ str_of_Z (rs_status_code resp)))
  end.
Proof. done. Qed.

Lemma post_loop_attempts post n i r0 e0 r k e :
  post_loop post (S n) i r0 e0 = Ok (r, k, e) →
  ∃ j, (i <= j <= i + n)%nat ∧ k = Z.of_nat (S j) ∧ r = answered (post j) ∧
    (∀ m, (i <= m < j)%nat → transient (post m) = true) ∧ ((j < i + n)%nat → transient (post j) = false).
Proof.
  revert i r0 e0. induction n as [|n IH]; intros i r0 e0 H; rewrite post_loop_S in H;
    destruct (post i) as [t|x|resp] eqn:Hi; try done.
  - injection H as <- <- <-. exists i. rewrite Hi. split_and!; (done || lia).
  - destruct (Z.ltb_spec (rs_status_code resp) 400); [|destruct (Z.ltb_spec (rs_status_code resp) 500)];
      injection H as <- <- <-; exists i; rewrite Hi; split_and!; (done || lia).
  - apply IH in H as (j & Hj & -> & -> & Ht & Hl). exists j. split_and!; try done; try lia; [|intros; apply Hl; lia].
    intros m Hm. destruct (decide (m = i)) as [->|]; [by rewrite Hi|apply Ht; lia].
  - destruct (Z.ltb_spec (rs_status_code resp) 400); [|destruct (Z.ltb_spec (rs_status_code resp) 500)].
    1,2: injection H as <- <- <-; exists i; rewrite Hi; split_and!; try done; try lia;
      intros _; cbn [transient]; lia.
    apply IH in H as (j & Hj & -> & -> & Ht & Hl). exists j. split_and!; try done; try lia; [|intros; apply Hl; lia].
    intros m Hm. destruct (decide (m = i)) as [->|]; [rewrite Hi; cbn [transient]; lia|apply Ht; lia].
Qed.

Lemma post_loop_returns post n i r e :
  (∀ j x, post j ≠ Raised x) → ∃ res, post_loop post n i r e = Ok res.
Proof.
  intros H. revert i r e. induction n as [|n IH]; intros i r e; cbn [post_loop]; [by eexists|].
  destruct (post i) as [t|x|resp] eqn:Hi; [apply IH|by destruct (H i x)|].
  repeat case_match; eauto.
Qed.

(** A delivery ends after at most [retry_max] retries: every attempt before the
    last met a transport error or a server error, an attempt that met neither was
    the last, and the row says delivered exactly when the last answer is below 400. *)
Theorem delivery_outcome E F rmax threshold (R : receiver) id sub event_type payload secret :
  decrypt_secret F (ws_secret_encrypted sub) = Ok secret → (∀ i q x, R i q ≠ Raised x) →
  ∃ sub' d (j : nat) q,
    deliver E F rmax threshold R id sub event_type payload = Ok (sub', d) ∧
    wd_attempts d = Z.of_nat (S j) ∧ Z.of_nat (S j) <= Z.max 1 (rmax + 1) ∧
    (∀ m, (m < j)%nat → transient (R m q) = true) ∧
    (Z.of_nat (S j) < Z.max 1 (rmax + 1) → transient (R j q) = false) ∧
    (wd_status d = W_DELIVERED ↔ ∃ resp, R j q = Response resp ∧ rs_status_code resp < 400) ∧
    wd_response_status d = rs_status_code <$> answered (R j q).
Proof.
  intros Hs HR. unfold deliver. rewrite Hs. cbn [mbind res_bind].
  set (q := signed_request _ _ _ _ _). unfold post_with_retries.
  destruct (Z.to_nat (Z.max 1 (rmax + 1))) as [|n] eqn:Hn; [lia|].
  destruct (post_loop_returns (λ i, R i q) (S n) 0 None None) as [[[r k] e] Hp]; [by intros j x; apply HR|].
  rewrite Hp. cbn [mbind res_bind]. apply post_loop_attempts in Hp as (j & Hj & -> & -> & Ht & Hl).
  do 2 eexists. exists j, q. split; [reflexivity|]. cbn [wd_attempts wd_status wd_response_status].
  split_and!; try done; try lia.
  - intros m Hm. apply Ht. lia.
  - intros Hlt. apply Hl. lia.
  - destruct (R j q) as [t|x|resp]; cbn [answered]; [by split; [|intros (? & ? & _)]..|].
    destruct (Z.ltb_spec (rs_status_code resp) 400); split; try done; [by exists resp|].
    intros (? & [= <-] & ?). lia.
Qed.

(** ** The tables *)

(** The outcomes of a subscription's deliveries, and how many failures end them. *)
Definition outcomes (id : uuid) (l : list WebhookDelivery) : list delivery_status :=
  map wd_status (List.filter (λ d, wd_subscription_id d =? id) l).
Definition failure_streak (l : list delivery_status) : Z :=
  foldl (λ n st, match st with W_DELIVERED => 0 | W_FAILED => n + 1 end) 0 l.

Definition types_ok (l : list str) : Prop := l ≠ [] ∧ NoDup l ∧ l ⊆ WEBHOOK_EVENT_TYPES.

Record hook_wf (threshold : Z) (db : hook_db) : Prop := {
  hw_ids : NoDup (map ws_id (hk_subscriptions db));
  hw_names : NoDup (map ws_name (hk_subscriptions db));
  hw_types : ∀ s, s ∈ hk_subscriptions db → types_ok (ws_event_types s);
  hw_refs : ∀ d, d ∈ hk_deliveries db → wd_subscription_id d ∈ map ws_id (hk_subscriptions db);
  hw_delivery_ids : NoDup (map wd_id (hk_deliveries db));
  hw_counts : ∀ s, s ∈ hk_subscriptions db →
    0 <= ws_failure_count s <= failure_streak (outcomes (ws_id s) (hk_deliveries db)) ∧
    (ws_enabled s = true → ws_failure_count s < threshold)
}.

(** The random ids are new. *)
Definition fresh_hooks (E : env) (db : hook_db) : Prop :=
  Inj (=) (=) (env_uuid4 E) ∧ (∀ n, env_uuid4 E n ∉ map ws_id (hk_subscriptions db)) ∧
  ∀ n, env_uuid4 E n ∉ map wd_id (hk_deliveries db).

(** What changes the tables: the routes, the worker, and the rest of the program,
    which leaves them alone. *)
Inductive hook_step (F : fernet) (retry_max threshold : Z) (db : hook_db) : hook_db → Prop :=
| HS_create E secret name url types enabled actor db' r :
    fresh_hooks E db → create_subscription E F secret name url types enabled actor db = Ok (db', r) →
    hook_step F retry_max threshold db db'
| HS_update E id name url types enabled actor db' r :
    update_subscription E id name url types enabled actor db = Ok (db', r) → hook_step F retry_max threshold db db'
| HS_delete E id actor db' : delete_subscription E id actor db = Ok db' → hook_step F retry_max threshold db db'
| HS_test E R id event_type actor db' d :
    fresh_hooks E db → test_subscription E F retry_max threshold R id event_type actor db = Ok (db', d) →
    hook_step F retry_max threshold db db'
| HS_rotate E secret id actor db' r :
    rotate_secret E F secret id actor db = Ok (db', r) → hook_step F retry_max threshold db db'
| HS_dispatch E R event_type payload db' n :
    fresh_hooks E db → dispatch_event E F retry_max threshold R event_type payload db = Ok (db', n) →
    hook_step F retry_max threshold db db'
| HS_other t : hook_step F retry_max threshold db (mkHookDb t (hk_subscriptions db) (hk_deliveries db)).

Lemma failure_streak_snoc l st :
  failure_streak (l ++ [st]) = match st with W_DELIVERED => 0 | W_FAILED => failure_streak l + 1 end.
Proof. unfold failure_streak. by rewrite foldl_snoc. Qed.

Lemma failure_streak_nonneg l : 0 <= failure_streak l.
Proof.
  induction l as [|st l IH] using rev_ind; [done|]. rewrite failure_streak_snoc. destruct st; lia.
Qed.

Lemma failure_streak_split l (k : nat) :
  Z.of_nat k <= failure_streak l → ∃ l1, l = l1 ++ replicate k W_FAILED.
Proof.
  revert k. induction l as [|st l IH] using rev_ind; intros [|k] H.
  - by exists [].
  - unfold failure_streak in H. cbn in H. lia.
  - exists (l ++ [st]). by rewrite app_nil_r.
  - rewrite failure_streak_snoc in H. destruct st; [lia|]. destruct (IH k) as [l1 ->]; [lia|].
    exists l1. by rewrite <-app_assoc, <-replicate_cons_app.
Qed.

Lemma outcomes_snoc id l d :
  outcomes id (l ++ [d]) = outcomes id l ++ (if wd_subscription_id d =? id then [wd_status d] else []).
Proof. unfold outcomes. rewrite List.filter_app, map_app. cbn. by destruct (_ =? _). Qed.

(** What a delivery leaves. *)
Lemma deliver_ok E F rmax threshold R id sub et payload sub' d :
  deliver E F rmax threshold R id sub et payload = Ok (sub', d) →
  wd_id d = id ∧ wd_subscription_id d = ws_id sub ∧ wd_event_type d = et ∧
  sub' = count_delivery (env_now E) threshold (bool_decide (wd_status d = W_DELIVERED)) sub.
Proof.
  unfold deliver. intros H. apply res_bind_ok in H as (secret & _ & H). apply res_bind_ok in H as ([[r k] e] & _ & H).
  injection H as <- <-. cbn [wd_id wd_subscription_id wd_event_type wd_status]. split_and!; [done..|].
  by destruct (match r with Some _ => _ | None => _ end).
Qed.

Lemma put_ids s l : map ws_id (put_subscription s l) = map ws_id l.
Proof.
  unfold put_subscription. rewrite map_map. apply map_ext. intros x. destruct (Z.eqb_spec (ws_id x) (ws_id s)); congruence.
Qed.

Lemma put_elem s x l :
  x ∈ put_subscription s l → (x = s ∧ ws_id s ∈ map ws_id l) ∨ (x ∈ l ∧ ws_id x ≠ ws_id s).
Proof.
  intros (y & -> & Hy)%list_elem_of_fmap. destruct (Z.eqb_spec (ws_id y) (ws_id s)) as [He|]; [left|by right].
  split; [done|]. rewrite <-He. by apply list_elem_of_fmap_2.
Qed.

Lemma put_other s x l : x ∈ l → ws_id x ≠ ws_id s → x ∈ put_subscription s l.
Proof.
  intros Hx Hn. apply list_elem_of_fmap. exists x. split; [|done]. by rewrite (proj2 (Z.eqb_neq _ _) Hn).
Qed.

Lemma put_same_names s x l :
  NoDup (map ws_id l) → x ∈ l → ws_id x = ws_id s → ws_name x = ws_name s → map ws_name (put_subscription s l) = map ws_name l.
Proof.
  intros Hnd Hx Hid Hn. unfold put_subscription. rewrite map_map. apply map_ext_in. intros y Hy%list_elem_of_In.
  destruct (Z.eqb_spec (ws_id y) (ws_id s)) as [He|]; [|done].
  rewrite <-Hn. f_equal. by apply (NoDup_key_inj ws_id l); [..|congruence].
Qed.

Section preservation.
Context (threshold : Z).
Notation wf := (hook_wf threshold).

(** Only the two tables matter. *)
Lemma wf_tables db db' :
  hk_subscriptions db = hk_subscriptions db' → hk_deliveries db = hk_deliveries db' → wf db → wf db'.
Proof. intros Hs Hd []. split; rewrite <-?Hs, <-?Hd; done. Qed.

Lemma audited_wf E actor action rid payload db : wf db → wf (hook_audited E actor action rid payload db).
Proof. by apply wf_tables. Qed.

(** Replacing a row. *)
Lemma put_wf db x s :
  wf db → x ∈ hk_subscriptions db → ws_id x = ws_id s → types_ok (ws_event_types s) →
  (ws_name s = ws_name x ∨ ∀ y, y ∈ hk_subscriptions db → ws_name y = ws_name s → ws_id y = ws_id s) →
  0 <= ws_failure_count s <= failure_streak (outcomes (ws_id s) (hk_deliveries db)) →
  (ws_enabled s = true → ws_failure_count s < threshold) →
  wf (set_subscriptions (put_subscription s (hk_subscriptions db)) db).
Proof.
  intros [Hi Hn Ht Hr Hd Hc] Hx Hid Hty Hname Hfc Hen.
  split; cbn [set_subscriptions hk_subscriptions hk_deliveries]; rewrite ?put_ids; try done.
  - destruct Hname as [Hname|Hname]; [by rewrite (put_same_names s x)|].
    apply NoDup_fmap_2_strong; [|by apply (NoDup_fmap_1 ws_id); change (NoDup (map ws_id (put_subscription s (hk_subscriptions db)))); rewrite put_ids].
    intros a b Ha Hb Hab. apply put_elem in Ha as [[-> _]|[Ha Hna]], Hb as [[-> _]|[Hb Hnb]]; [done|..].
    + destruct Hnb. by apply Hname.
    + destruct Hna. by apply Hname.
    + by apply (NoDup_key_inj ws_name (hk_subscriptions db)).
  - intros y [[-> _]|[Hy _]]%put_elem; auto.
  - intros y [[-> _]|[Hy _]]%put_elem; auto.
Qed.

(** Recording a delivery. *)
Lemma record_wf E F rmax R db sub et payload id sub' d :
  0 < threshold → wf db → sub ∈ hk_subscriptions db → id ∉ map wd_id (hk_deliveries db) →
  deliver E F rmax threshold R id sub et payload = Ok (sub', d) → wf (record_delivery sub' d db).
Proof.
  intros Hthr [Hi Hn Ht Hr Hd Hc] Hsub Hfresh (Hid & Href & _ & ->)%deliver_ok.
  destruct (Hc sub Hsub) as [Hfc Hen].
  set (sub' := count_delivery _ _ _ sub). assert (ws_id sub' = ws_id sub) as Hs by done.
  split; cbn [record_delivery hk_subscriptions hk_deliveries]; rewrite ?put_ids; try done.
  - by rewrite (put_same_names sub' sub).
  - intros y [[-> _]|[Hy _]]%put_elem; [apply (Ht sub Hsub)|auto].
  - intros y [Hy| ->%list_elem_of_singleton]%elem_of_app; [auto|]. rewrite Href. by apply list_elem_of_fmap_2.
  - rewrite map_app. apply NoDup_app. split_and!; [done| |apply NoDup_singleton].
    intros y Hy ->%list_elem_of_singleton. by rewrite Hid in Hy.
  - intros y [[-> _]|[Hy Hne]]%put_elem; rewrite outcomes_snoc, Href.
    + rewrite Hs, Z.eqb_refl, failure_streak_snoc. unfold sub', count_delivery. cbn [ws_failure_count ws_enabled].
      destruct (wd_status d); [rewrite bool_decide_true by done|rewrite bool_decide_false by done]; cbn [negb andb].
      * by split; [|intros _].
      * destruct (Z.leb_spec threshold (ws_failure_count sub + 1)); (split; [lia|]); [done|lia].
    + rewrite Hs in Hne. rewrite (proj2 (Z.eqb_neq _ _)), app_nil_r by congruence. auto.
Qed.

Lemma record_ids E F rmax R db sub et payload sub' d :
  deliver E F rmax threshold R (env_uuid4 E (length (hk_deliveries db))) sub et payload = Ok (sub', d) →
  Inj (=) (=) (env_uuid4 E) →
  (∀ n, (length (hk_deliveries db) <= n)%nat → env_uuid4 E n ∉ map wd_id (hk_deliveries db)) →
  ∀ n, (length (hk_deliveries (record_delivery sub' d db)) <= n)%nat →
    env_uuid4 E n ∉ map wd_id (hk_deliveries (record_delivery sub' d db)).
Proof.
  intros (Hid & _)%deliver_ok Hinj Hf n. cbn [record_delivery hk_deliveries]. rewrite length_app, map_app. cbn. intros Hn.
  rewrite elem_of_app, list_elem_of_singleton, Hid. intros [Hin|He%(inj _)]; [|lia]. by apply (Hf n); [lia|].
Qed.

Lemma fan_out_wf E F rmax R et payload subs db db' :
  0 < threshold → Inj (=) (=) (env_uuid4 E) →
  (∀ n, (length (hk_deliveries db) <= n)%nat → env_uuid4 E n ∉ map wd_id (hk_deliveries db)) →
  wf db → NoDup (map ws_id subs) → (∀ s, s ∈ subs → s ∈ hk_subscriptions db) →
  fan_out E F rmax threshold R et payload subs db = Ok db' → wf db'.
Proof.
  intros Hthr Hinj. revert db. induction subs as [|sub subs IH]; intros db Hf Hwf Hnd Hin H; cbn [fan_out] in H.
  { by injection H as <-. }
  apply res_bind_ok in H as ([sub' d] & Hdel & H). cbn [map] in Hnd. apply NoDup_cons in Hnd as [Hni Hnd].
  apply IH in H; [done|..].
  - by apply (record_ids E F rmax (R (ws_id sub)) db sub et payload).
  - refine (record_wf _ _ _ _ _ sub _ _ _ _ _ Hthr Hwf (Hin sub _) _ Hdel); [set_solver|by apply Hf].
  - done.
  - intros s Hs. apply deliver_ok in Hdel as (_ & _ & _ & ->). cbn [record_delivery hk_subscriptions].
    apply put_other; [apply Hin; set_solver|]. intros He. apply Hni. cbn in He. rewrite <-He. by apply list_elem_of_fmap_2.
Qed.

Lemma matching_elem et db s :
  s ∈ matching_subscriptions et db ↔ s ∈ hk_subscriptions db ∧ ws_enabled s = true ∧ et ∈ ws_event_types s.
Proof.
  unfold matching_subscriptions. rewrite elem_of_filterb, andb_true_iff, bool_decide_eq_true. tauto.
Qed.

Lemma dispatch_wf E F rmax R et payload db db' n :
  0 < threshold → fresh_hooks E db → wf db → dispatch_event E F rmax threshold R et payload db = Ok (db', n) → wf db'.
Proof.
  intros Hthr (Hinj & _ & Hf) Hwf H. unfold dispatch_event in H. apply res_bind_ok in H as (db1 & Hfan & [= <- _]).
  eapply fan_out_wf; [done|done| |done| | |exact Hfan].
  - auto.
  - apply NoDup_map_filterb, Hwf.
  - intros s Hs%matching_elem. tauto.
Qed.

Lemma event_types_ok_spec l : event_types_ok l = true → types_ok (dedup l).
Proof.
  unfold event_types_ok. rewrite andb_true_iff, forallb_forall. intros [Hl Hall]. split_and!.
  - destruct l as [|x l]; [done|]. cbn. done.
  - apply NoDup_dedup.
  - intros x Hx. rewrite elem_of_dedup, list_elem_of_In in Hx. apply Hall in Hx. by apply bool_decide_eq_true in Hx.
Qed.
End preservation.

Lemma filter_implied {A} (p q : A → bool) l :
  (∀ x, p x = true → q x = true) → List.filter p (List.filter q l) = List.filter p l.
Proof.
  intros Hpq. induction l as [|x l IH]; [done|]. cbn. specialize (Hpq x).
  destruct (p x) eqn:Hp, (q x) eqn:Hq; cbn; rewrite ?Hp, ?IH; try done. by discriminate Hpq.
Qed.

Section steps.
Context (F : fernet) (rmax threshold : Z).
Hypothesis Hthr : 0 < threshold.
Notation wf := (hook_wf threshold).

Lemma create_wf E secret name url types enabled actor db db' r :
  fresh_hooks E db → wf db → create_subscription E F secret name url types enabled actor db = Ok (db', r) → wf db'.
Proof.
  intros (_ & Hfs & _) [Hi Hn Ht Hr Hd Hc] H. unfold create_subscription in H.
  destruct (negb (is_admin actor)); [done|]. destruct (negb (_ && _)) eqn:Hok; [done|].
  destruct (existsb _ _) eqn:Hex; [done|]. injection H as <- _.
  apply negb_false_iff, andb_true_iff in Hok as [_ Hok%event_types_ok_spec].
  assert (name ∉ map ws_name (hk_subscriptions db)) as Hname.
  { intros (s & -> & Hs%list_elem_of_In)%list_elem_of_fmap. apply not_true_iff_false in Hex. apply Hex, existsb_exists.
    exists s. by rewrite String.eqb_refl. }
  split; cbn [hook_audited set_subscriptions hk_subscriptions hk_deliveries]; rewrite ?map_app; cbn [map ws_id ws_name].
  - apply NoDup_app. split_and!; [done| |apply NoDup_singleton]. intros x Hx ->%list_elem_of_singleton. by apply (Hfs _ Hx).
  - apply NoDup_app. split_and!; [done| |apply NoDup_singleton]. by intros x Hx ->%list_elem_of_singleton.
  - intros s [Hs| ->%list_elem_of_singleton]%elem_of_app; [auto|done].
  - intros d Hd'. apply elem_of_app. left. auto.
  - done.
  - intros s [Hs| ->%list_elem_of_singleton]%elem_of_app; [auto|]. cbn [ws_failure_count ws_id].
    split; [|done]. split; [done|apply failure_streak_nonneg].
Qed.

Lemma update_wf E id name url types enabled actor db db' r :
  wf db → update_subscription E id name url types enabled actor db = Ok (db', r) → wf db'.
Proof.
  intros Hwf H. unfold update_subscription in H. destruct (negb (is_admin actor)); [done|].
  destruct (negb (_ && _)) eqn:Hok; [done|]. apply negb_false_iff, andb_true_iff in Hok as [_ Hok].
  apply res_bind_ok in H as (sub & [Hin Hid]%find_subscription_ok & H). cbv zeta in H.
  destruct (_ && existsb _ _) eqn:Hex; [done|]. injection H as <- _.
  destruct (hw_counts _ _ Hwf sub Hin) as [Hfc Hen]. pose proof (failure_streak_nonneg (outcomes (ws_id sub) (hk_deliveries db))).
  apply audited_wf. apply (put_wf _ db sub); cbn [ws_id ws_name ws_event_types ws_failure_count ws_enabled]; try done.
  - destruct types as [l|]; [by apply event_types_ok_spec|by apply (hw_types _ _ Hwf)].
  - destruct name as [n|]; [|by left]. cbn [default]. destruct (String.eqb_spec n (ws_name sub)) as [|Hne]; [by left|right].
    intros y Hy%list_elem_of_In Hny. cbn [negb andb default] in Hex. apply not_true_iff_false in Hex.
    destruct (Z.eqb_spec (ws_id y) id); [congruence|]. destruct Hex. apply existsb_exists. exists y. split; [done|].
    rewrite andb_true_iff, negb_true_iff. split; [by apply String.eqb_eq|by apply Z.eqb_neq].
  - destruct (bool_decide (enabled = Some true) && _); lia.
  - destruct enabled as [[]|]; cbn [default]; [|done|].
    + rewrite bool_decide_true by done. destruct (ws_enabled sub); cbn [negb andb]; auto.
    + rewrite bool_decide_false by done. auto.
Qed.

Lemma delete_wf E id actor db db' : wf db → delete_subscription E id actor db = Ok db' → wf db'.
Proof.
  intros [Hi Hn Ht Hr Hd Hc] H. unfold delete_subscription in H. destruct (negb (is_admin actor)); [done|].
  apply res_bind_ok in H as (sub & _ & H). injection H as <-.
  split; cbn [hook_audited hk_subscriptions hk_deliveries]; try by apply NoDup_map_filterb.
  - intros s [Hs _]%elem_of_filterb. auto.
  - intros d [Hdd Hne]%elem_of_filterb. destruct (proj1 (list_elem_of_fmap _ _ _) (Hr d Hdd)) as (s & He & Hs).
    rewrite He. apply list_elem_of_fmap_2. apply elem_of_filterb. by rewrite <-He.
  - intros s [Hs Hne]%elem_of_filterb. apply negb_true_iff, Z.eqb_neq in Hne.
    assert (outcomes (ws_id s) (List.filter (λ d, negb (wd_subscription_id d =? id)) (hk_deliveries db)) =
            outcomes (ws_id s) (hk_deliveries db)) as ->; [|auto].
    unfold outcomes. f_equal. apply filter_implied. intros d ->%Z.eqb_eq. by apply negb_true_iff, Z.eqb_neq.
Qed.

Lemma rotate_wf E secret id actor db db' r : wf db → rotate_secret E F secret id actor db = Ok (db', r) → wf db'.
Proof.
  intros Hwf H. unfold rotate_secret in H. destruct (negb (is_admin actor)); [done|].
  apply res_bind_ok in H as (sub & [Hin Hid]%find_subscription_ok & H). injection H as <- _.
  apply audited_wf. destruct (hw_counts _ _ Hwf sub Hin).
  apply (put_wf _ db sub); try done; [exact (hw_types _ _ Hwf sub Hin)|by left].
Qed.

Lemma test_wf E R id et actor db db' d :
  fresh_hooks E db → wf db → test_subscription E F rmax threshold R id et actor db = Ok (db', d) → wf db'.
Proof.
  intros (_ & _ & Hf) Hwf H. unfold test_subscription in H. destruct (negb (is_admin actor)); [done|].
  destruct (negb (bool_decide _)); [done|]. apply res_bind_ok in H as (sub & [Hin Hid]%find_subscription_ok & H).
  destruct (negb (bool_decide _)); [done|]. apply res_bind_ok in H as ([sub' d'] & Hdel & H). injection H as <- _.
  apply audited_wf. by refine (record_wf _ _ _ _ _ _ sub _ _ _ _ _ Hthr Hwf Hin (Hf _) Hdel).
Qed.

Lemma step_wf db db' : hook_step F rmax threshold db db' → wf db → wf db'.
Proof.
  intros [] Hwf; eauto using create_wf, update_wf, delete_wf, test_wf, rotate_wf, dispatch_wf.
  by eapply wf_tables; [..|exact Hwf].
Qed.
End steps.

Lemma webhook_reachable_wf F rmax threshold t db :
  0 < threshold → rtc (hook_step F rmax threshold) (mkHookDb t [] []) db → hook_wf threshold db.
Proof.
  intros Hthr Hrun. assert (hook_wf threshold (mkHookDb t [] [])) as H0.
  { split; cbn; try apply NoDup_nil_2; intros x Hx; by apply not_elem_of_nil in Hx. }
  revert H0. induction Hrun; eauto using step_wf.
Qed.

(** Whatever the routes and the worker do, ids and names stay distinct, every
    subscription has known event types without repetition, every delivery belongs
    to a subscription, a failure counter never exceeds the failures that end the
    subscription's deliveries, and an enabled subscription is below the threshold. *)
Theorem webhook_tables_well_formed F rmax threshold t db :
  0 < threshold → rtc (hook_step F rmax threshold) (mkHookDb t [] []) db → hook_wf threshold db.
Proof. apply webhook_reachable_wf. Qed.

(** ** The worker *)

Lemma fan_out_spec E F rmax threshold R et payload subs db db' :
  fan_out E F rmax threshold R et payload subs db = Ok db' → NoDup (map ws_id subs) →
  (∀ s, s ∈ subs → s ∈ hk_subscriptions db) →
  ∃ ds, hk_deliveries db' = hk_deliveries db ++ ds ∧ map wd_subscription_id ds = map ws_id subs ∧
    hk_triage db' = hk_triage db ∧ map ws_id (hk_subscriptions db') = map ws_id (hk_subscriptions db) ∧
    (∀ d, d ∈ ds → ∃ s s', s ∈ subs ∧ s' ∈ hk_subscriptions db' ∧
       deliver E F rmax threshold (R (ws_id s)) (wd_id d) s et payload = Ok (s', d)) ∧
    ∀ x, x ∈ hk_subscriptions db → ws_id x ∉ map ws_id subs → x ∈ hk_subscriptions db'.
Proof.
  revert db. induction subs as [|sub subs IH]; intros db H Hnd Hin; cbn [fan_out] in H.
  { injection H as <-. exists []. rewrite app_nil_r. split_and!; try done. intros d Hd. by apply not_elem_of_nil in Hd. }
  apply res_bind_ok in H as ([sub' d] & Hdel & H). cbn [map] in Hnd. apply NoDup_cons in Hnd as [Hni Hnd].
  pose proof Hdel as (Hid & Href & _ & Hs')%deliver_ok. assert (ws_id sub' = ws_id sub) as Hss by by rewrite Hs'.
  assert (∀ x, x ∈ hk_subscriptions db → ws_id x ≠ ws_id sub → x ∈ hk_subscriptions (record_delivery sub' d db)) as Hkeep.
  { intros x Hx Hne. apply put_other; [done|by rewrite Hss]. }
  apply IH in H as (ds & Hds & Hrefs & Ht & Hids & Hall & Hrest); [|done|].
  - exists (d :: ds). rewrite Hds, Ht, Hids. cbn [record_delivery hk_deliveries hk_triage hk_subscriptions map].
    rewrite <-app_assoc, put_ids, Href, Hrefs. split_and!; try done.
    + intros d' [->|Hd']%elem_of_cons.
      * exists sub, sub'. split_and!; [set_solver| |by rewrite Hid]. apply Hrest; [|by rewrite Hss].
        cbn [record_delivery hk_subscriptions]. by apply (put_subscription_elem _ sub); [apply Hin; set_solver|].
      * destruct (Hall d' Hd') as (s & s' & Hs & ?). exists s, s'. split; [set_solver|done].
    + intros x Hx Hnx. apply Hrest; [apply Hkeep; set_solver|set_solver].
  - intros s Hs. apply Hkeep; [apply Hin; set_solver|]. intros He. apply Hni. rewrite <-He. by apply list_elem_of_fmap_2.
Qed.

Lemma dispatch_spec E F rmax threshold R et payload db db' n :
  hook_wf threshold db → dispatch_event E F rmax threshold R et payload db = Ok (db', n) →
  n = length (matching_subscriptions et db) ∧
  fan_out E F rmax threshold R et payload (matching_subscriptions et db) db = Ok db' ∧
  NoDup (map ws_id (matching_subscriptions et db)) ∧
  ∀ s, s ∈ matching_subscriptions et db → s ∈ hk_subscriptions db.
Proof.
  intros Hwf H. unfold dispatch_event in H. apply res_bind_ok in H as (db1 & Hf & [= <- <-]). split_and!; try done.
  - apply NoDup_map_filterb, Hwf.
  - intros s Hs%matching_elem. tauto.
Qed.


(** The worker switches a subscription off only after [threshold] failures in
    a row, the last of its deliveries, in whatever way the tables were reached. *)
Theorem disabled_after_consecutive_failures F rmax threshold t db E R event_type payload db' n s s' :
  0 < threshold → rtc (hook_step F rmax threshold) (mkHookDb t [] []) db → fresh_hooks E db →
  dispatch_event E F rmax threshold R event_type payload db = Ok (db', n) →
  s ∈ hk_subscriptions db → s' ∈ hk_subscriptions db' → ws_id s' = ws_id s → ws_enabled s = true →
  ws_enabled s' = false →
  ∃ before, outcomes (ws_id s) (hk_deliveries db') = before ++ replicate (Z.to_nat threshold) W_FAILED.
Proof.
  intros Hthr Hrun Hfresh H Hs Hs' Hid Hen Hdis. apply webhook_reachable_wf in Hrun as Hwf; [|done].
  pose proof (dispatch_wf _ _ _ _ _ _ _ _ _ _ Hthr Hfresh Hwf H) as Hwf'.
  destruct (dispatch_spec _ _ _ _ _ _ _ _ _ _ Hwf H) as (_ & Hf & Hnd & Hin).
  destruct (fan_out_spec _ _ _ _ _ _ _ _ _ _ Hf Hnd Hin) as (ds & _ & Hrefs & _ & _ & Hall & Hrest).
  apply failure_streak_split. rewrite Z2Nat.id by lia.
  destruct (hw_counts _ _ Hwf' s' Hs') as [[_ Hle] _]. rewrite Hid in Hle. etrans; [|exact Hle].
  destruct (decide (ws_id s ∈ map ws_id (matching_subscriptions event_type db))) as [Hm|Hm].
  - rewrite <-Hrefs in Hm. apply list_elem_of_fmap in Hm as (d & He & Hd).
    destruct (Hall d Hd) as (s0 & s1 & Hs0 & Hs1 & Hdel). apply deliver_ok in Hdel as (_ & Href & _ & Hc).
    assert (ws_id s1 = ws_id s0) as H10 by by rewrite Hc.
    rewrite (NoDup_key_inj ws_id _ s' s1 (hw_ids _ _ Hwf') Hs' Hs1) in * by congruence.
    rewrite (NoDup_key_inj ws_id _ s0 s (hw_ids _ _ Hwf) (Hin _ Hs0) Hs) in * by congruence.
    rewrite Hc in Hdis |- *. cbn in Hdis |- *. rewrite Hen in Hdis.
    destruct (bool_decide _); [done|]. cbn [negb andb] in Hdis. destruct (Z.leb_spec threshold (ws_failure_count s + 1)); [done|done].
  - rewrite (NoDup_key_inj ws_id _ s' s (hw_ids _ _ Hwf') Hs' (Hrest s Hs Hm) Hid) in Hdis. congruence.
Qed.

(** ** From the topic to the receivers *)

Lemma json_loads_enc v : plain v → json_loads (json_enc "," ":" v) = Ok v.
Proof.
  intros Hp. unfold json_loads, scan_fuel. rewrite <-(append_nil_r (json_enc "," ":" v)).
  rewrite enc_skip by apply Hp. rewrite enc_reads_back by (done || lia). done.
Qed.

Lemma event_message_reads et payload :
  plain (PDict payload) →
  utf8_decode (event_message et payload) ≫= json_loads =
  Ok (PDict [("event_type", PStr et); ("payload", PDict payload)]).
Proof.
  intros [Hf Hk]. unfold event_message. rewrite utf8_decode_utf8. cbn [mbind res_bind]. apply json_loads_enc.
  split; [cbn in Hf |- *; by rewrite Hf|cbn in Hk |- *; by rewrite Hk].
Qed.

Lemma consume_message E F rmax threshold R pos et payload db c :
  plain (PDict payload) →
  consume_webhook E F rmax threshold R pos (Some (event_message et payload)) (db, c) =
  match dispatch_event E F rmax threshold R et payload db with Ok (db', _) => Ok (db', S pos) | Err _ => Ok (db, c) end.
Proof. intros Hp. unfold consume_webhook. by rewrite event_message_reads. Qed.

Lemma state_change_event_plain a to_state comment : plain (PDict (state_change_event a to_state comment)).
Proof. unfold state_change_event, opt_pyuuid. by destruct (al_host_id a), comment. Qed.

(** A state change reaches the subscribers: the event that the route publishes
    names the alert and its new state, and the worker reads back from the message
    exactly that event and dispatches it. *)
Theorem state_change_reaches_subscribers E F T B aid to_state comment actor t t' det subs dels :
  change_state E F T B aid to_state comment actor t = Ok (t', det) →
  bus_enabled B = true → (∀ event_type payload, bus_accepts B event_type payload = true) →
  ∃ payload, tg_events t' = tg_events t ++ [("alert.state_changed", payload)] ∧
    dict_get "alert_id" payload = Some (PStr (uuid_str aid)) ∧
    dict_get "to_state" payload = Some (PStr (AlertState_value to_state)) ∧
    ∀ E' rmax threshold R pos committed,
      consume_webhook E' F rmax threshold R pos (Some (event_message "alert.state_changed" payload))
        (mkHookDb t' subs dels, committed) =
      match dispatch_event E' F rmax threshold R "alert.state_changed" payload (mkHookDb t' subs dels) with
      | Ok (db, _) => Ok (db, S pos)
      | Err _ => Ok (mkHookDb t' subs dels, committed)
      end.
Proof.
  intros H HB Hacc. unfold change_state in H. apply res_bind_ok in H as (_ & _ & H).
  apply res_bind_ok in H as ([[a hn] rn] & Hv & H). destruct (negb (bool_decide _)); [done|]. cbv zeta in H.
  injection H as <- _. exists (state_change_event a to_state comment). split_and!.
  - unfold publish_event. by rewrite HB, Hacc.
  - apply visible_alert_ok in Hv as (_ & Hid & _). cbn. by rewrite Hid.
  - done.
  - intros. apply consume_message, state_change_event_plain.
Qed.

Lemma fan_out_unreadable E F rmax threshold R et payload subs bad db :
  bad ∈ subs → fernet_decrypt F (ws_secret_encrypted bad) = None →
  ∃ e, fan_out E F rmax threshold R et payload subs db = Err e.
Proof.
  intros Hin Hbad. revert db. induction subs as [|s subs IH]; intros db; [by apply not_elem_of_nil in Hin|].
  cbn [fan_out]. apply elem_of_cons in Hin as [<-|Hin].
  - unfold deliver, decrypt_secret. rewrite Hbad. by eexists.
  - destruct (deliver _ _ _ _ _ _ _ _ _) as [[s' d]|e]; [by apply IH|by eexists].
Qed.

(** One subscription whose secret cannot be decrypted loses the event for
    every subscriber: no delivery row is kept, and the next event that goes
    through commits the offset past the lost one. *)
Theorem unreadable_secret_loses_event E F rmax threshold R pos committed db bad lost payload next payload' db' n :
  bad ∈ matching_subscriptions lost db → fernet_decrypt F (ws_secret_encrypted bad) = None →
  plain (PDict payload) → plain (PDict payload') →
  dispatch_event E F rmax threshold (R (S pos)) next payload' db = Ok (db', n) →
  consume_webhooks E F rmax threshold R pos
    [Some (event_message lost payload); Some (event_message next payload')] (db, committed) = Ok (db', S (S pos)).
Proof.
  intros Hbad Hdec Hp Hp' Hnext. cbn [consume_webhooks]. rewrite consume_message by done. unfold dispatch_event at 1.
  destruct (fan_out_unreadable E F rmax threshold (R pos) lost payload _ _ db Hbad Hdec) as [e ->].
  cbn [mbind res_bind]. rewrite consume_message by done. by rewrite Hnext.
Qed.

(** ** Examples *)

Definition demo_later : env := mkEnv (λ n, 1000 + Z.of_nat n) (env_now demo_env) (env_audit_key demo_env).
Definition demo_hooks0 : hook_db := mkHookDb demo_tg1 [] [].
Definition demo_hook_created : hook_db * (WebhookSubscription * str) := Eval vm_compute in
  match create_subscription demo_env demo_fernet "s3cret" "soar" "https://soar.example/" ["alert.state_changed"; "alert.state_changed"]
          true (demo_admin 1) demo_hooks0 with Ok r => r | Err _ => (demo_hooks0, (mkSubscription 0 "" "" "" [] false 0 None None 0, "")) end.
Definition demo_hooks1 : hook_db := demo_hook_created.1.
Definition demo_sub : WebhookSubscription := demo_hook_created.2.1.
Definition demo_deaf : uuid → receiver := λ _ _ _, HTTPError "ConnectTimeout: ".
Definition demo_dispatched : hook_db * nat := Eval vm_compute in
  match dispatch_event demo_later demo_fernet 2 1 demo_deaf "alert.state_changed" [] demo_hooks1 with
  | Ok r => r | Err _ => (demo_hooks1, O) end.
Definition demo_sub_off : WebhookSubscription := Eval vm_compute in default demo_sub (hk_subscriptions demo_dispatched.1 !! 0%nat).

Lemma demo_hook_created_eq :
  create_subscription demo_env demo_fernet "s3cret" "soar" "https://soar.example/" ["alert.state_changed"; "alert.state_changed"]
    true (demo_admin 1) demo_hooks0 = Ok (demo_hooks1, (demo_sub, "s3cret")).
Proof. vm_compute. reflexivity. Qed.
Lemma demo_dispatched_eq :
  dispatch_event demo_later demo_fernet 2 1 demo_deaf "alert.state_changed" [] demo_hooks1 = Ok demo_dispatched.
Proof. vm_compute. reflexivity. Qed.
Lemma demo_hooks0_fresh : fresh_hooks demo_env demo_hooks0.
Proof. split_and!; [intros n m Hnm; cbn in Hnm; lia|intros n; apply not_elem_of_nil..]. Qed.
Lemma demo_hooks1_fresh : fresh_hooks demo_later demo_hooks1.
Proof.
  split_and!; [intros n m Hnm; cbn in Hnm; lia| |intros n; apply not_elem_of_nil].
  intros n Hn. apply list_elem_of_singleton in Hn. cbn in Hn. lia.
Qed.
Lemma demo_hooks_run : rtc (hook_step demo_fernet 2 1) (mkHookDb demo_tg1 [] []) demo_hooks1.
Proof. apply rtc_once. eapply HS_create; [apply demo_hooks0_fresh|apply demo_hook_created_eq]. Qed.

Lemma deliveries_verify_witness : demo_sub ∈ hk_subscriptions demo_hooks1.
Proof.
  refine (proj1 (deliveries_verify demo_env demo_fernet (demo_admin 1) demo_hooks0 demo_hooks1 demo_sub "s3cret" _ _)).
  - left. do 5 eexists. apply demo_hook_created_eq.
  - done.
Defined.

Lemma webhook_tables_well_formed_witness : hook_wf 1 demo_hooks1.
Proof. apply (webhook_tables_well_formed demo_fernet 2 1 demo_tg1); [lia|apply demo_hooks_run]. Defined.


Lemma disabled_after_consecutive_failures_witness :
  ∃ before, outcomes (ws_id demo_sub) (hk_deliveries demo_dispatched.1) = before ++ replicate 1 W_FAILED.
Proof.
  apply (disabled_after_consecutive_failures demo_fernet 2 1 demo_tg1 demo_hooks1 demo_later demo_deaf "alert.state_changed" []
           demo_dispatched.1 1 demo_sub demo_sub_off).
  - lia.
  - apply demo_hooks_run.
  - apply demo_hooks1_fresh.
  - apply demo_dispatched_eq.
  - by left.
  - by left.
  - reflexivity.
  - reflexivity.
  - reflexivity.
Defined.

Lemma state_change_reaches_subscribers_witness :
  ∃ payload, tg_events demo_closed.1 = tg_events demo_tg1 ++ [("alert.state_changed", payload)].
Proof.
  destruct (state_change_reaches_subscribers demo_env demo_fernet demo_down demo_bus 0 FALSE_POSITIVE (Some "benign") (demo_admin 1) demo_tg1
              demo_closed.1 demo_closed.2 [demo_sub] []) as (payload & H & _).
  - apply demo_closed_eq.
  - reflexivity.
  - done.
  - exists payload. exact H.
Defined.

(** A subscription stored under a key that is gone. *)
Definition demo_lost_key : fernet := mkFernet (fernet_encrypt demo_fernet) (λ _, None).

Lemma unreadable_secret_loses_event_witness :
  consume_webhooks demo_later demo_lost_key 2 1 (λ _, demo_deaf) 0
    [Some (event_message "alert.state_changed" []); Some (event_message "job.failed" [])] (demo_hooks1, O) = Ok (demo_hooks1, 2%nat).
Proof.
  apply (unreadable_secret_loses_event demo_later demo_lost_key 2 1 (λ _, demo_deaf) 0 0 demo_hooks1 demo_sub
           "alert.state_changed" [] "job.failed" [] demo_hooks1 0).
  - by left.
  - reflexivity.
  - split; reflexivity.
  - split; reflexivity.
  - vm_compute. reflexivity.
Defined.

Lemma delivery_outcome_witness :
  ∃ sub' d, deliver demo_later demo_fernet 2 1 (demo_deaf 0) 7 demo_sub "alert.state_changed" [] = Ok (sub', d) ∧ wd_attempts d <= 3.
Proof.
  destruct (delivery_outcome demo_later demo_fernet 2 1 (demo_deaf 0) 7 demo_sub "alert.state_changed" [] "s3cret")
    as (sub' & d & j & q & H & Ha & Hle & _).
  - vm_compute. reflexivity.
  - done.
  - exists sub', d. split; [exact H|]. rewrite Ha. exact Hle.
Defined.
