(* ===== verification/Accounts.v ===== *)
(** * Accounts: users, tenants and their tokens

    models/user.py, models/api_token.py, models/scim_token.py, models/tenant.py,
    api/users.py, api/api_tokens.py, api/scim_tokens.py, api/tenants.py and the token
    formats of core/security.py.  The password hasher is an argument, as are the
    random secrets.  Rows of other tables that name a user or a tenant are outside
    the state: the ones that restrict the deletion of a tenant are an argument of
    that route. *)

From Stdlib Require Import Ascii String.
From S2P Require Import Prelude PyStr PyVal PyTime Crypto PyText Models AuditChain Rollout Scoping Jobs Fleet.
Local Open Scope string_scope.
Local Open Scope list_scope.
Local Open Scope Z_scope.

(** ** Tables *)

Record User := mkUser {
  u_id : uuid;
  u_tenant_id : uuid;
  u_email : str;
  u_password_hash : str;
  u_role : UserRole;
  u_last_login_at : option datetime;
  u_disabled : bool;
  u_is_super_admin : bool;
  u_totp_enabled : bool;
  u_totp_secret_encrypted : option bytes;
  u_totp_pending_secret_encrypted : option bytes;
  u_totp_recovery_codes_hashed : option (list str);
  u_oidc_subject : option str;
  u_oidc_issuer : option str;
  u_oidc_email : option str;
  u_scim_external_id : option str;
  u_created_at : datetime
}.

Record ApiToken := mkApiToken {
  at_id : uuid;
  at_tenant_id : uuid;
  at_user_id : uuid;
  at_name : str;
  at_secret_hash : str;
  at_scopes : list str;
  at_last_used_at : option datetime;
  at_revoked_at : option datetime;
  at_expires_at : option datetime;
  at_created_at : datetime
}.

Record ScimToken := mkScimToken {
  st_id : uuid;
  st_tenant_id : uuid;
  st_label : str;
  st_token_hash : str;
  st_created_at : datetime;
  st_last_used_at : option datetime;
  st_disabled : bool
}.

Record Tenant := mkTenant {
  tn_id : uuid;
  tn_slug : str;
  tn_name : str;
  tn_disabled : bool
}.

Record acct_db := mkAcct {
  ac_scope : scope_db;
  ac_groups : list HostGroup;
  ac_users : list User;
  ac_api_tokens : list ApiToken;
  ac_scim_tokens : list ScimToken;
  ac_tenants : list Tenant;
  ac_audit : audit_db
}.

Definition set_ac_scope (s : scope_db) (db : acct_db) : acct_db :=
  mkAcct s (ac_groups db) (ac_users db) (ac_api_tokens db) (ac_scim_tokens db) (ac_tenants db) (ac_audit db).
Definition set_users (l : list User) (db : acct_db) : acct_db :=
  mkAcct (ac_scope db) (ac_groups db) l (ac_api_tokens db) (ac_scim_tokens db) (ac_tenants db) (ac_audit db).
Definition set_api_tokens (l : list ApiToken) (db : acct_db) : acct_db :=
  mkAcct (ac_scope db) (ac_groups db) (ac_users db) l (ac_scim_tokens db) (ac_tenants db) (ac_audit db).
Definition set_scim_tokens (l : list ScimToken) (db : acct_db) : acct_db :=
  mkAcct (ac_scope db) (ac_groups db) (ac_users db) (ac_api_tokens db) l (ac_tenants db) (ac_audit db).
Definition set_tenants (l : list Tenant) (db : acct_db) : acct_db :=
  mkAcct (ac_scope db) (ac_groups db) (ac_users db) (ac_api_tokens db) (ac_scim_tokens db) l (ac_audit db).
Definition set_ac_audit (a : audit_db) (db : acct_db) : acct_db :=
  mkAcct (ac_scope db) (ac_groups db) (ac_users db) (ac_api_tokens db) (ac_scim_tokens db) (ac_tenants db) a.

Definition find_user (id : uuid) (db : acct_db) : option User := List.find (λ u, u_id u =? id) (ac_users db).
Definition user_by_email (email : str) (db : acct_db) : option User :=
  List.find (λ u, String.eqb (u_email u) email) (ac_users db).
Definition put_user (u : User) (db : acct_db) : acct_db :=
  set_users (map (λ x, if u_id x =? u_id u then u else x) (ac_users db)) db.

(** Assignments to the columns of a user. *)
Definition with_login (hash : str) (at_ : datetime) (u : User) : User :=
  mkUser (u_id u) (u_tenant_id u) (u_email u) hash (u_role u) (Some at_) (u_disabled u) (u_is_super_admin u)
    (u_totp_enabled u) (u_totp_secret_encrypted u) (u_totp_pending_secret_encrypted u) (u_totp_recovery_codes_hashed u)
    (u_oidc_subject u) (u_oidc_issuer u) (u_oidc_email u) (u_scim_external_id u) (u_created_at u).
Definition with_access (role : UserRole) (disabled : bool) (hash : str) (u : User) : User :=
  mkUser (u_id u) (u_tenant_id u) (u_email u) hash role (u_last_login_at u) disabled (u_is_super_admin u)
    (u_totp_enabled u) (u_totp_secret_encrypted u) (u_totp_pending_secret_encrypted u) (u_totp_recovery_codes_hashed u)
    (u_oidc_subject u) (u_oidc_issuer u) (u_oidc_email u) (u_scim_external_id u) (u_created_at u).
Definition with_totp (enabled : bool) (secret pending : option bytes) (codes : option (list str)) (u : User) : User :=
  mkUser (u_id u) (u_tenant_id u) (u_email u) (u_password_hash u) (u_role u) (u_last_login_at u) (u_disabled u)
    (u_is_super_admin u) enabled secret pending codes
    (u_oidc_subject u) (u_oidc_issuer u) (u_oidc_email u) (u_scim_external_id u) (u_created_at u).
Definition with_oidc (subject issuer email : option str) (u : User) : User :=
  mkUser (u_id u) (u_tenant_id u) (u_email u) (u_password_hash u) (u_role u) (u_last_login_at u) (u_disabled u)
    (u_is_super_admin u) (u_totp_enabled u) (u_totp_secret_encrypted u) (u_totp_pending_secret_encrypted u)
    (u_totp_recovery_codes_hashed u) subject issuer email (u_scim_external_id u) (u_created_at u).
Definition with_scim (email : str) (role : UserRole) (disabled : bool) (external : option str) (u : User) : User :=
  mkUser (u_id u) (u_tenant_id u) email (u_password_hash u) role (u_last_login_at u) disabled
    (u_is_super_admin u) (u_totp_enabled u) (u_totp_secret_encrypted u) (u_totp_pending_secret_encrypted u)
    (u_totp_recovery_codes_hashed u) (u_oidc_subject u) (u_oidc_issuer u) (u_oidc_email u) external (u_created_at u).

(** What PostgreSQL checks when the rows are written: the lengths of the columns and
    the unique indexes on the address, the OIDC subject and the SCIM identity, and the
    reference to the tenant. *)
Definition opt_max (n : nat) (o : option str) : bool := opt_ok (λ s, (String.length s <=? n)%nat) o.
Definition user_fits (u : User) : bool :=
  (String.length (u_email u) <=? 255)%nat && opt_max 256 (u_oidc_subject u) && opt_max 512 (u_oidc_issuer u) &&
  opt_max 256 (u_oidc_email u).
Definition subjects (l : list User) : list str := omap u_oidc_subject l.
(** Rows without an issuer are distinct for the index. *)
Definition scim_identity (u : User) : option (str * str) :=
  match u_oidc_issuer u, u_scim_external_id u with Some i, Some e => Some (i, e) | _, _ => None end.
Definition users_unique (l : list User) : bool :=
  bool_decide (NoDup (map u_email l)) && bool_decide (NoDup (subjects l)) && bool_decide (NoDup (omap scim_identity l)).
Definition flush_users (db : acct_db) : py acct_db :=
  if negb (forallb user_fits (ac_users db)) then Err DataError
  else if negb (users_unique (ac_users db) && forallb (λ u, existsb (λ t, tn_id t =? u_tenant_id u) (ac_tenants db)) (ac_users db))
  then Err IntegrityError
  else Ok db.

Definition tenant_exists (id : uuid) (db : acct_db) : bool := existsb (λ t, tn_id t =? id) (ac_tenants db).

(** [audit.record(…)].  The row refers to a tenant: that of a row just read or
    written, the default one, which is seeded and never deleted, or the one a super
    administrator's cookie names, which the routes it can reach check. *)
Definition acct_audited (E : env) (actor : option Actor) (action rtype : str) (rid : option str) (payload : option dict)
    (ip : option str) (tenant : option uuid) (db : acct_db) : acct_db :=
  set_ac_audit (record (env_audit_key E) actor action (Some rtype) rid payload ip tenant (env_now E)
                  (env_uuid4 E (length (log (ac_audit db)))) (ac_audit db)) db.

(** ** Passwords and tokens (core/security.py) *)

(** argon2: [verify] is [Ok false] for a VerifyMismatchError, and raises another
    exception when the stored text is no hash.  Hashes fit their column. *)
Record hasher := mkHasher {
  argon2_hash : str → str;
  argon2_verify : str → str → py bool;
  argon2_needs_rehash : str → py bool
}.
Definition hash_password (H : hasher) (plaintext : str) : str := argon2_hash H plaintext.
Definition verify_password (H : hasher) (plaintext hashed : str) : py bool := argon2_verify H hashed plaintext.

Definition API_TOKEN_PREFIX : str := "edr_".
Definition hash_api_token_secret (secret : str) : str := hexdigest (sha256 (utf8 secret)).
Definition format_api_token (token_id : uuid) (secret : str) : str :=
  API_TOKEN_PREFIX +:+ uuid_hex token_id +:+ "_" +:+ secret.
Definition parse_api_token (token : str) : option (uuid * str) :=
  if negb (starts_with API_TOKEN_PREFIX token) then None
  else
    '(a, b) ← split_first "_" (drop_str 4 token);
    id ← uuid_of_str a;
    Some (id, b).

(** ** Users (api/users.py) *)

(** [pattern=r".+@.+"], searched for anywhere. *)
Definition dot_char (c : ascii) : bool := negb (Ascii.eqb c newline).
Fixpoint email_pattern_go (before : bool) (s : str) : bool :=
  match s with
  | "" => false
  | String c s' =>
      (Ascii.eqb c "@" && before && match s' with String d _ => dot_char d | "" => false end) ||
      email_pattern_go (dot_char c) s'
  end.
Definition email_ok (s : str) : bool := text_ok 3 255 s && email_pattern_go false s.

Definition UserRole_value (r : UserRole) : str :=
  match r with ADMIN => "admin" | ANALYST => "analyst" | VIEWER => "viewer" end.

Definition enabled_admin (tenant : uuid) (u : User) : bool :=
  bool_decide (u_role u = ADMIN) && negb (u_disabled u) && (u_tenant_id u =? tenant).
Definition enabled_admin_count (tenant : uuid) (exclude : option uuid) (db : acct_db) : Z :=
  Z.of_nat (length (List.filter (λ u, enabled_admin tenant u && negb (bool_decide (Some (u_id u) = exclude))) (ac_users db))).

Definition user_in_tenant (user_id : uuid) (actor : Actor) (db : acct_db) : py User :=
  match find_user user_id db with
  | Some u => if u_tenant_id u =? actor_tenant_id actor then Ok u else Err (HTTPException 404)
  | None => Err (HTTPException 404)
  end.

(** Deleting a user: the tokens and the group assignments go with it, and the audit
    rows lose their references. *)
Definition forget_user (user_id : uuid) (tokens : list uuid) (r : AuditLog) : AuditLog :=
  mkRow (row_id r) (seq r) (ts r) (tenant_id r)
    (if bool_decide (AuditChain.user_id r = Some user_id) then None else AuditChain.user_id r)
    (match api_token_id r with Some t => if bool_decide (t ∈ tokens) then None else Some t | None => None end)
    (actor_kind r) (action r) (resource_type r) (resource_id r) (payload r) (ip r) (prev_hmac r) (row_hmac r).
Definition cascade_user (user_id : uuid) (db : acct_db) : acct_db :=
  let s := ac_scope db in
  let gone := map at_id (List.filter (λ t, at_user_id t =? user_id) (ac_api_tokens db)) in
  mkAcct (mkScopeDb (sc_hosts s) (sc_host_in_group s) (List.filter (λ p, negb (p.1 =? user_id)) (sc_user_host_group s)))
    (ac_groups db) (List.filter (λ u, negb (u_id u =? user_id)) (ac_users db))
    (List.filter (λ t, negb (at_user_id t =? user_id)) (ac_api_tokens db)) (ac_scim_tokens db) (ac_tenants db)
    (mkDb (map (forget_user user_id gone) (log (ac_audit db))) (next_seq (ac_audit db))).

Section routes.
Context (E : env).

Definition new_user_id (db : acct_db) : uuid := env_uuid4 E (length (ac_users db)).

Definition list_users (actor : Actor) (db : acct_db) : py (list User) :=
  if negb (is_admin actor) then Err (HTTPException 403)
  else Ok (sort_by (λ u, - u_created_at u) (List.filter (λ u, u_tenant_id u =? actor_tenant_id actor) (ac_users db))).

Definition create_user (H : hasher) (email password : str) (role : UserRole) (actor : Actor) (db : acct_db) :
    py (acct_db * User) :=
  if negb (is_admin actor) then Err (HTTPException 403)
  else if negb (email_ok email && text_ok 12 256 password) then Err (HTTPException 422)
  else
    let email := lower email in
    match user_by_email email db with
    | Some _ => Err (HTTPException 409)
    | None =>
        let user := mkUser (new_user_id db) (actor_tenant_id actor) email (hash_password H password) role None false false
                      false None None None None None None None (env_now E) in
        db ← flush_users (set_users (ac_users db ++ [user]) db);
        Ok (acct_audited E (Some actor) "user.create" "user" (Some (uuid_str (u_id user)))
              (Some [("email", PStr email); ("role", PStr (UserRole_value role))]) None None db, user)
    end.

Definition update_user (H : hasher) (user_id : uuid) (role : option UserRole) (disabled : option bool)
    (password : option str) (actor : Actor) (db : acct_db) : py (acct_db * User) :=
  if negb (is_admin actor) then Err (HTTPException 403)
  else if negb (opt_ok (text_ok 12 256) password) then Err (HTTPException 422)
  else
    user ← user_in_tenant user_id actor db;
    let would_become_non_admin := match role with Some r => negb (bool_decide (r = ADMIN)) | None => false end in
    let would_become_disabled := bool_decide (disabled = Some true) in
    if bool_decide (u_role user = ADMIN) && negb (u_disabled user) && (would_become_non_admin || would_become_disabled)
       && (enabled_admin_count (u_tenant_id user) (Some (u_id user)) db =? 0)
    then Err (HTTPException 400)
    else
      let user' := with_access (default (u_role user) role) (default (u_disabled user) disabled)
                     (match password with Some p => hash_password H p | None => u_password_hash user end) user in
      let payload :=
        match role with Some r => [("role", PStr (UserRole_value r))] | None => [] end ++
        match disabled with Some b => [("disabled", PBool b)] | None => [] end in
      Ok (acct_audited E (Some actor) "user.update" "user" (Some (uuid_str (u_id user))) (Some payload) None None
            (put_user user' db), user').

Definition admin_disable_2fa (user_id : uuid) (actor : Actor) (db : acct_db) : py acct_db :=
  if negb (is_admin actor) then Err (HTTPException 403)
  else
    user ← user_in_tenant user_id actor db;
    if negb (u_totp_enabled user) && bool_decide (u_totp_pending_secret_encrypted user = None) then Err (HTTPException 400)
    else Ok (acct_audited E (Some actor) "user.2fa.admin_disabled" "user" (Some (uuid_str user_id)) None None None
               (put_user (with_totp false None None None user) db)).

Definition delete_user (user_id : uuid) (actor : Actor) (db : acct_db) : py acct_db :=
  if negb (is_admin actor) then Err (HTTPException 403)
  else
    user ← user_in_tenant user_id actor db;
    if bool_decide (u_role user = ADMIN) && negb (u_disabled user) &&
       (enabled_admin_count (u_tenant_id user) (Some (u_id user)) db =? 0)
    then Err (HTTPException 400)
    else
      let recorded db := acct_audited E (Some actor) "user.delete" "user" (Some (uuid_str user_id)) None None None db in
      (* With a key, the queries of [record] flush the deletion first, and a row that
         names the deleted user is refused; without one, both go in the last flush,
         the row before the deletion. *)
      match env_audit_key E with
      | Some _ => if actor_user_id actor =? user_id then Err IntegrityError else Ok (recorded (cascade_user user_id db))
      | None => Ok (cascade_user user_id (recorded db))
      end.

(** The group assignments of a user; a group counts once, whatever the request
    repeats. *)
Definition get_user_groups (user_id : uuid) (actor : Actor) (db : acct_db) : py (list uuid) :=
  if negb (is_admin actor) then Err (HTTPException 403)
  else
    _ ← user_in_tenant user_id actor db;
    Ok (map snd (List.filter (λ p, p.1 =? user_id) (sc_user_host_group (ac_scope db)))).

Definition replace_user_groups (user_id : uuid) (host_group_ids : list uuid) (actor : Actor) (db : acct_db) :
    py (acct_db * list uuid) :=
  if negb (is_admin actor) then Err (HTTPException 403)
  else
    _ ← user_in_tenant user_id actor db;
    let s := ac_scope db in
    let valid_groups := map hg_id (List.filter (λ g, bool_decide (hg_id g ∈ host_group_ids) &&
                                                     (hg_tenant_id g =? actor_tenant_id actor)) (ac_groups db)) in
    let s' := mkScopeDb (sc_hosts s) (sc_host_in_group s)
                (List.filter (λ p, negb (p.1 =? user_id)) (sc_user_host_group s) ++ map (λ g, (user_id, g)) valid_groups) in
    Ok (acct_audited E (Some actor) "user.groups.replace" "user" (Some (uuid_str user_id))
          (Some [("host_group_ids", PList (map (λ g, PStr (uuid_str g)) valid_groups))]) None None (set_ac_scope s' db),
        valid_groups).

(** ** API tokens (api/api_tokens.py) *)

Definition DEFAULT_TTL_DAYS : Z := 90.
Definition days (n : Z) : Z := n * 86400 * 1000000.

Definition list_tokens (actor : Actor) (db : acct_db) : list ApiToken :=
  sort_by (λ t, - at_created_at t)
    (List.filter (λ t, (at_tenant_id t =? actor_tenant_id actor) &&
                       (bool_decide (actor_role actor = ADMIN) || (at_user_id t =? actor_user_id actor)))
       (ac_api_tokens db)).

(** [secret] is drawn by [generate_api_token_secret]; the answer carries the token. *)
Definition create_token (secret name : str) (ttl_days : option Z) (actor : Actor) (db : acct_db) :
    py (acct_db * (ApiToken * str)) :=
  _ ← require_analyst actor;
  if negb (text_ok 1 128 name && opt_ok (λ n, (1 <=? n) && (n <=? 365 * 5)) ttl_days) then Err (HTTPException 422)
  else if negb (tenant_exists (actor_tenant_id actor) db) then Err IntegrityError
  else
    let ttl := default DEFAULT_TTL_DAYS ttl_days in
    let token := mkApiToken (env_uuid4 E (length (ac_api_tokens db))) (actor_tenant_id actor) (actor_user_id actor) name
                   (hash_api_token_secret secret) [] None None (Some (env_now E + days ttl)) (env_now E) in
    Ok (acct_audited E (Some actor) "api_token.create" "api_token" (Some (uuid_str (at_id token)))
          (Some [("name", PStr name); ("ttl_days", PInt ttl)]) None None
          (set_api_tokens (ac_api_tokens db ++ [token]) db), (token, format_api_token (at_id token) secret)).

Definition revoked (at_ : datetime) (t : ApiToken) : ApiToken :=
  mkApiToken (at_id t) (at_tenant_id t) (at_user_id t) (at_name t) (at_secret_hash t) (at_scopes t) (at_last_used_at t)
    (Some at_) (at_expires_at t) (at_created_at t).
Definition find_api_token (id : uuid) (db : acct_db) : option ApiToken :=
  List.find (λ t, at_id t =? id) (ac_api_tokens db).
Definition put_api_token (t : ApiToken) (db : acct_db) : acct_db :=
  set_api_tokens (map (λ x, if at_id x =? at_id t then t else x) (ac_api_tokens db)) db.

Definition revoke_token (token_id : uuid) (actor : Actor) (db : acct_db) : py acct_db :=
  match find_api_token token_id db with
  | Some token =>
      if negb (at_tenant_id token =? actor_tenant_id actor) then Err (HTTPException 404)
      else if negb (at_user_id token =? actor_user_id actor) && negb (bool_decide (actor_role actor = ADMIN))
      then Err (HTTPException 403)
      else Ok (acct_audited E (Some actor) "api_token.revoke" "api_token" (Some (uuid_str (at_id token))) None None None
                 (put_api_token (revoked (env_now E) token) db))
  | None => Err (HTTPException 404)
  end.

(** ** SCIM tokens (api/scim_tokens.py) *)

Definition hash_scim_token (raw : str) : str := hexdigest (sha256 (utf8 raw)).

Definition list_scim_tokens (actor : Actor) (db : acct_db) : py (list ScimToken) :=
  if negb (is_admin actor) then Err (HTTPException 403)
  else Ok (sort_by (λ t, - st_created_at t) (List.filter (λ t, st_tenant_id t =? actor_tenant_id actor) (ac_scim_tokens db))).

(** [raw] is drawn by [generate_scim_token]; the column of the hash is unique. *)
Definition create_scim_token (raw label : str) (actor : Actor) (db : acct_db) : py (acct_db * (ScimToken * str)) :=
  if negb (is_admin actor) then Err (HTTPException 403)
  else if negb (text_ok 1 128 label) then Err (HTTPException 422)
  else if negb (tenant_exists (actor_tenant_id actor) db) then Err IntegrityError
  else if existsb (λ t, String.eqb (st_token_hash t) (hash_scim_token raw)) (ac_scim_tokens db) then Err IntegrityError
  else
    let token := mkScimToken (env_uuid4 E (length (ac_scim_tokens db))) (actor_tenant_id actor) label (hash_scim_token raw)
                   (env_now E) None false in
    Ok (acct_audited E (Some actor) "scim_token.create" "scim_token" (Some (uuid_str (st_id token)))
          (Some [("label", PStr label)]) None None (set_scim_tokens (ac_scim_tokens db ++ [token]) db), (token, raw)).

Definition scim_token_in_tenant (token_id : uuid) (actor : Actor) (db : acct_db) : py ScimToken :=
  match List.find (λ t, st_id t =? token_id) (ac_scim_tokens db) with
  | Some t => if st_tenant_id t =? actor_tenant_id actor then Ok t else Err (HTTPException 404)
  | None => Err (HTTPException 404)
  end.
Definition put_scim_token (t : ScimToken) (db : acct_db) : acct_db :=
  set_scim_tokens (map (λ x, if st_id x =? st_id t then t else x) (ac_scim_tokens db)) db.

Definition disable_scim_token (token_id : uuid) (actor : Actor) (db : acct_db) : py acct_db :=
  if negb (is_admin actor) then Err (HTTPException 403)
  else
    t ← scim_token_in_tenant token_id actor db;
    if st_disabled t then Err (HTTPException 400)
    else Ok (acct_audited E (Some actor) "scim_token.disable" "scim_token" (Some (uuid_str (st_id t)))
               (Some [("label", PStr (st_label t))]) None None
               (put_scim_token (mkScimToken (st_id t) (st_tenant_id t) (st_label t) (st_token_hash t) (st_created_at t)
                                  (st_last_used_at t) true) db)).

Definition delete_scim_token (token_id : uuid) (actor : Actor) (db : acct_db) : py acct_db :=
  if negb (is_admin actor) then Err (HTTPException 403)
  else
    t ← scim_token_in_tenant token_id actor db;
    Ok (acct_audited E (Some actor) "scim_token.delete" "scim_token" (Some (uuid_str token_id))
          (Some [("label", PStr (st_label t))]) None None
          (set_scim_tokens (List.filter (λ x, negb (st_id x =? token_id)) (ac_scim_tokens db)) db)).

(** ** Tenants (api/tenants.py) *)

Definition require_super_admin (actor : Actor) : py unit :=
  if actor_is_super_admin actor then Ok tt else Err (HTTPException 403).

(** [^[a-z][a-z0-9-]{0,62}[a-z0-9]$] on the lowered and stripped text. *)
Definition slug_char (c : ascii) : bool := is_lower_ascii c || is_decimal c.
Definition slug_re (s : str) : bool :=
  text_ok 2 64 s && string_forallb (λ c, slug_char c || Ascii.eqb c "-") s &&
  match s with String c _ => is_lower_ascii c | "" => false end &&
  match String.get (String.length s - 1) s with Some c => slug_char c | None => false end.
Definition check_slug (value : str) : py str :=
  if negb (text_ok 2 64 value) then Err (HTTPException 422)
  else
    let value := strip (lower value) in
    if slug_re value then Ok value else Err (HTTPException 422).

Definition find_tenant (id : uuid) (db : acct_db) : option Tenant := List.find (λ t, tn_id t =? id) (ac_tenants db).

(** [ORDER BY slug], the order of the server's collation. *)
Definition list_tenants (collate : list Tenant → list Tenant) (actor : Actor) (db : acct_db) : py (list Tenant) :=
  _ ← require_super_admin actor; Ok (collate (ac_tenants db)).

Definition get_tenant (tid : uuid) (actor : Actor) (db : acct_db) : py Tenant :=
  _ ← require_super_admin actor; of_option (HTTPException 404) (find_tenant tid db).

Definition create_tenant (slug name : str) (actor : Actor) (db : acct_db) : py (acct_db * Tenant) :=
  _ ← require_super_admin actor;
  slug ← check_slug slug;
  if negb (text_ok 1 255 name) then Err (HTTPException 422)
  else if existsb (λ t, String.eqb (tn_slug t) slug) (ac_tenants db) then Err (HTTPException 409)
  else
    let t := mkTenant (env_uuid4 E (length (ac_tenants db))) slug name false in
    Ok (acct_audited E (Some actor) "tenant.create" "tenant" (Some (uuid_str (tn_id t)))
          (Some [("slug", PStr slug); ("name", PStr name)]) None (Some (tn_id t))
          (set_tenants (ac_tenants db ++ [t]) db), t).

Definition update_tenant (tid : uuid) (name : option str) (disabled : option bool) (actor : Actor) (db : acct_db) :
    py (acct_db * Tenant) :=
  _ ← require_super_admin actor;
  if negb (opt_ok (text_ok 1 255) name) then Err (HTTPException 422)
  else
    t ← of_option (HTTPException 404) (find_tenant tid db);
    let renamed := match name with Some n => negb (String.eqb n (tn_name t)) | None => false end in
    let switched := match disabled with Some b => negb (Bool.eqb b (tn_disabled t)) | None => false end in
    if switched && (tn_id t =? DEFAULT_TENANT_ID) && bool_decide (disabled = Some true) then Err (HTTPException 400)
    else
      let t' := mkTenant (tn_id t) (tn_slug t) (default (tn_name t) name) (default (tn_disabled t) disabled) in
      let changes :=
        (if renamed then [("name", PStr (default "" name))] else []) ++
        (if switched then [("disabled", PBool (default false disabled))] else []) in
      let db := set_tenants (map (λ x, if tn_id x =? tid then t' else x) (ac_tenants db)) db in
      Ok (match changes with
          | [] => db
          | _ => acct_audited E (Some actor) "tenant.update" "tenant" (Some (uuid_str (tn_id t))) (Some changes) None
                   (Some (tn_id t)) db
          end, t').

(** [owned]: a table outside the state holds a row of the tenant.  Every reference
    restricts the deletion. *)
Definition tenant_referenced (owned : uuid → bool) (tid : uuid) (db : acct_db) : bool :=
  owned tid || existsb (λ g, hg_tenant_id g =? tid) (ac_groups db) ||
  existsb (λ t, at_tenant_id t =? tid) (ac_api_tokens db) || existsb (λ t, st_tenant_id t =? tid) (ac_scim_tokens db) ||
  existsb (λ r, bool_decide (tenant_id r = Some tid)) (log (ac_audit db)).

Definition delete_tenant (owned : uuid → bool) (tid : uuid) (actor : Actor) (db : acct_db) : py acct_db :=
  _ ← require_super_admin actor;
  if tid =? DEFAULT_TENANT_ID then Err (HTTPException 400)
  else
    t ← of_option (HTTPException 404) (find_tenant tid db);
    let host_count := length (List.filter (λ h, host_tenant_id h =? tid) (sc_hosts (ac_scope db))) in
    let user_count := length (List.filter (λ u, u_tenant_id u =? tid) (ac_users db)) in
    if negb (host_count =? 0)%nat || negb (user_count =? 0)%nat then Err (HTTPException 400)
    (* The audit row is of the actor's tenant, which may be this one, or none. *)
    else if tenant_referenced owned tid db || (actor_tenant_id actor =? tid) || negb (tenant_exists (actor_tenant_id actor) db)
    then Err IntegrityError
    else Ok (acct_audited E (Some actor) "tenant.delete" "tenant" (Some (uuid_str tid)) (Some [("slug", PStr (tn_slug t))])
               None (Some (actor_tenant_id actor))
               (set_tenants (List.filter (λ x, negb (tn_id x =? tid)) (ac_tenants db)) db)).
End routes.

(** ** Well-formed tables *)

Record acct_wf (db : acct_db) : Prop := {
  wf_user_ids : NoDup (map u_id (ac_users db));
  wf_user_ids_ok : ∀ u, u ∈ ac_users db → uuid_ok (u_id u);
  wf_users_flushed : flush_users db = Ok db;
  wf_token_ids : NoDup (map at_id (ac_api_tokens db));
  wf_token_ids_ok : ∀ t, t ∈ ac_api_tokens db → uuid_ok (at_id t);
  wf_token_owner : ∀ t, t ∈ ac_api_tokens db → at_user_id t ∈ map u_id (ac_users db);
  wf_scim_ids : NoDup (map st_id (ac_scim_tokens db));
  wf_scim_hashes : NoDup (map st_token_hash (ac_scim_tokens db));
  wf_tenant_ids : NoDup (map tn_id (ac_tenants db));
  wf_tenant_slugs : NoDup (map tn_slug (ac_tenants db));
  wf_members : ∀ p, p ∈ sc_user_host_group (ac_scope db) → p.1 ∈ map u_id (ac_users db)
}.

(** The random ids are UUIDs, and new in every table. *)
Definition fresh_acct (E : env) (db : acct_db) : Prop :=
  ∀ n, uuid_ok (env_uuid4 E n) ∧ env_uuid4 E n ∉ map u_id (ac_users db) ∧ env_uuid4 E n ∉ map at_id (ac_api_tokens db) ∧
    env_uuid4 E n ∉ map st_id (ac_scim_tokens db) ∧ env_uuid4 E n ∉ map tn_id (ac_tenants db).

(** *** Facts about keys *)

Lemma forallb_map_key {A B} (k : A → B) (f : A → bool) (g : B → bool) l :
  (∀ x, f x = g (k x)) → forallb f l = forallb g (map k l).
Proof. intros H. induction l as [|x l IH]; [done|]. simpl. by rewrite H, IH. Qed.

Lemma omap_map_key {A B C} (k : A → B) (f : A → option C) (g : B → option C) l :
  (∀ x, f x = g (k x)) → omap f l = omap g (map k l).
Proof. intros H. induction l as [|x l IH]; [done|]. csimpl. by rewrite H, IH. Qed.

(** *** Lookup by id *)

Lemma find_user_elem id db u : find_user id db = Some u → u ∈ ac_users db ∧ u_id u = id.
Proof. intros [Hin He]%List.find_some. split; [by apply list_elem_of_In|lia]. Qed.

Lemma find_user_unique id db u : NoDup (map u_id (ac_users db)) → u ∈ ac_users db → u_id u = id → find_user id db = Some u.
Proof.
  intros Hnd Hu Hid. unfold find_user. destruct (List.find _ _) as [v|] eqn:Hf.
  - apply find_user_elem in Hf as [Hv He]. f_equal. apply (NoDup_key_inj u_id (ac_users db)); [done..|congruence].
  - pose proof (find_none _ _ Hf u (proj1 (list_elem_of_In _ _) Hu)) as Hn. cbv beta in Hn. lia.
Qed.

Lemma user_in_tenant_ok id actor db u :
  user_in_tenant id actor db = Ok u → u ∈ ac_users db ∧ u_id u = id ∧ u_tenant_id u = actor_tenant_id actor.
Proof.
  unfold user_in_tenant. destruct (find_user id db) as [v|] eqn:Hf; [|done].
  destruct (Z.eqb_spec (u_tenant_id v) (actor_tenant_id actor)); [|done]. intros [= <-].
  apply find_user_elem in Hf as []. done.
Qed.

(** *** Replacing a user *)

(** What the constraints see of a row. *)
Definition user_key (u : User) : uuid * uuid * str * (option str * option str * option str * option str) :=
  (u_id u, u_tenant_id u, u_email u, (u_oidc_subject u, u_oidc_issuer u, u_oidc_email u, u_scim_external_id u)).

Lemma users_of_keys db l :
  map user_key l = map user_key (ac_users db) → flush_users db = Ok db →
  map u_id l = map u_id (ac_users db) ∧ flush_users (set_users l db) = Ok (set_users l db).
Proof.
  intros Hk Hf. split.
  { transitivity (map (λ k, k.1.1.1) (map user_key l)); [by rewrite map_map|]. rewrite Hk, map_map. done. }
  assert (∀ (f : User → bool) (g : _ → bool), (∀ u, f u = g (user_key u)) → forallb f l = forallb f (ac_users db)) as Hfor.
  { intros f g Hfg. rewrite !forallb_map_key with (k := user_key) (g := g) by done. by rewrite Hk. }
  unfold flush_users in *. cbn [set_users ac_users ac_tenants].
  rewrite (Hfor user_fits (λ k, (String.length k.1.2 <=? 255)%nat && opt_max 256 k.2.1.1.1 && opt_max 512 k.2.1.1.2 && opt_max 256 k.2.1.2)) by done.
  rewrite (Hfor (λ u, existsb (λ t, tn_id t =? u_tenant_id u) (ac_tenants db)) (λ k, existsb (λ t, tn_id t =? k.1.1.2) (ac_tenants db))) by done.
  assert (users_unique l = users_unique (ac_users db)) as ->.
  { unfold users_unique, subjects.
    rewrite !(omap_map_key user_key u_oidc_subject (λ k, k.2.1.1.1)) by done.
    rewrite !(omap_map_key user_key scim_identity (λ k, match k.2.1.1.2, k.2.2 with Some i, Some e => Some (i, e) | _, _ => None end)) by done.
    assert (map u_email l = map u_email (ac_users db)) as ->.
    { transitivity (map (λ k, k.1.2) (map user_key l)); [by rewrite map_map|]. rewrite Hk, map_map. done. }
    by rewrite Hk. }
  destruct (negb (forallb _ _)); [done|]. by destruct (negb (_ && _)).
Qed.

Lemma put_user_ids u l : map u_id (map (λ x, if u_id x =? u_id u then u else x) l) = map u_id l.
Proof. rewrite map_map. apply map_ext. intros x. destruct (Z.eqb_spec (u_id x) (u_id u)); congruence. Qed.

Lemma put_user_keys db u0 u :
  NoDup (map u_id (ac_users db)) → u0 ∈ ac_users db → user_key u = user_key u0 →
  map user_key (ac_users (put_user u db)) = map user_key (ac_users db).
Proof.
  intros Hnd H0 Hk. cbn [put_user set_users ac_users]. rewrite map_map. apply map_ext_in. intros x Hx%list_elem_of_In.
  destruct (Z.eqb_spec (u_id x) (u_id u)) as [He|]; [|done].
  rewrite Hk. f_equal. injection Hk as Hid _. apply (NoDup_key_inj u_id (ac_users db)); [done..|congruence].
Qed.

Lemma put_user_elem u v db :
  v ∈ ac_users (put_user u db) → (v = u ∧ u_id u ∈ map u_id (ac_users db)) ∨ (v ∈ ac_users db ∧ u_id v ≠ u_id u).
Proof.
  intros (x & -> & Hx)%list_elem_of_fmap. destruct (Z.eqb_spec (u_id x) (u_id u)) as [He|]; [left|by right].
  split; [done|]. rewrite <-He. by apply list_elem_of_fmap_2.
Qed.

Lemma put_user_in u u0 db : u0 ∈ ac_users db → u_id u0 = u_id u → u ∈ ac_users (put_user u db).
Proof. intros Hx He. apply list_elem_of_fmap. exists u0. split; [|done]. by rewrite (proj2 (Z.eqb_eq _ _) He). Qed.

Lemma put_user_other u v db : v ∈ ac_users db → u_id v ≠ u_id u → v ∈ ac_users (put_user u db).
Proof. intros Hx He. apply list_elem_of_fmap. exists v. split; [|done]. by rewrite (proj2 (Z.eqb_neq _ _) He). Qed.

Lemma wf_put db u0 u : acct_wf db → u0 ∈ ac_users db → user_key u = user_key u0 → acct_wf (put_user u db).
Proof.
  intros [] H0 Hk. pose proof (put_user_keys db u0 u wf_user_ids0 H0 Hk) as Hkeys.
  destruct (users_of_keys db _ Hkeys wf_users_flushed0) as [Hids Hfl].
  split; rewrite ?Hids; try done.
  intros v [[-> _]|[Hv _]]%put_user_elem; [|auto]. injection Hk as -> _. auto.
Qed.

(** A row written with a flush. *)
Lemma flush_users_same db db' : flush_users db = Ok db' → db' = db.
Proof. unfold flush_users. destruct (negb _); [done|]. destruct (negb _); [done|]. by intros [= <-]. Qed.

Lemma wf_flush db l db' :
  acct_wf db → NoDup (map u_id l) → (∀ u, u ∈ l → uuid_ok (u_id u)) →
  (∀ id, id ∈ map u_id (ac_users db) → id ∈ map u_id l) →
  flush_users (set_users l db) = Ok db' → acct_wf db'.
Proof. intros [] Hnd Hok Hsub Hf. pose proof (flush_users_same _ _ Hf) as ->. split; cbn [set_users] in *; auto. Qed.

Lemma wf_flush_put db u0 u db' :
  acct_wf db → u0 ∈ ac_users db → u_id u = u_id u0 → flush_users (put_user u db) = Ok db' → acct_wf db'.
Proof.
  intros Hwf H0 Hid Hf. eapply wf_flush; [exact Hwf|..|exact Hf].
  - rewrite put_user_ids. apply Hwf.
  - intros v Hv. apply (put_user_elem u v db) in Hv as [[-> _]|[Hv _]]; [rewrite Hid|]; by apply Hwf.
  - intros id. by rewrite put_user_ids.
Qed.

Lemma wf_flush_add E db u db' :
  acct_wf db → fresh_acct E db → u_id u = new_user_id E db → flush_users (set_users (ac_users db ++ [u]) db) = Ok db' → acct_wf db'.
Proof.
  intros Hwf Hfr Hid Hf. destruct (Hfr (length (ac_users db))) as (Hok & Hnew & _). eapply wf_flush; [exact Hwf|..|exact Hf].
  - rewrite map_app. apply NoDup_app. split_and!; [apply Hwf| |apply NoDup_singleton].
    intros x Hx ->%list_elem_of_singleton. by rewrite Hid in Hx.
  - intros v [Hv| ->%list_elem_of_singleton]%elem_of_app; [by apply Hwf|by rewrite Hid].
  - intros id Hx. rewrite map_app. set_solver.
Qed.

(** *** Other tables *)

Lemma flush_ext db db' :
  ac_users db = ac_users db' → ac_tenants db = ac_tenants db' → flush_users db = Ok db → flush_users db' = Ok db'.
Proof.
  unfold flush_users. intros -> ->. destruct (negb (forallb _ _)); [done|]. by destruct (negb (_ && _)).
Qed.

(** A change that leaves the users and tenants alone. *)
Ltac wf_same := intros []; split; try done; try (by eapply flush_ext; [..|eassumption]).

Lemma wf_audited E actor act rt rid p ip t db : acct_wf db → acct_wf (acct_audited E actor act rt rid p ip t db).
Proof. wf_same. Qed.

Lemma wf_audit db a : acct_wf db → acct_wf (set_ac_audit a db).
Proof. wf_same. Qed.

Lemma wf_put_token db t0 t :
  acct_wf db → t0 ∈ ac_api_tokens db → at_id t = at_id t0 → at_user_id t = at_user_id t0 → acct_wf (put_api_token t db).
Proof.
  intros [] H0 Hid Hu. assert (map at_id (ac_api_tokens (put_api_token t db)) = map at_id (ac_api_tokens db)) as Hids.
  { cbn. rewrite map_map. apply map_ext. intros x. destruct (Z.eqb_spec (at_id x) (at_id t)); congruence. }
  split; rewrite ?Hids; try done; try (by eapply flush_ext; [..|eassumption]).
  - intros x (y & -> & Hy)%list_elem_of_fmap. destruct (_ =? _); [rewrite Hid|]; auto.
  - intros x (y & -> & Hy)%list_elem_of_fmap. destruct (_ =? _); [rewrite Hu|]; auto.
Qed.

Lemma wf_put_scim db t0 t :
  acct_wf db → t0 ∈ ac_scim_tokens db → st_id t = st_id t0 → st_token_hash t = st_token_hash t0 → acct_wf (put_scim_token t db).
Proof.
  intros [] H0 Hid Hh. split; try done; try (by eapply flush_ext; [..|eassumption]); cbn [put_scim_token set_scim_tokens ac_scim_tokens]; rewrite map_map.
  - erewrite map_ext; [exact wf_scim_ids0|]. intros x. destruct (Z.eqb_spec (st_id x) (st_id t)); congruence.
  - erewrite map_ext_in; [exact wf_scim_hashes0|]. intros x Hx%list_elem_of_In.
    destruct (Z.eqb_spec (st_id x) (st_id t)) as [He|]; [|done]. rewrite Hh. f_equal.
    symmetry. apply (NoDup_key_inj st_id (ac_scim_tokens db)); [done..|congruence].
Qed.

Lemma NoDup_omap_filterb {A B} (f : A → option B) (p : A → bool) l : NoDup (omap f l) → NoDup (omap f (List.filter p l)).
Proof.
  induction l as [|x l IH]; [done|]. csimpl. intros Hnd. destruct (f x) as [y|] eqn:Hf.
  - apply NoDup_cons in Hnd as [Hy Hnd]. destruct (p x); [|auto]. csimpl. rewrite Hf. apply NoDup_cons. split; [|auto].
    intros (z & Hz & Hfz)%list_elem_of_omap. apply elem_of_filterb in Hz as [Hz _]. apply Hy, list_elem_of_omap. eauto.
  - destruct (p x); [|auto]. csimpl. rewrite Hf. auto.
Qed.

Lemma wf_cascade id db : acct_wf db → acct_wf (cascade_user id db).
Proof.
  intros []. pose proof wf_users_flushed0 as Hfl.
  assert (∀ x, x ∈ map u_id (ac_users db) → x ≠ id → x ∈ map u_id (List.filter (λ u, negb (u_id u =? id)) (ac_users db))) as Hkeep.
  { intros x (u & -> & Hu)%list_elem_of_fmap Hne. apply list_elem_of_fmap_2, elem_of_filterb. split; [done|].
    by apply negb_true_iff, Z.eqb_neq. }
  split; cbn [cascade_user ac_users ac_api_tokens ac_scim_tokens ac_tenants ac_scope sc_user_host_group]; try done;
    try by apply NoDup_map_filterb.
  - intros u [Hu _]%elem_of_filterb. auto.
  - unfold flush_users in *. cbn [cascade_user ac_users ac_tenants].
    destruct (forallb user_fits (ac_users db)) eqn:Hfit; [|done].
    destruct (users_unique (ac_users db) && _) eqn:Hu; [|done]. apply andb_true_iff in Hu as [Hu Ht].
    rewrite forallb_forall in Hfit, Ht.
    assert (forallb user_fits (List.filter (λ u, negb (u_id u =? id)) (ac_users db)) = true) as ->.
    { apply forallb_forall. intros x [Hx _]%filter_In. auto. }
    assert (users_unique (List.filter (λ u, negb (u_id u =? id)) (ac_users db)) = true) as ->.
    { unfold users_unique, subjects in *. rewrite !andb_true_iff, !bool_decide_eq_true in *.
      destruct Hu as [[H1 H2] H3]. split_and!; [by apply NoDup_map_filterb|by apply NoDup_omap_filterb..]. }
    assert (forallb (λ u, existsb (λ t, tn_id t =? u_tenant_id u) (ac_tenants db))
              (List.filter (λ u, negb (u_id u =? id)) (ac_users db)) = true) as ->; [|done].
    apply forallb_forall. intros x [Hx _]%filter_In. auto.
  - intros t [Ht _]%elem_of_filterb. auto.
  - intros t [Ht Hne]%elem_of_filterb. apply Hkeep; [auto|]. by apply negb_true_iff, Z.eqb_neq in Hne.
  - intros p [Hp Hne]%elem_of_filterb. apply Hkeep; [auto|]. by apply negb_true_iff, Z.eqb_neq in Hne.
Qed.

(** *** The routes preserve well-formedness *)

Create HintDb acct.
#[export] Hint Resolve wf_audited wf_audit wf_cascade : acct.

Section preserved.
Context (E : env) (H : hasher).

Lemma create_user_wf email password role actor db db' u :
  acct_wf db → fresh_acct E db → create_user E H email password role actor db = Ok (db', u) → acct_wf db'.
Proof.
  intros Hwf Hfr Hc. unfold create_user in Hc. destruct (negb (is_admin actor)); [done|]. destruct (negb (_ && _)); [done|].
  cbv zeta in Hc. destruct (user_by_email _ _); [done|]. apply res_bind_ok in Hc as (db1 & Hf & [= <- <-]).
  apply wf_audited. by eapply wf_flush_add; [..|exact Hf].
Qed.

Lemma update_user_wf id role disabled password actor db db' u :
  acct_wf db → update_user E H id role disabled password actor db = Ok (db', u) → acct_wf db'.
Proof.
  intros Hwf Hc. unfold update_user in Hc. destruct (negb (is_admin actor)); [done|]. destruct (negb (opt_ok _ _)); [done|].
  apply res_bind_ok in Hc as (u0 & (Hin & _)%user_in_tenant_ok & Hc). cbv zeta in Hc.
  destruct (_ && _ && _ && _); [done|]. injection Hc as <- <-. apply wf_audited. by apply (wf_put _ u0).
Qed.

Lemma admin_disable_2fa_wf id actor db db' : acct_wf db → admin_disable_2fa E id actor db = Ok db' → acct_wf db'.
Proof.
  intros Hwf Hc. unfold admin_disable_2fa in Hc. destruct (negb (is_admin actor)); [done|].
  apply res_bind_ok in Hc as (u0 & (Hin & _)%user_in_tenant_ok & Hc). destruct (_ && _); [done|]. injection Hc as <-.
  apply wf_audited. by apply (wf_put _ u0).
Qed.

Lemma delete_user_wf id actor db db' : acct_wf db → delete_user E id actor db = Ok db' → acct_wf db'.
Proof.
  intros Hwf Hc. unfold delete_user in Hc. destruct (negb (is_admin actor)); [done|].
  apply res_bind_ok in Hc as (u0 & _ & Hc). destruct (_ && _ && _); [done|]. cbv zeta in Hc.
  destruct (env_audit_key E); [destruct (_ =? _); [done|]|]; injection Hc as <-; auto with acct.
Qed.

Lemma replace_user_groups_wf id gids actor db db' l :
  acct_wf db → replace_user_groups E id gids actor db = Ok (db', l) → acct_wf db'.
Proof.
  intros Hwf Hc. unfold replace_user_groups in Hc. destruct (negb (is_admin actor)); [done|].
  apply res_bind_ok in Hc as (u0 & (Hin & Hid & _)%user_in_tenant_ok & Hc). injection Hc as <- <-. apply wf_audited.
  revert Hwf. wf_same. cbn [set_ac_scope ac_scope sc_user_host_group ac_users].
  intros p [[Hp _]%elem_of_filterb|(g & -> & _)%list_elem_of_fmap]%elem_of_app; [auto|].
  cbn. rewrite <-Hid. by apply list_elem_of_fmap_2.
Qed.

Lemma create_token_wf secret name ttl actor db db' r :
  acct_wf db → fresh_acct E db → actor_user_id actor ∈ map u_id (ac_users db) →
  create_token E secret name ttl actor db = Ok (db', r) → acct_wf db'.
Proof.
  intros Hwf Hfr Ha Hc. unfold create_token in Hc. apply res_bind_ok in Hc as (_ & _ & Hc).
  destruct (negb (_ && _)); [done|]. destruct (negb (tenant_exists _ _)); [done|]. cbv zeta in Hc. injection Hc as <- <-.
  apply wf_audited. destruct (Hfr (length (ac_api_tokens db))) as (Hok & _ & Hnew & _). revert Hwf. wf_same; cbn [set_api_tokens ac_api_tokens ac_users].
  - rewrite map_app. apply NoDup_app. split_and!; [done| |apply NoDup_singleton].
    intros x Hx ->%list_elem_of_singleton. done.
  - intros t [Ht| ->%list_elem_of_singleton]%elem_of_app; [auto|done].
  - intros t [Ht| ->%list_elem_of_singleton]%elem_of_app; [auto|done].
Qed.

Lemma find_api_token_elem id db t : find_api_token id db = Some t → t ∈ ac_api_tokens db ∧ at_id t = id.
Proof. intros [Hin He]%List.find_some. split; [by apply list_elem_of_In|lia]. Qed.

Lemma revoke_token_wf id actor db db' : acct_wf db → revoke_token E id actor db = Ok db' → acct_wf db'.
Proof.
  intros Hwf Hc. unfold revoke_token in Hc. destruct (find_api_token id db) as [t|] eqn:Hf; [|done].
  destruct (negb _); [done|]. destruct (_ && _); [done|]. injection Hc as <-. apply find_api_token_elem in Hf as [Hin _].
  apply wf_audited. by apply (wf_put_token _ t).
Qed.

Lemma create_scim_token_wf raw label actor db db' r :
  acct_wf db → fresh_acct E db → create_scim_token E raw label actor db = Ok (db', r) → acct_wf db'.
Proof.
  intros Hwf Hfr Hc. unfold create_scim_token in Hc. destruct (negb (is_admin actor)); [done|]. destruct (negb _); [done|].
  destruct (negb (tenant_exists _ _)); [done|]. destruct (existsb _ (ac_scim_tokens db)) eqn:Hex; [done|]. cbv zeta in Hc. injection Hc as <- <-. apply wf_audited.
  destruct (Hfr (length (ac_scim_tokens db))) as (_ & _ & _ & Hnew & _). revert Hwf. wf_same; cbn [set_scim_tokens ac_scim_tokens].
  - rewrite map_app. apply NoDup_app. split_and!; [done| |apply NoDup_singleton].
    intros x Hx ->%list_elem_of_singleton. done.
  - rewrite map_app. apply NoDup_app. split_and!; [done| |apply NoDup_singleton].
    intros x Hx ->%list_elem_of_singleton. cbn in Hx. apply list_elem_of_fmap in Hx as (t & Ht & Hin%list_elem_of_In).
    apply not_true_iff_false in Hex. apply Hex, existsb_exists. exists t. split; [done|]. by rewrite <-Ht, String.eqb_refl.
Qed.

Lemma scim_token_in_tenant_ok id actor db t :
  scim_token_in_tenant id actor db = Ok t → t ∈ ac_scim_tokens db ∧ st_id t = id ∧ st_tenant_id t = actor_tenant_id actor.
Proof.
  unfold scim_token_in_tenant. destruct (List.find _ _) as [x|] eqn:Hf; [|done].
  destruct (Z.eqb_spec (st_tenant_id x) (actor_tenant_id actor)); [|done]. intros [= <-].
  apply List.find_some in Hf as [Hin He]. split_and!; [by apply list_elem_of_In|lia|done].
Qed.

Lemma disable_scim_token_wf id actor db db' : acct_wf db → disable_scim_token E id actor db = Ok db' → acct_wf db'.
Proof.
  intros Hwf Hc. unfold disable_scim_token in Hc. destruct (negb (is_admin actor)); [done|].
  apply res_bind_ok in Hc as (t & (Hin & _)%scim_token_in_tenant_ok & Hc). destruct (st_disabled t); [done|].
  injection Hc as <-. apply wf_audited. by apply (wf_put_scim _ t).
Qed.

Lemma delete_scim_token_wf id actor db db' : acct_wf db → delete_scim_token E id actor db = Ok db' → acct_wf db'.
Proof.
  intros Hwf Hc. unfold delete_scim_token in Hc. destruct (negb (is_admin actor)); [done|].
  apply res_bind_ok in Hc as (t & _ & Hc). injection Hc as <-. apply wf_audited.
  revert Hwf. wf_same; by apply NoDup_map_filterb.
Qed.

(** More tenants, or fewer that no user refers to. *)
Lemma wf_tenants db l :
  acct_wf db → NoDup (map tn_id l) → NoDup (map tn_slug l) →
  (∀ u t, u ∈ ac_users db → t ∈ ac_tenants db → tn_id t = u_tenant_id u → u_tenant_id u ∈ map tn_id l) →
  acct_wf (set_tenants l db).
Proof.
  intros [] Hi Hs Hall. split; try done. revert wf_users_flushed0. unfold flush_users. cbn [set_tenants ac_users ac_tenants].
  destruct (negb (forallb user_fits _)); [done|]. destruct (users_unique _); [|done]. cbn [andb].
  destruct (forallb _ (ac_users db)) eqn:Ht; [|done]. intros _. rewrite forallb_forall in Ht.
  assert (forallb (λ u, existsb (λ t, tn_id t =? u_tenant_id u) l) (ac_users db) = true) as ->; [|done].
  apply forallb_forall. intros u Hu. pose proof (Ht u Hu) as (t & Htin & He)%existsb_exists.
  apply list_elem_of_In in Hu, Htin. specialize (Hall u t Hu Htin ltac:(lia)).
  apply list_elem_of_fmap in Hall as (t' & He' & Ht'). apply existsb_exists. exists t'. split; [by apply list_elem_of_In|lia].
Qed.

Lemma find_tenant_elem id db t : find_tenant id db = Some t → t ∈ ac_tenants db ∧ tn_id t = id.
Proof. intros [Hin He]%List.find_some. split; [by apply list_elem_of_In|lia]. Qed.

Lemma create_tenant_wf slug name actor db db' t :
  acct_wf db → fresh_acct E db → create_tenant E slug name actor db = Ok (db', t) → acct_wf db'.
Proof.
  intros Hwf Hfr Hc. unfold create_tenant in Hc. apply res_bind_ok in Hc as (_ & _ & Hc).
  apply res_bind_ok in Hc as (s & _ & Hc). destruct (negb _); [done|]. destruct (existsb _ _) eqn:Hex; [done|].
  cbv zeta in Hc. injection Hc as <- <-. apply wf_audited. destruct (Hfr (length (ac_tenants db))) as (_ & _ & _ & _ & Hnew).
  apply wf_tenants; [done|..].
  - rewrite map_app. apply NoDup_app. split_and!; [apply Hwf| |apply NoDup_singleton].
    intros x Hx ->%list_elem_of_singleton. done.
  - rewrite map_app. apply NoDup_app. split_and!; [apply Hwf| |apply NoDup_singleton].
    intros x Hx ->%list_elem_of_singleton. cbn in Hx. apply list_elem_of_fmap in Hx as (t & Ht & Hin%list_elem_of_In).
    apply not_true_iff_false in Hex. apply Hex, existsb_exists. exists t. split; [done|]. by rewrite <-Ht, String.eqb_refl.
  - intros u t Hu Ht <-. rewrite map_app. apply elem_of_app. left. by apply list_elem_of_fmap_2.
Qed.

Lemma update_tenant_wf tid name disabled actor db db' t :
  acct_wf db → update_tenant E tid name disabled actor db = Ok (db', t) → acct_wf db'.
Proof.
  intros Hwf Hc. unfold update_tenant in Hc. apply res_bind_ok in Hc as (_ & _ & Hc). destruct (negb _); [done|].
  apply res_bind_ok in Hc as (t0 & Hf & Hc). destruct (find_tenant tid db) as [t1|] eqn:Hft; [|done]. injection Hf as ->.
  apply find_tenant_elem in Hft as [Hin Hid]. cbv zeta in Hc. destruct (_ && _ && _); [done|].
  set (t' := mkTenant _ _ _ _) in Hc.
  assert (acct_wf (set_tenants (map (λ x, if tn_id x =? tid then t' else x) (ac_tenants db)) db)) as Hwf'.
  { assert (∀ x, x ∈ ac_tenants db → tn_id x = tid → x = t0) as Huniq.
    { intros x Hx He. apply (NoDup_key_inj tn_id (ac_tenants db)); [apply Hwf|done..|congruence]. }
    assert (map tn_id (map (λ x, if tn_id x =? tid then t' else x) (ac_tenants db)) = map tn_id (ac_tenants db)) as Hids.
    { rewrite map_map. apply map_ext. intros x. destruct (Z.eqb_spec (tn_id x) tid); [|done]. cbn. congruence. }
    apply wf_tenants; [done|by rewrite Hids; apply Hwf| |].
    - rewrite map_map. erewrite map_ext_in; [apply Hwf|]. intros x Hx%list_elem_of_In.
      destruct (Z.eqb_spec (tn_id x) tid) as [He|]; [|done]. by rewrite (Huniq x Hx He).
    - intros u x Hu Hx <-. rewrite Hids. by apply list_elem_of_fmap_2. }
  destruct (_ ++ _); injection Hc as <- <-; auto with acct.
Qed.

Lemma delete_tenant_wf owned tid actor db db' : acct_wf db → delete_tenant E owned tid actor db = Ok db' → acct_wf db'.
Proof.
  intros Hwf Hc. unfold delete_tenant in Hc. apply res_bind_ok in Hc as (_ & _ & Hc). destruct (tid =? _); [done|].
  apply res_bind_ok in Hc as (t0 & _ & Hc). cbv zeta in Hc. destruct (negb _ || negb _) eqn:Hn; [done|].
  destruct (tenant_referenced _ _ _ || _ || _); [done|]. injection Hc as <-. apply wf_audited.
  apply orb_false_iff in Hn as [_ Hn]. apply negb_false_iff, Nat.eqb_eq, length_zero_iff_nil in Hn.
  apply wf_tenants; [done|apply NoDup_map_filterb, Hwf..|]. intros u t Hu Ht He. rewrite <-He.
  apply list_elem_of_fmap_2, elem_of_filterb. split; [done|]. apply negb_true_iff, Z.eqb_neq. intros Htid.
  assert (u ∈ List.filter (λ u, u_tenant_id u =? tid) (ac_users db)) as Hbad by (apply elem_of_filterb; split; [done|lia]).
  rewrite Hn in Hbad. by apply not_elem_of_nil in Hbad.
Qed.
End preserved.

(** ** The routes together *)

Inductive account_op :=
| CreateUser (email password : str) (role : UserRole)
| UpdateUser (user_id : uuid) (role : option UserRole) (disabled : option bool) (password : option str)
| AdminDisable2fa (user_id : uuid)
| DeleteUser (user_id : uuid)
| ReplaceUserGroups (user_id : uuid) (host_group_ids : list uuid)
| CreateToken (secret name : str) (ttl_days : option Z)
| RevokeToken (token_id : uuid)
| CreateScimToken (raw label : str)
| DisableScimToken (token_id : uuid)
| DeleteScimToken (token_id : uuid)
| CreateTenant (slug name : str)
| UpdateTenant (tid : uuid) (name : option str) (disabled : option bool)
| DeleteTenant (owned : uuid → bool) (tid : uuid).

Definition account_route (E : env) (H : hasher) (op : account_op) (actor : Actor) (db : acct_db) : py acct_db :=
  match op with
  | CreateUser email password role => fst <$> create_user E H email password role actor db
  | UpdateUser id role disabled password => fst <$> update_user E H id role disabled password actor db
  | AdminDisable2fa id => admin_disable_2fa E id actor db
  | DeleteUser id => delete_user E id actor db
  | ReplaceUserGroups id gids => fst <$> replace_user_groups E id gids actor db
  | CreateToken secret name ttl => fst <$> create_token E secret name ttl actor db
  | RevokeToken id => revoke_token E id actor db
  | CreateScimToken raw label => fst <$> create_scim_token E raw label actor db
  | DisableScimToken id => disable_scim_token E id actor db
  | DeleteScimToken id => delete_scim_token E id actor db
  | CreateTenant slug name => fst <$> create_tenant E slug name actor db
  | UpdateTenant tid name disabled => fst <$> update_tenant E tid name disabled actor db
  | DeleteTenant owned tid => delete_tenant E owned tid actor db
  end.

Lemma res_fmap_ok {E A B} (f : A → B) (m : res E A) y : f <$> m = Ok y → ∃ x, m = Ok x ∧ y = f x.
Proof. destruct m as [x|]; [|done]. intros [= <-]. by exists x. Qed.

Lemma account_route_wf E H op actor db db' :
  acct_wf db → fresh_acct E db → actor_user_id actor ∈ map u_id (ac_users db) → account_route E H op actor db = Ok db' → acct_wf db'.
Proof.
  intros Hwf Hfr Ha. destruct op; cbn [account_route]; try intros ([? ?] & Hr & ->)%res_fmap_ok; try intros Hr.
  all: first [by eapply create_user_wf|by eapply update_user_wf|by eapply admin_disable_2fa_wf|by eapply delete_user_wf
    |by eapply replace_user_groups_wf|by eapply create_token_wf|by eapply revoke_token_wf|by eapply create_scim_token_wf
    |by eapply disable_scim_token_wf|by eapply delete_scim_token_wf|by eapply create_tenant_wf|by eapply update_tenant_wf
    |by eapply delete_tenant_wf].
Qed.

(** ** Administrators, tenants and the audit log along the routes *)

Definition has_admin (tenant : uuid) (db : acct_db) : Prop := ∃ u, u ∈ ac_users db ∧ enabled_admin tenant u = true.

(** What [enabled_admin] sees of a row. *)
Definition access_key (u : User) : uuid * uuid * UserRole * bool := (u_id u, u_tenant_id u, u_role u, u_disabled u).
Definition keeps_access (db db' : acct_db) : Prop :=
  ∀ u, u ∈ ac_users db → ∃ u', u' ∈ ac_users db' ∧ access_key u' = access_key u.

Lemma keeps_access_same db db' : ac_users db' = ac_users db → keeps_access db db'.
Proof. intros He u Hu. exists u. by rewrite He. Qed.

Lemma keeps_access_trans db1 db2 db3 : keeps_access db1 db2 → keeps_access db2 db3 → keeps_access db1 db3.
Proof. intros H1 H2 u (u2 & Hu2 & Hk2)%H1. apply H2 in Hu2 as (u3 & Hu3 & Hk3). exists u3. split; [done|congruence]. Qed.

Lemma keeps_access_put db u0 u : acct_wf db → u0 ∈ ac_users db → access_key u = access_key u0 → keeps_access db (put_user u db).
Proof.
  intros Hwf H0 Hk v Hv. destruct (decide (u_id v = u_id u)) as [He|Hne]; [|by exists v; split; [apply put_user_other|]].
  exists u. injection Hk as Hid Ht Hr Hd. split; [by apply (put_user_in _ u0)|].
  assert (v = u0) as -> by (apply (NoDup_key_inj u_id (ac_users db)); [apply Hwf|done..|congruence]).
  unfold access_key. congruence.
Qed.

Lemma keeps_access_add db l : keeps_access db (set_users (ac_users db ++ l) db).
Proof. intros u Hu. exists u. split; [apply elem_of_app; by left|done]. Qed.

Lemma keeps_access_admin t db db' : keeps_access db db' → has_admin t db → has_admin t db'.
Proof.
  intros Hk (u & Hu & Ha). apply Hk in Hu as (u' & Hu' & He). exists u'. split; [done|].
  injection He as _ Ht Hr Hd. unfold enabled_admin in *. by rewrite Ht, Hr, Hd.
Qed.

(** The guard of a demotion, a disabling or a deletion. *)
Lemma another_admin t u db :
  enabled_admin_count t (Some (u_id u)) db ≠ 0 → ∃ v, v ∈ ac_users db ∧ enabled_admin t v = true ∧ u_id v ≠ u_id u.
Proof.
  unfold enabled_admin_count. destruct (List.filter _ _) as [|v l] eqn:Hf; [done|]. intros _.
  assert (v ∈ v :: l) as Hv by left. rewrite <-Hf in Hv. apply elem_of_filterb in Hv as [Hv [Ha Hne]%andb_true_iff].
  exists v. split_and!; [done..|]. apply negb_true_iff, bool_decide_eq_false in Hne. congruence.
Qed.

Lemma enabled_admin_own u : bool_decide (u_role u = ADMIN) && negb (u_disabled u) = enabled_admin (u_tenant_id u) u.
Proof. unfold enabled_admin. by rewrite Z.eqb_refl, andb_true_r. Qed.

Lemma enabled_admin_tenant t u : enabled_admin t u = true → t = u_tenant_id u.
Proof. unfold enabled_admin. intros [_ H]%andb_true_iff. lia. Qed.

(** *** Rows of other tenants *)

Definition isolated (tenant : uuid) (db db' : acct_db) : Prop :=
  ∀ u, u_tenant_id u ≠ tenant → u ∈ ac_users db ↔ u ∈ ac_users db'.

Lemma isolated_put t u0 u db :
  acct_wf db → u0 ∈ ac_users db → u_id u = u_id u0 → u_tenant_id u0 = t → u_tenant_id u = t → isolated t db (put_user u db).
Proof.
  intros Hwf H0 Hid Ht0 Ht v Hv. split; intros Hin.
  - apply put_user_other; [done|]. intros He. apply Hv. rewrite <-Ht0. f_equal.
    apply (NoDup_key_inj u_id (ac_users db)); [apply Hwf|done..|congruence].
  - apply put_user_elem in Hin as [[-> _]|[Hin _]]; done.
Qed.

Lemma isolated_cascade t u0 db :
  acct_wf db → u0 ∈ ac_users db → u_tenant_id u0 = t → isolated t db (cascade_user (u_id u0) db).
Proof.
  intros Hwf H0 Ht v Hv. cbn. rewrite elem_of_filterb. split; [|by intros []]. intros Hin. split; [done|].
  apply negb_true_iff, Z.eqb_neq. intros He. apply Hv. rewrite <-Ht. f_equal.
  apply (NoDup_key_inj u_id (ac_users db)); [apply Hwf|done..].
Qed.

(** *** Rows of the audit log *)

(** Each row stays, with its tenant. *)
Definition log_kept (db db' : acct_db) : Prop :=
  ∀ r, r ∈ log (ac_audit db) → ∃ r', r' ∈ log (ac_audit db') ∧ tenant_id r' = tenant_id r.

Lemma log_kept_trans db1 db2 db3 : log_kept db1 db2 → log_kept db2 db3 → log_kept db1 db3.
Proof. intros H1 H2 r (r2 & Hr2 & Hk2)%H1. apply H2 in Hr2 as (r3 & Hr3 & Hk3). exists r3. split; [done|congruence]. Qed.

Lemma log_kept_audited E actor act rt rid p ip t db db' :
  ac_audit db' = ac_audit db → log_kept db (acct_audited E actor act rt rid p ip t db').
Proof. intros He r Hr. exists r. split; [|done]. cbn. rewrite He. apply elem_of_app. by left. Qed.

Lemma log_kept_same db db' : ac_audit db' = ac_audit db → log_kept db db'.
Proof. intros He r Hr. exists r. by rewrite He. Qed.

Lemma log_kept_cascade id db : log_kept db (cascade_user id db).
Proof. intros r Hr. eexists. split; [by apply list_elem_of_fmap_2|done]. Qed.

Ltac users_same := split; [done|first [by apply log_kept_audited|by apply log_kept_same]].

Section admins.
Context (E : env) (H : hasher).

Lemma update_user_admin t id role disabled password actor db db' u :
  acct_wf db → update_user E H id role disabled password actor db = Ok (db', u) → has_admin t db → has_admin t db'.
Proof.
  intros Hwf Hc (a & Ha & Hadm). unfold update_user in Hc. destruct (negb (is_admin actor)); [done|]. destruct (negb (opt_ok _ _)); [done|].
  apply res_bind_ok in Hc as (u0 & (Hin & _)%user_in_tenant_ok & Hc). cbv zeta in Hc.
  set (nonadmin := match role with Some r => negb (bool_decide (r = ADMIN)) | None => false end) in Hc.
  set (disabling := bool_decide (disabled = Some true)) in Hc.
  destruct (bool_decide (u_role u0 = ADMIN) && negb (u_disabled u0) && (nonadmin || disabling) && _) eqn:Hg; [done|].
  injection Hc as <- <-. set (u' := with_access _ _ _ u0).
  destruct (decide (u_id a = u_id u0)) as [He|Hne]; [|exists a; split; [by apply put_user_other|done]].
  assert (a = u0) as -> by (apply (NoDup_key_inj u_id (ac_users db)); [apply Hwf|done..]).
  pose proof (enabled_admin_tenant _ _ Hadm) as ->. rewrite enabled_admin_own, Hadm in Hg. cbn [andb] in Hg.
  destruct (nonadmin || disabling) eqn:Hnd; cbn [andb] in Hg.
  - apply Z.eqb_neq, another_admin in Hg as (v & Hv & Hva & Hvne). exists v. split; [by apply put_user_other|done].
  - exists u'. split; [by apply (put_user_in _ u0)|]. rewrite <-enabled_admin_own in Hadm.
    apply andb_true_iff in Hadm as [Hr%bool_decide_eq_true Hd%negb_true_iff]. apply orb_false_iff in Hnd as [Hn Hdis].
    unfold enabled_admin. cbn. rewrite Z.eqb_refl, andb_true_r. apply andb_true_iff. split.
    + apply bool_decide_eq_true. destruct role as [r|]; [|done]. by apply negb_false_iff, bool_decide_eq_true in Hn.
    + destruct disabled as [[]|]; cbn; [done|done|by rewrite Hd].
Qed.

Lemma cascade_other u id db : u ∈ ac_users db → u_id u ≠ id → u ∈ ac_users (cascade_user id db).
Proof. intros Hu Hne. apply elem_of_filterb. split; [done|]. by apply negb_true_iff, Z.eqb_neq. Qed.

Lemma delete_user_users id actor db db' :
  delete_user E id actor db = Ok db' → ac_users db' = List.filter (λ u, negb (u_id u =? id)) (ac_users db).
Proof.
  unfold delete_user. destruct (negb (is_admin actor)); [done|]. intros (u0 & _ & Hc)%res_bind_ok.
  destruct (_ && _ && _); [done|]. cbv zeta in Hc. destruct (env_audit_key E); [destruct (_ =? _); [done|]|]; by injection Hc as <-.
Qed.

(** While the audit log is chained, nobody deletes their own account. *)
Lemma self_deletion_fails k actor db db' :
  env_audit_key E = Some k → delete_user E (actor_user_id actor) actor db ≠ Ok db'.
Proof.
  intros Hk. unfold delete_user. destruct (negb (is_admin actor)); [done|]. intros (u0 & _ & Hc)%res_bind_ok.
  destruct (_ && _ && _); [done|]. cbv zeta in Hc. by rewrite Hk, Z.eqb_refl in Hc.
Qed.

Lemma delete_user_admin t id actor db db' :
  acct_wf db → delete_user E id actor db = Ok db' → has_admin t db → has_admin t db'.
Proof.
  intros Hwf Hc (a & Ha & Hadm). pose proof (delete_user_users _ _ _ _ Hc) as Hus.
  assert (∀ v, v ∈ ac_users db → u_id v ≠ id → v ∈ ac_users db') as Hkeep.
  { intros v Hv Hne. rewrite Hus. apply elem_of_filterb. split; [done|]. by apply negb_true_iff, Z.eqb_neq. }
  destruct (decide (u_id a = id)) as [<-|Hne]; [|exists a; auto]. unfold delete_user in Hc. destruct (negb (is_admin actor)); [done|].
  apply res_bind_ok in Hc as (u0 & (Hin & Hid & _)%user_in_tenant_ok & Hc).
  assert (u0 = a) as -> by (apply (NoDup_key_inj u_id (ac_users db)); [apply Hwf|done..]).
  pose proof (enabled_admin_tenant _ _ Hadm) as ->. rewrite enabled_admin_own, Hadm in Hc. cbn [andb] in Hc.
  destruct (Z.eqb_spec (enabled_admin_count (u_tenant_id a) (Some (u_id a)) db) 0) as [|Hg]; [done|].
  apply another_admin in Hg as (v & Hv & Hva & Hvne). exists v. auto.
Qed.

(** The routes of tokens, groups and tenants leave the users alone. *)
Lemma account_route_users op actor db db' :
  account_route E H op actor db = Ok db' →
  match op with
  | CreateUser _ _ _ | UpdateUser _ _ _ _ | AdminDisable2fa _ | DeleteUser _ => True
  | _ => ac_users db' = ac_users db ∧ log_kept db db'
  end.
Proof.
  destruct op; cbn [account_route]; try done; try intros ([db1 x] & Hr & ->)%res_fmap_ok; try intros Hr; cbn [fst].
  - unfold replace_user_groups in Hr. destruct (negb _); [done|]. apply res_bind_ok in Hr as (u0 & _ & [= <- _]). users_same.
  - unfold create_token in Hr. apply res_bind_ok in Hr as (_ & _ & Hr). destruct (negb _); [done|].
    destruct (negb (tenant_exists _ _)); [done|]. injection Hr as <- _. users_same.
  - unfold revoke_token in Hr. destruct (find_api_token _ _); [|done]. destruct (negb _); [done|]. destruct (_ && _); [done|].
    injection Hr as <-. users_same.
  - unfold create_scim_token in Hr. destruct (negb _); [done|]. destruct (negb _); [done|].
    destruct (negb (tenant_exists _ _)); [done|]. destruct (existsb _ _); [done|].
    injection Hr as <- _. users_same.
  - unfold disable_scim_token in Hr. destruct (negb _); [done|]. apply res_bind_ok in Hr as (t0 & _ & Hr).
    destruct (st_disabled t0); [done|]. injection Hr as <-. users_same.
  - unfold delete_scim_token in Hr. destruct (negb _); [done|]. apply res_bind_ok in Hr as (t0 & _ & [= <-]). users_same.
  - unfold create_tenant in Hr. apply res_bind_ok in Hr as (_ & _ & (s & _ & Hr)%res_bind_ok). destruct (negb _); [done|].
    destruct (existsb _ _); [done|]. injection Hr as <- _. users_same.
  - unfold update_tenant in Hr. apply res_bind_ok in Hr as (_ & _ & Hr). destruct (negb _); [done|].
    apply res_bind_ok in Hr as (t0 & _ & Hr). cbv zeta in Hr. destruct (_ && _ && _); [done|].
    destruct (_ ++ _); injection Hr as <- _; users_same.
  - unfold delete_tenant in Hr. apply res_bind_ok in Hr as (_ & _ & Hr). destruct (_ =? _); [done|].
    apply res_bind_ok in Hr as (t0 & _ & Hr). cbv zeta in Hr. destruct (negb _ || negb _); [done|]. destruct (_ || _); [done|].
    injection Hr as <-. users_same.
Qed.

(** The routes of a user's row: one row of the tenant is written, appended or removed. *)
Lemma user_route_row op actor db db' :
  account_route E H op actor db = Ok db' →
  match op with
  | CreateUser _ _ _ => ∃ u, u_tenant_id u = actor_tenant_id actor ∧ ac_users db' = ac_users db ++ [u]
  | UpdateUser _ _ _ _ =>
      ∃ u0 r d h, u0 ∈ ac_users db ∧ u_tenant_id u0 = actor_tenant_id actor ∧ ac_users db' = ac_users (put_user (with_access r d h u0) db)
  | AdminDisable2fa _ =>
      ∃ u0, u0 ∈ ac_users db ∧ u_tenant_id u0 = actor_tenant_id actor ∧
        ac_users db' = ac_users (put_user (with_totp false None None None u0) db)
  | DeleteUser id =>
      ∃ u0, u0 ∈ ac_users db ∧ u_id u0 = id ∧ u_tenant_id u0 = actor_tenant_id actor ∧ ac_users db' = ac_users (cascade_user id db)
  | _ => True
  end ∧ log_kept db db'.
Proof.
  intros Hr. pose proof (account_route_users op actor db db' Hr) as Ho.
  destruct op; try (split; [done|apply Ho]); cbn [account_route] in Hr; clear Ho;
    try (apply res_fmap_ok in Hr as ([db1 x] & Hr & ->)); cbn [fst].
  - unfold create_user in Hr. destruct (negb _); [done|]. destruct (negb _); [done|]. cbv zeta in Hr.
    destruct (user_by_email _ _); [done|]. apply res_bind_ok in Hr as (db2 & Hf%flush_users_same & [= <- _]).
    subst db2. split; [by eexists; split; [|reflexivity]|by apply log_kept_audited].
  - unfold update_user in Hr. destruct (negb (is_admin actor)); [done|]. destruct (negb (opt_ok _ _)); [done|].
    apply res_bind_ok in Hr as (u0 & (Hin & _ & Ht)%user_in_tenant_ok & Hr). cbv zeta in Hr. destruct (_ && _ && _ && _); [done|].
    injection Hr as <- <-. split; [by eexists u0, _, _, _|by apply log_kept_audited].
  - unfold admin_disable_2fa in Hr. destruct (negb _); [done|]. apply res_bind_ok in Hr as (u0 & (Hin & _ & Ht)%user_in_tenant_ok & Hr).
    destruct (_ && _); [done|]. injection Hr as <-. split; [by exists u0|by apply log_kept_audited].
  - pose proof (delete_user_users _ _ _ _ Hr) as Hus. unfold delete_user in Hr. destruct (negb (is_admin actor)); [done|].
    apply res_bind_ok in Hr as (u0 & (Hin & Hid & Ht)%user_in_tenant_ok & Hr). destruct (_ && _ && _); [done|]. cbv zeta in Hr.
    split; [by exists u0|]. destruct (env_audit_key E); [destruct (_ =? _); [done|]|]; injection Hr as <-.
    + eapply log_kept_trans; [apply log_kept_cascade|by apply log_kept_audited].
    + eapply log_kept_trans; [|apply log_kept_cascade]. by apply log_kept_audited.
Qed.

(** The other routes leave everybody's access as it is. *)
Lemma account_route_access op actor db db' :
  acct_wf db → account_route E H op actor db = Ok db' →
  match op with UpdateUser _ _ _ _ | DeleteUser _ => True | _ => keeps_access db db' end.
Proof.
  intros Hwf Hr. pose proof (account_route_users op actor db db' Hr) as Ho. apply user_route_row in Hr as [Hu _].
  destruct op; try done; try by apply keeps_access_same, Ho.
  - destruct Hu as (u & _ & Hus). intros v Hv. exists v. rewrite Hus. split; [apply elem_of_app; by left|done].
  - destruct Hu as (u0 & Hu0 & _ & Hus). eapply keeps_access_trans; [|by apply keeps_access_same]. by apply (keeps_access_put db u0).
Qed.

Lemma account_route_admin t op actor db db' :
  acct_wf db → account_route E H op actor db = Ok db' → has_admin t db → has_admin t db'.
Proof.
  intros Hwf Hr. pose proof (account_route_access op actor db db' Hwf Hr) as Hk.
  destruct op; try by apply keeps_access_admin.
  - cbn [account_route] in Hr. apply res_fmap_ok in Hr as ([db1 x] & Hr & ->). by eapply update_user_admin.
  - by eapply delete_user_admin.
Qed.

Lemma account_route_isolated op actor db db' :
  acct_wf db → account_route E H op actor db = Ok db' → isolated (actor_tenant_id actor) db db'.
Proof.
  intros Hwf Hr. pose proof (account_route_users op actor db db' Hr) as Ho. apply user_route_row in Hr as [Hu _].
  destruct op; try (destruct Ho as [Hus _]; intros u _; by rewrite Hus).
  - destruct Hu as (u & Ht & Hus). intros v Hv. rewrite Hus, elem_of_app, list_elem_of_singleton. naive_solver.
  - destruct Hu as (u0 & r & d & h & Hu0 & Ht & Hus). intros v Hv. rewrite Hus. by apply (isolated_put (actor_tenant_id actor) u0).
  - destruct Hu as (u0 & Hu0 & Ht & Hus). intros v Hv. rewrite Hus. by apply (isolated_put (actor_tenant_id actor) u0).
  - destruct Hu as (u0 & Hu0 & <- & Ht & Hus). intros v Hv. rewrite Hus. by apply (isolated_cascade (actor_tenant_id actor)).
Qed.
End admins.
