(* ===== verification/Oidc.v ===== *)
(** * Oidc: the OpenID Connect client

    services/oidc.py: discovery, signing keys and their caches, the exchange of a
    code and the validation of an ID token.  The identity provider behind the HTTP
    client and PyJWT are arguments; the caches are state that survives errors.  The
    texts of the errors, which only the server's log shows, are shortened. *)

From Stdlib Require Import Ascii String.
From S2P Require Import Prelude PyStr PyVal PyJson PyTime Crypto PyText Models Cases.
Local Open Scope string_scope.
Local Open Scope list_scope.
Local Open Scope Z_scope.

Record oidc_settings := mkOidcSettings {
  os_enabled : bool;
  os_issuer_url : str;
  os_client_id : str;
  os_client_secret : str;
  os_redirect_uri : str;
  os_default_role : str
}.

Record DiscoveryDoc := mkDiscovery {
  dd_issuer : str;
  dd_authorization_endpoint : str;
  dd_token_endpoint : str;
  dd_jwks_uri : str;
  dd_userinfo_endpoint : pyval
}.

(** [_discovery_cache] and [_jwks_cache], the second from the address to the keys by
    their [kid]. *)
Record oidc_cache (K : Type) := mkOidcCache {
  oc_discovery : gmap str DiscoveryDoc;
  oc_jwks : gmap str (gmap str K)
}.
Arguments mkOidcCache {K} _ _.
Arguments oc_discovery {K} _.
Arguments oc_jwks {K} _.

(** The provider and PyJWT: [None] is a [PyJWTError].  [jd_decode] verifies the
    signature with the key, the audience, the issuer, the expiry against the clock,
    and that the mandatory claims are present. *)
Record provider (K : Type) := mkProvider {
  pr_get : str → http_answer;
  pr_token : str → list (str * str) → str * str → http_answer;
  pr_from_jwk : dict → option K;
  pr_header : str → option dict;
  pr_decode : K → str → str → datetime → str → option dict
}.
Arguments mkProvider {K} _ _ _ _ _.
Arguments pr_get {K} _ _.
Arguments pr_token {K} _ _ _ _.
Arguments pr_from_jwk {K} _ _.
Arguments pr_header {K} _ _.
Arguments pr_decode {K} _ _ _ _ _ _.

(** [v == s] *)
Definition is_text (s : str) (v : pyval) : bool := match v with PStr x => String.eqb x s | _ => false end.

(** [body[k]] of decoded JSON, as a string. *)
Definition item_str (k : str) (v : pyval) : py str :=
  match v with
  | PDict d =>
      match dict_get k d with
      | None => Err KeyError
      | Some (PStr s) => Ok s
      | Some _ => Err Unmodelled
      end
  | _ => Err TypeError
  end.

(** [client.get], [raise_for_status] and [json]. *)
Definition fetch_json (what : str) (answer : http_answer) : py pyval :=
  match answer with
  | HTTPError text => Err (OidcError (what +:+ " failed: " +:+ text))
  | Raised exc => Err exc
  | Response resp =>
      if (200 <=? rs_status_code resp) && (rs_status_code resp <? 300) then rs_json resp
      else Err (OidcError (what +:+ " failed: status " +:+ str_of_Z (rs_status_code resp)))
  end.

Definition discovery_url (issuer_url : str) : str :=
  rstrip_by (Ascii.eqb "/") issuer_url +:+ "/.well-known/openid-configuration".

Definition parse_discovery (body : pyval) : py DiscoveryDoc :=
  match
    (issuer ← item_str "issuer" body;
     authorization ← item_str "authorization_endpoint" body;
     token ← item_str "token_endpoint" body;
     jwks ← item_str "jwks_uri" body;
     Ok (mkDiscovery issuer authorization token jwks (match body with PDict d => get_none "userinfo_endpoint" d | _ => PNone end)))
  with
  | Err KeyError => Err (OidcError "oidc discovery doc missing required field")
  | r => r
  end.

Section client.
Context {K : Type} (S : oidc_settings) (P : provider K).

Definition get_discovery (c : oidc_cache K) : oidc_cache K * py DiscoveryDoc :=
  let issuer_url := os_issuer_url S in
  if negb (nonempty issuer_url) then (c, Err (OidcError "oidc issuer URL is not configured"))
  else
    match oc_discovery c !! issuer_url with
    | Some doc => (c, Ok doc)
    | None =>
        match fetch_json "oidc discovery" (pr_get P (discovery_url issuer_url)) ≫= parse_discovery with
        | Ok doc => (mkOidcCache (<[issuer_url := doc]> (oc_discovery c)) (oc_jwks c), Ok doc)
        | Err e => (c, Err e)
        end
    end.

Definition key_from_jwk (jwk : dict) : option K :=
  match get_none "kty" jwk with
  | PStr kty => if String.eqb kty "RSA" || String.eqb kty "EC" then pr_from_jwk P jwk else None
  | _ => None
  end.

(** The loop over the entries; one without a [kid] or whose key cannot be built is
    skipped. *)
Fixpoint index_keys (jwks : list pyval) (keys : gmap str K) : py (gmap str K) :=
  match jwks with
  | [] => Ok keys
  | PDict jwk :: rest =>
      index_keys rest
        (match get_none "kid" jwk with
         | PStr kid => if nonempty kid then match key_from_jwk jwk with Some k => <[kid := k]> keys | None => keys end else keys
         | _ => keys
         end)
  | _ :: _ => Err AttributeError
  end.

Definition fetch_jwks (jwks_uri : str) : py (gmap str K) :=
  doc ← fetch_json "jwks fetch" (pr_get P jwks_uri);
  match doc with
  | PDict d =>
      match get_default "keys" d (PList []) with
      | PList l => index_keys l ∅
      | PDict [] | PStr "" => Ok ∅
      | PDict _ | PStr _ => Err AttributeError
      | _ => Err TypeError
      end
  | _ => Err AttributeError
  end.

Definition get_signing_key (jwks_uri kid : str) (c : oidc_cache K) : oidc_cache K * py K :=
  match default ∅ (oc_jwks c !! jwks_uri) !! kid with
  | Some key => (c, Ok key)
  | None =>
      match fetch_jwks jwks_uri with
      | Err e => (c, Err e)
      | Ok fresh =>
          (mkOidcCache (oc_discovery c) (<[jwks_uri := fresh]> (oc_jwks c)),
           of_option (OidcError ("jwks has no key for kid=" +:+ kid)) (fresh !! kid))
      end
  end.

(** [encode("ascii")] of a verifier, which is URL-safe base64. *)
Definition code_challenge_for (code_verifier : str) : str := b64encode_urlsafe (sha256 code_verifier).

Definition exchange_code (code code_verifier : str) (c : oidc_cache K) : oidc_cache K * py pyval :=
  let '(c, discovery) := get_discovery c in
  (c, doc ← discovery;
      match pr_token P (dd_token_endpoint doc)
              [("grant_type", "authorization_code"); ("code", code); ("redirect_uri", os_redirect_uri S);
               ("code_verifier", code_verifier)]
              (os_client_id S, os_client_secret S) with
      | HTTPError text => Err (OidcError ("token exchange failed: " +:+ text))
      | Raised exc => Err exc
      | Response resp =>
          if 400 <=? rs_status_code resp then Err (OidcError ("token endpoint returned " +:+ str_of_Z (rs_status_code resp)))
          else rs_json resp
      end).

Definition validate_id_token (now : datetime) (id_token expected_nonce : str) (c : oidc_cache K) : oidc_cache K * py dict :=
  match oc_discovery c !! os_issuer_url S with
  | None => (c, Err (OidcError "oidc discovery has not been initialised"))
  | Some discovery =>
      match pr_header P id_token with
      | None => (c, Err (OidcError "id_token header parse failed"))
      | Some header =>
          match get_none "kid" header with
          | PStr kid =>
              if negb (nonempty kid) then (c, Err (OidcError "id_token header missing kid"))
              else
                let '(c, key) := get_signing_key (dd_jwks_uri discovery) kid c in
                (c, signing_key ← key;
                    claims ← of_option (OidcError "id_token validation failed")
                               (pr_decode P signing_key (os_client_id S) (dd_issuer discovery) now id_token);
                    if is_text expected_nonce (get_none "nonce" claims) then Ok claims
                    else Err (OidcError "id_token nonce mismatch"))
          | v => (c, Err (if truthy v then Unmodelled else OidcError "id_token header missing kid"))
          end
      end
  end.
End client.
