(* ===== verification/Auth.v ===== *)
(** * Auth: sessions, second factors and the identity of a request

    services/auth.py, services/totp.py, api/auth.py, core/deps.py and the JWTs of
    core/security.py, over the tables of Accounts.  PyJWT, pyotp, Fernet and argon2
    are arguments, and so is what [secrets] draws. *)

From Stdlib Require Import Ascii String SpecFloat Sorted.
From S2P Require Import Prelude PyStr PyVal PyJson PyTime Crypto PyText Models AuditChain RateLimit Rollout Scoping Jobs.
From S2P Require Import Fleet Routing Cases Accounts Oidc.
Local Open Scope string_scope.
Local Open Scope list_scope.
Local Open Scope Z_scope.

(** ** JWTs (core/security.py) *)

Inductive jwt_error := ExpiredSignature | InvalidJwt.

(** PyJWT with the manager's secret: [jwt_decode] verifies the signature and the
    expiry against the clock. *)
Record jwt_lib := mkJwt {
  jwt_encode : dict → str;
  jwt_decode : datetime → str → res jwt_error dict
}.

Record auth_settings := mkAuthSettings {
  as_access_ttl_minutes : Z;
  as_refresh_ttl_days : Z;
  as_debug : bool;
  as_oidc : oidc_settings
}.

Definition MFA_PENDING_TTL_SECONDS : Z := 300.

(** [int(dt.timestamp())] *)
Definition unix (t : datetime) : Z := t / 1000000.

Inductive token_type := ACCESS | REFRESH.
Definition token_type_value (t : token_type) : str := match t with ACCESS => "access" | REFRESH => "refresh" end.

Definition jwt_payload (S : auth_settings) (now : datetime) (u : User) (t : token_type) : dict :=
  let exp := match t with
             | ACCESS => now + as_access_ttl_minutes S * 60 * 1000000
             | REFRESH => now + days (as_refresh_ttl_days S)
             end in
  [("sub", PStr (uuid_str (u_id u))); ("role", PStr (UserRole_value (u_role u))); ("type", PStr (token_type_value t));
   ("iat", PInt (unix now)); ("exp", PInt (unix exp)); ("is_super_admin", PBool (u_is_super_admin u));
   ("tenant_id", PStr (uuid_str (u_tenant_id u)))].

Definition mfa_payload (now : datetime) (sub : uuid) : dict :=
  [("sub", PStr (uuid_str sub)); ("type", PStr "mfa_pending"); ("iat", PInt (unix now));
   ("exp", PInt (unix (now + MFA_PENDING_TTL_SECONDS * 1000000)))].

(** [UUID(decoded["sub"])] *)
Definition sub_of (decoded : dict) : py uuid :=
  match dict_get "sub" decoded with
  | None => Err KeyError
  | Some (PStr s) => of_option ValueError (uuid_of_str s)
  | Some PNone => Err TypeError
  | Some _ => Err AttributeError
  end.

(** ** Second factors (services/totp.py) *)

(** pyotp: whether a code is that of the secret now or one step around it. *)
Definition totp_lib : Type := datetime → str → str → py bool.

Definition encrypt_totp (F : fernet) (secret_b32 : str) : bytes := fernet_encrypt F secret_b32.
Definition decrypt_totp (F : fernet) (blob : bytes) : py str :=
  match fernet_decrypt F blob with
  | None => Err (RuntimeError "stored TOTP secret could not be decrypted; VIGIL_TOTP_ENCRYPTION_KEY may have been rotated without re-enrollment")
  | Some b => if string_forallb (λ c, (code c <? 128)%N) b then Ok b else Err UnicodeDecodeError
  end.

Definition verify_code (T : totp_lib) (now : datetime) (secret_b32 code : str) : py bool :=
  if negb (nonempty code) || negb (isdigit (strip code)) then Ok false else T now secret_b32 (strip code).

(** [str.upper] on U+0000 to U+00FF; two characters leave the range. *)
Definition upper_char (c : ascii) : py str :=
  let n := PyStr.code c in
  if (((97 <=? n) && (n <=? 122)) || ((224 <=? n) && (n <=? 254) && negb (n =? 247)))%N
  then Ok (String (ascii_of_N (n - 32)) "")
  else if (n =? 223)%N then Ok "SS"
  else if ((n =? 181) || (n =? 255))%N then Err Unmodelled
  else Ok (String c "").
Fixpoint upper (s : str) : py str :=
  match s with
  | "" => Ok ""
  | String c s => a ← upper_char c; b ← upper s; Ok (a +:+ b)
  end.

(** The loop over the hashes: every one is verified, the first match counts. *)
Fixpoint match_index (H : hasher) (candidate : str) (hashes : list str) (idx : nat) (found : option nat) : py (option nat) :=
  match hashes with
  | [] => Ok found
  | h :: rest =>
      b ← verify_password H candidate h;
      match_index H candidate rest (S idx) (if (b : bool) && bool_decide (found = None) then Some idx else found)
  end.

Definition consume_recovery_code (H : hasher) (hashed_codes : list str) (candidate : str) : py (option (list str)) :=
  candidate ← upper (strip candidate);
  let candidate := replace_char "-" "" (replace_char " " "" candidate) in
  if negb (nonempty candidate) then Ok None
  else
    found ← match_index H candidate hashed_codes 0 None;
    Ok match found with Some i => Some (take i hashed_codes ++ drop (S i) hashed_codes) | None => None end.

(** ** The throttle of failed logins (api/auth.py) *)

(** What [login] uses of either backend; the Redis one prunes when it is asked. *)
Class Throttle (S : Type) := {
  is_login_blocked : str → float → S → S * bool;
  record_login_failure : str → float → S → S;
  clear_login_failures : str → S → S
}.

Section inmem.
Context (limit window : Z).

Definition fail_cutoff (now : float) : float := fsub now (float_of_Z window).

Definition login_buckets : Type := gmap str (list float).

Definition record_login_failure_inmem (email_key : str) (now : float) (b : login_buckets) : login_buckets * py (bool * Z) :=
  let bucket := popleft_expired (fail_cutoff now) (default [] (b !! email_key)) ++ [now] in
  (<[email_key := bucket]> b,
   if limit <? Z.of_nat (length bucket) then
     match bucket with
     | oldest :: _ => n ← py_int_of_float (fsub (fadd oldest (float_of_Z window)) now); Ok (true, Z.max 1 n)
     | [] => Err IndexError
     end
   else Ok (false, 0)).

Definition is_login_blocked_inmem (email_key : str) (now : float) (b : login_buckets) : bool :=
  match b !! email_key with
  | None => false
  | Some bucket =>
      if bool_decide (bucket = []) || (Z.of_nat (length bucket) <? limit) then false
      else limit <=? Z.of_nat (countb (λ t, fle (fail_cutoff now) t) bucket)
  end.

Definition Throttle_inmem : Throttle login_buckets := {|
  is_login_blocked := λ k now b, (b, is_login_blocked_inmem k now b);
  record_login_failure := λ k now b, (record_login_failure_inmem k now b).1;
  clear_login_failures := λ k b, delete k b
|}.

(** The Redis server: the pipelines of the three operations on a key. *)
Record redis_zset (R : Type) := mkRedisZset {
  rz_prune_count : str → float → R → R * Z;
  rz_prune_add_count : str → float → float → R → R * (Z * option float);
  rz_delete : str → R → R
}.
Arguments rz_prune_count {R} _ _ _ _.
Arguments rz_prune_add_count {R} _ _ _ _ _.
Arguments rz_delete {R} _ _ _.

Definition redis_login_key (email_key : str) : str := "vigil:login_fail:" +:+ email_key.

Definition record_login_failure_redis {R} (Z' : redis_zset R) (email_key : str) (now : float) (r : R) :
    R * py (bool * Z) :=
  let '(r, (count, oldest)) := rz_prune_add_count Z' (redis_login_key email_key) (fail_cutoff now) now r in
  (r, if limit <? count then
        match oldest with
        | Some score => n ← py_int_of_float (fsub (fadd score (float_of_Z window)) now); Ok (true, Z.max 1 n)
        | None => Ok (true, window)
        end
      else Ok (false, 0)).

Definition Throttle_redis {R} (Z' : redis_zset R) : Throttle R := {|
  is_login_blocked := λ k now r,
    let '(r, count) := rz_prune_count Z' (redis_login_key k) (fail_cutoff now) r in (r, limit <=? count);
  record_login_failure := λ k now r, (record_login_failure_redis Z' k now r).1;
  clear_login_failures := λ k r, rz_delete Z' (redis_login_key k) r
|}.
End inmem.

(** ** The identity of a request (core/deps.py) *)

Section identity.
Context (J : jwt_lib) (E : env).

Definition resolve_jwt (token : str) (db : acct_db) : py (User * uuid * bool) :=
  match jwt_decode J (env_now E) token with
  | Err _ => Err (HTTPException 401)
  | Ok payload =>
      if negb (is_text "access" (get_none "type" payload)) then Err (HTTPException 401)
      else
        sub ← sub_of payload;
        match find_user sub db with
        | None => Err (HTTPException 401)
        | Some user =>
            if u_disabled user then Err (HTTPException 401)
            else
              claimed_tenant ←
                match get_none "tenant_id" payload with
                | PStr raw => if nonempty raw then of_option ValueError (uuid_of_str raw) else Ok (u_tenant_id user)
                | v => if truthy v then Err AttributeError else Ok (u_tenant_id user)
                end;
              Ok (user, claimed_tenant, truthy (get_default "is_super_admin" payload (PBool false)))
        end
  end.

Definition used (at_ : datetime) (t : ApiToken) : ApiToken :=
  mkApiToken (at_id t) (at_tenant_id t) (at_user_id t) (at_name t) (at_secret_hash t) (at_scopes t) (Some at_)
    (at_revoked_at t) (at_expires_at t) (at_created_at t).

Definition resolve_api_token (token : str) (db : acct_db) : py (acct_db * Actor) :=
  match parse_api_token token with
  | None => Err (HTTPException 401)
  | Some (token_id, secret) =>
      match find_api_token token_id db with
      | None => Err (HTTPException 401)
      | Some t =>
          if negb (bool_decide (at_revoked_at t = None)) then Err (HTTPException 401)
          else if match at_expires_at t with Some e => e <? env_now E | None => false end then Err (HTTPException 401)
          else if negb (String.eqb (hash_api_token_secret secret) (at_secret_hash t)) then Err (HTTPException 401)
          else
            match find_user (at_user_id t) db with
            | None => Err (HTTPException 401)
            | Some user =>
                if u_disabled user then Err (HTTPException 401)
                else Ok (put_api_token (used (env_now E) t) db,
                         mkActor (u_id user) (u_role user) "api_token" (Some (at_id t)) (at_scopes t) (u_tenant_id user)
                           (u_is_super_admin user))
            end
      end
  end.

(** [cookie]: the value of [vigil_active_tenant_id]. *)
Definition resolve_active_tenant (cookie : option str) (user : User) (is_super_admin : bool) : uuid :=
  if negb is_super_admin then u_tenant_id user
  else
    match cookie with
    | Some raw => if nonempty raw then default (u_tenant_id user) (uuid_of_str raw) else u_tenant_id user
    | None => u_tenant_id user
    end.

(** [authorization.split(" ", 1)[1].strip()] after the test of the scheme. *)
Definition bearer (authorization : option str) : option str :=
  match authorization with
  | Some a => if starts_with "bearer " (lower a) then (λ p, strip p.2) <$> split_first " " a else None
  | None => None
  end.

Definition actor_of_token (cookie : option str) (token : str) (db : acct_db) : py (acct_db * Actor) :=
  if starts_with "edr_" token then resolve_api_token token db
  else
    '(user, claimed_tenant, claimed_super) ← resolve_jwt token db;
    if negb (claimed_tenant =? u_tenant_id user) then Err (HTTPException 401)
    else if negb (Bool.eqb claimed_super (u_is_super_admin user)) then Err (HTTPException 401)
    else Ok (db, mkActor (u_id user) (u_role user) "user" None [] (resolve_active_tenant cookie user (u_is_super_admin user))
                   (u_is_super_admin user)).

Definition current_actor (cookie authorization : option str) (db : acct_db) : py (acct_db * Actor) :=
  match bearer authorization with
  | None => Err (HTTPException 401)
  | Some token => actor_of_token cookie token db
  end.

(** [access_token]: the query parameter, for event sources. *)
Definition current_actor_stream (cookie authorization access_token : option str) (db : acct_db) : py (acct_db * Actor) :=
  let token :=
    match bearer authorization with
    | Some t => if nonempty t then Some t else access_token
    | None => access_token
    end in
  match token with
  | Some t => if nonempty t then actor_of_token cookie t db else Err (HTTPException 401)
  | None => Err (HTTPException 401)
  end.
End identity.

(** ** Sessions (services/auth.py, api/auth.py) *)

(** [authenticate]; the exception names the reason and the user. *)
Definition authenticate (E : env) (H : hasher) (email password : str) (db : acct_db) : py (acct_db * User) :=
  match user_by_email (lower email) db with
  | None => Err (InvalidCredentials "unknown_user" None)
  | Some user =>
      if u_disabled user then Err (InvalidCredentials "disabled_user" (Some (uuid_str (u_id user))))
      else
        good ← verify_password H password (u_password_hash user);
        if negb good then Err (InvalidCredentials "bad_password" (Some (uuid_str (u_id user))))
        else
          rehash ← argon2_needs_rehash H (u_password_hash user);
          let user := with_login (if (rehash : bool) then hash_password H password else u_password_hash user) (env_now E) user in
          Ok (put_user user db, user)
  end.

Record TokenPair := mkPair { access_token : str; refresh_token : str }.
Inductive LoginResponse := MfaRequired (mfa_token : str) | LoggedIn (tokens : TokenPair).

(** A cookie of the path [/api/auth], set or, without a value, deleted. *)
Record cookie := mkCookie { ck_name : str; ck_value : option str; ck_max_age : Z; ck_same_site : str; ck_secure : bool }.

(** The tables, the throttle, the caches of Oidc, and what has been signed with the
    secret, which no code reads. *)
Record auth_world (S K : Type) := mkWorld {
  aw_db : acct_db;
  aw_throttle : S;
  aw_cache : oidc_cache K;
  aw_issued : list dict
}.
Arguments mkWorld {S K} _ _ _ _.
Arguments aw_db {S K} _.
Arguments aw_throttle {S K} _.
Arguments aw_cache {S K} _.
Arguments aw_issued {S K} _.

Section sessions.
Context {Th K : Type} `{!Throttle Th}.
Context (S : auth_settings) (J : jwt_lib) (H : hasher) (F : fernet) (T : totp_lib) (E : env) (window : Z).
(** The clock of the throttle when it is asked and when a failure is recorded, and the
    address of the client. *)
Context (clock later : float) (ip : option str).
Notation world := (auth_world Th K).

Definition set_db (db : acct_db) (w : world) : world := mkWorld db (aw_throttle w) (aw_cache w) (aw_issued w).
Definition set_throttle (t : Th) (w : world) : world := mkWorld (aw_db w) t (aw_cache w) (aw_issued w).
Definition set_cache (c : oidc_cache K) (w : world) : world := mkWorld (aw_db w) (aw_throttle w) c (aw_issued w).

(** [jwt.encode] *)
Definition sign (payload : dict) (w : world) : world * str :=
  (mkWorld (aw_db w) (aw_throttle w) (aw_cache w) (aw_issued w ++ [payload]), jwt_encode J payload).

Definition issue_mfa_pending_jwt (sub : uuid) (w : world) : world * str := sign (mfa_payload (env_now E) sub) w.

Definition issue_token_pair (u : User) (w : world) : world * TokenPair :=
  let '(w, a) := sign (jwt_payload S (env_now E) u ACCESS) w in
  let '(w, r) := sign (jwt_payload S (env_now E) u REFRESH) w in
  (w, mkPair a r).

Definition REFRESH_COOKIE_NAME : str := "vigil_refresh".
Definition refresh_cookie (token : str) : cookie :=
  mkCookie REFRESH_COOKIE_NAME (Some token) (as_refresh_ttl_days S * 24 * 3600) "strict" (negb (as_debug S)).

(** An audit row of the system about a user. *)
Definition user_event (action : str) (rid : option str) (payload : option dict) (ip : option str) (db : acct_db) : acct_db :=
  acct_audited E None action "user" rid payload ip None db.

Definition login (email password : str) (w : world) : world * py (LoginResponse * list cookie) :=
  if negb (text_ok 1 255 email && nonempty password) then (w, Err (HTTPException 422))
  else
    let email_key := lower email in
    let '(t, blocked) := is_login_blocked email_key clock (aw_throttle w) in
    let w := set_throttle t w in
    if blocked then
      (* Written by a session of its own, as after a wrong password. *)
      (set_db (user_event "user.login.throttled" None
                 (Some [("email", PStr email_key); ("window_s", PInt window)]) ip (aw_db w)) w, Err (HTTPException 429))
    else
      match authenticate E H email password (aw_db w) with
      | Err (InvalidCredentials reason uid) =>
          (set_throttle (record_login_failure email_key later (aw_throttle w))
             (set_db (user_event "user.login.failed" uid
                        (Some [("email", PStr email_key); ("reason", PStr reason)]) ip (aw_db w)) w),
           Err (HTTPException 401))
      | Err e => (w, Err e)
      | Ok (db, user) =>
          let w := set_throttle (clear_login_failures email_key (aw_throttle w)) w in
          if u_totp_enabled user then
            let w := set_db (user_event "user.login.password_ok_mfa_required" (Some (uuid_str (u_id user))) None ip db) w in
            let '(w, token) := issue_mfa_pending_jwt (u_id user) w in
            (w, Ok (MfaRequired token, []))
          else
            let w := set_db (user_event "user.login" (Some (uuid_str (u_id user))) None ip db) w in
            let '(w, tokens) := issue_token_pair user w in
            (w, Ok (LoggedIn tokens, [refresh_cookie (refresh_token tokens)]))
      end.

(** [vigil_refresh]: the cookie. *)
Definition refresh (body vigil_refresh : option str) (w : world) : world * py (TokenPair * list cookie) :=
  let token := match body with Some t => if nonempty t then Some t else vigil_refresh | None => vigil_refresh end in
  match token with
  | None | Some "" => (w, Err (HTTPException 401))
  | Some token =>
      match jwt_decode J (env_now E) token with
      | Err _ => (w, Err (HTTPException 401))
      | Ok decoded =>
          if negb (is_text "refresh" (get_none "type" decoded)) then (w, Err (HTTPException 401))
          else
            match sub_of decoded with
            | Err e => (w, Err e)
            | Ok sub =>
                match find_user sub (aw_db w) with
                | None => (w, Err (HTTPException 401))
                | Some user =>
                    if u_disabled user then (w, Err (HTTPException 401))
                    else
                      let '(w, tokens) := issue_token_pair user w in
                      (w, Ok (tokens, [refresh_cookie (refresh_token tokens)]))
                end
            end
      end
  end.

Definition logout : list cookie := [mkCookie REFRESH_COOKIE_NAME None 0 "lax" false].

(** Whether the code was accepted, with the tables a recovery code changes. *)
Definition consume_2fa_code (user : User) (code : str) (db : acct_db) : py (option acct_db) :=
  match u_totp_secret_encrypted user with
  | None => Ok None
  | Some blob =>
      secret ← decrypt_totp F blob;
      good ← verify_code T (env_now E) secret code;
      if (good : bool) then Ok (Some db)
      else
        remaining ← consume_recovery_code H (default [] (u_totp_recovery_codes_hashed user)) code;
        match remaining with
        | None => Ok None
        | Some codes =>
            Ok (Some (user_event "user.2fa.recovery_used" (Some (uuid_str (u_id user)))
                        (Some [("remaining", PInt (Z.of_nat (length codes)))]) None
                        (put_user (with_totp (u_totp_enabled user) (u_totp_secret_encrypted user)
                                     (u_totp_pending_secret_encrypted user) (Some codes) user) db)))
        end
  end.

Definition login_2fa (mfa_token code : str) (w : world) : world * py (TokenPair * list cookie) :=
  if negb (nonempty mfa_token && text_ok 1 32 code) then (w, Err (HTTPException 422))
  else
    match jwt_decode J (env_now E) mfa_token with
    | Err _ => (w, Err (HTTPException 401))
    | Ok decoded =>
        if negb (is_text "mfa_pending" (get_none "type" decoded)) then (w, Err (HTTPException 401))
        else
          match sub_of decoded with
          | Err e => (w, Err e)
          | Ok sub =>
              match find_user sub (aw_db w) with
              | None => (w, Err (HTTPException 401))
              | Some user =>
                  if u_disabled user || negb (u_totp_enabled user) then (w, Err (HTTPException 401))
                  else
                    match consume_2fa_code user code (aw_db w) with
                    | Err e => (w, Err e)
                    | Ok None =>
                        (* The row user.login.2fa_failed is rolled back with the request. *)
                        (set_throttle (record_login_failure (lower (u_email user)) later (aw_throttle w)) w,
                         Err (HTTPException 401))
                    | Ok (Some db) =>
                        let w := set_db (user_event "user.login" (Some (uuid_str (u_id user)))
                                           (Some [("via", PStr "totp")]) ip db) w in
                        let '(w, tokens) := issue_token_pair user w in
                        (w, Ok (tokens, [refresh_cookie (refresh_token tokens)]))
                    end
              end
          end
    end.
End sessions.

(** ** Enrolment of a second factor (api/auth.py) *)

Section enrolment.
Context (H : hasher) (F : fernet) (T : totp_lib) (E : env).

(** [_require_interactive_user]: the row of the session. *)
Definition require_interactive_user (actor : Actor) (db : acct_db) : py User :=
  if negb (String.eqb (actor_auth actor) "user") then Err (HTTPException 401)
  else of_option AssertionError (find_user (actor_user_id actor) db).

(** The audit row of a route is of the actor's active tenant. *)
Definition in_known_tenant (actor : Actor) (db : acct_db) : py unit :=
  if tenant_exists (actor_tenant_id actor) db then Ok tt else Err IntegrityError.

Definition totp_status (actor : Actor) (db : acct_db) : py (bool * bool) :=
  user ← require_interactive_user actor db;
  Ok (u_totp_enabled user,
      negb (bool_decide (u_totp_pending_secret_encrypted user = None)) && negb (u_totp_enabled user)).

(** [secret] is drawn by pyotp; the answer carries it. *)
Definition totp_setup (secret : str) (actor : Actor) (db : acct_db) : py (acct_db * str) :=
  user ← require_interactive_user actor db;
  if u_totp_enabled user then Err (HTTPException 400)
  else
    _ ← in_known_tenant actor db;
    Ok (acct_audited E (Some actor) "user.2fa.setup_started" "user" (Some (uuid_str (u_id user))) None None None
             (put_user (with_totp false (u_totp_secret_encrypted user) (Some (encrypt_totp F secret))
                          (u_totp_recovery_codes_hashed user) user) db), secret).

(** [codes]: the ten codes drawn by [generate_recovery_codes]. *)
Definition totp_verify_setup (codes : list str) (code : str) (actor : Actor) (db : acct_db) : py (acct_db * list str) :=
  if negb (text_ok 6 8 code && string_forallb is_decimal code) then Err (HTTPException 422)
  else
    user ← require_interactive_user actor db;
    if u_totp_enabled user then Err (HTTPException 400)
    else
      match u_totp_pending_secret_encrypted user with
      | None => Err (HTTPException 400)
      | Some blob =>
          pending ← decrypt_totp F blob;
          good ← verify_code T (env_now E) pending code;
          if negb good then Err (HTTPException 400)
          else
            _ ← in_known_tenant actor db;
            Ok (acct_audited E (Some actor) "user.2fa.enabled" "user" (Some (uuid_str (u_id user))) None None None
                     (put_user (with_totp true (Some blob) None (Some (map (hash_password H) codes)) user) db), codes)
      end.

Definition totp_disable (code : str) (actor : Actor) (db : acct_db) : py acct_db :=
  if negb (text_ok 1 32 code) then Err (HTTPException 422)
  else
    user ← require_interactive_user actor db;
    if negb (u_totp_enabled user) then Err (HTTPException 400)
    else
      accepted ← consume_2fa_code H F T E user code db;
      match accepted with
      | None => Err (HTTPException 401)
      | Some db =>
          _ ← in_known_tenant actor db;
          Ok (acct_audited E (Some actor) "user.2fa.disabled" "user" (Some (uuid_str (u_id user))) None None None
                         (put_user (with_totp false None None None user) db))
      end.
End enrolment.

(** ** Single sign-on (api/auth.py) *)

(** [urllib.parse.quote_plus] and [urlencode]. *)
Definition unreserved (c : ascii) : bool :=
  is_alpha_ascii c || is_decimal c || Ascii.eqb c "_" || Ascii.eqb c "." || Ascii.eqb c "-" || Ascii.eqb c "~".
Definition hex_upper (v : N) : ascii := ascii_of_N (if (v <? 10)%N then 48 + v else 55 + v).
Definition quote_byte (c : ascii) : str :=
  if unreserved c then String c ""
  else if Ascii.eqb c " " then "+"
  else String "%" (String (hex_upper (PyStr.code c / 16)) (String (hex_upper (PyStr.code c mod 16)) "")).
Definition quote_plus (s : str) : str := string_flat_map quote_byte (utf8 s).
Definition urlencode (params : list (str * str)) : str :=
  join "&" (map (λ p, quote_plus p.1 +:+ "=" +:+ quote_plus p.2) params).

Definition OIDC_STATE_COOKIE : str := "vigil_oidc_state".
Definition OIDC_STATE_TTL_SECONDS : Z := 300.

Section oidc.
Context {Th K : Type}.
Context (S : auth_settings) (J : jwt_lib) (H : hasher) (E : env) (P : provider K) (ip : option str).
Notation world := (auth_world Th K).

Definition resolve_default_role : UserRole :=
  let name := lower (or_str (os_default_role (as_oidc S)) "viewer") in
  default VIEWER (List.find (λ r, String.eqb (UserRole_value r) name) [ADMIN; ANALYST; VIEWER]).

(** [state], [nonce] and [code_verifier] are drawn; the redirection and its cookie. *)
Definition oidc_authorize (state nonce code_verifier : str) (w : world) : world * py (str * list cookie) :=
  if negb (os_enabled (as_oidc S)) then (w, Err (HTTPException 400))
  else
    let '(c, discovery) := get_discovery (as_oidc S) P (aw_cache w) in
    (set_cache c w,
     doc ← discovery;
     let params :=
       [("response_type", "code"); ("client_id", os_client_id (as_oidc S)); ("redirect_uri", os_redirect_uri (as_oidc S));
        ("scope", "openid email profile"); ("state", state); ("nonce", nonce);
        ("code_challenge", code_challenge_for code_verifier); ("code_challenge_method", "S256")] in
     Ok (dd_authorization_endpoint doc +:+ "?" +:+ urlencode params,
         [mkCookie OIDC_STATE_COOKIE (Some (state +:+ "." +:+ nonce +:+ "." +:+ code_verifier)) OIDC_STATE_TTL_SECONDS "lax"
            (negb (as_debug S))])).

(** [random_password] is drawn by [generate_api_token_secret]. *)
Definition provision_or_match_oidc_user (random_password : str) (claims : dict) (db : acct_db) : py (acct_db * User) :=
  sub ← match dict_get "sub" claims with Some (PStr s) => Ok s | Some _ => Err Unmodelled | None => Err KeyError end;
  issuer ← match py_or (get_none "iss" claims) (PStr (os_issuer_url (as_oidc S))) with PStr s => Ok s | _ => Err Unmodelled end;
  email ← match py_or (get_none "email" claims) (PStr "") with PStr s => Ok (lower s) | _ => Err AttributeError end;
  match List.find (λ u, bool_decide (u_oidc_subject u = Some sub)) (ac_users db) with
  | Some user =>
      let user := if nonempty email && negb (bool_decide (u_oidc_email user = Some email))
                  then with_oidc (u_oidc_subject user) (u_oidc_issuer user) (Some email) user else user in
      db ← flush_users (put_user user db); Ok (db, user)
  | None =>
      match (if nonempty email then user_by_email email db else None) with
      | Some existing =>
          let user := with_oidc (Some sub) (Some issuer) (Some email) existing in
          db ← flush_users (put_user user db);
          Ok (user_event E "user.oidc_link" (Some (uuid_str (u_id user)))
                (Some [("issuer", PStr issuer); ("email", PStr email)]) ip db, user)
      | None =>
          let role := resolve_default_role in
          let user := mkUser (new_user_id E db) DEFAULT_TENANT_ID
                        (or_str email ("oidc-" +:+ take_str 12 sub +:+ "@unknown.local"))
                        (hash_password H random_password) role None false false false None None None
                        (Some sub) (Some issuer) (if nonempty email then Some email else None) None (env_now E) in
          db ← flush_users (set_users (ac_users db ++ [user]) db);
          Ok (user_event E "user.provision" (Some (uuid_str (u_id user)))
                (Some [("issuer", PStr issuer); ("email", PStr email); ("role", PStr (UserRole_value role))]) ip db, user)
      end
  end.

(** A cookie of the state is deleted with every answer but an error. *)
Definition clear_state : cookie := mkCookie OIDC_STATE_COOKIE None 0 "lax" false.

(** The end of the callback, from the claims on; the answer is a redirection. *)
Definition oidc_sign_in (random_password : str) (claims : dict) (w : world) : world * py (str * list cookie) :=
  match provision_or_match_oidc_user random_password claims (aw_db w) with
  | Err e => (w, Err e)
  | Ok (db, user) =>
      if u_disabled user then (w, Err (HTTPException 401))
      else if u_totp_enabled user then
        let w := set_db (user_event E "user.login.oidc_ok_mfa_required" (Some (uuid_str (u_id user)))
                           (Some [("method", PStr "oidc")]) ip db) w in
        let '(w, token) := issue_mfa_pending_jwt J E (u_id user) w in
        (w, Ok ("/login/mfa?token=" +:+ token, [clear_state]))
      else
        let w := set_db (user_event E "user.login" (Some (uuid_str (u_id user))) (Some [("method", PStr "oidc")]) ip db) w in
        let '(w, tokens) := issue_token_pair S J E user w in
        (w, Ok ("/dashboard", [refresh_cookie S (refresh_token tokens); clear_state]))
  end.

(** An [OidcError] is answered as unauthorized. *)
Definition oidc_failed {A} (e : pyexc) : py A := match e with OidcError _ => Err (HTTPException 401) | e => Err e end.

Definition oidc_callback (random_password : str) (code state vigil_oidc_state : option str) (w : world) :
    world * py (str * list cookie) :=
  if negb (os_enabled (as_oidc S)) then (w, Err (HTTPException 400))
  else
    match code, state with
    | Some code, Some state =>
        if negb (nonempty code && nonempty state) then (w, Err (HTTPException 400))
        else if negb (nonempty (default "" vigil_oidc_state)) then (w, Err (HTTPException 401))
        else
          match split_on "." (default "" vigil_oidc_state) with
          | [cookie_state; cookie_nonce; code_verifier] =>
              if negb (String.eqb state cookie_state) then (w, Err (HTTPException 401))
              else
                let '(c, token_resp) := exchange_code (as_oidc S) P code code_verifier (aw_cache w) in
                let w := set_cache c w in
                match token_resp with
                | Err e => (w, oidc_failed e)
                | Ok (PDict d) =>
                    match get_none "id_token" d with
                    | PStr id_token =>
                        if negb (nonempty id_token) then (w, Err (HTTPException 401))
                        else
                          let '(c, claims) := validate_id_token (as_oidc S) P (env_now E) id_token cookie_nonce (aw_cache w) in
                          let w := set_cache c w in
                          match claims with
                          | Err e => (w, oidc_failed e)
                          | Ok claims => oidc_sign_in random_password claims w
                          end
                    | _ => (w, Err (HTTPException 401))
                    end
                | Ok _ => (w, Err AttributeError)
                end
          | _ => (w, Err (HTTPException 401))
          end
    | _, _ => (w, Err (HTTPException 400))
    end.
End oidc.

(** ** Who a request acts for *)

(** The row behind an actor: an enabled user with the actor's role and privileges,
    and either a session, pinned to the user's own tenant unless the user administers
    all of them, or a token of that user that is neither revoked nor expired. *)
Definition actor_backed (now : datetime) (db : acct_db) (a : Actor) : Prop :=
  ∃ u, u ∈ ac_users db ∧ u_disabled u = false ∧ actor_user_id a = u_id u ∧ actor_role a = u_role u ∧
    actor_is_super_admin a = u_is_super_admin u ∧
    ((actor_auth a = "user" ∧ actor_token_id a = None ∧ actor_scopes a = [] ∧
      (u_is_super_admin u = false → actor_tenant_id a = u_tenant_id u)) ∨
     (actor_auth a = "api_token" ∧ actor_tenant_id a = u_tenant_id u ∧
      ∃ t, t ∈ ac_api_tokens db ∧ actor_token_id a = Some (at_id t) ∧ actor_scopes a = at_scopes t ∧
        at_user_id t = u_id u ∧ at_revoked_at t = None ∧ (∀ e, at_expires_at t = Some e → now ≤ e))).

(** What the resolution of an actor may write: when a token was last used. *)
Definition touched (db db' : acct_db) : Prop :=
  ac_users db' = ac_users db ∧ ac_tenants db' = ac_tenants db ∧ ac_audit db' = ac_audit db ∧ ac_scim_tokens db' = ac_scim_tokens db ∧
  ac_scope db' = ac_scope db ∧ map at_id (ac_api_tokens db') = map at_id (ac_api_tokens db).

Section identity_facts.
Context (J : jwt_lib) (E : env).

Lemma resolve_jwt_ok token db u ten sup :
  resolve_jwt J E token db = Ok (u, ten, sup) →
  ∃ p, jwt_decode J (env_now E) token = Ok p ∧ is_text "access" (get_none "type" p) = true ∧ sub_of p = Ok (u_id u) ∧
    u ∈ ac_users db ∧ u_disabled u = false.
Proof.
  unfold resolve_jwt. destruct (jwt_decode _ _ _) as [p|]; [|done]. destruct (is_text _ _) eqn:Hty; [|done]. cbn [negb].
  intros (sub & Hsub & Hr)%res_bind_ok. destruct (find_user sub db) as [v|] eqn:Hf; [|done].
  destruct (u_disabled v) eqn:Hd; [done|]. apply res_bind_ok in Hr as (c & _ & [= <- <- <-]).
  apply find_user_elem in Hf as [Hin <-]. by exists p.
Qed.

Lemma used_ids db t : map at_id (ac_api_tokens (put_api_token (used (env_now E) t) db)) = map at_id (ac_api_tokens db).
Proof. cbn. rewrite map_map. apply map_ext. intros x. by destruct (Z.eqb_spec (at_id x) (at_id t)). Qed.

Lemma resolve_api_token_ok token db db' a :
  resolve_api_token E token db = Ok (db', a) →
  ∃ id secret t u, parse_api_token token = Some (id, secret) ∧ t ∈ ac_api_tokens db ∧ at_id t = id ∧
    hash_api_token_secret secret = at_secret_hash t ∧ at_revoked_at t = None ∧ (∀ e, at_expires_at t = Some e → env_now E ≤ e) ∧
    u ∈ ac_users db ∧ u_id u = at_user_id t ∧ u_disabled u = false ∧ db' = put_api_token (used (env_now E) t) db ∧
    a = mkActor (u_id u) (u_role u) "api_token" (Some (at_id t)) (at_scopes t) (u_tenant_id u) (u_is_super_admin u).
Proof.
  unfold resolve_api_token. destruct (parse_api_token token) as [[id secret]|]; [|done].
  destruct (find_api_token id db) as [t|] eqn:Hft; [|done]. apply find_api_token_elem in Hft as [Ht Hid].
  destruct (bool_decide_reflect (at_revoked_at t = None)) as [Hrev|]; [|done]. cbn [negb].
  destruct (match at_expires_at t with Some e => e <? env_now E | None => false end) eqn:Hexp; [done|].
  destruct (String.eqb_spec (hash_api_token_secret secret) (at_secret_hash t)) as [Hh|]; [|done]. cbn [negb].
  destruct (find_user (at_user_id t) db) as [u|] eqn:Hfu; [|done]. apply find_user_elem in Hfu as [Hu Huid].
  destruct (u_disabled u) eqn:Hd; [done|]. intros [= <- <-]. exists id, secret, t, u. split_and!; try done.
  intros e He. rewrite He in Hexp. lia.
Qed.

Lemma actor_of_token_backed ck token db db' a :
  actor_of_token J E ck token db = Ok (db', a) → actor_backed (env_now E) db a ∧ touched db db'.
Proof.
  unfold actor_of_token. destruct (starts_with _ _).
  - intros (id & secret & t & u & _ & Ht & _ & _ & Hrev & Hexp & Hu & Huid & Hd & -> & ->)%resolve_api_token_ok. split.
    + exists u. split_and!; try done. right. split_and!; try done. exists t. by split_and!.
    + split_and!; try done. apply used_ids.
  - intros ([[u ten] sup] & (p & _ & _ & _ & Hu & Hd)%resolve_jwt_ok & Hr)%res_bind_ok.
    destruct (negb (ten =? _)); [done|]. destruct (negb (Bool.eqb _ _)); [done|]. injection Hr as <- <-. split; [|done].
    exists u. split_and!; try done. left. split_and!; try done. cbn. unfold resolve_active_tenant. by intros ->.
Qed.


Lemma current_actor_touched ck authorization db db' a :
  current_actor J E ck authorization db = Ok (db', a) → touched db db'.
Proof. unfold current_actor. destruct (bearer authorization) as [token|]; [|done]. apply actor_of_token_backed. Qed.

Lemma current_actor_wf ck authorization db db' a :
  acct_wf db → current_actor J E ck authorization db = Ok (db', a) →
  acct_wf db' ∧ ac_users db' = ac_users db ∧ actor_user_id a ∈ map u_id (ac_users db').
Proof.
  unfold current_actor. destruct (bearer authorization) as [token|]; [|done]. intros Hwf Hr.
  pose proof (actor_of_token_backed _ _ _ _ _ Hr) as [(u & Hu & _ & Hid & _) (Hus & _)]. split_and!; [|done|].
  - unfold actor_of_token in Hr. destruct (starts_with _ _).
    + apply resolve_api_token_ok in Hr as (? & ? & t & ? & _ & Ht & _ & _ & _ & _ & _ & _ & _ & -> & _).
      by apply (wf_put_token _ t).
    + apply res_bind_ok in Hr as ([[v ten] sup] & _ & Hr).
      destruct (negb (ten =? _)); [done|]. destruct (negb (Bool.eqb _ _)); [done|]. by injection Hr as <- _.
  - rewrite Hus, Hid. by apply list_elem_of_fmap_2.
Qed.

(** A disabled user passes nowhere. *)
Lemma disabled_never_acts ck authorization db db' a u :
  acct_wf db → u ∈ ac_users db → u_disabled u = true →
  current_actor J E ck authorization db = Ok (db', a) → actor_user_id a ≠ u_id u.
Proof.
  unfold current_actor. destruct (bearer authorization) as [token|]; [|done].
  intros Hwf Hu Hd [(v & Hv & Hdv & Hid & _) _]%actor_of_token_backed. rewrite Hid. intros He.
  assert (v = u) as -> by (apply (NoDup_key_inj u_id (ac_users db)); [apply Hwf|done..]). congruence.
Qed.
End identity_facts.

(** ** What a second factor protects *)

(** A payload that opens or renews a session of the user. *)
Definition session_for (uid : uuid) (p : dict) : Prop :=
  (is_text "access" (get_none "type" p) = true ∨ is_text "refresh" (get_none "type" p) = true) ∧ sub_of p = Ok uid.

Lemma sub_of_jwt S now u t : uuid_ok (u_id u) → sub_of (jwt_payload S now u t) = Ok (u_id u).
Proof. intros Hok. unfold sub_of, jwt_payload. cbn. by rewrite uuid_of_str_uuid_str. Qed.

Lemma session_for_jwt S now u t uid : uuid_ok (u_id u) → session_for uid (jwt_payload S now u t) → uid = u_id u.
Proof. intros Hok [_ Hs]. rewrite sub_of_jwt in Hs by done. congruence. Qed.

Lemma session_for_mfa now sub uid : ¬ session_for uid (mfa_payload now sub).
Proof. by intros [[H|H] _]. Qed.

(** The user is in the table, with a second factor. *)
Definition factor_on (uid : uuid) (l : list User) : Prop :=
  uid ∈ map u_id l ∧ ∀ u, u ∈ l → u_id u = uid → u_totp_enabled u = true.

Lemma factor_on_put uid v db :
  factor_on uid (ac_users db) → (u_id v = uid → u_totp_enabled v = true) → factor_on uid (ac_users (put_user v db)).
Proof.
  intros [Hin Hall] Hv. split; [cbn; by rewrite put_user_ids|].
  intros u [[-> _]|[Hu _]]%put_user_elem; eauto.
Qed.

Lemma factor_on_add uid v l : factor_on uid l → u_id v ≠ uid → factor_on uid (l ++ [v]).
Proof.
  intros [Hin Hall] Hv. split; [rewrite map_app; apply elem_of_app; by left|].
  intros u [Hu| ->%list_elem_of_singleton]%elem_of_app; [eauto|done].
Qed.

(** A code the user's secret or one of its recovery codes accepts. *)
Definition valid_factor (H : hasher) (F : fernet) (T : totp_lib) (now : datetime) (u : User) (code : str) : bool :=
  match u_totp_secret_encrypted u with
  | None => false
  | Some blob =>
      match decrypt_totp F blob with
      | Err _ => false
      | Ok secret =>
          match verify_code T now secret code with
          | Ok true => true
          | _ => match consume_recovery_code H (default [] (u_totp_recovery_codes_hashed u)) code with Ok (Some _) => true | _ => false end
          end
      end
  end.

Lemma consume_2fa_ok H F T E u code db db' :
  consume_2fa_code H F T E u code db = Ok (Some db') →
  valid_factor H F T (env_now E) u code = true ∧
  (db' = db ∨ ∃ codes a, db' = set_ac_audit a (put_user (with_totp (u_totp_enabled u) (u_totp_secret_encrypted u)
                                              (u_totp_pending_secret_encrypted u) (Some codes) u) db)) ∧
  log_kept db db'.
Proof.
  unfold consume_2fa_code, valid_factor. destruct (u_totp_secret_encrypted u) as [blob|]; [|done].
  intros (secret & -> & (good & -> & Hc)%res_bind_ok)%res_bind_ok. destruct good.
  - injection Hc as <-. split_and!; [done|by left|by apply log_kept_same].
  - apply res_bind_ok in Hc as ([codes|] & -> & Hc); [|done]. injection Hc as <-. split_and!; [done| |by apply log_kept_audited]. right. eexists codes, _. reflexivity.
Qed.

(** ** The routes as a run *)

Inductive auth_op :=
| OpLogin (email password : str)
| OpRefresh (body vigil_refresh : option str)
| OpLogin2fa (mfa_token code : str)
| OpOidcAuthorize (state nonce code_verifier : str)
| OpOidcCallback (random_password : str) (code state vigil_oidc_state : option str)
| OpTotpSetup (secret : str)
| OpTotpVerifySetup (codes : list str) (code : str)
| OpTotpDisable (code : str).

Record auth_request := mkRequest {
  rq_env : env;
  rq_clock : float;
  rq_later : float;
  rq_ip : option str;
  rq_authorization : option str;
  rq_tenant_cookie : option str;
  rq_op : auth_op
}.

Section runs.
Context {Th K : Type} `{!Throttle Th}.
Context (S : auth_settings) (J : jwt_lib) (H : hasher) (F : fernet) (T : totp_lib) (P : provider K) (window : Z).
Notation world := (auth_world Th K).

(** A route behind [CurrentActor]: an exception leaves the tables as they were. *)
Definition as_actor (rq : auth_request) (route : Actor → acct_db → py acct_db) (w : world) : world :=
  match
    ('(db, actor) ← current_actor J (rq_env rq) (rq_tenant_cookie rq) (rq_authorization rq) (aw_db w); route actor db)
  with
  | Ok db => set_db db w
  | Err _ => w
  end.

Definition do_request (rq : auth_request) (w : world) : world :=
  let E := rq_env rq in
  match rq_op rq with
  | OpLogin email password => (login S J H E window (rq_clock rq) (rq_later rq) (rq_ip rq) email password w).1
  | OpRefresh body ck => (refresh S J E body ck w).1
  | OpLogin2fa token code => (login_2fa S J H F T E (rq_later rq) (rq_ip rq) token code w).1
  | OpOidcAuthorize st nonce verifier => (oidc_authorize S P st nonce verifier w).1
  | OpOidcCallback rnd code st bundle => (oidc_callback S J H E P (rq_ip rq) rnd code st bundle w).1
  | OpTotpSetup secret => as_actor rq (λ a db, '(db, _) ← totp_setup F E secret a db; Ok db) w
  | OpTotpVerifySetup codes code => as_actor rq (λ a db, '(db, _) ← totp_verify_setup H F T E codes code a db; Ok db) w
  | OpTotpDisable code => as_actor rq (totp_disable H F T E code) w
  end.

(** The request submits a code that is valid for the user. *)
Definition proves_factor (uid : uuid) (rq : auth_request) (w : world) : bool :=
  match rq_op rq, find_user uid (aw_db w) with
  | (OpLogin2fa _ code | OpTotpDisable code), Some u => valid_factor H F T (env_now (rq_env rq)) u code
  | _, _ => false
  end.

(** No refresh token is forged, and new ids are new. *)
Definition refresh_tokens (op : auth_op) : list str :=
  match op with OpRefresh body ck => option_list body ++ option_list ck | _ => [] end.
Definition honest (rq : auth_request) (w : world) : Prop :=
  fresh_acct (rq_env rq) (aw_db w) ∧
  ∀ token p, token ∈ refresh_tokens (rq_op rq) → jwt_decode J (env_now (rq_env rq)) token = Ok p → p ∈ aw_issued w.

Fixpoint run_without (uid : uuid) (rqs : list auth_request) (w : world) : Prop :=
  match rqs with
  | [] => True
  | rq :: rest => honest rq w ∧ proves_factor uid rq w = false ∧ run_without uid rest (do_request rq w)
  end.
Definition auth_run (rqs : list auth_request) (w : world) : world := fold_left (λ w rq, do_request rq w) rqs w.

(** *** Each route *)

Lemma authenticate_ok E email password db db' u :
  authenticate E H email password db = Ok (db', u) →
  ∃ u0 hash, u0 ∈ ac_users db ∧ u_disabled u0 = false ∧ u_email u0 = lower email ∧
    verify_password H password (u_password_hash u0) = Ok true ∧ u = with_login hash (env_now E) u0 ∧ db' = put_user u db.
Proof.
  unfold authenticate. destruct (user_by_email _ _) as [u0|] eqn:Hf; [|done].
  apply List.find_some in Hf as [Hin He%String.eqb_eq]. destruct (u_disabled u0) eqn:Hd; [done|].
  intros (good & Hv & Hr)%res_bind_ok. destruct good; [|done]. cbn [negb] in Hr.
  apply res_bind_ok in Hr as (rh & _ & [= <- <-]). exists u0. eexists. split_and!; try done. by apply list_elem_of_In.
Qed.

Lemma require_interactive_ok a db u : require_interactive_user a db = Ok u → u ∈ ac_users db ∧ u_id u = actor_user_id a.
Proof.
  unfold require_interactive_user. destruct (negb _); [done|]. destruct (find_user _ _) as [v|] eqn:Hf; [|done].
  intros [= <-]. by apply find_user_elem.
Qed.

(** What the sign-on of a provider's user does to the tables. *)
Lemma provision_ok E ip rnd claims db db' u :
  provision_or_match_oidc_user S H E ip rnd claims db = Ok (db', u) →
  ∃ db1 a, db' = set_ac_audit a db1 ∧
    ((∃ u0 s i e, u0 ∈ ac_users db ∧ u = with_oidc s i e u0 ∧ flush_users (put_user u db) = Ok db1) ∨
     (u_id u = new_user_id E db ∧ u_totp_enabled u = false ∧ flush_users (set_users (ac_users db ++ [u]) db) = Ok db1)) ∧
    log_kept db db'.
Proof.
  unfold provision_or_match_oidc_user. intros (sub & _ & (iss & _ & (em & _ & Hr)%res_bind_ok)%res_bind_ok)%res_bind_ok.
  assert (∀ d : acct_db, set_ac_audit (ac_audit d) d = d) as Hid by by intros [].
  destruct (List.find _ (ac_users db)) as [u0|] eqn:Hf.
  - apply List.find_some in Hf as [Hin%list_elem_of_In _]. cbv zeta in Hr. apply res_bind_ok in Hr as (db1 & Hfl & [= <- <-]).
    exists db1, (ac_audit db1). rewrite Hid. split; [done|]. split; [left|apply flush_users_same in Hfl as ->; by apply log_kept_same].
    destruct (nonempty em && _); [by exists u0, (u_oidc_subject u0), (u_oidc_issuer u0), (Some em)|].
    exists u0, (u_oidc_subject u0), (u_oidc_issuer u0), (u_oidc_email u0). split_and!; try done. by destruct u0.
  - destruct (if nonempty em then _ else _) as [u0|] eqn:He.
    + destruct (nonempty em); [|done]. apply List.find_some in He as [Hin%list_elem_of_In _]. cbv zeta in Hr.
      apply res_bind_ok in Hr as (db1 & Hfl & [= <- <-]). eexists db1, _. split; [reflexivity|].
      split; [left; by exists u0, (Some sub), (Some iss), (Some em)|]. apply flush_users_same in Hfl as ->. by apply log_kept_audited.
    + cbv zeta in Hr. apply res_bind_ok in Hr as (db1 & Hfl & [= <- <-]). eexists db1, _. split; [reflexivity|]. split; [by right|].
      apply flush_users_same in Hfl as ->. by apply log_kept_audited.
Qed.
End runs.

Section guarded.
Context {Th K : Type} `{!Throttle Th}.
Context (S : auth_settings) (J : jwt_lib) (H : hasher) (F : fernet) (T : totp_lib) (P : provider K) (window : Z).
Notation world := (auth_world Th K).

(** *** Sign-on by a provider *)

Lemma validate_id_token_ok Os E token nonce c c' claims :
  validate_id_token Os P (env_now E) token nonce c = (c', Ok claims) →
  ∃ doc header kid key c0, oc_discovery c !! os_issuer_url Os = Some doc ∧ pr_header P token = Some header ∧
    get_none "kid" header = PStr kid ∧ get_signing_key P (dd_jwks_uri doc) kid c = (c0, Ok key) ∧
    pr_decode P key (os_client_id Os) (dd_issuer doc) (env_now E) token = Some claims ∧
    get_none "nonce" claims = PStr nonce.
Proof.
  unfold validate_id_token. destruct (oc_discovery c !! _) as [doc|]; [|done]. destruct (pr_header P token) as [h|]; [|done].
  destruct (get_none "kid" h) as [| | | |kid| |] eqn:Hk; try done. destruct (negb (nonempty kid)); [done|].
  destruct (get_signing_key P (dd_jwks_uri doc) kid c) as [c0 key] eqn:Hg. intros [= <- Hr].
  apply res_bind_ok in Hr as (k & -> & (cl & Hd & Hr)%res_bind_ok).
  destruct (pr_decode P k _ _ _ _) as [cl'|] eqn:Hdec; [|done]. injection Hd as ->.
  destruct (get_none "nonce" cl) as [| | | |n| |] eqn:Hn; try done. cbn in Hr.
  destruct (String.eqb_spec n nonce) as [->|]; [|done]. injection Hr as <-. by exists doc, h, kid, k, c0.
Qed.

(** A callback that writes to the tables or signs anything has matched the cookie with
    the request, redeemed the code with the verifier of the cookie, and validated an ID
    token that carries the nonce of the cookie. *)
Definition callback_validated (E : env) (code st bundle : option str) (w : world) (claims : dict) : Prop :=
  ∃ c s b nonce verifier c1 d token c2, code = Some c ∧ st = Some s ∧ bundle = Some b ∧ split_on "." b = [s; nonce; verifier] ∧
    exchange_code (as_oidc S) P c verifier (aw_cache w) = (c1, Ok (PDict d)) ∧ get_none "id_token" d = PStr token ∧
    validate_id_token (as_oidc S) P (env_now E) token nonce c1 = (c2, Ok claims).

Definition callback_signs (E : env) (u : User) : list dict :=
  if u_totp_enabled u then [mfa_payload (env_now E) (u_id u)]
  else [jwt_payload S (env_now E) u ACCESS; jwt_payload S (env_now E) u REFRESH].

Lemma oidc_callback_cases E ip rnd code st bundle (w w' : world) r :
  oidc_callback S J H E P ip rnd code st bundle w = (w', r) →
  (aw_db w' = aw_db w ∧ aw_issued w' = aw_issued w ∧ (∀ x, r ≠ Ok x)) ∨
  ∃ claims db u a, callback_validated E code st bundle w claims ∧
    provision_or_match_oidc_user S H E ip rnd claims (aw_db w) = Ok (db, u) ∧ u_disabled u = false ∧
    aw_db w' = set_ac_audit a db ∧ log_kept db (aw_db w') ∧ aw_issued w' = aw_issued w ++ callback_signs E u.
Proof.
  unfold oidc_callback. destruct (negb (os_enabled _)); [intros [= <- <-]; by left|].
  destruct code as [c|]; [|intros [= <- <-]; by left]. destruct st as [s|]; [|intros [= <- <-]; by left].
  destruct (negb (nonempty c && nonempty s)); [intros [= <- <-]; by left|].
  destruct bundle as [b|]; cbn [default]; [|intros [= <- <-]; by left]. unfold id.
  destruct (negb (nonempty b)); [intros [= <- <-]; by left|].
  destruct (split_on "." b) as [|cs [|cn [|cv [|? ?]]]] eqn:Hb; try (intros [= <- <-]; by left).
  destruct (String.eqb_spec s cs) as [<-|]; [|intros [= <- <-]; by left]. cbn [negb].
  destruct (exchange_code _ P c cv (aw_cache w)) as [c1 [v|e]] eqn:Hx; cbv zeta; [|intros [= <- <-]; left; split_and!; [done..|by destruct e]].
  destruct v as [| | | | | |d]; try (intros [= <- <-]; by left).
  destruct (get_none "id_token" d) as [| | | |tok| |] eqn:Hid; try (intros [= <- <-]; by left).
  destruct (negb (nonempty tok)); [intros [= <- <-]; by left|]. cbn [set_cache aw_cache].
  destruct (validate_id_token _ P _ tok cn c1) as [c2 [claims|e]] eqn:Hv; [|intros [= <- <-]; left; split_and!; [done..|by destruct e]].
  unfold oidc_sign_in. cbn [set_cache aw_db aw_issued].
  destruct (provision_or_match_oidc_user S H E ip rnd claims (aw_db w)) as [[db u]|] eqn:Hp; [|intros [= <- <-]; by left].
  destruct (u_disabled u) eqn:Hd; [intros [= <- <-]; by left|]. intros Hr. right.
  exists claims, db, u. unfold callback_signs. destruct (u_totp_enabled u); injection Hr as <- <-.
  - eexists. split_and!; [by exists c, s, b, cn, cv, c1, d, tok, c2|done..|by apply log_kept_audited|done].
  - eexists. split_and!; [by exists c, s, b, cn, cv, c1, d, tok, c2|done..|by apply log_kept_audited|]. cbn. by rewrite <-app_assoc.
Qed.

(** *** The invariant of a run without a valid code *)

Definition guarded (uid : uuid) (w : world) : Prop :=
  acct_wf (aw_db w) ∧ factor_on uid (ac_users (aw_db w)) ∧ ∀ p, p ∈ aw_issued w → ¬ session_for uid p.

Lemma guarded_db uid w db : guarded uid w → acct_wf db → factor_on uid (ac_users db) → guarded uid (set_db db w).
Proof. by intros (_ & _ & Hp) Hwf Hf. Qed.

Lemma guarded_issue uid w w' l :
  guarded uid w → aw_db w' = aw_db w → aw_issued w' = aw_issued w ++ l → (∀ p, p ∈ l → ¬ session_for uid p) → guarded uid w'.
Proof.
  intros (Hwf & Hf & Hp) Hdb Hi Hl. unfold guarded. rewrite Hdb, Hi. split_and!; [done..|].
  intros p [?|?]%elem_of_app; auto.
Qed.

Lemma guarded_pair E uid u w : guarded uid w → uuid_ok (u_id u) → u_id u ≠ uid → guarded uid (issue_token_pair S J E u w).1.
Proof.
  intros Hg Hok Hne.
  apply (guarded_issue _ w _ [jwt_payload S (env_now E) u ACCESS; jwt_payload S (env_now E) u REFRESH]); [done..| |].
  { cbn. by rewrite <-app_assoc. }
  intros p [->|[->|[]%not_elem_of_nil]%elem_of_cons]%elem_of_cons Hs%session_for_jwt; done.
Qed.

Lemma guarded_mfa E uid sub w : guarded uid w → guarded uid (issue_mfa_pending_jwt J E sub w).1.
Proof.
  intros Hg. eapply (guarded_issue _ w _ [_]); [done..|]. intros p ->%list_elem_of_singleton. apply session_for_mfa.
Qed.

(** The user of a row without a factor is another one. *)
Lemma factor_other uid (w : world) u : guarded uid w → u ∈ ac_users (aw_db w) → u_totp_enabled u = false → u_id u ≠ uid.
Proof. intros (_ & [_ Hall] & _) Hu Ht He. rewrite (Hall u Hu He) in Ht. done. Qed.

Lemma guarded_ok uid (w : world) u : guarded uid w → u ∈ ac_users (aw_db w) → uuid_ok (u_id u).
Proof. intros [Hwf _]. apply (wf_user_ids_ok _ Hwf). Qed.

Lemma login_guarded uid E clock later ip email password w :
  guarded uid w → guarded uid (login S J H E window clock later ip email password w).1.
Proof.
  intros Hg. unfold login. destruct (negb _); [done|]. cbv zeta. destruct (is_login_blocked _ _ _) as [t blocked].
  destruct blocked; [apply (guarded_db _ (set_throttle t w)); [done|apply wf_audited, Hg|apply Hg]|].
  destruct (authenticate E H email password _) as [[db u]|e] eqn:Ha.
  - apply authenticate_ok in Ha as (u0 & hash & Hu0 & _ & _ & _ & Hu & ->). subst u. cbn [with_login u_totp_enabled].
    assert (acct_wf (put_user (with_login hash (env_now E) u0) (aw_db w))) as Hwf by (apply (wf_put _ u0); [apply Hg|done..]).
    assert (factor_on uid (ac_users (put_user (with_login hash (env_now E) u0) (aw_db w)))) as Hf.
    { apply factor_on_put; [apply Hg|]. exact (proj2 (proj1 (proj2 Hg)) u0 Hu0). }
    destruct (u_totp_enabled u0) eqn:Ht.
    + apply (guarded_mfa E uid (u_id u0)). apply (guarded_db _ (set_throttle _ w)); [done|by apply wf_audited|done].
    + pose proof (factor_other uid w u0 Hg Hu0 Ht) as Hne.
      apply guarded_pair; [|exact (guarded_ok uid w u0 Hg Hu0)|done]. apply (guarded_db _ (set_throttle _ w)); [done|by apply wf_audited|done].
  - destruct e; try done. apply (guarded_db _ (set_throttle _ w)); [done|apply wf_audited, Hg|apply Hg].
Qed.

Lemma refresh_guarded uid E body ck w :
  guarded uid w →
  (∀ token p, token ∈ refresh_tokens (OpRefresh body ck) → jwt_decode J (env_now E) token = Ok p → p ∈ aw_issued w) →
  guarded uid (refresh S J E body ck w).1.
Proof.
  intros Hg Hh. unfold refresh. set (token := match body with Some t => _ | None => _ end).
  assert (∀ t, token = Some t → t ∈ refresh_tokens (OpRefresh body ck)) as Htok.
  { unfold token, refresh_tokens. destruct body as [b|]; [destruct (nonempty b)|]; destruct ck; intros t [= <-]; set_solver. }
  destruct token as [t|]; [|done]. destruct t as [|c t]; [done|]. specialize (Htok _ eq_refl).
  destruct (jwt_decode J (env_now E) (String c t)) as [p|] eqn:Hdec; [|done]. specialize (Hh _ _ Htok Hdec).
  destruct (is_text "refresh" _) eqn:Hty; [|done]. cbn [negb]. destruct (sub_of p) as [sub|] eqn:Hsub; [|done].
  destruct (find_user sub (aw_db w)) as [u|] eqn:Hf; [|done]. apply find_user_elem in Hf as [Hu <-].
  destruct (u_disabled u); [done|]. apply guarded_pair; [done|exact (guarded_ok uid w u Hg Hu)|]. intros He.
  apply (proj2 (proj2 Hg) p Hh). split; [by right|congruence].
Qed.

Lemma consumed_guarded uid E u code db db' :
  acct_wf db → factor_on uid (ac_users db) → u ∈ ac_users db → consume_2fa_code H F T E u code db = Ok (Some db') →
  acct_wf db' ∧ factor_on uid (ac_users db') ∧ map user_key (ac_users db') = map user_key (ac_users db) ∧
  ∃ u', u' ∈ ac_users db' ∧ user_key u' = user_key u.
Proof.
  intros Hwf Hf Hu (_ & [->|(codes & a & ->)] & _)%consume_2fa_ok; [by eauto 10|]. split_and!.
  - apply wf_audit. by apply (wf_put _ u).
  - apply factor_on_put; [done|]. exact (proj2 Hf u Hu).
  - by apply (put_user_keys db u); [apply Hwf|..].
  - eexists. split; [by eapply put_user_in|done].
Qed.

Lemma login_2fa_guarded uid E clock ip token code w :
  guarded uid w → (∀ u, find_user uid (aw_db w) = Some u → valid_factor H F T (env_now E) u code = false) →
  guarded uid (login_2fa S J H F T E clock ip token code w).1.
Proof.
  intros Hg Hno. unfold login_2fa. destruct (negb _); [done|]. destruct (jwt_decode _ _ _) as [p|]; [|done].
  destruct (negb _); [done|]. destruct (sub_of p) as [sub|]; [|done].
  destruct (find_user sub (aw_db w)) as [u|] eqn:Hf; [|done]. pose proof (find_user_elem _ _ _ Hf) as [Hu Hid].
  destruct (_ || _); [done|]. destruct (consume_2fa_code H F T E u code (aw_db w)) as [[db|]|] eqn:Hc; try done.
  assert (u_id u ≠ uid) as Hne.
  { intros <-. rewrite Hid in Hno. apply consume_2fa_ok in Hc as [Hv _]. by rewrite (Hno u Hf) in Hv. }
  apply guarded_pair; [|exact (guarded_ok uid w u Hg Hu)|done].
  edestruct consumed_guarded as (Hwf' & Hf' & _); [apply Hg|apply (proj1 (proj2 Hg))|exact Hu|exact Hc|].
  apply guarded_db; [done|by apply wf_audited|done].
Qed.

Lemma oidc_guarded uid E ip rnd code st bundle w :
  guarded uid w → fresh_acct E (aw_db w) → guarded uid (oidc_callback S J H E P ip rnd code st bundle w).1.
Proof.
  intros Hg Hfr. destruct (oidc_callback S J H E P ip rnd code st bundle w) as [w' r] eqn:Hc. cbn [fst].
  apply oidc_callback_cases in Hc as [(Hdb & Hi & _)|(claims & db & u & a & _ & Hp & _ & Hdb & _ & Hi)].
  { unfold guarded. by rewrite Hdb, Hi. }
  apply provision_ok in Hp as (db1 & a1 & -> & Hcase & _).
  assert (acct_wf db1 ∧ factor_on uid (ac_users db1) ∧ uuid_ok (u_id u) ∧ (u_totp_enabled u = false → u_id u ≠ uid)) as (Hwf & Hf & Hok & Hne).
  { destruct Hcase as [(u0 & s & i & e & Hu0 & Hu & Hfl)|(Hid & Ht & Hfl)]; pose proof (flush_users_same _ _ Hfl) as Hdb1.
    - split; [by apply (wf_flush_put (aw_db w) u0 u); [apply Hg|done|by subst u|]|]. subst db1 u. split_and!; [|exact (guarded_ok uid w u0 Hg Hu0)|].
      + apply factor_on_put; [apply Hg|]. exact (proj2 (proj1 (proj2 Hg)) u0 Hu0).
      + intros Ht. by apply (factor_other uid w u0).
    - destruct (Hfr (length (ac_users (aw_db w)))) as (Huok & Hnew & _).
      assert (u_id u ≠ uid) as Hne by (intros He; apply Hnew; rewrite <-Hid at 1; rewrite He; apply Hg).
      split; [by eapply wf_flush_add; [apply Hg|exact Hfr|exact Hid|exact Hfl]|]. subst db1.
      split_and!; [by apply factor_on_add; [apply Hg|]|by rewrite Hid|done]. }
  apply (guarded_issue uid (set_db (aw_db w') w) w' (callback_signs E u)); [|done..|].
  - rewrite Hdb. apply guarded_db; [done|by do 2 apply wf_audit|done].
  - unfold callback_signs. destruct (u_totp_enabled u); intros p Hp.
    + apply list_elem_of_singleton in Hp as ->. apply session_for_mfa.
    + specialize (Hne eq_refl). apply elem_of_cons in Hp as [->|[->|[]%not_elem_of_nil]%elem_of_cons]; intros Hs%session_for_jwt; done.
Qed.
End guarded.

Section factor.
Context {Th K : Type} `{!Throttle Th}.
Context (S : auth_settings) (J : jwt_lib) (H : hasher) (F : fernet) (T : totp_lib) (P : provider K) (window : Z).
Notation world := (auth_world Th K).
Notation do_request := (do_request S J H F T P window).

(** A route that writes one row which keeps its keys and its factor. *)
Lemma as_actor_guarded uid rq route (w : world) :
  guarded uid w →
  (∀ a db db', acct_wf db → factor_on uid (ac_users db) → ac_users db = ac_users (aw_db w) → route a db = Ok db' →
     acct_wf db' ∧ factor_on uid (ac_users db')) →
  guarded uid (as_actor J rq route w).
Proof.
  intros Hg Hr. unfold as_actor.
  destruct (current_actor J (rq_env rq) (rq_tenant_cookie rq) (rq_authorization rq) (aw_db w)) as [[db a]|] eqn:Hc; [|done].
  apply current_actor_wf in Hc as (Hwf & Hus & _); [|apply Hg]. cbn [mbind res_bind].
  destruct (route a db) as [db'|] eqn:He; [|done]. destruct (Hr a db db') as [Hwf' Hf']; [done| |done..|by apply guarded_db].
  rewrite Hus. apply Hg.
Qed.

Lemma put_totp_guarded uid E a act u e s p c db :
  acct_wf db → factor_on uid (ac_users db) → u ∈ ac_users db → (u_id u = uid → e = true) →
  acct_wf (acct_audited E a act "user" (Some (uuid_str (u_id u))) None None None (put_user (with_totp e s p c u) db)) ∧
  factor_on uid (ac_users (acct_audited E a act "user" (Some (uuid_str (u_id u))) None None None (put_user (with_totp e s p c u) db))).
Proof. intros Hwf Hf Hu He. split; [by apply wf_audited, (wf_put _ u)|by apply factor_on_put]. Qed.

Lemma totp_setup_guarded uid E secret a db db' r :
  acct_wf db → factor_on uid (ac_users db) → totp_setup F E secret a db = Ok (db', r) → acct_wf db' ∧ factor_on uid (ac_users db').
Proof.
  intros Hwf Hf. unfold totp_setup. intros (u & (Hu & _)%require_interactive_ok & Hr)%res_bind_ok.
  destruct (u_totp_enabled u) eqn:Ht; [done|]. apply res_bind_ok in Hr as (_ & _ & [= <- _]). apply put_totp_guarded; [done..|].
  intros He. by rewrite (proj2 Hf u Hu He) in Ht.
Qed.

Lemma totp_verify_setup_guarded uid E codes code a db db' r :
  acct_wf db → factor_on uid (ac_users db) → totp_verify_setup H F T E codes code a db = Ok (db', r) →
  acct_wf db' ∧ factor_on uid (ac_users db').
Proof.
  intros Hwf Hf. unfold totp_verify_setup. destruct (negb _); [done|].
  intros (u & (Hu & _)%require_interactive_ok & Hr)%res_bind_ok. destruct (u_totp_enabled u); [done|].
  destruct (u_totp_pending_secret_encrypted u) as [blob|]; [|done].
  apply res_bind_ok in Hr as (secret & _ & (good & _ & Hr)%res_bind_ok). destruct good; [|done]. apply res_bind_ok in Hr as (_ & _ & [= <- _]).
  by apply put_totp_guarded.
Qed.

Lemma totp_disable_guarded uid E code a db db' :
  acct_wf db → factor_on uid (ac_users db) →
  (∀ u, find_user uid db = Some u → valid_factor H F T (env_now E) u code = false) →
  totp_disable H F T E code a db = Ok db' → acct_wf db' ∧ factor_on uid (ac_users db').
Proof.
  intros Hwf Hf Hno. unfold totp_disable. destruct (negb _); [done|].
  intros (u & (Hu & _)%require_interactive_ok & Hr)%res_bind_ok. destruct (negb (u_totp_enabled u)); [done|].
  apply res_bind_ok in Hr as ([db1|] & Hc & Hr); [|done]. apply res_bind_ok in Hr as (_ & _ & [= <-]).
  pose proof (consume_2fa_ok _ _ _ _ _ _ _ _ Hc) as [Hv _].
  assert (u_id u ≠ uid) as Hne by (intros He; rewrite (Hno u) in Hv; [done|]; apply find_user_unique; [apply Hwf|done..]).
  edestruct consumed_guarded as (Hwf1 & Hf1 & _ & u' & Hu' & Hk); [exact Hwf|exact Hf|exact Hu|exact Hc|].
  split; [apply wf_audited, (wf_put _ u'); [done..|by rewrite Hk]|by apply factor_on_put].
Qed.

Lemma do_request_guarded uid rq w :
  guarded uid w → honest J rq w → proves_factor H F T uid rq w = false → guarded uid (do_request rq w).
Proof.
  intros Hg [Hfr Hh] Hno. unfold do_request, proves_factor in *. destruct (rq_op rq) as [| |m code| | | | |code].
  - by apply login_guarded.
  - by apply refresh_guarded.
  - apply login_2fa_guarded; [done|]. intros u Hu. by rewrite Hu in Hno.
  - unfold oidc_authorize. destruct (negb _); [done|]. by destruct (get_discovery _ _ _).
  - by apply oidc_guarded.
  - apply as_actor_guarded; [done|]. intros a db db' Hwf Hf _ ([db1 r] & Hr & [= <-])%res_bind_ok. by eapply totp_setup_guarded.
  - apply as_actor_guarded; [done|]. intros a db db' Hwf Hf _ ([db1 r] & Hr & [= <-])%res_bind_ok. by eapply totp_verify_setup_guarded.
  - apply as_actor_guarded; [done|]. intros a db db' Hwf Hf Hus. apply totp_disable_guarded; [done..|].
    unfold find_user in *. rewrite Hus. intros u Hu. by rewrite Hu in Hno.
Qed.

(** C3: a user with a second factor and no session gets none from any sequence of
    requests to the sign-in routes (password login, refresh, code entry, single sign-on,
    enrolment) in which nobody submits a code that is valid for that user at that
    moment and nobody forges a refresh token: no access or refresh token for the user is
    signed, and the factor stays on. Other users' requests may be interleaved at will. *)
Theorem second_factor_required uid rqs w :
  guarded uid w → run_without S J H F T P window uid rqs w → guarded uid (auth_run S J H F T P window rqs w).
Proof.
  revert w. induction rqs as [|rq rqs IH]; intros w Hg; [done|]. intros (Hh & Hno & Hrest).
  apply IH; [|done]. by apply do_request_guarded.
Qed.
End factor.

(** ** What the throttle bounds *)

Section throttle.
Context {K : Type} (limit window : Z).
Context (S : auth_settings) (J : jwt_lib) (H : hasher) (F : fernet) (T : totp_lib) (P : provider K).
Notation world := (auth_world login_buckets K).
#[local] Instance inmem : Throttle login_buckets := Throttle_inmem limit window.
Notation do_request := (do_request S J H F T P window).

(** The answer to a login, if the request is one for the address. *)
Definition login_answer (key : str) (rq : auth_request) (w : world) : option (py (LoginResponse * list cookie)) :=
  match rq_op rq with
  | OpLogin email password =>
      if String.eqb (lower email) key
      then Some (login S J H (rq_env rq) window (rq_clock rq) (rq_later rq) (rq_ip rq) email password w).2 else None
  | _ => None
  end.

(** The times of the passwords that were tried and rejected for an address since a
    login last succeeded for it. *)
Fixpoint rejected (key : str) (rqs : list auth_request) (w : world) (acc : list float) : list float :=
  match rqs with
  | [] => acc
  | rq :: rest =>
      rejected key rest (do_request rq w)
        (match login_answer key rq w with
         | Some (Ok _) => []
         | Some (Err (HTTPException 401)) => acc ++ [rq_later rq]
         | _ => acc
         end)
  end.

(** A clock that does not go back, nor does the start of the window. *)
Definition not_before (t t' : float) : Prop := fle (fail_cutoff window t) (fail_cutoff window t') = true.
Fixpoint clock_ok (t : float) (rqs : list auth_request) : Prop :=
  match rqs with
  | [] => True
  | rq :: rest => not_before t (rq_clock rq) ∧ not_before (rq_clock rq) (rq_later rq) ∧ clock_ok (rq_later rq) rest
  end.
Definition last_clock (t : float) (rqs : list auth_request) : float := fold_left (λ _ rq, rq_later rq) rqs t.

(** argon2 raises exceptions of its own. *)
Definition hasher_raises_own (H : hasher) : Prop :=
  (∀ h p s, argon2_verify H h p ≠ Err (HTTPException s)) ∧ (∀ h s, argon2_needs_rehash H h ≠ Err (HTTPException s)).

Definition recent (c : float) (l : list float) : nat := countb (fle c) l.

Lemma recent_mono c c' l : fle c c' = true → (recent c' l ≤ recent c l)%nat.
Proof. intros Hc. apply countb_mono. intros x _ Hx. by eapply fle_trans. Qed.

Lemma flt_not_fle x y : flt x y = true → fle y x = false.
Proof. destruct (fle y x) eqn:Hf; [|done]. intros Hlt. pose proof (flt_fle_trans _ _ _ Hlt Hf) as Hx. by rewrite flt_irrefl in Hx. Qed.

(** Pruning loses nothing that still counts. *)
Lemma recent_popleft c c' l : fle c c' = true → recent c' (popleft_expired c l) = recent c' l.
Proof.
  intros Hc. destruct (popleft_split c l) as (dead & He & Hd). unfold recent. rewrite He at 2. rewrite countb_app, (countb_none _ dead); [done|].
  eapply Forall_impl; [exact Hd|]. intros h Hh. apply flt_not_fle. exact (flt_fle_trans _ _ _ Hh Hc).
Qed.

Definition bucket (key : str) (w : world) : list float := default [] (aw_throttle w !! key).

(** The bucket holds what counts of the rejected passwords, and these are within the
    limit. *)
Definition throttled (key : str) (t : float) (acc : list float) (w : world) : Prop :=
  (∀ c, fle (fail_cutoff window t) c = true → (recent c acc ≤ recent c (bucket key w))%nat) ∧
  Z.of_nat (recent (fail_cutoff window t) acc) ≤ limit.

Lemma throttled_later key t t' acc w : throttled key t acc w → not_before t t' → throttled key t' acc w.
Proof.
  intros [Ha Hb] Ht. split; [intros c Hc; apply Ha; by eapply fle_trans|].
  pose proof (recent_mono _ _ acc Ht). unfold recent in *. lia.
Qed.

Lemma throttled_same key t acc (w w' : world) : bucket key w' = bucket key w → throttled key t acc w → throttled key t acc w'.
Proof. intros He [Ha Hb]. split; [|done]. by rewrite He. Qed.

Lemma bucket_record key k t (b : login_buckets) :
  default [] (record_login_failure k t b !! key) =
  if String.eqb k key then popleft_expired (fail_cutoff window t) (default [] (b !! key)) ++ [t] else default [] (b !! key).
Proof.
  unfold record_login_failure, inmem, Throttle_inmem, record_login_failure_inmem, login_buckets in *. cbn [fst].
  destruct (String.eqb_spec k key) as [->|Hne]; [rewrite lookup_insert_eq; done|by rewrite lookup_insert_ne by done].
Qed.

(** A failure of any route is recorded. *)
Lemma throttled_record key k t t' acc (w w' : world) :
  throttled key t acc w → not_before t t' → aw_throttle w' = record_login_failure k t' (aw_throttle w) →
  throttled key t' acc w'.
Proof.
  intros Hth Ht Hw. destruct (throttled_later _ _ _ _ _ Hth Ht) as [Ha Hb]. split; [|done].
  intros c Hc. unfold bucket. rewrite Hw, bucket_record. destruct (String.eqb k key); [|by apply Ha].
  unfold recent at 2. rewrite countb_app. change (countb (fle c)) with (recent c) at 1.
  rewrite recent_popleft by done. pose proof (Ha c Hc). unfold recent, bucket in *. lia.
Qed.

(** A rejected password had room before it. *)
Lemma throttled_reject key t t' acc (w w' : world) :
  throttled key t acc w → not_before t t' → (Z.of_nat (recent (fail_cutoff window t) (bucket key w)) < limit) →
  aw_throttle w' = record_login_failure key t' (aw_throttle w) → throttled key t' (acc ++ [t']) w'.
Proof.
  intros Hth Ht Hroom Hw. pose proof (recent_mono _ _ acc Ht) as Hm. destruct Hth as [Ha _]. split.
  - intros c Hc. unfold bucket. rewrite Hw, bucket_record, String.eqb_refl. unfold recent. rewrite !countb_app.
    change (countb (fle c)) with (recent c) at 1 3. rewrite recent_popleft by done.
    assert (fle (fail_cutoff window t) c = true) as Hc' by by eapply fle_trans. pose proof (Ha c Hc'). unfold recent, bucket in *. lia.
  - assert (fle (fail_cutoff window t) (fail_cutoff window t) = true) as Hr.
    { unfold not_before in Ht. revert Ht. generalize (fail_cutoff window t) (fail_cutoff window t'). clear.
      intros x y. float_order_cases. }
    specialize (Ha _ Hr). unfold recent in *. rewrite countb_app, countb_cons, countb_nil.
    destruct (fle (fail_cutoff window t') t'); cbn [Nat.b2n]; lia.
Qed.

(** *** The routes *)

Lemma not_blocked_room key now (b : login_buckets) :
  1 ≤ limit → is_login_blocked_inmem limit window key now b = false →
  Z.of_nat (recent (fail_cutoff window now) (default [] (b !! key))) < limit.
Proof.
  intros Hl. unfold is_login_blocked_inmem, login_buckets in *. destruct (b !! key) as [l|]; cbn [default]; [|intros _; cbn; lia].
  unfold id, recent. pose proof (countb_length (fle (fail_cutoff window now)) l) as Hle.
  destruct (bool_decide_reflect (l = [])) as [->|]; [intros _; cbn; lia|]. cbn [orb].
  destruct (Z.ltb_spec (Z.of_nat (length l)) limit); [lia|]. intros Hc. by apply Z.leb_gt.
Qed.

Lemma authenticate_err E email password db s :
  hasher_raises_own H → authenticate E H email password db ≠ Err (HTTPException s).
Proof.
  intros [Hv Hr]. unfold authenticate. destruct (user_by_email _ _) as [u|]; [|done]. destruct (u_disabled u); [done|].
  specialize (Hv (u_password_hash u) password s). unfold verify_password.
  destruct (argon2_verify H (u_password_hash u) password) as [good|e]; cbn [mbind res_bind]; [|congruence].
  destruct good; [|done]. cbn [negb]. specialize (Hr (u_password_hash u) s).
  by destruct (argon2_needs_rehash H (u_password_hash u)) as [|e]; cbn [mbind res_bind]; [|congruence].
Qed.

Lemma login_throttle E clock later ip email password (w w' : world) r :
  1 ≤ limit → hasher_raises_own H → login S J H E window clock later ip email password w = (w', r) →
  (aw_throttle w' = aw_throttle w ∧ (∀ x, r ≠ Ok x) ∧ r ≠ Err (HTTPException 401)) ∨
  (Z.of_nat (recent (fail_cutoff window clock) (bucket (lower email) w)) < limit ∧
   aw_throttle w' = record_login_failure (lower email) later (aw_throttle w) ∧ r = Err (HTTPException 401)) ∨
  (aw_throttle w' = clear_login_failures (lower email) (aw_throttle w) ∧ ∃ x, r = Ok x).
Proof.
  intros Hl Hh. unfold login. destruct (negb _); [intros [= <- <-]; by left|]. cbv zeta.
  assert (is_login_blocked (lower email) clock (aw_throttle w) =
          (aw_throttle w, is_login_blocked_inmem limit window (lower email) clock (aw_throttle w))) as -> by done.
  destruct (is_login_blocked_inmem _ _ _ _ _) eqn:Hb; [intros [= <- <-]; by left|]. cbn [set_throttle aw_db aw_throttle].
  pose proof (λ s, authenticate_err E email password (aw_db w) s Hh) as Hno.
  destruct (authenticate E H email password (aw_db w)) as [[db u]|e].
  - destruct (u_totp_enabled u); intros [= <- <-]; right; right; split; [done|by eexists..|done|by eexists].
  - assert ((∃ reason uid, e = InvalidCredentials reason uid) ∨ ¬ ∃ reason uid, e = InvalidCredentials reason uid) as [(reason & uid & ->)|Hne].
    { destruct e; (left; by eauto) || (right; by intros (? & ? & ?)). }
    + intros [= <- <-]. right. left. split_and!; [by apply not_blocked_room|done..].
    + intros Hr. assert ((w', r) = (set_throttle (aw_throttle w) w, Err e)) as [= -> ->].
      { rewrite <-Hr. destruct e; try done. destruct Hne. eauto. }
      left. split_and!; [done..|]. intros [= ->]. by apply (Hno 401).
Qed.

Lemma login_2fa_throttle E later ip token code (w w' : world) r :
  login_2fa S J H F T E later ip token code w = (w', r) →
  aw_throttle w' = aw_throttle w ∨ ∃ k, aw_throttle w' = record_login_failure k later (aw_throttle w).
Proof.
  unfold login_2fa. destruct (negb _); [intros [= <- _]; by left|]. destruct (jwt_decode _ _ _) as [p|]; [|intros [= <- _]; by left].
  destruct (negb _); [intros [= <- _]; by left|]. destruct (sub_of p) as [sub|]; [|intros [= <- _]; by left].
  destruct (find_user _ _) as [u|]; [|intros [= <- _]; by left]. destruct (_ || _); [intros [= <- _]; by left|].
  destruct (consume_2fa_code _ _ _ _ _ _ _) as [[db|]|]; intros [= <- _]; [by left| |by left]. right. by eexists.
Qed.

(** The entry of a code is answered alike whatever the throttle holds: it counts the
    wrong codes and refuses none. *)
Lemma codes_not_throttled E later ip token code t (w : world) :
  (login_2fa S J H F T E later ip token code (set_throttle t w)).2 = (login_2fa S J H F T E later ip token code w).2.
Proof.
  unfold login_2fa. cbn [set_throttle aw_db]. destruct (negb _); [done|]. destruct (jwt_decode _ _ _) as [p|]; [|done].
  destruct (negb _); [done|]. destruct (sub_of p) as [sub|]; [|done]. destruct (find_user _ _) as [u|]; [|done].
  destruct (_ || _); [done|]. by destruct (consume_2fa_code _ _ _ _ _ _ _) as [[db|]|].
Qed.

Lemma as_actor_throttle rq route (w : world) : aw_throttle (as_actor J rq route w) = aw_throttle w.
Proof. unfold as_actor. by destruct (_ ≫= _). Qed.

(** Every other route leaves the throttle alone. *)
Lemma other_throttle rq (w : world) :
  match rq_op rq with OpLogin _ _ | OpLogin2fa _ _ => True | _ => aw_throttle (do_request rq w) = aw_throttle w end.
Proof.
  unfold do_request. destruct (rq_op rq) as [|body ck| |st nonce ver|rnd code st bundle| | |]; try done; try apply as_actor_throttle.
  - unfold refresh. destruct (match body with Some _ => _ | None => _ end) as [[|]|]; [done| |done].
    destruct (jwt_decode _ _ _) as [p|]; [|done]. destruct (negb _); [done|]. destruct (sub_of p); [|done].
    destruct (find_user _ _) as [u|]; [|done]. by destruct (u_disabled u).
  - unfold oidc_authorize. destruct (negb _); [done|]. by destruct (get_discovery _ _ _).
  - unfold oidc_callback. destruct (negb _); [done|]. destruct code, st; try done. destruct (negb _); [done|]. destruct (negb _); [done|].
    destruct (split_on _ _) as [|? [|? [|? [|]]]]; try done. destruct (negb _); [done|].
    destruct (exchange_code _ _ _ _ _) as [c1 [v|e]]; [|done]. destruct v as [| | | | | |d]; try done.
    destruct (get_none _ d); try done. destruct (negb _); [done|]. destruct (validate_id_token _ _ _ _ _ _) as [c2 [claims|e]]; [|done].
    unfold oidc_sign_in. destruct (provision_or_match_oidc_user _ _ _ _ _ _ _) as [[db u]|]; [|done].
    destruct (u_disabled u); [done|]. by destruct (u_totp_enabled u).
Qed.

Definition rejected_after (key : str) (rq : auth_request) (w : world) (acc : list float) : list float :=
  match login_answer key rq w with
  | Some (Ok _) => []
  | Some (Err (HTTPException 401)) => acc ++ [rq_later rq]
  | _ => acc
  end.

Lemma rejected_after_other key rq w acc :
  (∀ x, login_answer key rq w ≠ Some (Ok x)) → login_answer key rq w ≠ Some (Err (HTTPException 401)) →
  rejected_after key rq w acc = acc.
Proof.
  unfold rejected_after. destruct (login_answer key rq w) as [[x|e]|]; [intros Hx; by destruct (Hx x)| |done].
  intros _ He. destruct e as [| | | | | | | | | | | | | | | | | | | | | |st| | |]; try done.
  destruct (decide (st = 401)) as [->|Hne]; [done|]. destruct st as [|p|]; try done.
  repeat (destruct p as [p|p|]; try done).
Qed.

Lemma throttled_step key t rq acc w :
  1 ≤ limit → hasher_raises_own H → throttled key t acc w → not_before t (rq_clock rq) → not_before (rq_clock rq) (rq_later rq) →
  throttled key (rq_later rq) (rejected_after key rq w acc) (do_request rq w).
Proof.
  intros Hl Hh Hth Hc Hlater. pose proof (throttled_later _ _ _ _ _ Hth Hc) as Hth1.
  pose proof (other_throttle rq w) as Ho. unfold do_request in *.
  destruct (rq_op rq) as [email password| |token code| | | | |] eqn:Hop.
  1: { destruct (login _ _ _ _ _ _ _ _ email password w) as [w' r] eqn:Hr. cbn [fst].
    assert (login_answer key rq w = if String.eqb (lower email) key then Some r else None) as Ha
      by (unfold login_answer; by rewrite Hop, Hr).
    apply login_throttle in Hr as [(Hw & Hr1 & Hr2)|[(Hroom & Hw & ->)|(Hw & x & ->)]]; [..|done|done].
    - rewrite rejected_after_other by (rewrite Ha; destruct (String.eqb _ _); congruence).
      eapply throttled_same; [|by eapply throttled_later]. unfold bucket. by rewrite Hw.
    - destruct (String.eqb_spec (lower email) key) as [<-|Hne].
      + unfold rejected_after. rewrite Ha. by eapply throttled_reject.
      + rewrite rejected_after_other by (rewrite Ha; done). by eapply throttled_record.
    - destruct (String.eqb_spec (lower email) key) as [<-|Hne].
      + unfold rejected_after. rewrite Ha. split; [|cbn; lia]. intros c _. cbn. lia.
      + rewrite rejected_after_other by (rewrite Ha; done). eapply throttled_same; [|by eapply throttled_later].
        unfold bucket. rewrite Hw. cbn. unfold login_buckets in *. by rewrite lookup_delete_ne. }
  all: rewrite rejected_after_other by (unfold login_answer; rewrite Hop; done).
  2: { destruct (login_2fa _ _ _ _ _ _ _ _ token code w) as [w' r] eqn:Hr. cbn [fst].
    apply login_2fa_throttle in Hr as [Hw|[k Hw]]; [|by eapply throttled_record].
    eapply throttled_same; [|by eapply throttled_later]. unfold bucket. by rewrite Hw. }
  all: eapply throttled_same; [|by eapply throttled_later]; unfold bucket; by rewrite Ho.
Qed.

End throttle.

(** ** API tokens from creation to revocation *)

Lemma uuid_of_str_hex u : uuid_ok u → uuid_of_str (uuid_hex u) = Some u.
Proof.
  intros Hu. unfold uuid_of_str.
  assert (∀ p, (∀ a, is_hex a = true → p a = false) → string_forallb (λ a, negb (p a)) (uuid_hex u) = true) as Hav.
  { intros p Hp. eapply string_forallb_impl; [|apply uuid_hex_chars]. intros a Ha. by rewrite (Hp a Ha). }
  assert (∀ c a, is_hex c = false → is_hex a = true → Ascii.eqb a c = false) as Hne.
  { intros c a Hc Ha. apply negb_true_iff. by apply is_hex_not. }
  assert (∀ o, replace (String "u" o) "" (uuid_hex u) = uuid_hex u) as Hrep.
  { intros o. apply replace_head_absent, (Hav (λ a, Ascii.eqb a "u")). intros a. by apply Hne. }
  rewrite !Hrep, strip_by_absent.
  2:{ apply Hav. intros a Ha. unfold is_brace. by rewrite !Hne. }
  rewrite replace_char_id by (apply (Hav (λ a, Ascii.eqb a "-")); intros a; by apply Hne).
  assert (String.length (uuid_hex u) = 32%nat) as -> by (unfold uuid_hex; by rewrite !append_length, !digits_length).
  rewrite py_int_hex_plain by apply uuid_hex_chars. rewrite uuid_hex_value by done. simpl.
  unfold uuid_ok in Hu. rewrite (proj2 (Z.leb_le _ _)), (proj2 (Z.ltb_lt _ _)) by lia. done.
Qed.

Lemma hex_avoids p u : (∀ a, is_hex a = true → p a = false) → string_forallb (λ a, negb (p a)) (uuid_hex u) = true.
Proof. intros Hp. eapply string_forallb_impl; [|apply uuid_hex_chars]. intros a Ha. by rewrite (Hp a Ha). Qed.

Lemma parse_format_api_token id secret : uuid_ok id → parse_api_token (format_api_token id secret) = Some (id, secret).
Proof.
  intros Hid. unfold parse_api_token, format_api_token, API_TOKEN_PREFIX.
  assert (lacks "_" (uuid_hex id) = true) as Hl.
  { apply (hex_avoids (λ a, Ascii.eqb a "_")). intros a Ha. apply negb_true_iff. by apply is_hex_not. }
  change (starts_with "edr_" ("edr_" +:+ uuid_hex id +:+ "_" +:+ secret)) with true. cbn [negb].
  change (drop_str 4 ("edr_" +:+ uuid_hex id +:+ "_" +:+ secret)) with (uuid_hex id +:+ String "_" secret).
  rewrite split_first_at by done. cbn. by rewrite uuid_of_str_hex.
Qed.

(** The secrets are URL-safe text. *)
Definition no_space (s : str) : bool := string_forallb (λ c, negb (is_space c)) s.

Lemma hex_not_space c : is_hex c = true → is_space c = false.
Proof. by destruct c as [[] [] [] [] [] [] [] []]. Qed.

Lemma bearer_api_token id secret :
  no_space secret = true → bearer (Some ("Bearer " +:+ format_api_token id secret)) = Some (format_api_token id secret).
Proof.
  intros Hs. unfold bearer.
  change (starts_with "bearer " (lower ("Bearer " +:+ format_api_token id secret))) with true. cbn [negb].
  change ("Bearer " +:+ format_api_token id secret) with ("Bearer" +:+ String " " (format_api_token id secret)).
  rewrite split_first_at by done. cbn. f_equal. apply strip_by_absent. unfold format_api_token.
  rewrite !string_forallb_app, (hex_avoids is_space) by apply hex_not_space. unfold no_space in Hs. by rewrite Hs.
Qed.

(** The row of a token behind its text. *)
Lemma current_actor_api J E ck id secret db t u :
  uuid_ok id → no_space secret = true → find_api_token id db = Some t → hash_api_token_secret secret = at_secret_hash t →
  find_user (at_user_id t) db = Some u →
  current_actor J E ck (Some ("Bearer " +:+ format_api_token id secret)) db =
  if bool_decide (at_revoked_at t = None) && negb (match at_expires_at t with Some e => e <? env_now E | None => false end) &&
     negb (u_disabled u)
  then Ok (put_api_token (used (env_now E) t) db,
           mkActor (u_id u) (u_role u) "api_token" (Some (at_id t)) (at_scopes t) (u_tenant_id u) (u_is_super_admin u))
  else Err (HTTPException 401).
Proof.
  intros Hid Hs Ht Hh Hu. unfold current_actor. rewrite bearer_api_token by done. unfold actor_of_token.
  change (starts_with "edr_" (format_api_token id secret)) with true. cbn match. unfold resolve_api_token.
  rewrite parse_format_api_token, Ht by done. destruct (bool_decide _); [|done]. cbn [negb andb].
  destruct (match at_expires_at t with Some _ => _ | None => _ end); [done|]. cbn [negb andb].
  rewrite Hh, String.eqb_refl, Hu. cbn [negb]. by destruct (u_disabled u).
Qed.

Lemma find_api_token_unique id db t :
  NoDup (map at_id (ac_api_tokens db)) → t ∈ ac_api_tokens db → at_id t = id → find_api_token id db = Some t.
Proof.
  intros Hnd Ht Hid. destruct (find_api_token id db) as [v|] eqn:Hf.
  - apply find_api_token_elem in Hf as [Hv He]. f_equal. apply (NoDup_key_inj at_id (ac_api_tokens db)); [done..|congruence].
  - pose proof (find_none _ _ Hf t (proj1 (list_elem_of_In _ _) Ht)) as Hn. cbv beta in Hn. lia.
Qed.


(** ** Recovery codes *)

Lemma match_index_found H c hs idx i r : match_index H c hs idx (Some i) = Ok r → r = Some i.
Proof.
  revert idx. induction hs as [|h hs IH]; intros idx; [by intros [= <-]|]. cbn [match_index].
  intros (b & _ & Hr)%res_bind_ok. rewrite bool_decide_eq_false_2, andb_false_r in Hr by done. by apply IH in Hr.
Qed.

Definition rejects (H : hasher) (c : str) (h : str) : Prop := verify_password H c h = Ok false.

Lemma match_index_none H c hs idx : Forall (rejects H c) hs → match_index H c hs idx None = Ok None.
Proof. intros Hall. revert idx. induction Hall as [|h hs Hh _ IH]; intros idx; [done|]. cbn [match_index]. rewrite Hh. apply IH. Qed.

Lemma match_index_first H c hs idx i :
  match_index H c hs idx None = Ok (Some i) →
  ∃ pre h post, hs = pre ++ h :: post ∧ i = (idx + length pre)%nat ∧ Forall (rejects H c) pre ∧ verify_password H c h = Ok true.
Proof.
  revert idx. induction hs as [|h hs IH]; intros idx; [done|]. cbn [match_index]. intros (b & Hb & Hr)%res_bind_ok.
  destruct b; cbn [andb] in Hr.
  - rewrite bool_decide_eq_true_2 in Hr by done. apply match_index_found in Hr as [= ->]. exists [], h, hs. split_and!; [done|cbn; lia|done..].
  - apply IH in Hr as (pre & h' & post & -> & -> & Hpre & Hh). exists (h :: pre), h', post. split_and!; [done|cbn; lia|by constructor|done].
Qed.

(** An accepted recovery code is used up: the first stored hash that verifies it is
    removed and every other one kept in place, and, when no other stored hash verifies it, the same
    code is not accepted again. *)
Theorem recovery_code_used_up H hashes candidate rest :
  consume_recovery_code H hashes candidate = Ok (Some rest) →
  ∃ c pre h post, hashes = pre ++ h :: post ∧ rest = pre ++ post ∧ verify_password H c h = Ok true ∧ Forall (rejects H c) pre ∧
    (Forall (rejects H c) post → consume_recovery_code H rest candidate = Ok None).
Proof.
  unfold consume_recovery_code. intros (up & Hup & Hr)%res_bind_ok. rewrite Hup. cbv zeta in Hr. cbn [mbind res_bind].
  set (c := replace_char "-" "" (replace_char " " "" up)) in *. destruct (negb (nonempty c)); [done|].
  apply res_bind_ok in Hr as ([i|] & Hm & Hr); [|done]. injection Hr as <-.
  apply match_index_first in Hm as (pre & h & post & -> & -> & Hpre & Hh). exists c, pre, h, post.
  assert (take (0 + length pre) (pre ++ h :: post) ++ drop (S (0 + length pre)) (pre ++ h :: post) = pre ++ post) as Heq.
  { cbn [Nat.add]. rewrite take_app_length. f_equal.
    replace (S (length pre)) with (length (pre ++ [h])) by (rewrite length_app; cbn; lia).
    by rewrite (assoc_L (++) pre [h] post : pre ++ h :: post = (pre ++ [h]) ++ post), drop_app_length. }
  rewrite Heq. split_and!; try done. intros Hpost. by rewrite match_index_none by by apply Forall_app.
Qed.

(** ** Single sign-on belongs to one browser *)

Section sign_on.
Context {Th K : Type} (S : auth_settings) (J : jwt_lib) (H : hasher) (P : provider K).
Notation world := (auth_world Th K).

End sign_on.

(** ** What the sign-in routes leave alone *)

Section quiet.
Context {Th K : Type} `{!Throttle Th}.
Context (S : auth_settings) (J : jwt_lib) (H : hasher) (F : fernet) (T : totp_lib) (P : provider K) (window : Z).
Notation world := (auth_world Th K).

(** The tables stay well formed, everybody keeps their access, and no audit row goes. *)
Definition quiet (db db' : acct_db) : Prop := (acct_wf db → acct_wf db') ∧ keeps_access db db' ∧ log_kept db db'.

Lemma quiet_refl db : quiet db db.
Proof. split_and!; [done|by apply keeps_access_same|by apply log_kept_same]. Qed.
Hint Resolve quiet_refl : core.

Lemma quiet_trans db1 db2 db3 : quiet db1 db2 → quiet db2 db3 → quiet db1 db3.
Proof.
  intros (? & ? & ?) (? & ? & ?). split_and!; [auto|by eapply keeps_access_trans|by eapply log_kept_trans].
Qed.

Lemma quiet_audited E actor act rt rid p ip t db : quiet db (acct_audited E actor act rt rid p ip t db).
Proof. split_and!; [apply wf_audited|by apply keeps_access_same|by apply log_kept_audited]. Qed.

Lemma quiet_put db u0 u :
  acct_wf db → u0 ∈ ac_users db → user_key u = user_key u0 → access_key u = access_key u0 → quiet db (put_user u db).
Proof. intros Hwf Hu Hk Ha. split_and!; [intros _; by apply (wf_put _ u0)|by apply (keeps_access_put _ u0)|by apply log_kept_same]. Qed.

Lemma quiet_consume E u code db db' :
  acct_wf db → u ∈ ac_users db → consume_2fa_code H F T E u code db = Ok (Some db') →
  quiet db db' ∧ ∃ u', u' ∈ ac_users db' ∧ user_key u' = user_key u ∧ access_key u' = access_key u.
Proof.
  intros Hwf Hu (_ & [->|(codes & a & ->)] & Hl)%consume_2fa_ok; [by eauto 10|].
  set (v := with_totp _ _ _ _ u) in *. destruct (quiet_put db u v) as (Hw & Hk & _); [done..|]. split.
  - split_and!; [intros Hd; by apply wf_audit, Hw|done|done].
  - exists v. split_and!; [by apply (put_user_in v u)|done..].
Qed.

Lemma login_quiet E clock later ip email password (w : world) :
  acct_wf (aw_db w) → quiet (aw_db w) (aw_db (login S J H E window clock later ip email password w).1).
Proof.
  intros Hwf. unfold login. destruct (negb _); [done|]. cbv zeta. destruct (is_login_blocked _ _ _) as [t blocked].
  destruct blocked; [apply quiet_audited|]. cbn [set_throttle aw_db].
  destruct (authenticate E H email password (aw_db w)) as [[db u]|e] eqn:Ha; [|destruct e; try done; apply quiet_audited].
  apply authenticate_ok in Ha as (u0 & hash & Hu0 & _ & _ & _ & Hu & ->).
  assert (quiet (aw_db w) (put_user u (aw_db w))) as Hq by (apply (quiet_put _ u0); [done..|by subst u|by subst u]).
  destruct (u_totp_enabled u); (eapply quiet_trans; [exact Hq|apply quiet_audited]).
Qed.

Lemma login_2fa_quiet E later ip token code (w : world) :
  acct_wf (aw_db w) → quiet (aw_db w) (aw_db (login_2fa S J H F T E later ip token code w).1).
Proof.
  intros Hwf. unfold login_2fa. destruct (negb _); [done|]. destruct (jwt_decode _ _ _) as [p|]; [|done].
  destruct (negb _); [done|]. destruct (sub_of p) as [sub|]; [|done]. destruct (find_user sub (aw_db w)) as [u|] eqn:Hf; [|done].
  apply find_user_elem in Hf as [Hu _]. destruct (_ || _); [done|].
  destruct (consume_2fa_code H F T E u code (aw_db w)) as [[db|]|] eqn:Hc; try done.
  eapply quiet_trans; [by eapply quiet_consume|apply quiet_audited].
Qed.

Lemma oidc_quiet E ip rnd code st bundle (w : world) :
  acct_wf (aw_db w) → fresh_acct E (aw_db w) → quiet (aw_db w) (aw_db (oidc_callback S J H E P ip rnd code st bundle w).1).
Proof.
  intros Hwf Hfr. destruct (oidc_callback S J H E P ip rnd code st bundle w) as [w' r] eqn:Hc. cbn [fst].
  apply oidc_callback_cases in Hc as [(-> & _)|(claims & db & u & a & _ & Hp & _ & Hdb & Hl & _)]; [done|].
  apply provision_ok in Hp as (db1 & a1 & -> & Hcase & Hl1).
  split_and!; [intros _| |by eapply log_kept_trans].
  - rewrite Hdb. do 2 apply wf_audit. destruct Hcase as [(u0 & s & i & e & Hu0 & Hu & Hfl)|(Hid & _ & Hfl)].
    + apply (wf_flush_put (aw_db w) u0 u); [done..|by subst u|done].
    + by eapply wf_flush_add.
  - eapply keeps_access_trans; [|apply keeps_access_same; by rewrite Hdb]. cbn [set_ac_audit ac_users].
    destruct Hcase as [(u0 & s & i & e & Hu0 & Hu & Hfl)|(Hid & _ & Hfl)]; apply flush_users_same in Hfl as ->.
    + apply (keeps_access_put _ u0); [done..|by subst u].
    + apply keeps_access_add.
Qed.

Lemma as_actor_quiet rq route (w : world) :
  acct_wf (aw_db w) → (∀ a db db', acct_wf db → route a db = Ok db' → quiet db db') →
  quiet (aw_db w) (aw_db (as_actor J rq route w)).
Proof.
  intros Hwf Hr. unfold as_actor.
  destruct (current_actor J (rq_env rq) (rq_tenant_cookie rq) (rq_authorization rq) (aw_db w)) as [[db a]|] eqn:Hc; [|done].
  cbn [mbind res_bind]. destruct (route a db) as [db'|] eqn:He; [|done].
  pose proof (current_actor_touched _ _ _ _ _ _ _ Hc) as (Hus & _ & Hau & _).
  apply current_actor_wf in Hc as (Hwf' & _); [|done]. apply (quiet_trans _ db); [|by eapply Hr].
  split_and!; [done|by apply keeps_access_same|by apply log_kept_same].
Qed.

Lemma totp_routes_quiet E a db db' :
  acct_wf db →
  (∀ secret r, totp_setup F E secret a db = Ok (db', r) → quiet db db') ∧
  (∀ codes code r, totp_verify_setup H F T E codes code a db = Ok (db', r) → quiet db db') ∧
  (∀ code, totp_disable H F T E code a db = Ok db' → quiet db db').
Proof.
  intros Hwf. split_and!.
  - intros secret r (u & (Hu & _)%require_interactive_ok & Hr)%res_bind_ok. destruct (u_totp_enabled u); [done|].
    apply res_bind_ok in Hr as (_ & _ & [= <- _]). eapply quiet_trans; [|apply quiet_audited]. by apply (quiet_put _ u).
  - intros codes code r. unfold totp_verify_setup. destruct (negb _); [done|].
    intros (u & (Hu & _)%require_interactive_ok & Hr)%res_bind_ok. destruct (u_totp_enabled u); [done|].
    destruct (u_totp_pending_secret_encrypted u) as [blob|]; [|done].
    apply res_bind_ok in Hr as (secret & _ & (good & _ & Hr)%res_bind_ok). destruct good; [|done].
    apply res_bind_ok in Hr as (_ & _ & [= <- _]).
    eapply quiet_trans; [|apply quiet_audited]. by apply (quiet_put _ u).
  - intros code. unfold totp_disable. destruct (negb _); [done|].
    intros (u & (Hu & _)%require_interactive_ok & Hr)%res_bind_ok. destruct (negb (u_totp_enabled u)); [done|].
    apply res_bind_ok in Hr as ([db1|] & Hc & Hr); [|done]. apply res_bind_ok in Hr as (_ & _ & [= <-]).
    apply quiet_consume in Hc as (Hq & u' & Hu' & Hk & Ha); [|done..]. eapply quiet_trans; [exact Hq|].
    eapply quiet_trans; [|apply quiet_audited]. apply (quiet_put _ u'); [by apply Hq|done|by rewrite Hk|by rewrite Ha].
Qed.

Lemma do_request_quiet rq (w : world) :
  acct_wf (aw_db w) → fresh_acct (rq_env rq) (aw_db w) → quiet (aw_db w) (aw_db (do_request S J H F T P window rq w)).
Proof.
  intros Hwf Hfr. unfold do_request. destruct (rq_op rq) as [| body ck| | | | | |].
  - by apply login_quiet.
  - unfold refresh. destruct (match body with Some _ => _ | None => _ end) as [[|]|]; [done| |done].
    destruct (jwt_decode _ _ _) as [p|]; [|done]. destruct (negb _); [done|]. destruct (sub_of p); [|done].
    destruct (find_user _ _) as [u|]; [|done]. by destruct (u_disabled u).
  - by apply login_2fa_quiet.
  - unfold oidc_authorize. destruct (negb _); [done|]. by destruct (get_discovery _ _ _).
  - by apply oidc_quiet.
  - apply as_actor_quiet; [done|]. intros a db db' Hdb ([db1 r] & Hr & [= <-])%res_bind_ok.
    exact (proj1 (totp_routes_quiet _ a db db1 Hdb) _ _ Hr).
  - apply as_actor_quiet; [done|]. intros a db db' Hdb ([db1 r] & Hr & [= <-])%res_bind_ok.
    exact (proj1 (proj2 (totp_routes_quiet _ a db db1 Hdb)) _ _ _ Hr).
  - apply as_actor_quiet; [done|]. intros a db db' Hdb. exact (proj2 (proj2 (totp_routes_quiet _ a db db' Hdb)) _).
Qed.
End quiet.

(** ** A disabled user gets no session *)

Section disabled.
Context {Th K : Type} `{!Throttle Th}.
Context (S : auth_settings) (J : jwt_lib) (H : hasher) (F : fernet) (T : totp_lib) (P : provider K) (window : Z).
Notation world := (auth_world Th K).

Definition signs_none (uid : uuid) (w w' : world) : Prop := ∀ p, p ∈ aw_issued w' → p ∈ aw_issued w ∨ ¬ session_for uid p.

Lemma signs_same uid (w w' : world) : aw_issued w' = aw_issued w → signs_none uid w w'.
Proof. intros He p Hp. left. by rewrite <-He. Qed.

Lemma signs_pair uid (w w' : world) E u :
  aw_issued w' = aw_issued w ++ [jwt_payload S (env_now E) u ACCESS; jwt_payload S (env_now E) u REFRESH] →
  uuid_ok (u_id u) → u_id u ≠ uid → signs_none uid w w'.
Proof.
  intros He Hok Hne p. rewrite He. intros [?|Hp]%elem_of_app; [by left|right].
  apply elem_of_cons in Hp as [->|[->|[]%not_elem_of_nil]%elem_of_cons]; intros Hs%session_for_jwt; done.
Qed.

Lemma signs_mfa uid (w w' : world) E sub : aw_issued w' = aw_issued w ++ [mfa_payload (env_now E) sub] → signs_none uid w w'.
Proof.
  intros He p. rewrite He. intros [?| ->%list_elem_of_singleton]%elem_of_app; [by left|right]. apply session_for_mfa.
Qed.

Lemma pair_issued E u (w : world) :
  aw_issued (issue_token_pair S J E u w).1 = aw_issued w ++ [jwt_payload S (env_now E) u ACCESS; jwt_payload S (env_now E) u REFRESH].
Proof. cbn. by rewrite <-app_assoc. Qed.

Ltac pair_signed := etransitivity; [exact (pair_issued _ _ _)|reflexivity].

Lemma enabled_other db u v : acct_wf db → u ∈ ac_users db → u_disabled u = true → v ∈ ac_users db → u_disabled v = false → u_id v ≠ u_id u.
Proof.
  intros Hwf Hu Hd Hv Hdv He. assert (v = u) as -> by (apply (NoDup_key_inj u_id (ac_users db)); [apply Hwf|done..]). congruence.
Qed.

Lemma do_request_disabled rq (w : world) u :
  acct_wf (aw_db w) → fresh_acct (rq_env rq) (aw_db w) → u ∈ ac_users (aw_db w) → u_disabled u = true →
  signs_none (u_id u) w (do_request S J H F T P window rq w).
Proof.
  intros Hwf Hfr Hu Hd. pose proof (λ v, enabled_other (aw_db w) u v Hwf Hu Hd) as Hother.
  pose proof (wf_user_ids_ok _ Hwf) as Hok. unfold do_request.
  destruct (rq_op rq) as [email password|body ck|token code|st n v|rnd code st bundle|secret|codes code|code].
  - unfold login. destruct (negb _); [by apply signs_same|]. cbv zeta. destruct (is_login_blocked _ _ _) as [t []]; [by apply signs_same|].
    cbn [set_throttle aw_db]. destruct (authenticate _ H email password (aw_db w)) as [[db v]|e] eqn:Ha; [|destruct e; by apply signs_same].
    apply authenticate_ok in Ha as (v0 & hash & Hv0 & Hdv & _ & _ & -> & _). cbn [with_login u_totp_enabled].
    destruct (u_totp_enabled v0); [by eapply signs_mfa|]. 
    apply (signs_pair _ _ _ (rq_env rq) (with_login hash (env_now (rq_env rq)) v0)); [pair_signed|by apply (Hok v0)|by apply (Hother v0)].
  - unfold refresh. destruct (match body with Some _ => _ | None => _ end) as [[|c tk]|]; [by apply signs_same| |by apply signs_same].
    destruct (jwt_decode _ _ _) as [p|]; [|by apply signs_same]. destruct (negb _); [by apply signs_same|].
    destruct (sub_of p); [|by apply signs_same]. destruct (find_user _ _) as [v|] eqn:Hf; [|by apply signs_same].
    apply find_user_elem in Hf as [Hv _]. destruct (u_disabled v) eqn:Hdv; [by apply signs_same|].
    apply (signs_pair _ _ _ (rq_env rq) v); [pair_signed|by apply Hok|by apply Hother].
  - unfold login_2fa. destruct (negb _); [by apply signs_same|]. destruct (jwt_decode _ _ _) as [p|]; [|by apply signs_same].
    destruct (negb _); [by apply signs_same|]. destruct (sub_of p); [|by apply signs_same].
    destruct (find_user _ _) as [v|] eqn:Hf; [|by apply signs_same]. apply find_user_elem in Hf as [Hv _].
    destruct (u_disabled v) eqn:Hdv; [by apply signs_same|]. destruct (negb _); [by apply signs_same|]. cbn [orb].
    destruct (consume_2fa_code _ _ _ _ _ _ _) as [[db|]|]; [|by apply signs_same..].
    apply (signs_pair _ _ _ (rq_env rq) v); [pair_signed|by apply Hok|by apply Hother].
  - unfold oidc_authorize. destruct (negb _); [by apply signs_same|]. destruct (get_discovery _ _ _). by apply signs_same.
  - destruct (oidc_callback _ _ _ _ _ _ _ _ _ _ w) as [w' r] eqn:Hc. cbn [fst].
    apply oidc_callback_cases in Hc as [(_ & Hi & _)|(claims & db & v & a & _ & Hp & Hdv & _ & _ & Hi)]; [by apply signs_same|].
    unfold callback_signs in Hi. destruct (u_totp_enabled v); [by eapply signs_mfa|].
    apply provision_ok in Hp as (db1 & a1 & _ & Hcase & _). apply (signs_pair _ _ _ (rq_env rq) v Hi);
      destruct Hcase as [(v0 & s & i & e & Hv0 & -> & _)|(Hid & _)].
    + by apply (Hok v0).
    + rewrite Hid. apply Hfr.
    + by apply (Hother v0).
    + rewrite Hid. intros He. destruct (Hfr (length (ac_users (aw_db w)))) as (_ & Hnew & _). apply Hnew.
      unfold new_user_id in He. rewrite He. by apply list_elem_of_fmap_2.
  - unfold as_actor. destruct (_ ≫= _); by apply signs_same.
  - unfold as_actor. destruct (_ ≫= _); by apply signs_same.
  - unfold as_actor. destruct (_ ≫= _); by apply signs_same.
Qed.
End disabled.

(** ** Examples *)

Definition ex_env : env := mkEnv (λ n, 1000 + Z.of_nat (n mod 1000)) 1700000000000000 None.
Definition ex_hasher : hasher :=
  mkHasher (λ p, "h:" +:+ p) (λ h p, Ok (String.eqb h ("h:" +:+ p))) (λ _, Ok false).
(** The text of a token is its type and its subject. *)
Definition ex_jwt : jwt_lib := mkJwt
  (λ p, py_str (get_none "type" p) +:+ ":" +:+ py_str (get_none "sub" p))
  (λ _ s, match split_first ":" s with
          | Some (t, u) => Ok [("sub", PStr u); ("type", PStr t)]
          | None => Err InvalidJwt
          end).
Definition ex_fernet : fernet := mkFernet (λ b, b) (λ b, Some b).
Definition ex_totp : totp_lib := λ _ _ code, Ok (String.eqb code "123456").
Definition ex_settings : auth_settings :=
  mkAuthSettings 15 7 false (mkOidcSettings true "https://idp/" "vigil" "secret" "https://vigil/cb" "viewer").
(** A provider with one key, that answers every code with an ID token made of the
    nonce of the only sign-on it knows. *)
Definition ex_provider : provider unit := mkProvider
  (λ url, Response (mkHttpResponse 200 ""
     (Ok (if String.eqb url "https://idp/keys" then PDict [("keys", PList [PDict [("kty", PStr "RSA"); ("kid", PStr "k1")]])]
          else PDict [("issuer", PStr "https://idp/"); ("authorization_endpoint", PStr "https://idp/auth");
                      ("token_endpoint", PStr "https://idp/token"); ("jwks_uri", PStr "https://idp/keys")]))))
  (λ _ _ _, Response (mkHttpResponse 200 "" (Ok (PDict [("id_token", PStr "idt")]))))
  (λ _, Some tt) (λ _, Some [("kid", PStr "k1")])
  (λ _ _ _ _ _, Some [("sub", PStr "s-1"); ("email", PStr "new@corp.example"); ("nonce", PStr "nnn")]).

Definition ex_user (id : uuid) (email : str) (role : UserRole) (totp : bool) : User :=
  mkUser id 1 email "h:correct horse" role None false false totp (if totp then Some "seed" else None) None
    (if totp then Some ["h:AAAA1111"; "h:BBBB2222"] else None) None None None None 0.
Definition ex_accounts : acct_db := Eval vm_compute in
  mkAcct (mkScopeDb [] [] []) [] [ex_user 1 "root@corp.example" ADMIN false; ex_user 2 "ann@corp.example" ANALYST true] []
    [mkScimToken 5 1 "okta" (hash_scim_token "scim-secret") 0 None false] [mkTenant 1 "default" "Default" false] empty_db.

Ltac ex_all := repeat match goal with
  | |- ∀ _, _ ∈ _ → _ => intros ?x Hx; cbn in Hx; repeat (apply elem_of_cons in Hx as [->|Hx]); try by apply not_elem_of_nil in Hx
  end.
Ltac decide_by_computing := apply (bool_decide_eq_true_1 _); vm_compute; reflexivity.
Lemma ex_accounts_wf : acct_wf ex_accounts.
Proof.
  split; [decide_by_computing| |vm_compute; reflexivity|decide_by_computing| | |decide_by_computing..|]; ex_all; unfold uuid_ok; cbn; lia.
Qed.
Lemma ex_fresh db :
  (∀ x, x ∈ map u_id (ac_users db) ++ map at_id (ac_api_tokens db) ++ map st_id (ac_scim_tokens db) ++ map tn_id (ac_tenants db) → x < 1000) →
  fresh_acct ex_env db.
Proof.
  intros Hall n. assert (1000 ≤ env_uuid4 ex_env n < 2000) as Hn.
  { cbn [ex_env env_uuid4]. pose proof (Nat.mod_upper_bound n 1000). lia. }
  unfold uuid_ok. split_and!; [lia|lia|..]; intros Hx;
    (enough (env_uuid4 ex_env n < 1000) by lia); apply Hall; rewrite !elem_of_app; auto.
Qed.
Lemma ex_accounts_fresh : fresh_acct ex_env ex_accounts.
Proof. apply ex_fresh. ex_all; lia. Qed.

(** *** Identity *)

Definition ex_root : Actor := mkActor 1 ADMIN "user" None [] 1 false.
Definition ex_session : option str := Some ("Bearer access:" +:+ uuid_str 1).
Lemma ex_session_ok : current_actor ex_jwt ex_env None ex_session ex_accounts = Ok (ex_accounts, ex_root).
Proof. vm_compute. reflexivity. Qed.


(** *** The second factor: the password, a wrong code, and a stolen MFA token *)

#[local] Instance ex_throttle : Throttle login_buckets := Throttle_inmem 2 300.
Definition ex_world : auth_world login_buckets unit := mkWorld ex_accounts ∅ (mkOidcCache ∅ ∅) [].
Definition ex_request (t : Z) (op : auth_op) : auth_request :=
  mkRequest ex_env (float_of_Z t) (float_of_Z t) None None None op.
Definition ex_attack : list auth_request :=
  [ex_request 10 (OpLogin "ann@corp.example" "correct horse");
   ex_request 11 (OpLogin2fa ("mfa_pending:" +:+ uuid_str 2) "000000");
   ex_request 12 (OpRefresh (Some ("mfa_pending" +:+ uuid_str 2)) None)].

Lemma ex_guarded : guarded 2 ex_world.
Proof.
  split_and!; [apply ex_accounts_wf| |by intros p ?%not_elem_of_nil]. split; [right; left|].
  ex_all; done.
Qed.
Lemma ex_fresh_same db : map u_id (ac_users db) = [1; 2] → ac_api_tokens db = [] → map st_id (ac_scim_tokens db) = [5] →
  map tn_id (ac_tenants db) = [1] → fresh_acct ex_env db.
Proof. intros H1 H2 H3 H4. apply ex_fresh. rewrite H1, H2, H3, H4. ex_all; lia. Qed.
Lemma ex_attack_fails : run_without ex_settings ex_jwt ex_hasher ex_fernet ex_totp ex_provider 300 2 ex_attack ex_world.
Proof.
  cbn [run_without ex_attack].
  split; [split; [apply ex_accounts_fresh|intros token p Ht _; by apply not_elem_of_nil in Ht]|]. split; [vm_compute; reflexivity|].
  split; [split; [apply ex_fresh_same; vm_compute; reflexivity|intros token p Ht _; by apply not_elem_of_nil in Ht]|].
  split; [vm_compute; reflexivity|].
  split; [split; [apply ex_fresh_same; vm_compute; reflexivity|]|split; [vm_compute; reflexivity|exact I]].
  intros token p Ht Hd. apply list_elem_of_singleton in Ht as ->. vm_compute in Hd. discriminate Hd.
Qed.

Lemma second_factor_required_witness :
  guarded 2 (auth_run ex_settings ex_jwt ex_hasher ex_fernet ex_totp ex_provider 300 ex_attack ex_world).
Proof.
  exact (second_factor_required ex_settings ex_jwt ex_hasher ex_fernet ex_totp ex_provider 300 2 ex_attack ex_world
           ex_guarded ex_attack_fails).
Defined.

(** *** The throttle: three wrong passwords with a limit of two *)

Definition ex_guesses : list auth_request :=
  map (λ t, ex_request t (OpLogin "root@corp.example" "guess")) [10; 20; 30].


(** Both slots were used and the third guess was refused unseen. *)
Example ex_guesses_rejected :
  rejected 2 300 ex_settings ex_jwt ex_hasher ex_fernet ex_totp ex_provider "root@corp.example" ex_guesses ex_world [] =
  [float_of_Z 10; float_of_Z 20].
Proof. vm_compute. reflexivity. Qed.

(** *** An API token *)

Definition ex_created : acct_db * (ApiToken * str) := Eval vm_compute in
  match create_token ex_env "s3_cret" "ci" (Some 30) ex_root ex_accounts with
  | Ok r => r | Err _ => (ex_accounts, (mkApiToken 0 0 0 "" "" [] None None None 0, "")) end.
Lemma ex_created_eq :
  create_token ex_env "s3_cret" "ci" (Some 30) ex_root ex_accounts = Ok (ex_created.1, (ex_created.2.1, ex_created.2.2)).
Proof. vm_compute. reflexivity. Qed.


(** *** A recovery code *)

Lemma recovery_code_used_up_witness :
  ∃ c pre h post, ["h:AAAA1111"; "h:BBBB2222"] = pre ++ h :: post ∧ ["h:AAAA1111"] = pre ++ post ∧
    verify_password ex_hasher c h = Ok true.
Proof.
  destruct (recovery_code_used_up ex_hasher ["h:AAAA1111"; "h:BBBB2222"] "bbbb-2222" ["h:AAAA1111"]) as (c & pre & h & post & H1 & H2 & H3 & _).
  - vm_compute. reflexivity.
  - exists c, pre, h, post. split_and!; [exact H1|exact H2|exact H3].
Defined.

(** *** A sign-on *)

Definition ex_authorized : auth_world login_buckets unit * py (str * list cookie) := Eval vm_compute in
  oidc_authorize ex_settings ex_provider "sss" "nnn" "vvv" ex_world.
Definition ex_redirect : str * list cookie := Eval vm_compute in match ex_authorized.2 with Ok r => r | Err _ => ("", []) end.


(** The callback then provisions the user and signs a session. *)
Example ex_signed_on :
  match oidc_callback ex_settings ex_jwt ex_hasher ex_env ex_provider None "rnd" (Some "code") (Some "sss") (Some "sss.nnn.vvv") ex_authorized.1 with
  | (w, Ok (url, _)) => url = "/dashboard" ∧ map u_email (ac_users (aw_db w)) = ["root@corp.example"; "ann@corp.example"; "new@corp.example"]
  | _ => False
  end.
Proof. vm_compute. split; reflexivity. Qed.
