(* ===== verification/Scim.v ===== *)
(** * Scim: provisioning of users by an identity provider

    services/scim.py and api/scim.py over the tables of Accounts.  When a row was last
    written, which only the answers show, is an argument. *)

From Stdlib Require Import Ascii String.
From S2P Require Import Prelude PyStr PyVal PyJson PyTime Crypto PyText Models AuditChain RateLimit Rollout Scoping Jobs.
From S2P Require Import Fleet Routing Cases Accounts Oidc Auth.
Local Open Scope string_scope.
Local Open Scope list_scope.
Local Open Scope Z_scope.

(** ** Rendering and reading (services/scim.py) *)

Definition SCIM_USER_SCHEMA : str := "urn:ietf:params:scim:schemas:core:2.0:User".
Definition SCIM_ENTERPRISE_SCHEMA : str := "urn:ietf:params:scim:schemas:extension:enterprise:2.0:User".
Definition SCIM_LIST_SCHEMA : str := "urn:ietf:params:scim:api:messages:2.0:ListResponse".
Definition DEFAULT_SCIM_ISSUER : str := "scim:vigil".
Definition scim_issuer (S : oidc_settings) : str := or_str (os_issuer_url S) DEFAULT_SCIM_ISSUER.

Definition opt_iso (t : option datetime) : pyval := match t with Some t => PStr (isoformat t) | None => PNone end.

Definition to_scim_user (location_base : str) (updated_at : option datetime) (u : User) : dict :=
  [("schemas", PList [PStr SCIM_USER_SCHEMA; PStr SCIM_ENTERPRISE_SCHEMA]);
   ("id", PStr (uuid_str (u_id u)));
   ("userName", PStr (u_email u));
   ("active", PBool (negb (u_disabled u)));
   ("emails", PList [PDict [("value", PStr (u_email u)); ("primary", PBool true); ("type", PStr "work")]]);
   ("meta", PDict [("resourceType", PStr "User"); ("created", PStr (isoformat (u_created_at u)));
                   ("lastModified", opt_iso updated_at);
                   ("location", if nonempty location_base then PStr (location_base +:+ "/Users/" +:+ uuid_str (u_id u)) else PNone)])]
  ++ match u_scim_external_id u with Some e => if nonempty e then [("externalId", PStr e)] else [] | None => [] end
  ++ [(SCIM_ENTERPRISE_SCHEMA, PDict [("role", PStr (UserRole_value (u_role u)))])].

Definition coerce_role (raw : pyval) : py UserRole :=
  if negb (truthy raw) then Ok VIEWER
  else
    match raw with
    | PStr s =>
        let candidate := lower (strip s) in
        Ok (default VIEWER (List.find (λ r, String.eqb (UserRole_value r) candidate) [ADMIN; ANALYST; VIEWER]))
    | _ => Err AttributeError
    end.

(** [next((e.get("value") for e in emails if isinstance(e, dict) and e.get(k)), None)] *)
Definition first_value (k : str) (emails : list pyval) : pyval :=
  match List.find (λ e, match e with PDict d => truthy (get_none k d) | _ => false end) emails with
  | Some (PDict d) => get_none "value" d
  | _ => PNone
  end.

Definition extract_primary_email (emails : pyval) : option str :=
  match emails with
  | PList l =>
      let primary := first_value "primary" l in
      if truthy primary then Some (lower (py_str primary))
      else
        let first := first_value "value" l in
        if truthy first then Some (lower (py_str first)) else None
  | _ => None
  end.

Record scim_fields := mkScimFields {
  sf_email : str;
  sf_external_id : pyval;
  sf_role : UserRole;
  sf_disabled : bool
}.

Definition parse_scim_user_create (payload : dict) : py scim_fields :=
  let email :=
    match get_none "userName" payload with
    | PStr s => if nonempty s then Some (lower s) else extract_primary_email (get_none "emails" payload)
    | _ => extract_primary_email (get_none "emails" payload)
    end in
  match email with
  | None => Err ValueError
  | Some email =>
      if negb (has_char "@" email) then Err ValueError
      else
        let role_raw := match get_none SCIM_ENTERPRISE_SCHEMA payload with PDict d => get_none "role" d | _ => PNone end in
        let role_raw := if truthy role_raw then role_raw else get_none "role" payload in
        let active := match get_default "active" payload (PBool true) with PBool b => b | _ => true end in
        role ← coerce_role role_raw;
        Ok (mkScimFields email (get_none "externalId" payload) role (negb active))
  end.

Definition apply_scim_user_fields (f : scim_fields) (u : User) : User :=
  with_scim (if nonempty (sf_email f) then sf_email f else u_email u) (sf_role f) (sf_disabled f)
    (match sf_external_id f with PNone => u_scim_external_id u | v => Some (py_str v) end) u.

(** ** Patches *)

Definition set_disabled (b : bool) (u : User) : User := with_scim (u_email u) (u_role u) b (u_scim_external_id u) u.
Definition set_email (e : str) (u : User) : User := with_scim e (u_role u) (u_disabled u) (u_scim_external_id u) u.
Definition set_role (r : UserRole) (u : User) : User := with_scim (u_email u) r (u_disabled u) (u_scim_external_id u) u.
Definition set_external (e : option str) (u : User) : User := with_scim (u_email u) (u_role u) (u_disabled u) e u.

(** One attribute; a path is normalised and cut at a filter. *)
Definition patch_attribute (path : str) (value : pyval) (u : User) : py User :=
  let norm := lower (strip path) in
  let norm := match split_first "[" norm with Some (a, _) => a | None => norm end in
  if String.eqb norm "active" then
    Ok (set_disabled (match value with
                      | PStr s => negb (bool_decide (lower (strip s) ∈ ["true"; "1"; "yes"]))
                      | v => negb (truthy v)
                      end) u)
  else if String.eqb norm "username" then
    Ok (match value with PStr s => if nonempty s then set_email (lower s) u else u | _ => u end)
  else if String.eqb norm "externalid" then
    Ok (set_external (match value with PNone => None | v => Some (py_str v) end) u)
  else if String.eqb norm "emails" then
    Ok (match extract_primary_email (match value with PList _ => value | _ => PList [] end) with
        | Some e => if nonempty e then set_email e u else u
        | None => u
        end)
  else if starts_with (lower SCIM_ENTERPRISE_SCHEMA) norm then
    match value with
    | PDict d => match dict_get "role" d with Some raw => r ← coerce_role raw; Ok (set_role r u) | None => Ok u end
    | _ => Ok u
    end
  else Ok u.

Fixpoint patch_items (items : dict) (u : User) : py User :=
  match items with
  | [] => Ok u
  | (k, v) :: rest => u ← patch_attribute k v u; patch_items rest u
  end.

Definition apply_patch_value (path value : pyval) (u : User) : py User :=
  match path with
  | PNone => match value with PDict d => patch_items d u | _ => Ok u end
  | PStr p => patch_attribute p value u
  | _ => Err AttributeError
  end.

Definition patch_op (raw : pyval) (u : User) : py User :=
  match raw with
  | PDict d =>
      let op := lower (strip (py_str (get_default "op" d (PStr "")))) in
      let path := get_none "path" d in
      if bool_decide (op ∈ ["add"; "replace"]) then apply_patch_value path (get_none "value" d) u
      else if String.eqb op "remove" then
        match py_or path (PStr "") with
        | PStr p =>
            let norm := lower (strip p) in
            Ok (if String.eqb norm "active" then set_disabled true u
                else if String.eqb norm "externalid" then set_external None u else u)
        | _ => Err AttributeError
        end
      else Ok u
  | _ => Err AttributeError
  end.

Fixpoint apply_scim_patch (ops : list pyval) (u : User) : py User :=
  match ops with
  | [] => Ok u
  | raw :: rest => u ← patch_op raw u; apply_scim_patch rest u
  end.

(** ** Filters *)

Fixpoint span (p : ascii → bool) (s : str) : str * str :=
  match s with
  | "" => ("", "")
  | String c s' => if p c then let '(a, b) := span p s' in (String c a, b) else ("", s)
  end.
Definition span1 (p : ascii → bool) (s : str) : option (str * str) :=
  let '(a, b) := span p s in if nonempty a then Some (a, b) else None.

(** [^\s*(\w+)\s+eq\s+DQ([^DQ]+)DQ\s*$] without regard to case, DQ the double quote.
    No two neighbours share a character, so the longest match of each is the only
    one. *)
Definition filter_re (s : str) : option (str * str) :=
  '(attr, s) ← span1 is_word (span is_space s).2;
  '(_, s) ← span1 is_space s;
  if negb (starts_with "eq" (lower s)) then None
  else
    '(_, s) ← span1 is_space (drop_str 2 s);
    match s with
    | String q s =>
        if negb (Ascii.eqb q dquote) then None
        else
          '(value, s) ← span1 (λ c, negb (Ascii.eqb c dquote)) s;
          match s with
          | String _ s => if nonempty (span is_space s).2 then None else Some (attr, value)
          | "" => None
          end
    | "" => None
    end.

(** ** Routes (api/scim.py) *)

(** An error is an answer of its own, so the request commits. *)
Inductive scim_answer := Resource (body : pyval) | NoContent | ScimError (detail : str) (status : Z).

Section routes.
Context (E : env) (S : oidc_settings) (location_base : str) (updated_at : uuid → option datetime).

Definition render (u : User) : pyval := PDict (to_scim_user location_base (updated_at (u_id u)) u).

Definition scim_used (at_ : datetime) (t : ScimToken) : ScimToken :=
  mkScimToken (st_id t) (st_tenant_id t) (st_label t) (st_token_hash t) (st_created_at t) (Some at_) (st_disabled t).

Definition resolve_scim_token (authorization : option str) (db : acct_db) : py (acct_db * Actor) :=
  match bearer authorization with
  | None | Some "" => Err (HTTPException 401)
  | Some raw =>
      match List.find (λ t, String.eqb (st_token_hash t) (hash_scim_token raw)) (ac_scim_tokens db) with
      | None => Err (HTTPException 401)
      | Some row =>
          if st_disabled row then Err (HTTPException 401)
          else Ok (put_scim_token (scim_used (env_now E) row) db,
                   mkActor (st_id row) ADMIN "scim_token" (Some (st_id row)) [] (st_tenant_id row) false)
      end
  end.

(** [user is None or user.tenant_id != actor.tenant_id] *)
Definition scim_user (user_id : uuid) (actor : Actor) (db : acct_db) : option User :=
  match find_user user_id db with
  | Some u => if u_tenant_id u =? actor_tenant_id actor then Some u else None
  | None => None
  end.

Definition list_response (resources : list pyval) (total start : Z) : pyval :=
  PDict [("schemas", PList [PStr SCIM_LIST_SCHEMA]); ("totalResults", PInt total); ("startIndex", PInt start);
         ("itemsPerPage", PInt (Z.of_nat (length resources))); ("Resources", PList resources)].

Definition scim_list_users (filter : option str) (startIndex count : Z) (actor : Actor) (db : acct_db) : scim_answer :=
  let startIndex := Z.max 1 startIndex in
  let count := Z.min (Z.max 0 count) 500 in
  let page (p : User → bool) :=
    let rows := sort_by (λ u, - u_created_at u)
                  (List.filter (λ u, (u_tenant_id u =? actor_tenant_id actor) && p u) (ac_users db)) in
    Resource (list_response (map render (take (Z.to_nat count) (drop (Z.to_nat (startIndex - 1)) rows)))
                (Z.of_nat (length rows)) startIndex) in
  match filter with
  | None | Some "" => page (λ _, true)
  | Some f =>
      match filter_re f with
      | None => ScimError "unsupported filter" 400
      | Some (attr, value) =>
          let attr := lower attr in
          if bool_decide (attr ∈ ["username"; "emails"; "emails.value"]) then page (λ u, String.eqb (u_email u) (lower value))
          else if String.eqb attr "externalid" then page (λ u, bool_decide (u_scim_external_id u = Some value))
          else Resource (list_response [] 0 startIndex)
      end
  end.

Definition scim_get_user (user_id : uuid) (actor : Actor) (db : acct_db) : scim_answer :=
  match scim_user user_id actor db with
  | None => ScimError "user not found" 404
  | Some u => Resource (render u)
  end.

Definition opt_pystr (o : option str) : pyval := match o with Some s => PStr s | None => PNone end.
Definition token_field (actor : Actor) : pyval := opt_pystr (uuid_str <$> actor_token_id actor).
Definition scim_audited (actor : Actor) (action : str) (user_id : uuid) (external : option str) (extra : dict) (db : acct_db) :
    acct_db :=
  acct_audited E (Some actor) action "user" (Some (uuid_str user_id))
    (Some ([("scim_external_id", opt_pystr external); ("actor_token_id", token_field actor)] ++ extra)) None None db.

Definition with_issuer (issuer : str) (u : User) : User := with_oidc (u_oidc_subject u) (Some issuer) (u_oidc_email u) u.

(** The row that a creation repeats: by its external id within the tenant, which
    PostgreSQL compares with strings only, else by its address. *)
Definition scim_existing (issuer : str) (f : scim_fields) (actor : Actor) (db : acct_db) : py (option User + unit) :=
  by_external ←
    (if truthy (sf_external_id f) then
       match sf_external_id f with
       | PStr e => Ok (List.find (λ u, bool_decide (u_oidc_issuer u = Some issuer) && bool_decide (u_scim_external_id u = Some e) &&
                                       (u_tenant_id u =? actor_tenant_id actor)) (ac_users db))
       | _ => Err DataError
       end
     else Ok None);
  match by_external with
  | Some u => Ok (inl (Some u))
  | None =>
      match user_by_email (sf_email f) db with
      | Some u => if bool_decide (u_scim_external_id u = None) || negb (u_tenant_id u =? actor_tenant_id actor)
                  then Ok (inr tt) else Ok (inl (Some u))
      | None => Ok (inl None)
      end
  end.

Definition scim_create_user (payload : dict) (actor : Actor) (db : acct_db) : py (acct_db * scim_answer) :=
  match parse_scim_user_create payload with
  | Err ValueError => Ok (db, ScimError "userName / emails must contain a valid email address" 400)
  | Err e => Err e
  | Ok f =>
      let issuer := scim_issuer S in
      existing ← scim_existing issuer f actor db;
      match existing with
      | inr _ => Ok (db, ScimError "email already exists for non-SCIM user" 409)
      | inl None =>
          let user := mkUser (new_user_id E db) (actor_tenant_id actor) (sf_email f) "" (sf_role f) None (sf_disabled f) false
                        false None None None None (Some issuer) None
                        (if truthy (sf_external_id f) then Some (py_str (sf_external_id f)) else None) (env_now E) in
          db ← flush_users (set_users (ac_users db ++ [user]) db);
          Ok (scim_audited actor "scim.user.create" (u_id user) (u_scim_external_id user) [("email", PStr (u_email user))] db,
              Resource (render user))
      | inl (Some u) =>
          let user := with_issuer issuer (apply_scim_user_fields f u) in
          db ← flush_users (put_user user db);
          Ok (scim_audited actor "scim.user.update" (u_id user) (u_scim_external_id user) [("email", PStr (u_email user))] db,
              Resource (render user))
      end
  end.

Definition scim_replace_user (user_id : uuid) (payload : dict) (actor : Actor) (db : acct_db) : py (acct_db * scim_answer) :=
  match scim_user user_id actor db with
  | None => Ok (db, ScimError "user not found" 404)
  | Some u =>
      match parse_scim_user_create payload with
      | Err ValueError => Ok (db, ScimError "userName / emails must contain a valid email address" 400)
      | Err e => Err e
      | Ok f =>
          let user := apply_scim_user_fields f u in
          db ← flush_users (put_user user db);
          Ok (scim_audited actor "scim.user.update" (u_id user) (u_scim_external_id user) [] db, Resource (render user))
      end
  end.

Definition op_summary (o : pyval) : py pyval :=
  op ← py_get "op" o; path ← py_get "path" o; Ok (PDict [("op", op); ("path", path)]).

Definition scim_patch_user (user_id : uuid) (payload : dict) (actor : Actor) (db : acct_db) : py (acct_db * scim_answer) :=
  match scim_user user_id actor db with
  | None => Ok (db, ScimError "user not found" 404)
  | Some u =>
      match py_or (get_none "Operations" payload) (PList []) with
      | PList ops =>
          user ← apply_scim_patch ops u;
          summary ← mapM op_summary ops;
          db ← flush_users (put_user user db);
          Ok (scim_audited actor "scim.user.update" (u_id user) (u_scim_external_id user) [("operations", PList summary)] db,
              Resource (render user))
      | _ => Ok (db, ScimError "Operations must be a list" 400)
      end
  end.

Definition scim_delete_user (user_id : uuid) (actor : Actor) (db : acct_db) : py (acct_db * scim_answer) :=
  match scim_user user_id actor db with
  | None => Ok (db, ScimError "user not found" 404)
  | Some u =>
      Ok (scim_audited actor "scim.user.delete" user_id (u_scim_external_id u) [] (cascade_user user_id db), NoContent)
  end.
End routes.

(** ** What the routes write *)

Inductive scim_op :=
| ScimCreate (payload : dict)
| ScimReplace (user_id : uuid) (payload : dict)
| ScimPatch (user_id : uuid) (payload : dict)
| ScimDelete (user_id : uuid).

Section effects.
Context (E : env) (S : oidc_settings) (location_base : str) (updated_at : uuid → option datetime).

Definition scim_route (op : scim_op) (actor : Actor) (db : acct_db) : py (acct_db * scim_answer) :=
  match op with
  | ScimCreate payload => scim_create_user E S location_base updated_at payload actor db
  | ScimReplace id payload => scim_replace_user E location_base updated_at id payload actor db
  | ScimPatch id payload => scim_patch_user E location_base updated_at id payload actor db
  | ScimDelete id => scim_delete_user E id actor db
  end.

Lemma scim_user_ok id actor db u :
  scim_user id actor db = Some u → u ∈ ac_users db ∧ u_id u = id ∧ u_tenant_id u = actor_tenant_id actor.
Proof.
  unfold scim_user. destruct (find_user id db) as [v|] eqn:Hf; [|done]. apply find_user_elem in Hf as [Hin Hid].
  destruct (Z.eqb_spec (u_tenant_id v) (actor_tenant_id actor)); [|done]. by intros [= <-].
Qed.

(** A patch writes the four columns of SCIM. *)
Definition scim_written (u u' : User) : Prop := ∃ e r d x, u' = with_scim e r d x u.

Lemma scim_written_refl u : scim_written u u.
Proof. exists (u_email u), (u_role u), (u_disabled u), (u_scim_external_id u). by destruct u. Qed.

Lemma scim_written_trans u1 u2 u3 : scim_written u1 u2 → scim_written u2 u3 → scim_written u1 u3.
Proof. intros (e0 & r0 & d0 & x0 & ->) (e & r & d & x & ->). by exists e, r, d, x. Qed.

Lemma patch_attribute_written path value u u' : patch_attribute path value u = Ok u' → scim_written u u'.
Proof.
  assert (∀ e r d x, scim_written u (with_scim e r d x u)) as Hw by (intros e r d x; by exists e, r, d, x).
  unfold patch_attribute. cbv zeta. destruct (String.eqb _ "active"); [intros [= <-]; apply Hw|].
  destruct (String.eqb _ "username").
  { intros [= <-]. destruct value as [| | | |s| |]; try apply scim_written_refl. destruct (nonempty s); [apply Hw|apply scim_written_refl]. }
  destruct (String.eqb _ "externalid"); [intros [= <-]; apply Hw|]. destruct (String.eqb _ "emails").
  { intros [= <-]. destruct (extract_primary_email _) as [e|]; [|apply scim_written_refl]. destruct (nonempty e); [apply Hw|apply scim_written_refl]. }
  destruct (starts_with _ _); [|intros [= <-]; apply scim_written_refl].
  destruct value as [| | | | | |d]; try (intros [= <-]; apply scim_written_refl).
  destruct (dict_get "role" d); [|intros [= <-]; apply scim_written_refl]. intros (r & _ & [= <-])%res_bind_ok. apply Hw.
Qed.

Lemma patch_items_written items u u' : patch_items items u = Ok u' → scim_written u u'.
Proof.
  revert u. induction items as [|[k v] items IH]; intros u; [intros [= <-]; apply scim_written_refl|]. cbn [patch_items].
  intros (u1 & H1%patch_attribute_written & H2%IH)%res_bind_ok. by eapply scim_written_trans.
Qed.

Lemma patch_op_written raw u u' : patch_op raw u = Ok u' → scim_written u u'.
Proof.
  unfold patch_op. destruct raw as [| | | | | |d]; try done. cbv zeta. destruct (bool_decide _).
  - unfold apply_patch_value. destruct (get_none "path" d); try done; [|apply patch_attribute_written].
    destruct (get_none "value" d); try (intros [= <-]; apply scim_written_refl). apply patch_items_written.
  - destruct (String.eqb _ _); [|intros [= <-]; apply scim_written_refl]. destruct (py_or _ _); try done.
    intros [= <-]. destruct (String.eqb _ "active"); [by eexists _, _, _, _|].
    destruct (String.eqb _ "externalid"); [by eexists _, _, _, _|apply scim_written_refl].
Qed.

Lemma apply_scim_patch_written ops u u' : apply_scim_patch ops u = Ok u' → scim_written u u'.
Proof.
  revert u. induction ops as [|o ops IH]; intros u; [intros [= <-]; apply scim_written_refl|]. cbn [apply_scim_patch].
  intros (u1 & H1%patch_op_written & H2%IH)%res_bind_ok. by eapply scim_written_trans.
Qed.

(** The row that a creation updates is of the tenant. *)
Lemma scim_existing_ok issuer f actor db u :
  scim_existing issuer f actor db = Ok (inl (Some u)) → u ∈ ac_users db ∧ u_tenant_id u = actor_tenant_id actor.
Proof.
  unfold scim_existing. intros (by_ext & Hx & Hr)%res_bind_ok. destruct by_ext as [v|].
  - injection Hr as ->. destruct (truthy _); [|done]. destruct (sf_external_id f); try done. injection Hx as Hx.
    apply List.find_some in Hx as [Hin [_ Ht]%andb_true_iff]. split; [by apply list_elem_of_In|lia].
  - destruct (user_by_email _ _) as [v|] eqn:He; [|done]. apply List.find_some in He as [Hin _].
    destruct (bool_decide _); [done|]. cbn [orb] in Hr. destruct (Z.eqb_spec (u_tenant_id v) (actor_tenant_id actor)); [|done].
    injection Hr as ->. split; [by apply list_elem_of_In|done].
Qed.

(** One row of the token's tenant is written, appended or removed, or nothing is. *)
Definition scim_effect (actor : Actor) (db db' : acct_db) : Prop :=
  db' = db ∨
  ∃ db1, db' = set_ac_audit (ac_audit db') db1 ∧ log_kept db db' ∧
    ((∃ u0 u, u0 ∈ ac_users db ∧ u_tenant_id u0 = actor_tenant_id actor ∧ u_id u = u_id u0 ∧ u_tenant_id u = u_tenant_id u0 ∧
        flush_users (put_user u db) = Ok db1) ∨
     (∃ u, u_id u = new_user_id E db ∧ u_tenant_id u = actor_tenant_id actor ∧
        flush_users (set_users (ac_users db ++ [u]) db) = Ok db1) ∨
     (∃ u0, u0 ∈ ac_users db ∧ u_tenant_id u0 = actor_tenant_id actor ∧ db1 = cascade_user (u_id u0) db)).

Lemma log_kept_flush db1 db2 db3 a act rt rid p ip t :
  flush_users db2 = Ok db3 → ac_audit db2 = ac_audit db1 → log_kept db1 (acct_audited E a act rt rid p ip t db3).
Proof. intros ->%flush_users_same. apply log_kept_audited. Qed.

Lemma scim_route_effect op actor db db' ans : scim_route op actor db = Ok (db', ans) → scim_effect actor db db'.
Proof.
  destruct op as [payload|id payload|id payload|id]; cbn [scim_route].
  - unfold scim_create_user. destruct (parse_scim_user_create payload) as [f|e]; [|destruct e; try done; intros [= <- _]; by left].
    cbv zeta. intros ([[u0|]|] & Hx & Hr)%res_bind_ok; [| |injection Hr as <- _; by left].
    + apply scim_existing_ok in Hx as [Hu0 Ht]. apply res_bind_ok in Hr as (db1 & Hf & [= <- _]). right. exists db1.
      split_and!; [done|by eapply log_kept_flush|]. left. eexists u0, _. split_and!; [done|done| | |exact Hf]; done.
    + apply res_bind_ok in Hr as (db1 & Hf & [= <- _]). right. exists db1.
      split_and!; [done|by eapply log_kept_flush|]. right. left. eexists. split_and!; [| |exact Hf]; done.
  - unfold scim_replace_user. destruct (scim_user id actor db) as [u0|] eqn:Hs; [|intros [= <- _]; by left].
    apply scim_user_ok in Hs as (Hu0 & _ & Ht).
    destruct (parse_scim_user_create payload) as [f|e]; [|destruct e; try done; intros [= <- _]; by left].
    cbv zeta. intros (db1 & Hf & [= <- _])%res_bind_ok. right. exists db1.
    split_and!; [done|by eapply log_kept_flush|]. left. eexists u0, _. split_and!; [done|done| | |exact Hf]; done.
  - unfold scim_patch_user. destruct (scim_user id actor db) as [u0|] eqn:Hs; [|intros [= <- _]; by left].
    apply scim_user_ok in Hs as (Hu0 & _ & Ht). destruct (py_or _ _); try (intros [= <- _]; by left).
    intros (u & (e & r & d & x & ->)%apply_scim_patch_written & (sm & _ & (db1 & Hf & [= <- _])%res_bind_ok)%res_bind_ok)%res_bind_ok.
    right. exists db1. split_and!; [done|by eapply log_kept_flush|]. left. eexists u0, _. split_and!; [done|done| | |exact Hf]; done.
  - unfold scim_delete_user. destruct (scim_user id actor db) as [u0|] eqn:Hs; [|intros [= <- _]; by left].
    apply scim_user_ok in Hs as (Hu0 & <- & Ht). intros [= <- _]. right. eexists. split_and!; [done| |by right; right; exists u0].
    eapply log_kept_trans; [apply log_kept_cascade|by apply log_kept_audited].
Qed.

Lemma scim_route_wf op actor db db' ans :
  acct_wf db → fresh_acct E db → scim_route op actor db = Ok (db', ans) → acct_wf db'.
Proof.
  intros Hwf Hfr [->|(db1 & -> & _ & Hcase)]%scim_route_effect; [done|]. apply wf_audit.
  destruct Hcase as [(u0 & u & Hu0 & _ & Hid & _ & Hf)|[(u & Hid & _ & Hf)|(u0 & _ & _ & ->)]].
  - by apply (wf_flush_put db u0 u).
  - by eapply wf_flush_add.
  - by apply wf_cascade.
Qed.

Lemma scim_route_log op actor db db' ans : scim_route op actor db = Ok (db', ans) → log_kept db db'.
Proof. intros [->|(db1 & _ & Hl & _)]%scim_route_effect; [by apply log_kept_same|done]. Qed.

Lemma scim_route_isolated op actor db db' ans :
  acct_wf db → scim_route op actor db = Ok (db', ans) → isolated (actor_tenant_id actor) db db'.
Proof.
  intros Hwf [->|(db1 & -> & _ & Hcase)]%scim_route_effect; [done|]. intros v Hv.
  change (ac_users (set_ac_audit (ac_audit db') db1)) with (ac_users db1).
  destruct Hcase as [(u0 & u & Hu0 & Ht & Hid & Ht' & ->%flush_users_same)|[(u & Hid & Ht & ->%flush_users_same)|(u0 & Hu0 & Ht & ->)]].
  - apply (isolated_put (actor_tenant_id actor) u0 u db); [done..|congruence|done].
  - cbn. rewrite elem_of_app, list_elem_of_singleton. naive_solver.
  - by apply (isolated_cascade (actor_tenant_id actor) u0 db).
Qed.

Lemma resolve_scim_token_ok authorization db db' actor :
  resolve_scim_token E authorization db = Ok (db', actor) →
  ∃ t, t ∈ ac_scim_tokens db ∧ st_disabled t = false ∧ db' = put_scim_token (scim_used (env_now E) t) db ∧
    actor_tenant_id actor = st_tenant_id t.
Proof.
  unfold resolve_scim_token. destruct (bearer authorization) as [[|c raw]|]; try done.
  destruct (List.find _ _) as [t|] eqn:Hf; [|done]. apply List.find_some in Hf as [Hin%list_elem_of_In _].
  destruct (st_disabled t) eqn:Hd; [done|]. intros [= <- <-]. by exists t.
Qed.

Lemma resolve_scim_token_wf authorization db db' actor :
  acct_wf db → resolve_scim_token E authorization db = Ok (db', actor) →
  acct_wf db' ∧ ac_users db' = ac_users db ∧ ac_audit db' = ac_audit db.
Proof. intros Hwf (t & Ht & _ & -> & _)%resolve_scim_token_ok. split_and!; [by apply (wf_put_scim _ t)|done..]. Qed.
End effects.

(** ** The manager's accounts as a system *)

Section system.
Context {Th K : Type} `{!Throttle Th}.
Context (A : auth_settings) (J : jwt_lib) (H : hasher) (F : fernet) (T : totp_lib) (P : provider K) (window : Z).
Context (location_base : str) (updated_at : uuid → option datetime).

(** A request of a user or of an API token to the routes of Accounts, and one to the
    sign-in routes; requests that raise change nothing. *)
Inductive console_step (db db' : acct_db) : Prop :=
| console_account E ck authorization actor db0 op :
    current_actor J E ck authorization db = Ok (db0, actor) → fresh_acct E db0 →
    account_route E H op actor db0 = Ok db' → console_step db db'
| console_sign_in rq (w : auth_world Th K) :
    aw_db w = db → fresh_acct (rq_env rq) db → db' = aw_db (do_request A J H F T P window rq w) → console_step db db'.

(** A request of an identity provider. *)
Inductive scim_step (db db' : acct_db) : Prop :=
| scim_request E authorization actor db0 op answer :
    resolve_scim_token E authorization db = Ok (db0, actor) → fresh_acct E db0 →
    scim_route E (as_oidc A) location_base updated_at op actor db0 = Ok (db', answer) → scim_step db db'.

Definition acct_step (db db' : acct_db) : Prop := console_step db db' ∨ scim_step db db'.

Lemma console_step_ok t db db' :
  acct_wf db → console_step db db' → acct_wf db' ∧ (has_admin t db → has_admin t db') ∧ log_kept db db'.
Proof.
  intros Hwf [E ck au actor db0 op Hc Hfr Hr|rq w <- Hfr ->].
  - pose proof (current_actor_touched _ _ _ _ _ _ _ Hc) as (_ & _ & Hau & _).
    apply current_actor_wf in Hc as (Hwf0 & Hus & Ha); [|done]. split_and!.
    + by eapply account_route_wf.
    + intros Hadm. eapply account_route_admin; [exact Hwf0|exact Hr|].
      by eapply keeps_access_admin; [apply keeps_access_same|].
    + apply user_route_row in Hr as [_ Hl]. by eapply log_kept_trans; [apply log_kept_same|].
  - destruct (do_request_quiet A J H F T P window rq w) as (Hw & Hk & Hl); [done..|].
    split_and!; [auto|by apply keeps_access_admin|done].
Qed.

Lemma scim_step_ok db db' : acct_wf db → scim_step db db' → acct_wf db' ∧ log_kept db db'.
Proof.
  intros Hwf [E au actor db0 op answer Hc Hfr Hr]. apply resolve_scim_token_wf in Hc as (Hwf0 & _ & Hau); [|done]. split.
  - by eapply scim_route_wf.
  - eapply log_kept_trans; [by apply log_kept_same|by eapply scim_route_log].
Qed.

Lemma acct_step_ok db db' : acct_wf db → acct_step db db' → acct_wf db' ∧ log_kept db db'.
Proof. intros Hwf [Hs|Hs]; [by destruct (console_step_ok 0 _ _ Hwf Hs) as (? & _ & ?)|by apply scim_step_ok]. Qed.

Lemma acct_steps_ok db db' : rtc acct_step db db' → acct_wf db → acct_wf db' ∧ log_kept db db'.
Proof.
  induction 1 as [db|db1 db2 db3 Hs _ IH]; intros Hwf; [by split; [|apply log_kept_same]|].
  destruct (acct_step_ok _ _ Hwf Hs) as [Hwf2 Hl]. destruct (IH Hwf2) as [Hwf3 Hl3]. split; [done|by eapply log_kept_trans].
Qed.


(** C13: a tenant never loses its last enabled administrator through the console: along
    every sequence of requests to the user, token, tenant and sign-in routes, by any
    actors, a tenant with an enabled administrator keeps one. (The SCIM routes have no
    such guard, see [scim_disables_last_admin].) *)
Theorem last_admin_kept t db db' : acct_wf db → rtc console_step db db' → has_admin t db → has_admin t db'.
Proof.
  intros Hwf Hs. revert Hwf. induction Hs as [db|db1 db2 db3 Hs _ IH]; intros Hwf Hadm; [done|].
  destruct (console_step_ok t _ _ Hwf Hs) as (Hwf2 & Ha & _). auto.
Qed.

(** C16: no request reaches the users of another tenant: whatever an actor asks of the
    user, token and tenant routes, and whatever an identity provider asks of the SCIM
    routes, every row of a user outside the tenant of the actor or of the SCIM token is
    afterwards exactly what it was, and none appears. *)
Theorem users_stay_in_tenant db db' :
  acct_wf db →
  (∀ E ck authorization actor db0 op, current_actor J E ck authorization db = Ok (db0, actor) →
     account_route E H op actor db0 = Ok db' → isolated (actor_tenant_id actor) db db') ∧
  (∀ E authorization actor db0 op answer, resolve_scim_token E authorization db = Ok (db0, actor) →
     scim_route E (as_oidc A) location_base updated_at op actor db0 = Ok (db', answer) → isolated (actor_tenant_id actor) db db').
Proof.
  intros Hwf. split.
  - intros E ck au actor db0 op Hc Hr u Hu. apply current_actor_wf in Hc as (Hwf0 & <- & _); [|done].
    by apply (account_route_isolated E H op actor db0 db').
  - intros E au actor db0 op answer Hc Hr u Hu. apply resolve_scim_token_wf in Hc as (Hwf0 & <- & _); [|done].
    by apply (scim_route_isolated E (as_oidc A) location_base updated_at op actor db0 db' answer).
Qed.

(** C28: a tenant created through the API can never be deleted through it: its creation
    writes an audit row of the tenant, no route removes audit rows, and the reference
    from the audit log restricts the deletion, so that [delete_tenant] raises whatever
    requests come in between. *)
Theorem created_tenant_stays E slug name actor db db1 t db2 :
  acct_wf db → fresh_acct E db → create_tenant E slug name actor db = Ok (db1, t) → rtc acct_step db1 db2 →
  ∀ E' owned actor' db3, delete_tenant E' owned (tn_id t) actor' db2 ≠ Ok db3.
Proof.
  intros Hwf Hfr Hc Hs E' owned actor' db3 Hd. pose proof (create_tenant_wf _ _ _ _ _ _ _ Hwf Hfr Hc) as Hwf1.
  destruct (acct_steps_ok _ _ Hs Hwf1) as [_ Hl].
  assert (∃ r, r ∈ log (ac_audit db1) ∧ tenant_id r = Some (tn_id t)) as (r & Hr & Ht).
  { unfold create_tenant in Hc. apply res_bind_ok in Hc as (_ & _ & (s & _ & Hc)%res_bind_ok). destruct (negb _); [done|].
    destruct (existsb _ _); [done|]. injection Hc as <- <-. eexists. split; [apply elem_of_app; right; by apply list_elem_of_singleton|done]. }
  apply Hl in Hr as (r' & Hr' & Ht'). unfold delete_tenant in Hd. apply res_bind_ok in Hd as (_ & _ & Hd).
  destruct (_ =? DEFAULT_TENANT_ID); [done|]. apply res_bind_ok in Hd as (t0 & _ & Hd). cbv zeta in Hd.
  destruct (negb _ || negb _); [done|]. assert (tenant_referenced owned (tn_id t) db2 = true) as Href.
  { unfold tenant_referenced. apply orb_true_iff. right. apply existsb_exists. exists r'. split; [by apply list_elem_of_In|].
    apply bool_decide_eq_true. congruence. }
  by rewrite Href in Hd.
Qed.
End system.

(** ** Deprovisioning *)

(** The operations identity providers send to deactivate a user: with a path, with a
    text for the value, without a path, or as a removal. *)
Definition deactivation (o : pyval) : Prop :=
  o ∈ [PDict [("op", PStr "replace"); ("path", PStr "active"); ("value", PBool false)];
       PDict [("op", PStr "Replace"); ("path", PStr "active"); ("value", PStr "False")];
       PDict [("op", PStr "replace"); ("value", PDict [("active", PBool false)])];
       PDict [("op", PStr "remove"); ("path", PStr "active")]].

Lemma deactivation_disables o u : deactivation o → patch_op o u = Ok (set_disabled true u).
Proof. unfold deactivation. rewrite !elem_of_cons. intros [->|[->|[->|[->|[]%not_elem_of_nil]]]]; reflexivity. Qed.

Lemma apply_scim_patch_app ops o u : apply_scim_patch (ops ++ [o]) u = (u ← apply_scim_patch ops u; patch_op o u).
Proof.
  revert u. induction ops as [|x ops IH]; intros u; cbn [apply_scim_patch app].
  - cbn. by destruct (patch_op o u).
  - destruct (patch_op x u); [apply IH|done].
Qed.

Section deprovisioning.
Context {Th K : Type} `{!Throttle Th}.
Context (A : auth_settings) (J : jwt_lib) (H : hasher) (F : fernet) (T : totp_lib) (P : provider K) (window : Z).
Context (location_base : str) (updated_at : uuid → option datetime).

(** C14: deprovisioning takes effect at once: after a SCIM PATCH whose last operation
    deactivates the user, in any of the shapes providers send, no request acts for that
    user, with whatever session or API token issued before, and no request to the
    sign-in routes signs a session for them. *)
Theorem deprovisioned_locked_out E id payload ops o actor db db' body :
  acct_wf db → get_none "Operations" payload = PList (ops ++ [o]) → deactivation o →
  scim_patch_user E location_base updated_at id payload actor db = Ok (db', Resource body) →
  (∀ E' ck authorization db2 a, current_actor J E' ck authorization db' = Ok (db2, a) → actor_user_id a ≠ id) ∧
  (∀ rq (w : auth_world Th K), aw_db w = db' → fresh_acct (rq_env rq) db' → signs_none id w (do_request A J H F T P window rq w)).
Proof.
  intros Hwf Hops Ho Hr. unfold scim_patch_user in Hr. destruct (scim_user id actor db) as [u0|] eqn:Hs; [|done].
  apply scim_user_ok in Hs as (Hu0 & Hid & _). rewrite Hops in Hr.
  assert (py_or (PList (ops ++ [o])) (PList []) = PList (ops ++ [o])) as Hor by (by destruct ops). rewrite Hor in Hr.
  apply res_bind_ok in Hr as (u & Hu & (sm & _ & (db1 & Hf & [= <- _])%res_bind_ok)%res_bind_ok).
  rewrite apply_scim_patch_app in Hu. apply res_bind_ok in Hu as (u1 & Hu1%apply_scim_patch_written & Hu).
  rewrite deactivation_disables in Hu by done. injection Hu as <-. destruct Hu1 as (e & r & d & x & ->).
  set (u := set_disabled true (with_scim e r d x u0)) in *.
  assert (acct_wf db1) as Hwf1 by by apply (wf_flush_put db u0 u). pose proof (flush_users_same _ _ Hf) as ->.
  assert (u ∈ ac_users (put_user u db)) as Hin by by apply (put_user_in u u0). split.
  - intros E' ck au db2 a Hc. rewrite <-Hid.
    by apply (disabled_never_acts _ _ _ _ _ _ _ u (wf_audited _ _ _ _ _ _ _ _ _ Hwf1) Hin) in Hc.
  - intros rq w Hw Hfr. rewrite <-Hid. change (u_id u0) with (u_id u).
    apply do_request_disabled; rewrite ?Hw; try done. by apply wf_audited.
Qed.
End deprovisioning.

(** ** Reading back what is shown *)

Lemma coerce_role_value r : coerce_role (PStr (UserRole_value r)) = Ok r.
Proof. by destruct r. Qed.

(** The address in its canonical form. *)
Definition email_canonical (u : User) : bool := String.eqb (lower (u_email u)) (u_email u) && has_char "@" (u_email u).

Lemma parse_rendered location_base upd u :
  email_canonical u = true →
  ∃ f, parse_scim_user_create (to_scim_user location_base upd u) = Ok f ∧ apply_scim_user_fields f u = u.
Proof.
  intros [Hl%String.eqb_eq Ha]%andb_true_iff. assert (nonempty (u_email u) = true) as Hn by (by destruct (u_email u)).
  set (ext := match u_scim_external_id u with Some e => if nonempty e then PStr e else PNone | None => PNone end).
  exists (mkScimFields (u_email u) ext (u_role u) (u_disabled u)). split.
  - assert (get_none SCIM_ENTERPRISE_SCHEMA (to_scim_user location_base upd u) = PDict [("role", PStr (UserRole_value (u_role u)))]
      ∧ get_none "externalId" (to_scim_user location_base upd u) = ext) as [He Hx].
    { unfold to_scim_user, ext. destruct (u_scim_external_id u) as [e|]; [destruct (nonempty e)|]; by cbn. }
    unfold parse_scim_user_create.
    change (get_none "userName" (to_scim_user location_base upd u)) with (PStr (u_email u)).
    change (get_default "active" (to_scim_user location_base upd u) (PBool true)) with (PBool (negb (u_disabled u))).
    cbv match beta zeta. rewrite Hn, Hl, Ha, He, Hx. cbn [negb get_none dict_get].
    assert (truthy (PStr (UserRole_value (u_role u))) = true) as Ht by by destruct (u_role u).
    change (get_none "role" [("role", PStr (UserRole_value (u_role u)))]) with (PStr (UserRole_value (u_role u))).
    rewrite Ht, coerce_role_value. cbn. by rewrite negb_involutive.
  - unfold apply_scim_user_fields, ext. cbn [sf_email sf_external_id sf_role sf_disabled]. rewrite Hn.
    destruct u as [? ? ? ? ? ? ? ? ? ? ? ? ? ? ? ex ?]. cbn in *. destruct ex as [e|]; [destruct (nonempty e)|]; done.
Qed.

Lemma put_user_same u db : NoDup (map u_id (ac_users db)) → u ∈ ac_users db → put_user u db = db.
Proof.
  intros Hnd Hu. unfold put_user. replace (map _ (ac_users db)) with (ac_users db); [by destruct db|].
  rewrite <-(map_id (ac_users db)) at 1. apply map_ext_in. intros x Hx%list_elem_of_In.
  destruct (Z.eqb_spec (u_id x) (u_id u)) as [He|]; [|done]. apply (NoDup_key_inj u_id (ac_users db)); done.
Qed.


(** ** Creations are repeatable *)

Lemma NoDup_omap_inj {A B} (f : A → option B) l x y k :
  NoDup (omap f l) → x ∈ l → y ∈ l → f x = Some k → f y = Some k → x = y.
Proof.
  induction l as [|z l IH]; [by intros _ ?%not_elem_of_nil|]. csimpl. intros Hnd Hx Hy Hfx Hfy.
  assert (∀ w, w ∈ l → f w = Some k → k ∈ omap f l) as Hom by (intros w Hw Hfw; apply list_elem_of_omap; eauto).
  apply elem_of_cons in Hx as [->|Hx], Hy as [->|Hy]; [done| | |].
  - rewrite Hfx in Hnd. apply NoDup_cons in Hnd as [Hn _]. destruct Hn. eauto.
  - rewrite Hfy in Hnd. apply NoDup_cons in Hnd as [Hn _]. destruct Hn. eauto.
  - apply IH; try done. destruct (f z); [|done]. by apply NoDup_cons in Hnd as [_ Hnd].
Qed.

Lemma wf_scim_identities db : acct_wf db → NoDup (omap scim_identity (ac_users db)).
Proof.
  intros Hwf. pose proof (wf_users_flushed _ Hwf) as Hf. unfold flush_users in Hf. destruct (negb (forallb _ _)); [done|].
  destruct (users_unique (ac_users db)) eqn:Hu; [|done]. unfold users_unique in Hu. rewrite !andb_true_iff in Hu.
  by destruct Hu as [_ Hu%bool_decide_eq_true].
Qed.

(** The row a creation leaves. *)
Definition scim_row (issuer e : str) (f : scim_fields) (actor : Actor) (u : User) : Prop :=
  u_oidc_issuer u = Some issuer ∧ u_scim_external_id u = Some e ∧ u_tenant_id u = actor_tenant_id actor ∧
  with_issuer issuer (apply_scim_user_fields f u) = u.

Lemma parse_scim_ok payload f :
  parse_scim_user_create payload = Ok f → nonempty (sf_email f) = true ∧ sf_external_id f = get_none "externalId" payload.
Proof.
  unfold parse_scim_user_create. destruct (match get_none "userName" payload with PStr _ => _ | _ => _ end) as [em|]; [|done].
  destruct (has_char "@" em) eqn:Ha; [|done]. cbv zeta. cbn [negb]. intros (r & _ & [= <-])%res_bind_ok. split; [|done]. by destruct em.
Qed.

Section creations.
Context (S : oidc_settings) (location_base : str) (updated_at : uuid → option datetime).

Lemma scim_create_row E payload actor db db1 body f e :
  parse_scim_user_create payload = Ok f → sf_external_id f = PStr e → nonempty e = true → nonempty (sf_email f) = true →
  scim_create_user E S location_base updated_at payload actor db = Ok (db1, Resource body) →
  ∃ u, u ∈ ac_users db1 ∧ scim_row (scim_issuer S) e f actor u ∧ body = render location_base updated_at u.
Proof.
  intros Hp Hx He Hn Hc. unfold scim_create_user in Hc. rewrite Hp in Hc. cbv zeta in Hc.
  apply res_bind_ok in Hc as ([[u0|]|] & Hex & Hc); [| |done].
  - apply scim_existing_ok in Hex as [Hu0 Ht]. apply res_bind_ok in Hc as (db2 & ->%flush_users_same & [= <- <-]).
    eexists. split; [by apply (put_user_in _ u0)|]. split; [|done]. unfold scim_row, apply_scim_user_fields. rewrite Hx, Hn.
    by split_and!.
  - apply res_bind_ok in Hc as (db2 & ->%flush_users_same & [= <- <-]). eexists.
    split; [apply elem_of_app; right; by apply list_elem_of_singleton|]. split; [|done].
    unfold scim_row, apply_scim_user_fields. cbn. rewrite Hx, Hn. cbn. rewrite He. by split_and!.
Qed.

(** C27: a repeated SCIM creation is harmless: with an external id, sending the same
    POST again answers with the same resource and leaves every user as it was. *)
Theorem scim_create_repeatable E E' payload e actor db db1 body :
  acct_wf db → fresh_acct E db → get_none "externalId" payload = PStr e → nonempty e = true →
  scim_create_user E S location_base updated_at payload actor db = Ok (db1, Resource body) →
  ∃ db2, scim_create_user E' S location_base updated_at payload actor db1 = Ok (db2, Resource body) ∧ ac_users db2 = ac_users db1.
Proof.
  intros Hwf Hfr Hx He Hc.
  assert (acct_wf db1) as Hwf1 by exact (scim_route_wf E S location_base updated_at (ScimCreate payload) _ _ _ _ Hwf Hfr Hc).
  destruct (parse_scim_user_create payload) as [f|er] eqn:Hp.
  2:{ unfold scim_create_user in Hc. rewrite Hp in Hc. by destruct er. }
  destruct (parse_scim_ok _ _ Hp) as [Hn Hxf]. rewrite Hx in Hxf.
  destruct (scim_create_row _ _ _ _ _ _ _ _ Hp Hxf He Hn Hc) as (u & Hu & (Hi & Hue & Ht & Hsame) & ->).
  unfold scim_create_user, scim_existing. rewrite Hp. cbv zeta. rewrite Hxf. cbn [truthy]. rewrite He. cbn [mbind res_bind].
  assert (List.find (λ x, bool_decide (u_oidc_issuer x = Some (scim_issuer S)) && bool_decide (u_scim_external_id x = Some e) &&
                          (u_tenant_id x =? actor_tenant_id actor)) (ac_users db1) = Some u) as ->.
  { destruct (List.find _ _) as [v|] eqn:Hf.
    - apply List.find_some in Hf as [Hv%list_elem_of_In Hcond]. rewrite !andb_true_iff, !bool_decide_eq_true in Hcond.
      destruct Hcond as [[Hvi Hve] _]. f_equal.
      apply (NoDup_omap_inj scim_identity (ac_users db1) v u (scim_issuer S, e)); [by apply wf_scim_identities|done..| |];
        unfold scim_identity; [by rewrite Hvi, Hve|by rewrite Hi, Hue].
    - pose proof (find_none _ _ Hf u (proj1 (list_elem_of_In _ _) Hu)) as Hno. cbv beta in Hno.
      by rewrite !bool_decide_eq_true_2, Ht, Z.eqb_refl in Hno. }
  cbn [mbind res_bind]. rewrite Hsame, put_user_same by (done || apply Hwf1). rewrite (wf_users_flushed _ Hwf1). by eexists.
Qed.
End creations.

(** ** Examples *)

#[local] Instance ex_scim_throttle : Throttle login_buckets := Throttle_inmem 2 300.
Definition ex_bearer : option str := Some "Bearer scim-secret".
Definition ex_resolved : acct_db * Actor := Eval vm_compute in
  match resolve_scim_token ex_env ex_bearer ex_accounts with Ok r => r | Err _ => (ex_accounts, ex_root) end.
Lemma ex_resolved_eq : resolve_scim_token ex_env ex_bearer ex_accounts = Ok (ex_resolved.1, ex_resolved.2).
Proof. vm_compute. reflexivity. Qed.
Lemma ex_resolved_wf : acct_wf ex_resolved.1.
Proof. exact (proj1 (resolve_scim_token_wf _ _ _ _ _ ex_accounts_wf ex_resolved_eq)). Qed.
Lemma ex_resolved_fresh : fresh_acct ex_env ex_resolved.1.
Proof. apply ex_fresh_same; vm_compute; reflexivity. Qed.

Definition ex_off : pyval := PDict [("op", PStr "replace"); ("path", PStr "active"); ("value", PBool false)].
Definition ex_operations : dict := [("Operations", PList [ex_off])].
Definition ex_patch (id : uuid) : scim_op := ScimPatch id ex_operations.
Definition ex_no_update : uuid → option datetime := λ _, None.
Definition ex_scim (op : scim_op) (db : acct_db) : acct_db * scim_answer :=
  match scim_route ex_env (as_oidc ex_settings) "" ex_no_update op ex_resolved.2 db with Ok r => r | Err _ => (db, NoContent) end.

(** The analyst is deprovisioned. *)
Definition ex_patched : acct_db * scim_answer := Eval vm_compute in ex_scim (ex_patch 2) ex_resolved.1.
Definition ex_patched_body : pyval := Eval vm_compute in match ex_patched.2 with Resource b => b | _ => PNone end.
Lemma ex_patched_eq :
  scim_route ex_env (as_oidc ex_settings) "" ex_no_update (ex_patch 2) ex_resolved.2 ex_resolved.1 = Ok (ex_patched.1, Resource ex_patched_body).
Proof. vm_compute. reflexivity. Qed.

Notation ex_acct_step :=
  (acct_step ex_settings ex_jwt ex_hasher ex_fernet ex_totp ex_provider 300 "" ex_no_update).
Notation ex_console_step := (console_step ex_settings ex_jwt ex_hasher ex_fernet ex_totp ex_provider 300).


Lemma deprovisioned_locked_out_witness :
  signs_none 2 (mkWorld ex_patched.1 ∅ (mkOidcCache ∅ ∅) [])
    (do_request ex_settings ex_jwt ex_hasher ex_fernet ex_totp ex_provider 300
       (ex_request 10 (OpLogin2fa ("mfa_pending:" +:+ uuid_str 2) "123456")) (mkWorld ex_patched.1 ∅ (mkOidcCache ∅ ∅) [])).
Proof.
  refine (proj2 (deprovisioned_locked_out ex_settings ex_jwt ex_hasher ex_fernet ex_totp ex_provider 300 "" ex_no_update ex_env 2
    ex_operations [] ex_off ex_resolved.2 ex_resolved.1 ex_patched.1 ex_patched_body ex_resolved_wf eq_refl _ ex_patched_eq)
    _ (mkWorld ex_patched.1 ∅ (mkOidcCache ∅ ∅) []) eq_refl _).
  - left.
  - apply ex_fresh_same; vm_compute; reflexivity.
Defined.

(** Over the console the only administrator cannot be disabled; another can, once
    there are two. *)
Definition ex_promoted : acct_db := Eval vm_compute in
  match account_route ex_env ex_hasher (UpdateUser 2 (Some ADMIN) None None) ex_root ex_accounts with Ok db => db | Err _ => ex_accounts end.
Lemma ex_promoted_eq : account_route ex_env ex_hasher (UpdateUser 2 (Some ADMIN) None None) ex_root ex_accounts = Ok ex_promoted.
Proof. vm_compute. reflexivity. Qed.
Lemma ex_promoted_step : ex_console_step ex_accounts ex_promoted.
Proof. exact (console_account _ _ _ _ _ _ _ _ _ ex_env None ex_session _ _ _ ex_session_ok ex_accounts_fresh ex_promoted_eq). Qed.

Lemma last_admin_kept_witness : has_admin 1 ex_promoted.
Proof.
  apply (last_admin_kept ex_settings ex_jwt ex_hasher ex_fernet ex_totp ex_provider 300 1 ex_accounts).
  - exact ex_accounts_wf.
  - apply rtc_once. exact ex_promoted_step.
  - exists (ex_user 1 "root@corp.example" ADMIN false). split; [left|reflexivity].
Defined.

Example ex_last_admin_refused :
  account_route ex_env ex_hasher (UpdateUser 1 None (Some true) None) ex_root ex_accounts = Err (HTTPException 400).
Proof. vm_compute. reflexivity. Qed.

(** An identity provider can disable the last administrator. *)
Lemma scim_disables_last_admin :
  ∃ db db', acct_wf db ∧ has_admin 1 db ∧
    scim_step ex_settings "" ex_no_update db db' ∧ ¬ has_admin 1 db'.
Proof.
  assert (scim_route ex_env (as_oidc ex_settings) "" ex_no_update (ex_patch 1) ex_resolved.2 ex_resolved.1 =
          Ok ((ex_scim (ex_patch 1) ex_resolved.1).1, (ex_scim (ex_patch 1) ex_resolved.1).2)) as Heq by (vm_compute; reflexivity).
  eexists ex_accounts, _. split_and!; [exact ex_accounts_wf| | |].
  - exists (ex_user 1 "root@corp.example" ADMIN false). split; [left|reflexivity].
  - exact (scim_request _ _ _ _ _ ex_env ex_bearer _ _ _ _ ex_resolved_eq ex_resolved_fresh Heq).
  - intros (u & Hu & Ha). vm_compute in Hu. repeat (apply elem_of_cons in Hu as [->|Hu]; [vm_compute in Ha; discriminate Ha|]).
    by apply not_elem_of_nil in Hu.
Qed.

Lemma users_stay_in_tenant_witness : isolated 1 ex_accounts ex_patched.1.
Proof.
  exact (proj2 (users_stay_in_tenant ex_settings ex_jwt ex_hasher "" ex_no_update ex_accounts ex_patched.1 ex_accounts_wf)
    ex_env ex_bearer _ _ _ _ ex_resolved_eq ex_patched_eq).
Defined.

Definition ex_super : Actor := mkActor 1 ADMIN "user" None [] 1 true.
Definition ex_tenant : acct_db * Tenant := Eval vm_compute in
  match create_tenant ex_env "acme" "Acme" ex_super ex_accounts with Ok r => r | Err _ => (ex_accounts, mkTenant 0 "" "" false) end.
Lemma created_tenant_stays_witness :
  delete_tenant ex_env (λ _, false) (tn_id ex_tenant.2) ex_super ex_tenant.1 ≠ Ok ex_accounts.
Proof.
  apply (created_tenant_stays ex_settings ex_jwt ex_hasher ex_fernet ex_totp ex_provider 300 "" ex_no_update ex_env "acme" "Acme"
    ex_super ex_accounts ex_tenant.1 ex_tenant.2 ex_tenant.1).
  - exact ex_accounts_wf.
  - exact ex_accounts_fresh.
  - vm_compute. reflexivity.
  - apply rtc_refl.
Defined.

Definition ex_shown : dict := Eval vm_compute in to_scim_user "" None (ex_user 2 "ann@corp.example" ANALYST true).

Definition ex_post : dict := [("userName", PStr "Bob@corp.example"); ("externalId", PStr "00u1")].
Definition ex_posted : acct_db * scim_answer := Eval vm_compute in ex_scim (ScimCreate ex_post) ex_resolved.1.
Definition ex_posted_body : pyval := Eval vm_compute in match ex_posted.2 with Resource b => b | _ => PNone end.
Lemma scim_create_repeatable_witness :
  ∃ db2, scim_create_user ex_env (as_oidc ex_settings) "" ex_no_update ex_post ex_resolved.2 ex_posted.1 = Ok (db2, Resource ex_posted_body) ∧
    ac_users db2 = ac_users ex_posted.1.
Proof.
  apply (scim_create_repeatable (as_oidc ex_settings) "" ex_no_update ex_env ex_env ex_post "00u1" ex_resolved.2 ex_resolved.1 ex_posted.1 ex_posted_body).
  - exact ex_resolved_wf.
  - exact ex_resolved_fresh.
  - vm_compute. reflexivity.
  - vm_compute. reflexivity.
  - vm_compute. reflexivity.
Defined.
